(* ===== verification/_CoqProject ===== *)
-Q . S2P
Prelude.v
GoStrings.v
GoUrl.v
Sha256.v
Redis.v
GoTime.v
World.v
Frame.v
Observability.v
RelayState.v
RelayStateSpec.v
PublicAddressPolicy.v
ReceiverHealth.v
Negotiation.v
Signer.v
NegotiationSpec.v
Rfc9421.v
Rfc9421Spec.v
Json.v
JsonSpec.v
JsonRoundTrip.v
HttpClient.v
ActivityModel.v
DoGet.v
DoGetSpec.v
Queue.v
QueueSpec.v
Relay.v
RelaySpec.v
Decode.v
DecodeSpec.v
Inbox.v
InboxSpec.v
ReplaySpec.v
Deliver.v
DeliverSpec.v
NetAddr.v
DirectoryOrigin.v
DirectoryProfile.v
DirectoryProfileSpec.v
DirectoryStore.v
DirectoryStoreSpec.v
DirectoryClient.v
DirectoryClientSpec.v
DirectoryScheduler.v
DirectorySchedulerSpec.v
FileSystem.v
DirectoryConfig.v
DirectoryEditor.v
DirectoryEditorSpec.v
DirectoryDisableSpec.v
DirectoryCommand.v
DirectoryCommandSpec.v
RelayConfig.v
RelayConfigSpec.v
DirectoryService.v
DirectoryServiceSpec.v
StatusPage.v
StatusPageSpec.v
ObservabilityService.v
ObservabilityServiceSpec.v
Control.v
ControlSpec.v
ControlUnfollowSpec.v
ControlExamples.v
Startup.v
StartupSpec.v
ServerLifecycle.v
ServerLifecycleSpec.v
ActorKey.v
ActorKeySpec.v
ProbeNegotiation.v
ProbeInbound.v
ProbeExamples.v
Harness.v
ProbeMesh.v
MeshRun.v
InboundRun.v
NegotiationRun.v
CommandTree.v
