(* ===== verification/Prelude.v ===== *)
(** * Activity-Relay: a verification development

    Activity-Relay is an ActivityPub relay in Go.  A server follows it (as a
    [subscriber], Mastodon style, or a [follower], LitePub style); whatever a known
    server posts publicly to its inbox is passed on to all the others.  Two
    processes share one Redis database: the API process authenticates what arrives,
    decides what to do with it and queues deliveries; the worker process signs and
    posts them.

    ** The program and the files that model it

    The path of an activity, from the inbox to the receivers:

    - [Inbox]: api/handle.go, api/activitypub_collections.go.  [handleInbox] decodes,
      routes by audience and type ([routeActivity]), answers, records a metric.
    - [Decode]: api/decode.go, api/rfc9421_inbound.go.  [decodeActivity]
      authenticates under the legacy profile or under RFC 9421.
    - [Rfc9421]: internal/httpsignature/rfc9421_verify.go, rfc9421.go,
      redis_nonce_store.go.  [VerifyPOST], the parameter policy, the nonce store.
    - [ActivityModel]: models/models.go.  Actors, activities, their JSON, remote
      documents.
    - [PublicAddressPolicy]: models/public_address_policy.go.
    - [Relay]: api/resolver.go (from [normalizedActorDomain] on),
      api/relay_loop_guard.go.  Follow and unfollow, the three fan-outs, the guard
      against relaying a canonical activity twice.
    - [Queue]: api/resolver.go (up to [enqueueActivityForFollower]),
      internal/deliverypolicy, the recorders of api/operational_metrics.go.
      Capacity, target selection, storing the body, sending the tasks.
    - [Negotiation], [Signer]: internal/httpsignature (profile.go,
      destination_negotiation.go, redis_destination_capability.go,
      accept_signature.go, signer.go, configured_signer.go).  Which signature a
      receiver gets, the signers, what a response teaches.
    - [HttpClient], [DoGet]: net/http's redirect loop, and the signed fetch over it
      ([ConfiguredSigner.DoGET] and the executors of models/models.go).
    - [Deliver]: deliver/deliver.go, deliver/sender.go, internal/deliverymeta.  The
      tasks of the worker, over net/http's client with its default redirects.
    - [RelayState]: models/state.go.  The state in Redis and its copy in memory.
    - [ReceiverHealth]: models/receiver_health.go.
    - [Observability]: internal/observability/operational.go.  The metrics ledger and
      the classification of delivery errors.
    - [RelayConfig]: models/config.go, the key file of models/utils.go, the relay actor of
      models/models.go.

    What surrounds it, the operator's side:

    - [StatusPage]: api/web.go, the runtime snapshot of api/operational_metrics.go, webfinger
      and nodeinfo (models/models.go, api/handle.go).
    - [ObservabilityService]: internal/observability/observability.go and the collector of
      operational.go.  The recorder around a response, the probes, what is collected.
    - [Control]: control/ (config.go, domain.go, follow.go, utils.go).  The commands over the
      relay state.
    - [ServerLifecycle]: api/api.go.  The listeners, and [serveHTTPServers] as a transition
      system.
    - [ActorKey]: models/key.go, the public keys of models/utils.go.
    - [Startup]: main.go, control/control.go, [initialize] of api/api.go and
      deliver/deliver.go.  The configuration test, the start, the variables of each process.
    - [CommandTree]: the commands and flags of main.go, control/ and
      internal/directorycommand, and what the commands of main.go run.
    - [ProbeNegotiation], [ProbeInbound], [ProbeMesh]: contrib/ops.  The project's own probes
      of a running relay: what they send, count and conclude.
    - [Harness], [NegotiationRun], [InboundRun], [MeshRun]: the probes as programs.  Ports, keys,
      certificates, servers, containers, processes, deferred calls, failures and reports, over
      a machine whose every call is logged and may fail.

    Beside it, the registration of the relay with public directories:

    - [DirectoryOrigin], [DirectoryProfile], [DirectoryClient]: internal/directoryclient.
      Canonical origins, the descriptive profile, the signed requests of the three protocol
      versions and the strict reading of their answers.
    - [DirectoryStore], [DirectoryScheduler]: internal/directoryscheduler.  The stored state
      and the lease of a directory; visits, deadlines and back-off.
    - [DirectoryConfig], [DirectoryEditor]: internal/directoryconfig.  The YAML file: reading
      it, switching an entry off, replacing the file call by call.
    - [DirectoryCommand]: internal/directorycommand.  The operator's commands.
    - [DirectoryService]: api/directory_scheduler.go.  The scheduler in the API process.

    The commands and the scheduler meet in the file (the durable flag of an entry) and in
    Redis (the lease and the state of a directory).

    Below them: [Prelude] (results, errors, tactics, lemmas), [GoStrings], [GoUrl],
    [GoTime], [Sha256], [Json] (the parts of Go's standard library the sources call,
    as executable functions on byte strings), [NetAddr] (net/netip), [Redis] (the
    service), [World] (the state of the process and its effects), [Frame] (reasoning
    about effects), [FileSystem] (files, names, syncs and crashes).

    ** How the code is modelled

    A Go function is a Rocq function of the same name.  One that has effects runs in
    the monad [M] of [World]: it changes a [World] (Redis, the relay state, the
    position in the clock and in the random UUIDs, the queue, the requests sent, the
    goroutines started, the actor cache) and ends with [Done] a value or with
    [Panic].  An [(A, error)] result is a [result A]; [x ←! m; k] is the early return
    on an error.  A package's global variables are a record ([Globals], [Worker]).
    A goroutine is recorded when it is started ([w_spawned]); [Relay.runGo] is what
    it does when it runs.

    The scheduler adds its own field to the world ([SchedWorld]), a command the file
    system and its output ([CmdWorld]).  What the runtime decides is an argument
    ([visitEnv], [leaseEnv]): how often a lease was renewed, whether the context ended.
    A file-system call is numbered, may fail, and may be preceded by what other processes
    do; the state after every call is logged, so that a property of the log is one of
    every instant at which the machine may stop.

    Redis is the class [Redis] with the laws [RedisLaws]: every request may fail,
    before or after it took effect.  [RedisReliable] adds that none does; the
    theorems that need it say so.  A Lua script is the sequence of its commands, run
    as one request.  Third-party packages (go-fed/httpsig, common-fate/httpsig,
    httpsfv, machinery, go-cache, viper, yaml.v3, the cryptography) are parameters; what is relied on
    is a named hypothesis or class ([PlannerLaws], [ObserverLaws], [StoreLaws],
    [ClientLaws], [YamlLaws], [FetchKeepsNonces], [brokerDocumented]) that the relay's own implementation is proved to satisfy, or
    that the witnesses discharge.  Every conditional theorem has a witness on a
    concrete service ([Calm], [Sim]) and concrete parameters.

    ** What is proved

    - [RelayStateSpec]: the invariant of the state under every operation and every
      connection failure; loading is all or nothing; what each mutator does.
    - [DecodeSpec], [Rfc9421Spec]: what is known of an activity that was accepted
      (body, digest, signature, nonce, actor); the parameter policy as an equivalence;
      replay windows.
    - [ReplaySpec]: an accepted signature that comes again while its nonce is remembered
      is answered 400, through decoding, nonce store and inbox.
    - [InboxSpec]: statuses and effects of the inbox; refusal of what is not
      authenticated, blocked, unknown or excluded by policy.
    - [QueueSpec]: soundness and completeness of a fan-out, capacity.
    - [RelaySpec]: routes, refusal, the loop guard, follow requests (and the panic of
      a follow without endpoints).
    - [NegotiationSpec]: plans, fallback, the capability store, evidence.
    - [DeliverSpec]: attempts, the count of remaining targets, the outcome of a post and of
      the redirects that follow it.
    - [ReceiverHealth], [Observability]: a health record is its history; the
      vocabulary of the metrics is closed.
    - [JsonSpec], [JsonRoundTrip]: the JSON parser always ends with a value or an error of
      the text; what is printed parses back.
    - [DoGetSpec]: a signed fetch ends within twenty requests, each signed anew for its own
      URL; it falls back once, and only on evidence; what a fetched document is.
    - [RelayConfigSpec]: an accepted configuration is within its bounds; the dry run agrees
      with a start.
    - [StartupSpec]: a configuration that passes the test starts, with the same warnings;
      the three processes it starts use the same queue, key and profile.
    - [ServerLifecycleSpec]: no goroutine of a server outlives [serveHTTPServers]; every run
      is finite, and goes on until the function has returned.
    - [ActorKeySpec]: a generated key is complete and readable, or absent.
    - [StatusPageSpec], [ObservabilityServiceSpec]: the status page counts what it lists; the
      snapshot partitions the receivers; instrumenting is transparent, and the inbox metric sees
      the status that is sent; collected counters
      are the sums of their fields.
    - [ControlSpec], [ControlUnfollowSpec]: an approved follow is stored and answered, a failed
      answer keeps the request, unfollowing removes and rejects whenever the memory is
      reloaded, export and import.
    - [ProbeExamples]: the negotiation probe passes on the modelled signer; the inbound probe,
      against a relay started from its configuration, gets the expected answers (and fails
      for another reason).
    - [ProbeMesh]: the proxies pass on fewer posts than the threshold in any
      interleaving; the figures of the report; the watching loop ends and tells the truth.
    - [Harness]: rules for what a computation takes and asks to release, how many calls it makes,
      and what it leaves on disk.
    - [MeshRun], [InboundRun], [NegotiationRun]: whatever fails, a probe's run asks for the
      release of what it took, and leaves only what could not be released; its exit code and its report say how it ended (the negotiation probe's
      success is a run of [negotiationProbe]); its waiting is bounded.
    - [CommandTree]: which commands can be run (three cannot, for a letter that two flags
      share).
    - [DirectoryOrigin], [DirectoryProfileSpec]: which directory lists are accepted;
      sanitizing and normalizing a profile agree (and where they do not).
    - [DirectoryStoreSpec]: the lease excludes everybody else in any interleaving of calls of
      the store; a saved state reads back.
    - [DirectoryClientSpec]: answers are validated; registration on top of a heartbeat only
      when told; no connection to local addresses, as blocks of numbers (but to the mapped form
      of the unspecified address).
    - [DirectorySchedulerSpec]: back-off and sleeps are bounded; no contact without the
      lease and the flag; a due visit completes and leaves its outcome stored.
    - [DirectoryEditorSpec], [DirectoryDisableSpec]: at every instant of a replacement a
      crash leaves one complete file; a disabled entry is off on disk.
    - [DirectoryCommandSpec]: retries end; unregister switches off before it asks.
    - [DirectoryServiceSpec]: a disabled directory is left alone by the scheduler.

    ** Fuel and bounds

    Most recursion is structural.  [Json.jsonParse] has fuel for twice the length of
    its input plus one, which [JsonSpec] proves to be enough; [Signer.replaceAll] has as much as its input is
    long and consumes a byte per step; the binary search of the publishers
    ([RelayState.searchLoop]) has one more than the length of the list and halves the interval.
    [FileSystem.followLinks] and [Startup.followName] follow 40 links, as the system does;
    the redirect loop has fuel for the ten exchanges of net/http's own policy, the largest
    limit here ([DeliverSpec.follow_default]);
    the waiting loops of the probes ([Harness.awaiting], [MeshRun.watchLoop]) have a round for every
    pause that fits before their deadline and two more, and are proved never to run out;
    [DirectoryEditor.lockAttempts] and [DirectoryCommand.retryFrom] count the attempts of
    the code (4 and 3).
    Integers are [Z] with the width written out where the code depends on it
    (Redis counters and [strconv.ParseInt] at 64 bits, Lua numbers as doubles).

    ** What is not modelled

    Upper and lower case beyond ASCII ([GoStrings.ToLower]) and the offsets in the
    texts of JSON errors; log messages, but for the warnings of a start; the mutex of the
    relay state (an operation is one step); deadlines of Redis calls (a request that times
    out has failed); the settings of most HTTP clients and servers (TLS, timeouts); the metrics
    library (what is recorded and emitted is); help texts, shell completion by cobra and the
    signal handler of main.go; the numeric flags of the reflection probe, and what a reverse
    proxy or a relay under test does while a probe runs (arbitrary).  Of a file system:
    directories as files (making one changes no name), hard links, and blocking on a lock (a
    lock that is taken was free); the nil context that [serveHTTPServers] refuses, and the time
    [Shutdown] takes (its effect and its return are one step); fixed pauses of the negotiation
    probe (the clock moves on by any amount anyway); a command that is cancelled by the operator. *)

From Stdlib Require Export Ascii String ZArith Lia.
From stdpp Require Export base tactics option strings gmap sorting relations numbers.
From stdpp Require Export list.

#[export] Set Default Goal Selector "!".

(** Go source is about machine integers and byte strings: [Z] literals and
    string literals are the default readings. *)
Declare Scope relay_scope.
Delimit Scope relay_scope with relay.
#[global] Open Scope string_scope.
#[global] Open Scope Z_scope.
#[global] Open Scope list_scope.

(** ** Go errors and fallible results *)

(** A Go [error]: its text ([err.Error()]) and the sentinel errors found by
    [errors.Is] on its wrapping chain. *)
Record error := mkError { err_text : string; err_is : list string }.

#[export] Instance error_eq_dec : EqDecision error.
Proof. solve_decision. Defined.

(** [errors.New(text)] and [fmt.Errorf(prefix + "%w", err)]. *)
Definition errorsNew (text : string) : error := mkError text [].
Definition errorWrap (prefix : string) (e : error) : error :=
  mkError (prefix +:+ err_text e) (err_is e).
(** A package-level sentinel [var ErrX = errors.New(text)], compared by identity. *)
Definition errorSentinel (name text : string) : error := mkError text [name].
(** [errors.Is(err, sentinel)] for a sentinel of that name. *)
Definition errorIs (e : error) (name : string) : bool := bool_decide (name ∈ err_is e).

(** The pair [(A, error)] of a Go function that returns a meaningful [A] exactly
    when its error is [nil]. *)
Inductive result (A : Type) := Ok (a : A) | Err (e : error).
Arguments Ok {A} a.
Arguments Err {A} e.

#[export] Instance result_ret : MRet result := @Ok.
#[export] Instance result_bind : MBind result := λ A B f r,
  match r with Ok a => f a | Err e => Err e end.
#[export] Instance result_fmap : FMap result := λ A B f r,
  match r with Ok a => Ok (f a) | Err e => Err e end.
#[export] Instance result_eq_dec `{EqDecision A} : EqDecision (result A).
Proof. solve_decision. Defined.

Lemma result_bind_Ok {A B} (m : result A) (f : A → result B) b :
  m ≫= f = Ok b → ∃ a, m = Ok a ∧ f a = Ok b.
Proof. destruct m as [a|e]; [by exists a|done]. Qed.
Definition is_ok {A} (r : result A) : bool := match r with Ok _ => true | Err _ => false end.
Definition mapErr {A} (f : error → error) (r : result A) : result A :=
  match r with Ok a => Ok a | Err e => Err (f e) end.

(** ** Boolean helpers that read like the code's conditions *)

Definition eqs (a b : string) : bool := bool_decide (a = b).
Notation "a =s b" := (eqs a b) (at level 70) : relay_scope.
#[global] Open Scope relay_scope.

Lemma eqs_true a b : eqs a b = true ↔ a = b.
Proof. unfold eqs. by rewrite bool_decide_eq_true. Qed.
Lemma eqs_false a b : eqs a b = false ↔ a ≠ b.
Proof. unfold eqs. by rewrite bool_decide_eq_false. Qed.
Lemma eqs_refl a : eqs a a = true.
Proof. by apply eqs_true. Qed.

(** [In] as a test: a [switch] with several string cases. *)
Definition oneOf (s : string) (l : list string) : bool := existsb (eqs s) l.
Lemma oneOf_true s l : oneOf s l = true ↔ s ∈ l.
Proof.
  unfold oneOf. rewrite existsb_exists. setoid_rewrite eqs_true.
  rewrite list_elem_of_In. naive_solver.
Qed.

(** ** The development's automation *)

Create HintDb relay.
Create Rewrite HintDb relay.
Create Rewrite HintDb relay_simp.
#[export] Hint Rewrite eqs_true eqs_false oneOf_true andb_true_iff andb_false_iff
  orb_true_iff orb_false_iff negb_true_iff negb_false_iff
  Z.ltb_lt Z.ltb_ge Z.leb_le Z.leb_gt Z.eqb_eq Z.eqb_neq
  bool_decide_eq_true bool_decide_eq_false : relay.
#[export] Hint Rewrite eqs_refl : relay_simp.
#[export] Hint Resolve eqs_refl : relay.

(** Turn boolean conditions of the code, in hypotheses, into propositions. *)
Ltac boolify := autorewrite with relay in *; destruct_and?.

(** Case analysis on the next condition or match the code tests, with its equation kept. *)
Ltac step_case :=
  match goal with
  | |- context [ if ?b then _ else _ ] => destruct b eqn:?
  | |- context [ match ?x with _ => _ end ] => destruct x eqn:?
  end.
Ltac step_case_in H :=
  match type of H with
  | context [ if ?b then _ else _ ] => destruct b eqn:?
  | context [ match ?x with _ => _ end ] => destruct x eqn:?
  end.

(** Read a field of a map built by insertions of literal keys. *)
Ltac map_look := repeat first [rewrite lookup_insert_eq | rewrite lookup_insert_ne by done].

(** ** Generic lemmas *)

Section lists.
Context {A B : Type}.

Lemma existsb_false (f : A → bool) l :
  existsb f l = false ↔ Forall (λ x, f x = false) l.
Proof.
  induction l as [|x l IH]; simpl; [by split|].
  rewrite orb_false_iff, IH, Forall_cons. done.
Qed.

Lemma forallb_Forall (f : A → bool) l : forallb f l = true ↔ Forall (λ x, f x = true) l.
Proof.
  induction l as [|x l IH]; simpl; [by split|].
  by rewrite andb_true_iff, IH, Forall_cons.
Qed.

Lemma NoDup_fmap_inj_in (f : A → B) l x y :
  NoDup (f <$> l) → x ∈ l → y ∈ l → f x = f y → x = y.
Proof.
  induction l as [|z l IH]; [set_solver|].
  rewrite fmap_cons, NoDup_cons. intros [Hz Hl] Hx Hy Hf.
  apply elem_of_cons in Hx as [->|Hx]; apply elem_of_cons in Hy as [->|Hy]; auto.
  - exfalso. apply Hz. rewrite Hf. by apply list_elem_of_fmap_2.
  - exfalso. apply Hz. rewrite <- Hf. by apply list_elem_of_fmap_2.
Qed.

Lemma StronglySorted_lookup (R : relation A) l i j x y :
  StronglySorted R l → (i < j)%nat → l !! i = Some x → l !! j = Some y → R x y.
Proof.
  intros Hs. revert i j. induction Hs as [|z l Hs IH Hz]; intros i j Hij Hi Hj; [done|].
  destruct j as [|j]; [lia|]. simpl in Hj. destruct i as [|i]; simpl in Hi.
  - injection Hi as <-. rewrite Forall_forall in Hz. apply Hz. by eapply list_elem_of_lookup_2.
  - apply (IH i j); auto with lia.
Qed.
End lists.

(** Strings are ordered bytewise, as Go's [<] and [sort.Strings] order them. *)
Definition byteN (a : ascii) : N := Ascii.N_of_ascii a.

Fixpoint strLtb (a b : string) : bool :=
  match a, b with
  | _, EmptyString => false
  | EmptyString, String _ _ => true
  | String x a', String y b' =>
      if (byteN x <? byteN y)%N then true
      else if (byteN y <? byteN x)%N then false else strLtb a' b'
  end.
Definition strLe (a b : string) : Prop := strLtb b a = false.
#[export] Instance strLe_dec : RelDecision strLe.
Proof. intros a b. unfold strLe. apply _. Defined.

Lemma byteN_inj x y : byteN x = byteN y → x = y.
Proof.
  unfold byteN. intros H.
  by rewrite <- (Ascii.ascii_N_embedding x), <- (Ascii.ascii_N_embedding y), H.
Qed.

Ltac byte_cases :=
  repeat match goal with
  | |- context [ (?x <? ?y)%N ] => destruct (N.ltb_spec x y)
  | H : context [ (?x <? ?y)%N ] |- _ => destruct (N.ltb_spec x y)
  end.

Lemma strLtb_irrefl a : strLtb a a = false.
Proof. induction a as [|x a IH]; simpl; [done|]. by rewrite N.ltb_irrefl. Qed.

Lemma strLtb_trans a b c : strLtb a b = true → strLtb b c = true → strLtb a c = true.
Proof.
  revert b c. induction a as [|x a IH]; intros [|y b] [|z c]; simpl; try done.
  byte_cases; try done; try lia. eauto.
Qed.

Lemma strLtb_total a b : strLtb a b = false → strLtb b a = false → a = b.
Proof.
  revert b. induction a as [|x a IH]; intros [|y b]; simpl; try done.
  byte_cases; try done; try lia. intros H1 H2.
  f_equal; [apply byteN_inj; lia|eauto].
Qed.

Lemma strLtb_asym a b : strLtb a b = true → strLtb b a = false.
Proof.
  intros H. destruct (strLtb b a) eqn:E; [|done].
  pose proof (strLtb_trans _ _ _ H E) as H'. by rewrite strLtb_irrefl in H'.
Qed.

#[export] Instance strLe_total : Total strLe.
Proof.
  intros a b. unfold strLe. destruct (strLtb b a) eqn:E; [right|by left].
  by apply strLtb_asym.
Qed.
#[export] Instance strLe_trans : Transitive strLe.
Proof.
  intros a b c. unfold strLe. intros H1 H2. destruct (strLtb c a) eqn:E; [|done].
  destruct (strLtb b c) eqn:E1.
  - by rewrite (strLtb_trans _ _ _ E1 E) in H1.
  - pose proof (strLtb_total _ _ E1 H2). subst. congruence.
Qed.
#[export] Instance strLe_antisym : AntiSymm (=) strLe.
Proof. intros a b H1 H2. by apply strLtb_total. Qed.

(** [sort.Strings]. *)
Definition sortStrings (l : list string) : list string := merge_sort strLe l.

Lemma sortStrings_perm l : sortStrings l ≡ₚ l.
Proof. apply merge_sort_Permutation. Qed.
Lemma sortStrings_sorted l : Sorted strLe (sortStrings l).
Proof. apply Sorted_merge_sort, _. Qed.
Lemma sortStrings_elem x l : x ∈ sortStrings l ↔ x ∈ l.
Proof. by rewrite sortStrings_perm. Qed.
#[export] Hint Resolve sortStrings_perm sortStrings_sorted : relay.
