(* ===== verification/GoStrings.v ===== *)
(** * The Go string functions the relay uses

    Go strings are byte strings; [string] here is Stdlib's list of 8-bit
    characters.  This file models the functions of the packages [strings],
    [strconv] and [encoding/hex] the sources call, on all byte strings:

    - [TrimSpace] removes the ASCII white space and every multi-byte UTF-8
      encoding of a Unicode white-space character at both ends;
    - [ToLower] changes the ASCII letters and leaves the bytes above 127 alone
      (Go also lowers non-ASCII letters; the sources apply it to host names,
      scheme names and closed vocabularies);
    - [EqualFold] is Go's whenever one side is ASCII, as in the sources: the two
      non-ASCII characters that fold to an ASCII letter (the long s and the Kelvin
      sign) are folded too;
    - [itoa] and [parseInt] are [strconv.FormatInt] and [strconv.ParseInt] in
      base ten, with Go's range check at a width. *)

From S2P Require Import Prelude.
From Stdlib Require Import DecimalString DecimalZ DecimalN DecimalPos.

Abbreviation bytes := list_ascii_of_string.
Abbreviation ofBytes := string_of_list_ascii.

Definition chr (n : N) : ascii := ascii_of_N n.

Lemma ofBytes_bytes s : ofBytes (bytes s) = s.
Proof. apply string_of_list_ascii_of_string. Qed.
Lemma bytes_ofBytes l : bytes (ofBytes l) = l.
Proof. apply list_ascii_of_string_of_list_ascii. Qed.
Lemma bytes_app a b : bytes (a +:+ b) = bytes a ++ bytes b.
Proof. induction a as [|x a IH]; simpl; [done|]. by rewrite IH. Qed.
Lemma ofBytes_app a b : ofBytes (a ++ b) = ofBytes a +:+ ofBytes b.
Proof. induction a as [|x a IH]; simpl; [done|]. by rewrite IH. Qed.
Lemma length_bytes s : length (bytes s) = String.length s.
Proof. induction s as [|c s IH]; [done|]. simpl. by rewrite IH. Qed.
#[export] Hint Rewrite ofBytes_bytes bytes_ofBytes bytes_app ofBytes_app : relay_simp.

Definition len (s : string) : Z := Z.of_nat (String.length s).

(** ** White space *)

Definition isAsciiSpace (c : ascii) : bool :=
  let n := byteN c in ((9 <=? n) && (n <=? 13) || (n =? 32))%N.

(** [trimLeft l] drops leading white space; [dropSpace2] and [dropSpace3]
    recognise the two- and three-byte encodings. *)
Definition isSpace2 (a b : ascii) : bool :=
  (byteN a =? 194)%N && ((byteN b =? 133)%N || (byteN b =? 160)%N).
Definition isSpace3 (a b c : ascii) : bool :=
  let '(x, y, z) := (byteN a, byteN b, byteN c) in
  ((x =? 225) && (y =? 154) && (z =? 128)
   || (x =? 226) && (y =? 128) && (((128 <=? z) && (z <=? 138)) || (z =? 168) || (z =? 169) || (z =? 175))
   || (x =? 226) && (y =? 129) && (z =? 159)
   || (x =? 227) && (y =? 128) && (z =? 128))%N.

Fixpoint trimLeftBytes (l : list ascii) : list ascii :=
  match l with
  | a :: ((b :: ((c :: l3) as l2)) as l1) =>
      if isAsciiSpace a then trimLeftBytes l1
      else if isSpace2 a b then trimLeftBytes l2
      else if isSpace3 a b c then trimLeftBytes l3 else l
  | [a; b] =>
      if isAsciiSpace a then if isAsciiSpace b then [] else [b]
      else if isSpace2 a b then [] else l
  | [a] => if isAsciiSpace a then [] else l
  | [] => []
  end.

(** The same on the reversed string: the last byte of a character comes first. *)
Fixpoint trimRightRev (l : list ascii) : list ascii :=
  match l with
  | a :: ((b :: ((c :: l3) as l2)) as l1) =>
      if isAsciiSpace a then trimRightRev l1
      else if isSpace2 b a then trimRightRev l2
      else if isSpace3 c b a then trimRightRev l3 else l
  | [a; b] =>
      if isAsciiSpace a then if isAsciiSpace b then [] else [b]
      else if isSpace2 b a then [] else l
  | [a] => if isAsciiSpace a then [] else l
  | [] => []
  end.

Definition TrimSpace (s : string) : string :=
  ofBytes (rev (trimRightRev (rev (trimLeftBytes (bytes s))))).

(** ** Case *)

Definition lowerByte (c : ascii) : ascii :=
  let n := byteN c in if ((65 <=? n) && (n <=? 90))%N then chr (n + 32) else c.
Fixpoint ToLower (s : string) : string :=
  match s with EmptyString => EmptyString | String c s => String (lowerByte c) (ToLower s) end.
Fixpoint foldBytes (l : list ascii) : list ascii :=
  match l with
  | [] => []
  | a :: r1 =>
      match r1 with
      | [] => [lowerByte a]
      | b :: r2 =>
          if ((byteN a =? 197) && (byteN b =? 191))%N then "s"%char :: foldBytes r2
          else
            match r2 with
            | c :: r3 =>
                if ((byteN a =? 226) && (byteN b =? 132) && (byteN c =? 170))%N
                then "k"%char :: foldBytes r3
                else lowerByte a :: foldBytes r1
            | [] => lowerByte a :: foldBytes r1
            end
      end
  end.
Definition EqualFold (a b : string) : bool :=
  eqs (ofBytes (foldBytes (bytes a))) (ofBytes (foldBytes (bytes b))).

(** ** Prefixes, suffixes, substrings *)

Fixpoint prefixBytes (p l : list ascii) : option (list ascii) :=
  match p, l with
  | [], _ => Some l
  | a :: p, b :: l => if decide (a = b) then prefixBytes p l else None
  | _ :: _, [] => None
  end.
Definition cutPrefix (p s : string) : option string :=
  ofBytes <$> prefixBytes (bytes p) (bytes s).
Definition cutSuffix (p s : string) : option string :=
  (λ l, ofBytes (rev l)) <$> prefixBytes (rev (bytes p)) (rev (bytes s)).
Definition HasPrefix (s p : string) : bool := match cutPrefix p s with Some _ => true | None => false end.
Definition HasSuffix (s p : string) : bool := match cutSuffix p s with Some _ => true | None => false end.
Definition TrimPrefix (s p : string) : string := default s (cutPrefix p s).
Definition TrimSuffix (s p : string) : string := default s (cutSuffix p s).

(** [strings.TrimRight(s, c)] for a one-byte cutset. *)
Fixpoint dropWhileByte (c : ascii) (l : list ascii) : list ascii :=
  match l with a :: l' => if decide (a = c) then dropWhileByte c l' else l | [] => [] end.
Definition TrimRightByte (s : string) (c : ascii) : string :=
  ofBytes (rev (dropWhileByte c (rev (bytes s)))).

Fixpoint containsBytes (p l : list ascii) : bool :=
  match prefixBytes p l with
  | Some _ => true
  | None => match l with [] => false | _ :: l' => containsBytes p l' end
  end.
Definition Contains (s sub : string) : bool := containsBytes (bytes sub) (bytes s).
Definition containsByte (c : ascii) (s : string) : bool := bool_decide (c ∈ bytes s).

(** [strings.Cut(s, sep)] for a one-byte separator: text before the first one, and after it. *)
Fixpoint cutBytes (c : ascii) (l : list ascii) : list ascii * option (list ascii) :=
  match l with
  | [] => ([], None)
  | a :: l' => if decide (a = c) then ([], Some l')
               else let '(b, r) := cutBytes c l' in (a :: b, r)
  end.
Definition Cut (s : string) (c : ascii) : string * string * bool :=
  match cutBytes c (bytes s) with
  | (b, Some r) => (ofBytes b, ofBytes r, true)
  | (b, None) => (ofBytes b, "", false)
  end.
(** Split at the last occurrence of a byte: [strings.LastIndexByte]. *)
Definition cutLast (s : string) (c : ascii) : option (string * string) :=
  match cutBytes c (rev (bytes s)) with
  | (b, Some r) => Some (ofBytes (rev r), ofBytes (rev b))
  | (_, None) => None
  end.

(** [strings.Split(s, sep)] for a one-byte separator. *)
Fixpoint splitBytes (c : ascii) (cur : list ascii) (l : list ascii) : list string :=
  match l with
  | [] => [ofBytes (rev cur)]
  | a :: l' => if decide (a = c) then ofBytes (rev cur) :: splitBytes c [] l'
               else splitBytes c (a :: cur) l'
  end.
Definition Split (s : string) (c : ascii) : list string := splitBytes c [] (bytes s).

(** [strings.Join]. *)
Fixpoint Join (l : list string) (sep : string) : string :=
  match l with
  | [] => ""
  | [a] => a
  | a :: l => a +:+ sep +:+ Join l sep
  end.

(** [strings.Fields]: maximal runs of non-space characters; [flushField] ends the run in
    progress (kept reversed). *)
Definition flushField (cur : list ascii) : list string :=
  match cur with [] => [] | _ => [ofBytes (rev cur)] end.
Fixpoint fieldsBytes (cur : list ascii) (l : list ascii) : list string :=
  match l with
  | [] => flushField cur
  | a :: l1 =>
      if isAsciiSpace a then flushField cur ++ fieldsBytes [] l1
      else match l1 with
      | [] => flushField (a :: cur)
      | b :: l2 =>
          if isSpace2 a b then flushField cur ++ fieldsBytes [] l2
          else match l2 with
          | [] => fieldsBytes (a :: cur) l1
          | c :: l3 =>
              if isSpace3 a b c then flushField cur ++ fieldsBytes [] l3
              else fieldsBytes (a :: cur) l1
          end
      end
  end.
Definition Fields (s : string) : list string := fieldsBytes [] (bytes s).

(** ** Numbers in base ten *)

(** [strconv.FormatInt(z, 10)], [strconv.Itoa]. *)
Definition itoa (z : Z) : string := NilZero.string_of_int (Z.to_int z).

(** [strconv.ParseUint(s, 10, width)] before the range check: one or more digits. *)
Definition parseDigits (s : string) : option Z :=
  match s with
  | EmptyString => None
  | _ => (λ u, Z.of_N (N.of_uint u)) <$> NilEmpty.uint_of_string s
  end.
Definition inWidth (w : Z) (z : Z) : bool := (- 2 ^ (w - 1) <=? z) && (z <? 2 ^ (w - 1)).

(** [strconv.ParseInt(s, 10, w)]: an optional sign, digits, and the range of a signed [w]-bit integer. *)
Definition parseInt (w : Z) (s : string) : option Z :=
  match s with
  | EmptyString => None
  | String c r =>
      let z := if decide (c = "-"%char) then Z.opp <$> parseDigits r
               else if decide (c = "+"%char) then parseDigits r else parseDigits s in
      z ← z; if inWidth w z then Some z else None
  end.
(** The value [strconv.ParseInt(s, 10, w)] returns beside its error: zero for a syntax error,
    the nearest bound for a number out of range. *)
Definition parseIntValue (w : Z) (s : string) : Z :=
  match s with
  | EmptyString => 0
  | String c r =>
      let z := if decide (c = "-"%char) then Z.opp <$> parseDigits r
               else if decide (c = "+"%char) then parseDigits r else parseDigits s in
      match z with
      | Some z => Z.max (- 2 ^ (w - 1)) (Z.min z (2 ^ (w - 1) - 1))
      | None => 0
      end
  end.
(** [strconv.ParseUint(s, 10, w)]. *)
Definition parseUint (w : Z) (s : string) : option Z :=
  z ← parseDigits s; if z <? 2 ^ w then Some z else None.

Lemma uint_of_string_digits d :
  NilEmpty.uint_of_string (NilEmpty.string_of_uint d) = Some d.
Proof. apply NilEmpty.usu. Qed.

Lemma string_of_uint_nonempty d :
  d ≠ Decimal.Nil → ∃ c r, NilEmpty.string_of_uint d = String c r ∧ c ≠ "-"%char ∧ c ≠ "+"%char.
Proof. destruct d; [done|..]; intros _; simpl; eexists _, _; done. Qed.

Lemma parseDigits_string_of_uint d :
  d ≠ Decimal.Nil → parseDigits (NilEmpty.string_of_uint d) = Some (Z.of_N (N.of_uint d)).
Proof.
  intros Hd. unfold parseDigits. rewrite uint_of_string_digits.
  destruct (string_of_uint_nonempty d Hd) as (c & r & -> & _). done.
Qed.

Lemma to_uint_pos_nonempty p : Pos.to_uint p ≠ Decimal.Nil.
Proof. intros H. by apply DecimalPos.Unsigned.to_uint_nonnil in H. Qed.

(** Round trip: printing an integer and parsing it at a width that holds it. *)
Lemma parseInt_itoa w z : inWidth w z = true → parseInt w (itoa z) = Some z.
Proof.
  intros Hw. unfold itoa, parseInt.
  destruct z as [|p|p]; simpl.
  - by rewrite Hw.
  - pose proof (to_uint_pos_nonempty p) as Hp.
    assert (Hs : NilZero.string_of_uint (Pos.to_uint p) = NilEmpty.string_of_uint (Pos.to_uint p))
      by (by destruct (Pos.to_uint p)).
    rewrite Hs. destruct (string_of_uint_nonempty _ Hp) as (c & r & E & H1 & H2).
    rewrite E. rewrite decide_False by done. rewrite decide_False by done.
    rewrite <- E, parseDigits_string_of_uint by done. simpl.
    replace (Z.of_N (N.of_uint (Pos.to_uint p))) with (Z.pos p).
    { by rewrite Hw. }
    unfold N.of_uint. by rewrite DecimalPos.Unsigned.of_to.
  - pose proof (to_uint_pos_nonempty p) as Hp.
    assert (Hs : NilZero.string_of_uint (Pos.to_uint p) = NilEmpty.string_of_uint (Pos.to_uint p))
      by (by destruct (Pos.to_uint p)).
    rewrite Hs, parseDigits_string_of_uint by done. simpl.
    replace (- Z.of_N (N.of_uint (Pos.to_uint p))) with (Z.neg p).
    { by rewrite Hw. }
    unfold N.of_uint. by rewrite DecimalPos.Unsigned.of_to.
Qed.

Lemma parseIntValue_parseInt w s z : parseInt w s = Some z → parseIntValue w s = z.
Proof.
  unfold parseInt, parseIntValue. destruct s as [|c r]; [done|].
  set (o := if decide _ then _ else _). clearbody o.
  destruct o as [y|]; simpl; [|done].
  destruct (inWidth w y) eqn:E; [|done]. intros [= ->].
  unfold inWidth in E. apply andb_true_iff in E as [E1 E2].
  apply Z.leb_le in E1. apply Z.ltb_lt in E2. lia.
Qed.

Lemma parseDigits_itoa z : 0 ≤ z → parseDigits (itoa z) = Some z.
Proof.
  intros Hz. destruct z as [|p|p]; [done| |lia]. unfold itoa. simpl.
  pose proof (to_uint_pos_nonempty p) as Hp.
  transitivity (parseDigits (NilEmpty.string_of_uint (Pos.to_uint p))); [by destruct (Pos.to_uint p)|].
  rewrite parseDigits_string_of_uint by done. unfold N.of_uint. by rewrite DecimalPos.Unsigned.of_to.
Qed.
Lemma parseUint_itoa w z : 0 ≤ z < 2 ^ w → parseUint w (itoa z) = Some z.
Proof.
  intros [Hz Hw]. unfold parseUint. rewrite parseDigits_itoa by done. simpl.
  by apply Z.ltb_lt in Hw as ->.
Qed.

(** ** Hexadecimal *)

Definition hexDigit (n : N) : ascii := if (n <? 10)%N then chr (48 + n) else chr (87 + n).
Fixpoint hexBytes (l : list ascii) : list ascii :=
  match l with
  | [] => []
  | a :: l => hexDigit (byteN a / 16) :: hexDigit (byteN a mod 16) :: hexBytes l
  end.
(** [hex.EncodeToString]. *)
Definition hexEncode (l : list ascii) : string := ofBytes (hexBytes l).

Lemma hexEncode_length l : String.length (hexEncode l) = (2 * length l)%nat.
Proof.
  unfold hexEncode. induction l as [|a l IH]; [done|].
  simpl in *. rewrite IH. lia.
Qed.

(** Go's [%q]: the string between quotes, with quotes, backslashes and control bytes escaped
    (the sources use it in error texts only). *)
Definition dquote : ascii := "034"%char.
Fixpoint quoteBytes (l : list ascii) : list ascii :=
  match l with
  | [] => []
  | a :: l =>
      (if decide (a = dquote ∨ a = "\"%char) then ["\"%char; a]
       else if decide (a = "010"%char) then ["\"%char; "n"%char]
       else if decide (a = "009"%char) then ["\"%char; "t"%char]
       else if decide (a = "013"%char) then ["\"%char; "r"%char]
       else if (byteN a <? 32)%N || (byteN a =? 127)%N
       then ["\"%char; "x"%char; hexDigit (byteN a / 16); hexDigit (byteN a mod 16)]
       else [a]) ++ quoteBytes l
  end.
Definition quote (s : string) : string := ofBytes ([dquote] ++ quoteBytes (bytes s) ++ [dquote]).

(** ** Lemmas *)

Lemma prefixBytes_app p l : prefixBytes p (p ++ l) = Some l.
Proof. induction p as [|a p IH]; simpl; [done|]. by rewrite decide_True. Qed.
Lemma prefixBytes_Some p l r : prefixBytes p l = Some r ↔ l = p ++ r.
Proof.
  split; [|intros ->; apply prefixBytes_app].
  revert l. induction p as [|a p IH]; intros [|b l]; simpl; try done; try by intros [= ->].
  case_decide; [subst|done]. intros H. by rewrite (IH _ H).
Qed.
Lemma TrimPrefix_app p s : TrimPrefix (p +:+ s) p = s.
Proof.
  unfold TrimPrefix, cutPrefix. rewrite bytes_app, prefixBytes_app. simpl. apply ofBytes_bytes.
Qed.
Lemma HasPrefix_app p s : HasPrefix (p +:+ s) p = true.
Proof. unfold HasPrefix, cutPrefix. by rewrite bytes_app, prefixBytes_app. Qed.
Lemma HasPrefix_true s p : HasPrefix s p = true ↔ ∃ r, s = p +:+ r.
Proof.
  split; [|intros [r ->]; apply HasPrefix_app].
  unfold HasPrefix, cutPrefix. destruct (prefixBytes _ _) as [r|] eqn:E; [|done].
  apply prefixBytes_Some in E. intros _. exists (ofBytes r).
  by rewrite <- (ofBytes_bytes s), E, ofBytes_app, ofBytes_bytes.
Qed.
Lemma append_inj p a b : p +:+ a = p +:+ b → a = b.
Proof. induction p as [|c p IH]; simpl; [done|]. intros [= H]. auto. Qed.
#[export] Instance append_inj' p : Inj (=) (=) (String.app p).
Proof. intros a b. apply append_inj. Qed.
Lemma len_nonneg s : 0 ≤ len s.
Proof. unfold len. lia. Qed.
#[export] Hint Rewrite TrimPrefix_app HasPrefix_app : relay_simp.
#[export] Hint Resolve len_nonneg : relay.
Arguments TrimSpace : simpl never.
Arguments ToLower : simpl never.
Arguments TrimSuffix : simpl never.
Arguments TrimPrefix : simpl never.
Arguments HasPrefix : simpl never.
Arguments HasSuffix : simpl never.
Arguments Contains : simpl never.
Arguments Cut : simpl never.
Arguments Split : simpl never.
Arguments Fields : simpl never.
Arguments itoa : simpl never.
Arguments parseInt : simpl never.
Arguments parseIntValue : simpl never.
Arguments quote : simpl never.
Arguments EqualFold : simpl never.

(** ** Trimming twice *)

(** A list that starts with a white-space character; a reversed list that ends with one. *)
Definition startsSpace (l : list ascii) : bool :=
  match l with
  | a :: b :: c :: _ => isAsciiSpace a || isSpace2 a b || isSpace3 a b c
  | [a; b] => isAsciiSpace a || isSpace2 a b
  | [a] => isAsciiSpace a
  | [] => false
  end.
Definition endsSpace (l : list ascii) : bool :=
  match l with
  | a :: b :: c :: _ => isAsciiSpace a || isSpace2 b a || isSpace3 c b a
  | [a; b] => isAsciiSpace a || isSpace2 b a
  | [a] => isAsciiSpace a
  | [] => false
  end.

Lemma trimLeft_cons3 a b c l : trimLeftBytes (a :: b :: c :: l) =
  if isAsciiSpace a then trimLeftBytes (b :: c :: l)
  else if isSpace2 a b then trimLeftBytes (c :: l)
  else if isSpace3 a b c then trimLeftBytes l else a :: b :: c :: l.
Proof. done. Qed.
Lemma trimRight_cons3 a b c l : trimRightRev (a :: b :: c :: l) =
  if isAsciiSpace a then trimRightRev (b :: c :: l)
  else if isSpace2 b a then trimRightRev (c :: l)
  else if isSpace3 c b a then trimRightRev l else a :: b :: c :: l.
Proof. done. Qed.
Lemma trimLeft_fix l : startsSpace l = false → trimLeftBytes l = l.
Proof.
  destruct l as [|a [|b [|c l]]]; cbn [startsSpace trimLeftBytes]; [done|..];
    rewrite ?orb_false_iff; intros; destruct_and?; by repeat (case_match; try congruence).
Qed.
Lemma trimRight_fix l : endsSpace l = false → trimRightRev l = l.
Proof.
  destruct l as [|a [|b [|c l]]]; cbn [endsSpace trimRightRev]; [done|..];
    rewrite ?orb_false_iff; intros; destruct_and?; by repeat (case_match; try congruence).
Qed.
Lemma trimLeft_trimmed l : startsSpace (trimLeftBytes l) = false.
Proof.
  induction l as [l IH] using (induction_ltof1 _ (@length ascii)). unfold ltof in IH.
  destruct l as [|a [|b [|c l]]]; [done|..].
  - simpl. by destruct (isAsciiSpace a) eqn:?.
  - simpl. destruct (isAsciiSpace a) eqn:Ha; [by destruct (isAsciiSpace b) eqn:?|].
    destruct (isSpace2 a b) eqn:Hb; [done|]. cbn [startsSpace]. by rewrite Ha, Hb.
  - rewrite trimLeft_cons3. destruct (isAsciiSpace a) eqn:Ha; [apply IH; simpl; lia|].
    destruct (isSpace2 a b) eqn:Hb; [apply IH; simpl; lia|].
    destruct (isSpace3 a b c) eqn:Hc; [apply IH; simpl; lia|]. cbn [startsSpace]. by rewrite Ha, Hb, Hc.
Qed.
Lemma trimRight_trimmed l : endsSpace (trimRightRev l) = false.
Proof.
  induction l as [l IH] using (induction_ltof1 _ (@length ascii)). unfold ltof in IH.
  destruct l as [|a [|b [|c l]]]; [done|..].
  - simpl. by destruct (isAsciiSpace a) eqn:?.
  - simpl. destruct (isAsciiSpace a) eqn:Ha; [by destruct (isAsciiSpace b) eqn:?|].
    destruct (isSpace2 b a) eqn:Hb; [done|]. cbn [endsSpace]. by rewrite Ha, Hb.
  - rewrite trimRight_cons3. destruct (isAsciiSpace a) eqn:Ha; [apply IH; simpl; lia|].
    destruct (isSpace2 b a) eqn:Hb; [apply IH; simpl; lia|].
    destruct (isSpace3 c b a) eqn:Hc; [apply IH; simpl; lia|]. cbn [endsSpace]. by rewrite Ha, Hb, Hc.
Qed.
Lemma trimRight_suffix l : ∃ p, l = p ++ trimRightRev l.
Proof.
  induction l as [l IH] using (induction_ltof1 _ (@length ascii)). unfold ltof in IH.
  destruct l as [|a [|b [|c l]]]; [by exists []|..].
  - simpl. destruct (isAsciiSpace a); [by exists [a]|by exists []].
  - simpl. destruct (isAsciiSpace a); [destruct (isAsciiSpace b); [by exists [a; b]|by exists [a]]|].
    destruct (isSpace2 b a); [by exists [a; b]|by exists []].
  - rewrite trimRight_cons3. destruct (isAsciiSpace a); [destruct (IH (b :: c :: l) ltac:(simpl; lia)) as [p Hp]; exists (a :: p); rewrite Hp at 1; done|].
    destruct (isSpace2 b a); [destruct (IH (c :: l) ltac:(simpl; lia)) as [p Hp]; exists (a :: b :: p); rewrite Hp at 1; done|].
    destruct (isSpace3 c b a); [destruct (IH l ltac:(simpl; lia)) as [p Hp]; exists (a :: b :: c :: p); rewrite Hp at 1; done|].
    by exists [].
Qed.
Lemma startsSpace_prefix p q : startsSpace (p ++ q) = false → startsSpace p = false.
Proof.
  destruct p as [|a [|b [|c p]]]; simpl; [done| | |done].
  - destruct q as [|b [|c q]]; simpl; rewrite ?orb_false_iff; tauto.
  - destruct q as [|c q]; simpl; rewrite ?orb_false_iff; tauto.
Qed.
(** A string that neither starts nor ends with white space is its own trimming. *)
Lemma TrimSpace_fix s :
  startsSpace (bytes s) = false → endsSpace (rev (bytes s)) = false → TrimSpace s = s.
Proof.
  intros H1 H2. unfold TrimSpace. by rewrite trimLeft_fix, trimRight_fix, rev_involutive, ofBytes_bytes.
Qed.
Lemma TrimSpace_idem s : TrimSpace (TrimSpace s) = TrimSpace s.
Proof.
  unfold TrimSpace at 2 3. apply TrimSpace_fix; rewrite bytes_ofBytes.
  - set (m := trimLeftBytes (bytes s)). destruct (trimRight_suffix (rev m)) as [p Hp].
    apply (startsSpace_prefix _ (rev p)). rewrite <- rev_app_distr, <- Hp, rev_involutive.
    apply trimLeft_trimmed.
  - rewrite rev_involutive. apply trimRight_trimmed.
Qed.
