(* ===== verification/GoUrl.v ===== *)
(** * net/url and the host helpers of package net

    The relay parses every remote identifier with [url.Parse] (or
    [url.ParseRequestURI]) and compares hosts, so the parser of Go 1.23's
    package [net/url] is modelled on all byte strings: control characters, the
    scheme, the query, the opaque and relative forms, the authority with its
    user information, IP literals and ports, percent decoding in each
    component, and [URL.String].  Error texts are [net/url]'s. *)

From S2P Require Import Prelude GoStrings.

(** ** The URL record *)

Record URL := mkURL {
  Scheme : string;
  Opaque : string;
  User : option (string * option string);
  Host : string;
  Path : string;
  RawPath : string;
  OmitHost : bool;
  ForceQuery : bool;
  RawQuery : string;
  Fragment : string;
  RawFragment : string
}.

#[export] Instance URL_eq_dec : EqDecision URL.
Proof. solve_decision. Defined.

Definition emptyURL : URL := mkURL "" "" None "" "" "" false false "" "" "".

(** ** Escaping *)

Inductive encoding := encodePath | encodeHost | encodeZone | encodeUserPassword | encodeFragment.
#[export] Instance encoding_eq_dec : EqDecision encoding.
Proof. solve_decision. Defined.

Definition inRange (c : ascii) (a b : N) : bool := ((a <=? byteN c) && (byteN c <=? b))%N.
Definition isDigit (c : ascii) : bool := inRange c 48 57.
Definition isAlpha (c : ascii) : bool := inRange c 65 90 || inRange c 97 122.
Definition isHex (c : ascii) : bool := isDigit c || inRange c 65 70 || inRange c 97 102.
Definition unhex (c : ascii) : N :=
  if isDigit c then byteN c - 48 else if inRange c 97 102 then byteN c - 87 else byteN c - 55.
Definition byteIn (c : ascii) (s : string) : bool := containsByte c s.

Definition hostExtra : string := ofBytes (bytes "!$&'()*+,;=:[]<>" ++ [dquote]).

Definition shouldEscape (c : ascii) (mode : encoding) : bool :=
  if isAlpha c || isDigit c then false
  else if bool_decide (mode = encodeHost ∨ mode = encodeZone) && byteIn c hostExtra then false
  else if byteIn c "-_.~" then false
  else if byteIn c "$&+,/:;=?@" && bool_decide (mode ∉ [encodeHost; encodeZone]) then
    match mode with
    | encodePath => byteIn c "?"
    | encodeUserPassword => byteIn c "@/?:"
    | _ => false
    end
  else if bool_decide (mode = encodeFragment) && byteIn c "!()*" then false
  else true.

(** [unescape(s, mode)]: the check loop and the decoding, fused. *)
Fixpoint unescapeBytes (mode : encoding) (l : list ascii) : result (list ascii) :=
  match l with
  | [] => Ok []
  | c :: l1 =>
      if decide (c = "%"%char) then
        match l1 with
        | a :: b :: l3 =>
            let esc := errorsNew ("invalid URL escape " +:+ quote (ofBytes [c; a; b])) in
            if negb (isHex a && isHex b) then Err esc
            else
              let is25 := bool_decide (a = "2"%char ∧ b = "5"%char) in
              let v := chr (unhex a * 16 + unhex b) in
              if bool_decide (mode = encodeHost) && (unhex a <? 8)%N && negb is25 then Err esc
              else if bool_decide (mode = encodeZone) && negb is25
                      && bool_decide (v ≠ " "%char) && shouldEscape v encodeHost then Err esc
              else cons v <$> unescapeBytes mode l3
        | _ => Err (errorsNew ("invalid URL escape " +:+ quote (ofBytes l)))
        end
      else if bool_decide (mode = encodeHost ∨ mode = encodeZone)
              && (byteN c <? 128)%N && shouldEscape c mode
      then Err (errorsNew ("invalid character " +:+ quote (ofBytes [c]) +:+ " in host name"))
      else cons c <$> unescapeBytes mode l1
  end.
Definition unescape (s : string) (mode : encoding) : result string :=
  ofBytes <$> unescapeBytes mode (bytes s).

Definition upperHexDigit (n : N) : ascii := if (n <? 10)%N then chr (48 + n) else chr (55 + n).
Fixpoint escapeBytes (mode : encoding) (l : list ascii) : list ascii :=
  match l with
  | [] => []
  | c :: l => (if shouldEscape c mode
               then ["%"%char; upperHexDigit (byteN c / 16); upperHexDigit (byteN c mod 16)]
               else [c]) ++ escapeBytes mode l
  end.
Definition escape (s : string) (mode : encoding) : string := ofBytes (escapeBytes mode (bytes s)).

(** ** The authority *)

Definition validOptionalPort (port : string) : bool :=
  match bytes port with
  | [] => true
  | c :: l => bool_decide (c = ":"%char) && forallb isDigit l
  end.

Definition validUserinfo (s : string) : bool :=
  forallb (λ c, isAlpha c || isDigit c || byteIn c "-._:~!$&'()*+,;=%@") (bytes s).

(** Index of the first occurrence of [%25], as the split the code makes there. *)
Fixpoint cutZone (acc l : list ascii) : option (list ascii * list ascii) :=
  match prefixBytes (bytes "%25") l with
  | Some _ => Some (rev acc, l)
  | None => match l with [] => None | c :: l' => cutZone (c :: acc) l' end
  end.

Definition parseHost (host : string) : result string :=
  if HasPrefix host "[" then
    match cutLast host "]" with
    | None => Err (errorsNew "missing ']' in host")
    | Some (before, colonPort) =>
        if negb (validOptionalPort colonPort)
        then Err (errorsNew ("invalid port " +:+ quote colonPort +:+ " after host"))
        else match cutZone [] (bytes before) with
        | Some (h1, h2) =>
            a ← unescapeBytes encodeHost h1;
            b ← unescapeBytes encodeZone h2;
            c ← unescapeBytes encodeHost ("]"%char :: bytes colonPort);
            Ok (ofBytes (a ++ b ++ c))
        | None => unescape host encodeHost
        end
    end
  else
    match cutLast host ":" with
    | Some (_, port) =>
        if negb (validOptionalPort (":" +:+ port))
        then Err (errorsNew ("invalid port " +:+ quote (":" +:+ port) +:+ " after host"))
        else unescape host encodeHost
    | None => unescape host encodeHost
    end.

Definition parseAuthority (authority : string)
    : result (option (string * option string) * string) :=
  match cutLast authority "@" with
  | None => h ← parseHost authority; Ok (None, h)
  | Some (userinfo, hostpart) =>
      h ← parseHost hostpart;
      if negb (validUserinfo userinfo) then Err (errorsNew "net/url: invalid userinfo")
      else match Cut userinfo ":" with
      | (_, _, false) => u ← unescape userinfo encodeUserPassword; Ok (Some (u, None), h)
      | (name, pass, true) =>
          u ← unescape name encodeUserPassword;
          p ← unescape pass encodeUserPassword;
          Ok (Some (u, Some p), h)
      end
  end.

(** ** Parsing *)

(** [getScheme]: [None] for the missing-scheme error, else the scheme and the rest. *)
Fixpoint getSchemeBytes (acc l all : list ascii) : result (list ascii * list ascii) :=
  match l with
  | [] => Ok ([], all)
  | c :: l' =>
      if isAlpha c then getSchemeBytes (c :: acc) l' all
      else if isDigit c || byteIn c "+-." then
        match acc with [] => Ok ([], all) | _ => getSchemeBytes (c :: acc) l' all end
      else if decide (c = ":"%char) then
        match acc with
        | [] => Err (errorsNew "missing protocol scheme")
        | _ => Ok (rev acc, l')
        end
      else Ok ([], all)
  end.
Definition getScheme (rawURL : string) : result (string * string) :=
  '(s, r) ← getSchemeBytes [] (bytes rawURL) (bytes rawURL); Ok (ofBytes s, ofBytes r).

Definition isCTL (c : ascii) : bool := (byteN c <? 32)%N || (byteN c =? 127)%N.

Definition setPath (u : URL) (p : string) : result URL :=
  path ← unescape p encodePath;
  Ok (mkURL (Scheme u) (Opaque u) (User u) (Host u) path
        (if eqs p (escape path encodePath) then "" else p)
        (OmitHost u) (ForceQuery u) (RawQuery u) (Fragment u) (RawFragment u)).

(** [parse(rawURL, viaRequest)]. *)
Definition parseURL (rawURL : string) (viaRequest : bool) : result URL :=
  if existsb isCTL (bytes rawURL)
  then Err (errorsNew "net/url: invalid control character in URL")
  else if eqs rawURL "" && viaRequest then Err (errorsNew "empty url")
  else if eqs rawURL "*"
  then Ok (mkURL "" "" None "" "*" "" false false "" "" "")
  else
    '(scheme0, rest0) ← getScheme rawURL;
    let scheme := ToLower scheme0 in
    let '(before, after, found) := Cut rest0 "?" in
    let force := found && eqs after "" in
    let '(rest, rawQuery) := if force then (before, "") else (before, after) in
    if negb (HasPrefix rest "/") && negb (eqs scheme "")
    then Ok (mkURL scheme rest None "" "" "" false force rawQuery "" "")
    else if negb (HasPrefix rest "/") && viaRequest
    then Err (errorsNew "invalid URI for request")
    else if negb (HasPrefix rest "/") && containsByte ":" (Cut rest "/").1.1
    then Err (errorsNew "first path segment in URL cannot contain colon")
    else if (negb (eqs scheme "") || negb viaRequest && negb (HasPrefix rest "///"))
            && HasPrefix rest "//"
    then
      let '(authority, tail, slash) := Cut (TrimPrefix rest "//") "/" in
      let path := if slash then "/" +:+ tail else "" in
      '(user, host) ← parseAuthority authority;
      setPath (mkURL scheme "" user host "" "" false force rawQuery "" "") path
    else
      let omit := negb (eqs scheme "") && HasPrefix rest "/" in
      setPath (mkURL scheme "" None "" "" "" omit force rawQuery "" "") rest.

Definition setFragment (u : URL) (f : string) : result URL :=
  frag ← unescape f encodeFragment;
  Ok (mkURL (Scheme u) (Opaque u) (User u) (Host u) (Path u) (RawPath u) (OmitHost u)
        (ForceQuery u) (RawQuery u) frag
        (if eqs f (escape frag encodeFragment) then "" else f)).

(** [url.Parse] and [url.ParseRequestURI]; the [*url.Error] in the chain of their error is
    found by its tag, which holds the text of the error it wraps. *)
Definition urlErrorTag : string := "url.Error:".
Definition parseError (raw : string) (e : error) : error :=
  mkError ("parse " +:+ quote raw +:+ ": " +:+ err_text e) ((urlErrorTag +:+ err_text e) :: err_is e).
Definition url_Parse (rawURL : string) : result URL :=
  let '(u, frag, _) := Cut rawURL "#" in
  url ← mapErr (parseError u) (parseURL u false);
  if eqs frag "" then Ok url else mapErr (parseError rawURL) (setFragment url frag).
Definition url_ParseRequestURI (rawURL : string) : result URL :=
  mapErr (parseError rawURL) (parseURL rawURL true).

(** ** Accessors *)

(** [splitHostPort], behind [URL.Hostname] and [URL.Port]. *)
Definition splitHostPort (hostPort : string) : string * string :=
  let '(host, port) :=
    match cutLast hostPort ":" with
    | Some (h, p) => if validOptionalPort (":" +:+ p) then (h, p) else (hostPort, "")
    | None => (hostPort, "")
    end in
  (match cutPrefix "[" host with
   | Some r => match cutSuffix "]" r with Some m => m | None => host end
   | None => host
   end, port).
Definition Hostname (u : URL) : string := (splitHostPort (Host u)).1.
Definition Port (u : URL) : string := (splitHostPort (Host u)).2.

Definition validEncodedPath (s : string) : bool :=
  forallb (λ c, byteIn c "!$&'()*+,;=:@[]%" || negb (shouldEscape c encodePath)) (bytes s).
Definition EscapedPath (u : URL) : string :=
  if negb (eqs (RawPath u) "") && validEncodedPath (RawPath u)
     && bool_decide (unescape (RawPath u) encodePath = Ok (Path u))
  then RawPath u
  else if eqs (Path u) "*" then "*" else escape (Path u) encodePath.

Definition validEncodedFragment (s : string) : bool :=
  forallb (λ c, byteIn c "!$&'()*+,;=:@[]%" || negb (shouldEscape c encodeFragment)) (bytes s).
Definition EscapedFragment (u : URL) : string :=
  if negb (eqs (RawFragment u) "") && validEncodedFragment (RawFragment u)
     && bool_decide (unescape (RawFragment u) encodeFragment = Ok (Fragment u))
  then RawFragment u
  else escape (Fragment u) encodeFragment.

Definition userString (ui : string * option string) : string :=
  escape ui.1 encodeUserPassword +:+
  match ui.2 with Some p => ":" +:+ escape p encodeUserPassword | None => "" end.

(** [URL.String]. *)
Definition URL_String (u : URL) : string :=
  let head := if eqs (Scheme u) "" then "" else Scheme u +:+ ":" in
  let body :=
    if negb (eqs (Opaque u) "") then head +:+ Opaque u
    else
      let auth :=
        if (negb (eqs (Scheme u) "") || negb (eqs (Host u) "")
            || match User u with Some _ => true | None => false end)
        then
          if OmitHost u && eqs (Host u) "" && match User u with Some _ => false | None => true end
          then ""
          else
            (if negb (eqs (Host u) "") || negb (eqs (Path u) "")
                || match User u with Some _ => true | None => false end then "//" else "")
            +:+ match User u with Some ui => userString ui +:+ "@" | None => "" end
            +:+ (if eqs (Host u) "" then "" else escape (Host u) encodeHost)
        else "" in
      let path := EscapedPath u in
      let buf := head +:+ auth in
      let buf := if negb (eqs path "") && negb (HasPrefix path "/") && negb (eqs (Host u) "")
                 then buf +:+ "/" else buf in
      let buf := if eqs buf "" && containsByte ":" (Cut path "/").1.1 then "./" else buf in
      buf +:+ path in
  let body := if ForceQuery u || negb (eqs (RawQuery u) "") then body +:+ "?" +:+ RawQuery u else body in
  if eqs (Fragment u) "" then body else body +:+ "#" +:+ EscapedFragment u.

(** [net.JoinHostPort]. *)
Definition JoinHostPort (host port : string) : string :=
  if containsByte ":" host then "[" +:+ host +:+ "]:" +:+ port else host +:+ ":" +:+ port.

(** ** Checks against known results *)

Example url_Parse_actor :
  (λ u, (Scheme u, Host u, Hostname u, Port u, Path u)) <$> url_Parse "HTTPS://Example.org:8443/users/a%20b?q=1#main-key"
  = Ok ("https", "Example.org:8443", "Example.org", "8443", "/users/a b").
Proof. vm_compute. reflexivity. Qed.
Example url_Parse_rejects :
  is_ok (url_Parse "http://exa mple.org/") = false ∧ is_ok (url_Parse ":x") = false
  ∧ is_ok (url_Parse "http://h:8o/") = false ∧ is_ok (url_Parse "http://[::1") = false.
Proof. vm_compute. done. Qed.
Example url_Parse_relative :
  (λ u, (Scheme u, Host u, Path u)) <$> url_Parse "//example.org" = Ok ("", "example.org", "").
Proof. vm_compute. reflexivity. Qed.
Example url_String_roundtrip :
  URL_String <$> url_Parse "https://u:p@[::1]:80/a%2Fb?x#f" = Ok "https://u:p@[::1]:80/a%2Fb?x#f".
Proof. vm_compute. reflexivity. Qed.

Arguments url_Parse : simpl never.
Arguments url_ParseRequestURI : simpl never.
Arguments URL_String : simpl never.
Arguments Hostname : simpl never.
Arguments Port : simpl never.
Arguments JoinHostPort : simpl never.
