(* ===== verification/Sha256.v ===== *)
(** * SHA-256 and base64

    [crypto/sha256] and [encoding/base64] (standard alphabet, with padding), as
    the sources call them: [sha256.Sum256] for Redis key names, replay markers
    and body digests, [base64.StdEncoding] for the legacy [Digest] header.  Words
    are 32-bit values kept in [N] with the reduction modulo 2^32 written out. *)

From S2P Require Import Prelude GoStrings.

#[local] Open Scope N_scope.

Definition w32 (x : N) : N := N.land x 4294967295.
Definition add32 (x y : N) : N := w32 (x + y).
Definition rotr (n x : N) : N := N.lor (N.shiftr x n) (w32 (N.shiftl x (32 - n))).
Definition bigSigma0 x := N.lxor (rotr 2 x) (N.lxor (rotr 13 x) (rotr 22 x)).
Definition bigSigma1 x := N.lxor (rotr 6 x) (N.lxor (rotr 11 x) (rotr 25 x)).
Definition smallSigma0 x := N.lxor (rotr 7 x) (N.lxor (rotr 18 x) (N.shiftr x 3)).
Definition smallSigma1 x := N.lxor (rotr 17 x) (N.lxor (rotr 19 x) (N.shiftr x 10)).
Definition ch x y z := N.lxor (N.land x y) (N.land (N.lxor x 4294967295) z).
Definition maj x y z := N.lxor (N.land x y) (N.lxor (N.land x z) (N.land y z)).

Definition roundConstants : list N := [
  1116352408; 1899447441; 3049323471; 3921009573; 961987163; 1508970993; 2453635748; 2870763221;
  3624381080; 310598401; 607225278; 1426881987; 1925078388; 2162078206; 2614888103; 3248222580;
  3835390401; 4022224774; 264347078; 604807628; 770255983; 1249150122; 1555081692; 1996064986;
  2554220882; 2821834349; 2952996808; 3210313671; 3336571891; 3584528711; 113926993; 338241895;
  666307205; 773529912; 1294757372; 1396182291; 1695183700; 1986661051; 2177026350; 2456956037;
  2730485921; 2820302411; 3259730800; 3345764771; 3516065817; 3600352804; 4094571909; 275423344;
  430227734; 506948616; 659060556; 883997877; 958139571; 1322822218; 1537002063; 1747873779;
  1955562222; 2024104815; 2227730452; 2361852424; 2428436474; 2756734187; 3204031479; 3329325298].

Definition initialHash : list N := [
  1779033703; 3144134277; 1013904242; 2773480762; 1359893119; 2600822924; 528734635; 1541459225].

(** The message schedule: [sched] holds the words computed so far, newest first. *)
Fixpoint extend (n : nat) (sched : list N) : list N :=
  match n with
  | O => sched
  | S n =>
      let at_ i := nth i sched 0 in
      extend n (add32 (add32 (smallSigma1 (at_ 1%nat)) (at_ 6%nat))
                      (add32 (smallSigma0 (at_ 14%nat)) (at_ 15%nat)) :: sched)
  end.

Definition round (st : N * N * N * N * (N * N * N * N)) (kw : N * N)
    : N * N * N * N * (N * N * N * N) :=
  let '((((a, b), c), d), (((e, f), g), h)) := st in
  let t1 := add32 (add32 (add32 h (bigSigma1 e)) (ch e f g)) (add32 kw.1 kw.2) in
  let t2 := add32 (bigSigma0 a) (maj a b c) in
  (add32 t1 t2, a, b, c, (add32 d t1, e, f, g)).

Definition compress (h block : list N) : list N :=
  let w := rev (extend 48 (rev block)) in
  match h with
  | [a; b; c; d; e; f; g; i] =>
      let '((((a', b'), c'), d'), (((e', f'), g'), i')) :=
        fold_left round (zip roundConstants w) (a, b, c, d, (e, f, g, i)) in
      [add32 a a'; add32 b b'; add32 c c'; add32 d d';
       add32 e e'; add32 f f'; add32 g g'; add32 i i']
  | _ => h
  end.

Definition bytesOf (k : nat) (x : N) : list ascii :=
  map (λ i, chr (N.land (N.shiftr x (8 * N.of_nat (k - 1 - i))) 255)) (seq 0 k).

(** Padding to a multiple of 64 bytes: 0x80, zeros, the bit length on 8 bytes. *)
Definition pad (msg : list ascii) : list ascii :=
  let n := length msg in
  let z := Nat.modulo (119 - Nat.modulo n 64) 64 in
  msg ++ [chr 128] ++ repeat (chr 0) z ++ bytesOf 8 (8 * N.of_nat n).

Fixpoint wordsOf (l : list ascii) : list N :=
  match l with
  | a :: b :: c :: d :: l' =>
      (N.shiftl (byteN a) 24 + N.shiftl (byteN b) 16 + N.shiftl (byteN c) 8 + byteN d) :: wordsOf l'
  | _ => []
  end.
Fixpoint blocks (fuel : nat) (l : list N) : list (list N) :=
  match fuel with
  | O => []
  | S n => match l with [] => [] | _ => take 16 l :: blocks n (drop 16 l) end
  end.

(** [sha256.Sum256(msg)]: 32 bytes. *)
Definition sum256 (msg : list ascii) : list ascii :=
  let ws := wordsOf (pad msg) in
  let h := fold_left compress (blocks (length ws) ws) initialHash in
  concat (map (bytesOf 4) h).
Definition sha256Hex (s : string) : string := hexEncode (sum256 (bytes s)).

(** ** base64.StdEncoding *)

Definition b64alphabet : list ascii :=
  bytes "ABCDEFGHIJKLMNOPQRSTUVWXYZabcdefghijklmnopqrstuvwxyz0123456789+/".
Definition b64digit (n : N) : ascii := nth (N.to_nat n) b64alphabet "="%char.
Fixpoint b64encode (l : list ascii) : list ascii :=
  match l with
  | a :: b :: c :: l' =>
      let x := N.shiftl (byteN a) 16 + N.shiftl (byteN b) 8 + byteN c in
      b64digit (N.shiftr x 18) :: b64digit (N.land (N.shiftr x 12) 63)
        :: b64digit (N.land (N.shiftr x 6) 63) :: b64digit (N.land x 63) :: b64encode l'
  | [a; b] =>
      let x := N.shiftl (byteN a) 16 + N.shiftl (byteN b) 8 in
      [b64digit (N.shiftr x 18); b64digit (N.land (N.shiftr x 12) 63);
       b64digit (N.land (N.shiftr x 6) 63); "="%char]
  | [a] =>
      let x := N.shiftl (byteN a) 16 in
      [b64digit (N.shiftr x 18); b64digit (N.land (N.shiftr x 12) 63); "="%char; "="%char]
  | [] => []
  end.
Definition base64Std (l : list ascii) : string := ofBytes (b64encode l).

(** ** Lemmas and known answers *)

Lemma bytesOf_length k x : length (bytesOf k x) = k.
Proof. unfold bytesOf. by rewrite length_map, length_seq. Qed.

Lemma compress_length h b : length h = 8%nat → length (compress h b) = 8%nat.
Proof.
  intros Hh. do 8 (destruct h as [|? h]; [done|]). destruct h; [|done].
  unfold compress. by destruct (fold_left _ _ _) as [[[[? ?] ?] ?] [[[? ?] ?] ?]].
Qed.

(** A digest has 32 bytes. *)
Lemma sum256_length msg : length (sum256 msg) = 32%nat.
Proof.
  unfold sum256. set (bs := blocks _ _).
  assert (H : ∀ h, length h = 8%nat → length (fold_left compress bs h) = 8%nat).
  { induction bs as [|b bs IH]; simpl; [done|]. auto using compress_length. }
  specialize (H initialHash eq_refl).
  revert H. generalize (fold_left compress bs initialHash) as h.
  intros h Hh. do 8 (destruct h as [|? h]; [done|]). destruct h; [|done]. done.
Qed.
Lemma sha256Hex_length s : String.length (sha256Hex s) = 64%nat.
Proof. unfold sha256Hex. by rewrite hexEncode_length, sum256_length. Qed.

Example sha256_abc :
  sha256Hex "abc" = "ba7816bf8f01cfea414140de5dae2223b00361a396177a9cb410ff61f20015ad".
Proof. vm_compute. reflexivity. Qed.
Example sha256_two_blocks :
  sha256Hex "abcdbcdecdefdefgefghfghighijhijkijkljklmklmnlmnomnopnopq"
  = "248d6a61d20638b8e5c026930c3e6039a33ce45964ff2167f6ecedd419db06c1".
Proof. vm_compute. reflexivity. Qed.
Example base64_sample : base64Std (bytes "relay") = "cmVsYXk=".
Proof. vm_compute. reflexivity. Qed.

Arguments sha256Hex : simpl never.
Arguments sum256 : simpl never.
