(* ===== verification/Redis.v ===== *)
(** * The Redis service the relay talks to

    Redis and the go-redis client are not part of the sources.  This file states
    what the sources rely on:

    - [db] is the content of the relay's Redis database: keys bound to a string,
      a hash or a list, each with an optional expiry in Unix milliseconds, and the
      messages published so far;
    - an [Rcmd A] is one atomic request (a command, a MULTI/EXEC pipeline or a Lua
      script) as the Redis documentation describes it: a function of the server
      time and the database.  A script is a composition of commands that stops at
      the first one that raises, keeping the writes made before it;
    - [Redis S] is the interface of the service: its clock, its database, a call
      that runs one request, and SCAN;
    - [RedisLaws S] is the documented contract, for one client at a time: a request
      either takes effect and answers as documented or answers an error, and an
      error leaves the database unchanged or the request applied; the clock does
      not run backwards; a full SCAN iteration returns every matching key at least
      once, in any order, possibly several times.  [RedisReliable S] adds that no
      request fails for a reason of the connection.

    [Sim] is a concrete service that satisfies the laws, with the connection
    failures as a list; it is what the witnesses run on. *)

From S2P Require Import Prelude GoStrings.

(** ** The database *)

Inductive rvalue :=
  | RString (s : string)
  | RHash (h : gmap string string)
  | RList (l : list string).
Record entry := mkEntry { e_val : rvalue; e_expire : option Z }.
Record db := mkDb { db_keys : gmap string entry; db_published : list string }.
Definition emptyDb : db := mkDb ∅ [].
Definition setKeys (f : gmap string entry → gmap string entry) (d : db) : db :=
  mkDb (f (db_keys d)) (db_published d).

(** A key whose expiry has passed does not exist. *)
Definition live (now : Z) (e : entry) : bool :=
  match e_expire e with None => true | Some t => now <? t end.
Definition find (now : Z) (d : db) (k : string) : option entry :=
  match db_keys d !! k with
  | Some e => if live now e then Some e else None
  | None => None
  end.

(** ** Requests *)

Definition Rcmd (A : Type) : Type := Z → db → db * result A.
#[export] Instance Rcmd_ret : MRet Rcmd := λ A a now d, (d, Ok a).
#[export] Instance Rcmd_bind : MBind Rcmd := λ A B f c now d,
  match c now d with
  | (d', Ok a) => f a now d'
  | (d', Err e) => (d', Err e)
  end.
Definition rraise {A} (e : error) : Rcmd A := λ now d, (d, Err e).

(** Error replies. *)
Definition redisNilName : string := "redis.Nil".
Definition redisNil : error := errorSentinel redisNilName "redis: nil".
Definition errWrongType : error :=
  errorsNew "WRONGTYPE Operation against a key holding the wrong kind of value".
Definition errHashNotInt : error := errorsNew "ERR hash value is not an integer".
Definition errNotInt : error := errorsNew "ERR value is not an integer or out of range".
Definition errOverflow : error := errorsNew "ERR increment or decrement would overflow".

(** Typed reads of one key; an absent key reads as empty. *)
Definition asHash (now : Z) (d : db) (k : string) : result (gmap string string) :=
  match find now d k with
  | None => Ok ∅
  | Some (mkEntry (RHash h) _) => Ok h
  | Some _ => Err errWrongType
  end.
Definition asString (now : Z) (d : db) (k : string) : result (option string) :=
  match find now d k with
  | None => Ok None
  | Some (mkEntry (RString s) _) => Ok (Some s)
  | Some _ => Err errWrongType
  end.
Definition ttlOf (now : Z) (d : db) (k : string) : option Z := find now d k ≫= e_expire.

Definition put (k : string) (v : rvalue) (ttl : option Z) : db → db :=
  setKeys <[k := mkEntry v ttl]>.
Definition drop_ (k : string) : db → db := setKeys (delete k).

(** Hash commands. *)
Definition HSET (k : string) (fields : list (string * string)) : Rcmd unit := λ now d,
  match asHash now d k with
  | Err e => (d, Err e)
  | Ok h => (put k (RHash (foldl (λ h '(f, v), <[f := v]> h) h fields)) (ttlOf now d k) d, Ok tt)
  end.
Definition HSETNX (k f v : string) : Rcmd bool := λ now d,
  match asHash now d k with
  | Err e => (d, Err e)
  | Ok h => match h !! f with
            | Some _ => (d, Ok false)
            | None => (put k (RHash (<[f := v]> h)) (ttlOf now d k) d, Ok true)
            end
  end.
Definition HMGET (k : string) (fields : list string) : Rcmd (list (option string)) := λ now d,
  match asHash now d k with
  | Err e => (d, Err e)
  | Ok h => (d, Ok (map (λ f, h !! f) fields))
  end.
(** The reply of HGET; [HGET_] is the form of the go-redis call, where nil is an error. *)
Definition HGETopt (k f : string) : Rcmd (option string) := λ now d,
  match asHash now d k with Err e => (d, Err e) | Ok h => (d, Ok (h !! f)) end.
Definition HGET_ (k f : string) : Rcmd string := λ now d,
  match asHash now d k with
  | Err e => (d, Err e)
  | Ok h => (d, match h !! f with Some v => Ok v | None => Err redisNil end)
  end.
Definition HGETALL (k : string) : Rcmd (gmap string string) := λ now d, (d, asHash now d k).
Definition HKEYS (k : string) : Rcmd (list string) := λ now d,
  (d, (λ h, (map_to_list h).*1) <$> asHash now d k).
Definition HDEL (k f : string) : Rcmd unit := λ now d,
  match asHash now d k with
  | Err e => (d, Err e)
  | Ok h => match h !! f with
            | None => (d, Ok tt)
            | Some _ => let h' := delete f h in
                (if decide (h' = ∅) then drop_ k d else put k (RHash h') (ttlOf now d k) d, Ok tt)
            end
  end.
Definition HEXISTS (k f : string) : Rcmd bool := λ now d,
  (d, (λ h, bool_decide (is_Some (h !! f))) <$> asHash now d k).
Definition HINCRBY (k f : string) (delta : Z) : Rcmd Z := λ now d,
  match asHash now d k with
  | Err e => (d, Err e)
  | Ok h => match parseInt 64 (default "0" (h !! f)) with
            | None => (d, Err errHashNotInt)
            | Some z => if inWidth 64 (z + delta)
                then (put k (RHash (<[f := itoa (z + delta)]> h)) (ttlOf now d k) d, Ok (z + delta))
                else (d, Err errOverflow)
            end
  end.

(** String and key commands. *)
Definition GETopt (k : string) : Rcmd (option string) := λ now d, (d, asString now d k).
Definition INCRBY (k : string) (delta : Z) : Rcmd Z := λ now d,
  match asString now d k with
  | Err e => (d, Err e)
  | Ok s => match parseInt 64 (default "0" s) with
            | None => (d, Err errNotInt)
            | Some z => if inWidth 64 (z + delta)
                then (put k (RString (itoa (z + delta))) (ttlOf now d k) d, Ok (z + delta))
                else (d, Err errOverflow)
            end
  end.
Definition DECRBY (k : string) (delta : Z) : Rcmd Z := INCRBY k (- delta).
(** SET key value NX with an expiry of [ttl] milliseconds: whether it was set. *)
Definition SETNX (k v : string) (ttl : Z) : Rcmd bool := λ now d,
  match find now d k with
  | Some _ => (d, Ok false)
  | None => (put k (RString v) (Some (now + ttl)) d, Ok true)
  end.
Definition EXISTS (k : string) : Rcmd bool := λ now d, (d, Ok (bool_decide (is_Some (find now d k)))).
Definition DEL (k : string) : Rcmd unit := λ now d, (drop_ k d, Ok tt).
Definition EXPIREAT_MS (k : string) (at_ : Z) : Rcmd unit := λ now d,
  match find now d k with
  | None => (d, Ok tt)
  | Some e => (if at_ <=? now then drop_ k d else put k (e_val e) (Some at_) d, Ok tt)
  end.
Definition EXPIRE (k : string) (seconds : Z) : Rcmd unit := λ now, EXPIREAT_MS k (now + 1000 * seconds) now.
Definition LLEN (k : string) : Rcmd Z := λ now d,
  (d, match find now d k with
      | None => Ok 0
      | Some (mkEntry (RList l) _) => Ok (Z.of_nat (length l))
      | Some _ => Err errWrongType
      end).
Definition PUBLISH (channel : string) : Rcmd unit := λ now d,
  (mkDb (db_keys d) (db_published d ++ [channel]), Ok tt).

(** A pipeline runs every command; its error is the first command's error. *)
Definition rpipe {A B} (a : Rcmd A) (b : Rcmd B) : Rcmd (A * B) := λ now d,
  let '(d1, ra) := a now d in
  let '(d2, rb) := b now d1 in
  (d2, match ra, rb with
       | Ok x, Ok y => Ok (x, y)
       | Err e, _ => Err e
       | _, Err e => Err e
       end).
Fixpoint rpipes {A} (l : list (Rcmd A)) : Rcmd (list A) :=
  match l with
  | [] => mret []
  | c :: l => λ now d, let '(d', r) := rpipe c (rpipes l) now d in
                       (d', (λ '(a, b), a :: b) <$> r)
  end.

(** ** Lua numbers

    A script's numbers are doubles: an integer is rounded to 53 significant bits,
    half to even.  [luaToNumber] reads the decimal integers Redis and the client
    write; any other text is not a number here. *)
Definition toDouble (z : Z) : Z :=
  let a := Z.abs z in
  if a <? 2 ^ 53 then z
  else
    let e := Z.log2 a - 52 in
    let q := Z.shiftr a e in
    let r := a - Z.shiftl q e in
    let half := Z.shiftl 1 (e - 1) in
    let q' := if (half <? r) || ((half =? r) && Z.odd q) then q + 1 else q in
    Z.sgn z * Z.shiftl q' e.
Definition luaToNumber (s : string) : option Z := toDouble <$> parseInt 64 s.
Definition errLuaNil : error :=
  errorsNew "ERR user_script: attempt to perform arithmetic or a comparison on a nil value".
Definition luaNumber (s : string) : Rcmd Z :=
  match luaToNumber s with Some z => mret z | None => rraise errLuaNil end.

(** ** The service *)

Class Redis (S : Type) := {
  rs_ms : S → Z;
  rs_db : S → db;
  redis_do : ∀ {A : Type}, Rcmd A → S → S * result A;
  redis_scan : string → S → S * result (list string)
}.

Definition matching (now : Z) (d : db) (prefix k : string) : Prop :=
  HasPrefix k prefix = true ∧ is_Some (find now d k).

Class RedisLaws (S : Type) `{Redis S} := {
  redis_do_clock : ∀ A (c : Rcmd A) s, rs_ms s ≤ rs_ms (redis_do c s).1;
  redis_do_law : ∀ A (c : Rcmd A) s,
    (rs_db (redis_do c s).1, (redis_do c s).2) = c (rs_ms (redis_do c s).1) (rs_db s)
    ∨ ∃ e, (redis_do c s).2 = Err e ∧ errorIs e redisNilName = false
        ∧ (rs_db (redis_do c s).1 = rs_db s
           ∨ rs_db (redis_do c s).1 = (c (rs_ms (redis_do c s).1) (rs_db s)).1);
  redis_scan_clock : ∀ p s, rs_ms s ≤ rs_ms (redis_scan p s).1;
  redis_scan_db : ∀ p s, rs_db (redis_scan p s).1 = rs_db s;
  redis_scan_sound : ∀ p s l, (redis_scan p s).2 = Ok l →
    ∀ k, k ∈ l → matching (rs_ms s) (rs_db s) p k;
  redis_scan_complete : ∀ p s l, (redis_scan p s).2 = Ok l →
    ∀ k, matching (rs_ms (redis_scan p s).1) (rs_db s) p k → k ∈ l
}.

Class RedisReliable (S : Type) `{RedisLaws S} := {
  redis_do_ok : ∀ A (c : Rcmd A) s,
    (rs_db (redis_do c s).1, (redis_do c s).2) = c (rs_ms (redis_do c s).1) (rs_db s);
  redis_scan_ok : ∀ p s, is_ok (redis_scan p s).2 = true
}.

(** ** Lemmas *)

Section laws.
Context {S : Type} `{RedisLaws S}.

(** A request that never changes the database, by the law. *)
Definition readOnly {A} (c : Rcmd A) : Prop := ∀ now d, (c now d).1 = d.

Lemma redis_read_db {A} (c : Rcmd A) s : readOnly c → rs_db (redis_do c s).1 = rs_db s.
Proof.
  intros Hc. destruct (redis_do_law A c s) as [E|(e & _ & _ & [E|E])].
  - apply (f_equal fst) in E. simpl in E. by rewrite E, Hc.
  - done.
  - by rewrite E, Hc.
Qed.

(** An answer that is not an error is the documented one. *)
Lemma redis_do_Ok {A} (c : Rcmd A) s a :
  (redis_do c s).2 = Ok a →
  c (rs_ms (redis_do c s).1) (rs_db s) = (rs_db (redis_do c s).1, Ok a).
Proof.
  intros Ha. destruct (redis_do_law A c s) as [E|(e & E & _)]; [|congruence].
  by rewrite <- E, Ha.
Qed.

(** Whatever the answer, the database is the old one or the one after the request. *)
Lemma redis_do_db {A} (c : Rcmd A) s :
  rs_db (redis_do c s).1 = rs_db s
  ∨ rs_db (redis_do c s).1 = (c (rs_ms (redis_do c s).1) (rs_db s)).1.
Proof.
  destruct (redis_do_law A c s) as [E|(e & _ & _ & E)]; [right|exact E].
  by apply (f_equal fst) in E.
Qed.
End laws.

Lemma HMGET_readOnly k fs : readOnly (HMGET k fs).
Proof. intros now d. unfold HMGET. by destruct (asHash now d k). Qed.
Lemma HGET_readOnly k f : readOnly (HGET_ k f).
Proof. intros now d. unfold HGET_. by destruct (asHash now d k). Qed.
Lemma HGETALL_readOnly k : readOnly (HGETALL k).
Proof. by intros now d. Qed.
Lemma HKEYS_readOnly k : readOnly (HKEYS k).
Proof. by intros now d. Qed.
Lemma rpipes_readOnly {A} (l : list (Rcmd A)) : Forall readOnly l → readOnly (rpipes l).
Proof.
  induction 1 as [|c l Hc _ IH]; intros now d; [done|]. simpl. unfold rpipe.
  specialize (Hc now d). destruct (c now d) as [d1 r1]. simpl in Hc. subst d1.
  specialize (IH now d). by destruct (rpipes l now d) as [d2 r2].
Qed.
#[export] Hint Resolve HMGET_readOnly HGET_readOnly HGETALL_readOnly HKEYS_readOnly
  rpipes_readOnly : relay.

Lemma find_put_same now d k v t :
  find now (put k v t d) k = if live now (mkEntry v t) then Some (mkEntry v t) else None.
Proof. unfold find, put. simpl. by rewrite lookup_insert_eq. Qed.
Lemma find_put_other now d k k' v t : k ≠ k' → find now (put k v t d) k' = find now d k'.
Proof. intros Hk. unfold find, put. simpl. by rewrite lookup_insert_ne. Qed.
Lemma find_drop_same now d k : find now (drop_ k d) k = None.
Proof. unfold find, drop_. simpl. by rewrite lookup_delete_eq. Qed.
Lemma find_drop_other now d k k' : k ≠ k' → find now (drop_ k d) k' = find now d k'.
Proof. intros Hk. unfold find, drop_. simpl. by rewrite lookup_delete_ne. Qed.
Lemma find_Some now d k e : find now d k = Some e → db_keys d !! k = Some e ∧ live now e = true.
Proof.
  unfold find. destruct (db_keys d !! k) as [e'|]; [|done].
  destruct (live now e') eqn:E; [|done]. intros [= ->]. done.
Qed.
#[export] Hint Rewrite find_put_same find_drop_same : relay_simp.

(** ** A service that satisfies the contract *)

(** The fault of the next request: the answer is lost before or after the request ran. *)
Inductive fault := NoFault | LostBefore | LostAfter.
Record Sim := mkSim { sim_ms : Z; sim_db : db; sim_faults : list fault }.

Definition errConn : error := errorsNew "dial tcp: connection refused".
Definition sim_next (s : Sim) : fault := match sim_faults s with f :: _ => f | [] => NoFault end.

Definition simScan (p : string) (now : Z) (d : db) : list string :=
  filter (λ k, HasPrefix k p = true ∧ is_Some (find now d k)) (map_to_list (db_keys d)).*1.

#[export] Instance Sim_Redis : Redis Sim := {|
  rs_ms := sim_ms;
  rs_db := sim_db;
  redis_do A c s :=
    let t := sim_ms s + 1 in
    let rest := tail (sim_faults s) in
    match sim_next s with
    | NoFault => let '(d, r) := c t (sim_db s) in (mkSim t d rest, r)
    | LostBefore => (mkSim t (sim_db s) rest, Err errConn)
    | LostAfter => (mkSim t (c t (sim_db s)).1 rest, Err errConn)
    end;
  redis_scan p s :=
    let rest := tail (sim_faults s) in
    match sim_next s with
    | NoFault => (mkSim (sim_ms s) (sim_db s) rest, Ok (simScan p (sim_ms s) (sim_db s)))
    | _ => (mkSim (sim_ms s) (sim_db s) rest, Err errConn)
    end
|}.

Lemma simScan_spec p now d k : k ∈ simScan p now d ↔ matching now d p k.
Proof.
  unfold simScan, matching. rewrite list_elem_of_filter. split; [by intros [? _]|].
  intros [Hp Hf]. split; [done|].
  destruct Hf as [e Hf]. apply find_Some in Hf as [Hk _].
  apply list_elem_of_fmap. exists (k, e). split; [done|]. by apply elem_of_map_to_list.
Qed.

#[export] Instance Sim_laws : RedisLaws Sim.
Proof.
  split.
  - intros A c s. simpl. destruct (sim_next s); simpl; try lia.
    destruct (c _ _); simpl; lia.
  - intros A c s. simpl. destruct (sim_next s) eqn:E; simpl.
    + left. destruct (c (sim_ms s + 1) (sim_db s)) eqn:Ec; simpl; by rewrite Ec.
    + right. exists errConn. auto.
    + right. exists errConn. auto.
  - intros p s. simpl. destruct (sim_next s); simpl; lia.
  - intros p s. simpl. by destruct (sim_next s).
  - intros p s l. simpl. destruct (sim_next s); simpl; try done.
    intros [= <-] k Hk. by apply simScan_spec.
  - intros p s l. simpl. destruct (sim_next s); simpl; try done.
    intros [= <-] k Hk. by apply simScan_spec.
Qed.

(** The same service without connection failures. *)
Record Calm := mkCalm { calm_ms : Z; calm_db : db }.
#[export] Instance Calm_Redis : Redis Calm := {|
  rs_ms := calm_ms;
  rs_db := calm_db;
  redis_do A c s := let '(d, r) := c (calm_ms s + 1) (calm_db s) in (mkCalm (calm_ms s + 1) d, r);
  redis_scan p s := (s, Ok (simScan p (calm_ms s) (calm_db s)))
|}.
#[export] Instance Calm_laws : RedisLaws Calm.
Proof.
  split; simpl; try done; try lia.
  - intros A c s. destruct (c _ _); simpl; lia.
  - intros A c s. left. destruct (c (calm_ms s + 1) (calm_db s)) eqn:Ec; simpl; by rewrite Ec.
  - intros p s l [= <-] k Hk. by apply simScan_spec.
  - intros p s l [= <-] k Hk. by apply simScan_spec.
Qed.
#[export] Instance Calm_reliable : RedisReliable Calm.
Proof.
  split; simpl; [|done]. intros A c s.
  destruct (c (calm_ms s + 1) (calm_db s)) eqn:Ec; simpl; by rewrite Ec.
Qed.
