(* ===== verification/GoTime.v ===== *)
(** * Package time, as far as the relay uses it

    A [time.Time] in UTC is the number of nanoseconds since the Unix epoch; the
    zero [time.Time] is January 1 of year 1, so [IsZero] is a comparison.  A
    [time.Duration] is a number of nanoseconds.  [formatRFC3339] is
    [Format(time.RFC3339)] of a UTC time. *)

From S2P Require Import Prelude GoStrings.

Abbreviation Time := Z (only parsing).
Abbreviation Duration := Z (only parsing).

Definition Nanosecond : Duration := 1.
Definition Millisecond : Duration := 1000000.
Definition Second : Duration := 1000000000.
Definition Minute : Duration := 60 * Second.
Definition Hour : Duration := 60 * Minute.

Definition zeroTime : Time := -62135596800 * Second.
Definition IsZero (t : Time) : bool := t =? zeroTime.
Definition After (t u : Time) : bool := u <? t.
Definition Before (t u : Time) : bool := t <? u.
(** [t.UnixMilli()] rounds towards minus infinity; [time.UnixMilli(ms)]. *)
Definition UnixMilli (t : Time) : Z := t / Millisecond.
Definition timeUnixMilli (ms : Z) : Time := ms * Millisecond.

(** ** The civil date of a day number *)

(** Days since 1970-01-01 to (year, month, day), in the proleptic Gregorian calendar. *)
Definition civil (days : Z) : Z * Z * Z :=
  let z := days + 719468 in
  let era := z / 146097 in
  let doe := z mod 146097 in
  let yoe := (doe - doe / 1460 + doe / 36524 - doe / 146096) / 365 in
  let doy := doe - (365 * yoe + yoe / 4 - yoe / 100) in
  let mp := (5 * doy + 2) / 153 in
  let d := doy - (153 * mp + 2) / 5 + 1 in
  let m := if mp <? 10 then mp + 3 else mp - 9 in
  (yoe + era * 400 + (if m <=? 2 then 1 else 0), m, d).

Definition padTo (w : nat) (s : string) : string :=
  ofBytes (repeat "0"%char (w - String.length s)) +:+ s.
Definition two (z : Z) : string := padTo 2 (itoa z).

Definition formatRFC3339 (t : Time) : string :=
  let secs := t / Second in
  let '(y, m, d) := civil (secs / 86400) in
  let s := secs mod 86400 in
  padTo 4 (itoa y) +:+ "-" +:+ two m +:+ "-" +:+ two d +:+ "T" +:+ two (s / 3600) +:+ ":"
  +:+ two (s mod 3600 / 60) +:+ ":" +:+ two (s mod 60) +:+ "Z".

Lemma UnixMilli_timeUnixMilli ms : UnixMilli (timeUnixMilli ms) = ms.
Proof. unfold UnixMilli, timeUnixMilli, Millisecond. by rewrite Z.div_mul. Qed.
(** Truncating to milliseconds loses less than one millisecond. *)
Lemma timeUnixMilli_UnixMilli t :
  timeUnixMilli (UnixMilli t) ≤ t < timeUnixMilli (UnixMilli t) + Millisecond.
Proof.
  unfold UnixMilli, timeUnixMilli, Millisecond.
  pose proof (Z.mul_div_le t 1000000). pose proof (Z.mul_succ_div_gt t 1000000). lia.
Qed.

Example format_epoch : formatRFC3339 0 = "1970-01-01T00:00:00Z".
Proof. vm_compute. reflexivity. Qed.
Example format_leap : formatRFC3339 (1709210096 * Second) = "2024-02-29T12:34:56Z".
Proof. vm_compute. reflexivity. Qed.
Example format_zero : formatRFC3339 zeroTime = "0001-01-01T00:00:00Z".
Proof. vm_compute. reflexivity. Qed.
