(* ===== verification/World.v ===== *)
(** * The process: its state, the outside it talks to, and its effects

    Every operation of the relay runs in [M]: it reads and changes a [World] and
    ends with a value or with a run-time panic.  A [World] holds

    - the Redis service ([w_redis], any [Redis S]);
    - the package-level [RelayState] with its slices and lookup maps ([w_relay]);
    - the readings of the clock and the random UUIDs still to come, the answers of
      the task broker and of the network, as functions of the call's position;
    - the record of what left the process: tasks handed to the broker, HTTP
      requests sent;
    - the goroutines started with [go] that have not run yet ([w_spawned]);
    - the actor-document cache.

    Redis requests go through [redis]; [x ←! m; k] is the source's
    [x, err := m; if err != nil { return ..., err }]. *)

From S2P Require Import Prelude GoStrings GoTime Redis.

(** ** Effects *)

Inductive outcome (A : Type) := Done (a : A) | Panic (msg : string).
Arguments Done {A} a.
Arguments Panic {A} msg.

Definition M (W A : Type) : Type := W → W * outcome A.
#[export] Instance M_ret {W} : MRet (M W) := λ A a w, (w, Done a).
#[export] Instance M_bind {W} : MBind (M W) := λ A B f m w,
  match m w with
  | (w', Done a) => f a w'
  | (w', Panic msg) => (w', Panic msg)
  end.
Definition panic {W A} (msg : string) : M W A := λ w, (w, Panic msg).
Definition get {W} : M W W := λ w, (w, Done w).
Definition modify {W} (f : W → W) : M W unit := λ w, (f w, Done tt).

(** Early return on an error: of a computation, and of a pure fallible function. *)
Definition bindErr {W A B} (m : M W (result A)) (f : A → M W (result B)) : M W (result B) :=
  m ≫= λ r, match r with Ok a => f a | Err e => mret (Err e) end.
Notation "x ←! m ; k" := (bindErr m (λ x, k)) (at level 20, m at level 100, k at level 200) : relay_scope.
Notation "' x ←! m ; k" := (bindErr m (λ x, k))
  (at level 20, x pattern, m at level 100, k at level 200) : relay_scope.

(** ** Data of the relay state (models/state.go) *)

Record relayConfig := mkRelayConfig { cfgPersonOnly : bool; cfgManuallyAccept : bool }.
Record Subscriber := mkSubscriber {
  subDomain : string; subInboxURL : string; subActivityID : string; subActorID : string }.
Record Follower := mkFollower {
  folDomain : string; folInboxURL : string; folActivityID : string; folActorID : string;
  folMutuallyFollow : bool }.
Record Publisher := mkPublisher {
  pubDomain : string; pubActorID : string; pubInboxURL : string; pubFirstSeen : string;
  pubLastSeen : string; pubLastActivityID : string; pubLastActivityType : string;
  pubActivityCount : Z }.
#[export] Instance relayConfig_eq_dec : EqDecision relayConfig.
Proof. solve_decision. Defined.
#[export] Instance Subscriber_eq_dec : EqDecision Subscriber.
Proof. solve_decision. Defined.
#[export] Instance Follower_eq_dec : EqDecision Follower.
Proof. solve_decision. Defined.
#[export] Instance Publisher_eq_dec : EqDecision Publisher.
Proof. solve_decision. Defined.

Record RelayState := mkRelayState {
  notifiable : bool;
  RelayConfig : relayConfig;
  LimitedDomains : list string;
  BlockedDomains : list string;
  Subscribers : list Subscriber;
  Followers : list Follower;
  Publishers : list Publisher;
  SubscribersAndFollowers : list Subscriber;
  limitedDomains : gset string;
  blockedDomains : gset string;
  subscribersByDomain : gmap string Subscriber;
  followersByDomain : gmap string Follower;
  publishersByDomain : gmap string Publisher
}.
Definition zeroRelayState (n : bool) : RelayState :=
  mkRelayState n (mkRelayConfig false false) [] [] [] [] [] [] ∅ ∅ ∅ ∅ ∅.

(** ** HTTP messages and tasks *)

(** [http.Header]: the values of each canonical field name, in order. *)
Definition Header : Type := gmap string (list string).
Definition headerValues (h : Header) (name : string) : list string := default [] (h !! name).
Definition headerGet (h : Header) (name : string) : string :=
  match headerValues h name with v :: _ => v | [] => "" end.
Definition headerSet (h : Header) (name v : string) : Header := <[name := [v]]> h.

Record httpRequest := mkHttpRequest {
  reqMethod : string; reqURL : string; reqHeader : Header; reqBody : string }.
(** [RespReadErr] is the error of reading the body after [RespBody]. *)
Record httpResponse := mkHttpResponse {
  StatusCode : Z; Status : string; RespHeader : Header; RespBody : string;
  RespReadErr : option error }.

(** A machinery [tasks.Signature]: name, retry fields and the string arguments. *)
Record taskSignature := mkTask {
  taskName : string; taskRetryCount : Z; taskRetryTimeout : Z;
  taskArgs : list (string * string) }.
#[export] Instance taskSignature_eq_dec : EqDecision taskSignature.
Proof. solve_decision. Defined.

(** A goroutine started with [go]: the call and its captured arguments. *)
Inductive goCall :=
  | GoEnqueueRegister (inboxURL body : string)
  | GoEnqueueActivity (subscriptions : list Subscriber) (sourceDomain body : string)
  | GoEnqueueExcept (subscriptions : list Subscriber) (body : string) (excluded : list string)
  | GoEnqueueForAll (sourceDomain body : string)
  | GoEnqueueForAllExceptOrRelease (body sourceRelay origin key token : string).

(** ** The world *)

Record World (S : Type) := mkWorld {
  w_redis : S;
  w_relay : RelayState;
  w_clock : nat → Time;
  w_ticks : nat;
  w_uuid : nat → string;
  w_uuids : nat;
  w_broker : nat → list taskSignature → list taskSignature * option error;
  w_sends : nat;
  w_queued : list taskSignature;
  w_net : nat → httpRequest → result httpResponse;
  w_posts : nat;
  w_sentRequests : list httpRequest;
  w_spawned : list goCall;
  w_cache : gmap string string
}.
Arguments mkWorld {S} _ _ _ _ _ _ _ _ _ _ _ _ _ _.
Arguments w_redis {S} _.
Arguments w_relay {S} _.
Arguments w_clock {S} _ _.
Arguments w_ticks {S} _.
Arguments w_uuid {S} _ _.
Arguments w_uuids {S} _.
Arguments w_broker {S} _ _ _.
Arguments w_sends {S} _.
Arguments w_queued {S} _.
Arguments w_net {S} _ _ _.
Arguments w_posts {S} _.
Arguments w_sentRequests {S} _.
Arguments w_spawned {S} _.
Arguments w_cache {S} _.

Section effects.
Context {S : Type} `{Redis S}.
Abbreviation W := (World S).

Definition set_redis (s : S) (w : W) : W :=
  mkWorld s (w_relay w) (w_clock w) (w_ticks w) (w_uuid w) (w_uuids w) (w_broker w) (w_sends w)
    (w_queued w) (w_net w) (w_posts w) (w_sentRequests w) (w_spawned w) (w_cache w).
Definition set_relay (r : RelayState) (w : W) : W :=
  mkWorld (w_redis w) r (w_clock w) (w_ticks w) (w_uuid w) (w_uuids w) (w_broker w) (w_sends w)
    (w_queued w) (w_net w) (w_posts w) (w_sentRequests w) (w_spawned w) (w_cache w).
Definition set_spawned (l : list goCall) (w : W) : W :=
  mkWorld (w_redis w) (w_relay w) (w_clock w) (w_ticks w) (w_uuid w) (w_uuids w) (w_broker w)
    (w_sends w) (w_queued w) (w_net w) (w_posts w) (w_sentRequests w) l (w_cache w).
Definition set_cache (c : gmap string string) (w : W) : W :=
  mkWorld (w_redis w) (w_relay w) (w_clock w) (w_ticks w) (w_uuid w) (w_uuids w) (w_broker w)
    (w_sends w) (w_queued w) (w_net w) (w_posts w) (w_sentRequests w) (w_spawned w) c.

(** One Redis request, one SCAN iteration. *)
Definition redis {A} (c : Rcmd A) : M W (result A) := λ w,
  let sr := redis_do c (w_redis w) in (set_redis sr.1 w, Done sr.2).
Definition redisScan (prefix : string) : M W (result (list string)) := λ w,
  let sr := redis_scan prefix (w_redis w) in (set_redis sr.1 w, Done sr.2).

(** [time.Now()], [uuid.New().String()]. *)
Definition timeNow : M W Time := λ w,
  (mkWorld (w_redis w) (w_relay w) (w_clock w) (Datatypes.S (w_ticks w)) (w_uuid w) (w_uuids w)
     (w_broker w) (w_sends w) (w_queued w) (w_net w) (w_posts w) (w_sentRequests w)
     (w_spawned w) (w_cache w), Done (w_clock w (w_ticks w))).
Definition uuidNew : M W string := λ w,
  (mkWorld (w_redis w) (w_relay w) (w_clock w) (w_ticks w) (w_uuid w) (Datatypes.S (w_uuids w))
     (w_broker w) (w_sends w) (w_queued w) (w_net w) (w_posts w) (w_sentRequests w)
     (w_spawned w) (w_cache w), Done (w_uuid w (w_uuids w))).

(** [MachineryServer.SendTask]/[SendGroup]: the broker takes some of the tasks and may
    answer an error. *)
Definition brokerSend (ts : list taskSignature) : M W (result unit) := λ w,
  let '(taken, e) := w_broker w (w_sends w) ts in
  (mkWorld (w_redis w) (w_relay w) (w_clock w) (w_ticks w) (w_uuid w) (w_uuids w) (w_broker w)
     (Datatypes.S (w_sends w)) (w_queued w ++ taken) (w_net w) (w_posts w) (w_sentRequests w)
     (w_spawned w) (w_cache w),
   Done (match e with None => Ok tt | Some e => Err e end)).
(** [http.Client.Do] of one request. *)
Definition httpDo (r : httpRequest) : M W (result httpResponse) := λ w,
  (mkWorld (w_redis w) (w_relay w) (w_clock w) (w_ticks w) (w_uuid w) (w_uuids w) (w_broker w)
     (w_sends w) (w_queued w) (w_net w) (Datatypes.S (w_posts w)) (w_sentRequests w ++ [r])
     (w_spawned w) (w_cache w), Done (w_net w (w_posts w) r)).

Definition go (c : goCall) : M W unit := modify (λ w, set_spawned (w_spawned w ++ [c]) w).
Definition getRelay : M W RelayState := λ w, (w, Done (w_relay w)).
Definition putRelay (r : RelayState) : M W unit := modify (set_relay r).
End effects.

(** The documented broker: it takes tasks among those sent, and all of them when it answers
    no error. *)
Definition brokerDocumented {S} (w : World S) : Prop := ∀ n ts,
  (w_broker w n ts).1 ⊆ ts ∧ ((w_broker w n ts).2 = None → (w_broker w n ts).1 = ts).

(** Nothing but Redis (and the relay state) was touched between two worlds. *)
Definition sameOutside {S} (w w' : World S) : Prop :=
  w_clock w' = w_clock w ∧ w_ticks w' = w_ticks w ∧ w_uuid w' = w_uuid w ∧ w_uuids w' = w_uuids w
  ∧ w_broker w' = w_broker w ∧ w_sends w' = w_sends w ∧ w_queued w' = w_queued w
  ∧ w_net w' = w_net w ∧ w_posts w' = w_posts w ∧ w_sentRequests w' = w_sentRequests w
  ∧ w_spawned w' = w_spawned w ∧ w_cache w' = w_cache w.

#[export] Instance sameOutside_preorder {S} : PreOrder (@sameOutside S).
Proof.
  split; unfold sameOutside; [by intros w|].
  intros w1 w2 w3 H1 H2. destruct_and?. repeat split; congruence.
Qed.

(** A process with a quiet outside: the clock advances a second per reading, the broker takes
    every task, the network answers 202 to every request. *)
Definition quietWorld {S} (s : S) (r : RelayState) : World S :=
  mkWorld s r (λ n, (1700000000 + Z.of_nat n) * Second) 0
    (λ n, "00000000-0000-4000-8000-00000000000" +:+ itoa (Z.of_nat n)) 0
    (λ _ ts, (ts, None)) 0 [] (λ _ _, Ok (mkHttpResponse 202 "202 Accepted" ∅ "" None)) 0 [] [] ∅.
