(* ===== verification/Frame.v ===== *)
(** * Reasoning about effects

    [runs R m]: from any world, [m] ends without a panic, in a world related to
    the first by [R].  With [R] a preorder, this is closed under sequencing, so
    the frame of a whole operation follows from the frames of its effects. *)

From S2P Require Import Prelude GoStrings GoTime Redis World.

Section frame.
Context {W : Type} (R : relation W) `{!PreOrder R}.

Definition runs {A} (m : M W A) : Prop := ∀ w, ∃ w' a, m w = (w', Done a) ∧ R w w'.

Lemma runs_ret {A} (a : A) : runs (mret a).
Proof. intros w. by exists w, a. Qed.
Lemma runs_bind {A B} (m : M W A) (f : A → M W B) :
  runs m → (∀ a, runs (f a)) → runs (m ≫= f).
Proof.
  intros Hm Hf w. destruct (Hm w) as (w1 & a & E & H1). destruct (Hf a w1) as (w2 & b & E2 & H2).
  exists w2, b. unfold mbind, M_bind. rewrite E. split; [done|by etransitivity].
Qed.
Lemma runs_bindErr {A B} (m : M W (result A)) (f : A → M W (result B)) :
  runs m → (∀ a, runs (f a)) → runs (bindErr m f).
Proof.
  intros Hm Hf. apply runs_bind; [done|]. intros [a|e]; [apply Hf|apply runs_ret].
Qed.
Lemma runs_if {A} (b : bool) (m1 m2 : M W A) : runs m1 → runs m2 → runs (if b then m1 else m2).
Proof. by destruct b. Qed.
Lemma runs_get {B} (P : W → Prop) (f : W → M W B) : (∀ w, runs (f w)) → runs (get ≫= f).
Proof. intros Hf w. destruct (Hf w w) as (w' & b & E & H1). by exists w', b. Qed.
End frame.

Lemma runs_mono {W} (R R' : relation W) {A} (m : M W A) :
  (∀ w w', R w w' → R' w w') → runs R m → runs R' m.
Proof. intros HR Hm w. destruct (Hm w) as (w' & a & E & H). eauto 6. Qed.

(** Running a bind, forwards. *)
Lemma bind_Done {W A B} (m : M W A) (f : A → M W B) w w' a :
  m w = (w', Done a) → (m ≫= f) w = f a w'.
Proof. intros E. unfold mbind, M_bind. by rewrite E. Qed.
Lemma bindErr_Ok {W A B} (m : M W (result A)) (f : A → M W (result B)) w w' a :
  m w = (w', Done (Ok a)) → bindErr m f w = f a w'.
Proof. intros E. unfold bindErr. by rewrite (bind_Done _ _ _ _ _ E). Qed.
Lemma bindErr_Err {W A B} (m : M W (result A)) (f : A → M W (result B)) w w' e :
  m w = (w', Done (Err e)) → bindErr m f w = (w', Done (Err e)).
Proof. intros E. unfold bindErr. by rewrite (bind_Done _ _ _ _ _ E). Qed.

(** And backwards. *)
Lemma bind_inv {W A B} (m : M W A) (f : A → M W B) w w' b :
  (m ≫= f) w = (w', Done b) → ∃ w1 a, m w = (w1, Done a) ∧ f a w1 = (w', Done b).
Proof. unfold mbind, M_bind. destruct (m w) as [w1 [a|msg]]; [|done]. eauto. Qed.

Create HintDb runs.
#[export] Hint Resolve runs_ret runs_bind runs_bindErr runs_if : runs.

(** Decompose a [runs] goal along the code. *)
Ltac runs_step :=
  match goal with
  | |- runs _ (_ ≫= _) => apply runs_bind; [typeclasses eauto| |intros ?]
  | |- runs _ (bindErr _ _) => apply runs_bindErr; [typeclasses eauto| |intros ?]
  | |- runs _ (mret _) => apply runs_ret; typeclasses eauto
  | |- runs _ (if _ then _ else _) => case_match
  | |- runs _ (match _ with _ => _ end) => case_match
  end.
Ltac runs_auto := repeat runs_step; eauto with runs.

(** ** Frames of the effects *)

Section effects.
Context {S : Type} `{RedisLaws S}.
Abbreviation W := (World S).

(** Redis may answer anything its contract allows and its keys outside [ks] are untouched;
    nothing else of the world changes. *)
Definition redisOnly (ks : string → Prop) (w w' : W) : Prop :=
  w_relay w' = w_relay w ∧ sameOutside w w' ∧ rs_ms (w_redis w) ≤ rs_ms (w_redis w')
  ∧ db_published (rs_db (w_redis w')) = db_published (rs_db (w_redis w))
  ∧ ∀ k, ¬ ks k → db_keys (rs_db (w_redis w')) !! k = db_keys (rs_db (w_redis w)) !! k.
#[export] Instance redisOnly_preorder ks : PreOrder (redisOnly ks).
Proof.
  split; [by intros w; repeat split|].
  intros w1 w2 w3 (A1 & B1 & C1 & P1 & D1) (A2 & B2 & C2 & P2 & D2).
  split; [congruence|]. split; [by etransitivity|]. split; [lia|]. split; [congruence|].
  intros k Hk. by rewrite D2, D1.
Qed.

(** The same, where the clock may also have been read. *)
Definition nearby (ks : string → Prop) (w w' : W) : Prop :=
  (w_relay w' = w_relay w ∧ w_clock w' = w_clock w ∧ (w_ticks w ≤ w_ticks w')%nat)
  ∧ (w_uuid w' = w_uuid w ∧ w_uuids w' = w_uuids w ∧ w_broker w' = w_broker w ∧ w_sends w' = w_sends w
     ∧ w_queued w' = w_queued w ∧ w_net w' = w_net w ∧ w_posts w' = w_posts w
     ∧ w_sentRequests w' = w_sentRequests w ∧ w_spawned w' = w_spawned w ∧ w_cache w' = w_cache w)
  ∧ rs_ms (w_redis w) ≤ rs_ms (w_redis w')
  ∧ db_published (rs_db (w_redis w')) = db_published (rs_db (w_redis w))
  ∧ ∀ k, ¬ ks k → db_keys (rs_db (w_redis w')) !! k = db_keys (rs_db (w_redis w)) !! k.
#[export] Instance nearby_preorder ks : PreOrder (nearby ks).
Proof.
  split; [by intros w; repeat split|].
  intros w1 w2 w3 (A1 & B1 & C1 & P1 & D1) (A2 & B2 & C2 & P2 & D2).
  split; [destruct_and?; repeat split; [congruence|congruence|lia]|].
  split; [destruct_and?; repeat split; congruence|]. split; [lia|]. split; [congruence|].
  intros k Hk. by rewrite D2, D1.
Qed.
Lemma redisOnly_nearby ks w w' : redisOnly ks w w' → nearby ks w w'.
Proof.
  intros (R & O & M & P & K). unfold sameOutside in O. destruct_and?.
  split; [repeat split; [done|done|lia]|]. split; [by repeat split|]. done.
Qed.
Lemma nearby_weaken (ks ks' : string → Prop) w w' :
  (∀ k, ks k → ks' k) → nearby ks w w' → nearby ks' w w'.
Proof. intros Hk (A & B & C & P & D). repeat (split; [done|]). intros k Hn. apply D. auto. Qed.
Lemma runs_timeNow ks : runs (nearby ks) timeNow.
Proof.
  intros w. eexists _, _. split; [reflexivity|].
  split; [repeat split; simpl; lia|]. by repeat split.
Qed.

(** The live entries under a key prefix stay as they are while they live. *)
Definition liveKeysKept (prefix : string) (w w' : W) : Prop :=
  rs_ms (w_redis w) ≤ rs_ms (w_redis w')
  ∧ ∀ k e, HasPrefix k prefix = true → db_keys (rs_db (w_redis w)) !! k = Some e →
      live (rs_ms (w_redis w')) e = true → db_keys (rs_db (w_redis w')) !! k = Some e.
#[export] Instance liveKeysKept_trans prefix : Transitive (liveKeysKept prefix).
Proof.
  intros w1 w2 w3 [M1 K1] [M2 K2]. split; [lia|]. intros k e Hk He Hl.
  apply K2; [done| |done]. apply K1; [done|done|].
  destruct e as [v [t|]]; [|done]. unfold live in *. cbn in *. apply Z.ltb_lt in Hl. apply Z.ltb_lt. lia.
Qed.
Lemma liveKeysKept_refl prefix w : liveKeysKept prefix w w.
Proof. split; [lia|auto]. Qed.

(** A request that writes only keys in [ks]. *)
Definition touches {A} (ks : string → Prop) (c : Rcmd A) : Prop := ∀ now d,
  db_published (c now d).1 = db_published d
  ∧ ∀ k, ¬ ks k → db_keys (c now d).1 !! k = db_keys d !! k.

Lemma redisOnly_redis {A} ks (c : Rcmd A) w : touches ks c → redisOnly ks w (redis c w).1.
Proof.
  intros Hc. unfold redis. simpl. split; [done|]. split; [done|]. split; [apply redis_do_clock|].
  destruct (redis_do_db c (w_redis w)) as [E|E]; cbn [w_redis set_redis]; rewrite E; [done|apply Hc].
Qed.
Lemma runs_redis {A} ks (c : Rcmd A) : touches ks c → runs (redisOnly ks) (redis c).
Proof. intros Hc w. eexists _, _. split; [reflexivity|]. by apply (redisOnly_redis ks c w). Qed.
Lemma runs_nearby {A} ks (m : M W A) : runs (redisOnly ks) m → runs (nearby ks) m.
Proof. apply runs_mono, redisOnly_nearby. Qed.
Lemma runs_redis_nearby {A} ks (c : Rcmd A) : touches ks c → runs (nearby ks) (redis c).
Proof. intros Hc. by apply runs_nearby, runs_redis. Qed.
Lemma runs_weaken {A} (ks ks' : string → Prop) (m : M W A) :
  (∀ k, ks k → ks' k) → runs (nearby ks) m → runs (nearby ks') m.
Proof. intros Hk. apply runs_mono. intros w w'. by apply nearby_weaken. Qed.

Lemma touches_ret {A} ks (a : A) : touches ks (mret a).
Proof. by intros now d. Qed.
Lemma touches_bind {A B} ks (c : Rcmd A) (f : A → Rcmd B) :
  touches ks c → (∀ a, touches ks (f a)) → touches ks (c ≫= f).
Proof.
  intros Hc Hf now d. unfold mbind, Rcmd_bind. specialize (Hc now d).
  destruct (c now d) as [d1 [a|e]]; simpl in *; [|done].
  destruct Hc as [P1 K1], (Hf a now d1) as [P2 K2]. split; [congruence|].
  intros k Hk. by rewrite K2, K1.
Qed.
Lemma touches_readOnly {A} ks (c : Rcmd A) : readOnly c → touches ks c.
Proof. intros Hc now d. rewrite (Hc now d). split; [done|]. by intros k _. Qed.
Lemma touches_raise {A} ks e : touches ks (rraise (A := A) e).
Proof. by intros now d. Qed.

Lemma keys_put k v t d k' : k ≠ k' → db_keys (put k v t d) !! k' = db_keys d !! k'.
Proof. intros Hk. unfold put. simpl. by rewrite lookup_insert_ne. Qed.
Lemma keys_drop k d k' : k ≠ k' → db_keys (drop_ k d) !! k' = db_keys d !! k'.
Proof. intros Hk. unfold drop_. simpl. by rewrite lookup_delete_ne. Qed.

Ltac touch_cmd := intros Hk now d; repeat case_match; cbn [fst]; (split; [done|]);
  intros k' Hk'; try done; first [apply keys_put | apply keys_drop]; intros ->; by apply Hk'.
Lemma touches_HSET (ks : string → Prop) k fs : ks k → touches ks (HSET k fs).
Proof. unfold HSET. touch_cmd. Qed.
Lemma touches_HSETNX (ks : string → Prop) k f v : ks k → touches ks (HSETNX k f v).
Proof. unfold HSETNX. touch_cmd. Qed.
Lemma touches_HINCRBY (ks : string → Prop) k f z : ks k → touches ks (HINCRBY k f z).
Proof. unfold HINCRBY. touch_cmd. Qed.
Lemma touches_INCRBY (ks : string → Prop) k z : ks k → touches ks (INCRBY k z).
Proof. unfold INCRBY. touch_cmd. Qed.
Lemma touches_SETNX (ks : string → Prop) k v t : ks k → touches ks (SETNX k v t).
Proof. unfold SETNX. touch_cmd. Qed.
Lemma touches_DEL (ks : string → Prop) k : ks k → touches ks (DEL k).
Proof. unfold DEL. touch_cmd. Qed.
Lemma touches_EXPIRE (ks : string → Prop) k z : ks k → touches ks (EXPIRE k z).
Proof. unfold EXPIRE, EXPIREAT_MS. touch_cmd. Qed.
Lemma touches_EXPIREAT_MS (ks : string → Prop) k z : ks k → touches ks (EXPIREAT_MS k z).
Proof. unfold EXPIREAT_MS. touch_cmd. Qed.
Lemma touches_LLEN ks k : touches ks (LLEN k).
Proof. by apply touches_readOnly. Qed.
Lemma touches_GETopt ks k : touches ks (GETopt k).
Proof. by apply touches_readOnly. Qed.
Lemma touches_EXISTS ks k : touches ks (EXISTS k).
Proof. by apply touches_readOnly. Qed.
Lemma touches_HGETopt ks k f : touches ks (HGETopt k f).
Proof. apply touches_readOnly. intros now d. unfold HGETopt. by case_match. Qed.
Lemma touches_luaNumber ks s : touches ks (luaNumber s).
Proof. unfold luaNumber. case_match; [apply touches_ret|apply touches_raise]. Qed.
End effects.
#[export] Hint Resolve runs_redis runs_redis_nearby runs_timeNow touches_ret touches_bind touches_raise touches_HSET touches_HSETNX
  touches_HINCRBY touches_INCRBY touches_SETNX touches_DEL touches_EXPIRE touches_EXPIREAT_MS touches_luaNumber
  touches_LLEN touches_GETopt touches_EXISTS touches_HGETopt : runs.

(** ** Requests of a reliable Redis *)

Section reliable.
Context {S : Type} `{RedisReliable S}.
Lemma redis_ok {A} (c : Rcmd A) (w : World S) :
  ∃ w', redis c w = (w', Done (c (rs_ms (w_redis w')) (rs_db (w_redis w))).2)
  ∧ rs_db (w_redis w') = (c (rs_ms (w_redis w')) (rs_db (w_redis w))).1.
Proof.
  pose proof (redis_do_ok A c (w_redis w)) as E. exists (set_redis (redis_do c (w_redis w)).1 w).
  unfold redis. cbn [w_redis set_redis]. by rewrite <- E.
Qed.
End reliable.
