(* ===== verification/Observability.v ===== *)
(** * Operational metrics (internal/observability/operational.go)

    The relay-wide counters are fields of one Redis hash; a field is the metric
    name and its labels, each from a closed vocabulary.  Deadlines on the Redis
    calls are not modelled: a call that times out is a failed request. *)

From S2P Require Import Prelude GoStrings GoUrl Redis GoTime World Frame.

Definition OperationalMetricsKey : string := "relay:metrics:operational".
Definition metricFieldSeparator : string := "|".

Definition boundedValue (value fallback : string) (allowed : list string) : string :=
  let value := ToLower (TrimSpace value) in
  if oneOf value allowed then value else fallback.

Definition activityTypes : list (string * string) :=
  [("create", "Create"); ("update", "Update"); ("delete", "Delete"); ("move", "Move");
   ("announce", "Announce"); ("follow", "Follow"); ("undo", "Undo"); ("accept", "Accept");
   ("reject", "Reject")].
Definition normalizeActivityType (value : string) : string :=
  match List.find (λ p, ToLower (TrimSpace value) =s p.1) activityTypes with
  | Some p => p.2 | None => "other" end.
Definition normalizeActivityResult (value : string) : string :=
  boundedValue value "other" ["accepted"; "rejected"; "ignored"].
Definition normalizeActivityReason (value : string) : string :=
  boundedValue value "other" ["accepted"; "invalid"; "policy"; "method"; "internal"; "unsupported"].
Definition normalizeHTTPSignatureProfile (value : string) : string :=
  boundedValue value "other" ["legacy"; "rfc9421"].
Definition normalizeHTTPSignatureResult (value : string) : string :=
  boundedValue value "other" ["success"; "failure"].
Definition normalizeHTTPSignatureReason (value : string) : string :=
  boundedValue value "other" ["accepted"; "parse"; "key"; "crypto"; "digest"; "replay"; "time"; "actor";
    "authority"; "policy"; "redis"; "activity"].
Definition normalizeQueueKind (value : string) : string := boundedValue value "other" ["register"; "relay"].
Definition normalizeQueueResult (value : string) : string :=
  boundedValue value "other" ["accepted"; "rejected"; "error"; "skipped"].
Definition normalizeQueueReason (value : string) : string :=
  boundedValue value "other" ["accepted"; "capacity"; "fanout_limit"; "redis"; "store"; "group"; "broker";
    "no_targets"].
Definition normalizeFanoutResult (value : string) : string :=
  boundedValue value "other" ["queued"; "rejected"; "error"].
Definition normalizeDeliveryResult (value : string) : string :=
  boundedValue value "other" ["success"; "failure"; "skipped"].
Definition normalizeDeliveryErrorClass (value : string) : string :=
  boundedValue value "other" ["none"; "timeout"; "dns"; "tls"; "http_4xx"; "http_5xx"; "invalid_url";
    "activity_expired"].
Definition normalizeDirectoryResult (value : string) : string :=
  boundedValue value "other" ["success"; "failure"; "skipped"].
Definition normalizeDirectoryDiagnostic (value : string) : string :=
  boundedValue value "other" ["none"; "transport"; "internal"; "rate_limited"; "authentication";
    "enrollment"; "suspended"; "lifecycle"; "malformed"; "lease_lost"; "disabled"].
Definition normalizeRedisComponent (value : string) : string :=
  boundedValue value "other" ["api"; "worker"; "collector"].
Definition normalizeRedisOperation (value : string) : string :=
  boundedValue value "other" ["queue_reserve"; "queue_release"; "activity_store"; "activity_load";
    "receiver_health"; "statistics"; "activity_cleanup"; "ledger"; "queue_snapshot"; "state_snapshot"].

(** ** Delivery errors *)

(** The first match of [(?:^|[: ])([45][0-9]{2})(?: |$)]: the first digit of the status. *)
Definition statusAt (l : list ascii) : option ascii :=
  match l with
  | a :: b :: c :: r =>
      if inRange a 52 53 && isDigit b && isDigit c
         && match r with [] => true | d :: _ => bool_decide (d = " "%char) end
      then Some a else None
  | _ => None
  end.
Fixpoint statusAfterSeparator (l : list ascii) : option ascii :=
  match l with
  | [] => None
  | c :: r =>
      match (if bool_decide (c = ":"%char) || bool_decide (c = " "%char) then statusAt r else None) with
      | Some d => Some d
      | None => statusAfterSeparator r
      end
  end.
Definition deliveryHTTPStatusPattern (text : string) : option ascii :=
  match statusAt (bytes text) with Some d => Some d | None => statusAfterSeparator (bytes text) end.

Definition classifyText (text : string) : string :=
  let text := ToLower text in
  let has := Contains text in
  if has "timeout" || has "deadline exceeded" then "timeout"
  else if has "no such host" || has "dns" then "dns"
  else if has "tls" || has "x509" || has "certificate" then "tls"
  else if has "unsupported protocol scheme" || has "missing protocol scheme" || has "invalid url"
          || has "create delivery request" then "invalid_url"
  else match deliveryHTTPStatusPattern text with
  | Some d => if bool_decide (d = "4"%char) then "http_4xx" else "http_5xx"
  | None => "other"
  end.
(** The error values [errors.Is]/[errors.As] look for on the chain: a deadline, a [net.Error]
    that timed out, a [*net.DNSError], a [*url.Error] with the text it wraps. *)
Fixpoint classifyChain (text : string) (chain : list string) : string :=
  if oneOf "context.DeadlineExceeded" chain || oneOf "net.Error:timeout" chain then "timeout"
  else if oneOf "net.DNSError" chain then "dns"
  else match chain with
  | [] => classifyText text
  | t :: rest =>
      match cutPrefix urlErrorTag t with
      | Some inner => classifyChain inner rest
      | None => classifyChain text rest
      end
  end.
Definition ClassifyDeliveryError (err : option error) : string :=
  match err with None => "none" | Some e => classifyChain (err_text e) (err_is e) end.

(** ** The recorder *)

Section recorder.
Context {S : Type} `{Redis S}.
Abbreviation Mw := (M (World S)).

Definition metricField (metric : string) (labels : list string) : string :=
  Join (metric :: labels) metricFieldSeparator.
Definition increment (metric : string) (delta : Z) (labels : list string) : Mw (result unit) :=
  if delta <? 1 then mret (Ok tt)
  else _ ←! redis (HINCRBY OperationalMetricsKey (metricField metric labels) delta); mret (Ok tt).

Definition RecordActivity (result_ activityType reason : string) : Mw (result unit) :=
  increment "activities_total" 1
    [normalizeActivityResult result_; normalizeActivityType activityType; normalizeActivityReason reason].
Definition RecordHTTPSignatureVerification (profile result_ reason : string) : Mw (result unit) :=
  increment "http_signature_verifications_total" 1
    [normalizeHTTPSignatureProfile profile; normalizeHTTPSignatureResult result_;
     normalizeHTTPSignatureReason reason].
Definition RecordQueueAdmission (kind result_ reason : string) : Mw (result unit) :=
  increment "queue_admissions_total" 1
    [normalizeQueueKind kind; normalizeQueueResult result_; normalizeQueueReason reason].
Definition RecordFanoutTargets (result_ : string) (count : Z) : Mw (result unit) :=
  if count <? 1 then mret (Ok tt)
  else increment "fanout_targets_total" count [normalizeFanoutResult result_].
Definition RecordDelivery (result_ errorClass : string) : Mw (result unit) :=
  increment "delivery_attempts_total" 1
    [normalizeDeliveryResult result_; normalizeDeliveryErrorClass errorClass].
Definition RecordDirectory (result_ diagnostic : string) : Mw (result unit) :=
  increment "directory_scheduler_attempts_total" 1
    [normalizeDirectoryResult result_; normalizeDirectoryDiagnostic diagnostic].
Definition RecordRedisFailure (component operation : string) : Mw (result unit) :=
  increment "redis_operation_failures_total" 1
    [normalizeRedisComponent component; normalizeRedisOperation operation].

(** The API and the worker record a metric when they have a recorder, and only log its error. *)
Definition whenEnabled (enabled : bool) (m : Mw (result unit)) : Mw unit :=
  if enabled then (_ ← m; mret tt) else mret tt.
End recorder.

(** ** The collector's reading of a field (collectLedger) *)

Definition ledgerEntry (field : string) : option (string * list string) :=
  match Split field "|"%char with
  | [m; a; b; c] =>
      if m =s "activities_total" then
        Some (m, [normalizeActivityResult a; normalizeActivityType b; normalizeActivityReason c])
      else if m =s "http_signature_verifications_total" then
        Some (m, [normalizeHTTPSignatureProfile a; normalizeHTTPSignatureResult b; normalizeHTTPSignatureReason c])
      else if m =s "queue_admissions_total" then
        Some (m, [normalizeQueueKind a; normalizeQueueResult b; normalizeQueueReason c])
      else None
  | [m; a; b] =>
      if m =s "delivery_attempts_total" then Some (m, [normalizeDeliveryResult a; normalizeDeliveryErrorClass b])
      else if m =s "directory_scheduler_attempts_total" then
        Some (m, [normalizeDirectoryResult a; normalizeDirectoryDiagnostic b])
      else if m =s "redis_operation_failures_total" then
        Some (m, [normalizeRedisComponent a; normalizeRedisOperation b])
      else None
  | [m; a] => if m =s "fanout_targets_total" then Some (m, [normalizeFanoutResult a]) else None
  | _ => None
  end.

(** ** The closed vocabulary *)

(** The values each label of each metric can take. *)
Definition metricLabels : list (string * list (list string)) :=
  let results := ["other"; "success"; "failure"; "skipped"] in
  [("activities_total", [["other"; "accepted"; "rejected"; "ignored"]; "other" :: activityTypes.*2;
      ["other"; "accepted"; "invalid"; "policy"; "method"; "internal"; "unsupported"]]);
   ("http_signature_verifications_total", [["other"; "legacy"; "rfc9421"]; ["other"; "success"; "failure"];
      ["other"; "accepted"; "parse"; "key"; "crypto"; "digest"; "replay"; "time"; "actor"; "authority";
       "policy"; "redis"; "activity"]]);
   ("queue_admissions_total", [["other"; "register"; "relay"];
      ["other"; "accepted"; "rejected"; "error"; "skipped"];
      ["other"; "accepted"; "capacity"; "fanout_limit"; "redis"; "store"; "group"; "broker"; "no_targets"]]);
   ("fanout_targets_total", [["other"; "queued"; "rejected"; "error"]]);
   ("delivery_attempts_total", [results;
      ["other"; "none"; "timeout"; "dns"; "tls"; "http_4xx"; "http_5xx"; "invalid_url"; "activity_expired"]]);
   ("directory_scheduler_attempts_total", [results;
      ["other"; "none"; "transport"; "internal"; "rate_limited"; "authentication"; "enrollment"; "suspended";
       "lifecycle"; "malformed"; "lease_lost"; "disabled"]]);
   ("redis_operation_failures_total", [["other"; "api"; "worker"; "collector"];
      ["other"; "queue_reserve"; "queue_release"; "activity_store"; "activity_load"; "receiver_health";
       "statistics"; "activity_cleanup"; "ledger"; "queue_snapshot"; "state_snapshot"]])].
Fixpoint labelChoices (values : list (list string)) : list (list string) :=
  match values with
  | [] => [[]]
  | vs :: rest => flat_map (λ v, map (cons v) (labelChoices rest)) vs
  end.
Definition vocabulary : list (string * list string) :=
  flat_map (λ m, map (pair m.1) (labelChoices m.2)) metricLabels.

Lemma labelChoices_elem labels values :
  Forall2 (λ l vs, l ∈ vs) labels values → labels ∈ labelChoices values.
Proof.
  induction 1 as [|l vs labels values Hl _ IH]; [by left|]. simpl.
  apply list_elem_of_In, in_flat_map. exists l. rewrite <- list_elem_of_In. split; [done|].
  apply in_map. by apply list_elem_of_In.
Qed.
Lemma vocabulary_elem metric values labels :
  (metric, values) ∈ metricLabels → Forall2 (λ l vs, l ∈ vs) labels values → (metric, labels) ∈ vocabulary.
Proof.
  intros Hm Hl. apply list_elem_of_In, in_flat_map. exists (metric, values).
  split; [by apply list_elem_of_In|]. apply in_map, list_elem_of_In. by apply labelChoices_elem.
Qed.

Lemma boundedValue_elem value fallback allowed : boundedValue value fallback allowed ∈ fallback :: allowed.
Proof.
  unfold boundedValue. destruct (oneOf _ _) eqn:E; [right; by apply oneOf_true|left].
Qed.
Lemma normalizeActivityType_elem value : normalizeActivityType value ∈ "other" :: activityTypes.*2.
Proof.
  unfold normalizeActivityType. destruct (List.find _ _) as [p|] eqn:E; [|left].
  apply List.find_some in E as [E _]. right. apply list_elem_of_fmap_2. by apply list_elem_of_In.
Qed.

(** What the collector reads from a field of the vocabulary is the metric and labels that were
    written. *)
Lemma vocabulary_collected metric labels :
  (metric, labels) ∈ vocabulary → ledgerEntry (metricField metric labels) = Some (metric, labels).
Proof.
  assert (H : forallb (λ p, bool_decide (ledgerEntry (metricField p.1 p.2) = Some p)) vocabulary = true)
    by (vm_compute; reflexivity).
  rewrite forallb_Forall, Forall_forall in H. intros Hp. specialize (H _ Hp).
  by apply bool_decide_eq_true in H.
Qed.

(** ** Recording *)

Inductive metricOp :=
  | MActivity (r t reason : string) | MSignature (p r reason : string) | MQueue (k r reason : string)
  | MFanout (r : string) (count : Z) | MDelivery (r c : string) | MDirectory (r d : string)
  | MRedis (c o : string).

Section bounded.
Context {S : Type} `{RedisLaws S}.
Abbreviation W := (World S).

Definition runMetric (op : metricOp) : M W (result unit) :=
  match op with
  | MActivity r t reason => RecordActivity r t reason
  | MSignature p r reason => RecordHTTPSignatureVerification p r reason
  | MQueue k r reason => RecordQueueAdmission k r reason
  | MFanout r count => RecordFanoutTargets r count
  | MDelivery r c => RecordDelivery r c
  | MDirectory r d => RecordDirectory r d
  | MRedis c o => RecordRedisFailure c o
  end.
Fixpoint runMetrics (ops : list metricOp) : M W unit :=
  match ops with [] => mret tt | op :: ops => _ ← runMetric op; runMetrics ops end.

Definition metricsHash (w : W) : gmap string string :=
  match db_keys (rs_db (w_redis w)) !! OperationalMetricsKey with
  | Some (mkEntry (RHash h) _) => h | _ => ∅ end.
(** Only the metrics key was written, and every new field of it is in the vocabulary and read
    back by the collector. *)
Definition metricsGrow (w w' : W) : Prop :=
  redisOnly (λ k, k = OperationalMetricsKey) w w'
  ∧ ∀ f, is_Some (metricsHash w' !! f) → is_Some (metricsHash w !! f)
      ∨ ∃ metric labels, (metric, labels) ∈ vocabulary ∧ f = metricField metric labels
          ∧ ledgerEntry f = Some (metric, labels).
#[export] Instance metricsGrow_preorder : PreOrder metricsGrow.
Proof.
  split; [by intros w; split; [|auto]|].
  intros w1 w2 w3 [A1 B1] [A2 B2]. split; [by etransitivity|].
  intros f Hf. destruct (B2 f Hf) as [Hf'|Hf']; [by apply B1|by right].
Qed.

Lemma HINCRBY_fields k f delta now d e :
  db_keys (HINCRBY k f delta now d).1 !! k = Some e →
  db_keys d !! k = Some e
  ∨ ∃ h z t, asHash now d k = Ok h ∧ e = mkEntry (RHash (<[f := z]> h)) t.
Proof.
  unfold HINCRBY. repeat case_match; simpl; auto.
  rewrite lookup_insert_eq. intros [= <-]. right. eauto 6.
Qed.

Lemma runs_increment metric delta labels :
  (metric, labels) ∈ vocabulary → runs metricsGrow (increment metric delta labels).
Proof.
  intros Hv. unfold increment. case_match; [by apply runs_ret, _|].
  apply runs_bindErr; [typeclasses eauto| |intros; by apply runs_ret, _].
  intros w. eexists _, _. split; [reflexivity|]. split; [apply redisOnly_redis; auto with runs|].
  intros f. unfold metricsHash. cbn [w_redis set_redis fst].
  destruct (redis_do_db (HINCRBY OperationalMetricsKey (metricField metric labels) delta) (w_redis w))
    as [E|E]; rewrite E; [auto|].
  destruct (db_keys (HINCRBY _ _ _ _ _).1 !! _) as [e|] eqn:Ek; [|by rewrite lookup_empty; intros []].
  apply HINCRBY_fields in Ek as [->|(h & z & t & Hh & ->)]; [auto|].
  destruct (decide (f = metricField metric labels)) as [->|Hf].
  - intros _. right. exists metric, labels. split; [done|]. split; [done|]. by apply vocabulary_collected.
  - rewrite lookup_insert_ne by done. intros Hs. left. revert Hh. unfold asHash, find.
    destruct (db_keys _ !! _) as [[v t']|]; [|by intros [= <-]; rewrite lookup_empty in Hs; destruct Hs].
    destruct (live _ _); [|by intros [= <-]; rewrite lookup_empty in Hs; destruct Hs].
    by destruct v; intros [= ->].
Qed.

Lemma runs_runMetric op : runs metricsGrow (runMetric op).
Proof.
  assert (Hlab : ∀ i metric values labels delta, metricLabels !! i = Some (metric, values) →
    Forall2 (λ l vs, l ∈ vs) labels values → runs metricsGrow (increment metric delta labels)).
  { intros. apply runs_increment. eapply vocabulary_elem; [|done]. by eapply list_elem_of_lookup_2. }
  destruct op; cbn [runMetric]; unfold RecordFanoutTargets;
    [apply (Hlab 0%nat _ _ _ _ eq_refl)|apply (Hlab 1%nat _ _ _ _ eq_refl)|apply (Hlab 2%nat _ _ _ _ eq_refl)
    |case_match; [by apply runs_ret, _|apply (Hlab 3%nat _ _ _ _ eq_refl)]
    |apply (Hlab 4%nat _ _ _ _ eq_refl)|apply (Hlab 5%nat _ _ _ _ eq_refl)|apply (Hlab 6%nat _ _ _ _ eq_refl)];
    repeat (apply Forall2_cons_2; [first [apply boundedValue_elem | apply normalizeActivityType_elem]|]);
    apply Forall2_nil_2.
Qed.

(** whatever is recorded, with any label values and any failures of Redis, only the metrics
    hash is written, and every field it gains is one of the 664 of the closed vocabulary and is
    read by the collector as exactly the metric and labels that were written. *)
Theorem metrics_stay_bounded (ops : list metricOp) (w : W) :
  (∃ w', runMetrics ops w = (w', Done tt) ∧ metricsGrow w w') ∧ length vocabulary = 664%nat.
Proof.
  split; [|vm_compute; reflexivity].
  assert (Hr : runs metricsGrow (runMetrics ops)).
  { induction ops as [|op ops IH]; [by apply runs_ret, _|]. cbn [runMetrics].
    apply runs_bind; [typeclasses eauto|apply runs_runMetric|done]. }
  destruct (Hr w) as (w' & [] & E & HR). eauto.
Qed.
End bounded.

Definition metricsExample : World Sim :=
  quietWorld (mkSim 5 emptyDb [NoFault; LostAfter]) (zeroRelayState true).
Lemma metrics_stay_bounded_witness :
  (∃ w', runMetrics [MActivity "accepted" "Create" "x"; MDelivery "failure" "timeout"] metricsExample = (w', Done tt)
     ∧ metricsGrow metricsExample w') ∧ length vocabulary = 664%nat.
Proof. apply (metrics_stay_bounded [MActivity "accepted" "Create" "x"; MDelivery "failure" "timeout"]). Defined.
