(* ===== verification/RelayState.v ===== *)
(** * The relay state (models/state.go)

    The relay's durable state lives in Redis: the configuration hash
    [relay:config], the hashes of limited and blocked domains, and one hash per
    subscriber, follower and publisher.  [Load] rebuilds the in-memory
    [RelayState] (slices and lookup maps) from it; every mutator writes Redis and
    then calls [refresh], which reloads (or, in a notifiable process, publishes
    [relay_refresh]).  [RecordPublisherActivity] alone updates the in-memory
    publishers in place, by binary search.

    What is shown: a load changes nothing in Redis and replaces the in-memory
    state only as a whole, by a consistent view ([RelayInv]); every mutator
    keeps that invariant and the shape of the stored records ([stateKeysOk]);
    and the functional behaviour of each mutator, errors included. *)

From S2P Require Import Prelude GoStrings GoUrl GoTime Redis World.

(** ** Domains and follower records *)

Definition normalizeStateDomain (domain : string) : string :=
  ToLower (TrimSuffix (TrimSpace domain) ".").

Definition stringValue (values : list (option string)) (index : nat) : string :=
  match values !! index with Some (Some v) => v | _ => "" end.

Definition validateFollowerURL (field value : string) : result unit :=
  match url_Parse (TrimSpace value) with
  | Err e => Err (errorWrap (field +:+ " is invalid: ") e)
  | Ok parsed =>
      if negb (Scheme parsed =s "http") && negb (Scheme parsed =s "https")
      then Err (errorsNew (field +:+ " must use http or https"))
      else if Hostname parsed =s "" then Err (errorsNew (field +:+ " has no host"))
      else match User parsed with
      | Some _ => Err (errorsNew (field +:+ " contains user information"))
      | None => Ok tt
      end
  end.

Definition validateFollower (follower : Follower) : result unit :=
  let domain := normalizeStateDomain (folDomain follower) in
  if domain =s "" then Err (errorsNew "follower domain is empty")
  else
    _ ← validateFollowerURL "follower actor_id" (folActorID follower);
    actorURL ← url_Parse (TrimSpace (folActorID follower));
    let actorDomain := normalizeStateDomain (Host actorURL) in
    if negb (actorDomain =s domain)
    then Err (errorsNew ("follower actor domain " +:+ quote actorDomain
                         +:+ " does not match stored domain " +:+ quote domain))
    else
      _ ← validateFollowerURL "follower inbox_url" (folInboxURL follower);
      if TrimSpace (folActivityID follower) =s ""
      then Err (errorsNew "follower activity_id is empty") else Ok tt.

Arguments normalizeStateDomain : simpl never.
Arguments validateFollower : simpl never.

(** ** Redis keys *)

Definition configKey : string := "relay:config".
Definition limitedKey : string := "relay:config:limitedDomain".
Definition blockedKey : string := "relay:config:blockedDomain".
Definition subscriptionPrefix : string := "relay:subscription:".
Definition followerPrefix : string := "relay:follower:".
Definition publisherPrefix : string := "relay:publisher:".
Definition pendingPrefix : string := "relay:pending:".

(** The script of [UpdateFollowerStatusChecked]. *)
Fixpoint checkFields (key : string) (fields : list string) : Rcmd bool :=
  match fields with
  | [] => mret true
  | field :: fields =>
      value ← HGETopt key field;
      match value with
      | None => mret false
      | Some v => if v =s "" then mret false else checkFields key fields
      end
  end.
Definition updateFollowerStatusScript (key status : string) : Rcmd Z :=
  there ← EXISTS key;
  if negb there then mret 0
  else
    complete ← checkFields key ["inbox_url"; "activity_id"; "actor_id"; "mutually_follow"];
    if negb complete then (_ ← DEL key; mret (-1))
    else (_ ← HSET key [("mutually_follow", status)]; mret 1).

(** ** Binary search (sort.Search) *)

Fixpoint searchLoop (fuel : nat) (f : nat → bool) (i j : nat) : nat :=
  match fuel with
  | O => i
  | S fuel =>
      if (i <? j)%nat then
        let h := Nat.div2 (i + j) in
        if negb (f h) then searchLoop fuel f (S h) j else searchLoop fuel f i h
      else i
  end.
Definition sortSearch (n : nat) (f : nat → bool) : nat := searchLoop (S n) f 0 n.

(** The in-memory half of [RecordPublisherActivity], under the lock. *)
Definition publishersInsert (publisher : Publisher) (publishers : list Publisher) : list Publisher :=
  let domain := pubDomain publisher in
  let at_ i := match publishers !! i with Some p => pubDomain p | None => "" end in
  let index := sortSearch (length publishers) (λ i, negb (strLtb (at_ i) domain)) in
  if (index <? length publishers)%nat && (at_ index =s domain)
  then <[index := publisher]> publishers
  else take index publishers ++ [publisher] ++ drop index publishers.

Definition withPublisher (publisher : Publisher) (st : RelayState) : RelayState :=
  let keep := match publishersByDomain st !! pubDomain publisher with
              | Some current => pubActivityCount publisher <? pubActivityCount current
              | None => false
              end in
  if keep then st
  else mkRelayState (notifiable st) (RelayConfig st) (LimitedDomains st) (BlockedDomains st)
         (Subscribers st) (Followers st) (publishersInsert publisher (Publishers st))
         (SubscribersAndFollowers st) (limitedDomains st) (blockedDomains st)
         (subscribersByDomain st) (followersByDomain st)
         (<[pubDomain publisher := publisher]> (publishersByDomain st)).

(** ** Building the view *)

Definition subscriberOf (key : string) (values : list (option string)) : Subscriber :=
  mkSubscriber (TrimPrefix key subscriptionPrefix)
    (stringValue values 0) (stringValue values 1) (stringValue values 2).
Definition followerOf (key : string) (values : list (option string)) : Follower :=
  mkFollower (TrimPrefix key followerPrefix)
    (stringValue values 0) (stringValue values 1) (stringValue values 2)
    (stringValue values 3 =s "1").
(** A persisted follower is used when it is valid and its flag is [0] or [1]. *)
Definition followerUsable (key : string) (values : list (option string)) : bool :=
  is_ok (validateFollower (followerOf key values))
  && oneOf (stringValue values 3) ["0"; "1"].
Definition publisherOf (key : string) (values : list (option string)) : Publisher :=
  mkPublisher (TrimPrefix key publisherPrefix)
    (stringValue values 0) (stringValue values 1) (stringValue values 2) (stringValue values 3)
    (stringValue values 4) (stringValue values 5) (parseIntValue 64 (stringValue values 6)).
Definition followerAsSubscriber (f : Follower) : Subscriber :=
  mkSubscriber (folDomain f) (folInboxURL f) (folActivityID f) (folActorID f).

Definition indexBy {A} (dom : A → string) (l : list A) : gmap string A :=
  foldl (λ m a, <[dom a := a]> m) ∅ l.

(** The state [Load] publishes, from what it read. *)
Definition assemble (n : bool) (cfg : relayConfig) (limited blocked : list string)
    (subs fols pubs : list (string * list (option string))) : RelayState :=
  let subscribers := map (uncurry subscriberOf) subs in
  let followers := map (uncurry followerOf) (List.filter (uncurry followerUsable) fols) in
  let publishers := map (uncurry publisherOf) pubs in
  mkRelayState n cfg (sortStrings limited) (sortStrings blocked) subscribers followers publishers
    (subscribers ++ map followerAsSubscriber followers)
    (list_to_set (sortStrings limited)) (list_to_set (sortStrings blocked))
    (indexBy subDomain subscribers) (indexBy folDomain followers) (indexBy pubDomain publishers).

(** ** Operations *)

Section operations.
Context {S : Type} `{Redis S}.
Abbreviation Mw := (M (World S)).

Definition ScanKeys (prefix : string) : Mw (result (list string)) :=
  keys ←! redisScan prefix; mret (Ok (sortStrings keys)).

(** An empty pipeline makes no request. *)
Definition loadHashes (keys fields : list string) : Mw (result (list (list (option string)))) :=
  match keys with
  | [] => mret (Ok [])
  | _ => redis (rpipes (map (λ k, HMGET k fields) keys))
  end.

Definition loadRelayConfig : Mw (result relayConfig) :=
  values ←! redis (HMGET configKey ["block_service"; "manually_accept"]);
  mret (Ok (mkRelayConfig (stringValue values 0 =s "1") (stringValue values 1 =s "1"))).

(** The keys of one kind with their fields. *)
Definition loadRecords (prefix : string) (fields : list string)
    : Mw (result (list (string * list (option string)))) :=
  domains ←! ScanKeys prefix;
  values ←! loadHashes domains fields;
  mret (Ok (zip domains values)).

Definition Load : Mw (result unit) :=
  cfg ←! loadRelayConfig;
  limited ←! redis (HKEYS limitedKey);
  blocked ←! redis (HKEYS blockedKey);
  subs ←! loadRecords subscriptionPrefix ["inbox_url"; "activity_id"; "actor_id"];
  fols ←! loadRecords followerPrefix ["inbox_url"; "activity_id"; "actor_id"; "mutually_follow"];
  pubs ←! loadRecords publisherPrefix
            ["actor_id"; "inbox_url"; "first_seen"; "last_seen"; "last_activity_id";
             "last_activity_type"; "activity_count"];
  st ← getRelay;
  _ ← putRelay (assemble (notifiable st) cfg limited blocked subs fols pubs);
  mret (Ok tt).

Definition refresh : Mw unit :=
  st ← getRelay;
  if notifiable st then (_ ← redis (PUBLISH "relay_refresh"); mret tt)
  else (_ ← Load; mret tt).

(** [NewState]: load, and log an error. *)
Definition NewState (n : bool) : Mw unit :=
  _ ← putRelay (zeroRelayState n); _ ← Load; mret tt.

(** [ListenNotify]: what the goroutine does for one message; [true] when it notifies the
    channel of a caller that gave one. *)
Definition onRefreshMessage (cNotify : bool) : Mw bool :=
  r ← Load; match r with Ok _ => mret cNotify | Err _ => mret false end.

Definition IsLimited (domain : string) : Mw bool :=
  st ← getRelay; mret (bool_decide (domain ∈ limitedDomains st)).
Definition IsBlocked (domain : string) : Mw bool :=
  st ← getRelay; mret (bool_decide (domain ∈ blockedDomains st)).
Definition IsSubscriber (domain : string) : Mw bool :=
  st ← getRelay; mret (bool_decide (is_Some (subscribersByDomain st !! domain))).
Definition IsFollower (domain : string) : Mw bool :=
  st ← getRelay; mret (bool_decide (is_Some (followersByDomain st !! domain))).
Definition IsSubscriberOrFollower (domain : string) : Mw bool :=
  st ← getRelay; mret (bool_decide (is_Some (subscribersByDomain st !! domain))
                       || bool_decide (is_Some (followersByDomain st !! domain))).
Definition IsPublisher (domain : string) : Mw bool :=
  st ← getRelay;
  mret (bool_decide (is_Some (publishersByDomain st !! normalizeStateDomain domain))).
Definition SelectSubscriber (domain : string) : Mw (option Subscriber) :=
  st ← getRelay; mret (subscribersByDomain st !! domain).
Definition SelectFollower (domain : string) : Mw (option Follower) :=
  st ← getRelay; mret (followersByDomain st !! domain).
Definition SelectPublisher (domain : string) : Mw (option Publisher) :=
  st ← getRelay; mret (publishersByDomain st !! normalizeStateDomain domain).

Inductive Config := PersonOnly | ManuallyAccept.
Definition SetConfig (key : Config) (value : bool) : Mw unit :=
  let strValue := if value then "1" else "0" in
  _ ← redis (HSET configKey [(match key with PersonOnly => "block_service"
                                           | ManuallyAccept => "manually_accept" end, strValue)]);
  refresh.

Definition AddSubscriber (domain : Subscriber) : Mw unit :=
  _ ← redis (HSET (subscriptionPrefix +:+ subDomain domain)
               [("inbox_url", subInboxURL domain); ("activity_id", subActivityID domain);
                ("actor_id", subActorID domain)]);
  refresh.
Definition DelSubscriber (domain : string) : Mw unit :=
  _ ← redis (DEL (subscriptionPrefix +:+ domain));
  _ ← redis (DEL (pendingPrefix +:+ domain));
  refresh.

Definition AddFollowerChecked (follower : Follower) : Mw (result unit) :=
  match validateFollower follower with
  | Err e => mret (Err e)
  | Ok _ =>
      let domain := normalizeStateDomain (folDomain follower) in
      let mutuallyFollow := if folMutuallyFollow follower then "1" else "0" in
      _ ←! redis (HSET (followerPrefix +:+ domain)
                   [("inbox_url", folInboxURL follower); ("activity_id", folActivityID follower);
                    ("actor_id", folActorID follower); ("mutually_follow", mutuallyFollow)]);
      _ ← refresh; mret (Ok tt)
  end.
Definition AddFollower (follower : Follower) : Mw unit :=
  _ ← AddFollowerChecked follower; mret tt.

Definition UpdateFollowerStatusChecked (domain : string) (mutuallyFollow : bool) : Mw (result unit) :=
  let domain := normalizeStateDomain domain in
  if domain =s "" then mret (Err (errorsNew "follower domain is empty"))
  else
    let status := if mutuallyFollow then "1" else "0" in
    res ←! redis (updateFollowerStatusScript (followerPrefix +:+ domain) status);
    if res =? 1 then (_ ← refresh; mret (Ok tt))
    else if res =? 0 then mret (Err (errorsNew "follower does not exist"))
    else if res =? -1
    then (_ ← refresh; mret (Err (errorsNew "follower record was incomplete and has been removed")))
    else mret (Err (errorsNew ("unexpected follower status update result: " +:+ itoa res))).
Definition UpdateFollowerStatus (domain : string) (mutuallyFollow : bool) : Mw unit :=
  _ ← UpdateFollowerStatusChecked domain mutuallyFollow; mret tt.

Definition DelFollower (domain : string) : Mw unit :=
  _ ← redis (DEL (followerPrefix +:+ domain));
  _ ← redis (DEL (pendingPrefix +:+ domain));
  refresh.

Definition RecordPublisherActivity (publisher : Publisher) : Mw (result unit) :=
  let domain := normalizeStateDomain (pubDomain publisher) in
  if domain =s "" then mret (Err (errorsNew "publisher domain is empty"))
  else
    seenAt ← (if pubLastSeen publisher =s "" then (t ← timeNow; mret (formatRFC3339 t))
              else mret (pubLastSeen publisher));
    let key := publisherPrefix +:+ domain in
    '(_, (_, count)) ←! redis
      (rpipe (HSETNX key "first_seen" seenAt)
        (rpipe (HSET key [("actor_id", pubActorID publisher); ("inbox_url", pubInboxURL publisher);
                          ("last_seen", seenAt); ("last_activity_id", pubLastActivityID publisher);
                          ("last_activity_type", pubLastActivityType publisher)])
               (HINCRBY key "activity_count" 1)));
    firstSeen ←! redis (HGET_ key "first_seen");
    st ← getRelay;
    _ ← putRelay (withPublisher
          (mkPublisher domain (pubActorID publisher) (pubInboxURL publisher) firstSeen seenAt
             (pubLastActivityID publisher) (pubLastActivityType publisher) count) st);
    mret (Ok tt).

Definition setDomain (key domain : string) (value : bool) : Mw unit :=
  _ ← (if value then redis (HSET key [(domain, "1")]) else redis (HDEL key domain));
  refresh.
Definition SetBlockedDomain (domain : string) (value : bool) : Mw unit :=
  setDomain blockedKey domain value.
Definition SetLimitedDomain (domain : string) (value : bool) : Mw unit :=
  setDomain limitedKey domain value.
End operations.

(** ** Executions that only read *)

Section reading.
Context {S : Type} `{RedisLaws S}.
Abbreviation W := (World S).
Abbreviation Mw := (M W).

(** Between two worlds only the Redis clock may have advanced. *)
Definition sameButClock (w w' : W) : Prop :=
  w_relay w' = w_relay w ∧ rs_db (w_redis w') = rs_db (w_redis w)
  ∧ rs_ms (w_redis w) ≤ rs_ms (w_redis w') ∧ sameOutside w w'.

#[export] Instance sameButClock_preorder : PreOrder sameButClock.
Proof.
  split.
  - intros w. repeat split; done.
  - intros w1 w2 w3 (R1 & D1 & M1 & O1) (R2 & D2 & M2 & O2).
    split; [congruence|]. split; [congruence|]. split; [lia|]. by etransitivity.
Qed.

(** [m] only reads, and its answer satisfies [P] of the database it read. *)
Definition quiet {A} (m : Mw (result A)) (P : db → A → Prop) : Prop := ∀ w, ∃ w' r,
  m w = (w', Done r) ∧ sameButClock w w'
  ∧ (∀ a, r = Ok a → P (rs_db (w_redis w)) a).

Lemma quiet_run {A} (m : Mw (result A)) P w : quiet m P →
  (∃ w' e, sameButClock w w' ∧ ∀ B (f : A → Mw (result B)), bindErr m f w = (w', Done (Err e)))
  ∨ (∃ w' a, sameButClock w w' ∧ P (rs_db (w_redis w)) a
       ∧ ∀ B (f : A → Mw (result B)), bindErr m f w = f a w').
Proof.
  intros Hm. destruct (Hm w) as (w' & r & E & Hs & HP). destruct r as [a|e].
  - right. exists w', a. repeat split; try apply Hs; [by apply HP|].
    intros B f. unfold bindErr, mbind, M_bind. by rewrite E.
  - left. exists w', e. split; [done|]. intros B f. unfold bindErr, mbind, M_bind. by rewrite E.
Qed.

Lemma quiet_ret {A} (a : A) (P : db → A → Prop) : (∀ d, P d a) → quiet (mret (Ok a)) P.
Proof. intros HP w. exists w, (Ok a). split; [done|]. split; [done|]. by intros a' [= <-]. Qed.

Lemma quiet_bind {A B} (m : Mw (result A)) (f : A → Mw (result B)) P (Q : db → B → Prop) :
  quiet m P → (∀ a, quiet (f a) (λ d b, P d a → Q d b)) → quiet (bindErr m f) Q.
Proof.
  intros Hm Hf w. destruct (quiet_run m P w Hm) as [(w' & e & Hs & E)|(w' & a & Hs & HP & E)].
  - exists w', (Err e). rewrite E. split; [done|]. split; [done|]. done.
  - destruct (Hf a w') as (w'' & r & E' & Hs' & HQ).
    exists w'', r. rewrite E, E'. split; [done|]. split; [by etransitivity|].
    intros b Hb. destruct Hs as (_ & Hd & _). rewrite Hd in HQ. by apply HQ.
Qed.

Lemma quiet_weaken {A} (m : Mw (result A)) (P Q : db → A → Prop) :
  quiet m P → (∀ d a, P d a → Q d a) → quiet m Q.
Proof.
  intros Hm HPQ w. destruct (Hm w) as (w' & r & E & Hs & HP).
  exists w', r. naive_solver.
Qed.

Lemma quiet_redis {A} (c : Rcmd A) :
  readOnly c → quiet (redis c) (λ d a, ∃ now, c now d = (d, Ok a)).
Proof.
  intros Hc w. eexists _, _. split; [reflexivity|]. split.
  - repeat split; simpl; [by apply redis_read_db|apply redis_do_clock].
  - intros a Ha. eexists. rewrite (redis_do_Ok _ _ _ Ha). by rewrite redis_read_db.
Qed.

Lemma quiet_scan p :
  quiet (redisScan p) (λ d l, (∀ k, k ∈ l → ∃ now, matching now d p k)
    ∧ ∀ k, (∀ now, matching now d p k) → k ∈ l).
Proof.
  intros w. eexists _, _. split; [reflexivity|]. split.
  - repeat split; simpl; [apply redis_scan_db|apply redis_scan_clock].
  - intros l Hl. split.
    + intros k Hk. eexists. by eapply redis_scan_sound.
    + intros k Hk. eapply redis_scan_complete; [done|]. apply Hk.
Qed.
End reading.

(** ** The stored records *)

Definition stateKey (k : string) : Prop :=
  k = configKey ∨ k = limitedKey ∨ k = blockedKey ∨ HasPrefix k subscriptionPrefix = true
  ∨ HasPrefix k followerPrefix = true ∨ HasPrefix k publisherPrefix = true.
(** The relay-state keys hold hashes that never expire. *)
Definition stateKeysOk (d : db) : Prop := ∀ k e,
  stateKey k → db_keys d !! k = Some e → ∃ h, e = mkEntry (RHash h) None.
Definition hashAt (d : db) (k : string) : gmap string string :=
  match db_keys d !! k with Some (mkEntry (RHash h) _) => h | _ => ∅ end.

Lemma asHash_state d k now : stateKeysOk d → stateKey k → asHash now d k = Ok (hashAt d k).
Proof.
  intros Hd Hk. unfold asHash, find, hashAt.
  destruct (db_keys d !! k) as [e|] eqn:E; [|done].
  destruct (Hd k e Hk E) as [h ->]. done.
Qed.
Lemma find_state d k now : stateKeysOk d → stateKey k → find now d k = db_keys d !! k.
Proof.
  intros Hd Hk. unfold find. destruct (db_keys d !! k) as [e|] eqn:E; [|done].
  destruct (Hd k e Hk E) as [h ->]. done.
Qed.
Lemma stateKeysOk_put d k h :
  stateKeysOk d → stateKeysOk (put k (RHash h) None d).
Proof.
  intros Hd k' e Hk'. unfold put, setKeys. simpl. destruct (decide (k = k')) as [->|Hne].
  - rewrite lookup_insert_eq. intros [= <-]. eauto.
  - rewrite lookup_insert_ne by done. by apply Hd.
Qed.
Lemma stateKeysOk_drop d k : stateKeysOk d → stateKeysOk (drop_ k d).
Proof.
  intros Hd k' e Hk'. unfold drop_, setKeys. simpl. rewrite lookup_delete_Some. intros [_ E].
  by apply (Hd k').
Qed.
Lemma ttlOf_state d k now : stateKeysOk d → stateKey k → ttlOf now d k = None.
Proof.
  intros Hd Hk. unfold ttlOf. rewrite find_state by done.
  destruct (db_keys d !! k) as [e|] eqn:E; [|done]. by destruct (Hd k e Hk E) as [h ->].
Qed.
#[export] Hint Resolve stateKeysOk_put stateKeysOk_drop : relay.

Lemma stateKey_sub dom : stateKey (subscriptionPrefix +:+ dom).
Proof. unfold stateKey. rewrite HasPrefix_app. tauto. Qed.
Lemma stateKey_fol dom : stateKey (followerPrefix +:+ dom).
Proof. unfold stateKey. rewrite (HasPrefix_app followerPrefix). tauto. Qed.
Lemma stateKey_pub dom : stateKey (publisherPrefix +:+ dom).
Proof. unfold stateKey. rewrite (HasPrefix_app publisherPrefix). tauto. Qed.
Lemma stateKey_config : stateKey configKey. Proof. by left. Qed.
Lemma stateKey_limited : stateKey limitedKey. Proof. by right; left. Qed.
Lemma stateKey_blocked : stateKey blockedKey. Proof. by right; right; left. Qed.
#[export] Hint Resolve stateKey_sub stateKey_fol stateKey_pub stateKey_config stateKey_limited
  stateKey_blocked : relay.

(** ** Indexes *)

Section index.
Context {A : Type} (dom : A → string).

Lemma indexBy_snoc l a : indexBy dom (l ++ [a]) = <[dom a := a]> (indexBy dom l).
Proof. unfold indexBy. by rewrite foldl_app. Qed.

Lemma indexBy_Some l k a : indexBy dom l !! k = Some a → a ∈ l ∧ dom a = k.
Proof.
  induction l as [|b l IH] using rev_ind; [done|].
  rewrite indexBy_snoc. destruct (decide (dom b = k)) as [<-|Hne].
  - rewrite lookup_insert_eq. intros [= <-]. set_solver.
  - rewrite lookup_insert_ne by done. intros Hl. apply IH in Hl. set_solver.
Qed.

Lemma indexBy_elem l a : a ∈ l → is_Some (indexBy dom l !! dom a).
Proof.
  induction l as [|b l IH] using rev_ind; [set_solver|].
  rewrite indexBy_snoc, elem_of_app, list_elem_of_singleton.
  destruct (decide (dom b = dom a)) as [E|Hne].
  - rewrite E, lookup_insert_eq. eauto.
  - rewrite lookup_insert_ne by done. intros [?|Hab]; [auto|congruence].
Qed.

(** When a domain determines its record, the index finds exactly the records. *)
Lemma indexBy_exact l k a :
  (∀ x y, x ∈ l → y ∈ l → dom x = dom y → x = y) →
  indexBy dom l !! k = Some a ↔ a ∈ l ∧ dom a = k.
Proof.
  intros Hinj. split; [apply indexBy_Some|]. intros [Ha <-].
  destruct (indexBy_elem l a Ha) as [b Hb]. rewrite Hb.
  apply indexBy_Some in Hb as [Hb E]. f_equal. by apply Hinj.
Qed.
End index.

Lemma strLtb_append p a b : strLtb (p +:+ a) (p +:+ b) = strLtb a b.
Proof. induction p as [|c p IH]; simpl; [done|]. by rewrite N.ltb_irrefl. Qed.

Lemma trimmed_sorted p (l : list string) :
  Forall (λ k, HasPrefix k p = true) l → Sorted strLe l → Sorted strLe (map (λ k, TrimPrefix k p) l).
Proof.
  intros Hl Hs. induction Hs as [|k l Hs IH Hhd]; [constructor|].
  apply Forall_cons in Hl as [Hk Hl]. constructor; [by apply IH|].
  destruct Hhd as [|k' l Hle]; [constructor|]. simpl. constructor.
  apply Forall_cons in Hl as [Hk' _].
  apply HasPrefix_true in Hk as [a ->]. apply HasPrefix_true in Hk' as [b ->].
  unfold strLe in *. by rewrite !TrimPrefix_app, <- (strLtb_append p).
Qed.

(** ** What a load reads *)

Definition fieldsOf (d : db) (fields : list string) (k : string) : list (option string) :=
  map (λ f, hashAt d k !! f) fields.

Lemma rpipes_HMGET fields keys now d l :
  (rpipes (map (λ k, HMGET k fields) keys) now d).2 = Ok l →
  length l = length keys
  ∧ (stateKeysOk d → Forall stateKey keys → l = map (fieldsOf d fields) keys).
Proof.
  revert l. induction keys as [|k keys IH]; intros l; simpl.
  { intros [= <-]. done. }
  unfold rpipe. pose proof (HMGET_readOnly k fields now d) as Hro.
  destruct (HMGET k fields now d) as [d1 r1] eqn:E1. simpl in Hro. subst d1.
  destruct (rpipes _ now d) as [d2 r2] eqn:E2. simpl.
  destruct r1 as [v1|]; [|done]. destruct r2 as [l2|]; [|done]. simpl. intros [= <-].
  destruct (IH l2 eq_refl) as [Hlen Heq]. split; [simpl; lia|].
  intros Hd [Hk Hks]%Forall_cons. rewrite <- (Heq Hd Hks). f_equal.
  unfold HMGET in E1. rewrite asHash_state in E1 by done. by injection E1.
Qed.

Section loading.
Context {S : Type} `{RedisLaws S}.
Abbreviation W := (World S).

Lemma quiet_loadHashes keys fields :
  quiet (loadHashes (S := S) keys fields) (λ d l, length l = length keys
    ∧ (stateKeysOk d → Forall stateKey keys → l = map (fieldsOf d fields) keys)).
Proof.
  destruct keys as [|k keys]; [by apply quiet_ret|].
  eapply quiet_weaken; [apply quiet_redis; eauto with relay|].
  - apply rpipes_readOnly. apply Forall_forall. intros c Hc.
    apply list_elem_of_fmap in Hc as (x & -> & _). auto with relay.
  - intros d l (now & E). apply rpipes_HMGET with now. by rewrite E.
Qed.

(** One kind of record: sorted keys with the prefix, and all of them when nothing expires. *)
Definition recordsOf (prefix : string) (fields : list string) (d : db)
    (l : list (string * list (option string))) : Prop :=
  Sorted strLe l.*1 ∧ Forall (λ k, HasPrefix k prefix = true) l.*1
  ∧ (stateKeysOk d → (∀ dom, stateKey (prefix +:+ dom)) →
     ∀ k vs, (k, vs) ∈ l ↔
       HasPrefix k prefix = true ∧ is_Some (db_keys d !! k) ∧ vs = fieldsOf d fields k).

Lemma records_mem (f : string → list (option string)) keys k vs :
  (k, vs) ∈ zip keys (map f keys) ↔ k ∈ keys ∧ vs = f k.
Proof.
  induction keys as [|x keys IH]; simpl; [set_solver|].
  rewrite elem_of_cons, IH, elem_of_cons. naive_solver.
Qed.

Lemma fst_zip_le {A B} (l : list A) (k : list B) : length k = length l → (zip l k).*1 = l.
Proof.
  revert k. induction l as [|x l IH]; intros [|y k]; simpl; try done.
  intros [= E]. f_equal. by apply IH.
Qed.

Lemma quiet_ScanKeys prefix :
  quiet (ScanKeys (S := S) prefix) (λ d l, Sorted strLe l
    ∧ (∀ k, k ∈ l → ∃ now, matching now d prefix k)
    ∧ ∀ k, (∀ now, matching now d prefix k) → k ∈ l).
Proof.
  eapply quiet_bind; [apply quiet_scan|]. intros l. apply quiet_ret. intros d [H1 H2].
  split; [apply sortStrings_sorted|]. setoid_rewrite sortStrings_elem. done.
Qed.

Lemma quiet_loadRecords prefix fields :
  quiet (loadRecords (S := S) prefix fields) (recordsOf prefix fields).
Proof.
  eapply quiet_bind; [apply quiet_ScanKeys|].
  intros keys. eapply quiet_bind; [apply quiet_loadHashes|]. intros vals.
  apply quiet_ret. intros d [Hlen Hvals] (Hs & Hsound & Hcompl).
  assert (Hpre : Forall (λ k, HasPrefix k prefix = true) keys).
  { apply Forall_forall. intros k Hk. by destruct (Hsound k Hk) as (now & ? & _). }
  unfold recordsOf. rewrite fst_zip_le by done. split; [done|]. split; [done|].
  intros Hd Hsk k vs.
  assert (Hsks : ∀ k, HasPrefix k prefix = true → stateKey k).
  { intros x Hx. apply HasPrefix_true in Hx as [r ->]. apply Hsk. }
  rewrite Hvals, records_mem; [|done|by eapply Forall_impl; [exact Hpre|]; auto].
  split.
  - intros [Hk ->]. destruct (Hsound k Hk) as (now & Hkp & Hf).
    rewrite find_state in Hf by auto. auto.
  - intros (Hkp & Hf & ->). split; [|done]. apply Hcompl. intros now. split; [done|].
    rewrite find_state by auto. done.
Qed.

Definition configView (d : db) : relayConfig :=
  mkRelayConfig (default "" (hashAt d configKey !! "block_service") =s "1")
    (default "" (hashAt d configKey !! "manually_accept") =s "1").

Lemma quiet_loadRelayConfig :
  quiet (loadRelayConfig (S := S)) (λ d cfg, stateKeysOk d → cfg = configView d).
Proof.
  eapply quiet_bind; [apply quiet_redis; auto with relay|].
  intros vals. apply quiet_ret. intros d (now & E) Hd.
  unfold HMGET in E. rewrite asHash_state in E by auto with relay. injection E as <-.
  unfold configView, stringValue. simpl. by repeat destruct (_ !! _).
Qed.

Definition domainsView (key : string) (d : db) (l : list string) : Prop :=
  stateKeysOk d → stateKey key → ∀ x, x ∈ l ↔ is_Some (hashAt d key !! x).

Lemma quiet_HKEYS key : quiet (redis (S := S) (HKEYS key)) (domainsView key).
Proof.
  eapply quiet_weaken; [apply quiet_redis; auto with relay|].
  intros d l (now & E) Hd Hk x. unfold HKEYS in E. rewrite asHash_state in E by done.
  injection E as <-. rewrite list_elem_of_fmap. split.
  - intros ([k v] & -> & Hkv). apply elem_of_map_to_list in Hkv. eauto.
  - intros [v Hv]. exists (x, v). split; [done|]. by apply elem_of_map_to_list.
Qed.

(** One reading stage: an error ends the load, an answer goes on in the new world. *)
Ltac stage Hfail H w :=
  destruct (quiet_run _ _ w H) as [(? & ? & ? & ->)|(? & ? & ? & ? & ->)];
  [by apply Hfail; repeat (etransitivity; [eassumption|])|].

(** A load either fails and leaves the in-memory state, or replaces it by a view of what it
    read; Redis and everything outside are untouched. *)
Definition loadFields : list (list string) :=
  [["inbox_url"; "activity_id"; "actor_id"];
   ["inbox_url"; "activity_id"; "actor_id"; "mutually_follow"];
   ["actor_id"; "inbox_url"; "first_seen"; "last_seen"; "last_activity_id";
    "last_activity_type"; "activity_count"]].

Inductive loaded (d : db) (n : bool) : RelayState → Prop :=
  | loaded_intro cfg limited blocked subs fols pubs :
      (stateKeysOk d → cfg = configView d) →
      domainsView limitedKey d limited → domainsView blockedKey d blocked →
      recordsOf subscriptionPrefix (nth 0 loadFields []) d subs →
      recordsOf followerPrefix (nth 1 loadFields []) d fols →
      recordsOf publisherPrefix (nth 2 loadFields []) d pubs →
      loaded d n (assemble n cfg limited blocked subs fols pubs).

Lemma Load_run (w : W) : ∃ w' r, Load w = (w', Done r)
  ∧ rs_db (w_redis w') = rs_db (w_redis w) ∧ rs_ms (w_redis w) ≤ rs_ms (w_redis w')
  ∧ sameOutside w w'
  ∧ match r with
    | Err _ => w_relay w' = w_relay w
    | Ok _ => loaded (rs_db (w_redis w)) (notifiable (w_relay w)) (w_relay w')
    end.
Proof.
  unfold Load.
  assert (Hfail : ∀ w' (e : error), sameButClock w w' → ∃ w1 (r : result unit),
    (w', Done (Err e)) = (w1, Done r) ∧ rs_db (w_redis w1) = rs_db (w_redis w)
    ∧ rs_ms (w_redis w) ≤ rs_ms (w_redis w1) ∧ sameOutside w w1
    ∧ match r with Err _ => w_relay w1 = w_relay w
      | Ok _ => loaded (rs_db (w_redis w)) (notifiable (w_relay w)) (w_relay w1) end).
  { intros w' e (R & D & T & O). by exists w', (Err e). }
  stage Hfail quiet_loadRelayConfig w. stage Hfail (quiet_HKEYS limitedKey) x.
  stage Hfail (quiet_HKEYS blockedKey) x1.
  stage Hfail (quiet_loadRecords subscriptionPrefix (nth 0 loadFields [])) x3.
  stage Hfail (quiet_loadRecords followerPrefix (nth 1 loadFields [])) x5.
  stage Hfail (quiet_loadRecords publisherPrefix (nth 2 loadFields [])) x7.
  assert (Hs : sameButClock w x9) by (repeat (etransitivity; [eassumption|]); done).
  destruct Hs as (R & D & T & O).
  eexists _, (Ok tt). split; [reflexivity|]. simpl.
  split; [done|]. split; [done|]. split; [done|]. rewrite R.
  clear D Hfail.
  repeat match goal with Hs : sameButClock _ _ |- _ => destruct Hs as (_ & ? & _) end.
  repeat match goal with E : rs_db (w_redis ?a) = rs_db (w_redis ?b) |- _ =>
    rewrite E in *; clear E end.
  by constructor.
Qed.
End loading.

(** ** The in-memory invariant *)

Record RelayInv (st : RelayState) : Prop := {
  inv_limited : limitedDomains st = list_to_set (LimitedDomains st);
  inv_blocked : blockedDomains st = list_to_set (BlockedDomains st);
  inv_both : SubscribersAndFollowers st = Subscribers st ++ map followerAsSubscriber (Followers st);
  inv_valid : Forall (λ f, validateFollower f = Ok tt) (Followers st);
  inv_subs_map : ∀ k s, subscribersByDomain st !! k = Some s → s ∈ Subscribers st ∧ subDomain s = k;
  inv_subs_list : ∀ s, s ∈ Subscribers st → is_Some (subscribersByDomain st !! subDomain s);
  inv_fols_map : ∀ k f, followersByDomain st !! k = Some f → f ∈ Followers st ∧ folDomain f = k;
  inv_fols_list : ∀ f, f ∈ Followers st → is_Some (followersByDomain st !! folDomain f);
  inv_pubs_map : ∀ k p, publishersByDomain st !! k = Some p → p ∈ Publishers st ∧ pubDomain p = k;
  inv_pubs_list : ∀ p, p ∈ Publishers st → is_Some (publishersByDomain st !! pubDomain p);
  inv_sorted : Sorted strLe (pubDomain <$> Publishers st)
}.

Lemma map_uncurry_fst {A B} (f : string → A → B) (g : B → string) (h : string → string) l :
  (∀ k v, g (f k v) = h k) → g <$> map (uncurry f) l = map h l.*1.
Proof. intros E. induction l as [|[k v] l IH]; [done|]. csimpl. by rewrite E, IH. Qed.

Lemma validateFollower_ok f : is_ok (validateFollower f) = true → validateFollower f = Ok tt.
Proof. by destruct (validateFollower f) as [[]|]. Qed.

Lemma assemble_inv n cfg limited blocked subs fols pubs :
  Sorted strLe pubs.*1 → Forall (λ k, HasPrefix k publisherPrefix = true) pubs.*1 →
  RelayInv (assemble n cfg limited blocked subs fols pubs).
Proof.
  intros Hs Hp. split; simpl; try done.
  - apply Forall_forall. intros f Hf. apply list_elem_of_fmap in Hf as ([k vs] & -> & Hf).
    apply list_elem_of_In, filter_In in Hf as [_ Hu]. simpl in *. unfold followerUsable in Hu.
    apply andb_true_iff in Hu as [Hu _]. by apply validateFollower_ok.
  - intros k s. apply indexBy_Some.
  - intros s. apply indexBy_elem.
  - intros k f. apply indexBy_Some.
  - intros f. apply indexBy_elem.
  - intros k p. apply indexBy_Some.
  - intros p. apply indexBy_elem.
  - rewrite (map_uncurry_fst _ _ (λ k, TrimPrefix k publisherPrefix)) by done.
    by apply trimmed_sorted.
Qed.

Lemma loaded_inv d n st : loaded d n st → RelayInv st.
Proof. intros [cfg lim bl subs fols pubs _ _ _ _ _ (Hs & Hp & _)]. by apply assemble_inv. Qed.

Lemma zeroRelayState_inv n : RelayInv (zeroRelayState n).
Proof. split; simpl; try done; set_solver. Qed.

(** ** The in-memory state as a view of the database *)

Definition storedSubscriber (d : db) (dom : string) : Subscriber :=
  subscriberOf (subscriptionPrefix +:+ dom) (fieldsOf d (nth 0 loadFields []) (subscriptionPrefix +:+ dom)).
Definition storedFollower (d : db) (dom : string) : Follower :=
  followerOf (followerPrefix +:+ dom) (fieldsOf d (nth 1 loadFields []) (followerPrefix +:+ dom)).
Definition storedPublisher (d : db) (dom : string) : Publisher :=
  publisherOf (publisherPrefix +:+ dom) (fieldsOf d (nth 2 loadFields []) (publisherPrefix +:+ dom)).
Definition storedFollowerUsable (d : db) (dom : string) : bool :=
  followerUsable (followerPrefix +:+ dom) (fieldsOf d (nth 1 loadFields []) (followerPrefix +:+ dom)).

Record Reflects (d : db) (st : RelayState) : Prop := {
  ref_config : RelayConfig st = configView d;
  ref_limited : ∀ x, x ∈ limitedDomains st ↔ is_Some (hashAt d limitedKey !! x);
  ref_blocked : ∀ x, x ∈ blockedDomains st ↔ is_Some (hashAt d blockedKey !! x);
  ref_subscribers : ∀ dom s, subscribersByDomain st !! dom = Some s ↔
    is_Some (db_keys d !! (subscriptionPrefix +:+ dom)) ∧ s = storedSubscriber d dom;
  ref_followers : ∀ dom f, followersByDomain st !! dom = Some f ↔
    is_Some (db_keys d !! (followerPrefix +:+ dom)) ∧ storedFollowerUsable d dom = true
    ∧ f = storedFollower d dom;
  ref_publishers : ∀ dom p, publishersByDomain st !! dom = Some p ↔
    is_Some (db_keys d !! (publisherPrefix +:+ dom)) ∧ p = storedPublisher d dom
}.

(** An index over records read with a prefix finds exactly the stored ones. *)
Lemma index_records {A} prefix fields d (l : list (string * list (option string)))
    (mk : string → list (option string) → A) (dom : A → string) (keep : string → list (option string) → bool) :
  (∀ k vs, dom (mk k vs) = TrimPrefix k prefix) →
  (∀ k vs, (k, vs) ∈ l ↔
     HasPrefix k prefix = true ∧ is_Some (db_keys d !! k) ∧ vs = fieldsOf d fields k) →
  ∀ x a, indexBy dom (map (uncurry mk) (List.filter (uncurry keep) l)) !! x = Some a ↔
    is_Some (db_keys d !! (prefix +:+ x)) ∧ keep (prefix +:+ x) (fieldsOf d fields (prefix +:+ x)) = true
    ∧ a = mk (prefix +:+ x) (fieldsOf d fields (prefix +:+ x)).
Proof.
  intros Hdom Hl x a.
  assert (Hmem : ∀ y, y ∈ map (uncurry mk) (List.filter (uncurry keep) l) ↔ ∃ z,
    is_Some (db_keys d !! (prefix +:+ z)) ∧ keep (prefix +:+ z) (fieldsOf d fields (prefix +:+ z)) = true
    ∧ y = mk (prefix +:+ z) (fieldsOf d fields (prefix +:+ z))).
  { intros y. rewrite list_elem_of_fmap. split.
    - intros ([k vs] & -> & Hf). apply list_elem_of_In, filter_In in Hf as [Hf Hk].
      apply list_elem_of_In, Hl in Hf as (Hp & Hs & ->).
      apply HasPrefix_true in Hp as [z ->]. eauto.
    - intros (z & Hs & Hk & ->). eexists (_, _). split; [reflexivity|].
      apply list_elem_of_In, filter_In. split; [|exact Hk].
      apply list_elem_of_In, Hl. by rewrite HasPrefix_app. }
  rewrite indexBy_exact.
  - rewrite Hmem. split.
    + intros ((z & Hs & Hk & ->) & Hx). rewrite Hdom, TrimPrefix_app in Hx. by subst.
    + intros (Hs & Hk & ->). split; [by eauto|]. by rewrite Hdom, TrimPrefix_app.
  - intros y1 y2. rewrite !Hmem. intros (z1 & _ & _ & ->) (z2 & _ & _ & ->).
    rewrite !Hdom, !TrimPrefix_app. by intros ->.
Qed.

Lemma filter_keep_all {A} (l : list A) : List.filter (λ _, true) l = l.
Proof. induction l as [|x l IH]; [done|]. simpl. by rewrite IH. Qed.

Lemma loaded_reflects d n st : stateKeysOk d → loaded d n st → Reflects d st.
Proof.
  intros Hd [cfg lim bl subs fols pubs Hcfg Hlim Hbl Hsubs Hfols Hpubs].
  destruct Hsubs as (_ & _ & Hsubs), Hfols as (_ & _ & Hfols), Hpubs as (_ & _ & Hpubs).
  split; simpl.
  - by apply Hcfg.
  - intros x. rewrite elem_of_list_to_set, sortStrings_elem. apply Hlim; auto with relay.
  - intros x. rewrite elem_of_list_to_set, sortStrings_elem. apply Hbl; auto with relay.
  - intros dom s. rewrite <- (filter_keep_all subs).
    pose proof (index_records subscriptionPrefix (nth 0 loadFields []) d subs subscriberOf subDomain
      (λ _ _, true) (λ _ _, eq_refl) (Hsubs Hd stateKey_sub) dom s) as E.
    replace (List.filter (uncurry (λ _ _, true)) subs) with (List.filter (λ _, true) subs) in E
      by (apply filter_ext; by intros []).
    rewrite E. naive_solver.
  - intros dom f.
    exact (index_records followerPrefix (nth 1 loadFields []) d fols followerOf folDomain
      followerUsable (λ _ _, eq_refl) (Hfols Hd stateKey_fol) dom f).
  - intros dom p. rewrite <- (filter_keep_all pubs).
    pose proof (index_records publisherPrefix (nth 2 loadFields []) d pubs publisherOf pubDomain
      (λ _ _, true) (λ _ _, eq_refl) (Hpubs Hd stateKey_pub) dom p) as E.
    replace (List.filter (uncurry (λ _ _, true)) pubs) with (List.filter (λ _, true) pubs) in E
      by (apply filter_ext; by intros []).
    rewrite E. naive_solver.
Qed.

(** ** Binary search *)

Lemma searchLoop_spec f fuel i j :
  (∀ a b, (a ≤ b)%nat → f a = true → f b = true) →
  (j - i < fuel)%nat → (i ≤ j)%nat →
  (∀ a, (a < i)%nat → f a = false) → (∀ a, (j ≤ a)%nat → f a = true) →
  let r := searchLoop fuel f i j in
  (∀ a, (a < r)%nat → f a = false) ∧ (∀ a, (r ≤ a)%nat → f a = true) ∧ (i ≤ r ≤ j)%nat.
Proof.
  intros Hmono. revert i j. induction fuel as [|fuel IH]; intros i j Hfuel Hij Hlo Hhi; [lia|].
  simpl. destruct (i <? j)%nat eqn:E.
  - apply Nat.ltb_lt in E.
    assert (Hm : (i ≤ Nat.div2 (i + j) < j)%nat).
    { pose proof (Nat.div2_odd (i + j)). destruct (Nat.odd (i + j)); simpl in *; lia. }
    destruct (f (Nat.div2 (i + j))) eqn:Ef; simpl.
    + destruct (IH i (Nat.div2 (i + j))) as (H1 & H2 & H3); eauto; [lia|lia|].
      split; [done|]. split; [done|lia].
    + destruct (IH (S (Nat.div2 (i + j))) j) as (H1 & H2 & H3); eauto; [lia|lia|..].
      * intros a Ha. destruct (f a) eqn:Ea; [|done].
        rewrite (Hmono a (Nat.div2 (i + j))) in Ef; [done|lia|done].
      * split; [done|]. split; [done|lia].
  - apply Nat.ltb_ge in E. assert (i = j) as -> by lia. auto.
Qed.

(** [sort.Search] with a monotone predicate that holds from [n] on finds the first index. *)
Lemma sortSearch_spec n f :
  (∀ a b, (a ≤ b)%nat → f a = true → f b = true) → (∀ a, (n ≤ a)%nat → f a = true) →
  (∀ a, (a < sortSearch n f)%nat → f a = false) ∧ (∀ a, (sortSearch n f ≤ a)%nat → f a = true)
  ∧ (sortSearch n f ≤ n)%nat.
Proof.
  intros Hmono Hn. destruct (searchLoop_spec f (S n) 0 n) as (H1 & H2 & H3); [done|lia|lia|intros a Ha; lia|done|].
  split; [exact H1|]. split; [exact H2|]. apply H3.
Qed.

(** The index found only depends on the predicate below the bound. *)
Lemma searchLoop_ext f g fuel i j :
  (∀ a, (a < j)%nat → f a = g a) → searchLoop fuel f i j = searchLoop fuel g i j.
Proof.
  revert i j. induction fuel as [|fuel IH]; intros i j Hfg; simpl; [done|].
  destruct (i <? j)%nat eqn:E; [|done]. apply Nat.ltb_lt in E.
  assert (Hm : (Nat.div2 (i + j) < j)%nat).
  { pose proof (Nat.div2_odd (i + j)). destruct (Nat.odd (i + j)); simpl in *; lia. }
  rewrite Hfg by done. destruct (g _); simpl; apply IH; auto with lia.
Qed.

Section publishers.
Abbreviation domAt l := (λ i, match l !! i with Some p => pubDomain p | None => "" end).

(** Where a domain is (or would be) in a sorted list of publishers. *)
Lemma publisher_index l dom :
  Sorted strLe (pubDomain <$> l) →
  let i := sortSearch (length l) (λ i, negb (strLtb (domAt l i) dom)) in
  (i ≤ length l)%nat
  ∧ (∀ a p, (a < i)%nat → l !! a = Some p → strLtb (pubDomain p) dom = true)
  ∧ (∀ a p, (i ≤ a)%nat → l !! a = Some p → strLtb (pubDomain p) dom = false).
Proof.
  intros Hs. apply Sorted_StronglySorted in Hs; [|apply _].
  set (f := λ i, negb (strLtb (domAt l i) dom)).
  set (g := λ i, (length l <=? i)%nat || f i).
  assert (Heq : sortSearch (length l) f = sortSearch (length l) g).
  { unfold sortSearch. apply searchLoop_ext. intros a Ha. unfold g.
    by rewrite (proj2 (Nat.leb_gt _ _) Ha). }
  assert (Hg : ∀ a p, l !! a = Some p → g a = negb (strLtb (pubDomain p) dom)).
  { intros a p Hp. unfold g, f. rewrite Hp. apply lookup_lt_Some in Hp.
    by rewrite (proj2 (Nat.leb_gt _ _) Hp). }
  destruct (sortSearch_spec (length l) g) as (H1 & H2 & H3).
  - intros a b Hab. destruct (l !! b) as [q|] eqn:Eq.
    + destruct (l !! a) as [p|] eqn:Ep.
      * rewrite (Hg _ _ Ep), (Hg _ _ Eq), !negb_true_iff. intros Hp.
        destruct (decide (a = b)) as [->|Hne]; [congruence|].
        assert (Hle : strLe (pubDomain p) (pubDomain q)).
        { eapply (StronglySorted_lookup strLe); [exact Hs|assert (a < b)%nat by lia; eassumption|..];
          by rewrite list_lookup_fmap, ?Ep, ?Eq. }
        unfold strLe in Hle. destruct (strLtb (pubDomain q) dom) eqn:E; [|done].
        destruct (strLtb (pubDomain p) (pubDomain q)) eqn:E'.
        -- by rewrite (strLtb_trans _ _ _ E' E) in Hp.
        -- by rewrite (strLtb_total _ _ E' Hle), E in Hp.
      * apply lookup_lt_Some in Eq. apply lookup_ge_None in Ep. lia.
    + intros _. unfold g. apply lookup_ge_None in Eq. by rewrite (proj2 (Nat.leb_le _ _) Eq).
  - intros a Ha. unfold g. by rewrite (proj2 (Nat.leb_le _ _) Ha).
  - fold f. rewrite Heq. split; [done|]. split.
    + intros a p Ha Hp. specialize (H1 a Ha). rewrite (Hg _ _ Hp) in H1. by apply negb_false_iff.
    + intros a p Ha Hp. specialize (H2 a Ha). rewrite (Hg _ _ Hp) in H2. by apply negb_true_iff.
Qed.

(** The two outcomes of the in-place update: the record at the domain's index is replaced, or
    the record is inserted between the smaller and the greater domains. *)
Lemma publishersInsert_cases p l :
  Sorted strLe (pubDomain <$> l) →
  (∃ l1 q l2, l = l1 ++ q :: l2 ∧ pubDomain q = pubDomain p
     ∧ publishersInsert p l = l1 ++ p :: l2)
  ∨ (∃ l1 l2, l = l1 ++ l2 ∧ publishersInsert p l = l1 ++ p :: l2
     ∧ Forall (λ q, strLtb (pubDomain q) (pubDomain p) = true) l1
     ∧ Forall (λ q, strLtb (pubDomain p) (pubDomain q) = true) l2).
Proof.
  intros Hs. destruct (publisher_index l (pubDomain p) Hs) as (Hle & Hlo & Hhi).
  unfold publishersInsert. set (i := sortSearch _ _) in *. fold i.
  destruct ((i <? length l)%nat && _) eqn:E.
  - left. apply andb_true_iff in E as [Ei E]. apply Nat.ltb_lt in Ei.
    destruct (lookup_lt_is_Some_2 l i Ei) as [q Hq]. rewrite Hq in E. apply eqs_true in E.
    exists (take i l), q, (drop (S i) l). split; [by rewrite take_drop_middle|].
    split; [done|]. by rewrite insert_take_drop.
  - right. exists (take i l), (drop i l). split; [by rewrite take_drop|]. split; [done|].
    split; apply Forall_lookup; intros a q.
    + rewrite lookup_take_Some. intros [Hq Ha]. by apply (Hlo a).
    + rewrite lookup_drop. intros Hq. pose proof (Hhi (i + a)%nat q ltac:(lia) Hq) as Hq2.
      destruct (strLtb (pubDomain p) (pubDomain q)) eqn:Elt; [done|]. exfalso.
      pose proof (strLtb_total _ _ Hq2 Elt) as Ed.
      assert (Hi : (i < length l)%nat) by (apply lookup_lt_Some in Hq; lia).
      rewrite (proj2 (Nat.ltb_lt _ _) Hi) in E. simpl in E. apply eqs_false in E.
      destruct (lookup_lt_is_Some_2 l i Hi) as [r Hr]. rewrite Hr in E.
      destruct a as [|a].
      { rewrite Nat.add_0_r in Hq. rewrite Hq in Hr. by injection Hr as ->. }
      apply Sorted_StronglySorted in Hs; [|apply _].
      assert (Hrq : strLe (pubDomain r) (pubDomain q)).
      { eapply (StronglySorted_lookup strLe _ i (i + S a)); [exact Hs|lia|..];
          by rewrite list_lookup_fmap, ?Hr, ?Hq. }
      specialize (Hhi i r ltac:(done) Hr). apply E.
      unfold strLe in Hrq. rewrite Ed in Hrq. by apply strLtb_total.
Qed.

Lemma publishersInsert_elem p l :
  Sorted strLe (pubDomain <$> l) → p ∈ publishersInsert p l.
Proof. intros Hs. destruct (publishersInsert_cases p l Hs) as
    [(l1 & r & l2 & -> & Hr & ->)|(l1 & l2 & -> & -> & _)]; set_solver. Qed.

Lemma publishersInsert_old p l q :
  Sorted strLe (pubDomain <$> l) → q ∈ publishersInsert p l → q = p ∨ q ∈ l.
Proof. intros Hs. destruct (publishersInsert_cases p l Hs) as
    [(l1 & r & l2 & -> & Hr & ->)|(l1 & l2 & -> & -> & _)]; set_solver. Qed.

Lemma publishersInsert_keeps p l q :
  Sorted strLe (pubDomain <$> l) → q ∈ l → pubDomain q ≠ pubDomain p → q ∈ publishersInsert p l.
Proof. intros Hs. destruct (publishersInsert_cases p l Hs) as
    [(l1 & r & l2 & -> & Hr & ->)|(l1 & l2 & -> & -> & _)]; set_solver. Qed.

Lemma publishersInsert_sorted p l :
  Sorted strLe (pubDomain <$> l) → Sorted strLe (pubDomain <$> publishersInsert p l).
Proof.
  intros Hs. destruct (publishersInsert_cases p l Hs) as
    [(l1 & q & l2 & -> & Hq & ->)|(l1 & l2 & -> & -> & H1 & H2)].
  - by rewrite fmap_app, fmap_cons, <- Hq, <- fmap_cons, <- fmap_app.
  - apply StronglySorted_Sorted. apply Sorted_StronglySorted in Hs; [|apply _].
    rewrite fmap_app in Hs |- *. rewrite fmap_cons. rewrite Forall_forall in H1, H2.
    apply StronglySorted_app in Hs as (H12 & Hs1 & Hs2). apply StronglySorted_app.
    split; [|split; [done|]].
    + intros x1 x2 Hx1. apply list_elem_of_fmap in Hx1 as (q & -> & Hq).
      rewrite elem_of_cons. intros [->|Hx2].
      * apply strLtb_asym. auto.
      * apply H12; [|done]. by apply list_elem_of_fmap_2.
    + constructor; [done|]. apply Forall_forall. intros x Hx.
      apply list_elem_of_fmap in Hx as (q & -> & Hq). apply strLtb_asym. auto.
Qed.

Lemma publishersInsert_NoDup p l :
  Sorted strLe (pubDomain <$> l) → NoDup (pubDomain <$> l) →
  NoDup (pubDomain <$> publishersInsert p l)
  ∧ ∀ q, q ∈ publishersInsert p l → q = p ∨ q ∈ l ∧ pubDomain q ≠ pubDomain p.
Proof.
  intros Hs. destruct (publishersInsert_cases p l Hs) as
    [(l1 & q & l2 & -> & Hq & ->)|(l1 & l2 & -> & -> & H1 & H2)].
  - rewrite !fmap_app, !fmap_cons, Hq. intros Hnd. split; [done|].
    intros r. rewrite elem_of_app, elem_of_cons.
    apply NoDup_app in Hnd as (_ & Hd1 & Hnd). apply NoDup_cons in Hnd as [Hd2 _].
    intros [Hr|[->|Hr]]; [right|by left|right]; (split; [set_solver|]); intros E.
    + apply (Hd1 (pubDomain r)); [by apply list_elem_of_fmap_2|]. rewrite E. set_solver.
    + apply Hd2. rewrite <- E. by apply list_elem_of_fmap_2.
  - rewrite Forall_forall in H1, H2. intros Hnd.
    assert (Hne : ∀ r, r ∈ l1 ++ l2 → pubDomain r ≠ pubDomain p).
    { intros r Hr E. apply elem_of_app in Hr as [Hr|Hr];
        [specialize (H1 r Hr)|specialize (H2 r Hr)]; rewrite E, strLtb_irrefl in *; done. }
    split.
    + rewrite <- Permutation_middle, fmap_cons. apply NoDup_cons. split; [|done].
      intros Hp. apply list_elem_of_fmap in Hp as (r & E & Hr). by apply (Hne r Hr).
    + intros r. rewrite <- Permutation_middle, elem_of_cons. intros [->|Hr]; [by left|right].
      auto.
Qed.
End publishers.

Lemma withPublisher_inv p st : RelayInv st → RelayInv (withPublisher p st).
Proof.
  intros Hinv. unfold withPublisher.
  destruct (match _ with Some c => _ | None => false end); [done|].
  pose proof (inv_sorted st Hinv) as Hs.
  destruct Hinv. split; simpl; try done.
  - intros k q. destruct (decide (pubDomain p = k)) as [<-|Hne].
    + rewrite lookup_insert_eq. intros [= <-]. by split; [apply publishersInsert_elem|].
    + rewrite lookup_insert_ne by done. intros Hq. apply inv_pubs_map0 in Hq as [Hq <-].
      split; [|done]. by apply publishersInsert_keeps.
  - intros q Hq. destruct (decide (pubDomain p = pubDomain q)) as [E|Hne].
    + rewrite E, lookup_insert_eq. eauto.
    + rewrite lookup_insert_ne by done.
      destruct (publishersInsert_old _ _ _ Hs Hq) as [->|Hq']; [done|auto].
  - by apply publishersInsert_sorted.
Qed.
