(* ===== verification/RelayStateSpec.v ===== *)
(** * Theorems about the relay state

    The invariant of the in-memory state and of the stored records under every
    operation and every connection failure, and the functional behaviour of the
    mutators when Redis answers. *)

From S2P Require Import Prelude GoStrings GoUrl GoTime Redis World RelayState.

(** ** Preservation *)

Section preservation.
Context {S : Type} `{RedisLaws S}.
Abbreviation W := (World S).
Abbreviation Mw := (M W).

Definition Good (w : W) : Prop :=
  RelayInv (w_relay w) ∧ stateKeysOk (rs_db (w_redis w)).

(** [m] ends without a panic and keeps [Good], whatever Redis answers. *)
Definition keeps {A} (m : Mw A) : Prop := ∀ w, Good w → ∃ w' a, m w = (w', Done a) ∧ Good w'.

Lemma keeps_ret {A} (a : A) : keeps (mret a).
Proof. intros w Hw. by exists w, a. Qed.
Lemma keeps_bind {A B} (m : Mw A) (f : A → Mw B) : keeps m → (∀ a, keeps (f a)) → keeps (m ≫= f).
Proof.
  intros Hm Hf w Hw. destruct (Hm w Hw) as (w' & a & E & Hw').
  destruct (Hf a w' Hw') as (w'' & b & E' & Hw''). exists w'', b.
  unfold mbind, M_bind. by rewrite E.
Qed.
Lemma keeps_bindErr {A B} (m : Mw (result A)) (f : A → Mw (result B)) :
  keeps m → (∀ a, keeps (f a)) → keeps (bindErr m f).
Proof. intros Hm Hf. apply keeps_bind; [done|]. intros [a|e]; [apply Hf|apply keeps_ret]. Qed.
Lemma keeps_getRelay {A} (f : RelayState → Mw A) :
  (∀ st, RelayInv st → keeps (f st)) → keeps (getRelay ≫= f).
Proof. intros Hf w Hw. destruct (Hf (w_relay w) (proj1 Hw) w Hw) as (w' & a & E & Hw'). eauto. Qed.
Lemma keeps_putRelay st : RelayInv st → keeps (putRelay (S := S) st).
Proof. intros Hst w [_ Hd]. by eexists _, _. Qed.
Lemma keeps_timeNow : keeps (timeNow (S := S)).
Proof. intros w Hw. by eexists _, _. Qed.

(** A request that keeps the stored records well formed. *)
Definition cmdKeeps {A} (c : Rcmd A) : Prop := ∀ now d, stateKeysOk d → stateKeysOk (c now d).1.
Lemma keeps_redis {A} (c : Rcmd A) : cmdKeeps c → keeps (redis (S := S) c).
Proof.
  intros Hc w [Hi Hd]. eexists _, _. split; [reflexivity|]. split; [done|]. simpl.
  destruct (redis_do_db c (w_redis w)) as [->| ->]; auto.
Qed.

Lemma HSET_keeps k fs : stateKey k → cmdKeeps (HSET k fs).
Proof.
  intros Hk now d Hd. unfold HSET. rewrite asHash_state by done. simpl.
  rewrite ttlOf_state by done. by apply stateKeysOk_put.
Qed.
Lemma HSETNX_keeps k f v : stateKey k → cmdKeeps (HSETNX k f v).
Proof.
  intros Hk now d Hd. unfold HSETNX. rewrite asHash_state by done. simpl.
  rewrite ttlOf_state by done. destruct (_ !! f); [done|]. by apply stateKeysOk_put.
Qed.
Lemma HINCRBY_keeps k f z : stateKey k → cmdKeeps (HINCRBY k f z).
Proof.
  intros Hk now d Hd. unfold HINCRBY. rewrite asHash_state by done.
  rewrite ttlOf_state by done. destruct (parseInt _ _); [|done].
  destruct (inWidth _ _); [|done]. by apply stateKeysOk_put.
Qed.
Lemma HDEL_keeps k f : stateKey k → cmdKeeps (HDEL k f).
Proof.
  intros Hk now d Hd. unfold HDEL. rewrite asHash_state by done. rewrite ttlOf_state by done.
  destruct (_ !! f); [|done]. simpl. case_decide; auto with relay.
Qed.
Lemma DEL_keeps k : cmdKeeps (DEL k).
Proof. intros now d Hd. simpl. auto with relay. Qed.
Lemma PUBLISH_keeps c : cmdKeeps (PUBLISH c).
Proof. by intros now d Hd. Qed.
Lemma readOnly_keeps {A} (c : Rcmd A) : readOnly c → cmdKeeps c.
Proof. intros Hc now d Hd. by rewrite Hc. Qed.
Lemma rpipe_keeps {A B} (a : Rcmd A) (b : Rcmd B) : cmdKeeps a → cmdKeeps b → cmdKeeps (rpipe a b).
Proof.
  intros Ha Hb now d Hd. unfold rpipe. specialize (Ha now d Hd).
  destruct (a now d) as [d1 ra]. specialize (Hb now d1 Ha). by destruct (b now d1).
Qed.
Lemma Rbind_keeps {A B} (c : Rcmd A) (f : A → Rcmd B) :
  cmdKeeps c → (∀ a, cmdKeeps (f a)) → cmdKeeps (c ≫= f).
Proof.
  intros Hc Hf now d Hd. specialize (Hc now d Hd). unfold mbind, Rcmd_bind.
  destruct (c now d) as [d1 [a|e]]; [|done]. by apply Hf.
Qed.
Lemma Rret_keeps {A} (a : A) : cmdKeeps (mret a).
Proof. by intros now d Hd. Qed.
Lemma checkFields_readOnly k fs : readOnly (checkFields k fs).
Proof.
  induction fs as [|f fs IH]; intros now d; [done|]. simpl.
  unfold mbind, Rcmd_bind, HGETopt. destruct (asHash now d k); [|done].
  destruct (_ !! f) as [v|]; [|done]. destruct (v =s ""); [done|apply IH].
Qed.

Lemma updateFollowerStatusScript_keeps k st : stateKey k → cmdKeeps (updateFollowerStatusScript k st).
Proof.
  intros Hk. apply Rbind_keeps; [by apply readOnly_keeps|]. intros [|]; cbn [negb]; [|apply Rret_keeps].
  apply Rbind_keeps; [apply readOnly_keeps, checkFields_readOnly|]. intros [|]; simpl.
  - apply Rbind_keeps; [by apply HSET_keeps|]. intros. apply Rret_keeps.
  - apply Rbind_keeps; [apply DEL_keeps|]. intros. apply Rret_keeps.
Qed.
Hint Resolve keeps_ret keeps_bind keeps_bindErr keeps_putRelay keeps_timeNow keeps_redis
  HSET_keeps HSETNX_keeps HINCRBY_keeps HDEL_keeps DEL_keeps PUBLISH_keeps rpipe_keeps
  updateFollowerStatusScript_keeps readOnly_keeps : relay.

Lemma keeps_Load : keeps (Load (S := S)).
Proof.
  intros w [Hi Hd]. destruct (Load_run w) as (w' & r & E & Hdb & _ & _ & Hr).
  exists w', r. split; [done|]. split; [|by rewrite Hdb].
  destruct r; [by eapply loaded_inv|by rewrite Hr].
Qed.
Lemma keeps_refresh : keeps (refresh (S := S)).
Proof.
  apply keeps_getRelay. intros st _. destruct (notifiable st).
  - eauto with relay.
  - apply keeps_bind; [apply keeps_Load|auto with relay].
Qed.
Hint Resolve keeps_Load keeps_refresh : relay.

(** The operations of the relay state, as a client runs them. *)
Inductive relayOp :=
  | OpLoad | OpSetConfig (k : Config) (v : bool)
  | OpAddSubscriber (s : Subscriber) | OpDelSubscriber (d : string)
  | OpAddFollower (f : Follower) | OpUpdateFollowerStatus (d : string) (b : bool)
  | OpDelFollower (d : string) | OpRecordPublisher (p : Publisher)
  | OpSetBlocked (d : string) (b : bool) | OpSetLimited (d : string) (b : bool).
Definition runOp (op : relayOp) : Mw unit :=
  match op with
  | OpLoad => _ ← Load; mret tt
  | OpSetConfig k v => SetConfig k v
  | OpAddSubscriber s => AddSubscriber s
  | OpDelSubscriber d => DelSubscriber d
  | OpAddFollower f => AddFollower f
  | OpUpdateFollowerStatus d b => UpdateFollowerStatus d b
  | OpDelFollower d => DelFollower d
  | OpRecordPublisher p => _ ← RecordPublisherActivity p; mret tt
  | OpSetBlocked d b => SetBlockedDomain d b
  | OpSetLimited d b => SetLimitedDomain d b
  end.
Fixpoint runOps (ops : list relayOp) : Mw unit :=
  match ops with [] => mret tt | op :: ops => _ ← runOp op; runOps ops end.

Lemma keeps_AddFollowerChecked f : keeps (AddFollowerChecked (S := S) f).
Proof.
  unfold AddFollowerChecked. destruct (validateFollower f); [|auto with relay].
  apply keeps_bindErr; eauto 6 with relay.
Qed.
Lemma keeps_UpdateFollowerStatusChecked d b : keeps (UpdateFollowerStatusChecked (S := S) d b).
Proof.
  unfold UpdateFollowerStatusChecked. destruct (_ =s ""); [auto with relay|].
  apply keeps_bindErr; [auto with relay|]. intros z.
  repeat case_match; eauto with relay.
Qed.
Lemma keeps_RecordPublisherActivity p : keeps (RecordPublisherActivity (S := S) p).
Proof.
  unfold RecordPublisherActivity. destruct (_ =s ""); [auto with relay|].
  apply keeps_bind; [destruct (_ =s ""); eauto with relay|]. intros seen.
  apply keeps_bindErr; [eauto 9 with relay|]. intros [? [? count]].
  apply keeps_bindErr; [auto with relay|]. intros first.
  apply keeps_getRelay. intros st Hst. apply keeps_bind; [|auto with relay].
  apply keeps_putRelay. by apply withPublisher_inv.
Qed.
Lemma keeps_setDomain key d b : stateKey key → keeps (setDomain (S := S) key d b).
Proof. intros Hk. apply keeps_bind; [destruct b; auto with relay|auto with relay]. Qed.
Hint Resolve keeps_AddFollowerChecked keeps_UpdateFollowerStatusChecked
  keeps_RecordPublisherActivity keeps_setDomain : relay.

Lemma keeps_runOp op : keeps (runOp op).
Proof.
  destruct op; simpl; unfold SetConfig, AddSubscriber, DelSubscriber, AddFollower,
    UpdateFollowerStatus, DelFollower, SetBlockedDomain, SetLimitedDomain;
    eauto 8 with relay.
Qed.
End preservation.

(** ** When Redis answers *)

Section answering.
Context {S : Type} `{RedisReliable S}.
Abbreviation W := (World S).
Abbreviation Mw := (M W).

(** [m] answers (no error) on well-formed records. *)
Definition answers {A} (m : Mw (result A)) : Prop := ∀ w,
  stateKeysOk (rs_db (w_redis w)) → ∃ w' a, m w = (w', Done (Ok a)).

Lemma answers_bind {A B} (m : Mw (result A)) (f : A → Mw (result B)) P :
  quiet m P → answers m →
  (∀ a w, P (rs_db (w_redis w)) a → stateKeysOk (rs_db (w_redis w)) →
     ∃ w' b, f a w = (w', Done (Ok b))) →
  answers (bindErr m f).
Proof.
  intros Hq Ha Hf w Hd. destruct (Ha w Hd) as (w1 & a & E).
  destruct (Hq w) as (w2 & r & E2 & (_ & Hdb & _) & HP). rewrite E in E2. injection E2 as -> <-.
  destruct (Hf a w2) as (w3 & b & E3); [by rewrite Hdb; apply HP|by rewrite Hdb|].
  exists w3, b. unfold bindErr, mbind, M_bind. by rewrite E.
Qed.

Lemma redis_reliable {A} (c : Rcmd A) (w : W) :
  ∃ w' now, redis c w = (w', Done (c now (rs_db (w_redis w))).2)
    ∧ rs_db (w_redis w') = (c now (rs_db (w_redis w))).1
    ∧ w_relay w' = w_relay w ∧ sameOutside w w'.
Proof.
  eexists _, (rs_ms (redis_do c (w_redis w)).1). unfold redis. simpl.
  pose proof (redis_do_ok A c (w_redis w)) as E.
  rewrite <- E. by simpl.
Qed.

Lemma answers_redis {A} (c : Rcmd A) :
  (∀ now d, stateKeysOk d → is_ok (c now d).2 = true) → answers (redis (S := S) c).
Proof.
  intros Hc w Hd. destruct (redis_reliable c w) as (w' & now & E & _).
  specialize (Hc now _ Hd). exists w'. rewrite E.
  destruct (c now _) as [d [a|e]]; [by exists a|done].
Qed.

Lemma HMGET_ok k fs now d : stateKey k → stateKeysOk d → is_ok (HMGET k fs now d).2 = true.
Proof. intros Hk Hd. unfold HMGET. by rewrite asHash_state. Qed.
Lemma HKEYS_ok k now d : stateKey k → stateKeysOk d → is_ok (HKEYS k now d).2 = true.
Proof. intros Hk Hd. unfold HKEYS. simpl. by rewrite asHash_state. Qed.
Lemma rpipes_HMGET_ok keys fs now d : Forall stateKey keys → stateKeysOk d →
  is_ok (rpipes (map (λ k, HMGET k fs) keys) now d).2 = true.
Proof.
  intros Hks Hd. induction Hks as [|k keys Hk _ IH]; [done|]. simpl. unfold rpipe.
  pose proof (HMGET_readOnly k fs now d) as Hro. pose proof (HMGET_ok k fs now d Hk Hd) as Ho.
  destruct (HMGET k fs now d) as [d1 [v|]]; [|done]. simpl in Hro. subst d1.
  by destruct (rpipes _ now d) as [d2 [l|]].
Qed.

Lemma answers_loadRecords prefix fields :
  (∀ dom, stateKey (prefix +:+ dom)) → answers (loadRecords (S := S) prefix fields).
Proof.
  intros Hp. eapply answers_bind; [apply quiet_ScanKeys|..].
  - eapply answers_bind; [apply quiet_scan|..]; [|by eauto].
    intros w _. unfold redisScan. pose proof (redis_scan_ok prefix (w_redis w)) as E.
    destruct (redis_scan prefix (w_redis w)) as [s [l|]]; [|done]. by eexists _, _.
  - intros keys. intros w (_ & Hk & _) Hd. revert w Hd Hk.
    intros w Hd Hk. eapply answers_bind; [apply quiet_loadHashes| |by eauto|exact Hd].
    assert (Hks : Forall stateKey keys).
    { apply Forall_forall. intros k Hin. destruct (Hk k Hin) as (now & Hkp & _).
      apply HasPrefix_true in Hkp as [r ->]. apply Hp. }
    unfold loadHashes. destruct keys as [|k keys]; [by intros w' _; eexists _, _|].
    apply answers_redis. intros now d Hd'. by apply rpipes_HMGET_ok.
Qed.

Lemma answers_Load : answers (Load (S := S)).
Proof.
  eapply answers_bind; [apply quiet_loadRelayConfig|..].
  { eapply answers_bind; [apply quiet_redis; auto with relay|..]; [|by eauto].
    apply answers_redis. intros. apply HMGET_ok; auto with relay. }
  intros cfg w _ Hd. eapply answers_bind; [apply quiet_HKEYS|..|exact Hd].
  { apply answers_redis. intros. apply HKEYS_ok; auto with relay. }
  clear w Hd. intros lim w _ Hd. eapply answers_bind; [apply quiet_HKEYS|..|exact Hd].
  { apply answers_redis. intros. apply HKEYS_ok; auto with relay. }
  clear w Hd. intros bl w _ Hd. eapply answers_bind; [apply quiet_loadRecords|..|exact Hd].
  { apply answers_loadRecords; auto with relay. }
  clear w Hd. intros subs w _ Hd. eapply answers_bind; [apply quiet_loadRecords|..|exact Hd].
  { apply answers_loadRecords; auto with relay. }
  clear w Hd. intros fols w _ Hd. eapply answers_bind; [apply quiet_loadRecords|..|exact Hd].
  { apply answers_loadRecords; auto with relay. }
  clear w Hd. intros pubs w _ Hd. by eexists _, _.
Qed.

(** A reload shows the database. *)
Lemma refresh_reflects (w : W) :
  notifiable (w_relay w) = false → stateKeysOk (rs_db (w_redis w)) →
  ∃ w', refresh w = (w', Done tt) ∧ Reflects (rs_db (w_redis w)) (w_relay w')
    ∧ rs_db (w_redis w') = rs_db (w_redis w) ∧ sameOutside w w'.
Proof.
  intros Hn Hd. destruct (Load_run w) as (w1 & r & E & Hdb & _ & Ho & Hr).
  destruct (answers_Load w Hd) as (w2 & a & E2). rewrite E in E2. injection E2 as <- ->.
  exists w1. unfold refresh, mbind, M_bind, getRelay. rewrite Hn, E.
  split; [done|]. split; [by eapply loaded_reflects|]. done.
Qed.

(** One write followed by a refresh shows the written database. *)
Lemma write_then_refresh {A} (c : Rcmd A) d' (w : W) :
  notifiable (w_relay w) = false →
  (∀ now, (c now (rs_db (w_redis w))).1 = d') → stateKeysOk d' →
  ∃ w1 w', redis c w = (w1, Done (c (rs_ms (w_redis w1)) (rs_db (w_redis w))).2)
    ∧ refresh w1 = (w', Done tt)
    ∧ Reflects d' (w_relay w') ∧ rs_db (w_redis w') = d' ∧ sameOutside w w'.
Proof.
  intros Hn Hc Hd'. pose proof (redis_do_ok A c (w_redis w)) as E.
  assert (Hdb : rs_db (redis_do c (w_redis w)).1 = d') by (rewrite <- (Hc (rs_ms (redis_do c (w_redis w)).1)), <- E; done).
  set (w1 := set_redis (redis_do c (w_redis w)).1 w).
  destruct (refresh_reflects w1) as (w' & Er & Hr & Hdb' & Ho); [done|by simpl; rewrite Hdb|].
  simpl in Hr, Hdb'. rewrite Hdb in Hr, Hdb'.
  exists w1, w'. split; [|done]. unfold redis. simpl. by rewrite <- E.
Qed.
End answering.

Lemma hashAt_put_same d k h t : hashAt (put k (RHash h) t d) k = h.
Proof. unfold hashAt, put. simpl. by rewrite lookup_insert_eq. Qed.
Lemma hashAt_put_other d k k' h t : k ≠ k' → hashAt (put k (RHash h) t d) k' = hashAt d k'.
Proof. intros Hk. unfold hashAt, put. simpl. by rewrite lookup_insert_ne. Qed.

(** ** Claims *)

(** C8: a load never changes Redis, never panics and touches nothing outside the in-memory
    state; when it fails the in-memory state is the old one, and when it succeeds it is a
    whole new state in which the lookup maps agree with the slices, every follower is valid,
    and the combined list is the subscribers followed by the followers; over well-formed
    records it is exactly the stored subscribers, usable followers, publishers, domains and
    configuration. *)
Theorem Load_all_or_nothing {S} `{RedisLaws S} (w : World S) :
  ∃ w' r, Load w = (w', Done r)
    ∧ rs_db (w_redis w') = rs_db (w_redis w) ∧ sameOutside w w'
    ∧ match r with
      | Err _ => w_relay w' = w_relay w
      | Ok _ => RelayInv (w_relay w')
          ∧ (stateKeysOk (rs_db (w_redis w)) → Reflects (rs_db (w_redis w)) (w_relay w'))
      end.
Proof.
  destruct (Load_run w) as (w' & r & E & Hdb & _ & Ho & Hr).
  exists w', r. split; [done|]. split; [done|]. split; [done|].
  destruct r; [|done]. split; [by eapply loaded_inv|]. intros Hd. by eapply loaded_reflects.
Qed.

(** C2: any sequence of relay-state operations, whatever requests Redis fails, ends without a
    panic and keeps the in-memory invariant and the shape of the stored records. *)
Theorem relay_operations_keep_invariant {S} `{RedisLaws S} (ops : list relayOp) (w : World S)
    (Hinv : RelayInv (w_relay w)) (Hdb : stateKeysOk (rs_db (w_redis w))) :
  ∃ w', runOps ops w = (w', Done tt) ∧ RelayInv (w_relay w') ∧ stateKeysOk (rs_db (w_redis w')).
Proof.
  revert w Hinv Hdb. induction ops as [|op ops IH]; intros w Hinv Hdb; [by exists w|].
  destruct (keeps_runOp op w (conj Hinv Hdb)) as (w1 & [] & E & Hi1 & Hd1).
  destruct (IH w1 Hi1 Hd1) as (w2 & E2 & H2). exists w2.
  simpl. unfold mbind, M_bind. by rewrite E.
Qed.

Lemma validateFollower_normalized f b :
  let dom := normalizeStateDomain (folDomain f) in
  validateFollower f = Ok tt → normalizeStateDomain dom = dom →
  validateFollower (mkFollower dom (folInboxURL f) (folActivityID f) (folActorID f) b) = Ok tt.
Proof.
  intros dom Hv Hn. unfold validateFollower in *.
  cbn [folDomain folActorID folInboxURL folActivityID]. unfold dom in *. by rewrite Hn.
Qed.

Lemma HSET_state k fields now d : stateKey k → stateKeysOk d →
  HSET k fields now d
  = (put k (RHash (foldl (λ h '(f, v), <[f := v]> h) (hashAt d k) fields)) None d, Ok tt).
Proof. intros Hk Hd. unfold HSET. by rewrite asHash_state, ttlOf_state. Qed.

(** The record that [AddFollowerChecked] writes over [h]. *)
Definition followerHash (f : Follower) (h : gmap string string) : gmap string string :=
  <["mutually_follow" := if folMutuallyFollow f then "1" else "0"]>
    (<["actor_id" := folActorID f]> (<["activity_id" := folActivityID f]>
      (<["inbox_url" := folInboxURL f]> h))).

Lemma followerHash_fields f h d k :
  hashAt d k = followerHash f h →
  fieldsOf d (nth 1 loadFields []) k
  = [Some (folInboxURL f); Some (folActivityID f); Some (folActorID f);
     Some (if folMutuallyFollow f then "1" else "0")].
Proof.
  intros E. unfold fieldsOf, loadFields. cbn [nth map]. rewrite E. unfold followerHash.
  rewrite lookup_insert_eq, !(lookup_insert_ne _ "mutually_follow") by done.
  rewrite lookup_insert_eq, !(lookup_insert_ne _ "actor_id") by done.
  rewrite lookup_insert_eq, !(lookup_insert_ne _ "activity_id") by done.
  by rewrite lookup_insert_eq.
Qed.

(** a valid follower that is added is stored under its normalized domain and found there by
    the next lookup with its inbox, activity, actor and flag, provided its domain is in normal
    form once normalized. *)
Theorem addFollower_then_selected {S} `{RedisReliable S} (w : World S) (f : Follower)
    (Hn : notifiable (w_relay w) = false) (Hdb : stateKeysOk (rs_db (w_redis w)))
    (Hv : validateFollower f = Ok tt)
    (Hnf : normalizeStateDomain (normalizeStateDomain (folDomain f)) = normalizeStateDomain (folDomain f)) :
  let dom := normalizeStateDomain (folDomain f) in
  ∃ w', AddFollowerChecked f w = (w', Done (Ok tt))
    ∧ SelectFollower dom w' = (w', Done (Some
        (mkFollower dom (folInboxURL f) (folActivityID f) (folActorID f) (folMutuallyFollow f)))).
Proof.
  intros dom. unfold AddFollowerChecked. rewrite Hv.
  set (c := HSET _ _). set (d := rs_db (w_redis w)) in *.
  set (h := followerHash f (hashAt d (followerPrefix +:+ dom))).
  set (d' := put (followerPrefix +:+ dom) (RHash h) None d).
  assert (Hc : ∀ now, c now d = (d', Ok tt)) by (intros now; by apply HSET_state; auto with relay).
  destruct (write_then_refresh c d' w Hn) as (w1 & w' & E & E2 & Hr & _);
    [by intros now; fold d; rewrite Hc|by apply stateKeysOk_put|].
  fold d in E. rewrite Hc in E.
  assert (Hfields := followerHash_fields f (hashAt d (followerPrefix +:+ dom)) d'
    (followerPrefix +:+ dom) (hashAt_put_same _ _ _ _)).
  assert (Hst : storedFollower d' dom
    = mkFollower dom (folInboxURL f) (folActivityID f) (folActorID f) (folMutuallyFollow f)).
  { unfold storedFollower. rewrite Hfields. unfold followerOf. rewrite TrimPrefix_app.
    cbn. f_equal. by destruct (folMutuallyFollow f). }
  assert (Hsel : followersByDomain (w_relay w') !! dom = Some (storedFollower d' dom)).
  { apply (ref_followers _ _ Hr). split; [|split; [|done]].
    - unfold d', put, setKeys. cbn [db_keys]. rewrite lookup_insert_eq. eauto.
    - unfold storedFollowerUsable, followerUsable. fold (storedFollower d' dom). rewrite Hst.
      unfold dom. rewrite validateFollower_normalized by done. fold dom. rewrite Hfields.
      by destruct (folMutuallyFollow f). }
  exists w'. unfold bindErr, mbind, M_bind. rewrite E. cbn [snd]. rewrite E2. split; [done|].
  rewrite <- Hst, <- Hsel. done.
Qed.

(** A follower hash is complete when its four fields are there and not empty. *)
Definition fieldPresent (h : gmap string string) (f : string) : bool :=
  match h !! f with Some v => negb (v =s "") | None => false end.
Definition completeFollower (h : gmap string string) : bool :=
  forallb (fieldPresent h) ["inbox_url"; "activity_id"; "actor_id"; "mutually_follow"].

Lemma checkFields_state k fs now d : stateKey k → stateKeysOk d →
  checkFields k fs now d = (d, Ok (forallb (fieldPresent (hashAt d k)) fs)).
Proof.
  intros Hk Hd. induction fs as [|f fs IH]; [done|]. simpl.
  unfold mbind, Rcmd_bind, HGETopt, fieldPresent at 1. rewrite asHash_state by done.
  destruct (hashAt d k !! f) as [v|]; [|done]. by destruct (v =s "").
Qed.

Lemma updateScript_state k status now d : stateKey k → stateKeysOk d →
  updateFollowerStatusScript k status now d =
  match db_keys d !! k with
  | None => (d, Ok 0)
  | Some _ => if completeFollower (hashAt d k)
      then (put k (RHash (<["mutually_follow" := status]> (hashAt d k))) None d, Ok 1)
      else (drop_ k d, Ok (-1))
  end.
Proof.
  intros Hk Hd. unfold updateFollowerStatusScript, EXISTS, mbind, Rcmd_bind.
  rewrite find_state by done. destruct (db_keys d !! k) eqn:E; [|done].
  cbn [negb]. rewrite bool_decide_eq_true_2 by eauto. cbn [negb].
  rewrite checkFields_state by done. fold (completeFollower (hashAt d k)).
  destruct (completeFollower _); cbn [negb]; [|done]. by rewrite HSET_state.
Qed.

Lemma refresh_keys {S} `{RedisLaws S} (w : World S) :
  ∃ w', refresh w = (w', Done tt) ∧ db_keys (rs_db (w_redis w')) = db_keys (rs_db (w_redis w)).
Proof.
  unfold refresh, mbind, M_bind, getRelay. destruct (notifiable (w_relay w)).
  - eexists. split; [reflexivity|]. simpl.
    by destruct (redis_do_db (PUBLISH "relay_refresh") (w_redis w)) as [-> | ->].
  - destruct (Load_run w) as (w' & r & E & Hdb & _). rewrite E. exists w'. by rewrite Hdb.
Qed.

(** updating a follower's status never creates a record, on any failure of Redis: with no
    record the keys stay as they are and an error is returned; an incomplete record is at most
    removed, with an error; a complete one has at most its flag replaced, and [nil] is returned
    only when it was. *)
Theorem updateFollowerStatus_never_creates {S} `{RedisLaws S} (w : World S) (domain : string)
    (b : bool) (Hd : stateKeysOk (rs_db (w_redis w))) :
  let key := followerPrefix +:+ normalizeStateDomain domain in
  let h := hashAt (rs_db (w_redis w)) key in
  let ks := db_keys (rs_db (w_redis w)) in
  ∃ w' r, UpdateFollowerStatusChecked domain b w = (w', Done r)
    ∧ let ks' := db_keys (rs_db (w_redis w')) in
      let updated := <[key := mkEntry (RHash (<["mutually_follow" := if b then "1" else "0"]> h)) None]> ks in
      match ks !! key with
      | None => ks' = ks ∧ is_ok r = false
      | Some _ =>
          if completeFollower h then (ks' = ks ∧ is_ok r = false) ∨ ks' = updated
          else (ks' = ks ∨ ks' = delete key ks) ∧ is_ok r = false
      end ∧ (r = Ok tt → ks' = updated).
Proof.
  intros key h ks. unfold UpdateFollowerStatusChecked.
  destruct (normalizeStateDomain domain =s "") eqn:E0.
  { eexists _, _. split; [reflexivity|]. cbn. split; [|done]. repeat case_match; auto. }
  fold key. set (c := updateFollowerStatusScript key _).
  assert (Hc : ∀ now, c now (rs_db (w_redis w)) = match ks !! key with
    | None => (rs_db (w_redis w), Ok 0)
    | Some _ => if completeFollower h
        then (put key (RHash (<["mutually_follow" := if b then "1" else "0"]> h)) None (rs_db (w_redis w)), Ok 1)
        else (drop_ key (rs_db (w_redis w)), Ok (-1))
    end) by (intros now; apply updateScript_state; unfold key; auto with relay).
  unfold bindErr, mbind, M_bind, redis. cbv zeta.
  destruct (redis_do_law _ c (w_redis w)) as [Hok|(e & He & _ & Hdb)].
  - rewrite Hc in Hok. destruct (ks !! key) as [e|] eqn:Ek; [destruct (completeFollower h)|];
      injection Hok as Hdb ->; cbn -[insert delete refresh].
    + destruct (refresh_keys (set_redis (redis_do c (w_redis w)).1 w)) as (w' & -> & Hk).
      exists w', (Ok tt). split; [done|]. rewrite Hk. cbn [w_redis set_redis]. rewrite Hdb.
      split; [by right|done].
    + destruct (refresh_keys (set_redis (redis_do c (w_redis w)).1 w)) as (w' & -> & Hk).
      eexists w', _. split; [reflexivity|]. rewrite Hk. cbn [w_redis set_redis]. rewrite Hdb.
      split; [split; [by right|done]|done].
    + eexists _, _. split; [reflexivity|]. cbn [w_redis set_redis]. by rewrite Hdb.
  - rewrite He. eexists _, _. split; [reflexivity|]. cbn [w_redis set_redis]. split; [|done].
    rewrite Hc in Hdb. destruct (ks !! key); [destruct (completeFollower h)|];
      destruct Hdb as [Hdb|Hdb]; rewrite Hdb; auto.
Qed.

(** The publisher hash after one recorded activity. *)
Definition publisherHash (p : Publisher) (seenAt : string) (n : Z) (h : gmap string string)
    : gmap string string :=
  <["activity_count" := itoa (n + 1)]>
    (foldl (λ h '(f, v), <[f := v]> h)
      (match h !! "first_seen" with Some _ => h | None => <["first_seen" := seenAt]> h end)
      [("actor_id", pubActorID p); ("inbox_url", pubInboxURL p); ("last_seen", seenAt);
       ("last_activity_id", pubLastActivityID p); ("last_activity_type", pubLastActivityType p)]).

Lemma publisherHash_first p seenAt n h :
  publisherHash p seenAt n h !! "first_seen" = Some (default seenAt (h !! "first_seen")).
Proof.
  unfold publisherHash. cbn [foldl]. rewrite !lookup_insert_ne by done.
  destruct (h !! "first_seen") as [v|] eqn:E; [done|]. by rewrite lookup_insert_eq.
Qed.

(** The pipeline of [RecordPublisherActivity] on a well-formed record. *)
Lemma publisher_pipeline k p seenAt n now d :
  stateKey k → stateKeysOk d →
  parseInt 64 (default "0" (hashAt d k !! "activity_count")) = Some n → inWidth 64 (n + 1) = true →
  ∃ b, rpipe (HSETNX k "first_seen" seenAt)
    (rpipe (HSET k [("actor_id", pubActorID p); ("inbox_url", pubInboxURL p); ("last_seen", seenAt);
                    ("last_activity_id", pubLastActivityID p);
                    ("last_activity_type", pubLastActivityType p)])
           (HINCRBY k "activity_count" 1)) now d
  = (put k (RHash (publisherHash p seenAt n (hashAt d k))) None d, Ok (b, (tt, n + 1))).
Proof.
  intros Hk Hd Hn Hw. unfold rpipe, HSETNX. rewrite asHash_state, ttlOf_state by done.
  assert (Hputput : ∀ h h', put k (RHash h') None (put k (RHash h) None d) = put k (RHash h') None d).
  { intros h h'. unfold put, setKeys. cbn. f_equal. apply insert_insert_eq. }
  assert (Hstep : ∀ d1 h1, stateKeysOk d1 → hashAt d1 k = h1 →
    h1 !! "activity_count" = hashAt d k !! "activity_count" →
    (∀ h', put k (RHash h') None d1 = put k (RHash h') None d) →
    let '(d2, ra) := HSET k [("actor_id", pubActorID p); ("inbox_url", pubInboxURL p);
      ("last_seen", seenAt); ("last_activity_id", pubLastActivityID p);
      ("last_activity_type", pubLastActivityType p)] now d1 in
    let '(d3, rb) := HINCRBY k "activity_count" 1 now d2 in
    ra = Ok tt ∧ rb = Ok (n + 1) ∧ d3 = put k (RHash (<["activity_count" := itoa (n + 1)]>
      (foldl (λ h '(f, v), <[f := v]> h) h1
        [("actor_id", pubActorID p); ("inbox_url", pubInboxURL p); ("last_seen", seenAt);
         ("last_activity_id", pubLastActivityID p); ("last_activity_type", pubLastActivityType p)]))) None d).
  { intros d1 h1 Hd1 <- Hc Hp. rewrite HSET_state by done. unfold HINCRBY.
    rewrite asHash_state, ttlOf_state, hashAt_put_same by auto with relay.
    cbn [foldl]. rewrite !(lookup_insert_ne _ _ "activity_count") by done.
    rewrite Hc, Hn, Hw. split; [done|]. split; [done|]. unfold put at 1 2, setKeys.
    cbn [db_keys db_published]. rewrite insert_insert_eq. apply Hp. }
  unfold publisherHash. destruct (hashAt d k !! "first_seen") as [v|] eqn:Ef.
  - specialize (Hstep d _ Hd eq_refl eq_refl ltac:(done)).
    destruct (HSET _ _ now d) as [d2 ra]. destruct (HINCRBY _ _ _ now d2) as [d3 rb].
    destruct Hstep as (-> & -> & ->). by exists false.
  - specialize (Hstep (put k (RHash (<["first_seen" := seenAt]> (hashAt d k))) None d) _
      (stateKeysOk_put _ _ _ Hd) (hashAt_put_same _ _ _ _)).
    destruct (HSET _ _ now _) as [d2 ra]. destruct (HINCRBY _ _ _ now d2) as [d3 rb].
    destruct Hstep as (-> & -> & ->); [by rewrite lookup_insert_ne|done|]. by exists true.
Qed.

(** recording an accepted activity counts it once in the publisher's stored record, keeps
    the first time it was seen, and leaves the in-memory publishers sorted by domain, without a
    second entry for a domain, and showing at least the new count for this domain. *)
Theorem recordPublisher_counts {S} `{RedisReliable S} (w : World S) (p : Publisher) (n : Z)
    (Hinv : RelayInv (w_relay w)) (Hdb : stateKeysOk (rs_db (w_redis w)))
    (Hdom : normalizeStateDomain (pubDomain p) ≠ "") (Hseen : pubLastSeen p ≠ "")
    (Hnd : NoDup (pubDomain <$> Publishers (w_relay w)))
    (Hn : parseInt 64 (default "0" (hashAt (rs_db (w_redis w))
            (publisherPrefix +:+ normalizeStateDomain (pubDomain p)) !! "activity_count")) = Some n)
    (Hw : inWidth 64 (n + 1) = true) :
  let dom := normalizeStateDomain (pubDomain p) in
  let key := publisherPrefix +:+ dom in
  let h := hashAt (rs_db (w_redis w)) key in
  ∃ w', RecordPublisherActivity p w = (w', Done (Ok tt))
    ∧ hashAt (rs_db (w_redis w')) key = publisherHash p (pubLastSeen p) n h
    ∧ NoDup (pubDomain <$> Publishers (w_relay w'))
    ∧ Sorted strLe (pubDomain <$> Publishers (w_relay w'))
    ∧ ∃ q, publishersByDomain (w_relay w') !! dom = Some q ∧ q ∈ Publishers (w_relay w')
        ∧ n + 1 ≤ pubActivityCount q
        ∧ (publishersByDomain (w_relay w) !! dom = None →
             pubFirstSeen q = default (pubLastSeen p) (h !! "first_seen")).
Proof.
  intros dom key h. unfold RecordPublisherActivity. fold dom. fold dom in Hdom.
  rewrite (proj2 (eqs_false _ _) Hdom), (proj2 (eqs_false _ _) Hseen). fold key.
  set (c := rpipe (HSETNX key "first_seen" (pubLastSeen p))
    (rpipe (HSET key [("actor_id", pubActorID p); ("inbox_url", pubInboxURL p);
                      ("last_seen", pubLastSeen p); ("last_activity_id", pubLastActivityID p);
                      ("last_activity_type", pubLastActivityType p)])
           (HINCRBY key "activity_count" 1))).
  set (d := rs_db (w_redis w)) in *.
  set (d' := put key (RHash (publisherHash p (pubLastSeen p) n h)) None d).
  destruct (redis_reliable c w) as (w1 & now & E & Hd1 & Hr1 & _). fold d in E, Hd1.
  destruct (publisher_pipeline key p (pubLastSeen p) n now d) as (b & Hc);
    [unfold key; auto with relay|done|exact Hn|done|].
  fold c in Hc. unfold h in d'. rewrite Hc in E, Hd1. cbn [fst snd] in E, Hd1. fold d' in Hd1.
  assert (Hok' : stateKeysOk d') by (by apply stateKeysOk_put).
  destruct (redis_reliable (HGET_ key "first_seen") w1) as (w2 & now2 & E2 & Hd2 & Hr2 & _).
  assert (Hg : HGET_ key "first_seen" now2 d' = (d', Ok (default (pubLastSeen p) (h !! "first_seen")))).
  { unfold HGET_. rewrite asHash_state by (unfold key; auto with relay). unfold d'.
    by rewrite hashAt_put_same, publisherHash_first. }
  rewrite Hd1, Hg in E2, Hd2. cbn [fst snd] in E2, Hd2.
  set (q := mkPublisher dom (pubActorID p) (pubInboxURL p) (default (pubLastSeen p) (h !! "first_seen"))
    (pubLastSeen p) (pubLastActivityID p) (pubLastActivityType p) (n + 1)).
  exists (set_relay (withPublisher q (w_relay w)) w2).
  split. { unfold bindErr, mbind, M_bind, mret, M_ret, getRelay. fold c.
    rewrite E, E2, Hr2, Hr1. done. }
  cbn [w_redis set_relay w_relay]. rewrite Hd2. split; [by apply hashAt_put_same|].
  pose proof (withPublisher_inv q _ Hinv) as Hinv'. pose proof (inv_sorted _ Hinv) as Hs.
  assert (Hq : (NoDup (pubDomain <$> Publishers (withPublisher q (w_relay w)))) ∧
    ∃ q', publishersByDomain (withPublisher q (w_relay w)) !! dom = Some q'
        ∧ n + 1 ≤ pubActivityCount q'
        ∧ (publishersByDomain (w_relay w) !! dom = None → q' = q)).
  { unfold withPublisher. cbn [pubDomain q]. destruct (publishersByDomain (w_relay w) !! dom) as [cur|] eqn:Ec.
    - destruct (pubActivityCount q <? pubActivityCount cur) eqn:Elt.
      + split; [done|]. exists cur. apply Z.ltb_lt in Elt. cbn in Elt. split; [done|]. split; [lia|done].
      + split; [by apply publishersInsert_NoDup|]. exists q. cbn. rewrite lookup_insert_eq.
        split; [done|]. split; [lia|done].
    - split; [by apply publishersInsert_NoDup|]. exists q. cbn. rewrite lookup_insert_eq.
      split; [done|]. split; [lia|done]. }
  destruct Hq as [Hnd' (q' & Hq1 & Hq2 & Hq3)]. split; [done|]. split; [by apply Hinv'|].
  exists q'. split; [done|]. split; [by apply (inv_pubs_map _ Hinv') in Hq1 as [? _]|].
  split; [done|]. intros Hnone. by rewrite Hq3.
Qed.

Lemma hashAt_drop_other d k k' : k ≠ k' → hashAt (drop_ k d) k' = hashAt d k'.
Proof. intros Hk. unfold hashAt, drop_. simpl. by rewrite lookup_delete_ne. Qed.
Lemma hashAt_drop_same d k : hashAt (drop_ k d) k = ∅.
Proof. unfold hashAt, drop_. simpl. by rewrite lookup_delete_eq. Qed.

(** The database after adding or removing one field of a state hash. *)
Lemma setDomain_db key x (b : bool) now d :
  stateKey key → stateKeysOk d →
  let r := if b then HSET key [(x, "1")] now d else HDEL key x now d in
  r.2 = Ok tt ∧ stateKeysOk r.1
  ∧ (∀ y, is_Some (hashAt r.1 key !! y) ↔ if decide (y = x) then b = true else is_Some (hashAt d key !! y))
  ∧ r.1 = (if b then HSET key [(x, "1")] 0 d else HDEL key x 0 d).1.
Proof.
  intros Hk Hd. destruct b; cbv zeta.
  - rewrite !HSET_state by done. cbn [fst snd foldl]. split; [done|]. split; [auto with relay|].
    split; [|done]. intros y. rewrite hashAt_put_same. case_decide as Hy.
    + subst. rewrite lookup_insert_eq. split; eauto.
    + by rewrite lookup_insert_ne.
  - unfold HDEL. rewrite !asHash_state, !ttlOf_state by done.
    destruct (hashAt d key !! x) as [v|] eqn:Ex.
    + cbn [fst snd]. split; [done|]. split; [case_decide; auto with relay|]. split; [|done].
      intros y. assert (Hh : hashAt (if decide (delete x (hashAt d key) = ∅) then drop_ key d
        else put key (RHash (delete x (hashAt d key))) None d) key = delete x (hashAt d key)).
      { case_decide as He; [by rewrite hashAt_drop_same|by rewrite hashAt_put_same]. }
      rewrite Hh. clear Hh. destruct (decide (y = x)) as [Hy|Hy].
      * subst. rewrite lookup_delete_eq. split; [by intros []|done].
      * by rewrite lookup_delete_ne.
    + cbn [fst snd]. split; [done|]. split; [done|]. split; [|done]. intros y.
      case_decide as Hy; [|done]. subst. rewrite Ex. split; [by intros []|done].
Qed.

(** blocking a domain takes effect on the next lookup, unblocking it too, and every other
    domain is blocked exactly when it is stored as blocked. *)
Theorem setBlockedDomain_effective {S} `{RedisReliable S} (w : World S) (x : string) (b : bool)
    (Hn : notifiable (w_relay w) = false) (Hdb : stateKeysOk (rs_db (w_redis w))) :
  ∃ w', SetBlockedDomain x b w = (w', Done tt)
    ∧ IsBlocked x w' = (w', Done b)
    ∧ ∀ y, y ≠ x → IsBlocked y w' =
        (w', Done (bool_decide (is_Some (hashAt (rs_db (w_redis w)) blockedKey !! y)))).
Proof.
  set (d := rs_db (w_redis w)) in *.
  set (d' := (if b then HSET blockedKey [(x, "1")] 0 d else HDEL blockedKey x 0 d).1).
  assert (Hspec := λ now, setDomain_db blockedKey x b now d stateKey_blocked Hdb). cbv zeta in Hspec.
  assert (Hw : ∃ w1 w', (if b then redis (HSET blockedKey [(x, "1")]) else redis (HDEL blockedKey x)) w
      = (w1, Done (Ok tt)) ∧ refresh w1 = (w', Done tt) ∧ Reflects d' (w_relay w')).
  { destruct b.
    - destruct (write_then_refresh (HSET blockedKey [(x, "1")]) d' w Hn)
        as (w1 & w' & E & E2 & Hr & _); [intros now; apply Hspec| |].
      + unfold d'. apply (Hspec 0).
      + exists w1, w'. by rewrite E, (proj1 (Hspec _)).
    - destruct (write_then_refresh (HDEL blockedKey x) d' w Hn)
        as (w1 & w' & E & E2 & Hr & _); [intros now; apply Hspec| |].
      + unfold d'. apply (Hspec 0).
      + exists w1, w'. by rewrite E, (proj1 (Hspec _)). }
  destruct Hw as (w1 & w' & E & E2 & Hr). exists w'.
  split. { unfold SetBlockedDomain, setDomain, mbind, M_bind. rewrite E. done. }
  assert (Hb : ∀ y, IsBlocked y w' = (w', Done (bool_decide (is_Some (hashAt d' blockedKey !! y))))).
  { intros y. unfold IsBlocked, mbind, M_bind, getRelay, mret, M_ret.
    by rewrite (bool_decide_ext _ _ (ref_blocked _ _ Hr y)). }
  destruct (Hspec 0) as (_ & _ & Hy & _). fold d' in Hy. split.
  - specialize (Hy x). rewrite decide_True in Hy by done. rewrite Hb, (bool_decide_ext _ _ Hy).
    by destruct b.
  - intros y Hne. specialize (Hy y). rewrite decide_False in Hy by done.
    by rewrite Hb, (bool_decide_ext _ _ Hy).
Qed.

(** an instance that unsubscribes is gone: its subscription and its pending request are
    deleted, it is no longer found, and the other subscribers are the stored ones. *)
Theorem delSubscriber_removes {S} `{RedisReliable S} (w : World S) (x : string)
    (Hn : notifiable (w_relay w) = false) (Hdb : stateKeysOk (rs_db (w_redis w))) :
  ∃ w', DelSubscriber x w = (w', Done tt)
    ∧ db_keys (rs_db (w_redis w'))
      = delete (pendingPrefix +:+ x) (delete (subscriptionPrefix +:+ x) (db_keys (rs_db (w_redis w))))
    ∧ IsSubscriber x w' = (w', Done false)
    ∧ ∀ y, y ≠ x → SelectSubscriber y w' = (w', Done
        (if decide (is_Some (db_keys (rs_db (w_redis w)) !! (subscriptionPrefix +:+ y)))
         then Some (storedSubscriber (rs_db (w_redis w)) y) else None)).
Proof.
  set (d := rs_db (w_redis w)) in *.
  destruct (redis_reliable (DEL (subscriptionPrefix +:+ x)) w) as (w1 & now & E & Hd1 & Hr1 & _).
  cbn in Hd1. fold d in E, Hd1.
  set (d' := drop_ (pendingPrefix +:+ x) (drop_ (subscriptionPrefix +:+ x) d)).
  destruct (write_then_refresh (DEL (pendingPrefix +:+ x)) d' w1) as (w2 & w' & E2 & E3 & Hr & Hd' & _);
    [by rewrite Hr1|intros; cbn; by rewrite Hd1|unfold d'; auto with relay|].
  exists w'. split. { unfold DelSubscriber, mbind, M_bind. by rewrite E, E2, E3. }
  split; [by rewrite Hd'|].
  assert (Hlook : ∀ y s, subscribersByDomain (w_relay w') !! y = Some s ↔
    y ≠ x ∧ is_Some (db_keys d !! (subscriptionPrefix +:+ y)) ∧ s = storedSubscriber d y).
  { intros y s. rewrite (ref_subscribers _ _ Hr). unfold storedSubscriber, fieldsOf, hashAt, d', drop_, setKeys.
    cbn [db_keys]. rewrite (lookup_delete_ne _ (pendingPrefix +:+ x)) by done.
    destruct (decide (y = x)) as [->|Hne].
    - rewrite lookup_delete_eq. split; [intros [[] _]; done|naive_solver].
    - rewrite (lookup_delete_ne _ (subscriptionPrefix +:+ x)); [naive_solver|].
      intros Heq. apply append_inj in Heq. congruence. }
  split.
  - unfold IsSubscriber, mbind, M_bind, getRelay, mret, M_ret.
    rewrite bool_decide_eq_false_2; [done|]. intros [s Hs]. apply Hlook in Hs. naive_solver.
  - intros y Hne. unfold SelectSubscriber, mbind, M_bind, getRelay, mret, M_ret. do 2 f_equal.
    case_decide as Hy; [by apply Hlook|].
    destruct (subscribersByDomain (w_relay w') !! y) as [s|] eqn:Es; [|done].
    apply Hlook in Es. naive_solver.
Qed.

(** ** Witnesses *)

(** A sufficient test for well-formed records. *)
Definition allHashes (d : db) : bool :=
  forallb (λ ke, match ke.2 with mkEntry (RHash _) None => true | _ => false end)
    (map_to_list (db_keys d)).
Lemma allHashes_ok d : allHashes d = true → stateKeysOk d.
Proof.
  unfold allHashes. rewrite forallb_Forall, Forall_forall. intros Hall k e _ He.
  specialize (Hall (k, e)). cbn in Hall. destruct e as [[|h|] [t|]];
    try (by specialize (Hall ltac:(by apply elem_of_map_to_list))). by exists h.
Qed.

Definition demoFollower : Follower :=
  mkFollower "Example.org" "https://example.org/inbox" "https://example.org/a/1"
    "https://Example.org/actor" true.
Definition demoPublisher : Publisher :=
  mkPublisher "example.net" "https://example.net/u/1" "https://example.net/inbox" ""
    "2026-01-02T03:04:05Z" "https://example.net/a/9" "Create" 0.
Definition demoDb : db := mkDb {[
  blockedKey := mkEntry (RHash {[ "bad.example" := "1" ]}) None;
  "relay:follower:fol.example" := mkEntry (RHash {[ "inbox_url" := "https://fol.example/inbox";
     "activity_id" := "https://fol.example/f/1"; "actor_id" := "https://fol.example/actor";
     "mutually_follow" := "0" ]}) None;
  "relay:subscription:sub.example" := mkEntry (RHash {[ "inbox_url" := "https://sub.example/inbox";
     "activity_id" := "https://sub.example/f/1"; "actor_id" := "https://sub.example/actor" ]}) None;
  "relay:publisher:example.net" := mkEntry (RHash {[ "first_seen" := "2025-01-01T00:00:00Z";
     "activity_count" := "41" ]}) None ]} [].
Definition demoWorld : World Calm := quietWorld (mkCalm 1700000000000 demoDb) (zeroRelayState false).
(** The same process on a connection that loses the answer of its second request. *)
Definition faultyWorld : World Sim :=
  quietWorld (mkSim 1700000000000 demoDb [NoFault; LostAfter]) (zeroRelayState false).

Lemma Load_all_or_nothing_witness :
  ∃ w' r, Load faultyWorld = (w', Done r)
    ∧ rs_db (w_redis w') = demoDb ∧ is_ok r = false ∧ w_relay w' = zeroRelayState false.
Proof.
  destruct (Load_all_or_nothing faultyWorld) as (w' & r & E & Hdb & _ & Hr).
  exists w', r. split; [exact E|]. split; [exact Hdb|].
  assert (Hf : match Load faultyWorld with (_, Done r) => is_ok r | _ => true end = false)
    by (vm_compute; reflexivity).
  rewrite E in Hf. destruct r; [discriminate|]. split; [reflexivity|exact Hr].
Defined.

Lemma relay_operations_keep_invariant_witness :
  ∃ w', runOps [OpAddFollower demoFollower; OpRecordPublisher demoPublisher;
                OpSetBlocked "bad.example" false; OpDelFollower "example.org"] faultyWorld
        = (w', Done tt) ∧ RelayInv (w_relay w') ∧ stateKeysOk (rs_db (w_redis w')).
Proof.
  apply (relay_operations_keep_invariant _ faultyWorld); [apply zeroRelayState_inv|].
  apply allHashes_ok. vm_compute. reflexivity.
Defined.

Lemma addFollower_then_selected_witness :
  ∃ w', AddFollowerChecked demoFollower demoWorld = (w', Done (Ok tt))
    ∧ SelectFollower "example.org" w' = (w', Done (Some
        (mkFollower "example.org" "https://example.org/inbox" "https://example.org/a/1"
           "https://Example.org/actor" true))).
Proof.
  apply (addFollower_then_selected demoWorld demoFollower);
    [reflexivity|apply allHashes_ok|..]; vm_compute; reflexivity.
Defined.

Lemma updateFollowerStatus_never_creates_witness :
  ∃ w' r, UpdateFollowerStatusChecked "nobody.example" true demoWorld = (w', Done r)
    ∧ db_keys (rs_db (w_redis w')) = db_keys demoDb ∧ is_ok r = false.
Proof.
  destruct (updateFollowerStatus_never_creates demoWorld "nobody.example" true) as (w' & r & E & Hb & _).
  - apply allHashes_ok. vm_compute. reflexivity.
  - exists w', r. split; [exact E|].
    assert (Hnone : db_keys demoDb !! (followerPrefix +:+ normalizeStateDomain "nobody.example") = None)
      by (vm_compute; reflexivity).
    cbn [demoWorld quietWorld w_redis rs_db Calm_Redis calm_db] in Hb. rewrite Hnone in Hb. exact Hb.
Defined.

Lemma recordPublisher_counts_witness :
  ∃ w', RecordPublisherActivity demoPublisher demoWorld = (w', Done (Ok tt))
    ∧ hashAt (rs_db (w_redis w')) "relay:publisher:example.net" !! "activity_count" = Some "42".
Proof.
  destruct (recordPublisher_counts demoWorld demoPublisher 41) as (w' & E & Hh & _).
  - apply zeroRelayState_inv.
  - apply allHashes_ok. vm_compute. reflexivity.
  - vm_compute. discriminate.
  - discriminate.
  - constructor.
  - vm_compute. reflexivity.
  - vm_compute. reflexivity.
  - exists w'. split; [exact E|].
    change (hashAt (rs_db (w_redis w')) "relay:publisher:example.net" =
      publisherHash demoPublisher (pubLastSeen demoPublisher) 41
        (hashAt demoDb "relay:publisher:example.net")) in Hh.
    rewrite Hh. vm_compute. reflexivity.
Defined.

Lemma setBlockedDomain_effective_witness :
  ∃ w', SetBlockedDomain "worse.example" true demoWorld = (w', Done tt)
    ∧ IsBlocked "worse.example" w' = (w', Done true) ∧ IsBlocked "bad.example" w' = (w', Done true).
Proof.
  destruct (setBlockedDomain_effective demoWorld "worse.example" true) as (w' & E & Hx & Hy).
  - reflexivity.
  - apply allHashes_ok. vm_compute. reflexivity.
  - exists w'. split; [exact E|]. split; [exact Hx|]. rewrite Hy by discriminate.
    reflexivity.
Defined.

Lemma delSubscriber_removes_witness :
  ∃ w', DelSubscriber "sub.example" demoWorld = (w', Done tt)
    ∧ IsSubscriber "sub.example" w' = (w', Done false).
Proof.
  destruct (delSubscriber_removes demoWorld "sub.example") as (w' & E & _ & Hx & _).
  - reflexivity.
  - apply allHashes_ok. vm_compute. reflexivity.
  - exists w'. split; [exact E|exact Hx].
Defined.
