(* ===== verification/PublicAddressPolicy.v ===== *)
(** * The public-address distribution policy (models/public_address_policy.go)

    Which publicly addressed activities enter the fan-out: with Public in [to],
    or also with Public only in [cc].  The policy is a string type in the source,
    parsed from the operator's configuration. *)

From S2P Require Import Prelude GoStrings.

Definition activityStreamsPublicAddress : string := "https://www.w3.org/ns/activitystreams#Public".

Definition PublicAddressExplicitPublicOnly : string := "explicit_public_only".
Definition PublicAddressPublicAndUnlisted : string := "public_and_unlisted".

Definition ParsePublicAddressDistributionPolicy (value : string) : result string :=
  let v := ToLower (TrimSpace value) in
  if v =s "" then Ok PublicAddressPublicAndUnlisted
  else if v =s PublicAddressExplicitPublicOnly then Ok PublicAddressExplicitPublicOnly
  else if v =s PublicAddressPublicAndUnlisted then Ok PublicAddressPublicAndUnlisted
  else Err (errorsNew ("unsupported value " +:+ quote value +:+ "; supported values are "
              +:+ quote PublicAddressExplicitPublicOnly +:+ " and "
              +:+ quote PublicAddressPublicAndUnlisted)).

Definition DisplayName (policy : string) : string :=
  if policy =s PublicAddressExplicitPublicOnly then "Explicitly public posts only"
  else if policy =s PublicAddressPublicAndUnlisted then "Public and unlisted posts"
  else "Unknown".

Definition containsPublicAddress (addresses : list string) : bool :=
  existsb (λ address, address =s activityStreamsPublicAddress) addresses.

Definition Allows (policy : string) (to cc : list string) : bool :=
  if containsPublicAddress to then true
  else (policy =s PublicAddressPublicAndUnlisted) && containsPublicAddress cc.

Definition ExcludesPublicOnlyInCC (policy : string) (to cc : list string) : bool :=
  (policy =s PublicAddressExplicitPublicOnly) && negb (containsPublicAddress to)
  && containsPublicAddress cc.

Lemma containsPublicAddress_true l :
  containsPublicAddress l = true ↔ activityStreamsPublicAddress ∈ l.
Proof.
  unfold containsPublicAddress. rewrite existsb_exists. setoid_rewrite eqs_true.
  rewrite list_elem_of_In. naive_solver.
Qed.

(** A configured policy sorts every audience into exactly one of three: distributed (Public
    in [to], or in [cc] under [public_and_unlisted]), excluded because Public is only in [cc]
    (under [explicit_public_only]), or not publicly addressed at all. *)
Theorem policy_trichotomy (value policy : string) (to cc : list string)
    (Hp : ParsePublicAddressDistributionPolicy value = Ok policy) :
  let public := activityStreamsPublicAddress in
  (Allows policy to cc = true ↔
     public ∈ to ∨ policy = PublicAddressPublicAndUnlisted ∧ public ∈ cc)
  ∧ (ExcludesPublicOnlyInCC policy to cc = true ↔
       policy = PublicAddressExplicitPublicOnly ∧ (public ∉ to) ∧ public ∈ cc)
  ∧ (Allows policy to cc = false → ExcludesPublicOnlyInCC policy to cc = false →
       (public ∉ to) ∧ (public ∉ cc))
  ∧ ¬ (Allows policy to cc = true ∧ ExcludesPublicOnlyInCC policy to cc = true).
Proof.
  intros public.
  assert (Hpol : policy = PublicAddressExplicitPublicOnly ∨ policy = PublicAddressPublicAndUnlisted).
  { unfold ParsePublicAddressDistributionPolicy in Hp.
    repeat (step_case_in Hp; [injection Hp as <-; tauto|]). done. }
  pose proof (containsPublicAddress_true to) as Ht. pose proof (containsPublicAddress_true cc) as Hc.
  fold public in Ht, Hc. unfold Allows, ExcludesPublicOnlyInCC.
  destruct Hpol as [->| ->]; rewrite ?eqs_refl; cbn;
    destruct (containsPublicAddress to), (containsPublicAddress cc); cbn;
    repeat split; intros; destruct_and?; destruct_or?; try done; try tauto;
    try (intros Hin; apply Ht in Hin; done); try (intros Hin; apply Hc in Hin; done);
    try (by apply Ht); try (by apply Hc); try naive_solver.
Qed.

Lemma policy_trichotomy_witness :
  let p := PublicAddressExplicitPublicOnly in
  ParsePublicAddressDistributionPolicy " Explicit_Public_Only " = Ok p
  ∧ Allows p [] [activityStreamsPublicAddress] = false
  ∧ ExcludesPublicOnlyInCC p [] [activityStreamsPublicAddress] = true.
Proof.
  intros p. assert (Hp : ParsePublicAddressDistributionPolicy " Explicit_Public_Only " = Ok p)
    by (vm_compute; reflexivity).
  destruct (policy_trichotomy _ p [] [activityStreamsPublicAddress] Hp) as (_ & Hx & _ & Hno).
  assert (He : ExcludesPublicOnlyInCC p [] [activityStreamsPublicAddress] = true).
  { apply Hx. split; [reflexivity|]. split; [apply not_elem_of_nil|]. constructor. }
  split; [exact Hp|]. split; [|exact He].
  destruct (Allows p [] [activityStreamsPublicAddress]) eqn:E; [|reflexivity].
  destruct Hno. split; [reflexivity|exact He].
Defined.
