(* ===== verification/ReceiverHealth.v ===== *)
(** * Receiver delivery health (models/receiver_health.go)

    One Redis hash per receiver domain: times of the last success and failure,
    consecutive failures and totals.  A delivery result is recorded by one atomic
    script; loading validates the counters. *)

From S2P Require Import Prelude GoStrings GoUrl GoTime Redis World RelayState.

Definition receiverHealthKeyPrefix : string := "relay:receiver-health:".

Record ReceiverDeliveryHealth := mkHealth {
  hDomain : string; LastSuccessAt : string; LastFailureAt : string;
  ConsecutiveFailures : Z; TotalSuccesses : Z; TotalFailures : Z }.

Definition recordReceiverDeliveryScript (key at_ success : string) : Rcmd Z :=
  if success =s "1" then
    _ ← HSET key [("last_success_at", at_); ("consecutive_failures", "0")];
    _ ← HINCRBY key "total_successes" 1;
    mret 1
  else
    _ ← HSET key [("last_failure_at", at_)];
    _ ← HINCRBY key "consecutive_failures" 1;
    _ ← HINCRBY key "total_failures" 1;
    mret 1.

Definition ReceiverDomainFromInboxURL (address : string) : result string :=
  match url_Parse address with
  | Err e => Err (errorWrap "parse receiver inbox URL: " e)
  | Ok parsed =>
      if negb (Scheme parsed =s "http") && negb (Scheme parsed =s "https")
      then Err (errorsNew ("unsupported receiver inbox URL scheme " +:+ quote (Scheme parsed)))
      else
        let host := normalizeStateDomain (Hostname parsed) in
        if host =s "" then Err (errorsNew "receiver inbox URL has no host")
        else if negb (Port parsed =s "") then Ok (JoinHostPort host (Port parsed)) else Ok host
  end.

Definition receiverHealthCounter (values : list (option string)) (index : nat) : result Z :=
  let value := stringValue values index in
  if value =s "" then Ok 0
  else match parseInt 64 value with
  | None => Err (errorsNew ("strconv.ParseInt: parsing " +:+ quote value +:+ ": invalid syntax"))
  | Some counter =>
      if counter <? 0 then Err (errorsNew "counter is negative") else Ok counter
  end.

(** The record of one domain from its five fields. *)
Definition healthOf (domain : string) (values : list (option string)) : result ReceiverDeliveryHealth :=
  cf ← mapErr (errorWrap ("load receiver " +:+ domain +:+ " consecutive failures: "))
         (receiverHealthCounter values 2);
  ts ← mapErr (errorWrap ("load receiver " +:+ domain +:+ " total successes: "))
         (receiverHealthCounter values 3);
  tf ← mapErr (errorWrap ("load receiver " +:+ domain +:+ " total failures: "))
         (receiverHealthCounter values 4);
  Ok (mkHealth domain (stringValue values 0) (stringValue values 1) cf ts tf).

Fixpoint healthLoop (l : list (string * list (option string)))
    (acc : gmap string ReceiverDeliveryHealth) : result (gmap string ReceiverDeliveryHealth) :=
  match l with
  | [] => Ok acc
  | (domain, values) :: l =>
      r ← healthOf domain values; healthLoop l (<[domain := r]> acc)
  end.

(** Distinct non-empty normalized domains, sorted. *)
Definition uniqueDomains (domains : list string) : list string :=
  sortStrings (elements (list_to_set (C := gset string)
    (List.filter (λ d, negb (d =s "")) (map normalizeStateDomain domains)))).

Definition healthFields : list string :=
  ["last_success_at"; "last_failure_at"; "consecutive_failures"; "total_successes"; "total_failures"].

Section operations.
Context {S : Type} `{Redis S}.

Definition RecordReceiverDelivery (domain : string) (succeeded : bool) (occurredAt : Time)
    : M (World S) (result unit) :=
  let domain := normalizeStateDomain domain in
  if domain =s "" then mret (Err (errorsNew "receiver domain is empty"))
  else
    occurredAt ← (if IsZero occurredAt then timeNow else mret occurredAt);
    let successValue := if succeeded then "1" else "0" in
    _ ←! redis (recordReceiverDeliveryScript (receiverHealthKeyPrefix +:+ domain)
                  (formatRFC3339 occurredAt) successValue);
    mret (Ok tt).

Definition LoadReceiverDeliveryHealth (domains : list string)
    : M (World S) (result (gmap string ReceiverDeliveryHealth)) :=
  let normalized := uniqueDomains domains in
  match normalized with
  | [] => mret (Ok ∅)
  | _ =>
      values ←! loadHashes (map (String.app receiverHealthKeyPrefix) normalized) healthFields;
      mret (healthLoop (zip normalized values) ∅)
  end.
End operations.

(** ** The health record as a state machine *)

(** The counters a hash holds, when they are readable. *)
Definition counterOf (h : gmap string string) (f : string) : option Z :=
  parseInt 64 (default "0" (h !! f)).
Record healthCounts := mkCounts { cConsecutive : Z; cSuccesses : Z; cFailures : Z }.
Definition countsOf (h : gmap string string) : option healthCounts :=
  c ← counterOf h "consecutive_failures"; s ← counterOf h "total_successes";
  f ← counterOf h "total_failures"; Some (mkCounts c s f).

(** What one delivery result does to the counters. *)
Definition observe (ok : bool) (c : healthCounts) : healthCounts :=
  if ok then mkCounts 0 (cSuccesses c + 1) (cFailures c)
  else mkCounts (cConsecutive c + 1) (cSuccesses c) (cFailures c + 1).
Definition countsFit (c : healthCounts) : Prop :=
  0 ≤ cConsecutive c < 2 ^ 63 ∧ 0 ≤ cSuccesses c < 2 ^ 63 ∧ 0 ≤ cFailures c < 2 ^ 63.

Lemma inWidth64 z : 0 ≤ z < 2 ^ 63 → inWidth 64 z = true.
Proof. intros Hz. unfold inWidth. change (64 - 1) with 63. apply andb_true_iff. lia. Qed.

Lemma asHash_put key now h t d : live now (mkEntry (RHash h) t) = true →
  asHash now (put key (RHash h) t d) key = Ok h ∧ ttlOf now (put key (RHash h) t d) key = t.
Proof.
  intros Hl. unfold asHash, ttlOf. rewrite find_put_same, Hl. done.
Qed.

(** One more command of the script on the record just written. *)
Ltac runHash Hlive := unfold HSET, HINCRBY;
  rewrite ?(proj1 (asHash_put _ _ _ _ _ (Hlive _))), ?(proj2 (asHash_put _ _ _ _ _ (Hlive _)));
  cbn [foldl]; rewrite ?lookup_insert_eq; rewrite ?lookup_insert_ne by done.

Section script.
Context (key at_ : string) (now : Z).

Definition hashIn (d : db) (h : gmap string string) : Prop :=
  asHash now d key = Ok h ∧ live now (mkEntry (RHash h) (ttlOf now d key)) = true.

(** The script on a readable record: it answers 1 and moves the counters by [observe]. *)
Lemma recordScript_counts d h c ok :
  hashIn d h → countsOf h = Some c → countsFit (observe ok c) →
  ∃ d' h', recordReceiverDeliveryScript key at_ (if ok then "1" else "0") now d = (d', Ok 1)
    ∧ db_keys d' !! key = Some (mkEntry (RHash h') (ttlOf now d key))
    ∧ countsOf h' = Some (observe ok c)
    ∧ h' !! (if ok then "last_success_at" else "last_failure_at") = Some at_
    ∧ h' !! (if ok then "last_failure_at" else "last_success_at")
      = h !! (if ok then "last_failure_at" else "last_success_at").
Proof.
  intros [Hh Hl] Hc (F1 & F2 & F3).
  assert (Hlive : ∀ h', live now (mkEntry (RHash h') (ttlOf now d key)) = true) by (intros; exact Hl).
  unfold countsOf, counterOf in Hc. destruct (parseInt 64 (default "0" (h !! "consecutive_failures"))) as [cf|] eqn:E1; [|done].
  destruct (parseInt 64 (default "0" (h !! "total_successes"))) as [ts|] eqn:E2; [|done].
  destruct (parseInt 64 (default "0" (h !! "total_failures"))) as [tf|] eqn:E3; [|done].
  injection Hc as <-. unfold recordReceiverDeliveryScript, mbind, Rcmd_bind, mret, Rcmd_ret.
  destruct ok; cbn in F1, F2, F3; rewrite ?eqs_refl.
  - unfold HSET at 1. rewrite Hh. runHash Hlive. rewrite E2, inWidth64 by lia.
    eexists _, _. split; [reflexivity|]. split; [by apply lookup_insert_eq|].
    unfold countsOf, counterOf. rewrite ?lookup_insert_eq. rewrite ?lookup_insert_ne by done.
    rewrite ?lookup_insert_eq, E3. cbn [default from_option id].
    rewrite parseInt_itoa by (apply inWidth64; lia). split; [done|]. by simplify_map_eq.
  - replace ("0" =s "1") with false by done. unfold HSET at 1. rewrite Hh. runHash Hlive.
    rewrite E1, inWidth64 by lia. runHash Hlive. rewrite E3, inWidth64 by lia.
    eexists _, _. split; [reflexivity|]. split; [by apply lookup_insert_eq|].
    unfold countsOf, counterOf. rewrite ?lookup_insert_eq. rewrite ?lookup_insert_ne by done.
    rewrite ?lookup_insert_eq, ?E2. cbn [default from_option id].
    rewrite !parseInt_itoa by (apply inWidth64; lia). split; [done|]. by simplify_map_eq.
Qed.
End script.

(** ** A history of deliveries *)

Fixpoint trailingFailures (oks : list bool) : Z :=
  match oks with
  | [] => 0
  | false :: oks => if forallb negb oks then 1 + Z.of_nat (length oks) else trailingFailures oks
  | true :: oks => trailingFailures oks
  end.
Definition countBool (b : bool) (oks : list bool) : Z := Z.of_nat (count_occ bool_dec oks b).

Lemma trailingFailures_snoc oks b :
  trailingFailures (oks ++ [b]) = if b then 0 else trailingFailures oks + 1.
Proof.
  induction oks as [|a oks IH]; [by destruct b|]. cbn [app trailingFailures].
  rewrite forallb_app, IH. cbn [forallb]. destruct a, b; cbn [negb andb]; try done.
  - by rewrite andb_false_r.
  - rewrite andb_true_r, length_app. destruct (forallb negb oks); cbn [length]; lia.
Qed.

Definition zeroCounts : healthCounts := mkCounts 0 0 0.
Lemma observe_history oks :
  foldl (λ c b, observe b c) zeroCounts oks
  = mkCounts (trailingFailures oks) (countBool true oks) (countBool false oks).
Proof.
  induction oks as [|b oks IH] using rev_ind; [done|].
  rewrite foldl_app. cbn [foldl]. rewrite IH, trailingFailures_snoc.
  unfold countBool. rewrite !count_occ_app. destruct b; unfold observe;
    cbn -[Z.of_nat Z.add]; f_equal; lia.
Qed.
Lemma trailingFailures_bound oks : 0 ≤ trailingFailures oks ≤ Z.of_nat (length oks).
Proof.
  induction oks as [|b oks IH]; cbn [trailingFailures length]; [lia|].
  destruct b; [|destruct (forallb negb oks)]; lia.
Qed.
Lemma countBool_bound b oks : 0 ≤ countBool b oks ≤ Z.of_nat (length oks).
Proof. unfold countBool. pose proof (count_occ_bound bool_dec b oks). lia. Qed.

(** The record stored under [key] has these counters (an absent record: zeros). *)
Definition healthStored (d : db) (key : string) (c : healthCounts) : Prop :=
  match db_keys d !! key with
  | None => c = zeroCounts
  | Some e => ∃ h, e = mkEntry (RHash h) None ∧ countsOf h = Some c
  end.

Lemma healthStored_hash d key c now :
  healthStored d key c → ∃ h, asHash now d key = Ok h ∧ ttlOf now d key = None ∧ countsOf h = Some c.
Proof.
  unfold healthStored, asHash, ttlOf, find. destruct (db_keys d !! key) as [e|].
  - intros (h & -> & Hc). cbn. eauto.
  - intros ->. exists ∅. done.
Qed.

Section history.
Context {S : Type} `{RedisReliable S}.

Fixpoint recordAll (domain : string) (t : Time) (oks : list bool) : M (World S) unit :=
  match oks with
  | [] => mret tt
  | b :: oks => _ ← RecordReceiverDelivery domain b t; recordAll domain t oks
  end.

Lemma record_step (w : World S) domain ok t c :
  let key := receiverHealthKeyPrefix +:+ normalizeStateDomain domain in
  normalizeStateDomain domain ≠ "" → IsZero t = false →
  healthStored (rs_db (w_redis w)) key c → countsFit (observe ok c) →
  ∃ w', RecordReceiverDelivery domain ok t w = (w', Done (Ok tt))
    ∧ healthStored (rs_db (w_redis w')) key (observe ok c).
Proof.
  intros key Hdom Ht Hst Hfit. unfold RecordReceiverDelivery.
  rewrite (proj2 (eqs_false _ _) Hdom), Ht. fold key.
  unfold bindErr, mbind, M_bind, mret, M_ret.
  set (c0 := recordReceiverDeliveryScript _ _ _).
  pose proof (redis_do_ok _ c0 (w_redis w)) as Hdo.
  set (now := rs_ms (redis_do c0 (w_redis w)).1) in *.
  destruct (healthStored_hash _ _ _ now Hst) as (h & Hh & Httl & Hc).
  destruct (recordScript_counts key (formatRFC3339 t) now (rs_db (w_redis w)) h c ok)
    as (d' & h' & Es & Hd' & Hc' & _); [split; [done|by rewrite Httl]|done|done|].
  fold c0 in Es. rewrite Es in Hdo. injection Hdo as Hdb Hres.
  eexists. unfold redis. cbv zeta. rewrite Hres. split; [reflexivity|]. cbn [w_redis set_redis].
  rewrite Hdb. unfold healthStored. rewrite Hd', Httl. eauto.
Qed.

Lemma observe_fit_prefix oks ok c0 :
  c0 = foldl (λ c b, observe b c) zeroCounts oks →
  Z.of_nat (length oks) + 1 < 2 ^ 63 → countsFit (observe ok c0).
Proof.
  intros -> Hlen. rewrite observe_history.
  pose proof (trailingFailures_bound oks). pose proof (countBool_bound true oks).
  pose proof (countBool_bound false oks).
  destruct ok; unfold countsFit, observe; cbn [cConsecutive cSuccesses cFailures]; lia.
Qed.

Lemma recordAll_counts (w : World S) domain t past oks :
  let key := receiverHealthKeyPrefix +:+ normalizeStateDomain domain in
  normalizeStateDomain domain ≠ "" → IsZero t = false →
  healthStored (rs_db (w_redis w)) key (foldl (λ c b, observe b c) zeroCounts past) →
  Z.of_nat (length (past ++ oks)) < 2 ^ 63 →
  ∃ w', recordAll domain t oks w = (w', Done tt)
    ∧ healthStored (rs_db (w_redis w')) key (foldl (λ c b, observe b c) zeroCounts (past ++ oks)).
Proof.
  intros key Hdom Ht. revert w past. induction oks as [|b oks IH]; intros w past Hst Hlen.
  { exists w. by rewrite app_nil_r. }
  destruct (record_step w domain b t _ Hdom Ht Hst) as (w1 & E1 & Hst1).
  { eapply observe_fit_prefix; [done|]. rewrite length_app in Hlen. cbn in Hlen. lia. }
  destruct (IH w1 (past ++ [b])) as (w2 & E2 & Hst2).
  { by rewrite foldl_app. }
  { by rewrite <- app_assoc. }
  exists w2. split; [|by rewrite <- app_assoc in Hst2].
  cbn [recordAll]. unfold mbind, M_bind. by rewrite E1.
Qed.

End history.

