(* ===== verification/Negotiation.v ===== *)
(** * Destination-aware signature negotiation (internal/httpsignature)

    Which wire profile (legacy or RFC 9421) the relay signs a request with:
    - profile names and their parsing (profile.go,
      configured_signer.go);
    - destination origins, scopes, capability evidence and capabilities
      (destination_negotiation.go);
    - [DestinationNegotiator]: planning and observing, against the store
      interface [DestinationCapabilityStore], whose promises to the planner are
      the class [StoreLaws];
    - the Redis store (redis_destination_capability.go), which is an instance. *)

From S2P Require Import Prelude GoStrings GoUrl GoTime Sha256 Redis World.

(** ** Profiles *)

Definition ProfileLegacy : string := "legacy".
Definition ProfileDual : string := "dual".
Definition ProfileRFC9421 : string := "rfc9421".

Definition ErrDualProfileRequiresDeliveryPolicy : error :=
  errorSentinel "ErrDualProfileRequiresDeliveryPolicy"
    "dual HTTP signature profile requires destination-aware delivery policy".

Definition profileValidate (profile : string) : result unit :=
  if oneOf profile [ProfileLegacy; ProfileDual; ProfileRFC9421] then Ok tt
  else Err (errorsNew ("unsupported HTTP signature profile " +:+ quote profile)).

Definition ParseProfile (value : string) : result string :=
  let profile := ToLower (TrimSpace value) in
  if profile =s "" then Ok ProfileLegacy
  else _ ← profileValidate profile; Ok profile.

Definition ParseOutboundProfile (value : string) : result string :=
  if TrimSpace value =s "" then Ok ProfileDual else ParseProfile value.

Definition ParseWireProfile (value : string) : result string :=
  profile ← ParseProfile value;
  if profile =s ProfileDual then Err ErrDualProfileRequiresDeliveryPolicy else Ok profile.

(** ** Scopes, evidence, capabilities *)

Definition DefaultRFC9421CapabilityTTL : Duration := 14 * 24 * Hour.
Definition DefaultLegacyNegativeTTL : Duration := 24 * Hour.

Definition DestinationScopeFetch : string := "fetch".
Definition DestinationScopeDelivery : string := "delivery".
Definition scopeValidate (scope : string) : result unit :=
  if oneOf scope [DestinationScopeFetch; DestinationScopeDelivery] then Ok tt
  else Err (errorsNew ("unsupported HTTP signature destination scope " +:+ quote scope)).

Definition CapabilityEvidenceSuccessfulRFC9421 : string := "successful_rfc9421".
Definition CapabilityEvidenceAcceptSignature : string := "accept_signature".
Definition CapabilityEvidenceExplicitRFC9421Rejection : string := "explicit_rfc9421_rejection".
Definition CapabilityEvidenceSuccessfulLegacyFallback : string := "successful_legacy_fallback".

Definition evidenceValidate (evidence profile : string) : result unit :=
  if oneOf evidence [CapabilityEvidenceSuccessfulRFC9421; CapabilityEvidenceAcceptSignature] then
    if negb (profile =s ProfileRFC9421)
    then Err (errorsNew ("capability evidence " +:+ quote evidence +:+ " requires profile "
                         +:+ quote ProfileRFC9421))
    else Ok tt
  else if oneOf evidence [CapabilityEvidenceExplicitRFC9421Rejection;
                          CapabilityEvidenceSuccessfulLegacyFallback] then
    if negb (profile =s ProfileLegacy)
    then Err (errorsNew ("capability evidence " +:+ quote evidence +:+ " requires profile "
                         +:+ quote ProfileLegacy))
    else Ok tt
  else Err (errorsNew ("unsupported HTTP signature capability evidence " +:+ quote evidence)).

Record DestinationCapability := mkCapability {
  capOrigin : string; capScope : string; capProfile : string; capEvidence : string;
  ObservedAt : Time; ExpiresAt : Time }.
#[export] Instance DestinationCapability_eq_dec : EqDecision DestinationCapability.
Proof. solve_decision. Defined.

Definition NormalizeDestinationOrigin (address : string) : result string :=
  match url_Parse (TrimSpace address) with
  | Err e => Err (errorWrap "parse destination URL: " e)
  | Ok parsed =>
      let scheme := ToLower (Scheme parsed) in
      if negb (scheme =s "http") && negb (scheme =s "https")
      then Err (errorsNew ("unsupported destination URL scheme " +:+ quote (Scheme parsed)))
      else match User parsed with
      | Some _ => Err (errorsNew "destination URL contains user information")
      | None =>
          let host := ToLower (TrimSuffix (Hostname parsed) ".") in
          if host =s "" then Err (errorsNew "destination URL has no host")
          else
            let port0 := Port parsed in
            let port := if ((scheme =s "http") && (port0 =s "80"))
                           || ((scheme =s "https") && (port0 =s "443")) then "" else port0 in
            let authority := if Contains host ":" then "[" +:+ host +:+ "]" else host in
            let authority := if negb (port =s "") then JoinHostPort host port else authority in
            Ok (scheme +:+ "://" +:+ authority)
      end
  end.
Arguments NormalizeDestinationOrigin : simpl never.

Definition capabilityValidate (capability : DestinationCapability) : result unit :=
  normalizedOrigin ← NormalizeDestinationOrigin (capOrigin capability);
  if negb (normalizedOrigin =s capOrigin capability)
  then Err (errorsNew "destination capability origin is not normalized")
  else
    _ ← scopeValidate (capScope capability);
    if negb (oneOf (capProfile capability) [ProfileLegacy; ProfileRFC9421])
    then Err (errorsNew ("destination capability profile " +:+ quote (capProfile capability)
                         +:+ " is not a wire profile"))
    else
      _ ← evidenceValidate (capEvidence capability) (capProfile capability);
      if IsZero (ObservedAt capability)
      then Err (errorsNew "destination capability observation time is empty")
      else if negb (After (ExpiresAt capability) (ObservedAt capability))
      then Err (errorsNew "destination capability expiration must follow observation")
      else Ok tt.

(** ** Plans and outcomes *)

Definition NegotiationReasonConfiguredLegacy : string := "configured_legacy".
Definition NegotiationReasonConfiguredRFC9421 : string := "configured_rfc9421".
Definition NegotiationReasonCachedCapability : string := "cached_capability".
Definition NegotiationReasonUnknownFetchProbe : string := "unknown_fetch_probe".
Definition NegotiationReasonUnknownDeliveryLegacy : string := "unknown_delivery_legacy".

Inductive NegotiationOutcome :=
  | NegotiationOutcomeSuccess | NegotiationOutcomeExplicitSignatureRejection
  | NegotiationOutcomeAmbiguousClientRejection | NegotiationOutcomeTransportFailure
  | NegotiationOutcomeServerFailure | NegotiationOutcomeOtherFailure.
#[export] Instance NegotiationOutcome_eq_dec : EqDecision NegotiationOutcome.
Proof. solve_decision. Defined.

Record NegotiationPlan := mkPlan {
  planOrigin : string; planScope : string; Primary : string; Fallback : string; Reason : string }.

Definition HasFallback (plan : NegotiationPlan) : bool := negb (Fallback plan =s "").

Definition ShouldFallback (plan : NegotiationPlan) (outcome : NegotiationOutcome) : bool :=
  if negb (planScope plan =s DestinationScopeFetch) || negb (Primary plan =s ProfileRFC9421)
     || negb (Fallback plan =s ProfileLegacy) then false
  else bool_decide (outcome = NegotiationOutcomeExplicitSignatureRejection)
       || bool_decide (outcome = NegotiationOutcomeAmbiguousClientRejection).

(** ** The negotiator *)

Section negotiator.
Context {S : Type} `{Redis S}.
Abbreviation Mw := (M (World S)).

Record DestinationCapabilityStore := mkStore {
  LoadDestinationCapability : string → string → Mw (result (option DestinationCapability));
  SaveDestinationCapability : DestinationCapability → Mw (result bool) }.

Record DestinationNegotiatorOptions := mkNegOptions {
  optStore : option DestinationCapabilityStore; optPositiveTTL : Duration;
  optNegativeTTL : Duration; optNow : option (Mw Time) }.
Record DestinationNegotiator := mkNegotiator {
  ngStore : option DestinationCapabilityStore; positiveTTL : Duration; negativeTTL : Duration;
  ngNow : Mw Time }.

Definition NewDestinationNegotiator (options : DestinationNegotiatorOptions)
    : result DestinationNegotiator :=
  let positiveTTL := if optPositiveTTL options =? 0 then DefaultRFC9421CapabilityTTL
                     else optPositiveTTL options in
  if positiveTTL <? Hour
  then Err (errorsNew "RFC 9421 positive capability TTL must be at least one hour")
  else
    let negativeTTL := if optNegativeTTL options =? 0 then DefaultLegacyNegativeTTL
                       else optNegativeTTL options in
    if negativeTTL <? Minute
    then Err (errorsNew "legacy negative capability TTL must be at least one minute")
    else if positiveTTL <? negativeTTL
    then Err (errorsNew "legacy negative capability TTL cannot exceed positive TTL")
    else Ok (mkNegotiator (optStore options) positiveTTL negativeTTL
               (default timeNow (optNow options))).

(** [capability.Fresh(now)]. *)
Definition Fresh (capability : DestinationCapability) (now : Time) : Mw bool :=
  now ← (if IsZero now then timeNow else mret now);
  mret (After (ExpiresAt capability) now).

Definition Plan (negotiator : option DestinationNegotiator) (configured scope destination : string)
    : Mw (result NegotiationPlan) :=
  match negotiator with
  | None => mret (Err (errorsNew "destination negotiator is nil"))
  | Some ng =>
      _ ←! mret (scopeValidate scope);
      origin ←! mret (NormalizeDestinationOrigin destination);
      if configured =s ProfileLegacy
      then mret (Ok (mkPlan origin scope ProfileLegacy "" NegotiationReasonConfiguredLegacy))
      else if configured =s ProfileRFC9421
      then mret (Ok (mkPlan origin scope ProfileRFC9421 "" NegotiationReasonConfiguredRFC9421))
      else if negb (configured =s ProfileDual)
      then mret (Err (errorsNew ("unsupported configured HTTP signature profile " +:+ quote configured)))
      else match ngStore ng with
      | None => mret (Err (errorsNew "dual HTTP signature negotiation requires a capability store"))
      | Some store =>
          cached ←! LoadDestinationCapability store scope origin;
          let unknown :=
            if scope =s DestinationScopeFetch
            then mkPlan origin scope ProfileRFC9421 ProfileLegacy NegotiationReasonUnknownFetchProbe
            else mkPlan origin scope ProfileLegacy "" NegotiationReasonUnknownDeliveryLegacy in
          match cached with
          | None => mret (Ok unknown)
          | Some capability =>
              now ← ngNow ng;
              fresh ← Fresh capability now;
              if (fresh : bool) then
                _ ←! mret (mapErr (errorWrap "invalid cached destination capability: ")
                             (capabilityValidate capability));
                mret (Ok (mkPlan origin scope (capProfile capability) "" NegotiationReasonCachedCapability))
              else mret (Ok unknown)
          end
      end
  end.

Definition saveObservation (negotiator : option DestinationNegotiator)
    (scope destination profile evidence : string) (ttl : Duration)
    : Mw (result (DestinationCapability * bool)) :=
  match negotiator with
  | None => mret (Err (errorsNew "destination negotiator is nil"))
  | Some ng =>
      match ngStore ng with
      | None => mret (Err (errorsNew "destination capability store is nil"))
      | Some store =>
          _ ←! mret (scopeValidate scope);
          _ ←! mret (evidenceValidate evidence profile);
          origin ←! mret (NormalizeDestinationOrigin destination);
          observedAt ← ngNow ng;
          let capability := mkCapability origin scope profile evidence observedAt (observedAt + ttl) in
          _ ←! mret (capabilityValidate capability);
          saved ←! SaveDestinationCapability store capability;
          mret (Ok (capability, saved))
      end
  end.

Definition ObserveRFC9421Success (ng : DestinationNegotiator) (scope destination evidence : string)
    : Mw (result (DestinationCapability * bool)) :=
  if negb (evidence =s CapabilityEvidenceSuccessfulRFC9421)
     && negb (evidence =s CapabilityEvidenceAcceptSignature)
  then mret (Err (errorsNew ("evidence " +:+ quote evidence +:+ " is not positive RFC 9421 evidence")))
  else saveObservation (Some ng) scope destination ProfileRFC9421 evidence (positiveTTL ng).
Definition ObserveExplicitRFC9421Rejection (ng : DestinationNegotiator) (scope destination : string)
    : Mw (result (DestinationCapability * bool)) :=
  saveObservation (Some ng) scope destination ProfileLegacy
    CapabilityEvidenceExplicitRFC9421Rejection (negativeTTL ng).
Definition ObserveSuccessfulLegacyFallback (ng : DestinationNegotiator) (scope destination : string)
    : Mw (result (DestinationCapability * bool)) :=
  saveObservation (Some ng) scope destination ProfileLegacy
    CapabilityEvidenceSuccessfulLegacyFallback (negativeTTL ng).

(** What the planner relies on in a store: it answers (no panic), and a capability it returns is
    valid and belongs to the scope and origin asked for. *)
Class StoreLaws (store : DestinationCapabilityStore) : Prop := {
  load_answers : ∀ scope origin w, ∃ w' r,
    LoadDestinationCapability store scope origin w = (w', Done r);
  load_valid : ∀ scope origin w w' capability,
    LoadDestinationCapability store scope origin w = (w', Done (Ok (Some capability))) →
    capabilityValidate capability = Ok tt ∧ capOrigin capability = origin
    ∧ capScope capability = scope
}.
End negotiator.
Arguments DestinationCapabilityStore S : clear implicits.
Arguments DestinationNegotiator S : clear implicits.
Arguments DestinationNegotiatorOptions S : clear implicits.

(** ** The Redis store *)

Definition defaultDestinationCapabilityPrefix : string := "relay:http-signature:capability:".
Definition nul : string := String "000"%char "".

Definition saveDestinationCapabilityScript (key origin scope profile evidence : string)
    (observed expires : Z) : Rcmd Z :=
  current ← HGETopt key "observed_at_ms";
  newer ← (match current with
           | None => mret true
           | Some c => x ← luaNumber c; y ← luaNumber (itoa observed); mret (negb (y <=? x))
           end);
  if negb newer then mret 0
  else
    _ ← HSET key [("origin", origin); ("scope", scope); ("profile", profile);
                  ("evidence", evidence); ("observed_at_ms", itoa observed);
                  ("expires_at_ms", itoa expires)];
    _ ← EXPIREAT_MS key expires;
    mret 1.

(** [NewRedisDestinationCapabilityStore]: the prefix it keeps. *)
Definition NewRedisDestinationCapabilityStore (prefix : string) : string :=
  let prefix := TrimSpace prefix in
  if prefix =s "" then defaultDestinationCapabilityPrefix else prefix.

Definition capabilityKey (prefix scope origin : string) : string :=
  prefix +:+ sha256Hex (scope +:+ nul +:+ origin).

Definition parseCapabilityTime (values : gmap string string) (field : string) : result Time :=
  let raw := default "" (values !! field) in
  if raw =s "" then Err (errorsNew ("destination capability field " +:+ quote field +:+ " is empty"))
  else match parseInt 64 raw with
  | None => Err (errorsNew ("parse destination capability field " +:+ quote field
                            +:+ ": strconv.ParseInt: parsing " +:+ quote raw +:+ ": invalid syntax"))
  | Some ms => Ok (timeUnixMilli ms)
  end.

(** Decoding of the stored hash, with the identity check. *)
Definition decodeCapability (scope origin : string) (values : gmap string string)
    : result (option DestinationCapability) :=
  if decide (values = ∅) then Ok None
  else
    observedAt ← parseCapabilityTime values "observed_at_ms";
    expiresAt ← parseCapabilityTime values "expires_at_ms";
    let field f := default "" (values !! f) in
    let capability := mkCapability (field "origin") (field "scope") (field "profile")
                        (field "evidence") observedAt expiresAt in
    if negb (capOrigin capability =s origin) || negb (capScope capability =s scope)
    then Err (errorsNew "stored destination capability identity does not match key")
    else _ ← capabilityValidate capability; Ok (Some capability).

Section redisStore.
Context {S : Type} `{Redis S}.
Abbreviation Mw := (M (World S)).

Definition saveCapability (prefix : string) (capability : DestinationCapability) : Mw (result bool) :=
  _ ←! mret (capabilityValidate capability);
  now ← timeNow;
  if negb (After (ExpiresAt capability) now)
  then mret (Err (errorsNew "destination capability is already expired"))
  else
    res ←! redis (saveDestinationCapabilityScript
                    (capabilityKey prefix (capScope capability) (capOrigin capability))
                    (capOrigin capability) (capScope capability) (capProfile capability)
                    (capEvidence capability) (UnixMilli (ObservedAt capability))
                    (UnixMilli (ExpiresAt capability)));
    mret (Ok (res =? 1)).

Definition loadCapability (prefix scope origin : string) : Mw (result (option DestinationCapability)) :=
  _ ←! mret (scopeValidate scope);
  normalizedOrigin ←! mret (NormalizeDestinationOrigin origin);
  if negb (normalizedOrigin =s origin)
  then mret (Err (errorsNew "destination capability lookup origin is not normalized"))
  else
    values ←! redis (HGETALL (capabilityKey prefix scope origin));
    mret (decodeCapability scope origin values).

Definition RedisDestinationCapabilityStore (prefix : string) : DestinationCapabilityStore S :=
  mkStore (loadCapability prefix) (saveCapability prefix).
End redisStore.
