(* ===== verification/Signer.v ===== *)
(** * Signers and negotiation evidence (internal/httpsignature)

    - RFC 8941 structured fields as the httpsfv package returns them (its parser
      is a parameter), [CompatibleAcceptSignature], the authentication-challenge
      splitter and [ExplicitLegacySignatureRejection] (accept_signature.go);
    - [Signer] and [ConfiguredSigner]: construction, planning, signing of GET and
      POST requests with a wire profile, observation of responses (signer.go,
      rfc9421.go, configured_signer.go).  The two signature packages are
      parameters: they turn a prepared request into a signed one. *)

From S2P Require Import Prelude GoStrings GoUrl GoTime Sha256 Redis World Negotiation.

(** ** Structured fields *)

Inductive sfvBare :=
  | SfvString (s : string) | SfvToken (s : string) | SfvBool (b : bool) | SfvInt (z : Z)
  | SfvBytes (l : list ascii) | SfvOther.
Definition sfvParams : Type := list (string * sfvBare).
Record sfvItem := mkSfvItem { itemValue : sfvBare; itemParams : option sfvParams }.
Inductive sfvMember :=
  | SfvItemMember (i : sfvItem)
  | SfvInnerList (items : list sfvItem) (params : option sfvParams).
(** A dictionary: members in order, each name once. *)
Definition sfvDictionary : Type := list (string * sfvMember).
Definition sfvGet {A} (d : list (string * A)) (name : string) : option A :=
  snd <$> List.find (λ p, fst p =s name) d.

Definition rfc9421SignatureLabel : string := "activitypub".
Definition rfc9421SignatureTag : string := "activitypub".
Definition rfc9421RSAAlgorithm : string := "rsa-v1_5-sha256".
Definition rfc9421GETComponents : list string := ["@method"; "@authority"; "@target-uri"; "date"].
Definition rfc9421POSTComponents : list string :=
  ["@method"; "@authority"; "@target-uri"; "content-digest"; "content-type"; "date"].

Definition expectedAcceptSignatureComponents (scope : string) : option (list string) :=
  if scope =s DestinationScopeFetch then Some rfc9421GETComponents
  else if scope =s DestinationScopeDelivery then Some rfc9421POSTComponents
  else None.

Fixpoint componentsMatch (items : list sfvItem) (expected : list string) : bool :=
  match items, expected with
  | [], [] => true
  | item :: items, component :: expected =>
      match itemValue item with
      | SfvString s =>
          if negb (s =s component) then false
          else match itemParams item with
          | Some (_ :: _) => false
          | _ => componentsMatch items expected
          end
      | _ => false
      end
  | _, _ => false
  end.

Definition acceptParamOk (keyID name : string) (value : sfvBare) : bool :=
  if name =s "created" then match value with SfvBool b => b | _ => false end
  else if name =s "alg" then match value with SfvString s => s =s rfc9421RSAAlgorithm | _ => false end
  else if name =s "keyid" then match value with SfvString s => s =s keyID | _ => false end
  else if name =s "tag" then match value with SfvString s => s =s rfc9421SignatureTag | _ => false end
  else false.

(** [CompatibleAcceptSignature]; [unmarshal] is [httpsfv.UnmarshalDictionary]. *)
Definition CompatibleAcceptSignature (unmarshal : list string → result sfvDictionary)
    (values : list string) (scope keyID : string) : bool :=
  if bool_decide (values = []) || (TrimSpace keyID =s "") then false
  else match expectedAcceptSignatureComponents scope with
  | None => false
  | Some expected =>
      match unmarshal values with
      | Err _ => false
      | Ok dictionary =>
          match dictionary with
          | [(name, SfvInnerList items params)] =>
              if negb (name =s rfc9421SignatureLabel) then false
              else if negb (componentsMatch items expected) then false
              else match params with
              | None => true
              | Some ps => forallb (λ p, acceptParamOk keyID p.1 p.2) ps
              end
          | _ => false
          end
      end
  end.

(** ** Authentication challenges *)

(** The scan of [splitAuthenticationChallenges]: [cur] is the challenge in progress, reversed. *)
Fixpoint splitChallenges (quoted escaped : bool) (cur : list ascii) (l : list ascii) : list string :=
  match l with
  | [] => [ofBytes (rev cur)]
  | c :: l =>
      if escaped then splitChallenges quoted false (c :: cur) l
      else if quoted && bool_decide (c = "\"%char) then splitChallenges quoted true (c :: cur) l
      else if decide (c = dquote) then splitChallenges (negb quoted) false (c :: cur) l
      else if bool_decide (c = ","%char) && negb quoted
      then ofBytes (rev cur) :: splitChallenges quoted false [] l
      else splitChallenges quoted false (c :: cur) l
  end.
Definition splitAuthenticationChallenges (value : string) : list string :=
  splitChallenges false false [] (bytes value).

Definition challengeIsSignature (challenge : string) : bool :=
  match Fields (TrimSpace challenge) with
  | f :: _ => EqualFold f "Signature"
  | [] => false
  end.
Definition ExplicitLegacySignatureRejection (statusCode : Z) (header : Header) : bool :=
  if negb (statusCode =? 401) && negb (statusCode =? 403) then false
  else existsb (λ value, existsb challengeIsSignature (splitAuthenticationChallenges value))
         (headerValues header "Www-Authenticate").

(** [classifyNegotiationOutcome]; [None] is a nil response. *)
Definition classifyNegotiationOutcome (response : option httpResponse) : NegotiationOutcome :=
  match response with
  | None => NegotiationOutcomeTransportFailure
  | Some r =>
      if Z.quot (StatusCode r) 100 =? 2 then NegotiationOutcomeSuccess
      else if ExplicitLegacySignatureRejection (StatusCode r) (RespHeader r)
      then NegotiationOutcomeExplicitSignatureRejection
      else if StatusCode r =? 400 then NegotiationOutcomeAmbiguousClientRejection
      else if Z.quot (StatusCode r) 100 =? 5 then NegotiationOutcomeServerFailure
      else NegotiationOutcomeOtherFailure
  end.

(** ** Requests being signed *)

(** The fields of an outgoing [http.Request] the signers read and write. *)
Record outRequest := mkOut {
  outMethod : string; outURL : option URL; outHost : string; outHeader : Header;
  outBody : option string; outContentLength : Z }.

Definition withHeader (h : Header) (r : outRequest) : outRequest :=
  mkOut (outMethod r) (outURL r) (outHost r) h (outBody r) (outContentLength r).
Definition headerDel (h : Header) (name : string) : Header := delete name h.

Definition clearSignatureFields (r : outRequest) : outRequest :=
  withHeader (foldl headerDel (outHeader r)
    ["Date"; "Digest"; "Content-Digest"; "Signature-Input"; "Signature"]) r.

Section signing.
Context {S : Type} `{Redis S}.
Context {PrivateKey Message : Type}.
Abbreviation Mw := (M (World S)).

(** [httpdate.Time2Str]; go-fed/httpsig signing a prepared request over a list of headers;
    common-fate/httpsig signing one and including the signature fields in it;
    [httpsfv.UnmarshalDictionary]; [httpsfv.Marshal] of a one-digest dictionary. *)
Variable httpdate : Time → string.
Variable legacySign : PrivateKey → string → list string → string → outRequest → result outRequest.
Variable rfcSign : PrivateKey → string → list string → outRequest → result Message.
Variable rfcInclude : Message → outRequest → result outRequest.
Variable unmarshal : list string → result sfvDictionary.
Variable marshalDigest : list ascii → result string.

Record Signer := mkSigner { keyID : string; privateKey : PrivateKey }.

Definition NewSigner (keyID : string) (privateKey : option PrivateKey) : result Signer :=
  if TrimSpace keyID =s "" then Err (errorsNew "HTTP signature signer has no key ID")
  else match privateKey with
  | None => Err (errorsNew "HTTP signature signer has no private key")
  | Some k => Ok (mkSigner keyID k)
  end.

(** The date the signers set when the request has none. *)
Definition ensureDate (h : Header) : Mw Header :=
  if headerGet h "Date" =s "" then (t ← timeNow; mret (headerSet h "Date" (httpdate t)))
  else mret h.

Definition hs2019 : string := ofBytes (bytes "algorithm=" ++ [dquote] ++ bytes "hs2019" ++ [dquote]).
Definition rsaSha256 : string := ofBytes (bytes "algorithm=" ++ [dquote] ++ bytes "rsa-sha256" ++ [dquote]).
(** [ReplaceAllString] of a fixed text. *)
Fixpoint replaceAll (fuel : nat) (old new l : list ascii) : list ascii :=
  match fuel with
  | O => l
  | Datatypes.S fuel =>
      match prefixBytes old l with
      | Some rest => new ++ replaceAll fuel old new rest
      | None => match l with [] => [] | c :: l => c :: replaceAll fuel old new l end
      end
  end.

(** [Signer.sign]: the legacy draft-cavage profile. *)
Definition sign (signer : Signer) (r : outRequest) (body : string) (headers : list string)
    : Mw (result outRequest) :=
  if TrimSpace (keyID signer) =s "" then mret (Err (errorsNew "HTTP signature signer is not initialized"))
  else match outURL r with
  | None => mret (Err (errorsNew "signed request has no URL host"))
  | Some u =>
      if Host u =s "" then mret (Err (errorsNew "signed request has no URL host"))
      else
        h ← ensureDate (headerSet (outHeader r) "Host" (Host u));
        let prepared := mkOut (outMethod r) (outURL r) (Host u) h (outBody r) (outContentLength r) in
        match legacySign (privateKey signer) (keyID signer) headers body prepared with
        | Err e => mret (Err e)
        | Ok signed =>
            let s := headerGet (outHeader signed) "Signature" in
            let s := ofBytes (replaceAll (String.length s) (bytes hs2019) (bytes rsaSha256) (bytes s)) in
            mret (Ok (withHeader (headerSet (outHeader signed) "Signature" s) signed))
        end
  end.
Definition SignGET (signer : Signer) (r : outRequest) : Mw (result outRequest) :=
  sign signer r "" ["(request-target)"; "Host"; "Date"].
Definition SignPOST (signer : Signer) (r : outRequest) (body : string) : Mw (result outRequest) :=
  sign signer r body ["(request-target)"; "Host"; "Date"; "Digest"; "Content-Type"].

Definition RFC9530ContentDigestSHA256 (body : string) : result string :=
  mapErr (errorWrap "marshal RFC 9530 Content-Digest: ") (marshalDigest (sum256 (bytes body))).

Definition withoutFragment (u : URL) : URL :=
  mkURL (Scheme u) (Opaque u) (User u) (Host u) (Path u) (RawPath u) (OmitHost u) (ForceQuery u)
    (RawQuery u) "" "".

(** [Signer.signRFC9421]: [body] is [None] for a GET. *)
Definition signRFC9421 (signer : Signer) (r : outRequest) (body : option string)
    (coveredComponents : list string) : Mw (result outRequest) :=
  if TrimSpace (keyID signer) =s "" then mret (Err (errorsNew "HTTP signature signer is not initialized"))
  else match outURL r with
  | None => mret (Err (errorsNew "signed request has no URL host"))
  | Some u =>
      if Host u =s "" then mret (Err (errorsNew "signed request has no URL host"))
      else
        h ← ensureDate (headerSet (outHeader r) "Host" (Host u));
        let h := foldl headerDel h ["Signature"; "Signature-Input"; "Digest"] in
        prepared ←! mret (match body with
          | Some b => digest ← RFC9530ContentDigestSHA256 b;
                      Ok (mkOut (outMethod r) (Some (withoutFragment u)) (Host u)
                            (headerSet h "Content-Digest" digest) (Some b) (len b))
          | None => Ok (mkOut (outMethod r) (Some (withoutFragment u)) (Host u)
                          (headerDel h "Content-Digest") (outBody r) (outContentLength r))
          end);
        match rfcSign (privateKey signer) (keyID signer) coveredComponents prepared with
        | Err e => mret (Err (errorWrap "sign RFC 9421 request: " e))
        | Ok message =>
            mret (mapErr (errorWrap "include RFC 9421 signature fields: ") (rfcInclude message prepared))
        end
  end.

Definition signerSignGETWithProfile (signer : Signer) (r : outRequest) (profile : string)
    : Mw (result outRequest) :=
  _ ←! mret (profileValidate profile);
  if profile =s ProfileLegacy then SignGET signer r
  else if profile =s ProfileRFC9421 then signRFC9421 signer r None rfc9421GETComponents
  else mret (Err ErrDualProfileRequiresDeliveryPolicy).
Definition signerSignPOSTWithProfile (signer : Signer) (r : outRequest) (body profile : string)
    : Mw (result outRequest) :=
  _ ←! mret (profileValidate profile);
  if profile =s ProfileLegacy then SignPOST signer r body
  else if profile =s ProfileRFC9421 then signRFC9421 signer r (Some body) rfc9421POSTComponents
  else mret (Err ErrDualProfileRequiresDeliveryPolicy).

(** ** The configured signer *)

Record ConfiguredSigner := mkConfigured {
  csSigner : Signer; csProfile : string; csNegotiator : option (DestinationNegotiator S) }.

Definition newConfiguredSigner (keyID : string) (privateKey : option PrivateKey) (profile : string)
    (negotiator : option (DestinationNegotiator S)) : result ConfiguredSigner :=
  signer ← NewSigner keyID privateKey; Ok (mkConfigured signer profile negotiator).
Definition NewConfiguredSigner (keyID : string) (privateKey : option PrivateKey) (profile : string)
    : result ConfiguredSigner :=
  normalized ← mapErr (errorWrap "outbound HTTP signature profile: ") (ParseProfile profile);
  if normalized =s ProfileDual then Err ErrDualProfileRequiresDeliveryPolicy
  else newConfiguredSigner keyID privateKey normalized None.
Definition NewNegotiatingSigner (keyID : string) (privateKey : option PrivateKey) (profile : string)
    (negotiator : option (DestinationNegotiator S)) : result ConfiguredSigner :=
  normalized ← mapErr (errorWrap "outbound HTTP signature profile: ") (ParseOutboundProfile profile);
  if (normalized =s ProfileDual) && match negotiator with None => true | Some _ => false end
  then Err ErrDualProfileRequiresDeliveryPolicy
  else newConfiguredSigner keyID privateKey normalized negotiator.

Definition signerProfile (signer : option ConfiguredSigner) : string :=
  match signer with None => "" | Some cs => csProfile cs end.

Definition errNotInitialized : error := errorsNew "configured outbound HTTP signer is not initialized".

Definition signerPlan (signer : option ConfiguredSigner) (scope destination : string)
    : Mw (result NegotiationPlan) :=
  match signer with
  | None => mret (Err errNotInitialized)
  | Some cs =>
      match csNegotiator cs with
      | Some ng => Plan (Some ng) (csProfile cs) scope destination
      | None =>
          if csProfile cs =s ProfileDual then mret (Err ErrDualProfileRequiresDeliveryPolicy)
          else
            origin ←! mret (NormalizeDestinationOrigin destination);
            let reason := if csProfile cs =s ProfileRFC9421 then NegotiationReasonConfiguredRFC9421
                          else NegotiationReasonConfiguredLegacy in
            mret (Ok (mkPlan origin scope (csProfile cs) "" reason))
      end
  end.

Definition SignGETWithProfile (signer : option ConfiguredSigner) (r : outRequest) (profile : string)
    : Mw (result outRequest) :=
  match signer with
  | None => mret (Err errNotInitialized)
  | Some cs => wireProfile ←! mret (ParseWireProfile profile);
               signerSignGETWithProfile (csSigner cs) r wireProfile
  end.
Definition SignPOSTWithProfile (signer : option ConfiguredSigner) (r : outRequest) (body profile : string)
    : Mw (result outRequest) :=
  match signer with
  | None => mret (Err errNotInitialized)
  | Some cs => wireProfile ←! mret (ParseWireProfile profile);
               signerSignPOSTWithProfile (csSigner cs) r body wireProfile
  end.

(** [signPlannedGET]: plan, clear the old signature fields, sign with the primary profile. *)
Definition signPlannedGET (signer : option ConfiguredSigner) (r : outRequest)
    : Mw (result (outRequest * NegotiationPlan)) :=
  match outURL r with
  | None => panic "invalid memory address or nil pointer dereference"
  | Some u =>
      plan ←! signerPlan signer DestinationScopeFetch (URL_String u);
      signed ←! SignGETWithProfile signer (clearSignatureFields r) (Primary plan);
      mret (Ok (signed, plan))
  end.

Definition ObserveResponse (signer : option ConfiguredSigner) (scope destination profile : string)
    (statusCode : Z) (header : Header) : Mw (result unit) :=
  match signer ≫= csNegotiator, signer with
  | Some ng, Some cs =>
      if Z.quot statusCode 100 =? 2 then
        if profile =s ProfileRFC9421 then
          _ ←! ObserveRFC9421Success ng scope destination CapabilityEvidenceSuccessfulRFC9421;
          mret (Ok tt)
        else if negb (CompatibleAcceptSignature unmarshal (headerValues header "Accept-Signature")
                        scope (keyID (csSigner cs)))
        then mret (Ok tt)
        else
          _ ←! ObserveRFC9421Success ng scope destination CapabilityEvidenceAcceptSignature;
          mret (Ok tt)
      else if (profile =s ProfileRFC9421) && ExplicitLegacySignatureRejection statusCode header then
        _ ←! ObserveExplicitRFC9421Rejection ng scope destination; mret (Ok tt)
      else mret (Ok tt)
  | _, _ => mret (Ok tt)
  end.
End signing.
