(* ===== verification/NegotiationSpec.v ===== *)
(** * Theorems about signature negotiation

    Plans and fallback, the negotiator's bounds, the Redis capability store (it
    implements the store interface, a saved capability is read back until it
    expires, an older observation never replaces a newer one), the end-to-end
    effect of an observation on the next plan, and the evidence functions. *)

From S2P Require Import Prelude GoStrings GoUrl GoTime Sha256 Redis World Frame Negotiation Signer.

(** ** Planning *)

Lemma capabilityValidate_profile c : capabilityValidate c = Ok tt →
  capProfile c = ProfileLegacy ∨ capProfile c = ProfileRFC9421.
Proof.
  unfold capabilityValidate. destruct (NormalizeDestinationOrigin (capOrigin c)) as [o|]; [|done].
  cbn [mbind result_bind]. destruct (negb (o =s capOrigin c)); [done|]. destruct (scopeValidate (capScope c)); [|done].
  cbn [mbind result_bind]. destruct (negb (oneOf (capProfile c) [ProfileLegacy; ProfileRFC9421])) eqn:E; [done|].
  intros _. apply negb_false_iff, oneOf_true in E. set_solver.
Qed.

Record planOk (configured scope destination : string) (plan : NegotiationPlan) : Prop := {
  plan_origin : NormalizeDestinationOrigin destination = Ok (planOrigin plan);
  plan_scope : planScope plan = scope;
  plan_wire : Primary plan = ProfileLegacy ∨ Primary plan = ProfileRFC9421;
  plan_fixed : configured ≠ ProfileDual → Primary plan = configured ∧ Fallback plan = "";
  plan_fallback : Fallback plan ≠ "" → configured = ProfileDual ∧ scope = DestinationScopeFetch
    ∧ Primary plan = ProfileRFC9421 ∧ Fallback plan = ProfileLegacy;
  plan_delivery : scope = DestinationScopeDelivery → ∀ o, ShouldFallback plan o = false;
  plan_outcomes : ∀ o, ShouldFallback plan o = true →
    o = NegotiationOutcomeExplicitSignatureRejection ∨ o = NegotiationOutcomeAmbiguousClientRejection
}.

Lemma planOk_intro configured scope destination origin primary fallback reason :
  NormalizeDestinationOrigin destination = Ok origin →
  primary = ProfileLegacy ∨ primary = ProfileRFC9421 →
  (configured ≠ ProfileDual → primary = configured ∧ fallback = "") →
  (fallback ≠ "" → configured = ProfileDual ∧ scope = DestinationScopeFetch
     ∧ primary = ProfileRFC9421 ∧ fallback = ProfileLegacy) →
  planOk configured scope destination (mkPlan origin scope primary fallback reason).
Proof.
  intros Ho Hp Hf Hb. split; cbn; try done.
  - intros -> o. done.
  - intros o. unfold ShouldFallback. cbn.
    destruct (negb (scope =s DestinationScopeFetch) || _ || _); [done|].
    rewrite orb_true_iff, !bool_decide_eq_true. done.
Qed.

Section planning.
Context {S : Type} `{Redis S}.

(** planning ends without a panic; a plan names the normalized origin and a concrete wire
    profile, a fixed configuration is followed and needs no store, a fallback exists only for a
    dual-mode fetch of an unknown destination (RFC 9421 first, legacy once), it is used only
    after an explicit signature challenge or the HTTP 400 signal, and a delivery never falls
    back. *)
Theorem plan_is_safe (ng : DestinationNegotiator S) (configured scope destination : string)
    (w : World S) (Hnow : ngNow ng = timeNow)
    (Hstore : ∀ store, ngStore ng = Some store → StoreLaws store) :
  ∃ w' r, Plan (Some ng) configured scope destination w = (w', Done r)
    ∧ (∀ plan, r = Ok plan → planOk configured scope destination plan)
    ∧ (configured = ProfileLegacy ∨ configured = ProfileRFC9421 → scopeValidate scope = Ok tt →
       is_ok (NormalizeDestinationOrigin destination) = true → w' = w ∧ is_ok r = true).
Proof.
  unfold Plan, bindErr, mbind, M_bind, mret, M_ret.
  destruct (scopeValidate scope) as [[]|e]; [|by eexists _, _].
  destruct (NormalizeDestinationOrigin destination) as [origin|e] eqn:Eo; [|by eexists _, _].
  destruct (configured =s ProfileLegacy) eqn:E1.
  { apply eqs_true in E1 as ->. eexists _, _. split; [done|]. split; [|done].
    intros plan [= <-]. apply planOk_intro; auto; done. }
  destruct (configured =s ProfileRFC9421) eqn:E2.
  { apply eqs_true in E2 as ->. eexists _, _. split; [done|]. split; [|done].
    intros plan [= <-]. apply planOk_intro; auto; done. }
  apply eqs_false in E1, E2.
  assert (Hfix : ∀ P : Prop, configured = ProfileLegacy ∨ configured = ProfileRFC9421 → P)
    by (intros P [?|?]; done).
  destruct (configured =s ProfileDual) eqn:E3; cbn [negb];
    [|by eexists _, _; split; [done|]; split; [done|]; intros Hc; apply (Hfix _ Hc)].
  apply eqs_true in E3. destruct (ngStore ng) as [store|] eqn:Es;
    [|by eexists _, _; split; [done|]; split; [done|]; intros Hc; apply (Hfix _ Hc)].
  specialize (Hstore store eq_refl).
  destruct (load_answers scope origin w) as (w1 & r1 & El). rewrite El.
  set (unknown := if scope =s DestinationScopeFetch then _ else _).
  assert (Hunknown : planOk configured scope destination unknown).
  { unfold unknown. destruct (scope =s DestinationScopeFetch) eqn:Ef.
    - apply eqs_true in Ef as ->. subst. apply planOk_intro; auto. done.
    - apply planOk_intro; auto; done. }
  destruct r1 as [[cap|]|e].
  2: { eexists _, _. split; [done|]. split; [by intros plan [= <-]|]. intros Hc; apply (Hfix _ Hc). }
  2: { eexists _, _. split; [done|]. split; [done|]. intros Hc; apply (Hfix _ Hc). }
  destruct (load_valid scope origin w w1 cap El) as (Hv & _ & _). rewrite Hv. cbn [mapErr].
  assert (Hcached : planOk configured scope destination
    (mkPlan origin scope (capProfile cap) "" NegotiationReasonCachedCapability)).
  { apply planOk_intro; auto; try done. by apply capabilityValidate_profile. }
  rewrite Hnow. unfold timeNow at 1, Fresh. unfold mbind, M_bind, mret, M_ret.
  destruct (IsZero (w_clock w1 (w_ticks w1))); cbn [timeNow];
    (destruct (After (ExpiresAt cap) _);
      (eexists _, _; split; [reflexivity|]; split;
        [by intros plan [= <-]|intros Hc; apply (Hfix _ Hc)])).
Qed.

(** A negotiator that can be built keeps a positive preference at least an hour, a negative
    one at least a minute and never longer than a positive one; the defaults are accepted. *)
Theorem negotiator_bounds (options : DestinationNegotiatorOptions S) :
  match NewDestinationNegotiator options with
  | Ok ng => Hour ≤ positiveTTL ng ∧ Minute ≤ negativeTTL ng ∧ negativeTTL ng ≤ positiveTTL ng
      ∧ ngStore ng = optStore options
  | Err _ =>
      let p := if optPositiveTTL options =? 0 then DefaultRFC9421CapabilityTTL else optPositiveTTL options in
      let n := if optNegativeTTL options =? 0 then DefaultLegacyNegativeTTL else optNegativeTTL options in
      p < Hour ∨ n < Minute ∨ p < n
  end.
Proof.
  unfold NewDestinationNegotiator. cbv zeta.
  set (p := if optPositiveTTL options =? 0 then _ else _).
  set (n := if optNegativeTTL options =? 0 then _ else _).
  destruct (Z.ltb_spec p Hour); [by left|].
  destruct (Z.ltb_spec n Minute); [by right; left|].
  destruct (Z.ltb_spec p n); [by right; right|]. cbn. auto.
Qed.
End planning.

(** ** The Redis store implements the interface *)

Section store.
Context {S : Type} `{Redis S}.

Lemma decodeCapability_valid scope origin values cap :
  decodeCapability scope origin values = Ok (Some cap) →
  capabilityValidate cap = Ok tt ∧ capOrigin cap = origin ∧ capScope cap = scope.
Proof.
  unfold decodeCapability. case_decide; [done|]. cbn [mbind result_bind].
  destruct (parseCapabilityTime values "observed_at_ms"); [|done]. cbn [mbind result_bind].
  destruct (parseCapabilityTime values "expires_at_ms"); [|done]. cbn [mbind result_bind].
  match goal with |- context [negb (capOrigin ?c =s _)] => set (c0 := c) end.
  destruct (negb (capOrigin c0 =s origin) || negb (capScope c0 =s scope)) eqn:E; [done|].
  destruct (capabilityValidate c0) as [[]|] eqn:Ev; [|done]. cbn. intros [= <-].
  apply orb_false_iff in E as [E1 E2].
  apply negb_false_iff, eqs_true in E1. apply negb_false_iff, eqs_true in E2. done.
Qed.

#[export] Instance RedisStore_laws prefix : StoreLaws (RedisDestinationCapabilityStore (S := S) prefix).
Proof.
  split.
  - intros scope origin w. cbn. unfold loadCapability, bindErr, mbind, M_bind, mret, M_ret.
    destruct (scopeValidate scope); [|eauto].
    destruct (NormalizeDestinationOrigin origin); [|eauto]. destruct (negb _); [eauto|].
    unfold redis. destruct (redis_do _ _) as [s [v|e]]; cbn; eauto.
  - intros scope origin w w' cap. cbn. unfold loadCapability, bindErr, mbind, M_bind, mret, M_ret.
    destruct (scopeValidate scope); [|done].
    destruct (NormalizeDestinationOrigin origin); [|done]. destruct (negb _); [done|].
    unfold redis. destruct (redis_do _ _) as [s [v|e]]; cbn; [|done].
    intros [= _ Hd]. by eapply decodeCapability_valid.
Qed.
End store.

(** ** Saving and reading back *)

(** A capability as Redis keeps it: times in whole milliseconds. *)
Definition truncated (c : DestinationCapability) : DestinationCapability :=
  mkCapability (capOrigin c) (capScope c) (capProfile c) (capEvidence c)
    (timeUnixMilli (UnixMilli (ObservedAt c))) (timeUnixMilli (UnixMilli (ExpiresAt c))).

Definition capabilityHash (c : DestinationCapability) (h : gmap string string) : gmap string string :=
  <["expires_at_ms" := itoa (UnixMilli (ExpiresAt c))]> (<["observed_at_ms" := itoa (UnixMilli (ObservedAt c))]>
    (<["evidence" := capEvidence c]> (<["profile" := capProfile c]>
      (<["scope" := capScope c]> (<["origin" := capOrigin c]> h))))).

Definition msFits (t : Time) : Prop := - 2 ^ 53 < UnixMilli t < 2 ^ 53.

Lemma msFits_width t : msFits t → inWidth 64 (UnixMilli t) = true.
Proof. unfold msFits, inWidth. intros Ht. change (64 - 1) with 63. apply andb_true_iff. lia. Qed.
Lemma msFits_double t : msFits t → toDouble (UnixMilli t) = UnixMilli t.
Proof.
  unfold msFits, toDouble. intros Ht. destruct (Z.ltb_spec (Z.abs (UnixMilli t)) (2 ^ 53)); [done|lia].
Qed.
Lemma luaNumber_ms t now d : msFits t → luaNumber (itoa (UnixMilli t)) now d = (d, Ok (UnixMilli t)).
Proof.
  intros Ht. unfold luaNumber, luaToNumber. rewrite parseInt_itoa by by apply msFits_width.
  cbn [fmap option_fmap option_map]. by rewrite msFits_double.
Qed.

Lemma truncated_valid c : capabilityValidate c = Ok tt →
  UnixMilli (ObservedAt c) < UnixMilli (ExpiresAt c) →
  UnixMilli (ObservedAt c) ≠ UnixMilli zeroTime →
  capabilityValidate (truncated c) = Ok tt.
Proof.
  intros Hv Hlt Hz. unfold capabilityValidate in *. cbn [truncated capOrigin capScope capProfile capEvidence].
  destruct (NormalizeDestinationOrigin (capOrigin c)) as [o|]; [|done]. cbn [mbind result_bind] in *.
  destruct (negb (o =s capOrigin c)); [done|]. destruct (scopeValidate (capScope c)); [|done].
  cbn [mbind result_bind] in *. destruct (negb (oneOf (capProfile c) _)); [done|].
  destruct (evidenceValidate _ _); [|done]. cbn [mbind result_bind] in *.
  cbn [truncated ObservedAt ExpiresAt].
  replace (IsZero (timeUnixMilli (UnixMilli (ObservedAt c)))) with false.
  - unfold After, timeUnixMilli, Millisecond. rewrite (proj2 (Z.ltb_lt _ _)) by lia. done.
  - symmetry. apply Z.eqb_neq. intros E. apply Hz. rewrite <- E. by rewrite UnixMilli_timeUnixMilli.
Qed.

Lemma parseCapabilityTime_ms values f t : msFits t →
  values !! f = Some (itoa (UnixMilli t)) →
  parseCapabilityTime values f = Ok (timeUnixMilli (UnixMilli t)).
Proof.
  intros Ht Hf. unfold parseCapabilityTime. rewrite Hf. cbn [default from_option id].
  pose proof (parseInt_itoa 64 _ (msFits_width t Ht)) as Hp.
  destruct (itoa (UnixMilli t) =s "") eqn:E; [apply eqs_true in E; by rewrite E in Hp|].
  by rewrite Hp.
Qed.

Lemma decode_capabilityHash c h :
  capabilityValidate (truncated c) = Ok tt → msFits (ObservedAt c) → msFits (ExpiresAt c) →
  decodeCapability (capScope c) (capOrigin c) (capabilityHash c h) = Ok (Some (truncated c)).
Proof.
  intros Hv Ho He. unfold decodeCapability.
  rewrite decide_False by (unfold capabilityHash; apply insert_non_empty).
  rewrite (parseCapabilityTime_ms _ "observed_at_ms" _ Ho) by (unfold capabilityHash; by map_look).
  cbn [mbind result_bind]. rewrite (parseCapabilityTime_ms _ _ _ He) by (unfold capabilityHash; by map_look).
  cbn [mbind result_bind]. unfold capabilityHash. map_look.
  cbn [default from_option id capOrigin capScope].
  rewrite !eqs_refl. cbn [negb orb]. unfold truncated in Hv. by rewrite Hv.
Qed.

(** The script writes its key only. *)
Lemma touches_saveCapabilityScript (ks : string → Prop) key origin scope profile evidence observed expires :
  ks key → touches ks (saveDestinationCapabilityScript key origin scope profile evidence observed expires).
Proof.
  intros Hk. unfold saveDestinationCapabilityScript.
  apply touches_bind; [auto with runs|intros current]. apply touches_bind.
  { destruct current; [|auto with runs]. repeat (apply touches_bind; [auto with runs|intros ?]). auto with runs. }
  intros []; cbn [negb]; [|auto with runs]. repeat (apply touches_bind; [auto with runs|intros ?]). auto with runs.
Qed.

(** The script on a key with no live record. *)
Lemma saveScript_fresh key c now d :
  find now d key = None → now < UnixMilli (ExpiresAt c) →
  saveDestinationCapabilityScript key (capOrigin c) (capScope c) (capProfile c) (capEvidence c)
    (UnixMilli (ObservedAt c)) (UnixMilli (ExpiresAt c)) now d
  = (put key (RHash (capabilityHash c ∅)) (Some (UnixMilli (ExpiresAt c)))
       (put key (RHash (capabilityHash c ∅)) None d), Ok 1).
Proof.
  intros Hf Hnow. unfold saveDestinationCapabilityScript, mbind, Rcmd_bind, mret, Rcmd_ret.
  unfold HGETopt, asHash. rewrite Hf. rewrite lookup_empty. cbn [negb].
  unfold HSET at 1, asHash, ttlOf. rewrite Hf. cbn [mbind option_bind foldl].
  unfold EXPIREAT_MS. rewrite find_put_same. cbn [live e_expire].
  rewrite (proj2 (Z.leb_gt _ _)) by done. done.
Qed.

(** The script never goes back: a live record observed later (or at the same time) stays. *)
Lemma saveScript_stale key c now d h t a :
  find now d key = Some (mkEntry (RHash h) t) → h !! "observed_at_ms" = Some (itoa (UnixMilli a)) →
  msFits a → msFits (ObservedAt c) → UnixMilli (ObservedAt c) ≤ UnixMilli a →
  saveDestinationCapabilityScript key (capOrigin c) (capScope c) (capProfile c) (capEvidence c)
    (UnixMilli (ObservedAt c)) (UnixMilli (ExpiresAt c)) now d = (d, Ok 0).
Proof.
  intros Hf Hh Ha Ho Hle. unfold saveDestinationCapabilityScript, mbind, Rcmd_bind, mret, Rcmd_ret.
  unfold HGETopt, asHash. rewrite Hf, Hh. rewrite !luaNumber_ms by done.
  rewrite (proj2 (Z.leb_le _ _)) by done. done.
Qed.

Section saving.
Context {S : Type} `{RedisReliable S}.

(** Save then load, as one process runs them. *)
Definition saveThenLoad (prefix : string) (c : DestinationCapability)
    : M (World S) (result bool * result (option DestinationCapability)) :=
  saved ← saveCapability prefix c;
  loaded ← loadCapability prefix (capScope c) (capOrigin c);
  mret (saved, loaded).

Lemma normalized_of_valid c : capabilityValidate c = Ok tt →
  NormalizeDestinationOrigin (capOrigin c) = Ok (capOrigin c) ∧ scopeValidate (capScope c) = Ok tt.
Proof.
  unfold capabilityValidate. destruct (NormalizeDestinationOrigin (capOrigin c)) as [o|]; [|done].
  cbn [mbind result_bind]. destruct (o =s capOrigin c) eqn:E; cbn [negb]; [|done].
  apply eqs_true in E as ->. destruct (scopeValidate (capScope c)) as [[]|]; [|done]. done.
Qed.

(** The effect of a save on a key with no record, before the capability expires. *)
Lemma saveCapability_run prefix c (w : World S) :
  capabilityValidate c = Ok tt →
  db_keys (rs_db (w_redis w)) !! capabilityKey prefix (capScope c) (capOrigin c) = None →
  After (ExpiresAt c) (w_clock w (w_ticks w)) = true →
  let w' := (saveCapability prefix c w).1 in
  rs_ms (w_redis w') < UnixMilli (ExpiresAt c) →
  saveCapability prefix c w = (w', Done (Ok true))
  ∧ db_keys (rs_db (w_redis w')) !! capabilityKey prefix (capScope c) (capOrigin c)
    = Some (mkEntry (RHash (capabilityHash c ∅)) (Some (UnixMilli (ExpiresAt c))))
  ∧ w_clock w' = w_clock w ∧ w_ticks w' = Datatypes.S (w_ticks w).
Proof.
  intros Hv Hkey Hclock. unfold saveCapability. rewrite Hv.
  unfold bindErr, mbind, M_bind, mret, M_ret, timeNow. rewrite Hclock. cbn [negb]. unfold redis.
  set (cmd := saveDestinationCapabilityScript _ _ _ _ _ _ _). cbn [w_redis].
  pose proof (redis_do_ok _ cmd (w_redis w)) as Hdo. cbv zeta.
  destruct (redis_do cmd (w_redis w)) as [s r]. cbn [fst snd set_redis w_redis] in *.
  assert (Hms : rs_ms s < UnixMilli (ExpiresAt c) → r = Ok 1 ∧ rs_db s =
    put (capabilityKey prefix (capScope c) (capOrigin c)) (RHash (capabilityHash c ∅))
      (Some (UnixMilli (ExpiresAt c))) (put (capabilityKey prefix (capScope c) (capOrigin c))
        (RHash (capabilityHash c ∅)) None (rs_db (w_redis w)))).
  { intros Hlt. unfold cmd in Hdo. rewrite saveScript_fresh in Hdo.
    - by injection Hdo as -> ->.
    - unfold find. by rewrite Hkey.
    - done. }
  destruct r as [z|e]; cbn [fst w_redis set_redis]; intros Hlt; destruct (Hms Hlt) as [Hr Hdb];
    [injection Hr as ->|done].
  split; [done|]. split; [|done]. rewrite Hdb. unfold put, setKeys. cbn [db_keys].
  by rewrite lookup_insert_eq.
Qed.

(** A load of a live stored capability. *)
Lemma loadCapability_run prefix c (w : World S) :
  capabilityValidate (truncated c) = Ok tt → msFits (ObservedAt c) → msFits (ExpiresAt c) →
  db_keys (rs_db (w_redis w)) !! capabilityKey prefix (capScope c) (capOrigin c)
    = Some (mkEntry (RHash (capabilityHash c ∅)) (Some (UnixMilli (ExpiresAt c)))) →
  let w' := (loadCapability prefix (capScope c) (capOrigin c) w).1 in
  rs_ms (w_redis w') < UnixMilli (ExpiresAt c) →
  loadCapability prefix (capScope c) (capOrigin c) w = (w', Done (Ok (Some (truncated c))))
  ∧ rs_ms (w_redis w) ≤ rs_ms (w_redis w') ∧ w_clock w' = w_clock w ∧ w_ticks w' = w_ticks w.
Proof.
  intros Hv Ho He Hkey. unfold loadCapability.
  destruct (normalized_of_valid _ Hv) as [Hn Hs]. cbn in Hn, Hs. rewrite Hn, Hs.
  unfold bindErr, mbind, M_bind, mret, M_ret. rewrite eqs_refl. cbn [negb]. unfold redis.
  set (cmd := HGETALL _). pose proof (redis_do_ok _ cmd (w_redis w)) as Hdo.
  pose proof (redis_do_clock _ cmd (w_redis w)) as Hck. cbv zeta.
  destruct (redis_do cmd (w_redis w)) as [s r]. cbn [fst snd set_redis w_redis] in *.
  assert (Hr : rs_ms s < UnixMilli (ExpiresAt c) → r = Ok (capabilityHash c ∅)).
  { intros Hlt. apply (f_equal snd) in Hdo. cbn [snd] in Hdo. rewrite Hdo. unfold cmd, HGETALL.
    cbn [snd]. unfold asHash, find. rewrite Hkey. cbn [live e_expire].
    by rewrite (proj2 (Z.ltb_lt _ _) Hlt). }
  destruct r as [v|e]; cbn [fst w_redis set_redis]; intros Hlt; specialize (Hr Hlt);
    [injection Hr as ->|done].
  rewrite decode_capabilityHash by done. done.
Qed.

(** a valid capability saved where no record is stored is read back with its origin,
    scope, profile and evidence and its times in whole milliseconds, as long as neither the
    local nor the Redis clock has reached its expiration. *)
Theorem capability_save_load (prefix : string) (c : DestinationCapability) (w : World S)
    (Hv : capabilityValidate c = Ok tt) (Ho : msFits (ObservedAt c)) (He : msFits (ExpiresAt c))
    (Hlt : UnixMilli (ObservedAt c) < UnixMilli (ExpiresAt c))
    (Hz : UnixMilli (ObservedAt c) ≠ UnixMilli zeroTime)
    (Hkey : db_keys (rs_db (w_redis w)) !! capabilityKey prefix (capScope c) (capOrigin c) = None)
    (Hclock : After (ExpiresAt c) (w_clock w (w_ticks w)) = true)
    (Hms : rs_ms (w_redis (saveThenLoad prefix c w).1) < UnixMilli (ExpiresAt c)) :
  (saveThenLoad prefix c w).2 = Done (Ok true, Ok (Some (truncated c))).
Proof.
  pose proof (saveCapability_run prefix c w Hv Hkey Hclock) as Hsave. cbv zeta in Hsave.
  unfold saveThenLoad, mbind, M_bind, mret, M_ret in *.
  destruct (saveCapability prefix c w) as [w1 o1]. cbn [fst] in Hsave.
  assert (Hle : rs_ms (w_redis w1) ≤ rs_ms (w_redis (loadCapability prefix (capScope c) (capOrigin c) w1).1)).
  { unfold loadCapability, bindErr, mbind, M_bind, mret, M_ret.
    destruct (scopeValidate _); [|done]. destruct (NormalizeDestinationOrigin _); [|done].
    destruct (negb _); [done|]. unfold redis. pose proof (redis_do_clock _
      (HGETALL (capabilityKey prefix (capScope c) (capOrigin c))) (w_redis w1)) as Hck.
    by destruct (redis_do _ _) as [s [v|e]]. }
  destruct o1 as [r1|]; [|destruct Hsave as (? & _); [cbn in Hms; lia|done]].
  destruct (loadCapability prefix (capScope c) (capOrigin c) w1) as [w2 o2] eqn:El. cbn [fst] in Hle.
  assert (Hms2 : rs_ms (w_redis w2) < UnixMilli (ExpiresAt c)) by (by destruct o2).
  destruct Hsave as (Hsv & Hdb & _); [lia|]. injection Hsv as ->.
  pose proof (loadCapability_run prefix c w1 (truncated_valid c Hv Hlt Hz) Ho He Hdb) as Hload.
  cbv zeta in Hload. rewrite El in Hload. cbn [fst] in Hload. destruct (Hload Hms2) as (Hl & _).
  injection Hl as ->. done.
Qed.
End saving.

(** an observation that is not newer than a live stored one never replaces it, whatever
    Redis fails: the database is left as it was and the save does not report success. *)
Theorem capability_never_goes_back {S} `{RedisLaws S} (prefix : string) (c : DestinationCapability)
    (w : World S) (h : gmap string string) (t : option Z) (a : Time)
    (Hkey : db_keys (rs_db (w_redis w)) !! capabilityKey prefix (capScope c) (capOrigin c)
            = Some (mkEntry (RHash h) t))
    (Hh : h !! "observed_at_ms" = Some (itoa (UnixMilli a)))
    (Ha : msFits a) (Ho : msFits (ObservedAt c)) (Hle : UnixMilli (ObservedAt c) ≤ UnixMilli a)
    (Hlive : live (rs_ms (w_redis (saveCapability prefix c w).1)) (mkEntry (RHash h) t) = true) :
  ∃ w' r, saveCapability prefix c w = (w', Done r)
    ∧ rs_db (w_redis w') = rs_db (w_redis w) ∧ r ≠ Ok true.
Proof.
  revert Hlive. unfold saveCapability, bindErr, mbind, M_bind, mret, M_ret, timeNow.
  destruct (capabilityValidate c) as [[]|e]; [|by eexists _, _].
  destruct (negb (After _ _)); [by eexists _, _|]. unfold redis.
  set (cmd := saveDestinationCapabilityScript _ _ _ _ _ _ _). cbn [w_redis].
  pose proof (redis_do_law _ cmd (w_redis w)) as Hdo.
  destruct (redis_do cmd (w_redis w)) as [s r]. cbn [fst snd set_redis w_redis] in *.
  intros Hlive.
  assert (Hl : live (rs_ms s) (mkEntry (RHash h) t) = true) by (by destruct r).
  assert (Hc : cmd (rs_ms s) (rs_db (w_redis w)) = (rs_db (w_redis w), Ok 0)).
  { eapply saveScript_stale; eauto. unfold find. by rewrite Hkey, Hl. }
  rewrite Hc in Hdo. destruct Hdo as [E|(e & -> & _ & E)].
  - injection E as E ->. eexists _, _. split; [reflexivity|]. done.
  - eexists _, _. split; [reflexivity|]. cbn. destruct E as [E|E]; by rewrite E.
Qed.

(** The three answers the planner has for a loaded capability. *)
Definition planVerdict (cap : DestinationCapability) : result unit :=
  mapErr (errorWrap "invalid cached destination capability: ") (capabilityValidate cap).
Definition planCached (scope origin : string) (cap : DestinationCapability) : result NegotiationPlan :=
  Ok (mkPlan origin scope (capProfile cap) "" NegotiationReasonCachedCapability).
Definition planUnknown (scope origin : string) : result NegotiationPlan :=
  Ok (if scope =s DestinationScopeFetch
      then mkPlan origin scope ProfileRFC9421 ProfileLegacy NegotiationReasonUnknownFetchProbe
      else mkPlan origin scope ProfileLegacy "" NegotiationReasonUnknownDeliveryLegacy).

(** Judging a loaded capability reads the clock only. *)
Lemma judge_redis {S} `{Redis S} (cap : DestinationCapability) (v : result unit)
    (p q : result NegotiationPlan) (w : World S) :
  w_redis ((now ← timeNow; fresh ← Fresh cap now;
            if (fresh : bool) then (_ ←! mret v; mret p) else mret q) w).1 = w_redis w.
Proof.
  unfold timeNow, Fresh, bindErr, mbind, M_bind, mret, M_ret.
  destruct (IsZero _); unfold timeNow; destruct (After _ _); cbn; by destruct v.
Qed.

Section endToEnd.
Context {S : Type} `{RedisReliable S}.
Context (prefix : string) (pos neg : Duration) (scope destination origin : string).
Context (Hpos : Hour ≤ pos) (Hscope : scopeValidate scope = Ok tt)
  (Hn : NormalizeDestinationOrigin destination = Ok origin)
  (Hn2 : NormalizeDestinationOrigin origin = Ok origin).

(** A dual-mode negotiator over the Redis store. *)
Definition redisNegotiator : DestinationNegotiator S :=
  mkNegotiator (Some (RedisDestinationCapabilityStore prefix)) pos neg timeNow.
Abbreviation ng := redisNegotiator.
Abbreviation plan w := (Plan (Some ng) ProfileDual scope destination w).

(** One observation of a successful RFC 9421 request, then the next plan for the destination. *)
Definition observeThenPlan : M (World S) (result NegotiationPlan) :=
  _ ← ObserveRFC9421Success ng scope destination CapabilityEvidenceSuccessfulRFC9421;
  Plan (Some ng) ProfileDual scope destination.

(** The capability the observation at time [t] makes. *)
Definition positiveCapability (t : Time) : DestinationCapability :=
  mkCapability origin scope ProfileRFC9421 CapabilityEvidenceSuccessfulRFC9421 t (t + pos).

Lemma positive_ms t : UnixMilli t < UnixMilli (t + pos).
Proof.
  unfold UnixMilli, Hour, Minute, Second, Millisecond in *.
  apply Z.lt_le_trans with (t / 1000000 + 1); [lia|].
  rewrite <- Z.div_add by lia. apply Z.div_le_mono; lia.
Qed.

Lemma positive_valid t : UnixMilli t ≠ UnixMilli zeroTime →
  capabilityValidate (positiveCapability t) = Ok tt
  ∧ capabilityValidate (truncated (positiveCapability t)) = Ok tt.
Proof.
  intros Hz. assert (Hv : capabilityValidate (positiveCapability t) = Ok tt).
  { unfold capabilityValidate, positiveCapability. cbn [capOrigin capScope capProfile capEvidence].
    rewrite Hn2. cbn [mbind result_bind]. rewrite eqs_refl. cbn [negb]. rewrite Hscope.
    cbn [mbind result_bind].
    change (negb (oneOf ProfileRFC9421 [ProfileLegacy; ProfileRFC9421])) with false. cbn iota.
    change (evidenceValidate CapabilityEvidenceSuccessfulRFC9421 ProfileRFC9421) with (Ok (A := unit) tt).
    cbn [mbind result_bind ObservedAt ExpiresAt].
    replace (IsZero t) with false by (symmetry; apply Z.eqb_neq; intros E; apply Hz; by rewrite E).
    unfold After. rewrite (proj2 (Z.ltb_lt _ _)); [done|]. unfold Hour, Minute, Second in *. lia. }
  split; [done|]. apply truncated_valid; [done|apply positive_ms|done].
Qed.

Lemma observe_is_save (w : World S) :
  let c := positiveCapability (w_clock w (w_ticks w)) in
  capabilityValidate c = Ok tt →
  ObserveRFC9421Success ng scope destination CapabilityEvidenceSuccessfulRFC9421 w
  = bindErr (saveCapability prefix c) (λ saved, mret (Ok (c, saved))) (timeNow w).1.
Proof.
  intros c Hv. unfold ObserveRFC9421Success. cbn [redisNegotiator positiveTTL]. rewrite eqs_refl.
  cbn [negb andb]. unfold saveObservation. cbn [redisNegotiator ngStore ngNow].
  unfold bindErr at 1 2 3, mbind at 1 2 3, M_bind at 1 2 3.
  unfold mret at 1 2 3, M_ret at 1 2 3. rewrite Hscope.
  change (evidenceValidate CapabilityEvidenceSuccessfulRFC9421 ProfileRFC9421) with (Ok (A := unit) tt).
  cbn iota. rewrite Hn. unfold mbind at 1, M_bind at 1, timeNow at 1.
  fold (positiveCapability (w_clock w (w_ticks w))). fold c. rewrite Hv. reflexivity.
Qed.

(** In dual mode a plan is the judgement of what the store loads. *)
Lemma plan_is_judged_load (w : World S) : plan w =
  match loadCapability prefix scope origin w with
  | (w', Done (Ok (Some cap))) =>
      (now ← timeNow; fresh ← Fresh cap now;
       if (fresh : bool) then (_ ←! mret (planVerdict cap); mret (planCached scope origin cap))
       else mret (planUnknown scope origin)) w'
  | (w', Done (Ok None)) => (w', Done (planUnknown scope origin))
  | (w', Done (Err e)) => (w', Done (Err e))
  | (w', Panic m) => (w', Panic m)
  end.
Proof.
  unfold Plan. cbn [redisNegotiator ngStore ngNow]. unfold bindErr, mbind, M_bind, mret, M_ret.
  rewrite Hscope, Hn. change (ProfileDual =s ProfileLegacy) with false.
  change (ProfileDual =s ProfileRFC9421) with false. rewrite eqs_refl. cbn [negb].
  cbn [RedisDestinationCapabilityStore LoadDestinationCapability].
  by destruct (loadCapability prefix scope origin w) as [w' [[[cap|]|e]|m]].
Qed.

Lemma plan_redis (w : World S) :
  w_redis (plan w).1 = w_redis (loadCapability prefix scope origin w).1.
Proof.
  rewrite plan_is_judged_load.
  destruct (loadCapability prefix scope origin w) as [w' [[[cap|]|e]|m]]; try done.
  apply judge_redis.
Qed.

Lemma load_clock (w : World S) : rs_ms (w_redis w) ≤ rs_ms (w_redis (loadCapability prefix scope origin w).1).
Proof.
  unfold loadCapability, bindErr, mbind, M_bind, mret, M_ret.
  destruct (scopeValidate scope); [|done]. destruct (NormalizeDestinationOrigin origin); [|done].
  destruct (negb _); [done|]. unfold redis.
  pose proof (redis_do_clock _ (HGETALL (capabilityKey prefix scope origin)) (w_redis w)) as Hk.
  by destruct (redis_do _ _) as [s' [v|e]].
Qed.

(** A stored live capability decides the plan. *)
Lemma plan_uses_stored (w : World S) t :
  let c := positiveCapability t in
  capabilityValidate (truncated c) = Ok tt → msFits t → msFits (t + pos) →
  db_keys (rs_db (w_redis w)) !! capabilityKey prefix scope origin
    = Some (mkEntry (RHash (capabilityHash c ∅)) (Some (UnixMilli (t + pos)))) →
  rs_ms (w_redis (plan w).1) < UnixMilli (t + pos) →
  IsZero (w_clock w (w_ticks w)) = false →
  After (timeUnixMilli (UnixMilli (t + pos))) (w_clock w (w_ticks w)) = true →
  (plan w).2 = Done (Ok (mkPlan origin scope ProfileRFC9421 "" NegotiationReasonCachedCapability)).
Proof.
  intros c Hvt Ho He Hdb Hms Hz Hf. rewrite plan_redis in Hms.
  destruct (loadCapability_run prefix c w Hvt Ho He Hdb Hms) as (E & _ & Hc3 & Hc4).
  cbn [c positiveCapability capScope capOrigin] in E. fold c in E. rewrite plan_is_judged_load, E.
  cbn [c positiveCapability capScope capOrigin] in Hc3, Hc4.
  unfold timeNow, Fresh, mbind, M_bind, mret, M_ret. rewrite Hc3, Hc4, Hz.
  change (ExpiresAt (truncated c)) with (timeUnixMilli (UnixMilli (t + pos))). rewrite Hf.
  unfold planVerdict. rewrite Hvt. done.
Qed.

(** in dual mode, a successful RFC 9421 request makes the next plan for the same origin and
    scope use RFC 9421 from the cached capability, deliveries included, until it expires. *)
Theorem observed_success_is_used (w : World S)
    (Hkey : db_keys (rs_db (w_redis w)) !! capabilityKey prefix scope origin = None) :
  let t i := w_clock w (w_ticks w + i)%nat in
  let expires := t 0%nat + pos in
  msFits (t 0%nat) → msFits expires → UnixMilli (t 0%nat) ≠ UnixMilli zeroTime →
  After expires (t 1%nat) = true →
  IsZero (t 2%nat) = false → After (timeUnixMilli (UnixMilli expires)) (t 2%nat) = true →
  rs_ms (w_redis (observeThenPlan w).1) < UnixMilli expires →
  (observeThenPlan w).2 =
    Done (Ok (mkPlan origin scope ProfileRFC9421 "" NegotiationReasonCachedCapability)).
Proof.
  intros t expires Ho He Hz Ht1 Hz2 Ht2.
  set (c := positiveCapability (t 0%nat)). destruct (positive_valid _ Hz) as [Hv Hvt].
  assert (Ht0 : w_clock w (w_ticks w) = t 0%nat) by (unfold t; by rewrite Nat.add_0_r).
  set (w0 := (timeNow w).1).
  assert (HE : observeThenPlan w = match saveCapability prefix c w0 with
    | (w', Done _) => plan w' | (w', Panic m) => (w', Panic m) end).
  { unfold observeThenPlan, mbind at 1, M_bind at 1.
    rewrite observe_is_save by (by rewrite Ht0). rewrite Ht0. fold c w0.
    unfold bindErr, mbind, M_bind. by destruct (saveCapability prefix c w0) as [? [[]|]]. }
  rewrite HE. clear HE.
  pose proof (saveCapability_run prefix c w0 Hv Hkey) as Hsave. cbv zeta in Hsave.
  destruct (saveCapability prefix c w0) as [w1 o1]. cbn [fst] in Hsave.
  assert (Hck : w_clock w0 (w_ticks w0) = t 1%nat) by (unfold w0, t; cbn; by rewrite Nat.add_1_r).
  rewrite Hck in Hsave. specialize (Hsave Ht1).
  assert (Hms1 : rs_ms (w_redis (match o1 with Done _ => plan w1 | Panic m => (w1, Panic m) end).1)
    < UnixMilli expires → rs_ms (w_redis w1) < UnixMilli expires).
  { destruct o1; [|done]. intros Hlt. rewrite plan_redis in Hlt. pose proof (load_clock w1). lia. }
  intros Hms. destruct (Hsave (Hms1 Hms)) as (E & Hdb & Hc1 & Hc2). injection E as ->.
  assert (Hclk : w_clock w1 (w_ticks w1) = t 2%nat).
  { rewrite Hc1, Hc2. unfold t. cbn. f_equal. lia. }
  apply (plan_uses_stored w1 (t 0%nat)); rewrite ?Hclk; done.
Qed.
End endToEnd.

(** ** Evidence *)

Lemma splitChallenges_join q e cur l :
  Join (splitChallenges q e cur l) "," = ofBytes (rev cur ++ l).
Proof.
  revert q e cur. induction l as [|c l IH]; intros q e cur; [by rewrite app_nil_r|].
  assert (Hpush : ∀ q e, Join (splitChallenges q e (c :: cur) l) "," = ofBytes (rev cur ++ c :: l)).
  { intros q' e'. rewrite IH. cbn [rev]. by rewrite <- app_assoc. }
  assert (Hne : ∀ q e cur, splitChallenges q e cur l ≠ []).
  { clear. induction l as [|a l IH]; intros q e cur; [done|]. cbn [splitChallenges].
    repeat case_match; try done; auto. }
  cbn [splitChallenges]. destruct e; [apply Hpush|].
  destruct (q && bool_decide (c = "\"%char)); [apply Hpush|].
  destruct (decide (c = dquote)); [apply Hpush|].
  destruct (bool_decide (c = ","%char) && negb q) eqn:Ec; [|apply Hpush].
  apply andb_true_iff in Ec as [Ec _]. apply bool_decide_eq_true in Ec as ->.
  specialize (IH q false []). specialize (Hne q false []).
  destruct (splitChallenges q false [] l) as [|x xs]; [done|].
  change (ofBytes (rev cur) +:+ "," +:+ Join (x :: xs) "," = ofBytes (rev cur ++ ","%char :: l)).
  cbn [rev app] in IH. rewrite IH, (ofBytes_app (rev cur)). done.
Qed.

(** Splitting an authentication header at its unquoted commas loses nothing: joining the
    challenges with commas gives the header back. *)
Theorem split_challenges_roundtrip (value : string) :
  Join (splitAuthenticationChallenges value) "," = value.
Proof. unfold splitAuthenticationChallenges. rewrite splitChallenges_join. apply ofBytes_bytes. Qed.

(** A fetch response that is evidence of neither profile: what the GET fallback may act on. *)
Lemma classify_cases r :
  match classifyNegotiationOutcome (Some r) with
  | NegotiationOutcomeExplicitSignatureRejection =>
      (StatusCode r = 401 ∨ StatusCode r = 403)
      ∧ ∃ value challenge f rest, value ∈ headerValues (RespHeader r) "Www-Authenticate"
        ∧ challenge ∈ splitAuthenticationChallenges value
        ∧ Fields (TrimSpace challenge) = f :: rest ∧ EqualFold f "Signature" = true
  | NegotiationOutcomeAmbiguousClientRejection => StatusCode r = 400
  | NegotiationOutcomeSuccess => 200 ≤ StatusCode r < 300
  | NegotiationOutcomeServerFailure => 500 ≤ StatusCode r < 600
  | NegotiationOutcomeTransportFailure => False
  | NegotiationOutcomeOtherFailure => True
  end.
Proof.
  unfold classifyNegotiationOutcome.
  assert (Hq : ∀ k, 0 < k → Z.quot (StatusCode r) 100 = k → 100 * k ≤ StatusCode r < 100 * k + 100).
  { intros k Hk E. destruct (Z_le_gt_dec 0 (StatusCode r)) as [Hs|Hs].
    - rewrite Z.quot_div_nonneg in E by lia.
      pose proof (Z.mul_div_le (StatusCode r) 100). pose proof (Z.mul_succ_div_gt (StatusCode r) 100). lia.
    - pose proof (Z.quot_opp_l (StatusCode r) 100 ltac:(lia)).
      rewrite Z.quot_div_nonneg in H by lia.
      assert (0 ≤ - StatusCode r / 100) by (apply Z.div_pos; lia). lia. }
  destruct (Z.eqb_spec (Z.quot (StatusCode r) 100) 2); [apply Hq in e; lia|].
  destruct (ExplicitLegacySignatureRejection _ _) eqn:E.
  - unfold ExplicitLegacySignatureRejection in E.
    destruct (negb (StatusCode r =? 401) && negb (StatusCode r =? 403)) eqn:Es; [done|].
    split. { apply andb_false_iff in Es as [Es|Es]; apply negb_false_iff, Z.eqb_eq in Es; auto. }
    apply existsb_exists in E as (value & Hv & E). apply existsb_exists in E as (ch & Hc & E).
    unfold challengeIsSignature in E. destruct (Fields (TrimSpace ch)) as [|f rest] eqn:Ef; [done|].
    exists value, ch, f, rest. rewrite !list_elem_of_In. repeat split; try done.

  - destruct (Z.eqb_spec (StatusCode r) 400); [done|].
    destruct (Z.eqb_spec (Z.quot (StatusCode r) 100) 5); [apply Hq in e; lia|done].
Qed.

(** an RFC 9421 GET falls back to the legacy profile only when the response is HTTP 400, or
    is HTTP 401 or 403 with an authentication challenge whose scheme is [Signature]. *)
Theorem fallback_evidence (plan : NegotiationPlan) (r : httpResponse)
    (Hf : ShouldFallback plan (classifyNegotiationOutcome (Some r)) = true) :
  StatusCode r = 400 ∨
  (StatusCode r = 401 ∨ StatusCode r = 403)
  ∧ ∃ value challenge f rest, value ∈ headerValues (RespHeader r) "Www-Authenticate"
      ∧ challenge ∈ splitAuthenticationChallenges value
      ∧ Fields (TrimSpace challenge) = f :: rest ∧ EqualFold f "Signature" = true.
Proof.
  pose proof (classify_cases r) as Hc. unfold ShouldFallback in Hf.
  destruct (_ || _ || _); [done|]. apply orb_true_iff in Hf as [Hf|Hf];
    apply bool_decide_eq_true in Hf; rewrite Hf in Hc; auto.
Qed.

(** A response is taken as an offer of RFC 9421 only when its one dictionary member is the
    relay's label with exactly the components the relay covers for that scope, without
    parameters on them, and every parameter names the relay's own key, algorithm or tag, or asks
    for [created]. *)
Theorem accept_signature_exact (unmarshal : list string → result sfvDictionary)
    (values : list string) (scope key : string)
    (Ha : CompatibleAcceptSignature unmarshal values scope key = true) :
  ∃ items params expected,
    unmarshal values = Ok [(rfc9421SignatureLabel, SfvInnerList items params)]
    ∧ expectedAcceptSignatureComponents scope = Some expected
    ∧ map itemValue items = map SfvString expected
    ∧ Forall (λ i, default [] (itemParams i) = []) items
    ∧ Forall (λ p, p = ("created", SfvBool true) ∨ p = ("alg", SfvString rfc9421RSAAlgorithm)
                   ∨ p = ("keyid", SfvString key) ∨ p = ("tag", SfvString rfc9421SignatureTag))
        (default [] params).
Proof.
  unfold CompatibleAcceptSignature in Ha. destruct (bool_decide _ || _); [done|].
  destruct (expectedAcceptSignatureComponents scope) as [expected|]; [|done].
  destruct (unmarshal values) as [d|]; [|done].
  destruct d as [|[name [i|items params]] [|]]; try done.
  destruct (name =s rfc9421SignatureLabel) eqn:En; [|done]. apply eqs_true in En as ->. cbn in Ha.
  destruct (componentsMatch items expected) eqn:Em; [|done]. cbn in Ha.
  exists items, params, expected. split; [done|]. split; [done|].
  assert (Hi : map itemValue items = map SfvString expected
    ∧ Forall (λ i, default [] (itemParams i) = []) items).
  { clear Ha. revert expected Em. induction items as [|i items IH]; intros [|c expected] Em; try done.
    cbn in Em. destruct i as [[s| | | | |] ps]; try done. cbn in Em.
    destruct (s =s c) eqn:Es; [|done]. apply eqs_true in Es as ->. cbn in Em.
    destruct ps as [[|]|]; try done; destruct (IH _ Em) as [H1 H2]; cbn; (split; [by rewrite H1|by constructor]). }
  destruct Hi as [H1 H2]. split; [done|]. split; [done|].
  destruct params as [ps|]; [|done]. cbn. rewrite forallb_Forall in Ha.
  eapply Forall_impl; [exact Ha|]. intros [n v] Hp. cbn in Hp. unfold acceptParamOk in Hp.
  repeat match type of Hp with (if ?b then _ else _) = true => destruct b eqn:? end;
    try done; destruct v as [s| |b| | |]; try done;
    repeat match goal with E : (_ =s _) = true |- _ => apply eqs_true in E; subst end; auto.
Qed.

(** ** Witnesses *)

Definition demoOrigin : string := "https://relay.example".
Definition demoTime : Time := 1700000000 * Second.
Definition demoCapability : DestinationCapability :=
  mkCapability demoOrigin DestinationScopeDelivery ProfileRFC9421
    CapabilityEvidenceSuccessfulRFC9421 (demoTime + 123) (demoTime + 14 * 24 * Hour).
Definition demoNegWorld (d : db) : World Calm :=
  quietWorld (mkCalm 1700000000000 d) (zeroRelayState false).

Lemma plan_is_safe_witness :
  ∃ w' r, Plan (Some (redisNegotiator (S := Calm) "cap:" (14 * 24 * Hour) (24 * Hour))) ProfileDual
            DestinationScopeFetch "https://Relay.example:443/inbox" (demoNegWorld emptyDb) = (w', Done r)
    ∧ ∀ plan, r = Ok plan →
        planOk ProfileDual DestinationScopeFetch "https://Relay.example:443/inbox" plan.
Proof.
  destruct (plan_is_safe (redisNegotiator (S := Calm) "cap:" (14 * 24 * Hour) (24 * Hour)) ProfileDual
    DestinationScopeFetch "https://Relay.example:443/inbox" (demoNegWorld emptyDb)) as (w' & r & E & Hp & _).
  - reflexivity.
  - intros store [= <-]. apply _.
  - exists w', r. split; [exact E|exact Hp].
Defined.

Lemma capability_save_load_witness :
  (saveThenLoad "cap:" demoCapability (demoNegWorld emptyDb)).2
  = Done (Ok true, Ok (Some (truncated demoCapability))).
Proof.
  apply (capability_save_load "cap:" demoCapability (demoNegWorld emptyDb)).
  - vm_compute. reflexivity.
  - vm_compute. split; reflexivity.
  - vm_compute. split; reflexivity.
  - vm_compute. reflexivity.
  - vm_compute. discriminate.
  - vm_compute. reflexivity.
  - vm_compute. reflexivity.
  - vm_compute. reflexivity.
Defined.

(** A database with a capability observed one second after [demoCapability]. *)
Definition newerHash : gmap string string :=
  capabilityHash (mkCapability demoOrigin DestinationScopeDelivery ProfileLegacy
    CapabilityEvidenceExplicitRFC9421Rejection (demoTime + Second) (demoTime + 24 * Hour)) ∅.
Definition newerDb : db := mkDb {[ capabilityKey "cap:" DestinationScopeDelivery demoOrigin :=
  mkEntry (RHash newerHash) (Some (UnixMilli (demoTime + 24 * Hour))) ]} [].

Lemma capability_never_goes_back_witness :
  ∃ w' r, saveCapability "cap:" demoCapability (demoNegWorld newerDb) = (w', Done r)
    ∧ rs_db (w_redis w') = rs_db (w_redis (demoNegWorld newerDb)) ∧ r ≠ Ok true.
Proof.
  apply (capability_never_goes_back "cap:" demoCapability (demoNegWorld newerDb) newerHash
    (Some (UnixMilli (demoTime + 24 * Hour))) (demoTime + Second)).
  - vm_compute. reflexivity.
  - vm_compute. reflexivity.
  - vm_compute. split; reflexivity.
  - vm_compute. split; reflexivity.
  - vm_compute. discriminate.
  - vm_compute. reflexivity.
Defined.

Lemma observed_success_is_used_witness :
  (observeThenPlan (S := Calm) "cap:" (14 * 24 * Hour) (24 * Hour) DestinationScopeDelivery
     "https://Relay.example:443/inbox" (demoNegWorld emptyDb)).2
  = Done (Ok (mkPlan demoOrigin DestinationScopeDelivery ProfileRFC9421 ""
               NegotiationReasonCachedCapability)).
Proof.
  apply (observed_success_is_used (S := Calm) "cap:" (14 * 24 * Hour) (24 * Hour)
    DestinationScopeDelivery "https://Relay.example:443/inbox" demoOrigin); cbv zeta.
  - vm_compute. discriminate.
  - vm_compute. reflexivity.
  - vm_compute. reflexivity.
  - vm_compute. reflexivity.
  - vm_compute. reflexivity.
  - vm_compute. split; reflexivity.
  - vm_compute. split; reflexivity.
  - vm_compute. discriminate.
  - vm_compute. reflexivity.
  - vm_compute. reflexivity.
  - vm_compute. reflexivity.
  - vm_compute. reflexivity.
Defined.

Definition challengeResponse : httpResponse :=
  mkHttpResponse 401 "401 Unauthorized"
    {[ "Www-Authenticate" := ["Basic realm=x, Signature realm=y"] ]} "" None.

Lemma fallback_evidence_witness :
  StatusCode challengeResponse = 400 ∨
  (StatusCode challengeResponse = 401 ∨ StatusCode challengeResponse = 403)
  ∧ ∃ value challenge f rest,
      value ∈ headerValues (RespHeader challengeResponse) "Www-Authenticate"
      ∧ challenge ∈ splitAuthenticationChallenges value
      ∧ Fields (TrimSpace challenge) = f :: rest ∧ EqualFold f "Signature" = true.
Proof.
  apply (fallback_evidence (mkPlan demoOrigin DestinationScopeFetch ProfileRFC9421 ProfileLegacy
    NegotiationReasonUnknownFetchProbe) challengeResponse).
  vm_compute. reflexivity.
Defined.

Definition demoAccept (values : list string) : result sfvDictionary :=
  Ok [(rfc9421SignatureLabel, SfvInnerList
        (map (λ c, mkSfvItem (SfvString c) None) rfc9421POSTComponents)
        (Some [("created", SfvBool true); ("tag", SfvString "activitypub")]))].

Lemma accept_signature_exact_witness :
  ∃ items params expected,
    demoAccept ["x"] = Ok [(rfc9421SignatureLabel, SfvInnerList items params)]
    ∧ expectedAcceptSignatureComponents DestinationScopeDelivery = Some expected
    ∧ map itemValue items = map SfvString expected
    ∧ Forall (λ i, default [] (itemParams i) = []) items
    ∧ Forall (λ p, p = ("created", SfvBool true) ∨ p = ("alg", SfvString rfc9421RSAAlgorithm)
                   ∨ p = ("keyid", SfvString "k") ∨ p = ("tag", SfvString rfc9421SignatureTag))
        (default [] params).
Proof.
  apply (accept_signature_exact demoAccept ["x"] DestinationScopeDelivery "k").
  vm_compute. reflexivity.
Defined.
