(* ===== verification/Rfc9421.v ===== *)
(** * Inbound RFC 9421 verification (internal/httpsignature)

    [RFC9421Verifier.VerifyPOST] with its parameter policy, Content-Digest check,
    key resolution and nonce reservation (rfc9421_verify.go, rfc9421.go), the Redis
    nonce store (redis_nonce_store.go), and the binding of the verified identity to
    the activity's actor.  The common-fate/httpsig and httpsfv packages and RSA
    verification are parameters; the key resolver and the nonce store are the
    interfaces of the source. *)

From S2P Require Import Prelude GoStrings GoUrl GoTime Sha256 Redis World Negotiation Signer.

Definition DefaultRFC9421MaximumAge : Duration := 5 * Minute.
Definition DefaultRFC9421FutureSkew : Duration := 30 * Second.
Definition DefaultRFC9421ReplayTTL : Duration := 10 * Minute.
Definition maxRFC9421NonceBytes : Z := 256.
Definition ErrRFC9421Replay : error :=
  errorSentinel "ErrRFC9421Replay" "RFC 9421 signature nonce has already been used".

(** [int64] addition of durations. *)
Definition wrap64 (z : Z) : Z := (z + 2 ^ 63) mod 2 ^ 64 - 2 ^ 63.

(** ** Messages, keys, requests *)

(** The signature parameters the sigset package parses. *)
Record signatureInput := mkInput {
  CoveredComponents : list string; KeyID : string; Alg : string; Nonce : string;
  Created : Time; Expires : Time }.
Record signatureMessage := mkMessage { Input : signatureInput; SignatureBytes : string }.

Record RFC9421ResolvedKey (PublicKey : Type) := mkResolved {
  resKeyID : string; resOwner : string; resActorID : string; resPublicKey : option PublicKey }.
Arguments mkResolved {PublicKey} _ _ _ _.
Arguments resKeyID {PublicKey} _.
Arguments resOwner {PublicKey} _.
Arguments resActorID {PublicKey} _.
Arguments resPublicKey {PublicKey} _.

(** An incoming request: the fields the relay reads.  [inBody] is what reading the body gives,
    with a read error. *)
Record inRequest := mkIn {
  inMethod : string; inURL : option URL; inHost : string; inHeader : Header;
  inBody : option (string * option error) }.

Record RFC9421Verification := mkVerification {
  vKeyID : string; vKeyOwner : string; vKeyActor : string; vNonce : string;
  vCreated : Time; vExpires : Time; vCovered : list string; vAlgorithm : string }.

(** ** The parameter policy *)

Fixpoint coverageLoop (covered seen required : list string) : result (list string) :=
  match covered with
  | [] => Ok required
  | component :: covered =>
      if component =s "" then Err (errorsNew "RFC 9421 covered component is empty")
      else if oneOf component seen
      then Err (errorsNew ("RFC 9421 covered component " +:+ quote component +:+ " is duplicated"))
      else coverageLoop covered (component :: seen)
             (List.filter (λ c, negb (c =s component)) required)
  end.

Definition validateRFC9421POSTParameters (covered : list string) (keyID algorithm nonce : string)
    (created expires now : Time) (maximumAge futureSkew : Duration) : result unit :=
  if TrimSpace keyID =s "" then Err (errorsNew "RFC 9421 keyid parameter is required")
  else if negb (algorithm =s rfc9421RSAAlgorithm)
  then Err (errorsNew ("RFC 9421 algorithm " +:+ quote algorithm +:+ " is not allowed"))
  else if nonce =s "" then Err (errorsNew "RFC 9421 nonce parameter is required")
  else if maxRFC9421NonceBytes <? len nonce then Err (errorsNew "RFC 9421 nonce exceeds 256 bytes")
  else if IsZero created then Err (errorsNew "RFC 9421 created parameter is required")
  else if Before created (now + - maximumAge)
  then Err (errorsNew "RFC 9421 signature is older than the allowed maximum age")
  else if After created (now + futureSkew)
  then Err (errorsNew "RFC 9421 signature was created too far in the future")
  else if negb (IsZero expires) && Before expires created
  then Err (errorsNew "RFC 9421 expires precedes created")
  else if negb (IsZero expires) && Before expires now
  then Err (errorsNew "RFC 9421 signature has expired")
  else
    required ← coverageLoop covered [] rfc9421POSTComponents;
    match List.filter (λ c, oneOf c required) rfc9421POSTComponents with
    | component :: _ =>
        Err (errorsNew ("RFC 9421 required covered component " +:+ quote component +:+ " is missing"))
    | [] => Ok tt
    end.

(** [VerifyRFC9530ContentDigestSHA256]; [unmarshal] is [httpsfv.UnmarshalDictionary]. *)
Definition VerifyRFC9530ContentDigestSHA256 (unmarshal : list string → result sfvDictionary)
    (values : list string) (body : string) : result unit :=
  match values with
  | [] => Err (errorsNew "Content-Digest field is missing")
  | _ =>
      dictionary ← mapErr (errorWrap "parse Content-Digest structured field: ") (unmarshal values);
      match sfvGet dictionary "sha-256" with
      | None => Err (errorsNew "Content-Digest has no sha-256 member")
      | Some (SfvInnerList _ _) => Err (errorsNew "Content-Digest sha-256 member is not an item")
      | Some (SfvItemMember item) =>
          match itemValue item with
          | SfvBytes presented =>
              if decide (presented = sum256 (bytes body)) then Ok tt
              else Err (errorsNew "Content-Digest sha-256 value does not match message content")
          | _ => Err (errorsNew "Content-Digest sha-256 member is not a byte sequence")
          end
      end
  end.

(** [cloneRFC9421Request]: the request as it was on the wire of the public origin. *)
Definition cloneRFC9421Request (request : inRequest) (u : URL) (body scheme authority : string) : inRequest :=
  mkIn (inMethod request)
    (Some (mkURL scheme (Opaque u) (User u) authority (Path u) (RawPath u) (OmitHost u)
             (ForceQuery u) (RawQuery u) (Fragment u) (RawFragment u)))
    authority (inHeader request) (Some (body, None)).

(** ** Identity *)

Definition canonicalRFC9421ActorIdentity (value : string) : result string :=
  parsed ← url_ParseRequestURI (TrimSpace value);
  if (Scheme parsed =s "") || (Host parsed =s "")
  then Err (errorsNew "actor identity URL is not absolute")
  else match User parsed with
  | Some _ => Err (errorsNew "actor identity URL contains user information")
  | None =>
      if negb (Fragment parsed =s "") then Err (errorsNew "actor identity URL contains a fragment")
      else Ok (URL_String (mkURL (ToLower (Scheme parsed)) (Opaque parsed) None (ToLower (Host parsed))
                 (Path parsed) (RawPath parsed) (OmitHost parsed) (ForceQuery parsed)
                 (RawQuery parsed) (Fragment parsed) (RawFragment parsed)))
  end.

Definition BindActivityActor (verification : option RFC9421Verification) (activityActor : string) : result unit :=
  match verification with
  | None => Err (errorsNew "RFC 9421 verification result is nil")
  | Some v =>
      activityIdentity ← mapErr (errorWrap "invalid activity actor identity: ")
                           (canonicalRFC9421ActorIdentity activityActor);
      ownerIdentity ← mapErr (errorWrap "invalid public-key owner identity: ")
                        (canonicalRFC9421ActorIdentity (vKeyOwner v));
      if negb (ownerIdentity =s activityIdentity)
      then Err (errorsNew "RFC 9421 public-key owner does not match activity actor")
      else if TrimSpace (vKeyActor v) =s "" then Ok tt
      else
        keyActorIdentity ← mapErr (errorWrap "invalid resolved key actor identity: ")
                             (canonicalRFC9421ActorIdentity (vKeyActor v));
        if negb (keyActorIdentity =s activityIdentity)
        then Err (errorsNew "RFC 9421 resolved key actor does not match activity actor")
        else Ok tt
  end.

(** ** The verifier *)

Section verifier.
Context {S : Type} `{Redis S}.
Context {PublicKey Base : Type}.
Abbreviation Mw := (M (World S)).

Definition RFC9421KeyResolver : Type := string → Mw (result (RFC9421ResolvedKey PublicKey)).
Definition RFC9421NonceStore : Type := string → string → Duration → Mw (result bool).

(** common-fate/httpsig: parsing the signature fields, selecting by tag, deriving and printing the
    signature base, RSA verification. *)
Record SigLib := mkSigLib {
  sigset_Unmarshal : inRequest → result (list (string * signatureMessage));
  sigset_Find : list (string * signatureMessage) → string → result signatureMessage;
  sigbase_Derive : signatureInput → inRequest → result Base;
  CanonicalString : Base → signatureInput → result string;
  rsaVerify : PublicKey → string → string → result unit;
  sfvUnmarshal : list string → result sfvDictionary }.
Context (lib : SigLib).

Record RFC9421VerifierOptions := mkVOptions {
  voScheme : string; voAuthority : string; voKeyResolver : option RFC9421KeyResolver;
  voNonceStore : option RFC9421NonceStore; voMaximumAge : Duration; voFutureSkew : Duration;
  voReplayTTL : Duration; voNow : option (Mw Time) }.
Record RFC9421Verifier := mkVerifier {
  vfScheme : string; vfAuthority : string; vfKeyResolver : RFC9421KeyResolver;
  vfNonceStore : RFC9421NonceStore; vfMaximumAge : Duration; vfFutureSkew : Duration;
  vfReplayTTL : Duration; vfNow : Mw Time }.

Definition NewRFC9421Verifier (options : RFC9421VerifierOptions) : result RFC9421Verifier :=
  let scheme := ToLower (TrimSpace (voScheme options)) in
  if negb (scheme =s "http") && negb (scheme =s "https")
  then Err (errorsNew ("RFC 9421 verifier scheme " +:+ quote scheme +:+ " is unsupported"))
  else
    let authority := TrimSpace (voAuthority options) in
    if authority =s "" then Err (errorsNew "RFC 9421 verifier authority is empty")
    else match voKeyResolver options with
    | None => Err (errorsNew "RFC 9421 key resolver is nil")
    | Some resolver =>
        match voNonceStore options with
        | None => Err (errorsNew "RFC 9421 nonce store is nil")
        | Some store =>
            let maximumAge := if voMaximumAge options =? 0 then DefaultRFC9421MaximumAge
                              else voMaximumAge options in
            if maximumAge <? Second
            then Err (errorsNew "RFC 9421 maximum age must be at least one second")
            else
              let futureSkew := if voFutureSkew options =? 0 then DefaultRFC9421FutureSkew
                                else voFutureSkew options in
              if futureSkew <? 0 then Err (errorsNew "RFC 9421 future skew cannot be negative")
              else
                let replayTTL := if voReplayTTL options =? 0 then DefaultRFC9421ReplayTTL
                                 else voReplayTTL options in
                if replayTTL <? wrap64 (maximumAge + futureSkew)
                then Err (errorsNew "RFC 9421 replay TTL must cover maximum age and future skew")
                else Ok (mkVerifier scheme authority resolver store maximumAge futureSkew replayTTL
                           (default timeNow (voNow options)))
        end
    end.

(** The checks of the request line and of the signature fields, before any key is resolved. *)
Definition selectMessage (verifier : RFC9421Verifier) (request : inRequest)
    : result (URL * signatureMessage) :=
  match inURL request with
  | None => Err (errorsNew "RFC 9421 request or URL is nil")
  | Some u =>
      if negb (inMethod request =s "POST")
      then Err (errorsNew ("RFC 9421 method " +:+ quote (inMethod request)
                           +:+ " is not allowed for ActivityPub delivery"))
      else
        let wireAuthority := if inHost request =s "" then Host u else inHost request in
        if negb (wireAuthority =s vfAuthority verifier)
        then Err (errorsNew ("RFC 9421 request authority " +:+ quote wireAuthority
                             +:+ " does not match expected " +:+ quote (vfAuthority verifier)))
        else
          set ← mapErr (errorWrap "parse RFC 9421 signature fields: ") (sigset_Unmarshal lib request);
          message ← mapErr (errorWrap "find ActivityPub RFC 9421 signature: ")
                      (sigset_Find lib set rfc9421SignatureTag);
          Ok (u, message)
  end.

(** The signature over the wire form of the request. *)
Definition verifySignature (verifier : RFC9421Verifier) (request : inRequest) (u : URL)
    (body : string) (message : signatureMessage) (key : PublicKey) : result unit :=
  let wireRequest := cloneRFC9421Request request u body (vfScheme verifier) (vfAuthority verifier) in
  base ← mapErr (errorWrap "derive RFC 9421 signature base: ") (sigbase_Derive lib (Input message) wireRequest);
  signingString ← mapErr (errorWrap "serialize RFC 9421 signature base: ")
                    (CanonicalString lib base (Input message));
  mapErr (errorWrap "verify RFC 9421 signature: ") (rsaVerify lib key signingString (SignatureBytes message)).

Definition VerifyPOST (verifier : option RFC9421Verifier) (request : inRequest) (body : string)
    : Mw (result RFC9421Verification) :=
  match verifier with
  | None => mret (Err (errorsNew "RFC 9421 verifier is nil"))
  | Some vf =>
      '(u, message) ←! mret (selectMessage vf request);
      let input := Input message in
      now ← vfNow vf;
      _ ←! mret (validateRFC9421POSTParameters (CoveredComponents input) (KeyID input) (Alg input)
                   (Nonce input) (Created input) (Expires input) now (vfMaximumAge vf) (vfFutureSkew vf));
      _ ←! mret (VerifyRFC9530ContentDigestSHA256 (sfvUnmarshal lib)
                   (headerValues (inHeader request) "Content-Digest") body);
      r ← vfKeyResolver vf (KeyID input);
      resolved ←! mret (mapErr (errorWrap "resolve RFC 9421 key: ") r);
      if negb (resKeyID resolved =s KeyID input)
      then mret (Err (errorsNew "resolved RFC 9421 key ID does not match keyid"))
      else match resPublicKey resolved with
      | None => mret (Err (errorsNew "resolved RFC 9421 RSA public key is nil"))
      | Some key =>
          _ ←! mret (verifySignature vf request u body message key);
          r ← vfNonceStore vf (KeyID input) (Nonce input) (vfReplayTTL vf);
          reserved ←! mret (mapErr (errorWrap "reserve RFC 9421 nonce: ") r);
          if negb reserved then mret (Err ErrRFC9421Replay)
          else mret (Ok (mkVerification (KeyID input) (resOwner resolved) (resActorID resolved)
                           (Nonce input) (Created input) (Expires input) (CoveredComponents input)
                           (Alg input)))
      end
  end.
End verifier.
Arguments SigLib PublicKey Base : clear implicits.
Arguments RFC9421Verifier S PublicKey : clear implicits.

(** ** The Redis nonce store *)

Definition defaultRFC9421NoncePrefix : string := "relay:http-signature:nonce:".
Definition NewRedisRFC9421NonceStore (prefix : string) : string :=
  let prefix := TrimSpace prefix in if prefix =s "" then defaultRFC9421NoncePrefix else prefix.
Definition nonceKey (prefix keyID nonce : string) : string :=
  prefix +:+ sha256Hex (keyID +:+ nul +:+ nonce).
(** The expiry go-redis sends for a positive duration: whole milliseconds, at least one. *)
Definition ttlMs (ttl : Duration) : Z := Z.max 1 (ttl / Millisecond).

Definition ReserveRFC9421Nonce {S} `{Redis S} (prefix keyID nonce : string) (ttl : Duration)
    : M (World S) (result bool) :=
  if TrimSpace keyID =s "" then mret (Err (errorsNew "RFC 9421 nonce reservation key ID is empty"))
  else if nonce =s "" then mret (Err (errorsNew "RFC 9421 nonce reservation nonce is empty"))
  else if ttl <=? 0 then mret (Err (errorsNew "RFC 9421 nonce reservation TTL is not positive"))
  else redis (SETNX (nonceKey prefix keyID nonce) "1" (ttlMs ttl)).
