(* ===== verification/Rfc9421Spec.v ===== *)
(** * Theorems about inbound RFC 9421 verification

    The parameter policy exactly, what a successful verification establishes,
    that the nonce store is consulted last, that a nonce is accepted once in its
    window, and the identity binding. *)

From S2P Require Import Prelude GoStrings GoUrl GoTime Sha256 Redis World Frame Negotiation Signer Rfc9421.

(** ** The parameter policy *)

Lemma coverageLoop_spec covered seen req :
  match coverageLoop covered seen req with
  | Ok r => Forall (λ c, c ≠ "") covered ∧ NoDup covered ∧ Forall (λ c, c ∉ seen) covered
      ∧ ∀ c, c ∈ r ↔ c ∈ req ∧ c ∉ covered
  | Err _ => ¬ (Forall (λ c, c ≠ "") covered ∧ NoDup covered ∧ Forall (λ c, c ∉ seen) covered)
  end.
Proof.
  revert seen req. induction covered as [|c covered IH]; intros seen req; cbn [coverageLoop].
  { repeat split; try constructor; set_solver. }
  destruct (c =s "") eqn:E1.
  { apply eqs_true in E1. rewrite Forall_cons. naive_solver. }
  apply eqs_false in E1. destruct (oneOf c seen) eqn:E2.
  { apply oneOf_true in E2. rewrite !Forall_cons. naive_solver. }
  assert (c ∉ seen) by (intros Hin; apply oneOf_true in Hin; congruence).
  specialize (IH (c :: seen) (List.filter (λ x, negb (x =s c)) req)).
  destruct (coverageLoop covered (c :: seen) _) as [r|e].
  - destruct IH as (H1 & H2 & H3 & H4). rewrite !Forall_cons, NoDup_cons.
    rewrite Forall_forall in H3. split; [done|]. split; [|split].
    + split; [|done]. intros Hin. apply (H3 c Hin). set_solver.
    + split; [done|]. apply Forall_forall. intros x Hx. specialize (H3 x Hx). set_solver.
    + intros x. rewrite H4, list_elem_of_In, filter_In, <- list_elem_of_In.
      rewrite negb_true_iff, eqs_false. set_solver.
  - intros (H1 & H2 & H3). apply IH. rewrite !Forall_cons in *. rewrite NoDup_cons in H2.
    destruct H1 as [_ H1], H2 as [Hn H2], H3 as [_ H3]. split; [done|]. split; [done|].
    rewrite Forall_forall in *. intros x Hx. specialize (H3 x Hx). set_solver.
Qed.

(** The parameter policy, as a condition. *)
Lemma validateParameters_iff (covered : list string) (keyID algorithm nonce : string)
    (created expires now : Time) (maximumAge futureSkew : Duration) :
  validateRFC9421POSTParameters covered keyID algorithm nonce created expires now maximumAge futureSkew
    = Ok tt ↔
  TrimSpace keyID ≠ "" ∧ algorithm = "rsa-v1_5-sha256" ∧ nonce ≠ "" ∧ len nonce ≤ 256
  ∧ IsZero created = false ∧ now - maximumAge ≤ created ≤ now + futureSkew
  ∧ (IsZero expires = false → created ≤ expires ∧ now ≤ expires)
  ∧ (Forall (λ c, c ≠ "") covered ∧ NoDup covered) ∧ rfc9421POSTComponents ⊆ covered.
Proof.
  unfold validateRFC9421POSTParameters, Before, After, maxRFC9421NonceBytes.
  destruct (TrimSpace keyID =s "") eqn:E1; [apply eqs_true in E1; split; [done|naive_solver]|].
  apply eqs_false in E1.
  destruct (algorithm =s rfc9421RSAAlgorithm) eqn:E2; cbn [negb];
    [apply eqs_true in E2|apply eqs_false in E2; split; [done|naive_solver]].
  destruct (nonce =s "") eqn:E3; [apply eqs_true in E3; split; [done|naive_solver]|].
  apply eqs_false in E3.
  destruct (Z.ltb_spec 256 (len nonce)); [split; [done|intros; destruct_and?; lia]|].
  destruct (IsZero created) eqn:E5; [split; [done|intros; destruct_and?; done]|].
  destruct (Z.ltb_spec created (now + - maximumAge)); [split; [done|intros; destruct_and?; lia]|].
  destruct (Z.ltb_spec (now + futureSkew) created); [split; [done|intros; destruct_and?; lia]|].
  assert (Hexp : (negb (IsZero expires) && (expires <? created)) = false
    ∧ (negb (IsZero expires) && (expires <? now)) = false
    ↔ (IsZero expires = false → created ≤ expires ∧ now ≤ expires)).
  { destruct (IsZero expires); cbn [negb andb]; [by split|]. rewrite !Z.ltb_ge. naive_solver. }
  destruct (negb (IsZero expires) && (expires <? created)); [split; [done|naive_solver]|].
  destruct (negb (IsZero expires) && (expires <? now)); [split; [done|naive_solver]|].
  pose proof (coverageLoop_spec covered [] rfc9421POSTComponents) as Hc.
  destruct (coverageLoop covered [] rfc9421POSTComponents) as [r|e]; cbn [mbind result_bind].
  - destruct Hc as (Hne & Hnd & _ & H4).
    assert (Hs : List.filter (λ c, oneOf c r) rfc9421POSTComponents = []
      ↔ rfc9421POSTComponents ⊆ covered).
    { split.
      - intros Hf c Hin. destruct (decide (c ∈ covered)); [done|]. exfalso.
        assert (Hx : c ∈ List.filter (λ c, oneOf c r) rfc9421POSTComponents).
        { apply list_elem_of_In, filter_In. split; [by apply list_elem_of_In|].
          apply oneOf_true, H4. done. }
        rewrite Hf in Hx. set_solver.
      - intros Hsub. destruct (List.filter _ _) as [|c l] eqn:Ef; [done|]. exfalso.
        assert (Hx : c ∈ List.filter (λ c, oneOf c r) rfc9421POSTComponents) by (rewrite Ef; set_solver).
        apply list_elem_of_In, filter_In in Hx as [Hx1 Hx2]. apply oneOf_true, H4 in Hx2 as [_ Hx2].
        apply Hx2, Hsub. by apply list_elem_of_In. }
    destruct (List.filter _ _) as [|c l]; split; try done.
    + intros _. split_and!; try done; try lia; [by apply Hexp|by apply Hs].
    + intros Hall. destruct_and?. exfalso. assert (c :: l = []) by (by apply Hs). done.
  - split; [done|]. intros Hall. destruct_and?. exfalso. apply Hc. split_and!; try done.
    apply Forall_forall. set_solver.
Qed.

(** the signature parameters are accepted exactly when the key ID is not blank, the
    algorithm is RSA with SHA-256, the nonce has 1 to 256 bytes, the creation time is set and
    within the maximum age and the future skew, an expiration (if any) is neither before the
    creation nor past, and the covered components are distinct, not empty, and include all six
    required ones. *)
Theorem parameters_policy (covered : list string) (keyID algorithm nonce : string)
    (created expires now : Time) (maximumAge futureSkew : Duration) :
  validateRFC9421POSTParameters covered keyID algorithm nonce created expires now maximumAge futureSkew
    = Ok tt ↔
  TrimSpace keyID ≠ "" ∧ algorithm = "rsa-v1_5-sha256" ∧ nonce ≠ "" ∧ len nonce ≤ 256
  ∧ IsZero created = false ∧ now - maximumAge ≤ created ≤ now + futureSkew
  ∧ (IsZero expires = false → created ≤ expires ∧ now ≤ expires)
  ∧ (Forall (λ c, c ≠ "") covered ∧ NoDup covered) ∧ rfc9421POSTComponents ⊆ covered.
Proof. apply validateParameters_iff. Qed.

(** ** Verification *)

Section verifying.
Context {S : Type} `{Redis S} {PublicKey Base : Type}.
Context (lib : SigLib PublicKey Base) (vf : RFC9421Verifier S PublicKey).
Context (request : inRequest) (body : string).

(** Everything that must hold of a request before its nonce is reserved. *)
Record verifiedUpToNonce (now : Time) (message : signatureMessage)
    (resolved : RFC9421ResolvedKey PublicKey) : Prop := {
  vn_method : inMethod request = "POST";
  vn_message : ∃ u, inURL request = Some u ∧ selectMessage lib vf request = Ok (u, message)
    ∧ (if inHost request =s "" then Host u else inHost request) = vfAuthority vf
    ∧ ∃ key, resPublicKey resolved = Some key
        ∧ verifySignature lib vf request u body message key = Ok tt;
  vn_params : validateRFC9421POSTParameters (CoveredComponents (Input message)) (KeyID (Input message))
    (Alg (Input message)) (Nonce (Input message)) (Created (Input message)) (Expires (Input message))
    now (vfMaximumAge vf) (vfFutureSkew vf) = Ok tt;
  vn_digest : ∃ d item, sfvUnmarshal lib (headerValues (inHeader request) "Content-Digest") = Ok d
    ∧ sfvGet d "sha-256" = Some (SfvItemMember item)
    ∧ itemValue item = SfvBytes (sum256 (bytes body));
  vn_key : resKeyID resolved = KeyID (Input message)
}.

Lemma digest_ok values : VerifyRFC9530ContentDigestSHA256 (sfvUnmarshal lib) values body = Ok tt →
  ∃ d item, sfvUnmarshal lib values = Ok d ∧ sfvGet d "sha-256" = Some (SfvItemMember item)
    ∧ itemValue item = SfvBytes (sum256 (bytes body)).
Proof.
  unfold VerifyRFC9530ContentDigestSHA256. destruct values as [|v values]; [done|].
  destruct (sfvUnmarshal lib _) as [d|]; [|done]. cbn [mapErr mbind result_bind].
  destruct (sfvGet d "sha-256") as [[item|]|] eqn:Eg; try done.
  destruct (itemValue item) eqn:E; try done. case_decide; [subst|done]. intros _. by exists d, item.
Qed.

Lemma selectMessage_ok u message : selectMessage lib vf request = Ok (u, message) →
  inURL request = Some u ∧ inMethod request = "POST"
  ∧ (if inHost request =s "" then Host u else inHost request) = vfAuthority vf.
Proof.
  unfold selectMessage. destruct (inURL request) as [u'|]; [|done].
  destruct (inMethod request =s "POST") eqn:E1; [|done]. apply eqs_true in E1. cbn [negb].
  set (a := if inHost request =s "" then Host u' else inHost request).
  destruct (a =s vfAuthority vf) eqn:E2; [|done]. apply eqs_true in E2. cbn [negb].
  destruct (sigset_Unmarshal lib request); [|done]. cbn [mapErr mbind result_bind].
  destruct (sigset_Find lib _ _); [|done]. cbn. intros [= <- <-]. done.
Qed.

(** The verifier with another nonce store. *)
Definition withNonceStore (store : RFC9421NonceStore) : RFC9421Verifier S PublicKey :=
  mkVerifier (vfScheme vf) (vfAuthority vf) (vfKeyResolver vf) store (vfMaximumAge vf)
    (vfFutureSkew vf) (vfReplayTTL vf) (vfNow vf).

(** What [VerifyPOST] does up to the nonce, and with it. *)
Definition beforeNonce : M (World S) (result (signatureMessage * RFC9421ResolvedKey PublicKey)) :=
  '(u, message) ←! mret (selectMessage lib vf request);
  let input := Input message in
  now ← vfNow vf;
  _ ←! mret (validateRFC9421POSTParameters (CoveredComponents input) (KeyID input) (Alg input)
               (Nonce input) (Created input) (Expires input) now (vfMaximumAge vf) (vfFutureSkew vf));
  _ ←! mret (VerifyRFC9530ContentDigestSHA256 (sfvUnmarshal lib)
               (headerValues (inHeader request) "Content-Digest") body);
  r ← vfKeyResolver vf (KeyID input);
  resolved ←! mret (mapErr (errorWrap "resolve RFC 9421 key: ") r);
  if negb (resKeyID resolved =s KeyID input)
  then mret (Err (errorsNew "resolved RFC 9421 key ID does not match keyid"))
  else match resPublicKey resolved with
  | None => mret (Err (errorsNew "resolved RFC 9421 RSA public key is nil"))
  | Some key => _ ←! mret (verifySignature lib vf request u body message key);
                mret (Ok (message, resolved))
  end.
Definition nonceStage (store : RFC9421NonceStore) (message : signatureMessage)
    (resolved : RFC9421ResolvedKey PublicKey) : M (World S) (result RFC9421Verification) :=
  r ← store (KeyID (Input message)) (Nonce (Input message)) (vfReplayTTL vf);
  reserved ←! mret (mapErr (errorWrap "reserve RFC 9421 nonce: ") r);
  if negb reserved then mret (Err ErrRFC9421Replay)
  else mret (Ok (mkVerification (KeyID (Input message)) (resOwner resolved) (resActorID resolved)
         (Nonce (Input message)) (Created (Input message)) (Expires (Input message))
         (CoveredComponents (Input message)) (Alg (Input message)))).

Lemma VerifyPOST_stages store w :
  VerifyPOST lib (Some (withNonceStore store)) request body w
  = bindErr beforeNonce (λ '(message, resolved), nonceStage store message resolved) w.
Proof.
  unfold VerifyPOST, beforeNonce, bindErr, mbind, M_bind, mret, M_ret.
  change (selectMessage lib (withNonceStore store) request) with (selectMessage lib vf request).
  destruct (selectMessage lib vf request) as [[u message]|e]; [|done]. cbn [vfNow withNonceStore].
  destruct (vfNow vf w) as [w1 [now|m]]; [|done]. cbn [vfMaximumAge vfFutureSkew withNonceStore].
  destruct (validateRFC9421POSTParameters _ _ _ _ _ _ _ _ _); [|done].
  destruct (VerifyRFC9530ContentDigestSHA256 _ _ _); [|done]. cbn [vfKeyResolver withNonceStore].
  destruct (vfKeyResolver vf _ w1) as [w2 [[resolved|e]|m]]; [|done|done]. cbn [mapErr].
  destruct (negb _); [done|]. destruct (resPublicKey resolved) as [key|]; [|done].
  change (verifySignature lib (withNonceStore store) request u body message key)
    with (verifySignature lib vf request u body message key).
  destruct (verifySignature _ _ _ _ _ _ _); done.
Qed.

Lemma beforeNonce_ok w w' message resolved :
  beforeNonce w = (w', Done (Ok (message, resolved))) →
  ∃ w1 now, vfNow vf w = (w1, Done now)
    ∧ vfKeyResolver vf (KeyID (Input message)) w1 = (w', Done (Ok resolved))
    ∧ verifiedUpToNonce now message resolved.
Proof.
  unfold beforeNonce, bindErr, mbind, M_bind, mret, M_ret.
  destruct (selectMessage lib vf request) as [[u m]|e] eqn:Em; [|done].
  destruct (vfNow vf w) as [w1 [now|]]; [|done].
  destruct (validateRFC9421POSTParameters _ _ _ _ _ _ _ _ _) as [[]|] eqn:Ev; [|done].
  destruct (VerifyRFC9530ContentDigestSHA256 _ _ _) as [[]|] eqn:Ed; [|done].
  destruct (vfKeyResolver vf _ w1) as [w2 [[res|e]|]] eqn:Ek; [|done|done]. cbn [mapErr].
  destruct (resKeyID res =s KeyID (Input m)) eqn:Eid; [|done]. apply eqs_true in Eid. cbn [negb].
  destruct (resPublicKey res) as [key|] eqn:Epk; [|done].
  destruct (verifySignature _ _ _ _ _ _ _) as [[]|] eqn:Es; [|done].
  intros [= <- <- <-]. exists w1, now. split; [done|]. split; [done|].
  destruct (selectMessage_ok _ _ Em) as (Hu & Hm & Ha). split; eauto 8 using digest_ok.
Qed.
End verifying.

Lemma withNonceStore_self {S} `{Redis S} {PublicKey} (vf : RFC9421Verifier S PublicKey) :
  withNonceStore vf (vfNonceStore vf) = vf.
Proof. by destruct vf. Qed.

Section soundness.
Context {S : Type} `{Redis S} {PublicKey Base : Type}.
Context (lib : SigLib PublicKey Base).

Lemma VerifyPOST_ok (vf : RFC9421Verifier S PublicKey) request body w w' v :
  VerifyPOST lib (Some vf) request body w = (w', Done (Ok v)) →
  ∃ w1 now w2 message resolved,
    vfNow vf w = (w1, Done now)
    ∧ vfKeyResolver vf (KeyID (Input message)) w1 = (w2, Done (Ok resolved))
    ∧ verifiedUpToNonce lib vf request body now message resolved
    ∧ vfNonceStore vf (KeyID (Input message)) (Nonce (Input message)) (vfReplayTTL vf) w2
      = (w', Done (Ok true))
    ∧ v = mkVerification (KeyID (Input message)) (resOwner resolved) (resActorID resolved)
            (Nonce (Input message)) (Created (Input message)) (Expires (Input message))
            (CoveredComponents (Input message)) (Alg (Input message)).
Proof.
  intros E. rewrite <- (withNonceStore_self vf) in E at 1. rewrite VerifyPOST_stages in E.
  unfold bindErr, mbind, M_bind in E.
  destruct (beforeNonce lib vf request body w) as [w2 [[[message resolved]|e]|m]] eqn:Eb; [|done|done].
  destruct (beforeNonce_ok _ _ _ _ _ _ _ _ Eb) as (w1 & now & En & Ek & Hv).
  unfold nonceStage, bindErr, mbind, M_bind, mret, M_ret in E.
  destruct (vfNonceStore vf _ _ _ w2) as [w3 [[[]|e]|m]] eqn:Es; try done. cbn in E.
  injection E as -> <-. by exists w1, now, w2, message, resolved.
Qed.

(** C3: a request that passes verification was a POST to the relay's own authority with a
    message tagged for ActivityPub whose parameters satisfy the policy at the time the verifier's clock
    gave in this run, a Content-Digest holding the SHA-256 of exactly the body read, a key that
    the verifier's resolver returned in this run for the message's key ID, under which the
    signature over the wire request verifies, and a nonce that the nonce store reserved as
    the last step of the run; the result carries the identity of that key and the parameters of
    that message. *)
Theorem verification_is_sound (vf : RFC9421Verifier S PublicKey) (request : inRequest) (body : string)
    (w w' : World S) (v : RFC9421Verification)
    (Hok : VerifyPOST lib (Some vf) request body w = (w', Done (Ok v))) :
  ∃ w1 now w2 message resolved,
    vfNow vf w = (w1, Done now)
    ∧ vfKeyResolver vf (KeyID (Input message)) w1 = (w2, Done (Ok resolved))
    ∧ verifiedUpToNonce lib vf request body now message resolved
    ∧ vfNonceStore vf (KeyID (Input message)) (Nonce (Input message)) (vfReplayTTL vf) w2 = (w', Done (Ok true))
    ∧ v = mkVerification (KeyID (Input message)) (resOwner resolved) (resActorID resolved)
            (Nonce (Input message)) (Created (Input message)) (Expires (Input message))
            (CoveredComponents (Input message)) (Alg (Input message)).
Proof. exact (VerifyPOST_ok vf request body w w' v Hok). Qed.

(** The nonce store is consulted only after the parameters, the body digest, the key and the
    signature were all verified: if two verifiers that differ in their nonce store alone end
    differently on a request, everything else of that request was verified. *)
Theorem nonce_store_consulted_last (vf : RFC9421Verifier S PublicKey) (request : inRequest)
    (body : string) (w : World S) (store store' : RFC9421NonceStore)
    (Hdiff : VerifyPOST lib (Some (withNonceStore vf store)) request body w
             ≠ VerifyPOST lib (Some (withNonceStore vf store')) request body w) :
  ∃ now message resolved, verifiedUpToNonce lib vf request body now message resolved.
Proof.
  rewrite !VerifyPOST_stages in Hdiff. unfold bindErr, mbind, M_bind in Hdiff.
  destruct (beforeNonce lib vf request body w) as [w2 [[[message resolved]|e]|m]] eqn:Eb; [|done|done].
  destruct (beforeNonce_ok _ _ _ _ _ _ _ _ Eb) as (w1 & now & _ & _ & Hv). eauto.
Qed.
End soundness.

(** ** Replay *)

Section replay.
Context {S : Type} `{RedisLaws S} {PublicKey Base : Type}.
Context (lib : SigLib PublicKey Base).

Lemma Reserve_true prefix k n ttl (w w' : World S) :
  ReserveRFC9421Nonce prefix k n ttl w = (w', Done (Ok true)) →
  db_keys (rs_db (w_redis w')) !! nonceKey prefix k n
    = Some (mkEntry (RString "1") (Some (rs_ms (w_redis w') + ttlMs ttl)))
  ∧ find (rs_ms (w_redis w')) (rs_db (w_redis w)) (nonceKey prefix k n) = None
  ∧ rs_ms (w_redis w) ≤ rs_ms (w_redis w').
Proof.
  unfold ReserveRFC9421Nonce. destruct (_ =s ""); [done|]. destruct (n =s ""); [done|].
  destruct (ttl <=? 0); [done|]. unfold redis. intros [= <- Hr]. cbn [w_redis set_redis].
  pose proof (redis_do_Ok _ _ _ Hr) as E.
  pose proof (redis_do_clock _ (SETNX (nonceKey prefix k n) "1" (ttlMs ttl)) (w_redis w)) as Hck.
  destruct (redis_do _ (w_redis w)) as [s r]. cbn [fst] in *. unfold SETNX in E.
  destruct (find (rs_ms s) _ _) as [e|] eqn:Ef; [by injection E|]. injection E as <-.
  split; [by apply lookup_insert_eq|]. done.
Qed.

(** a key ID and nonce that verified once do not verify again within the replay window: with
    the Redis nonce store, if the same pair is accepted a second time (and nothing in between,
    the clock and the key resolver included, removed the stored nonce), the Redis clock has
    moved on by at least the replay TTL. *)
Theorem nonce_accepted_once (prefix : string) (vf : RFC9421Verifier S PublicKey)
    (r1 r2 : inRequest) (b1 b2 : string) (w0 w1 w2 w3 : World S) (v1 v2 : RFC9421Verification)
    (Hstore : vfNonceStore vf = ReserveRFC9421Nonce prefix)
    (Hnow : ∀ w, liveKeysKept prefix w (vfNow vf w).1)
    (Hres : ∀ k w, liveKeysKept prefix w (vfKeyResolver vf k w).1)
    (H1 : VerifyPOST lib (Some vf) r1 b1 w0 = (w1, Done (Ok v1)))
    (Hbetween : liveKeysKept prefix w1 w2)
    (H2 : VerifyPOST lib (Some vf) r2 b2 w2 = (w3, Done (Ok v2)))
    (Hsame : vKeyID v1 = vKeyID v2 ∧ vNonce v1 = vNonce v2) :
  rs_ms (w_redis w1) + ttlMs (vfReplayTTL vf) ≤ rs_ms (w_redis w3).
Proof.
  destruct (VerifyPOST_ok _ _ _ _ _ _ _ H1) as (x1 & n1 & x2 & m1 & res1 & _ & _ & _ & Hr1 & ->).
  destruct (VerifyPOST_ok _ _ _ _ _ _ _ H2) as (y1 & n2 & y2 & m2 & res2 & En & Ek & _ & Hr2 & ->).
  cbn in Hsame. destruct Hsame as [Hk Hn]. rewrite Hstore in Hr1, Hr2.
  rewrite <- Hk, <- Hn in Hr2. apply Reserve_true in Hr1 as (Hdb & _ & _).
  apply Reserve_true in Hr2 as (_ & Hnone & Hms).
  set (e := mkEntry (RString "1") (Some (rs_ms (w_redis w1) + ttlMs (vfReplayTTL vf)))) in *.
  assert (Hkept : liveKeysKept prefix w1 y2).
  { etransitivity; [exact Hbetween|]. etransitivity.
    - specialize (Hnow w2). rewrite En in Hnow. exact Hnow.
    - specialize (Hres (KeyID (Input m2)) y1). rewrite Ek in Hres. exact Hres. }
  destruct (Z.lt_ge_cases (rs_ms (w_redis w3)) (rs_ms (w_redis w1) + ttlMs (vfReplayTTL vf))) as [Hlt|]; [|done].
  exfalso. assert (Hl : live (rs_ms (w_redis y2)) e = true) by (unfold live, e; cbn; apply Z.ltb_lt; lia).
  pose proof (proj2 Hkept _ _ (HasPrefix_app prefix _) Hdb Hl) as Hy. unfold find in Hnone.
  unfold nonceKey in Hy, Hnone. rewrite Hy in Hnone.
  replace (live (rs_ms (w_redis w3)) e) with true in Hnone; [done|].
  symmetry. unfold live, e. cbn. apply Z.ltb_lt. lia.
Qed.
End replay.

(** a verifier that can be built remembers a nonce for as long as its message could be
    accepted: if the same creation time passes the policy at two instants, they are at most the
    replay TTL apart (with durations that do not overflow). *)
Theorem replay_ttl_covers_window {S} `{Redis S} {PublicKey} (options : RFC9421VerifierOptions)
    (vf : RFC9421Verifier S PublicKey) (c1 c2 : list string) (k1 k2 a1 a2 n1 n2 : string)
    (created e1 e2 t1 t2 : Time)
    (Hnew : NewRFC9421Verifier options = Ok vf)
    (Hover : vfMaximumAge vf + vfFutureSkew vf < 2 ^ 63)
    (H1 : validateRFC9421POSTParameters c1 k1 a1 n1 created e1 t1 (vfMaximumAge vf) (vfFutureSkew vf) = Ok tt)
    (H2 : validateRFC9421POSTParameters c2 k2 a2 n2 created e2 t2 (vfMaximumAge vf) (vfFutureSkew vf) = Ok tt) :
  t2 - t1 ≤ vfReplayTTL vf.
Proof.
  apply validateParameters_iff in H1 as (_ & _ & _ & _ & _ & Hw1 & _).
  apply validateParameters_iff in H2 as (_ & _ & _ & _ & _ & Hw2 & _).
  unfold NewRFC9421Verifier in Hnew. cbv zeta in Hnew.
  destruct (negb _ && negb _); [done|]. destruct (_ =s ""); [done|].
  destruct (voKeyResolver options) as [kr|]; [|done]. destruct (voNonceStore options) as [ns|]; [|done].
  set (m := if voMaximumAge options =? 0 then _ else _) in *.
  destruct (Z.ltb_spec m Second); [done|].
  set (f := if voFutureSkew options =? 0 then _ else _) in *.
  destruct (Z.ltb_spec f 0); [done|].
  set (r := if voReplayTTL options =? 0 then _ else _) in *.
  destruct (Z.ltb_spec r (wrap64 (m + f))) as [|Hr]; [done|].
  injection Hnew as <-. cbn [vfMaximumAge vfFutureSkew vfReplayTTL] in *.
  assert (wrap64 (m + f) = m + f).
  { unfold wrap64. unfold Second in *. rewrite Z.mod_small; lia. }
  lia.
Qed.

(** When an activity's actor is bound to a verification, the activity's actor, the owner of
    the verified key and the resolved actor document (when it names one) have the same canonical
    URL. *)
Lemma bindActor_identities (v : RFC9421Verification) (activityActor : string)
    (Hb : BindActivityActor (Some v) activityActor = Ok tt) :
  ∃ identity, canonicalRFC9421ActorIdentity activityActor = Ok identity
    ∧ canonicalRFC9421ActorIdentity (vKeyOwner v) = Ok identity
    ∧ (TrimSpace (vKeyActor v) ≠ "" → canonicalRFC9421ActorIdentity (vKeyActor v) = Ok identity).
Proof.
  unfold BindActivityActor in Hb.
  destruct (canonicalRFC9421ActorIdentity activityActor) as [a|]; [|done]. cbn [mapErr mbind result_bind] in Hb.
  destruct (canonicalRFC9421ActorIdentity (vKeyOwner v)) as [o|]; [|done]. cbn [mapErr mbind result_bind] in Hb.
  destruct (o =s a) eqn:E1; [|done]. apply eqs_true in E1 as ->. cbn [negb] in Hb.
  exists a. split; [done|]. split; [done|]. intros Hne.
  rewrite (proj2 (eqs_false _ _) Hne) in Hb.
  destruct (canonicalRFC9421ActorIdentity (vKeyActor v)) as [k|]; [|done]. cbn [mapErr mbind result_bind] in Hb.
  destruct (k =s a) eqn:E2; [|done]. by apply eqs_true in E2 as ->.
Qed.

Lemma setPath_fragment u p u' : setPath u p = Ok u' → Fragment u' = Fragment u.
Proof. unfold setPath. destruct (unescape p encodePath); [|done]. cbn. by intros [= <-]. Qed.
Lemma parseURL_fragment s b u : parseURL s b = Ok u → Fragment u = "".
Proof.
  unfold parseURL. destruct (existsb isCTL (bytes s)); [done|].
  destruct ((s =s "") && b); [done|]. destruct (s =s "*"); [by intros [= <-]|].
  destruct (getScheme s) as [[scheme rest0]|]; [|done]. cbn [mbind result_bind].
  destruct (Cut rest0 "?") as [[before after] found].
  destruct (if found && _ then _ else _) as [rest q].
  destruct (negb (HasPrefix rest "/") && _); [by intros [= <-]|].
  destruct (negb (HasPrefix rest "/") && b); [done|].
  destruct (negb (HasPrefix rest "/") && _); [done|].
  destruct ((negb (ToLower scheme =s "") || _) && _).
  - destruct (Cut (TrimPrefix rest "//") "/") as [[authority tail_] slash].
    destruct (parseAuthority authority) as [[user host]|]; [|done]. cbn [mbind result_bind].
    intros E. by apply setPath_fragment in E.
  - intros E. by apply setPath_fragment in E.
Qed.

(** The fragment test of the actor identity never fires: a URL parsed as a request URI has no
    fragment, the text after the number sign stays in the path (and is escaped in the identity). *)
Theorem identity_fragment_test_is_dead (value : string) (u : URL)
    (Hp : url_ParseRequestURI value = Ok u) :
  Fragment u = "" ∧ canonicalRFC9421ActorIdentity "https://a.example/actor#main-key"
                    = Ok "https://a.example/actor%23main-key".
Proof.
  split; [|vm_compute; reflexivity].
  unfold url_ParseRequestURI in Hp. destruct (parseURL value true) as [u'|] eqn:E; [|done].
  cbn in Hp. injection Hp as ->. by eapply parseURL_fragment.
Qed.

(** ** Witnesses *)

Definition demoBody : string := "{}".
Definition demoKey : string := "https://a.example/actor#main-key".
Definition demoMessage : signatureMessage :=
  mkMessage (mkInput rfc9421POSTComponents demoKey rfc9421RSAAlgorithm "nonce-1"
    (1700000000 * Second) zeroTime) "sig".
(** A signature library that reads every request as [demoMessage] and accepts its signature. *)
Definition demoLib : SigLib unit unit :=
  mkSigLib (λ _, Ok [("activitypub", demoMessage)])
    (λ l _, match l with (_, m) :: _ => Ok m | [] => Err (errorsNew "not found") end)
    (λ _ _, Ok tt) (λ _ _, Ok "base") (λ _ _ _, Ok tt)
    (λ _, Ok [("sha-256", SfvItemMember (mkSfvItem (SfvBytes (sum256 (bytes demoBody))) None))]).
Definition demoRequest : inRequest :=
  mkIn "POST" (Some (mkURL "" "" None "" "/inbox" "" false false "" "" "")) "relay.example"
    {[ "Content-Digest" := ["sha-256=..."] ]} (Some (demoBody, None)).
Definition demoResolver (k : string) : M (World Calm) (result (RFC9421ResolvedKey unit)) :=
  mret (Ok (mkResolved k "https://a.example/actor" "https://a.example/actor" (Some tt))).
Definition demoOptions : RFC9421VerifierOptions (S := Calm) (PublicKey := unit) :=
  mkVOptions " HTTPS " "relay.example" (Some demoResolver) (Some (ReserveRFC9421Nonce "n:")) 0 0 0
    (Some (mret (1700000010 * Second))).
Definition demoVerifier : RFC9421Verifier Calm unit :=
  mkVerifier "https" "relay.example" demoResolver (ReserveRFC9421Nonce "n:")
    DefaultRFC9421MaximumAge DefaultRFC9421FutureSkew DefaultRFC9421ReplayTTL
    (mret (1700000010 * Second)).
Definition demoStart : World Calm :=
  quietWorld (mkCalm 1700000010000 emptyDb) (zeroRelayState false).
Definition demoRun (w : World Calm) := VerifyPOST demoLib (Some demoVerifier) demoRequest demoBody w.
Definition demoVerification : RFC9421Verification :=
  mkVerification demoKey "https://a.example/actor" "https://a.example/actor" "nonce-1"
    (1700000000 * Second) zeroTime rfc9421POSTComponents rfc9421RSAAlgorithm.
(** The process ten minutes later. *)
Definition demoLater : World Calm :=
  let s := w_redis (demoRun demoStart).1 in
  set_redis (mkCalm (calm_ms s + 600000) (calm_db s)) (demoRun demoStart).1.

Lemma demoRun_ok w : (demoRun w).2 = Done (Ok demoVerification) →
  demoRun w = ((demoRun w).1, Done (Ok demoVerification)).
Proof. intros E. rewrite <- E. by destruct (demoRun w). Qed.

Lemma verification_is_sound_witness :
  ∃ w2 message resolved,
    vfKeyResolver demoVerifier (KeyID (Input message)) demoStart = (w2, Done (Ok resolved))
    ∧ verifiedUpToNonce demoLib demoVerifier demoRequest demoBody (1700000010 * Second) message resolved
    ∧ vfNonceStore demoVerifier demoKey "nonce-1" (vfReplayTTL demoVerifier) w2 = ((demoRun demoStart).1, Done (Ok true)).
Proof.
  destruct (verification_is_sound demoLib demoVerifier demoRequest demoBody demoStart
    (demoRun demoStart).1 demoVerification) as (w1 & now & w2 & m & r & Hn & Hr & Hv & Hs & E).
  - apply demoRun_ok. vm_compute. reflexivity.
  - injection Hn as <- <-. injection E as Ek _ _ En _. rewrite <- Ek, <- En in Hs. exists w2, m, r. split; [exact Hr|]. split; [exact Hv|exact Hs].
Defined.

Lemma nonce_store_consulted_last_witness :
  ∃ now message resolved,
    verifiedUpToNonce demoLib demoVerifier demoRequest demoBody now message resolved.
Proof.
  apply (nonce_store_consulted_last demoLib demoVerifier demoRequest demoBody demoStart
    (λ _ _ _, mret (Ok true)) (λ _ _ _, mret (Ok false))).
  intros E. apply (f_equal snd) in E. vm_compute in E. discriminate.
Defined.

Lemma nonce_accepted_once_witness :
  rs_ms (w_redis (demoRun demoStart).1) + ttlMs DefaultRFC9421ReplayTTL
  ≤ rs_ms (w_redis (demoRun demoLater).1).
Proof.
  apply (nonce_accepted_once demoLib "n:" demoVerifier demoRequest demoRequest demoBody demoBody
    demoStart (demoRun demoStart).1 demoLater (demoRun demoLater).1 demoVerification demoVerification).
  - reflexivity.
  - intros w. apply liveKeysKept_refl.
  - intros k w. apply liveKeysKept_refl.
  - apply demoRun_ok. vm_compute. reflexivity.
  - split; [vm_compute; discriminate|]. intros k e _ He _. exact He.
  - apply demoRun_ok. vm_compute. reflexivity.
  - split; reflexivity.
Defined.

Lemma replay_ttl_covers_window_witness :
  1700000300 * Second - 1700000010 * Second ≤ vfReplayTTL demoVerifier.
Proof.
  apply (replay_ttl_covers_window demoOptions demoVerifier rfc9421POSTComponents rfc9421POSTComponents
    demoKey demoKey rfc9421RSAAlgorithm rfc9421RSAAlgorithm "n" "n" (1700000000 * Second)
    zeroTime zeroTime).
  - reflexivity.
  - vm_compute. reflexivity.
  - vm_compute. reflexivity.
  - vm_compute. reflexivity.
Defined.

Lemma identity_fragment_test_is_dead_witness :
  ∃ u, url_ParseRequestURI "https://a.example/actor#main-key" = Ok u ∧ Fragment u = "".
Proof.
  destruct (url_ParseRequestURI "https://a.example/actor#main-key") as [u|e] eqn:E;
    [|vm_compute in E; discriminate].
  exists u. split; [reflexivity|].
  exact (proj1 (identity_fragment_test_is_dead _ _ E)).
Defined.
