(* ===== verification/Json.v ===== *)
(** * JSON as [encoding/json] reads and writes it

    [jsonParse] is the syntax check and the value of a document: white space,
    escapes (UTF-16 surrogate pairs joined, lone ones replaced), invalid UTF-8
    replaced by U+FFFD, numbers kept as their literal, nesting up to 10000.
    [toInterface] is the decoding into [interface{}]: the members of an object
    form a map (the last of two equal keys wins; kept sorted by key, the order
    [json.Marshal] writes a map in) and a number becomes a float64, represented
    by the text [json.Marshal] writes for it.  [jsonEncode] is [json.Marshal]
    (HTML characters escaped).

    Error texts are cut: a syntax error is [invalid character] or [unexpected end
    of JSON input], a type error [json: cannot unmarshal]. *)

From S2P Require Import Prelude GoStrings.

Inductive json :=
  | JNull
  | JBool (b : bool)
  | JNumber (literal : string)
  | JString (s : string)
  | JArray (l : list json)
  | JObject (members : list (string * json)).

Definition errJsonInvalid : error := errorsNew "invalid character".
Definition errJsonEnd : error := errorsNew "unexpected end of JSON input".
Definition errJsonDepth : error := errorsNew "exceeded max depth".
Definition errJsonType : error := errorsNew "json: cannot unmarshal".
(** Never returned by [jsonParse]: its fuel is enough ([JsonSpec]). *)
Definition errJsonFuel : error := errorsNew "json: out of fuel".

Definition jfail {A} (l : list ascii) : result A :=
  match l with [] => Err errJsonEnd | _ => Err errJsonInvalid end.

(** ** UTF-8 *)

Definition byteBetween (a b : N) (c : ascii) : bool := ((a <=? byteN c) && (byteN c <=? b))%N.
Definition continuation : ascii → bool := byteBetween 128 191.
(** The width of the well-formed character of more than one byte at the head, if any. *)
Definition runeWidth (l : list ascii) : option nat :=
  match l with
  | a :: b :: r =>
      if byteBetween 194 223 a && continuation b then Some 2%nat
      else
        match r with
        | c :: r =>
            if byteBetween 224 239 a
               && byteBetween (if (byteN a =? 224)%N then 160 else 128)
                              (if (byteN a =? 237)%N then 159 else 191) b
               && continuation c
            then Some 3%nat
            else
              match r with
              | d :: _ =>
                  if byteBetween 240 244 a
                     && byteBetween (if (byteN a =? 240)%N then 144 else 128)
                                    (if (byteN a =? 244)%N then 143 else 191) b
                     && continuation c && continuation d
                  then Some 4%nat else None
              | [] => None
              end
        | [] => None
        end
  | _ => None
  end.
Definition replacementRune : list ascii := [chr 239; chr 191; chr 189].
Definition utf8Encode (u : N) : list ascii :=
  if (u <? 128)%N then [chr u]
  else if (u <? 2048)%N then [chr (192 + u / 64); chr (128 + u mod 64)]
  else if (u <? 65536)%N then [chr (224 + u / 4096); chr (128 + (u / 64) mod 64); chr (128 + u mod 64)]
  else [chr (240 + u / 262144); chr (128 + (u / 4096) mod 64); chr (128 + (u / 64) mod 64);
        chr (128 + u mod 64)].

(** ** Scanning *)

Definition isJsonSpace (c : ascii) : bool :=
  ((byteN c =? 32) || (byteN c =? 9) || (byteN c =? 10) || (byteN c =? 13))%N.
Fixpoint skipSpace (l : list ascii) : list ascii :=
  match l with c :: r => if isJsonSpace c then skipSpace r else l | [] => [] end.

Definition hexValue (c : ascii) : option N :=
  if byteBetween 48 57 c then Some (byteN c - 48)%N
  else if byteBetween 97 102 c then Some (byteN c - 87)%N
  else if byteBetween 65 70 c then Some (byteN c - 55)%N
  else None.
Definition hex4 (l : list ascii) : result (N * list ascii) :=
  match l with
  | a :: b :: c :: d :: r =>
      match hexValue a, hexValue b, hexValue c, hexValue d with
      | Some a, Some b, Some c, Some d => Ok ((((a * 16 + b) * 16 + c) * 16 + d)%N, r)
      | _, _, _, _ => Err errJsonInvalid
      end
  | _ => if forallb (λ c, match hexValue c with Some _ => true | None => false end) l
         then Err errJsonEnd else Err errJsonInvalid
  end.
Definition backslash : ascii := "\"%char.
Definition simpleEscape (c : ascii) : option ascii :=
  if bool_decide (c = dquote) then Some dquote
  else if bool_decide (c = backslash) then Some backslash
  else if bool_decide (c = "/"%char) then Some "/"%char
  else if bool_decide (c = "b"%char) then Some (chr 8)
  else if bool_decide (c = "f"%char) then Some (chr 12)
  else if bool_decide (c = "n"%char) then Some (chr 10)
  else if bool_decide (c = "r"%char) then Some (chr 13)
  else if bool_decide (c = "t"%char) then Some (chr 9)
  else None.
(** The second half of a surrogate pair, written as an escape. *)
Definition lowSurrogate (l : list ascii) : option (N * list ascii) :=
  match l with
  | c :: d :: r =>
      if bool_decide (c = backslash) && bool_decide (d = "u"%char) then
        match hex4 r with
        | Ok (u, r) => if ((56320 <=? u) && (u <? 57344))%N then Some (u, r) else None
        | Err _ => None
        end
      else None
  | _ => None
  end.

Definition push (b : list ascii) (r : result (list ascii * list ascii)) : result (list ascii * list ascii) :=
  match r with Ok (s, rest) => Ok (b ++ s, rest) | Err e => Err e end.
(** A string after its opening quote: its decoded bytes and what follows it. *)
Fixpoint scanString (fuel : nat) (l : list ascii) : result (list ascii * list ascii) :=
  match fuel with
  | O => Err errJsonFuel
  | S fuel =>
      match l with
      | [] => Err errJsonEnd
      | c :: r =>
          if bool_decide (c = dquote) then Ok ([], r)
          else if bool_decide (c = backslash) then
            match r with
            | [] => Err errJsonEnd
            | e :: r =>
                if bool_decide (e = "u"%char) then
                  match hex4 r with
                  | Err e => Err e
                  | Ok (u, r) =>
                      if ((55296 <=? u) && (u <? 57344))%N then
                        match (if (u <? 56320)%N then lowSurrogate r else None) with
                        | Some (v, r) =>
                            push (utf8Encode (65536 + (u - 55296) * 1024 + (v - 56320))%N) (scanString fuel r)
                        | None => push replacementRune (scanString fuel r)
                        end
                      else push (utf8Encode u) (scanString fuel r)
                  end
                else match simpleEscape e with
                     | Some b => push [b] (scanString fuel r)
                     | None => Err errJsonInvalid
                     end
            end
          else if (byteN c <? 32)%N then Err errJsonInvalid
          else if (byteN c <? 128)%N then push [c] (scanString fuel r)
          else match runeWidth l with
               | Some n => push (take n l) (scanString fuel (drop n l))
               | None => push replacementRune (scanString fuel r)
               end
      end
  end.

Fixpoint spanDigits (l : list ascii) : list ascii * list ascii :=
  match l with
  | c :: r => if byteBetween 48 57 c then let '(a, b) := spanDigits r in (c :: a, b) else ([], l)
  | [] => ([], [])
  end.
(** One or more digits. *)
Definition scanDigits (l : list ascii) : result (list ascii * list ascii) :=
  match spanDigits l with ([], r) => jfail r | p => Ok p end.
(** A number: its literal and what follows it. *)
Definition scanNumber (l : list ascii) : result (list ascii * list ascii) :=
  let '(sign, l) := match l with
                    | c :: r => if bool_decide (c = "-"%char) then ([c], r) else ([], l)
                    | [] => ([], []) end in
  '(int, l) ← match l with
              | c :: r => if bool_decide (c = "0"%char) then Ok ([c], r) else scanDigits l
              | [] => Err errJsonEnd
              end;
  '(frac, l) ← match l with
               | c :: r => if bool_decide (c = "."%char)
                           then '(d, r) ← scanDigits r; Ok (c :: d, r) else Ok ([], l)
               | [] => Ok ([], [])
               end;
  '(exp, l) ← match l with
              | c :: r =>
                  if bool_decide (c = "e"%char) || bool_decide (c = "E"%char) then
                    let '(s, r) := match r with
                                   | d :: r' => if bool_decide (d = "+"%char) || bool_decide (d = "-"%char)
                                                then ([d], r') else ([], r)
                                   | [] => ([], []) end in
                    '(d, r) ← scanDigits r; Ok (c :: s ++ d, r)
                  else Ok ([], l)
              | [] => Ok ([], [])
              end;
  Ok (sign ++ int ++ frac ++ exp, l).

Fixpoint scanLiteral (p l : list ascii) : result (list ascii) :=
  match p, l with
  | [], _ => Ok l
  | _, [] => Err errJsonEnd
  | c :: p, d :: l => if bool_decide (c = d) then scanLiteral p l else Err errJsonInvalid
  end.

(** ** Parsing *)

Definition maxNestingDepth : Z := 10000.
Fixpoint parseValue (fuel : nat) (depth : Z) (l : list ascii) : result (json * list ascii) :=
  match fuel with
  | O => Err errJsonFuel
  | S fuel =>
      match skipSpace l with
      | [] => Err errJsonEnd
      | c :: r =>
          if bool_decide (c = dquote) then
            match scanString (S (length r)) r with
            | Ok (s, r) => Ok (JString (ofBytes s), r) | Err e => Err e end
          else if bool_decide (c = "{"%char) then
            if maxNestingDepth <=? depth then Err errJsonDepth
            else match skipSpace r with
                 | d :: r' => if bool_decide (d = "}"%char) then Ok (JObject [], r')
                              else match parseMembers fuel (depth + 1) r with
                                   | Ok (ms, r) => Ok (JObject ms, r) | Err e => Err e end
                 | [] => Err errJsonEnd
                 end
          else if bool_decide (c = "["%char) then
            if maxNestingDepth <=? depth then Err errJsonDepth
            else match skipSpace r with
                 | d :: r' => if bool_decide (d = "]"%char) then Ok (JArray [], r')
                              else match parseElements fuel (depth + 1) r with
                                   | Ok (vs, r) => Ok (JArray vs, r) | Err e => Err e end
                 | [] => Err errJsonEnd
                 end
          else if bool_decide (c = "t"%char) then r ← scanLiteral (bytes "rue") r; Ok (JBool true, r)
          else if bool_decide (c = "f"%char) then r ← scanLiteral (bytes "alse") r; Ok (JBool false, r)
          else if bool_decide (c = "n"%char) then r ← scanLiteral (bytes "ull") r; Ok (JNull, r)
          else if bool_decide (c = "-"%char) || byteBetween 48 57 c then
            '(lit, r) ← scanNumber (c :: r); Ok (JNumber (ofBytes lit), r)
          else Err errJsonInvalid
      end
  end
with parseElements (fuel : nat) (depth : Z) (l : list ascii) : result (list json * list ascii) :=
  match fuel with
  | O => Err errJsonFuel
  | S fuel =>
      match parseValue fuel depth l with
      | Err e => Err e
      | Ok (v, r) =>
          match skipSpace r with
          | [] => Err errJsonEnd
          | c :: r =>
              if bool_decide (c = "]"%char) then Ok ([v], r)
              else if bool_decide (c = ","%char) then
                match parseElements fuel depth r with
                | Ok (vs, r) => Ok (v :: vs, r) | Err e => Err e end
              else Err errJsonInvalid
          end
      end
  end
with parseMembers (fuel : nat) (depth : Z) (l : list ascii) : result (list (string * json) * list ascii) :=
  match fuel with
  | O => Err errJsonFuel
  | S fuel =>
      match skipSpace l with
      | [] => Err errJsonEnd
      | c :: r =>
          if bool_decide (c = dquote) then
            match scanString (S (length r)) r with
            | Err e => Err e
            | Ok (k, r) =>
                match skipSpace r with
                | [] => Err errJsonEnd
                | c :: r =>
                    if bool_decide (c = ":"%char) then
                      match parseValue fuel depth r with
                      | Err e => Err e
                      | Ok (v, r) =>
                          match skipSpace r with
                          | [] => Err errJsonEnd
                          | c :: r =>
                              if bool_decide (c = "}"%char) then Ok ([(ofBytes k, v)], r)
                              else if bool_decide (c = ","%char) then
                                match parseMembers fuel depth r with
                                | Ok (ms, r) => Ok ((ofBytes k, v) :: ms, r) | Err e => Err e end
                              else Err errJsonInvalid
                          end
                      end
                    else Err errJsonInvalid
                end
            end
          else Err errJsonInvalid
      end
  end.
Definition jsonParse (s : string) : result json :=
  '(v, r) ← parseValue (2 * String.length s + 1) 0 (bytes s);
  match skipSpace r with [] => Ok v | _ => Err errJsonInvalid end.

(** ** Numbers: float64 values and the text Go writes for them *)

(** A positive float64: [mantissa * 2 ^ exponent]. *)
Record float := mkFloat { mantissa : Z; exponent : Z }.
Definition divRoundEven (n d : Z) : Z :=
  let q := n / d in let r := 2 * (n mod d) in
  if (r >? d) || (r =? d) && Z.odd q then q + 1 else q.
(** [n * 2 ^ e] and [n * 10 ^ e] as fractions. *)
Definition scale2 (e : Z) : Z * Z := if 0 <=? e then (2 ^ e, 1) else (1, 2 ^ (- e)).
Definition scale10 (e : Z) : Z * Z := if 0 <=? e then (10 ^ e, 1) else (1, 10 ^ (- e)).
(** The float64 nearest to [n / d] (both positive); [None] beyond the largest. *)
Definition roundFloat (n d : Z) : option float :=
  let k0 := Z.max (Z.log2 n - Z.log2 d - 53) (-1074) in
  let q0 := let '(a, b) := scale2 (- k0) in n * a / (d * b) in
  let k := if 2 ^ 53 <=? q0 then k0 + 1 else k0 in
  let q := let '(a, b) := scale2 (- k) in divRoundEven (n * a) (d * b) in
  let '(q, k) := if q =? 2 ^ 53 then (2 ^ 52, k + 1) else (q, k) in
  if 971 <? k then None else Some (mkFloat q k).
Definition digitCount (z : Z) : Z := len (itoa z).
Definition digitsOf (l : list ascii) : Z := default 0 (parseDigits (ofBytes l)).

(** [strconv.ParseFloat] of a number literal: sign and magnitude, [None] out of range. *)
Definition parseFloat (literal : string) : option (bool * option float) :=
  let l := bytes literal in
  let '(neg, l) := match l with
                   | c :: r => if bool_decide (c = "-"%char) then (true, r) else (false, l)
                   | [] => (false, []) end in
  let '(int, l) := spanDigits l in
  let '(frac, l) := match l with
                    | c :: r => if bool_decide (c = "."%char) then spanDigits r else ([], l)
                    | [] => ([], []) end in
  let e := match l with
           | _ :: c :: r => if bool_decide (c = "-"%char) then - digitsOf r
                            else if bool_decide (c = "+"%char) then digitsOf r else digitsOf (c :: r)
           | _ => 0 end in
  let m := digitsOf (int ++ frac) in
  let e := e - Z.of_nat (length frac) in
  if m =? 0 then Some (neg, None)
  else if 310 <? digitCount m + e then None
  else if digitCount m + e <? -330 then Some (neg, None)
  else
    let '(a, b) := scale10 e in
    match roundFloat (m * a) b with
    | None => None
    | Some f => Some (neg, if mantissa f =? 0 then None else Some f)
    end.

Definition sameFloat (f : float) (o : option float) : bool :=
  match o with Some g => (mantissa f =? mantissa g) && (exponent f =? exponent g) | None => false end.
(** The shortest decimal digits that read back as [f], with the position of the decimal point:
    [0.d1d2... * 10 ^ point]. *)
Fixpoint shortest (fuel : nat) (p : Z) (f : float) : Z * Z :=
  let '(a, b) := scale2 (exponent f) in
  let n := mantissa f * a in
  let e := digitCount n - digitCount b in
  let point := (let '(x, y) := scale10 e in if n * y <? b * x then e else e + 1) in
  let '(x, y) := scale10 (p - point) in
  let near := divRoundEven (n * x) (b * y) in
  let other := if near * (b * y) <=? n * x then near + 1 else near - 1 in
  let readsBack z := (0 <? z) && (let '(u, v) := scale10 (point - p) in sameFloat f (roundFloat (z * u) v)) in
  let found z := (z, point + digitCount z - p) in
  match fuel with
  | O => found near
  | S fuel =>
      if readsBack near then found near
      else if readsBack other then found other
      else shortest fuel (p + 1) f
  end.
Definition zeros (n : Z) : string := ofBytes (repeat "0"%char (Z.to_nat n)).
Definition stripZeros (s : string) : string := ofBytes (rev (dropWhileByte "0"%char (rev (bytes s)))).
(** The text of a float64 in JSON: ['f'] format, ['e'] format below 1e-6 and from 1e21 on. *)
Definition floatText (f : float) : string :=
  let '(z, point) := shortest 17 1 f in
  let digits := stripZeros (itoa z) in
  let n := len digits in
  if (point <? -5) || (21 <? point) then
    let d := bytes digits in
    ofBytes (take 1 d ++ (if n =? 1 then [] else "."%char :: drop 1 d))
      +:+ "e" +:+ (if point - 1 <? 0 then "-" else "+") +:+ itoa (Z.abs (point - 1))
  else if point <=? 0 then "0." +:+ zeros (- point) +:+ digits
  else if n <=? point then digits +:+ zeros (point - n)
  else ofBytes (take (Z.to_nat point) (bytes digits)) +:+ "." +:+ ofBytes (drop (Z.to_nat point) (bytes digits)).
Definition numberText (literal : string) : option string :=
  match parseFloat literal with
  | None => None
  | Some (neg, f) => Some ((if (neg : bool) then "-" else "") +:+ match f with None => "0" | Some f => floatText f end)
  end.

(** ** Values of type [interface{}] *)

(** Setting a key of a map kept sorted. *)
Fixpoint setMember (k : string) (v : json) (l : list (string * json)) : list (string * json) :=
  match l with
  | [] => [(k, v)]
  | (k', v') :: r =>
      if k =s k' then (k, v) :: r
      else if strLtb k k' then (k, v) :: l
      else (k', v') :: setMember k v r
  end.
Definition lookupMember (k : string) (l : list (string * json)) : option json :=
  snd <$> List.find (λ m, m.1 =s k) l.

Fixpoint toInterface (v : json) : result json :=
  match v with
  | JNumber literal => match numberText literal with Some t => Ok (JNumber t) | None => Err errJsonType end
  | JArray l =>
      l ← (fix elements l := match l with
           | [] => Ok []
           | v :: l => v ← toInterface v; l ← elements l; Ok (v :: l) end) l;
      Ok (JArray l)
  | JObject ms =>
      ms ← (fix members acc ms := match ms with
           | [] => Ok acc
           | (k, v) :: ms => v ← toInterface v; members (setMember k v acc) ms end) [] ms;
      Ok (JObject ms)
  | v => Ok v
  end.
(** Decoding into an [interface{}]: [None] is [nil]. *)
Definition decodeInterface (v : json) : result (option json) :=
  match v with JNull => Ok None | _ => Some <$> toInterface v end.

(** Decoding into a [string] and a [[]string] that hold [old]: [null] leaves a string as it is
    (also an element that was there) and empties a slice. *)
Definition decodeString (old : string) (v : json) : result string :=
  match v with JString s => Ok s | JNull => Ok old | _ => Err errJsonType end.
Fixpoint decodeElements (old : list string) (l : list json) : result (list string) :=
  match l with
  | [] => Ok []
  | v :: l =>
      s ← decodeString (default "" (head old)) v;
      rest ← decodeElements (tail old) l;
      Ok (s :: rest)
  end.
Definition decodeStrings (old : list string) (v : json) : result (list string) :=
  match v with JNull => Ok [] | JArray l => decodeElements old l | _ => Err errJsonType end.

(** Decoding into a struct: [null] changes nothing, the members are decoded in order into the
    field whose name is the key up to case. *)
Definition decodeStruct {A} (field : string → json → A → result A) (old : A) (v : json) : result A :=
  match v with
  | JNull => Ok old
  | JObject ms => foldl (λ r m, a ← r; field m.1 m.2 a) (Ok old) ms
  | _ => Err errJsonType
  end.

(** ** Writing *)

Definition hexByte (c : ascii) : list ascii := [hexDigit (byteN c / 16); hexDigit (byteN c mod 16)].
Definition escapeU (b : list ascii) : list ascii := [backslash; "u"%char] ++ b.
Definition lineSeparator (l : list ascii) : option ascii :=
  match l with
  | [a; b; c] => if ((byteN a =? 226) && (byteN b =? 128))%N
                 then (if (byteN c =? 168)%N then Some "8"%char
                       else if (byteN c =? 169)%N then Some "9"%char else None)
                 else None
  | _ => None
  end.
Definition escapeAscii (c : ascii) : list ascii :=
  if bool_decide (c = dquote) || bool_decide (c = backslash) then [backslash; c]
  else if (byteN c =? 8)%N then [backslash; "b"%char]
  else if (byteN c =? 12)%N then [backslash; "f"%char]
  else if (byteN c =? 10)%N then [backslash; "n"%char]
  else if (byteN c =? 13)%N then [backslash; "r"%char]
  else if (byteN c =? 9)%N then [backslash; "t"%char]
  else if (byteN c <? 32)%N || bool_decide (c = "<"%char) || bool_decide (c = ">"%char)
          || bool_decide (c = "&"%char)
  then escapeU ([ "0"%char; "0"%char] ++ hexByte c)
  else [c].
Fixpoint escapeBytes (fuel : nat) (l : list ascii) : list ascii :=
  match fuel, l with
  | _, [] | O, _ => []
  | S fuel, c :: r =>
      if (byteN c <? 128)%N then escapeAscii c ++ escapeBytes fuel r
      else match runeWidth l with
           | None => escapeU (bytes "fffd") ++ escapeBytes fuel r
           | Some n =>
               match lineSeparator (take n l) with
               | Some d => escapeU (bytes "202" ++ [d]) ++ escapeBytes fuel (drop n l)
               | None => take n l ++ escapeBytes fuel (drop n l)
               end
           end
  end.
Definition encodeString (s : string) : list ascii :=
  [dquote] ++ escapeBytes (String.length s) (bytes s) ++ [dquote].
Definition commaSep (l : list (list ascii)) : list ascii :=
  match l with [] => [] | x :: r => x ++ concat (map (λ y, ","%char :: y) r) end.
Fixpoint jsonEncode (v : json) : list ascii :=
  match v with
  | JNull => bytes "null"
  | JBool b => bytes (if b then "true" else "false")
  | JNumber t => bytes t
  | JString s => encodeString s
  | JArray l => ["["%char] ++ commaSep (map jsonEncode l) ++ ["]"%char]
  | JObject ms => ["{"%char] ++ commaSep (map (λ m, encodeString m.1 ++ [":"%char] ++ jsonEncode m.2) ms)
                  ++ ["}"%char]
  end.
Definition jsonMarshal (v : json) : string := ofBytes (jsonEncode v).
