(* ===== verification/JsonSpec.v ===== *)
(** * The JSON parser has enough fuel

    [jsonParse] gives [parseValue] fuel for twice the length of the text and one more:
    a value consumes at least a byte, and a list of elements or members is entered
    only after a bracket.  So the model never stops for lack of fuel. *)

From S2P Require Import Prelude GoStrings Json.

(** The result of parsing a prefix of [l]: some of [l] was consumed, or the error is a real one. *)
Definition fine {A} (l : list ascii) (r : result (A * list ascii)) : Prop :=
  match r with Ok (_, rest) => (length rest < length l)%nat | Err e => e ≠ errJsonFuel end.

Lemma skipSpace_length l : (length (skipSpace l) ≤ length l)%nat.
Proof. induction l as [|c l IH]; [done|]. cbn [skipSpace]. destruct (isJsonSpace c); cbn; lia. Qed.
Lemma hex4_fine l : fine l (hex4 l).
Proof.
  unfold hex4. destruct l as [|a [|b [|c [|d r]]]]; repeat case_match; cbn; (done || lia).
Qed.
Lemma lowSurrogate_length l u r : lowSurrogate l = Some (u, r) → (length r < length l)%nat.
Proof.
  unfold lowSurrogate. destruct l as [|c [|d l]]; [done|done|]. destruct (_ && _); [|done].
  pose proof (hex4_fine l) as Hh. destruct (hex4 l) as [[v r']|]; [|done]. destruct (_ && _)%N; [|done].
  intros [= -> ->]. cbn in *. lia.
Qed.
Lemma runeWidth_positive l n : runeWidth l = Some n → (1 ≤ n)%nat.
Proof. unfold runeWidth. intros E. repeat (case_match; try done); simplify_eq; lia. Qed.
Lemma push_fine b l l' r : (length l' ≤ length l)%nat → fine l' r → fine l (push b r).
Proof. unfold push, fine. destruct r as [[s rest]|e]; [|done]. lia. Qed.

Lemma scanString_fine fuel l : (length l < fuel)%nat → fine l (scanString fuel l).
Proof.
  revert l. induction fuel as [|fuel IH]; intros l Hl; [lia|]. cbn [scanString].
  destruct l as [|c r]; [done|]. cbn [length] in Hl.
  destruct (bool_decide (c = dquote)); [cbn; lia|].
  destruct (bool_decide (c = backslash)).
  - destruct r as [|e r]; [done|]. cbn [length] in Hl. destruct (bool_decide (e = "u"%char)).
    + pose proof (hex4_fine r) as Hh. destruct (hex4 r) as [[u r']|]; [|done]. cbn in Hh.
      destruct (_ && _)%N; [|eapply (push_fine _ _ r'); [cbn; lia|apply IH; lia]].
      destruct (if (u <? 56320)%N then lowSurrogate r' else None) as [[v r'']|] eqn:E.
      * destruct (u <? 56320)%N; [|done]. apply lowSurrogate_length in E.
        eapply (push_fine _ _ r''); [cbn; lia|apply IH; lia].
      * eapply (push_fine _ _ r'); [cbn; lia|apply IH; lia].
    + destruct (simpleEscape e); [|done]. eapply (push_fine _ _ r); [cbn; lia|apply IH; lia].
  - destruct (byteN c <? 32)%N; [done|]. destruct (byteN c <? 128)%N.
    + eapply (push_fine _ _ r); [cbn; lia|apply IH; lia].
    + destruct (runeWidth (c :: r)) as [n|] eqn:E.
      * apply runeWidth_positive in E. eapply (push_fine _ _ (drop n (c :: r))); [rewrite length_drop; lia|].
        apply IH. rewrite length_drop. cbn. lia.
      * eapply (push_fine _ _ r); [cbn; lia|apply IH; lia].
Qed.

Lemma spanDigits_length l : (length (spanDigits l).1 + length (spanDigits l).2 = length l)%nat.
Proof.
  induction l as [|c l IH]; [done|]. cbn [spanDigits]. destruct (byteBetween 48 57 c); [|done].
  destruct (spanDigits l). cbn in *. lia.
Qed.
Lemma scanDigits_fine l : fine l (scanDigits l).
Proof.
  unfold scanDigits. pose proof (spanDigits_length l) as Hs. destruct (spanDigits l) as [[|d ds] r]; cbn in *.
  - unfold jfail. by destruct r.
  - lia.
Qed.
(** Parts of a number: a rest that is no longer than the text, or a real error. *)
Definition shrinks {A} (l : list ascii) (r : result (A * list ascii)) : Prop :=
  match r with Ok (_, rest) => (length rest ≤ length l)%nat | Err e => e ≠ errJsonFuel end.
Lemma bind_fine {A B} l l' (r : result (A * list ascii)) (f : A * list ascii → result (B * list ascii)) :
  fine l r → (∀ a rest, (length rest < length l)%nat → shrinks rest (f (a, rest))) → l' = l → fine l' (r ≫= f).
Proof.
  intros Hr Hf ->. destruct r as [[a rest]|e]; [|done]. cbn [mbind result_bind]. specialize (Hf a rest Hr).
  cbn in Hr. unfold fine, shrinks in *. destruct (f (a, rest)) as [[b r']|]; [lia|done].
Qed.
Lemma bind_shrinks {A B} l (r : result (A * list ascii)) (f : A * list ascii → result (B * list ascii)) :
  shrinks l r → (∀ a rest, (length rest ≤ length l)%nat → shrinks rest (f (a, rest))) → shrinks l (r ≫= f).
Proof.
  intros Hr Hf. destruct r as [[a rest]|e]; [|done]. cbn [mbind result_bind]. specialize (Hf a rest Hr).
  cbn in Hr. unfold shrinks in *. destruct (f (a, rest)) as [[b r']|]; [lia|done].
Qed.
Lemma fine_shrinks {A} l (r : result (A * list ascii)) : fine l r → shrinks l r.
Proof. unfold fine, shrinks. destruct r as [[a rest]|]; [lia|done]. Qed.
Lemma shrinks_ret {A} l (a : A) : shrinks l (Ok (a, l)).
Proof. cbn. lia. Qed.
Lemma shrinks_le {A} l l' (r : result (A * list ascii)) : (length l ≤ length l')%nat → shrinks l r → shrinks l' r.
Proof. unfold shrinks. destruct r as [[a rest]|]; [lia|done]. Qed.

Lemma fraction_shrinks l : shrinks l (match l with
  | c :: r => if bool_decide (c = "."%char) then '(d, r) ← scanDigits r; Ok (c :: d, r) else Ok ([], l)
  | [] => Ok ([], []) end).
Proof.
  destruct l as [|c r]; [cbn; lia|]. case_match; [|apply shrinks_ret].
  apply (shrinks_le r); [cbn; lia|]. apply bind_shrinks; [apply fine_shrinks, scanDigits_fine|].
  intros d rest _. apply shrinks_ret.
Qed.
Lemma exponent_shrinks l : shrinks l (match l with
  | c :: r =>
      if bool_decide (c = "e"%char) || bool_decide (c = "E"%char) then
        let '(s, r) := match r with
                       | d :: r' => if bool_decide (d = "+"%char) || bool_decide (d = "-"%char)
                                    then ([d], r') else ([], r)
                       | [] => ([], []) end in
        '(d, r) ← scanDigits r; Ok (c :: s ++ d, r)
      else Ok ([], l)
  | [] => Ok ([], []) end).
Proof.
  destruct l as [|c r]; [cbn; lia|]. case_match; [|apply shrinks_ret].
  assert (Hd : ∀ (s r1 : list ascii), (length r1 ≤ length r)%nat →
    shrinks (c :: r) ('(d, r) ← scanDigits r1; Ok (c :: s ++ d, r))).
  { intros s r1 Hl. apply (shrinks_le r1); [cbn [length]; lia|]. apply bind_shrinks; [apply fine_shrinks, scanDigits_fine|].
    intros d rest _. apply shrinks_ret. }
  destruct r as [|d r']; [by apply Hd|].
  destruct (bool_decide (d = "+"%char) || _); [apply (Hd [d] r')|apply (Hd [] (d :: r'))]; cbn; lia.
Qed.
Lemma scanNumber_fine l : fine l (scanNumber l).
Proof.
  unfold scanNumber.
  assert (Hrest : ∀ (sign l1 : list ascii), (length l1 ≤ length l)%nat →
    fine l ('(int, l) ← match l1 with
              | c :: r => if bool_decide (c = "0"%char) then Ok ([c], r) else scanDigits l1
              | [] => Err errJsonEnd end;
            '(frac, l) ← match l with
              | c :: r => if bool_decide (c = "."%char) then '(d, r) ← scanDigits r; Ok (c :: d, r) else Ok ([], l)
              | [] => Ok ([], []) end;
            '(exp, l) ← match l with
              | c :: r =>
                  if bool_decide (c = "e"%char) || bool_decide (c = "E"%char) then
                    let '(s, r) := match r with
                                   | d :: r' => if bool_decide (d = "+"%char) || bool_decide (d = "-"%char)
                                                then ([d], r') else ([], r)
                                   | [] => ([], []) end in
                    '(d, r) ← scanDigits r; Ok (c :: s ++ d, r)
                  else Ok ([], l)
              | [] => Ok ([], []) end;
            Ok (sign ++ int ++ frac ++ exp, l))).
  { intros sign l1 Hl. eapply (bind_fine l); [| |done].
    - destruct l1 as [|c r]; [done|]. case_match; [cbn in *; lia|].
      pose proof (scanDigits_fine (c :: r)) as Hd. unfold fine in *. destruct (scanDigits (c :: r)) as [[d rest]|]; [lia|done].
    - intros int l2 _. apply bind_shrinks; [apply fraction_shrinks|]. intros frac l3 _.
      apply bind_shrinks; [apply exponent_shrinks|]. intros exp l4 _. apply shrinks_ret. }
  destruct l as [|c r]; [exact (Hrest [] [] (le_n _))|].
  destruct (bool_decide (c = "-"%char)); [apply (Hrest [c] r)|apply (Hrest [] (c :: r))]; cbn; lia.
Qed.
Lemma scanLiteral_length p l r : scanLiteral p l = Ok r → (length r ≤ length l)%nat.
Proof.
  revert l. induction p as [|c p IH]; intros l; cbn [scanLiteral]; [intros [= ->]; lia|].
  destruct l as [|d l]; [done|]. destruct (bool_decide (c = d)); [|done]. intros E%IH. cbn. lia.
Qed.
Lemma scanLiteral_error p l e : scanLiteral p l = Err e → e ≠ errJsonFuel.
Proof.
  revert l. induction p as [|c p IH]; intros l; cbn [scanLiteral]; [done|].
  destruct l as [|d l]; [by intros [= <-]|]. destruct (bool_decide (c = d)); [apply IH|by intros [= <-]].
Qed.
Lemma literal_fine c r p (v : json) : fine (c :: r) (r' ← scanLiteral p r; Ok (v, r')).
Proof.
  destruct (scanLiteral p r) as [r'|e] eqn:E; cbn.
  - apply scanLiteral_length in E. lia.
  - by eapply scanLiteral_error.
Qed.
Lemma fine_le {A} l l' (r : result (A * list ascii)) : (length l ≤ length l')%nat → fine l r → fine l' r.
Proof. unfold fine. destruct r as [[a rest]|]; [lia|done]. Qed.
Lemma fine_map {A B} l (r : result (A * list ascii)) (f : A → B) : fine l r →
  fine l (match r with Ok (a, rest) => Ok (f a, rest) | Err e => Err e end).
Proof. by destruct r as [[a rest]|]. Qed.

(** ** The parsers *)

Section step.
Context (fuel : nat).
Context (value : ∀ depth l, (2 * length l + 1 ≤ fuel)%nat → fine l (parseValue fuel depth l)).
Context (elements : ∀ depth l, (2 * length l + 2 ≤ fuel)%nat → fine l (parseElements fuel depth l)).
Context (members : ∀ depth l, (2 * length l + 2 ≤ fuel)%nat → fine l (parseMembers fuel depth l)).

Lemma value_step depth l : (2 * length l + 1 ≤ Datatypes.S fuel)%nat → fine l (parseValue (Datatypes.S fuel) depth l).
Proof.
  intros Hl. cbn [parseValue]. pose proof (skipSpace_length l). destruct (skipSpace l) as [|c r]; [done|].
  apply (fine_le (c :: r)); [done|]. cbn [length] in *.
  destruct (bool_decide (c = dquote)).
  { apply (fine_le r); [cbn; lia|]. apply (fine_map r _ (λ s, JString (ofBytes s))), scanString_fine. lia. }
  destruct (bool_decide (c = "{"%char)).
  { destruct (maxNestingDepth <=? depth); [done|]. pose proof (skipSpace_length r).
    destruct (skipSpace r) as [|d r']; [done|]. cbn [length] in *.
    destruct (bool_decide (d = "}"%char)); [cbn; lia|].
    apply (fine_le r); [cbn; lia|]. apply (fine_map r _ JObject), members. lia. }
  destruct (bool_decide (c = "["%char)).
  { destruct (maxNestingDepth <=? depth); [done|]. pose proof (skipSpace_length r).
    destruct (skipSpace r) as [|d r']; [done|]. cbn [length] in *.
    destruct (bool_decide (d = "]"%char)); [cbn; lia|].
    apply (fine_le r); [cbn; lia|]. apply (fine_map r _ JArray), elements. lia. }
  destruct (bool_decide (c = "t"%char)); [apply literal_fine|].
  destruct (bool_decide (c = "f"%char)); [apply literal_fine|].
  destruct (bool_decide (c = "n"%char)); [apply literal_fine|].
  destruct (_ || _); [|done]. eapply bind_fine; [apply scanNumber_fine| |done].
  intros lit rest _. apply shrinks_ret.
Qed.
Lemma elements_step depth l : (2 * length l + 2 ≤ Datatypes.S fuel)%nat →
  fine l (parseElements (Datatypes.S fuel) depth l).
Proof.
  intros Hl. cbn [parseElements]. pose proof (value depth l ltac:(lia)) as Hv.
  destruct (parseValue fuel depth l) as [[v r]|]; [|done]. cbn in Hv. pose proof (skipSpace_length r).
  destruct (skipSpace r) as [|c r']; [done|]. cbn [length] in *.
  destruct (bool_decide (c = "]"%char)); [cbn; lia|]. destruct (bool_decide (c = ","%char)); [|done].
  apply (fine_le r'); [lia|]. apply (fine_map r' _ (cons v)), elements. lia.
Qed.
Lemma members_step depth l : (2 * length l + 2 ≤ Datatypes.S fuel)%nat →
  fine l (parseMembers (Datatypes.S fuel) depth l).
Proof.
  intros Hl. cbn [parseMembers]. pose proof (skipSpace_length l). destruct (skipSpace l) as [|c r]; [done|].
  cbn [length] in *. destruct (bool_decide (c = dquote)); [|done].
  pose proof (scanString_fine (Datatypes.S (length r)) r ltac:(lia)) as Hs.
  destruct (scanString _ r) as [[k r1]|]; [|done]. cbn in Hs. pose proof (skipSpace_length r1).
  destruct (skipSpace r1) as [|c1 r2]; [done|]. cbn [length] in *. destruct (bool_decide (c1 = ":"%char)); [|done].
  pose proof (value depth r2 ltac:(lia)) as Hv. destruct (parseValue fuel depth r2) as [[v r3]|]; [|done].
  cbn in Hv. pose proof (skipSpace_length r3). destruct (skipSpace r3) as [|c2 r4]; [done|]. cbn [length] in *.
  destruct (bool_decide (c2 = "}"%char)); [cbn; lia|]. destruct (bool_decide (c2 = ","%char)); [|done].
  apply (fine_le r4); [lia|]. apply (fine_map r4 _ (cons (ofBytes k, v))), members. lia.
Qed.
End step.

Lemma parsers_fine fuel :
  (∀ depth l, (2 * length l + 1 ≤ fuel)%nat → fine l (parseValue fuel depth l))
  ∧ (∀ depth l, (2 * length l + 2 ≤ fuel)%nat → fine l (parseElements fuel depth l))
  ∧ (∀ depth l, (2 * length l + 2 ≤ fuel)%nat → fine l (parseMembers fuel depth l)).
Proof.
  induction fuel as [|fuel (IHv & IHe & IHm)]; [repeat split; intros; lia|].
  split; [|split]; intros depth l Hl; [by apply value_step|by apply elements_step|by apply members_step].
Qed.

(** Parsing always ends with a value or with an error of the text. *)
Theorem jsonParse_enough_fuel (s : string) : jsonParse s ≠ Err errJsonFuel.
Proof.
  assert (Hlen : length (bytes s) = String.length s) by (induction s; cbn; congruence).
  destruct (parsers_fine (2 * String.length s + 1)) as (Hv & _).
  specialize (Hv 0 (bytes s) ltac:(lia)). unfold jsonParse.
  destruct (parseValue _ 0 (bytes s)) as [[v r]|e]; cbn [mbind result_bind].
  - by destruct (skipSpace r).
  - intros [= ->]. done.
Qed.
