(* ===== verification/JsonRoundTrip.v ===== *)
(** * JSON: what is written reads back

    [json.Unmarshal] after [json.Marshal]: the parser of [Json] reads the text the
    writer produces, whatever follows it, and gives the value back with the invalid
    UTF-8 of its strings replaced ([cleanJson]); a value whose strings are valid UTF-8
    comes back as it was.  The hypotheses are that the numbers are JSON numbers and
    that the value is not nested deeper than the parser accepts. *)

From Stdlib Require Import DecimalString DecimalN DecimalPos DecimalFacts.
From S2P Require Import Prelude GoStrings Json JsonSpec.

(** ** Valid UTF-8 *)

(** [strings.ToValidUTF8] with U+FFFD for every invalid byte, as the writer does it. *)
Fixpoint cleanBytes (fuel : nat) (l : list ascii) : list ascii :=
  match fuel, l with
  | _, [] | O, _ => []
  | S fuel, c :: r =>
      if (byteN c <? 128)%N then c :: cleanBytes fuel r
      else match runeWidth l with
           | None => replacementRune ++ cleanBytes fuel r
           | Some n => take n l ++ cleanBytes fuel (drop n l)
           end
  end.
Definition cleanString (s : string) : string := ofBytes (cleanBytes (String.length s) (bytes s)).

(** [utf8.ValidString]. *)
Fixpoint validBytes (fuel : nat) (l : list ascii) : bool :=
  match fuel, l with
  | _, [] => true
  | O, _ => false
  | S fuel, c :: r =>
      if (byteN c <? 128)%N then validBytes fuel r
      else match runeWidth l with None => false | Some n => validBytes fuel (drop n l) end
  end.
Definition validUTF8 (s : string) : bool := validBytes (String.length s) (bytes s).

Arguments cleanString : simpl never.
Arguments validUTF8 : simpl never.

Fixpoint cleanJson (v : json) : json :=
  match v with
  | JString s => JString (cleanString s)
  | JArray l => JArray (map cleanJson l)
  | JObject ms => JObject (map (λ m, (cleanString m.1, cleanJson m.2)) ms)
  | v => v
  end.

(** The nesting of arrays and objects. *)
Fixpoint jsonDepth (v : json) : Z :=
  match v with
  | JArray l => 1 + foldr (λ v d, Z.max (jsonDepth v) d) 0 l
  | JObject ms => 1 + foldr (λ m d, Z.max (jsonDepth m.2) d) 0 ms
  | _ => 0
  end.

(** A number literal: the scanner takes all of it. *)
Definition numberLiteral (t : string) : Prop := scanNumber (bytes t) = Ok (bytes t, []).
Fixpoint numbersOk (v : json) : Prop :=
  match v with
  | JNumber t => numberLiteral t
  | JArray l => foldr (λ v P, numbersOk v ∧ P) True l
  | JObject ms => foldr (λ m P, numbersOk m.2 ∧ P) True ms
  | _ => True
  end.
Fixpoint stringsValid (v : json) : Prop :=
  match v with
  | JString s => validUTF8 s = true
  | JArray l => foldr (λ v P, stringsValid v ∧ P) True l
  | JObject ms => foldr (λ m P, (validUTF8 m.1 = true ∧ stringsValid m.2) ∧ P) True ms
  | _ => True
  end.

(** Induction on values, through the lists in them. *)
Lemma json_nested_ind (P : json → Prop) :
  P JNull → (∀ b, P (JBool b)) → (∀ t, P (JNumber t)) → (∀ s, P (JString s)) →
  (∀ l, Forall P l → P (JArray l)) → (∀ ms, Forall (λ m, P m.2) ms → P (JObject ms)) →
  ∀ v, P v.
Proof.
  intros H1 H2 H3 H4 H5 H6. fix IH 1.
  intros [|b|t|s|l|ms]; [exact H1|apply H2|apply H3|apply H4|apply H5|apply H6].
  - induction l as [|v l IHl]; constructor; [apply IH|exact IHl].
  - induction ms as [|[k v] ms IHl]; constructor; [apply IH|exact IHl].
Qed.

(** ** Strings *)

Lemma push_push a b r : push a (push b r) = push (a ++ b) r.
Proof. destruct r as [[s rest]|e]; [|done]. cbn. by rewrite (assoc_L (++)). Qed.
Lemma push_nil r : push [] r = r.
Proof. by destruct r as [[s rest]|e]. Qed.

(** Every escape of an ASCII byte reads back as that byte, in one step. *)
Lemma scan_escapeAscii c fuel t : (byteN c <? 128)%N = true →
  scanString (S fuel) (escapeAscii c ++ t) = push [c] (scanString fuel t).
Proof. destruct c as [[] [] [] [] [] [] [] []]; intros Hc; first [discriminate Hc|reflexivity]. Qed.
Lemma escapeAscii_length c : (1 ≤ length (escapeAscii c))%nat.
Proof. unfold escapeAscii. repeat case_match; cbn; lia. Qed.

Lemma scan_escapeU_replacement fuel t :
  scanString (S fuel) (escapeU (bytes "fffd") ++ t) = push replacementRune (scanString fuel t).
Proof. reflexivity. Qed.
Lemma scan_lineSeparator l d fuel t : lineSeparator l = Some d →
  scanString (S fuel) (escapeU (bytes "202" ++ [d]) ++ t) = push l (scanString fuel t).
Proof.
  unfold lineSeparator. destruct l as [|a [|b [|c [|]]]]; try done.
  destruct ((byteN a =? 226) && (byteN b =? 128))%N eqn:Hab; [|done].
  apply andb_true_iff in Hab as [Ha%N.eqb_eq Hb%N.eqb_eq].
  assert (a = chr 226) as -> by by apply byteN_inj. assert (b = chr 128) as -> by by apply byteN_inj.
  destruct (byteN c =? 168)%N eqn:Hc; [|destruct (byteN c =? 169)%N eqn:Hc'; [|done]]; intros [= <-].
  - apply N.eqb_eq in Hc. assert (c = chr 168) as -> by by apply byteN_inj. reflexivity.
  - apply N.eqb_eq in Hc'. assert (c = chr 169) as -> by by apply byteN_inj. reflexivity.
Qed.

(** A character of several bytes is recognised whatever follows it. *)
Lemma runeWidth_take l n t : runeWidth l = Some n → runeWidth (take n l ++ t) = Some n ∧ (n ≤ length l)%nat.
Proof.
  intros E. unfold runeWidth in E. destruct l as [|a [|b [|c [|d r]]]]; try discriminate E;
    repeat (step_case_in E; try discriminate E); injection E as <-; (split; [|cbn; lia]); cbn;
    repeat match goal with H : _ = true |- _ => rewrite H; clear H | H : _ = false |- _ => rewrite H; clear H end;
    done.
Qed.

Lemma scan_rune c r n fuel t : (byteN c <? 128)%N = false → runeWidth (c :: r) = Some n →
  scanString (S fuel) (take n (c :: r) ++ t) = push (take n (c :: r)) (scanString fuel t).
Proof.
  intros Hc Hn. pose proof (runeWidth_positive _ _ Hn). pose proof (runeWidth_take _ _ t Hn) as [Ht Hl].
  destruct n as [|n]; [lia|]. set (u := take (S n) (c :: r)) in *.
  assert (Hu : length u = S n) by (unfold u; rewrite length_take; lia).
  assert (Ec : u ++ t = c :: (take n r ++ t)) by done.
  assert (bool_decide (c = dquote) = false) as E1 by (apply bool_decide_eq_false; by intros ->).
  assert (bool_decide (c = backslash) = false) as E2 by (apply bool_decide_eq_false; by intros ->).
  assert ((byteN c <? 32)%N = false) as E3 by (apply N.ltb_ge in Hc; apply N.ltb_ge; lia).
  rewrite Ec. cbn [scanString]. rewrite E1, E2, E3, Hc. rewrite <- Ec, Ht.
  rewrite take_app_le, drop_app_le by lia. rewrite take_ge, drop_ge by lia. done.
Qed.

(** A string as it is written, read back. *)
Lemma scan_escapeBytes fuel l k t : (length l ≤ fuel)%nat → (length (escapeBytes fuel l) < k)%nat →
  ∃ k', scanString k (escapeBytes fuel l ++ t) = push (cleanBytes fuel l) (scanString k' t)
    ∧ (k - length (escapeBytes fuel l) ≤ k')%nat.
Proof.
  revert l k. induction fuel as [|fuel IH]; intros l k Hl Hk.
  { destruct l; [|cbn in Hl; lia]. exists k. cbn. rewrite push_nil. split; [done|lia]. }
  destruct l as [|c r]; [exists k; cbn; rewrite push_nil; split; [done|lia]|].
  assert (Hstep : ∀ (e b r' : list ascii),
    (∀ f u, scanString (S f) (e ++ u) = push b (scanString f u)) → (1 ≤ length e)%nat →
    (length r' ≤ fuel)%nat → (length (e ++ escapeBytes fuel r') < k)%nat →
    ∃ k', scanString k ((e ++ escapeBytes fuel r') ++ t) = push (b ++ cleanBytes fuel r') (scanString k' t)
      ∧ (k - length (e ++ escapeBytes fuel r') ≤ k')%nat).
  { intros e b r' He Hlen Hr Hk'. rewrite length_app in *. destruct k as [|k]; [lia|].
    destruct (IH r' k Hr) as (k' & E & Hk''); [lia|]. exists k'. split; [|lia].
    by rewrite <- (assoc_L (++)), He, E, push_push. }
  cbn [escapeBytes cleanBytes] in *. cbn [length] in Hl. destruct (byteN c <? 128)%N eqn:Hc.
  - apply (Hstep (escapeAscii c) [c]); [|apply escapeAscii_length|lia|done].
    intros f u. by apply scan_escapeAscii.
  - destruct (runeWidth (c :: r)) as [n|] eqn:Hn.
    + pose proof (runeWidth_positive _ _ Hn). pose proof (runeWidth_take _ _ [] Hn) as [_ Hnl].
      cbn [length] in Hnl.
      assert (Hd : (length (drop n (c :: r)) ≤ fuel)%nat) by (rewrite length_drop; cbn; lia).
      destruct (lineSeparator (take n (c :: r))) as [d|] eqn:Hs.
      * apply (Hstep (escapeU (bytes "202" ++ [d]))); [|cbn; lia|done|done].
        intros f u. by apply scan_lineSeparator.
      * apply (Hstep (take n (c :: r)));
          [|rewrite length_take; cbn; lia|done|done]. intros f u. by apply scan_rune.
    + apply (Hstep (escapeU (bytes "fffd")) replacementRune); [|cbn; lia|lia|done]. done.
Qed.
Lemma scan_encoded s t k : (length (escapeBytes (String.length s) (bytes s)) < k)%nat →
  scanString k (escapeBytes (String.length s) (bytes s) ++ dquote :: t)
  = Ok (bytes (cleanString s), t).
Proof.
  intros Hk. destruct (scan_escapeBytes (String.length s) (bytes s) k (dquote :: t)) as (k' & -> & Hk');
    [by rewrite length_bytes|done|].
  destruct k' as [|k']; [lia|]. cbn [scanString]. rewrite bool_decide_eq_true_2 by done. cbn [push].
  unfold cleanString. by rewrite app_nil_r, bytes_ofBytes.
Qed.

Lemma validBytes_clean fuel l : validBytes fuel l = true → cleanBytes fuel l = l.
Proof.
  revert l. induction fuel as [|fuel IH]; intros [|c r]; cbn [validBytes cleanBytes]; try done.
  destruct (byteN c <? 128)%N; [intros H; by rewrite IH|].
  destruct (runeWidth (c :: r)) as [n|]; [|done]. intros H. by rewrite IH, take_drop.
Qed.
Lemma cleanString_valid s : validUTF8 s = true → cleanString s = s.
Proof. unfold validUTF8, cleanString. intros H. by rewrite validBytes_clean, ofBytes_bytes. Qed.
Lemma cleanJson_valid v : stringsValid v → cleanJson v = v.
Proof.
  induction v as [|b|t|s|l IH|ms IH] using json_nested_ind; cbn; intros H; try done.
  - by rewrite cleanString_valid.
  - f_equal. induction IH as [|v l Hv _ IHl]; [done|]. cbn in *. destruct H. by rewrite Hv, IHl.
  - f_equal. induction IH as [|[k v] l Hv _ IHl]; [done|]. cbn in *. destruct H as [[Hk Hv'] H].
    by rewrite Hv, IHl, cleanString_valid.
Qed.

(** ** Numbers *)

(** What may follow a value inside a document. *)
Definition stops (t : list ascii) : Prop :=
  match t with [] => True | c :: _ => c = ","%char ∨ c = "]"%char ∨ c = "}"%char end.
Lemma stops_head t c r : stops t → t = c :: r →
  byteBetween 48 57 c = false ∧ c ≠ "."%char ∧ c ≠ "e"%char ∧ c ≠ "E"%char ∧ c ≠ "0"%char.
Proof. intros H ->. by destruct H as [-> | [-> | ->]]. Qed.

Lemma spanDigits_app l t d r : spanDigits l = (d, r) → stops t → spanDigits (l ++ t) = (d, r ++ t).
Proof.
  revert d r. induction l as [|c l IH]; intros d r E Ht.
  - injection E as <- <-. destruct t as [|c t]; [done|]. cbn. by destruct (stops_head _ _ _ Ht eq_refl) as [-> _].
  - cbn [spanDigits app] in *. destruct (byteBetween 48 57 c); [|by injection E as <- <-].
    destruct (spanDigits l) as [a b] eqn:El. injection E as <- <-. by rewrite (IH a b).
Qed.
Lemma scanDigits_app l t d r : scanDigits l = Ok (d, r) → stops t → scanDigits (l ++ t) = Ok (d, r ++ t).
Proof.
  unfold scanDigits. destruct (spanDigits l) as [[|c d'] r'] eqn:El; [by destruct r'|].
  intros [= <- <-] Ht. by rewrite (spanDigits_app _ _ _ _ El Ht).
Qed.

(** The parts of a number, followed by something that ends it. *)
Definition integerPart (l : list ascii) : result (list ascii * list ascii) :=
  match l with
  | c :: r => if bool_decide (c = "0"%char) then Ok ([c], r) else scanDigits l
  | [] => Err errJsonEnd
  end.
Definition fractionPart (l : list ascii) : result (list ascii * list ascii) :=
  match l with
  | c :: r => if bool_decide (c = "."%char) then '(d, r) ← scanDigits r; Ok (c :: d, r) else Ok ([], l)
  | [] => Ok ([], [])
  end.
Definition exponentPart (l : list ascii) : result (list ascii * list ascii) :=
  match l with
  | c :: r =>
      if bool_decide (c = "e"%char) || bool_decide (c = "E"%char) then
        let '(s, r) := match r with
                       | d :: r' => if bool_decide (d = "+"%char) || bool_decide (d = "-"%char)
                                    then ([d], r') else ([], r)
                       | [] => ([], []) end in
        '(d, r) ← scanDigits r; Ok (c :: s ++ d, r)
      else Ok ([], l)
  | [] => Ok ([], [])
  end.
Definition unsignedNumber (sign l : list ascii) : result (list ascii * list ascii) :=
  '(int, l) ← integerPart l; '(frac, l) ← fractionPart l; '(exp, l) ← exponentPart l;
  Ok (sign ++ int ++ frac ++ exp, l).
Lemma scanNumber_parts l : scanNumber l =
  match l with
  | c :: r => if bool_decide (c = "-"%char) then unsignedNumber [c] r else unsignedNumber [] l
  | [] => unsignedNumber [] []
  end.
Proof. unfold scanNumber. destruct l as [|c r]; [done|]. by destruct (bool_decide (c = "-"%char)). Qed.

(** [p] reads the same with [t] behind. *)
Definition extends (t : list ascii) (p : list ascii → result (list ascii * list ascii)) : Prop :=
  ∀ l x r, p l = Ok (x, r) → p (l ++ t) = Ok (x, r ++ t).

Section followed.
Context (t : list ascii) (Ht : stops t).
Lemma integerPart_app : extends t integerPart.
Proof.
  intros l x r E. destruct l as [|c l]; [done|]. unfold integerPart in *. cbn [app].
  destruct (bool_decide (c = "0"%char)); [by injection E as <- <-|]. by apply (scanDigits_app (c :: l) t).
Qed.
Lemma fractionPart_app : extends t fractionPart.
Proof.
  intros l x r E. destruct l as [|c l].
  - injection E as <- <-. cbn [app]. destruct t as [|c t']; [done|]. unfold fractionPart.
    destruct (stops_head _ _ _ Ht eq_refl) as (_ & Hd & _). by rewrite bool_decide_eq_false_2.
  - unfold fractionPart in *. cbn [app]. destruct (bool_decide (c = "."%char)); [|by injection E as <- <-].
    apply result_bind_Ok in E as ([d r'] & Ed & E). rewrite (scanDigits_app _ _ _ _ Ed Ht).
    by injection E as <- <-.
Qed.
Lemma exponentPart_app : extends t exponentPart.
Proof.
  intros l x r E. destruct l as [|c l].
  - injection E as <- <-. cbn [app]. destruct t as [|c t']; [done|]. unfold exponentPart.
    destruct (stops_head _ _ _ Ht eq_refl) as (_ & _ & He & HE & _). by rewrite !bool_decide_eq_false_2.
  - unfold exponentPart in *. cbn [app].
    destruct (bool_decide (c = "e"%char) || bool_decide (c = "E"%char)); [|by injection E as <- <-].
    destruct l as [|d l]; [done|]. cbn [app].
    destruct (bool_decide (d = "+"%char) || bool_decide (d = "-"%char));
      apply result_bind_Ok in E as ([d' r'] & Ed & E); injection E as <- <-;
      apply (scanDigits_app _ t) in Ed; [|done| |done]; cbn [app] in Ed; by rewrite Ed.
Qed.
Lemma unsignedNumber_app sign : extends t (unsignedNumber sign).
Proof.
  intros l x r E. unfold unsignedNumber in *.
  apply result_bind_Ok in E as ([int l2] & E2 & E). apply integerPart_app in E2. rewrite E2.
  apply result_bind_Ok in E as ([frac l3] & E3 & E). apply fractionPart_app in E3.
  cbn [mbind result_bind]. rewrite E3.
  apply result_bind_Ok in E as ([ex l4] & E4 & E). apply exponentPart_app in E4.
  cbn [mbind result_bind]. rewrite E4. by injection E as <- <-.
Qed.
Lemma scanNumber_app : extends t scanNumber.
Proof.
  intros l x r. rewrite !scanNumber_parts. destruct l as [|c l]; [done|]. cbn [app].
  destruct (bool_decide (c = "-"%char)); [apply unsignedNumber_app|apply (unsignedNumber_app [] (c :: l))].
Qed.
End followed.

(** ** Values *)

(** The byte a value begins with: no space, no closing bracket. *)
Definition beginsValue (c : ascii) : Prop := isJsonSpace c = false ∧ c ≠ "]"%char.
Lemma number_head t : numberLiteral t → ∃ c r, bytes t = c :: r
  ∧ bool_decide (c = "-"%char) || byteBetween 48 57 c = true.
Proof.
  unfold numberLiteral. destruct (bytes t) as [|c r]; [done|]. intros E. exists c, r. split; [done|].
  rewrite scanNumber_parts in E. destruct (bool_decide (c = "-"%char)) eqn:Ec; [done|]. cbn [orb].
  apply result_bind_Ok in E as ([int l] & E & _). cbn in E.
  destruct (bool_decide (c = "0"%char)) eqn:E0; [by apply bool_decide_eq_true in E0 as ->|].
  unfold scanDigits in E. cbn [spanDigits] in E. by destruct (byteBetween 48 57 c).
Qed.
Lemma number_byte c : bool_decide (c = "-"%char) || byteBetween 48 57 c = true →
  isJsonSpace c = false ∧ oneOf (ofBytes [c]) ["{"; "["; "t"; "f"; "n"; "]"] = false ∧ c ≠ dquote.
Proof. destruct c as [[] [] [] [] [] [] [] []]; intros H; first [discriminate H|by split_and!]. Qed.
Lemma encode_head v : numbersOk v → ∃ c r, jsonEncode v = c :: r ∧ beginsValue c.
Proof.
  destruct v as [|b|t|s|l|ms]; cbn; intros H; try (eexists _, _; split; [reflexivity|by split]).
  - destruct b; eexists _, _; (split; [reflexivity|by split]).
  - destruct (number_head _ H) as (c & r & -> & Hc). exists c, r. split; [done|].
    destruct (number_byte _ Hc) as (H1 & H2 & _). split; [done|]. by intros ->.
Qed.
Lemma skipSpace_value c r : isJsonSpace c = false → skipSpace (c :: r) = c :: r.
Proof. intros H. cbn. by rewrite H. Qed.

Lemma parse_string s t fuel depth :
  parseValue (S fuel) depth (encodeString s ++ t) = Ok (JString (cleanString s), t).
Proof.
  unfold encodeString. cbn [app parseValue]. rewrite skipSpace_value by done.
  rewrite bool_decide_eq_true_2 by done. rewrite <- (assoc_L (++)). cbn [app].
  rewrite scan_encoded; [by rewrite ofBytes_bytes|]. rewrite length_app. cbn. lia.
Qed.
Lemma parse_number t r fuel depth : numberLiteral t → stops r →
  parseValue (S fuel) depth (bytes t ++ r) = Ok (JNumber t, r).
Proof.
  intros Ht Hr. destruct (number_head _ Ht) as (c & l & E & Hc). unfold numberLiteral in Ht. rewrite E in Ht.
  pose proof (scanNumber_app r Hr _ _ _ Ht) as En. destruct (number_byte _ Hc) as (Hs & Ho & Hq).
  cbn [app] in En. rewrite E. cbn [app parseValue]. rewrite skipSpace_value by done.
  rewrite En. cbn [mbind result_bind app]. rewrite <- E, ofBytes_bytes.
  assert (∀ s b, oneOf (ofBytes [c]) s = false → ofBytes [b] ∈ s → bool_decide (c = b) = false) as Hne.
  { intros s b Hf Hb. apply bool_decide_eq_false. intros ->. apply oneOf_true in Hb. congruence. }
  rewrite (bool_decide_eq_false_2 _ Hq).
  rewrite !(Hne _ _ Ho) by (rewrite list_elem_of_In; cbn; tauto). by rewrite Hc.
Qed.

(** One array and one object, from their elements. *)
Definition reads (fuel : nat) (v : json) : Prop := ∀ depth t, numbersOk v → stops t →
  depth + jsonDepth v ≤ maxNestingDepth → (2 * length (jsonEncode v ++ t) + 1 ≤ fuel)%nat →
  parseValue fuel depth (jsonEncode v ++ t) = Ok (cleanJson v, t).

Lemma commaSep_cons x l : l ≠ [] → commaSep (x :: l) = x ++ ","%char :: commaSep l.
Proof. by destruct l. Qed.

Lemma parse_elements l fuel depth t : (∀ f v, v ∈ l → reads f v) → l ≠ [] →
  Forall numbersOk l → Forall (λ v, depth + jsonDepth v ≤ maxNestingDepth) l →
  (2 * length (commaSep (map jsonEncode l) ++ "]"%char :: t) + 2 ≤ fuel)%nat →
  parseElements fuel depth (commaSep (map jsonEncode l) ++ "]"%char :: t) = Ok (map cleanJson l, t).
Proof.
  revert fuel. induction l as [|v l IH]; intros fuel HP Hne Hn Hd Hf; [done|].
  apply Forall_cons in Hn as [Hnv Hn]. apply Forall_cons in Hd as [Hdv Hd].
  destruct fuel as [|fuel]; [lia|]. destruct (encode_head v Hnv) as (c0 & r0 & Hc & _).
  destruct (decide (l = [])) as [->|Hl].
  - cbn [map commaSep concat] in *. rewrite app_nil_r in *. cbn [parseElements].
    rewrite (HP fuel v); [|set_solver|done|by right; left|done|lia].
    rewrite skipSpace_value by done. by rewrite bool_decide_eq_true_2 by done.
  - cbn [map] in *. rewrite commaSep_cons in Hf |- * by (by destruct l).
    rewrite <- (assoc_L (++)) in Hf |- *. cbn [app] in Hf |- *. cbn [parseElements].
    rewrite (HP fuel v); [|set_solver|done|by left|done|lia].
    rewrite skipSpace_value by done. rewrite bool_decide_eq_false_2, bool_decide_eq_true_2 by done.
    rewrite IH; [done|set_solver|done|done|done|].
    rewrite Hc in Hf. rewrite !length_app in Hf |- *. cbn [length] in Hf |- *. rewrite !length_app in Hf. cbn [length] in Hf. lia.
Qed.
Definition encodeMember (m : string * json) : list ascii := encodeString m.1 ++ [":"%char] ++ jsonEncode m.2.
Lemma parse_members ms fuel depth t : (∀ f m, m ∈ ms → reads f m.2) → ms ≠ [] →
  Forall (λ m, numbersOk m.2) ms → Forall (λ m, depth + jsonDepth m.2 ≤ maxNestingDepth) ms →
  (2 * length (commaSep (map encodeMember ms) ++ "}"%char :: t) + 2 ≤ fuel)%nat →
  parseMembers fuel depth (commaSep (map encodeMember ms) ++ "}"%char :: t)
  = Ok (map (λ m, (cleanString m.1, cleanJson m.2)) ms, t).
Proof.
  revert fuel. induction ms as [|[k v] ms IH]; intros fuel HP Hne Hn Hd Hf; [done|].
  apply Forall_cons in Hn as [Hnv Hn]. apply Forall_cons in Hd as [Hdv Hd]. cbn [snd] in *.
  destruct fuel as [|fuel]; [lia|].
  assert (Hhead : ∀ u, (2 * length (encodeMember (k, v) ++ u) + 2 ≤ S fuel)%nat → stops u →
    parseMembers (S fuel) depth (encodeMember (k, v) ++ u) =
    match skipSpace u with
    | [] => Err errJsonEnd
    | c :: r => if bool_decide (c = "}"%char) then Ok ([(cleanString k, cleanJson v)], r)
                else if bool_decide (c = ","%char) then
                  match parseMembers fuel depth r with
                  | Ok (ms, r) => Ok ((cleanString k, cleanJson v) :: ms, r) | Err e => Err e end
                else Err errJsonInvalid
    end).
  { intros u Hu Hs. unfold encodeMember, encodeString in *. cbn [fst snd app] in *. cbn [parseMembers].
    rewrite skipSpace_value by done. rewrite bool_decide_eq_true_2 by done.
    rewrite <- !(assoc_L (++)) in *. cbn [app] in *. rewrite scan_encoded by (rewrite length_app; cbn; lia).
    rewrite skipSpace_value by done. rewrite bool_decide_eq_true_2 by done.
    rewrite (HP fuel (k, v)); [by rewrite ofBytes_bytes|set_solver|done|done|done|].
    cbn [length] in Hu. rewrite length_app in Hu. cbn [length snd] in *. lia. }
  destruct (decide (ms = [])) as [->|Hl].
  - cbn [map commaSep concat] in *. rewrite app_nil_r in *. rewrite Hhead by (done || by right; right).
    rewrite skipSpace_value by done. by rewrite bool_decide_eq_true_2 by done.
  - cbn [map] in *. rewrite commaSep_cons in Hf |- * by (by destruct ms).
    rewrite <- (assoc_L (++)) in Hf |- *. cbn [app] in Hf |- *. rewrite Hhead by (done || by left).
    rewrite skipSpace_value by done. rewrite bool_decide_eq_false_2, bool_decide_eq_true_2 by done.
    rewrite IH; [done|set_solver|done|done|done|].
    rewrite !length_app in Hf |- *. cbn [length] in Hf |- *. rewrite !length_app in Hf. cbn [length] in Hf. lia.
Qed.

Lemma foldr_and {A} (P : A → Prop) l : foldr (λ x Q, P x ∧ Q) True l ↔ Forall P l.
Proof. induction l as [|x l IH]; cbn; [by split|]. by rewrite IH, Forall_cons. Qed.
Lemma foldr_max {A} (f : A → Z) l b : foldr (λ x d, Z.max (f x) d) 0 l ≤ b → Forall (λ x, f x ≤ b) l.
Proof. induction l as [|x l IH]; cbn; intros H; constructor; [lia|]. apply IH. lia. Qed.
Lemma jsonDepth_nonneg v : 0 ≤ jsonDepth v.
Proof.
  induction v as [|b|t|s|l _|ms _] using json_nested_ind; cbn; try lia.
  - assert (0 ≤ foldr (λ v d, Z.max (jsonDepth v) d) 0 l); [|lia]. induction l; cbn; lia.
  - assert (0 ≤ foldr (λ m d, Z.max (jsonDepth m.2) d) 0 ms); [|lia]. induction ms; cbn; lia.
Qed.

Lemma parse_array l fuel depth t : (∀ f v, v ∈ l → reads f v) → numbersOk (JArray l) →
  depth + jsonDepth (JArray l) ≤ maxNestingDepth →
  (2 * length (jsonEncode (JArray l) ++ t) + 1 ≤ S fuel)%nat →
  parseValue (S fuel) depth (jsonEncode (JArray l) ++ t) = Ok (JArray (map cleanJson l), t).
Proof.
  intros HP Hn Hd Hf. cbn in Hn, Hd. apply foldr_and in Hn.
  assert (Hd' : foldr (λ v d, Z.max (jsonDepth v) d) 0 l ≤ maxNestingDepth - (depth + 1)) by lia.
  apply foldr_max in Hd'. cbn [jsonEncode app] in *. cbn [parseValue].
  rewrite skipSpace_value by done. rewrite bool_decide_eq_false_2 by done.
  rewrite bool_decide_eq_false_2, bool_decide_eq_true_2 by done.
  assert (depth < maxNestingDepth).
  { assert (0 ≤ foldr (λ v d, Z.max (jsonDepth v) d) 0 l); [|lia]. clear. induction l; cbn; lia. }
  assert ((maxNestingDepth <=? depth) = false) as -> by (apply Z.leb_gt; lia).
  rewrite <- (assoc_L (++)) in *. cbn [app] in *. destruct l as [|v l]; [reflexivity|].
  assert (Hhead : ∃ c r, commaSep (map jsonEncode (v :: l)) = c :: r ∧ beginsValue c).
  { apply Forall_cons in Hn as [Hv _]. destruct (encode_head v Hv) as (c & r & Ec & Hc).
    cbn [map commaSep]. rewrite Ec. by eexists _, _. }
  destruct Hhead as (c & r & Ec & [Hs Hb]). rewrite Ec. cbn [app]. rewrite skipSpace_value by done.
  rewrite bool_decide_eq_false_2 by done.
  change (c :: r ++ "]"%char :: t) with ((c :: r) ++ "]"%char :: t). rewrite <- Ec.
  rewrite parse_elements; [done|done|done|done| |cbn [length] in Hf; lia].
  eapply Forall_impl; [apply Hd'|]. intros x Hx. cbn in Hx. lia.
Qed.
Lemma parse_object ms fuel depth t : (∀ f m, m ∈ ms → reads f m.2) → numbersOk (JObject ms) →
  depth + jsonDepth (JObject ms) ≤ maxNestingDepth →
  (2 * length (jsonEncode (JObject ms) ++ t) + 1 ≤ S fuel)%nat →
  parseValue (S fuel) depth (jsonEncode (JObject ms) ++ t)
  = Ok (JObject (map (λ m, (cleanString m.1, cleanJson m.2)) ms), t).
Proof.
  intros HP Hn Hd Hf. cbn in Hn, Hd. apply foldr_and in Hn.
  assert (Hd' : foldr (λ m d, Z.max (jsonDepth m.2) d) 0 ms ≤ maxNestingDepth - (depth + 1)) by lia.
  apply (foldr_max (λ m, jsonDepth m.2)) in Hd'. cbn [jsonEncode app] in *. fold encodeMember in *. cbn [parseValue].
  rewrite skipSpace_value by done. rewrite bool_decide_eq_false_2, bool_decide_eq_true_2 by done.
  assert (depth < maxNestingDepth).
  { assert (0 ≤ foldr (λ m d, Z.max (jsonDepth m.2) d) 0 ms); [|lia]. clear. induction ms; cbn; lia. }
  assert ((maxNestingDepth <=? depth) = false) as -> by (apply Z.leb_gt; lia).
  rewrite <- (assoc_L (++)) in *. cbn [app] in *. destruct ms as [|m ms]; [reflexivity|].
  assert (∃ r, commaSep (map encodeMember (m :: ms)) = dquote :: r) as [r Ec] by (eexists; reflexivity).
  change (map (λ m, encodeString m.1 ++ ":"%char :: jsonEncode m.2) (m :: ms)) with (map encodeMember (m :: ms)) in *.
  rewrite Ec. cbn [app]. rewrite skipSpace_value by done. rewrite bool_decide_eq_false_2 by done.
  change (dquote :: r ++ "}"%char :: t) with ((dquote :: r) ++ "}"%char :: t). rewrite <- Ec.
  rewrite parse_members; [done|done|done|done| |cbn [length] in Hf; lia].
  eapply Forall_impl; [apply Hd'|]. intros x Hx. cbn in Hx. lia.
Qed.

Lemma encode_reads v : ∀ fuel, reads fuel v.
Proof.
  induction v as [|b|x|s|l IH|ms IH] using json_nested_ind; intros [|fuel] depth t Hn Ht Hd Hf;
    try (exfalso; lia).
  - reflexivity.
  - by destruct b.
  - by apply parse_number.
  - apply parse_string.
  - apply parse_array; [|done|done|done]. intros f v Hv. rewrite Forall_forall in IH. by apply IH.
  - apply parse_object; [|done|done|done]. intros f m Hm. rewrite Forall_forall in IH. by apply IH.
Qed.

(** [json.Unmarshal] of [json.Marshal]: the value, with invalid UTF-8 replaced. *)
Lemma marshal_parse v : numbersOk v → jsonDepth v ≤ maxNestingDepth →
  jsonParse (jsonMarshal v) = Ok (cleanJson v).
Proof.
  intros Hn Hd. unfold jsonParse, jsonMarshal. pose proof (encode_reads v) as Hr.
  rewrite bytes_ofBytes. rewrite <- (app_nil_r (jsonEncode v)) at 2.
  rewrite (Hr _ 0 []); [done|done|done|lia|].
  rewrite app_nil_r, <- length_bytes, bytes_ofBytes. lia.
Qed.
Lemma marshal_parse_valid v : numbersOk v → stringsValid v → jsonDepth v ≤ maxNestingDepth →
  jsonParse (jsonMarshal v) = Ok v.
Proof. intros Hn Hs Hd. by rewrite marshal_parse, cleanJson_valid. Qed.

(** ** Decimal literals *)

Definition literalByte (c : ascii) : bool := byteBetween 48 57 c.
Lemma spanDigits_all l : forallb literalByte l = true → spanDigits l = (l, []).
Proof.
  induction l as [|c l IH]; [done|]. cbn. intros [Hc Hl]%andb_true_iff. unfold literalByte in Hc.
  by rewrite Hc, IH.
Qed.
Lemma string_of_uint_digits d : forallb literalByte (bytes (NilEmpty.string_of_uint d)) = true.
Proof. by induction d. Qed.
(** The digits of a positive number do not begin with zero. *)
Lemma to_uint_head p d : Pos.to_uint p ≠ Decimal.D0 d.
Proof.
  intros E. pose proof (DecimalN.Unsigned.to_of (Pos.to_uint p)) as H. unfold N.of_uint in H.
  rewrite DecimalPos.Unsigned.of_to in H. cbn in H. rewrite E in H at 2.
  assert (Hz : Decimal.nzhead (Decimal.D0 d) ≠ Decimal.Nil).
  { intros Hz. apply unorm_0 in Hz. rewrite Hz in H. by apply (DecimalPos.Unsigned.to_uint_nonzero p). }
  rewrite (unorm_nzhead _ Hz) in H. rewrite E in H. by apply (nzhead_nonzero (Decimal.D0 d) d).
Qed.
Lemma positive_literal sign p : let l := bytes (NilZero.string_of_uint (Pos.to_uint p)) in
  unsignedNumber sign l = Ok (sign ++ l, []).
Proof.
  assert (NilZero.string_of_uint (Pos.to_uint p) = NilEmpty.string_of_uint (Pos.to_uint p)) as ->.
  { pose proof (to_uint_pos_nonempty p). by destruct (Pos.to_uint p). }
  cbn zeta. set (l := bytes _). pose proof (string_of_uint_digits (Pos.to_uint p)) as Hd. fold l in Hd.
  assert (∃ c r, l = c :: r ∧ c ≠ "0"%char) as (c & r & El & Hc).
  { unfold l. pose proof (to_uint_pos_nonempty p). pose proof (to_uint_head p) as Hh.
    destruct (Pos.to_uint p); [done|exfalso; by eapply Hh|..]; eexists _, _; (split; [reflexivity|done]). }
  unfold unsignedNumber. cbn [mbind result_bind]. unfold integerPart, scanDigits.
  rewrite (spanDigits_all _ Hd), El, bool_decide_eq_false_2 by done. cbn. by rewrite app_nil_r.
Qed.
Lemma itoa_literal z : numberLiteral (itoa z).
Proof.
  unfold numberLiteral, itoa. destruct z as [|p|p]; [done|..].
  - rewrite scanNumber_parts. pose proof (positive_literal [] p) as H. cbn [app] in H. cbn zeta in H.
    change (Z.to_int (Z.pos p)) with (Decimal.Pos (Pos.to_uint p)). cbn [NilZero.string_of_int].
    destruct (bytes _) as [|c r] eqn:E; [done|]. destruct (bool_decide (c = "-"%char)) eqn:Ec; [|done].
    apply bool_decide_eq_true in Ec as ->. exfalso. pose proof (string_of_uint_digits (Pos.to_uint p)) as Hd.
    assert (NilZero.string_of_uint (Pos.to_uint p) = NilEmpty.string_of_uint (Pos.to_uint p)) as Hs.
    { pose proof (to_uint_pos_nonempty p). by destruct (Pos.to_uint p). }
    rewrite <- Hs, E in Hd. done.
  - rewrite scanNumber_parts. change (Z.to_int (Z.neg p)) with (Decimal.Neg (Pos.to_uint p)).
    cbn [NilZero.string_of_int]. apply (positive_literal ["-"%char] p).
Qed.
