(* ===== verification/HttpClient.v ===== *)
(** * The redirects of net/http

    What [http.Client.Do] does around single exchanges: references resolved against
    the URL of the request ([url.URL.ResolveReference]), the request of a redirect
    with the header fields it inherits, the [CheckRedirect] callback, and the errors.
    One exchange is [httpDo].  A request carries a context of type [C], of which the
    client knows nothing.  A body, when there is one, can be read again. *)

From S2P Require Import Prelude GoStrings GoUrl GoTime Redis World Signer.

(** ** References *)

(** One element of [resolvePath]: the text after the first slash, and [first]. *)
Definition resolveStep (st : string * bool) (elem : string) : string * bool :=
  let '(dst, first) := st in
  if elem =s "." then (dst, false)
  else if elem =s ".." then
    match cutLast dst "/" with None => ("", true) | Some (before, _) => (before, first) end
  else (dst +:+ (if first then "" else "/") +:+ elem, false).
Definition resolvePath (base ref : string) : string :=
  let full := if ref =s "" then base
              else if HasPrefix ref "/" then ref
              else match cutLast base "/" with None => ref | Some (before, _) => before +:+ "/" +:+ ref end in
  if full =s "" then ""
  else
    let elems := Split full "/" in
    let last := List.last elems "" in
    let dst := (foldl resolveStep ("", true) elems).1 in
    let r := "/" +:+ dst +:+ (if (last =s ".") || (last =s "..") then "/" else "") in
    if HasPrefix r "//" then TrimPrefix r "/" else r.

(** [setPath] with its error ignored. *)
Definition withPath (u : URL) (p : string) : URL := match setPath u p with Ok u' => u' | Err _ => u end.
Definition ResolveReference (u ref : URL) : URL :=
  let scheme := if Scheme ref =s "" then Scheme u else Scheme ref in
  let hasUser := match User ref with Some _ => true | None => false end in
  if negb (Scheme ref =s "") || negb (Host ref =s "") || hasUser then
    withPath (mkURL scheme (Opaque ref) (User ref) (Host ref) (Path ref) (RawPath ref) (OmitHost ref) (ForceQuery ref)
                (RawQuery ref) (Fragment ref) (RawFragment ref)) (resolvePath (EscapedPath ref) "")
  else if negb (Opaque ref =s "") then
    mkURL scheme (Opaque ref) None "" "" (RawPath ref) (OmitHost ref) (ForceQuery ref) (RawQuery ref) (Fragment ref)
      (RawFragment ref)
  else
    let inherits := (Path ref =s "") && negb (ForceQuery ref) && (RawQuery ref =s "") in
    let rawQuery := if inherits then RawQuery u else RawQuery ref in
    let '(fragment, rawFragment) := if inherits && (Fragment ref =s "") then (Fragment u, RawFragment u)
                                    else (Fragment ref, RawFragment ref) in
    if (Path ref =s "") && negb (Opaque u =s "") then
      mkURL scheme (Opaque u) None "" "" (RawPath ref) (OmitHost ref) (ForceQuery ref) rawQuery fragment rawFragment
    else
      withPath (mkURL scheme (Opaque ref) (User u) (Host u) (Path ref) (RawPath ref) (OmitHost ref) (ForceQuery ref)
                  rawQuery fragment rawFragment) (resolvePath (EscapedPath u) (EscapedPath ref)).
(** [u.Parse(ref)]. *)
Definition parseReference (u : URL) (ref : string) : result URL := r ← url_Parse ref; Ok (ResolveReference u r).

(** [strings.Replace(s, old, new, 1)]. *)
Fixpoint replaceFirstBytes (old new l : list ascii) : list ascii :=
  match prefixBytes old l with
  | Some rest => new ++ rest
  | None => match l with [] => [] | c :: l => c :: replaceFirstBytes old new l end
  end.
Definition replaceFirst (s old new : string) : string := ofBytes (replaceFirstBytes (bytes old) (bytes new) (bytes s)).

Definition stripPassword (u : URL) : string :=
  match User u with
  | Some (name, Some _ as password) =>
      replaceFirst (URL_String u) (userString (name, password) +:+ "@") (name +:+ ":***@")
  | _ => URL_String u
  end.
Definition refererForURL (lastReq newReq : URL) (explicitRef : string) : string :=
  if (Scheme lastReq =s "https") && (Scheme newReq =s "http") then ""
  else if negb (explicitRef =s "") then explicitRef
  else match User lastReq with
  | Some user => replaceFirst (URL_String lastReq) (userString user +:+ "@") ""
  | None => URL_String lastReq
  end.

(** A [*url.Error] of the client. *)
Definition urlErrorOp (method : string) : string :=
  match method with
  | "" => "Get"
  | String c rest => String c (ToLower rest)
  end.
Definition clientError (method url : string) (e : error) : error :=
  mkError (urlErrorOp method +:+ " " +:+ quote url +:+ ": " +:+ err_text e) ((urlErrorTag +:+ err_text e) :: err_is e).

(** ** The client *)

(** The method of the next request, and whether it has the body again; [None] when the answer is
    no redirect. *)
Definition redirectBehavior (reqMethod : string) (statusCode : Z) : option (string * bool) :=
  if (statusCode =? 301) || (statusCode =? 302) || (statusCode =? 303) then
    Some (if negb (reqMethod =s "GET") && negb (reqMethod =s "HEAD") then "GET" else reqMethod, false)
  else if (statusCode =? 307) || (statusCode =? 308) then Some (reqMethod, true)
  else None.
Definition sensitiveHeaders : list string := ["Authorization"; "Www-Authenticate"; "Cookie"; "Cookie2"].

Section client.
Context {S : Type} {C : Type}.
Abbreviation Mw := (M (World S)).

Record ctxRequest := mkCtxRequest { cReq : outRequest; cCtx : C }.
(** What [CheckRedirect] decides: follow with this request (the callback may have changed it),
    return [ErrUseLastResponse], or fail. *)
Inductive redirectVerdict :=
  | FollowRedirect (r : ctxRequest)
  | UseLastResponse
  | RefuseRedirect (e : error).
(** [copySensitive]: whether the sensitive fields go along from the first URL to the second. *)
Record httpClient := mkHttpClient {
  CheckRedirect : option (ctxRequest → list ctxRequest → Mw redirectVerdict);
  copySensitive : URL → URL → bool }.
Definition defaultCheckRedirect (redirect : ctxRequest) (via : list ctxRequest) : Mw redirectVerdict :=
  if (10 <=? length via)%nat then mret (RefuseRedirect (errorsNew "stopped after 10 redirects"))
  else mret (FollowRedirect redirect).

Definition wireRequest (r : outRequest) : httpRequest :=
  mkHttpRequest (outMethod r) (default "" (URL_String <$> outURL r)) (outHeader r) (default "" (outBody r)).

(** The request that follows a redirect of [req] to [u]; [ireq] is the first request. *)
Definition redirectedRequest (client : httpClient) (ireq req : ctxRequest) (base u : URL) (loc method : string)
    (includeBody : bool) : ctxRequest :=
  let host := if negb (outHost (cReq req) =s "") && negb (outHost (cReq req) =s Host base) then
                match url_Parse loc with
                | Ok l => if Scheme l =s "" then outHost (cReq req) else ""
                | Err _ => ""
                end
              else "" in
  let header := if copySensitive client base u then outHeader (cReq ireq)
                else foldl headerDel (outHeader (cReq ireq)) sensitiveHeaders in
  let ref := refererForURL base u (headerGet header "Referer") in
  let header := if ref =s "" then header else headerSet header "Referer" ref in
  mkCtxRequest (mkOut method (Some u) host header (if includeBody then outBody (cReq ireq) else None)
                  (if includeBody then outContentLength (cReq ireq) else 0)) (cCtx ireq).

(** The loop of [Client.do], with at most [fuel] exchanges; the answer comes with the request it
    answers. *)
Fixpoint follow (fuel : nat) (client : httpClient) (ireq : ctxRequest) (reqs : list ctxRequest) (req : ctxRequest)
    : Mw (result (httpResponse * ctxRequest)) :=
  match fuel with
  | O => panic "redirects without an end"
  | Datatypes.S fuel =>
      resp ←! httpDo (wireRequest (cReq req));
      let reqs := reqs ++ [req] in
      match redirectBehavior (outMethod (cReq req)) (StatusCode resp) with
      | None => mret (Ok (resp, req))
      | Some (method, includeBody) =>
          let loc := headerGet (RespHeader resp) "Location" in
          if loc =s "" then mret (Ok (resp, req))
          else match outURL (cReq req) with
          | None => panic "invalid memory address or nil pointer dereference"
          | Some base =>
              match parseReference base loc with
              | Err e => mret (Err (clientError (outMethod (cReq ireq)) (stripPassword base)
                           (errorsNew ("failed to parse Location header " +:+ quote loc +:+ ": " +:+ err_text e))))
              | Ok u =>
                  verdict ← default defaultCheckRedirect (CheckRedirect client)
                              (redirectedRequest client ireq req base u loc method includeBody) reqs;
                  match verdict with
                  | FollowRedirect redirect => follow fuel client ireq reqs redirect
                  | UseLastResponse => mret (Ok (resp, req))
                  | RefuseRedirect e => mret (Err (clientError (outMethod (cReq ireq)) loc e))
                  end
              end
          end
      end
  end.
(** [Client.Do].  Ten exchanges are enough for a callback that refuses the eleventh. *)
Definition maxExchanges : nat := 10.
Definition clientDo (client : httpClient) (req : ctxRequest) : Mw (result (httpResponse * ctxRequest)) :=
  match outURL (cReq req) with
  | None => mret (Err (clientError (outMethod (cReq req)) "" (errorsNew "http: nil Request.URL")))
  | Some _ => follow maxExchanges client req [] req
  end.
End client.
Arguments ctxRequest : clear implicits.
Arguments redirectVerdict : clear implicits.
Arguments httpClient : clear implicits.

(** ** Checks against known results (RFC 3986, section 5.4) *)

Definition resolvesTo (base ref : string) : option string :=
  match url_Parse base with Ok u => match parseReference u ref with Ok v => Some (URL_String v) | Err _ => None end | Err _ => None end.
Example rfc3986_references : map (resolvesTo "http://a/b/c/d?q")
    ["g"; "./g"; "g/"; "/g"; "//g"; "?y"; "g?y"; "#s"; "../../g"; ".."; "../../../g"; "./g/."; "g:h"; ""]
  = map Some ["http://a/b/c/g"; "http://a/b/c/g"; "http://a/b/c/g/"; "http://a/g"; "http://g"; "http://a/b/c/d?y";
              "http://a/b/c/g?y"; "http://a/b/c/d?q#s"; "http://a/g"; "http://a/b/"; "http://a/g"; "http://a/b/c/g/";
              "g:h"; "http://a/b/c/d?q"].
Proof. vm_compute. reflexivity. Qed.
