(* ===== verification/ActivityModel.v ===== *)
(** * Actors and activities (models/models.go)

    The ActivityPub documents the relay reads and writes, their JSON forms, the
    unwrapping of an activity's object, and the retrieval of remote documents
    through the actor cache.  The cache (patrickmn/go-cache, whose entries expire)
    and the executor of signed GET requests are parameters. *)

From S2P Require Import Prelude GoStrings GoUrl Redis GoTime World Json.

(** ** Data *)

Record PublicKey := mkPublicKey { pkID : string; pkOwner : string; pkPem : string }.
(** [Endpoints], [Image] hold one string; a pointer to them is an option. *)
Record Actor := mkActor {
  acContext : option json; acID : string; acType : string; acName : string;
  acPreferredUsername : string; acSummary : string; acInbox : string; acOutbox : string;
  acFollowingURL : string; acFollowersURL : string; acEndpoints : option string;
  acPublicKey : PublicKey; acIcon : option string; acImage : option string }.
Definition zeroActor : Actor :=
  mkActor None "" "" "" "" "" "" "" "" "" None (mkPublicKey "" "" "") None None.
Definition actorFollowers (actor : Actor) : string :=
  if negb (acFollowersURL actor =s "") then acFollowersURL actor else acID actor +:+ "/followers".

Record Activity := mkActivity {
  aContext : option json; aID : string; aActor : string; aType : string;
  aObject : option json; aTo : list string; aCc : list string }.
Definition zeroActivity : Activity := mkActivity None "" "" "" None [] [].

(** ** Decoding *)

Definition publicKeyField (k : string) (v : json) (p : PublicKey) : result PublicKey :=
  if EqualFold k "id" then s ← decodeString (pkID p) v; Ok (mkPublicKey s (pkOwner p) (pkPem p))
  else if EqualFold k "owner" then s ← decodeString (pkOwner p) v; Ok (mkPublicKey (pkID p) s (pkPem p))
  else if EqualFold k "publicKeyPem" then s ← decodeString (pkPem p) v; Ok (mkPublicKey (pkID p) (pkOwner p) s)
  else Ok p.
Definition oneField (name k : string) (v : json) (old : string) : result string :=
  if EqualFold k name then decodeString old v else Ok old.
(** A pointer to a struct with one string field. *)
Definition decodePointer (name : string) (old : option string) (v : json) : result (option string) :=
  match v with
  | JNull => Ok None
  | _ => Some <$> decodeStruct (oneField name) (default "" old) v
  end.

Definition actorField (k : string) (v : json) (a : Actor) : result Actor :=
  let '(mkActor ctx id ty name user summary inbox outbox fing fers ep key icon image) := a in
  if EqualFold k "@context" then
    x ← decodeInterface v; Ok (mkActor x id ty name user summary inbox outbox fing fers ep key icon image)
  else if EqualFold k "id" then
    s ← decodeString id v; Ok (mkActor ctx s ty name user summary inbox outbox fing fers ep key icon image)
  else if EqualFold k "type" then
    s ← decodeString ty v; Ok (mkActor ctx id s name user summary inbox outbox fing fers ep key icon image)
  else if EqualFold k "name" then
    s ← decodeString name v; Ok (mkActor ctx id ty s user summary inbox outbox fing fers ep key icon image)
  else if EqualFold k "preferredUsername" then
    s ← decodeString user v; Ok (mkActor ctx id ty name s summary inbox outbox fing fers ep key icon image)
  else if EqualFold k "summary" then
    s ← decodeString summary v; Ok (mkActor ctx id ty name user s inbox outbox fing fers ep key icon image)
  else if EqualFold k "inbox" then
    s ← decodeString inbox v; Ok (mkActor ctx id ty name user summary s outbox fing fers ep key icon image)
  else if EqualFold k "outbox" then
    s ← decodeString outbox v; Ok (mkActor ctx id ty name user summary inbox s fing fers ep key icon image)
  else if EqualFold k "following" then
    s ← decodeString fing v; Ok (mkActor ctx id ty name user summary inbox outbox s fers ep key icon image)
  else if EqualFold k "followers" then
    s ← decodeString fers v; Ok (mkActor ctx id ty name user summary inbox outbox fing s ep key icon image)
  else if EqualFold k "endpoints" then
    p ← decodePointer "sharedInbox" ep v;
    Ok (mkActor ctx id ty name user summary inbox outbox fing fers p key icon image)
  else if EqualFold k "publicKey" then
    p ← decodeStruct publicKeyField key v;
    Ok (mkActor ctx id ty name user summary inbox outbox fing fers ep p icon image)
  else if EqualFold k "icon" then
    p ← decodePointer "url" icon v;
    Ok (mkActor ctx id ty name user summary inbox outbox fing fers ep key p image)
  else if EqualFold k "image" then
    p ← decodePointer "url" image v;
    Ok (mkActor ctx id ty name user summary inbox outbox fing fers ep key icon p)
  else Ok a.
Definition activityField (k : string) (v : json) (a : Activity) : result Activity :=
  let '(mkActivity ctx id actor ty object to cc) := a in
  if EqualFold k "@context" then x ← decodeInterface v; Ok (mkActivity x id actor ty object to cc)
  else if EqualFold k "id" then s ← decodeString id v; Ok (mkActivity ctx s actor ty object to cc)
  else if EqualFold k "actor" then s ← decodeString actor v; Ok (mkActivity ctx id s ty object to cc)
  else if EqualFold k "type" then s ← decodeString ty v; Ok (mkActivity ctx id actor s object to cc)
  else if EqualFold k "object" then x ← decodeInterface v; Ok (mkActivity ctx id actor ty x to cc)
  else if EqualFold k "to" then l ← decodeStrings to v; Ok (mkActivity ctx id actor ty object l cc)
  else if EqualFold k "cc" then l ← decodeStrings cc v; Ok (mkActivity ctx id actor ty object to l)
  else Ok a.

(** [json.Unmarshal(data, &actor)], [json.Unmarshal(data, &activity)] into a zero value. *)
Definition unmarshalActor (data : string) : result Actor :=
  v ← jsonParse data; decodeStruct actorField zeroActor v.
Definition unmarshalActivity (data : string) : result Activity :=
  v ← jsonParse data; decodeStruct activityField zeroActivity v.

(** ** Encoding *)

(** The members of a struct with [omitempty] on every field. *)
Definition omitString (name s : string) : list (string * json) := if s =s "" then [] else [(name, JString s)].
Definition omitStrings (name : string) (l : list string) : list (string * json) :=
  match l with [] => [] | _ => [(name, JArray (map JString l))] end.
Definition omitInterface (name : string) (o : option json) : list (string * json) :=
  match o with None => [] | Some v => [(name, v)] end.
Definition activityJson (a : Activity) : json :=
  JObject (omitInterface "@context" (aContext a) ++ omitString "id" (aID a) ++ omitString "actor" (aActor a)
    ++ omitString "type" (aType a) ++ omitInterface "object" (aObject a)
    ++ omitStrings "to" (aTo a) ++ omitStrings "cc" (aCc a)).
(** An actor; a [PublicKey] is a struct, which [omitempty] keeps. *)
Definition omitPointer (name field : string) (o : option string) : list (string * json) :=
  match o with None => [] | Some s => [(name, JObject (omitString field s))] end.
Definition actorJson (a : Actor) : json :=
  JObject (omitInterface "@context" (acContext a) ++ omitString "id" (acID a) ++ omitString "type" (acType a)
    ++ omitString "name" (acName a) ++ omitString "preferredUsername" (acPreferredUsername a)
    ++ omitString "summary" (acSummary a) ++ omitString "inbox" (acInbox a) ++ omitString "outbox" (acOutbox a)
    ++ omitString "following" (acFollowingURL a) ++ omitString "followers" (acFollowersURL a)
    ++ omitPointer "endpoints" "sharedInbox" (acEndpoints a)
    ++ [("publicKey", JObject (omitString "id" (pkID (acPublicKey a)) ++ omitString "owner" (pkOwner (acPublicKey a))
                               ++ omitString "publicKeyPem" (pkPem (acPublicKey a))))]
    ++ omitPointer "icon" "url" (acIcon a) ++ omitPointer "image" "url" (acImage a)).
Definition marshalActivity (a : Activity) : string := jsonMarshal (activityJson a).

(** ** Objects *)

Definition stringMember (k : string) (ms : list (string * json)) : option string :=
  match lookupMember k ms with Some (JString s) => Some s | _ => None end.

(** [UnwrapInnerActivity]; a JSON [null] object is a [nil] interface. *)
Definition UnwrapInnerActivity (activity : Activity) : result Activity :=
  match aObject activity with
  | Some (JObject ms) =>
      match stringMember "id" ms, stringMember "type" ms, stringMember "actor" ms, lookupMember "object" ms with
      | Some innerId, Some innerType, Some innerActor, Some object =>
          Ok (mkActivity None innerId innerActor innerType
                (match object with JNull => None | v => Some v end) [] [])
      | _, _, _, _ => Err (errorsNew "object is not Activity")
      end
  | _ => Err (errorsNew "object is not Activity")
  end.
Definition UnwrapInnerObjectId (activity : Activity) : result string :=
  match aObject activity with
  | Some (JString s) => Ok s
  | Some (JObject ms) =>
      match stringMember "id" ms with Some s => Ok s | None => Err (errorsNew "object not has id") end
  | _ => Err (errorsNew "object not has id")
  end.

Definition activityStreamsContext : option json :=
  Some (JArray [JString "https://www.w3.org/ns/activitystreams"]).

(** ** Operations *)

Section operations.
Context {S : Type} `{Redis S}.
Abbreviation Mw := (M (World S)).

Definition GenerateReply (activity : Activity) (actor : Actor) (object : json) (activityType : string)
    : Mw Activity :=
  id ← uuidNew;
  mret (mkActivity activityStreamsContext (acID actor +:+ "/activities/" +:+ id) (acID actor)
          activityType (Some object) [aActor activity] []).
Definition NewActivityPubActivity (actor : Actor) (to : list string) (object : json) (activityType : string)
    : Mw Activity :=
  id ← uuidNew;
  mret (mkActivity activityStreamsContext (acID actor +:+ "/activities/" +:+ id) (acID actor)
          activityType (Some object) to []).

(** [io.ReadAll(io.LimitReader(body, limit + 1))]: an error of the body is met only when the
    limit is not. *)
Definition readLimited (limit : Z) (body : string) (readErr : option error) : string * option error :=
  if len body <? limit + 1 then (body, readErr)
  else (ofBytes (take (Z.to_nat (limit + 1)) (bytes body)), None).

Definition maxRemoteJSONBytes : Z := 2 * 1024 * 1024.
Definition maxRemoteErrorBodyBytes : Z := 4096.
(** The interface [RemoteRequestExecutor]: sends a GET of the URL with the given header fields. *)
Definition RemoteRequestExecutor : Type := URL → Header → Mw (result httpResponse).

Definition statusError (resp : httpResponse) : error :=
  let '(responseBody, readErr) := readLimited maxRemoteErrorBodyBytes (RespBody resp) (RespReadErr resp) in
  match readErr with
  | Some e => errorWrap (Status resp +:+ ": unable to read response body: ") e
  | None =>
      let responseTruncated := maxRemoteErrorBodyBytes <? len responseBody in
      let responseBody := if responseTruncated
                          then ofBytes (take (Z.to_nat maxRemoteErrorBodyBytes) (bytes responseBody))
                          else responseBody in
      let responseText := Join (Fields responseBody) " " in
      let responseText := if responseTruncated && negb (responseText =s "")
                          then responseText +:+ " [truncated]" else responseText in
      errorsNew (if responseText =s "" then Status resp else Status resp +:+ ": " +:+ responseText)
  end.

(** [http.NewRequest] with a URL: parsed, an empty port dropped. *)
Definition requestURL (address : string) : result URL :=
  u ← url_Parse address;
  Ok (mkURL (Scheme u) (Opaque u) (User u) (TrimSuffix (Host u) ":") (Path u) (RawPath u) (OmitHost u)
        (ForceQuery u) (RawQuery u) (Fragment u) (RawFragment u)).

(** [fetchRemoteJSON] with a signer that executes requests; [None] is a nil signer. *)
Definition fetchRemoteJSON {A} (address uaString : string) (decode : string → result A)
    (signer : option RemoteRequestExecutor) : Mw (result (A * string)) :=
  u ←! mret (mapErr (errorWrap "create remote request: ") (requestURL address));
  if negb (Scheme u =s "http") && negb (Scheme u =s "https")
  then mret (Err (errorsNew ("unsupported remote URL scheme " +:+ quote (Scheme u))))
  else match signer with
  | None => mret (Err (errorsNew "remote request signer is not configured"))
  | Some doGET =>
      resp ←! doGET u (headerSet (headerSet ∅ "Accept" "application/activity+json") "User-Agent" uaString);
      if negb (StatusCode resp =? 200) then mret (Err (statusError resp))
      else
        let '(data, readErr) := readLimited maxRemoteJSONBytes (RespBody resp) (RespReadErr resp) in
        match readErr with
        | Some e => mret (Err (errorWrap "read remote response: " e))
        | None =>
            if maxRemoteJSONBytes <? len data
            then mret (Err (errorsNew "remote JSON response exceeds 2 MiB limit"))
            else mret (a ← decode data; Ok (a, data))
        end
  end.

(** The actor cache: its documents may expire between two calls. *)
Record ActorCache := mkActorCache {
  cacheGet : string → Mw (option string);
  cacheSet : string → string → Mw unit;
  cacheDelete : string → Mw unit }.
(** A cache that never expires an entry. *)
Definition mapCache : ActorCache :=
  mkActorCache (λ k w, (w, Done (w_cache w !! k)))
    (λ k v, modify (λ w, set_cache (<[k := v]> (w_cache w)) w))
    (λ k, modify (λ w, set_cache (delete k (w_cache w)) w)).

(** [NewActivityPubActorFromRemoteActor]: a cached document that decodes, or a fetched one that
    is then cached. *)
Definition NewActivityPubActorFromRemoteActor (cache : ActorCache) (url uaString : string)
    (signer : option RemoteRequestExecutor) : Mw (result Actor) :=
  let fetch := '(actor, data) ←! fetchRemoteJSON url uaString unmarshalActor signer;
               _ ← cacheSet cache url data; mret (Ok actor) in
  cacheData ← cacheGet cache url;
  match cacheData with
  | Some data =>
      match unmarshalActor data with
      | Ok actor => mret (Ok actor)
      | Err _ => _ ← cacheDelete cache url; fetch
      end
  | None => fetch
  end.
Definition NewActivityPubActivityFromRemoteActivity (url uaString : string)
    (signer : option RemoteRequestExecutor) : Mw (result Activity) :=
  '(activity, _) ←! fetchRemoteJSON url uaString unmarshalActivity signer; mret (Ok activity).
End operations.
Arguments ActorCache S : clear implicits.
Arguments RemoteRequestExecutor S : clear implicits.
