(* ===== verification/DoGet.v ===== *)
(** * Signed fetches (internal/httpsignature/configured_signer.go, models/models.go)

    [ConfiguredSigner.DoGET]: a GET that is planned and signed for its destination and
    again for the target of every redirect, the evidence its answer gives about the
    destination, and the one fallback to the legacy profile.  The plan of a request
    travels in its context.  [remoteExecutor] is the executor of signed GET requests
    that [fetchRemoteJSON] is given; [signingExecutor] the other branch of that
    function, for a signer that only signs. *)

From S2P Require Import Prelude GoStrings GoUrl GoTime Redis World Negotiation Signer HttpClient ActivityModel.

Section fetching.
Context {S : Type} `{Redis S}.
Context {PrivateKey Message : Type}.
Abbreviation Mw := (M (World S)).
Variable httpdate : Time → string.
Variable legacySign : PrivateKey → string → list string → string → outRequest → result outRequest.
Variable rfcSign : PrivateKey → string → list string → outRequest → result Message.
Variable rfcInclude : Message → outRequest → result outRequest.
Variable unmarshal : list string → result sfvDictionary.
Variable marshalDigest : list ascii → result string.
Variable signer : option (ConfiguredSigner (S := S) (PrivateKey := PrivateKey)).
Abbreviation signGET := (SignGETWithProfile httpdate legacySign rfcSign rfcInclude marshalDigest signer).
Abbreviation signPOST := (SignPOSTWithProfile httpdate legacySign rfcSign rfcInclude marshalDigest signer).
Abbreviation signPlanned := (signPlannedGET httpdate legacySign rfcSign rfcInclude marshalDigest signer).

(** ** Signing with the primary profile of a plan *)

Definition configuredSignGET (request : option outRequest) : Mw (result outRequest) :=
  match request ≫= (λ r, (r,.) <$> outURL r) with
  | None => mret (Err (errorsNew "signed GET request has no URL"))
  | Some (r, u) =>
      plan ←! signerPlan signer DestinationScopeFetch (URL_String u);
      signGET r (Primary plan)
  end.
Definition configuredSignPOST (request : option outRequest) (body : string) : Mw (result outRequest) :=
  match request ≫= (λ r, (r,.) <$> outURL r) with
  | None => mret (Err (errorsNew "signed POST request has no URL"))
  | Some (r, u) =>
      plan ←! signerPlan signer DestinationScopeDelivery (URL_String u);
      signPOST r body (Primary plan)
  end.

(** ** Plans in the context of a request *)

Abbreviation planned := (ctxRequest (option NegotiationPlan)).
Definition attachRequestPlan (request : planned) (plan : NegotiationPlan) : planned :=
  mkCtxRequest (cReq request) (Some plan).
Definition requestPlan (request : option planned) : option NegotiationPlan := request ≫= cCtx.

(** ** Evidence, best effort *)

Definition observeBestEffort (scope destination profile : string) (statusCode : Z) (header : Header) : Mw unit :=
  _ ← ObserveResponse unmarshal signer scope destination profile statusCode header; mret tt.
Definition observeLegacyFallbackBestEffort (destination : string) : Mw unit :=
  match signer ≫= csNegotiator with
  | None => mret tt
  | Some ng => _ ← ObserveSuccessfulLegacyFallback ng DestinationScopeFetch destination; mret tt
  end.

(** ** DoGET *)

(** The callback of the copied client. *)
Definition signingRedirect (previous : option (planned → list planned → Mw (redirectVerdict (option NegotiationPlan))))
    (redirect : planned) (via : list planned) : Mw (redirectVerdict (option NegotiationPlan)) :=
  if (10 <=? length via)%nat then mret (RefuseRedirect (errorsNew "stopped after 10 redirects"))
  else
    verdict ← (match previous with Some check => check redirect via | None => mret (FollowRedirect redirect) end);
    match verdict with
    | FollowRedirect redirect =>
        signed ← signPlanned (cReq redirect);
        mret (match signed with
              | Err e => RefuseRedirect (errorWrap "sign redirected remote request: " e)
              | Ok (r, plan) => FollowRedirect (attachRequestPlan (mkCtxRequest r (cCtx redirect)) plan)
              end)
    | _ => mret verdict
    end.
Definition requestTarget (request : planned) : string := default "" (URL_String <$> outURL (cReq request)).

(** The second half: the legacy fallback after [outcome], for the request [last] under [finalPlan]. *)
Definition fallbackGET (client : httpClient S (option NegotiationPlan)) (finalPlan : NegotiationPlan)
    (outcome : NegotiationOutcome) (last : planned) : Mw (result (httpResponse * planned)) :=
  let fallbackPlan := mkPlan (planOrigin finalPlan) DestinationScopeFetch (Fallback finalPlan) ""
                        NegotiationReasonCachedCapability in
  signed ← signGET (clearSignatureFields (cReq last)) (Primary fallbackPlan);
  match signed with
  | Err e => mret (Err (errorWrap "sign legacy fallback remote request: " e))
  | Ok r =>
      '(fallbackResponse, answered) ←! clientDo client (attachRequestPlan (mkCtxRequest r None) fallbackPlan);
      let appliedPlan := default fallbackPlan (requestPlan (Some answered)) in
      _ ← observeBestEffort DestinationScopeFetch (requestTarget answered) (Primary appliedPlan)
            (StatusCode fallbackResponse) (RespHeader fallbackResponse);
      _ ← (if bool_decide (outcome = NegotiationOutcomeAmbiguousClientRejection)
              && (Primary appliedPlan =s ProfileLegacy) && (Z.quot (StatusCode fallbackResponse) 100 =? 2)
           then observeLegacyFallbackBestEffort (requestTarget answered) else mret tt);
      mret (Ok (fallbackResponse, answered))
  end.

Definition DoGET (client : option (httpClient S (option NegotiationPlan))) (request : option planned)
    : Mw (result (httpResponse * planned)) :=
  match client, request ≫= (λ r, outURL (cReq r) ≫= λ _, Some r) with
  | None, _ => mret (Err (errorsNew "remote HTTP client is nil"))
  | Some _, None => mret (Err (errorsNew "remote GET request has no URL"))
  | Some client, Some request =>
      initial ← signPlanned (cReq request);
      match initial with
      | Err e => mret (Err (errorWrap "sign remote request: " e))
      | Ok (r, initialPlan) =>
          let clientCopy := mkHttpClient (Some (signingRedirect (CheckRedirect client))) (copySensitive client) in
          '(response, answered) ←! clientDo clientCopy (attachRequestPlan (mkCtxRequest r (cCtx request)) initialPlan);
          let finalPlan := default initialPlan (requestPlan (Some answered)) in
          _ ← observeBestEffort DestinationScopeFetch (requestTarget answered) (Primary finalPlan)
                (StatusCode response) (RespHeader response);
          let outcome := classifyNegotiationOutcome (Some response) in
          if negb (ShouldFallback finalPlan outcome) then mret (Ok (response, answered))
          else fallbackGET clientCopy finalPlan outcome answered
      end
  end.

(** ** Executors for [fetchRemoteJSON] *)

Variable sensitive : URL → URL → bool.
Definition remoteHTTPClient {C} : httpClient S C := mkHttpClient None sensitive.
Definition newGET (u : URL) (header : Header) : outRequest := mkOut "GET" (Some u) (Host u) header None 0.
Definition remoteExecutor : RemoteRequestExecutor S := λ u header,
  '(response, _) ←! DoGET (Some remoteHTTPClient) (Some (mkCtxRequest (newGET u header) None));
  mret (Ok response).

(** A signer with [SignGET] only. *)
Definition resigningRedirect (sign1 : outRequest → Mw (result outRequest)) (redirect : ctxRequest unit)
    (via : list (ctxRequest unit)) : Mw (redirectVerdict unit) :=
  if (10 <=? length via)%nat then mret (RefuseRedirect (errorsNew "stopped after 10 redirects"))
  else
    signed ← sign1 (clearSignatureFields (cReq redirect));
    mret (match signed with
          | Err e => RefuseRedirect (errorWrap "sign redirected remote request: " e)
          | Ok r => FollowRedirect (mkCtxRequest r tt)
          end).
Definition signingExecutor (sign1 : outRequest → Mw (result outRequest)) : RemoteRequestExecutor S := λ u header,
  signed ← sign1 (newGET u header);
  match signed with
  | Err e => mret (Err (errorWrap "sign remote request: " e))
  | Ok r =>
      '(response, _) ←! clientDo (mkHttpClient (Some (resigningRedirect sign1)) sensitive) (mkCtxRequest r tt);
      mret (Ok response)
  end.
End fetching.
