(* ===== verification/DoGetSpec.v ===== *)
(** * Theorems about signed fetches

    [DoGET] against what it relies on: planner and observer answer and send nothing
    ([FetchLaws]; a signer with a fixed profile and one that negotiates with the Redis
    store are instances), the signing libraries leave URL and method alone
    ([SigningLaws]), a callback of the caller keeps a URL in the request ([politeCheck]). *)

From S2P Require Import Prelude GoStrings GoUrl GoTime Redis World Frame Negotiation Signer NegotiationSpec HttpClient.
From S2P Require Import ActivityModel DoGet.

(** The network and the requests sent are as they were. *)
Definition offline {S} (w w' : World S) : Prop :=
  w_net w' = w_net w ∧ w_posts w' = w_posts w ∧ w_sentRequests w' = w_sentRequests w.
#[export] Instance offline_preorder {S} : PreOrder (@offline S).
Proof. split; [by intros w|]. intros w1 w2 w3 (A1 & B1 & C1) (A2 & B2 & C2). split_and!; congruence. Qed.
Lemma offline_timeNow {S} : runs (@offline S) timeNow.
Proof. intros w. by eexists _, _. Qed.
Lemma offline_redis {S} `{Redis S} {A} (c : Rcmd A) : runs (@offline S) (redis c).
Proof. intros w. by eexists _, _. Qed.
#[export] Hint Resolve offline_timeNow offline_redis : runs.

(** What the signing libraries promise. *)
Class SigningLaws {PrivateKey Message}
    (legacySign : PrivateKey → string → list string → string → outRequest → result outRequest)
    (rfcInclude : Message → outRequest → result outRequest) : Prop := {
  legacy_target : ∀ k id hs body r r', legacySign k id hs body r = Ok r' → outURL r' = outURL r ∧ outMethod r' = outMethod r;
  include_target : ∀ m r r', rfcInclude m r = Ok r' → outURL r' = outURL r ∧ outMethod r' = outMethod r }.

Section spec.
Context {S : Type} `{Redis S}.
Context {PrivateKey Message : Type}.
Abbreviation W := (World S).
Variable httpdate : Time → string.
Variable legacySign : PrivateKey → string → list string → string → outRequest → result outRequest.
Variable rfcSign : PrivateKey → string → list string → outRequest → result Message.
Variable rfcInclude : Message → outRequest → result outRequest.
Variable unmarshal : list string → result sfvDictionary.
Variable marshalDigest : list ascii → result string.
Variable signer : option (ConfiguredSigner (S := S) (PrivateKey := PrivateKey)).
Abbreviation signGET := (SignGETWithProfile httpdate legacySign rfcSign rfcInclude marshalDigest signer).
Abbreviation signPlanned := (signPlannedGET httpdate legacySign rfcSign rfcInclude marshalDigest signer).
Abbreviation planned := (ctxRequest (option NegotiationPlan)).
Abbreviation doGET := (DoGET httpdate legacySign rfcSign rfcInclude unmarshal marshalDigest signer).
Abbreviation redirectCheck := (signingRedirect httpdate legacySign rfcSign rfcInclude marshalDigest signer).

Class FetchLaws : Prop := {
  fetch_plans : ∀ d, runs offline (signerPlan signer DestinationScopeFetch d);
  fetch_observes : ∀ d p c h, runs offline (ObserveResponse unmarshal signer DestinationScopeFetch d p c h);
  fetch_learns : ∀ ng d, signer ≫= csNegotiator = Some ng →
    runs offline (ObserveSuccessfulLegacyFallback ng DestinationScopeFetch d) }.

(** A fixed profile, or negotiation with the Redis store and the wall clock. *)
Definition runtimeSigner : Prop := ∀ ng, signer ≫= csNegotiator = Some ng → ngNow ng = timeNow
  ∧ ∀ store, ngStore ng = Some store → ∃ prefix, store = RedisDestinationCapabilityStore prefix.
Lemma offline_save (ng : DestinationNegotiator S) d p e ttl : ngNow ng = timeNow →
  (∀ store, ngStore ng = Some store → ∃ prefix, store = RedisDestinationCapabilityStore prefix) →
  runs offline (saveObservation (Some ng) DestinationScopeFetch d p e ttl).
Proof.
  intros Hn Hs. unfold saveObservation. destruct (ngStore ng) as [store|]; [|runs_auto].
  destruct (Hs store eq_refl) as [prefix ->]. rewrite Hn. cbn [SaveDestinationCapability RedisDestinationCapabilityStore].
  unfold saveCapability. runs_auto.
Qed.
Lemma runtimeSigner_laws : runtimeSigner → FetchLaws.
Proof.
  intros Hr. split.
  - intros d. unfold signerPlan. destruct signer as [cs|] eqn:Es; [|runs_auto].
    destruct (csNegotiator cs) as [ng|] eqn:En; [|runs_auto]. destruct (Hr ng) as [Hn Hs]; [by rewrite Es|]. unfold Plan. rewrite Hn.
    destruct (ngStore ng) as [store|]; [|runs_auto]. destruct (Hs store eq_refl) as [prefix ->].
    cbn [LoadDestinationCapability RedisDestinationCapabilityStore]. unfold loadCapability, Fresh. runs_auto.
  - intros d p c h. unfold ObserveResponse. destruct (signer ≫= csNegotiator) as [ng|] eqn:En; [|runs_auto].
    destruct (Hr ng En) as [Hn Hs]. destruct signer; [|runs_auto].
    unfold ObserveRFC9421Success, ObserveExplicitRFC9421Rejection.
    pose proof (λ d p e ttl, offline_save ng d p e ttl Hn Hs). runs_auto.
  - intros ng d E. destruct (Hr ng E) as [Hn Hs]. by apply offline_save.
Qed.

(** ** Signing one request *)

Lemma signGET_offline r p : runs (@offline S) (signGET r p).
Proof.
  unfold SignGETWithProfile. destruct signer; [|runs_auto].
  apply runs_bindErr; [apply _|runs_auto|]. intros wire. unfold signerSignGETWithProfile, SignGET, sign, signRFC9421, ensureDate.
  runs_auto.
Qed.
Context `{!FetchLaws} `{!SigningLaws legacySign rfcInclude}.

Lemma sign_target s r body hs (w w' : W) r' : Signer.sign httpdate legacySign s r body hs w = (w', Done (Ok r')) →
  outURL r' = outURL r ∧ outMethod r' = outMethod r.
Proof.
  unfold Signer.sign. case_match; [done|]. destruct (outURL r) as [u|] eqn:Eu; [|done]. case_match; [done|].
  intros (w1 & h & _ & E)%bind_inv. destruct (legacySign _ _ _ _ _) as [q|] eqn:El; [|done].
  apply legacy_target in El as [E1 E2]. by injection E as _ <-.
Qed.
Lemma signRFC_target s r body cs (w w' : W) r' :
  signRFC9421 httpdate rfcSign rfcInclude marshalDigest s r body cs w = (w', Done (Ok r')) →
  ∃ u, outURL r = Some u ∧ outURL r' = Some (withoutFragment u) ∧ outMethod r' = outMethod r.
Proof.
  unfold signRFC9421. case_match; [done|]. destruct (outURL r) as [u|] eqn:Eu; [|done]. case_match; [done|].
  intros (w1 & h & _ & E)%bind_inv. unfold bindErr in E. apply bind_inv in E as (w2 & prep & E2 & E).
  destruct prep as [q|]; [|done]. destruct (rfcSign _ _ _ _); [|done].
  destruct (rfcInclude _ _) as [q'|] eqn:Ei; [|done]. apply include_target in Ei as [Ea Eb]. injection E as _ <-.
  exists u. rewrite Ea, Eb. injection E2 as _ E2. destruct body as [b|].
  - destruct (RFC9530ContentDigestSHA256 _ b); [|done]. by injection E2 as <-.
  - by injection E2 as <-.
Qed.
(** A signed request goes where the unsigned one would: a fragment, which is never sent, may be gone. *)
Lemma signGET_target r p w w' r' : signGET r p w = (w', Done (Ok r')) →
  outMethod r' = outMethod r ∧ (outURL r' = outURL r ∨ ∃ u, outURL r = Some u ∧ outURL r' = Some (withoutFragment u)).
Proof.
  unfold SignGETWithProfile. destruct signer as [cs|]; [|done].
  unfold bindErr. intros (w1 & wire & E1 & E)%bind_inv. destruct wire as [wire|]; [|done].
  unfold signerSignGETWithProfile, bindErr in E. apply bind_inv in E as (w2 & [] & _ & E); [|done].
  case_match. { apply sign_target in E as [-> ->]. auto. }
  case_match; [|done]. apply signRFC_target in E as (u & Eu & -> & ->). eauto.
Qed.
Lemma signGET_url r p w w' r' : signGET r p w = (w', Done (Ok r')) → is_Some (outURL r) → is_Some (outURL r').
Proof. intros [_ [->|(u & _ & ->)]]%signGET_target; eauto. Qed.

(** ** Planned requests *)

(** The request was planned for its own URL, with no signature field of an earlier request, and
    signed with the primary profile of the plan it carries. *)
Definition plannedFor (c : planned) : Prop := ∃ r0 u plan (w0 w1 w2 : W),
  outURL r0 = Some u
  ∧ signerPlan signer DestinationScopeFetch (URL_String u) w0 = (w1, Done (Ok plan))
  ∧ signGET (clearSignatureFields r0) (Primary plan) w1 = (w2, Done (Ok (cReq c)))
  ∧ cCtx c = Some plan.
Lemma plannedFor_url c : plannedFor c → is_Some (outURL (cReq c)).
Proof. intros (r0 & u & plan & w0 & w1 & w2 & Hu & _ & Hs & _). eapply signGET_url; [exact Hs|]. cbn. by rewrite Hu. Qed.

Lemma signPlanned_run r (w : W) ctx : is_Some (outURL r) → ∃ w' res, signPlanned r w = (w', Done res) ∧ offline w w'
  ∧ ∀ signed plan, res = Ok (signed, plan) → plannedFor (attachRequestPlan (mkCtxRequest signed ctx) plan).
Proof.
  intros [u Hu]. unfold signPlannedGET. rewrite Hu.
  destruct (fetch_plans (URL_String u) w) as (w1 & [plan|e] & E1 & O1).
  2: { rewrite (bindErr_Err _ _ _ _ _ E1). by eexists _, _. }
  rewrite (bindErr_Ok _ _ _ _ _ E1).
  destruct (signGET_offline (clearSignatureFields r) (Primary plan) w1) as (w2 & [signed|e] & E2 & O2).
  2: { rewrite (bindErr_Err _ _ _ _ _ E2). eexists _, _. split; [done|]. split; [by etransitivity|done]. }
  rewrite (bindErr_Ok _ _ _ _ _ E2). eexists _, _. split; [done|]. split; [by etransitivity|].
  intros s p [= <- <-]. by exists r, u, plan, w, w1, w2.
Qed.

(** A callback of the caller. *)
Definition politeCheck (check : planned → list planned → M W (redirectVerdict (option NegotiationPlan))) : Prop :=
  ∀ redirect via w, is_Some (outURL (cReq redirect)) → ∃ w' v, check redirect via w = (w', Done v) ∧ offline w w'
    ∧ ∀ r, v = FollowRedirect r → is_Some (outURL (cReq r)).
Definition politeClient (client : httpClient S (option NegotiationPlan)) : Prop :=
  ∀ check, CheckRedirect client = Some check → politeCheck check.

Lemma redirect_run previous redirect via (w : W) : (∀ check, previous = Some check → politeCheck check) →
  is_Some (outURL (cReq redirect)) →
  ∃ w' v, redirectCheck previous redirect via w = (w', Done v) ∧ offline w w'
  ∧ (∀ r, v = FollowRedirect r → plannedFor r) ∧ ((10 ≤ length via)%nat → ∀ r, v ≠ FollowRedirect r).
Proof.
  intros Hp Hu. unfold signingRedirect. destruct (Nat.leb_spec 10 (length via)) as [Hv|Hv].
  { eexists _, _. split; [done|]. split; [done|]. split; by intros. }
  assert (∃ w1 v, (match previous with Some check => check redirect via | None => mret (FollowRedirect redirect) end) w
    = (w1, Done v) ∧ offline w w1 ∧ ∀ r, v = FollowRedirect r → is_Some (outURL (cReq r))) as (w1 & v & E1 & O1 & V).
  { destruct previous as [check|]; [by apply (Hp check)|]. eexists _, _. split; [done|]. split; [done|]. by intros r [= <-]. }
  rewrite (bind_Done _ _ _ _ _ E1). destruct v as [r| |e].
  - destruct (signPlanned_run (cReq r) w1 (cCtx r) (V r eq_refl)) as (w2 & res & E2 & O2 & Hr).
    rewrite (bind_Done _ _ _ _ _ E2). eexists _, _. split; [done|]. split; [by etransitivity|]. split; [|lia].
    intros r'. destruct res as [[signed plan]|]; [|done]. intros [= <-]. by apply Hr.
  - eexists _, _. split; [done|]. split; [done|]. by split.
  - eexists _, _. split; [done|]. split; [done|]. by split.
Qed.

(** ** One exchange with its redirects *)

Abbreviation wire := (λ c : planned, wireRequest (cReq c)).
(** What an exchange that sends [req] first has sent in all, and what answered it. *)
Record exchanged (n : nat) (req : planned) (w w' : W) (res : result (httpResponse * planned)) (chain : list planned) : Prop := {
  ex_sent : w_sentRequests w' = w_sentRequests w ++ map wire (req :: chain);
  ex_net : w_net w' = w_net w;
  ex_posts : w_posts w' = (w_posts w + length (req :: chain))%nat;
  ex_bound : (length (req :: chain) ≤ n)%nat;
  ex_planned : Forall plannedFor chain;
  ex_answer : ∀ resp answered, res = Ok (resp, answered) →
    ∃ before, req :: chain = before ++ [answered] ∧ w_net w (w_posts w + length before) (wire answered) = Ok resp }.

Lemma exchanged_one n req (w w' : W) res : (1 ≤ n)%nat →
  offline (httpDo (wire req) w).1 w' →
  (∀ resp answered, res = Ok (resp, answered) → answered = req ∧ w_net w (w_posts w) (wire req) = Ok resp) →
  exchanged n req w w' res [].
Proof.
  intros Hn (A & B & C) Ha. cbn in A, B, C. split; cbn; try done.
  - by rewrite B, Nat.add_1_r.
  - intros resp answered E. destruct (Ha _ _ E) as [-> Hr]. exists []. by rewrite Nat.add_0_r.
Qed.
Lemma exchanged_more n req r (w w1 w2 : W) res chain : offline (httpDo (wire req) w).1 w1 → plannedFor r →
  exchanged n r w1 w2 res chain → exchanged (Datatypes.S n) req w w2 res (r :: chain).
Proof.
  intros (A & B & C) Hr [X1 X2 X3 X4 X5 X6]. cbn in A, B, C. split; cbn [length map] in *.
  - by rewrite X1, C, <- app_assoc.
  - congruence.
  - rewrite X3, B. lia.
  - lia.
  - by constructor.
  - intros resp answered E. destruct (X6 _ _ E) as (before & E1 & E2). exists (req :: before). split; [by rewrite E1|].
    rewrite A, B in E2. cbn [length]. by rewrite Nat.add_succ_r.
Qed.

Lemma follow_run fuel previous sensitive ireq reqs req (w : W) : (∀ check, previous = Some check → politeCheck check) →
  (length reqs + fuel = maxExchanges)%nat → (1 ≤ fuel)%nat → is_Some (outURL (cReq req)) →
  ∃ w' res chain, follow fuel (mkHttpClient (Some (redirectCheck previous)) sensitive) ireq reqs req w = (w', Done res)
    ∧ exchanged fuel req w w' res chain.
Proof.
  intros Hp. revert reqs req w. induction fuel as [|fuel IH]; intros reqs req w Hl Hf [base Hu]; [lia|].
  cbn [follow]. unfold bindErr. set (w1 := (httpDo (wire req) w).1).
  rewrite (bind_Done (httpDo (wire req)) _ w w1 (w_net w (w_posts w) (wire req)) eq_refl).
  destruct (w_net w (w_posts w) (wire req)) as [resp|e] eqn:En.
  2: { eexists _, _, []. split; [done|]. by apply exchanged_one. }
  assert (Hone : ∃ w' res chain, (mret (Ok (resp, req)) : M W _) w1 = (w', Done res)
    ∧ exchanged (Datatypes.S fuel) req w w' res chain).
  { eexists _, _, []. split; [done|]. apply exchanged_one; [lia|done|]. by intros ? ? [= <- <-]. }
  cbv zeta. destruct (redirectBehavior _ _) as [[method body]|]; [|exact Hone].
  destruct (_ =s ""); [exact Hone|]. rewrite Hu. destruct (parseReference base _) as [u|e].
  2: { eexists _, _, []. split; [done|]. apply exchanged_one; [lia|done|done]. }
  change (default defaultCheckRedirect (CheckRedirect (mkHttpClient (Some (redirectCheck previous)) sensitive)))
    with (redirectCheck previous).
  match goal with |- context [redirectCheck previous ?r ?v] =>
    destruct (redirect_run previous r v w1 Hp (mk_is_Some _ _ eq_refl)) as (w2 & v' & E2 & O2 & Hv & Hlast) end.
  rewrite (bind_Done _ _ _ _ _ E2). rewrite length_app in Hlast. cbn [length] in Hlast. destruct v' as [r| |e].
  - assert (Hr : plannedFor r) by by apply Hv.
    destruct (decide (fuel = 0)%nat) as [->|Hz]; [exfalso; apply (Hlast ltac:(unfold maxExchanges in Hl; lia) r eq_refl)|].
    destruct (IH (reqs ++ [req]) r w2) as (w3 & res & chain & E3 & X); [rewrite length_app; cbn; lia|lia|by apply plannedFor_url|].
    rewrite E3. exists w3, res, (r :: chain). split; [done|]. by eapply exchanged_more.
  - eexists _, _, []. split; [done|]. apply exchanged_one; [lia|done|]. by intros ? ? [= <- <-].
  - eexists _, _, []. split; [done|]. apply exchanged_one; [lia|done|done].
Qed.
Lemma clientDo_run previous sensitive req (w : W) : (∀ check, previous = Some check → politeCheck check) →
  is_Some (outURL (cReq req)) →
  ∃ w' res chain, clientDo (mkHttpClient (Some (redirectCheck previous)) sensitive) req w = (w', Done res)
    ∧ exchanged maxExchanges req w w' res chain.
Proof. intros Hp [u Hu]. unfold clientDo. rewrite Hu. apply follow_run; [done|done|unfold maxExchanges; lia|eauto]. Qed.

Lemma observe_offline d p c h : runs offline (observeBestEffort unmarshal signer DestinationScopeFetch d p c h).
Proof. unfold observeBestEffort. pose proof fetch_observes. runs_auto. Qed.
Lemma learn_offline d : runs offline (observeLegacyFallbackBestEffort signer d).
Proof.
  unfold observeLegacyFallbackBestEffort. destruct (signer ≫= csNegotiator) as [ng|] eqn:E; [|runs_auto].
  pose proof (λ d, fetch_learns ng d E). runs_auto.
Qed.

(** ** The whole fetch *)

(** [r] repeats the request [answered], signed with the legacy profile. *)
Definition legacyRetry (answered r : planned) : Prop := ∃ w1 w2 : W,
  signGET (clearSignatureFields (cReq answered)) ProfileLegacy w1 = (w2, Done (Ok (cReq r))).
(** The answer that lets a fetch fall back, to a request under a plan with a fallback. *)
Definition allowsFallback (answered : planned) (resp : httpResponse) : Prop := ∃ plan, cCtx answered = Some plan
  ∧ Primary plan = ProfileRFC9421 ∧ Fallback plan = ProfileLegacy
  ∧ (ExplicitLegacySignatureRejection (StatusCode resp) (RespHeader resp) = true ∨ StatusCode resp = 400).
Lemma shouldFallback_allows answered resp plan : cCtx answered = Some plan →
  ShouldFallback plan (classifyNegotiationOutcome (Some resp)) = true → allowsFallback answered resp.
Proof.
  intros Hc. unfold ShouldFallback. destruct (negb (planScope plan =s _) || _ || _) eqn:E; [done|].
  apply orb_false_iff in E as [[_ E1]%orb_false_iff E2]. apply negb_false_iff, eqs_true in E1, E2.
  intros Ho. exists plan. split_and!; [done..|]. revert Ho. unfold classifyNegotiationOutcome.
  case_match; [done|]. destruct (ExplicitLegacySignatureRejection _ _); [by left|].
  destruct (Z.eqb_spec (StatusCode resp) 400); [by right|]. by case_match.
Qed.

(** Everything a fetch sends: the first exchange, and the second that a fallback makes. *)
Record fetched (w w' : W) (first second : list planned) : Prop := {
  fe_sent : w_sentRequests w' = w_sentRequests w ++ map wire (first ++ second);
  fe_first : (length first ≤ maxExchanges)%nat ∧ Forall plannedFor first;
  fe_second : (length second ≤ maxExchanges)%nat ∧ Forall plannedFor (tail second);
  fe_fallback : ∀ r, head second = Some r → ∃ before answered resp, first = before ++ [answered]
    ∧ w_net w (w_posts w + length before) (wire answered) = Ok resp ∧ allowsFallback answered resp ∧ legacyRetry answered r }.
(** A result is the answer to one of the requests sent. *)
Definition answersOne (w : W) (sent : list planned) (res : result (httpResponse * planned)) : Prop :=
  ∀ resp answered, res = Ok (resp, answered) → answered ∈ sent ∧ ∃ n, w_net w n (wire answered) = Ok resp.
Lemma exchanged_answer n req (w w' : W) res chain : exchanged n req w w' res chain → answersOne w (req :: chain) res.
Proof.
  intros X resp answered E. destruct (ex_answer _ _ _ _ _ _ X _ _ E) as (before & -> & Hn). split; [set_solver|by eexists].
Qed.
Lemma fetched_first (w w1 w' : W) res req chain : exchanged maxExchanges req w w1 res chain → plannedFor req →
  offline w1 w' → fetched w w' (req :: chain) [].
Proof.
  intros X Hr (_ & _ & O). split.
  - rewrite O, (ex_sent _ _ _ _ _ _ X). by rewrite app_nil_r.
  - split; [apply X|]. constructor; [done|apply X].
  - split; cbn; [lia|done].
  - done.
Qed.

Lemma fallback_run previous sensitive plan resp answered first (w w1 : W) :
  (∀ check, previous = Some check → politeCheck check) → fetched w w1 first [] → w_net w1 = w_net w →
  (∃ before, first = before ++ [answered] ∧ w_net w (w_posts w + length before) (wire answered) = Ok resp) →
  cCtx answered = Some plan → plannedFor answered →
  ShouldFallback plan (classifyNegotiationOutcome (Some resp)) = true →
  ∃ w' res second, fallbackGET httpdate legacySign rfcSign rfcInclude unmarshal marshalDigest signer
      (mkHttpClient (Some (redirectCheck previous)) sensitive) plan (classifyNegotiationOutcome (Some resp)) answered w1
    = (w', Done res) ∧ fetched w w' first second ∧ answersOne w second res.
Proof.
  intros Hp F Hnet (before & Hb & Ha) Hc Hpl Hs.
  pose proof (shouldFallback_allows _ _ _ Hc Hs) as Hallow.
  assert (Hleg : Fallback plan = ProfileLegacy) by (destruct Hallow as (plan' & Hc' & _ & HF & _); congruence).
  unfold fallbackGET. cbv zeta. cbn [Primary]. rewrite Hleg.
  destruct (signGET_offline (clearSignatureFields (cReq answered)) ProfileLegacy w1) as (w2 & [r|e] & E2 & O2).
  2: { rewrite (bind_Done _ _ _ _ _ E2). exists w2, (Err (errorWrap "sign legacy fallback remote request: " e)), []. split; [done|]. split; [|done].
       destruct F as [F1 F2 F3 F4]. split; try done. destruct O2 as (_ & _ & ->). done. }
  rewrite (bind_Done _ _ _ _ _ E2). set (retry := attachRequestPlan _ _).
  assert (Hretry : legacyRetry answered retry) by by exists w1, w2.
  destruct (clientDo_run previous sensitive retry w2 Hp) as (w3 & res & chain & E3 & X).
  { cbn. eapply signGET_url; [exact E2|]. by apply plannedFor_url. }
  assert (Hend : ∀ w4, offline w3 w4 → fetched w w4 first (retry :: chain)).
  { intros w4 (_ & _ & O4). destruct F as [F1 F2 _ _], O2 as (_ & _ & O2). rewrite app_nil_r in F1. split.
    - by rewrite O4, (ex_sent _ _ _ _ _ _ X), O2, F1, map_app, <- app_assoc.
    - done.
    - split; apply X.
    - intros r0 [= <-]. by exists before, answered, resp. }
  apply exchanged_answer in X. destruct O2 as (N2 & _ & _). unfold answersOne in X. rewrite N2, Hnet in X.
  destruct res as [[resp' answered']|e].
  2: { rewrite (bindErr_Err _ _ _ _ _ E3). eexists _, _, _. split; [done|]. split; [by apply Hend|done]. }
  rewrite (bindErr_Ok _ _ _ _ _ E3).
  match goal with |- context [observeBestEffort _ _ _ ?d ?p ?c ?h ≫= ?k] => set (rest := k);
    destruct (observe_offline d p c h w3) as (w4 & [] & E4 & O4) end.
  rewrite (bind_Done _ _ _ _ _ E4). subst rest. cbv beta.
  match goal with |- ∃ _ _ _, ((if ?b then _ else _) ≫= _) _ = _ ∧ _ => destruct b end.
  - destruct (learn_offline (requestTarget answered') w4) as (w5 & [] & E5 & O5). rewrite (bind_Done _ _ _ _ _ E5).
    eexists _, _, _. split; [done|]. split; [apply Hend; by etransitivity|done].
  - eexists _, _, _. split; [done|]. split; [by apply Hend|done].
Qed.

Lemma doGET_run client request (w : W) : politeClient client → is_Some (outURL (cReq request)) →
  ∃ w' res first second, doGET (Some client) (Some request) w = (w', Done res) ∧ fetched w w' first second
    ∧ answersOne w (first ++ second) res.
Proof.
  intros Hp [u Hu]. unfold DoGET. cbn [mbind option_bind]. rewrite Hu. cbn [mbind option_bind].
  destruct (signPlanned_run (cReq request) w (cCtx request)) as (w1 & res1 & E1 & O1 & Hpl); [eauto|].
  rewrite (bind_Done _ _ _ _ _ E1). destruct res1 as [[r plan]|e].
  2: { eexists _, _, [], []. split; [done|]. split; [|done]. destruct O1 as (_ & _ & O). split; cbn; try (split; [lia|done]); [|done].
       by rewrite O, app_nil_r. }
  cbv zeta. set (req := attachRequestPlan _ _). assert (Hreq : plannedFor req) by by apply Hpl.
  destruct (clientDo_run (CheckRedirect client) (copySensitive client) req w1 Hp (plannedFor_url _ Hreq))
    as (w2 & res & chain & E2 & X).
  assert (Hfirst : ∀ w3, offline w2 w3 → fetched w w3 (req :: chain) []).
  { intros w3 O3. destruct (fetched_first w1 w2 w3 res req chain X Hreq O3) as [F1 F2 F3 F4].
    destruct O1 as (_ & _ & O1). split; try done. by rewrite F1, O1. }
  destruct res as [[resp answered]|e].
  2: { rewrite (bindErr_Err _ _ _ _ _ E2). eexists _, _, _, _. split; [done|]. split; [by apply Hfirst|done]. }
  rewrite (bindErr_Ok _ _ _ _ _ E2). destruct (ex_answer _ _ _ _ _ _ X _ _ eq_refl) as (before & Hb & Hn).
  assert (Ha : plannedFor answered).
  { assert (Forall plannedFor (req :: chain)) as Hall by (constructor; [done|apply X]). rewrite Hb in Hall.
    apply Forall_app in Hall as [_ Hall]. by apply Forall_cons in Hall as [? _]. }
  assert (Hc : ∃ plan', cCtx answered = Some plan') by (destruct Ha as (? & ? & plan' & ? & ? & ? & _ & _ & _ & ?); eauto).
  destruct Hc as [plan' Hc]. cbv zeta. change (requestPlan (Some answered)) with (cCtx answered). rewrite Hc. cbn [from_option id default].
  match goal with |- context [observeBestEffort _ _ _ ?d ?p ?c ?h ≫= ?k] => set (rest := k);
    destruct (observe_offline d p c h w2) as (w3 & [] & E3 & O3) end.
  rewrite (bind_Done _ _ _ _ _ E3). subst rest. cbv beta.
  destruct (ShouldFallback _ _) eqn:Es; cbn [negb].
  2: { eexists _, _, _, _. split; [done|]. split; [by apply Hfirst|]. rewrite app_nil_r.
       apply exchanged_answer in X. unfold answersOne in X. destruct O1 as (N1 & _). by rewrite N1 in X. }
  destruct O1 as (N1 & P1 & _).
  destruct (fallback_run (CheckRedirect client) (copySensitive client) plan' resp answered (req :: chain) w w3)
    as (w4 & res4 & second & E4 & F4 & A4); try done.
  - by apply Hfirst.
  - destruct O3 as (-> & _ & _). rewrite (ex_net _ _ _ _ _ _ X). done.
  - exists before. split; [done|]. by rewrite <- N1, <- P1.
  - eexists _, _, _, _. split; [exact E4|]. split; [exact F4|]. intros rp an Er. destruct (A4 rp an Er) as [? ?].
    split; [set_solver|done].
Qed.

(** The wire request is what signing gave for an unsigned request to the same target: it carries
    no signature field made for another request. *)
Definition freshlySigned (q : httpRequest) : Prop := ∃ r0 profile (w1 w2 : W) r,
  (∀ name, name ∈ ["Date"; "Digest"; "Content-Digest"; "Signature-Input"; "Signature"] → outHeader r0 !! name = None)
  ∧ signGET r0 profile w1 = (w2, Done (Ok r)) ∧ q = wireRequest r
  ∧ (outURL r = outURL r0 ∨ ∃ u, outURL r0 = Some u ∧ outURL r = Some (withoutFragment u)).
Lemma deleted_stays names (h : Header) name : h !! name = None → foldl headerDel h names !! name = None.
Proof.
  revert h. induction names as [|n names IH]; intros h Hh; [done|]. apply IH. unfold headerDel. apply lookup_delete_None. by right.
Qed.
Lemma deleted_all names (h : Header) name : name ∈ names → foldl headerDel h names !! name = None.
Proof.
  intros Hn. revert h. induction Hn as [|? ? ? ? IH]; intros h; [|apply IH]. cbn [foldl]. apply deleted_stays. unfold headerDel. apply lookup_delete_None. by left.
Qed.
Lemma cleared_fields r name : name ∈ ["Date"; "Digest"; "Content-Digest"; "Signature-Input"; "Signature"] →
  outHeader (clearSignatureFields r) !! name = None.
Proof. apply deleted_all. Qed.
Lemma signed_is_fresh r0 p (w1 w2 : W) r : signGET (clearSignatureFields r0) p w1 = (w2, Done (Ok r)) →
  freshlySigned (wireRequest r).
Proof.
  intros E. exists (clearSignatureFields r0), p, w1, w2, r. split; [apply cleared_fields|]. split; [done|]. split; [done|].
  by apply signGET_target in E as [_ ?].
Qed.
Lemma planned_is_fresh c : plannedFor c → freshlySigned (wire c).
Proof. intros (r0 & u & plan & w0 & w1 & w2 & _ & _ & E & _). by eapply signed_is_fresh. Qed.

Lemma fetched_fresh (w w' : W) first second : fetched w w' first second →
  (length (map wire (first ++ second)) ≤ 20)%nat ∧ Forall freshlySigned (map wire (first ++ second)).
Proof.
  intros [F1 [F2 F3] [F4 F5] F6]. unfold maxExchanges in *. split; [rewrite length_map, length_app; lia|].
  rewrite map_app. apply Forall_app. split.
  - apply Forall_fmap. eapply Forall_impl; [exact F3|]. apply planned_is_fresh.
  - destruct second as [|r second]; [by constructor|]. constructor.
    + destruct (F6 r eq_refl) as (? & answered & ? & _ & _ & _ & (w1 & w2 & Er)). by eapply signed_is_fresh.
    + apply Forall_fmap. eapply Forall_impl; [exact F5|]. apply planned_is_fresh.
Qed.

(** C20: A signed fetch always ends, without a panic, after at most twenty requests, ten of them
    for a fallback, however the servers it is sent to redirect it; and every request it sends,
    also one that follows a redirect, was signed anew for the URL it goes to and carries no
    signature, digest or date made for another. *)
Theorem signed_fetch_is_bounded (client : httpClient S (option NegotiationPlan)) (request : planned) (w : W)
    (Hclient : politeClient client) (Hurl : is_Some (outURL (cReq request))) :
  ∃ w' res sent, doGET (Some client) (Some request) w = (w', Done res)
  ∧ w_sentRequests w' = w_sentRequests w ++ sent ∧ (length sent ≤ 20)%nat ∧ Forall freshlySigned sent.
Proof.
  destruct (doGET_run client request w Hclient Hurl) as (w' & res & first & second & E & F & _).
  exists w', res, (map wire (first ++ second)). split; [done|]. split; [apply F|by eapply fetched_fresh].
Qed.

(** C21: A fetch falls back at most once, and only on evidence.  What it sends is one chain of
    redirects and, perhaps, a second one.  There is a second only if the answer that ended the
    first was a Signature challenge (401 or 403) or a 400, and the request it answered was under
    a plan for RFC 9421 with the legacy fallback; the second begins with that same request signed
    with the legacy profile.  All other requests were planned for their own URL and signed with
    the profile of that plan. *)
Theorem fallback_needs_evidence (client : httpClient S (option NegotiationPlan)) (request : planned) (w : W)
    (Hclient : politeClient client) (Hurl : is_Some (outURL (cReq request))) :
  ∃ w' res first second, doGET (Some client) (Some request) w = (w', Done res)
  ∧ w_sentRequests w' = w_sentRequests w ++ map wire (first ++ second)
  ∧ Forall plannedFor first ∧ Forall plannedFor (tail second)
  ∧ ∀ r, head second = Some r → ∃ before answered resp, first = before ++ [answered]
      ∧ w_net w (w_posts w + length before) (wire answered) = Ok resp
      ∧ allowsFallback answered resp ∧ legacyRetry answered r.
Proof.
  destruct (doGET_run client request w Hclient Hurl) as (w' & res & first & second & E & [F1 [F2 F3] [F4 F5] F6] & _).
  by exists w', res, first, second.
Qed.

(** A document, when there is one, is a decoded answer with status 200 to a request of [sent]. *)
Definition documentOf {A} (w : W) (decode : string → result A) (sent : list httpRequest) (res : result (A * string)) : Prop :=
  ∀ a data, res = Ok (a, data) → decode data = Ok a ∧ len data ≤ maxRemoteJSONBytes
    ∧ ∃ n q resp, q ∈ sent ∧ w_net w n q = Ok resp ∧ StatusCode resp = 200.
Definition fetchedDocument {A} (w : W) (decode : string → result A) (end_ : W * outcome (result (A * string))) : Prop :=
  ∃ w' res sent, end_ = (w', Done res) ∧ w_sentRequests w' = w_sentRequests w ++ sent ∧ (length sent ≤ 20)%nat
  ∧ Forall freshlySigned sent ∧ documentOf w decode sent res.

(** Fetching a remote document over signed requests ends without a panic, whatever the
    servers answer, after at most twenty requests, each signed anew for its own URL; a document is
    returned only if one of them was answered with status 200, and it is at most 2 MiB and decodes. *)
Theorem remote_document_fetch {A} (sensitive : URL → URL → bool) (address uaString : string) (decode : string → result A)
    (w : W) :
  ∃ w' res sent, fetchRemoteJSON address uaString decode
      (Some (remoteExecutor httpdate legacySign rfcSign rfcInclude unmarshal marshalDigest signer sensitive)) w = (w', Done res)
  ∧ w_sentRequests w' = w_sentRequests w ++ sent ∧ (length sent ≤ 20)%nat ∧ Forall freshlySigned sent
  ∧ ∀ a data, res = Ok (a, data) → decode data = Ok a ∧ len data ≤ maxRemoteJSONBytes
      ∧ ∃ n q resp, q ∈ sent ∧ w_net w n q = Ok resp ∧ StatusCode resp = 200.
Proof.
  change (fetchedDocument w decode (fetchRemoteJSON address uaString decode
    (Some (remoteExecutor httpdate legacySign rfcSign rfcInclude unmarshal marshalDigest signer sensitive)) w)).
  assert (Hnone : ∀ e : error, fetchedDocument w decode (w, Done (Err e))).
  { intros e. exists w, (Err e), []. rewrite app_nil_r. split_and!; [done..|cbn; lia|done|done]. }
  unfold fetchRemoteJSON, bindErr at 1. unfold mbind at 1, M_bind at 1, mret at 1, M_ret at 1.
  destruct (mapErr _ (requestURL address)) as [u|e]; [|apply Hnone]. case_match; [apply Hnone|].
  set (header := headerSet _ _ _). unfold remoteExecutor. set (request := mkCtxRequest (newGET u header) None).
  destruct (doGET_run (remoteHTTPClient sensitive) request w) as (w1 & res & first & second & E & F & An).
  { by intros check. }
  { by eexists. }
  destruct (fetched_fresh _ _ _ _ F) as [Hl Hf].
  assert (Hgo : ∀ r, documentOf w decode (map wire (first ++ second)) r → fetchedDocument w decode (w1, Done r)).
  { intros r Hr. exists w1, r, (map wire (first ++ second)). split_and!; [done|apply F|done..]. }
  destruct res as [[resp answered]|e].
  2: { rewrite (bindErr_Err _ _ w w1 e) by (by rewrite (bindErr_Err _ _ _ _ _ E)). by apply Hgo. }
  rewrite (bindErr_Ok _ _ w w1 resp) by (by rewrite (bindErr_Ok _ _ _ _ _ E)).
  destruct (An _ _ eq_refl) as [Hin [n Hn]].
  destruct (Z.eqb_spec (StatusCode resp) 200) as [H200|]; cbn [negb]; [|by apply Hgo].
  destruct (readLimited _ _ _) as [data readErr]. destruct readErr; [by apply Hgo|].
  destruct (Z.ltb_spec maxRemoteJSONBytes (len data)); [by apply Hgo|]. apply Hgo. intros a d Ed.
  destruct (decode data) as [a'|] eqn:Edec; [|done]. injection Ed as <- <-. split; [done|]. split; [done|].
  exists n, (wire answered), resp. split; [|done]. apply list_elem_of_fmap. by exists answered.
Qed.
End spec.

(** ** Examples *)

Definition markLegacy (_ : unit) (id : string) (_ : list string) (_ : string) (r : outRequest) : result outRequest :=
  Ok (withHeader (headerSet (outHeader r) "Signature" ("legacy " +:+ default "" (URL_String <$> outURL r))) r).
Definition markInclude (_ : unit) (r : outRequest) : result outRequest :=
  Ok (withHeader (headerSet (outHeader r) "Signature-Input" (default "" (URL_String <$> outURL r))) r).
#[export] Instance mark_laws : SigningLaws markLegacy markInclude.
Proof. split; [by intros k id hs body r r' [= <-]|by intros m r r' [= <-]]. Qed.
Definition dualSigner : option (ConfiguredSigner (S := Calm) (PrivateKey := unit)) :=
  Some (mkConfigured (mkSigner "https://relay.example/actor#main-key" tt) ProfileDual
          (Some (redisNegotiator "cap:" (14 * 24 * Hour) (24 * Hour)))).
Lemma dualSigner_laws : FetchLaws (λ _, Err (errorsNew "no dictionary")) dualSigner.
Proof. apply runtimeSigner_laws. intros ng [= <-]. split; [done|]. intros store [= <-]. by exists "cap:". Qed.

(** A server that redirects to another, which answers 400 to everything but the legacy profile. *)
Definition pickyNet (_ : nat) (q : httpRequest) : result httpResponse :=
  if HasPrefix (reqURL q) "https://old.example" then
    Ok (mkHttpResponse 301 "301 Moved" {[ "Location" := ["https://new.example/users/a"] ]} "" None)
  else if headerGet (reqHeader q) "Signature" =s "legacy https://new.example/users/a" then
    Ok (mkHttpResponse 200 "200 OK" ∅ "{}" None)
  else Ok (mkHttpResponse 400 "400 Bad Request" ∅ "" None).
Definition pickyWorld : World Calm :=
  let w := demoNegWorld emptyDb in
  mkWorld (w_redis w) (w_relay w) (w_clock w) (w_ticks w) (w_uuid w) (w_uuids w) (w_broker w) (w_sends w) (w_queued w)
    pickyNet 0 [] [] ∅.
Definition oldRequest : ctxRequest (option NegotiationPlan) :=
  mkCtxRequest (newGET (match url_Parse "https://old.example/users/a" with Ok u => u | Err _ => emptyURL end) ∅) None.
Definition plainClient : httpClient Calm (option NegotiationPlan) := mkHttpClient None (λ _ _, false).
Definition demoFetch :=
  DoGET (λ _, "date") markLegacy (λ _ _ _ _, Ok tt) markInclude (λ _, Err (errorsNew "no dictionary")) (λ _, Ok "")
    dualSigner (Some plainClient) (Some oldRequest) pickyWorld.
(** Three requests: RFC 9421 to the old address, RFC 9421 to the new one, legacy to the new one;
    afterwards both destinations are planned as they showed themselves. *)
Example fetch_falls_back_and_learns :
  map (λ q, (reqURL q, headerGet (reqHeader q) "Signature-Input", headerGet (reqHeader q) "Signature"))
    (w_sentRequests demoFetch.1)
  = [("https://old.example/users/a", "https://old.example/users/a", "");
     ("https://new.example/users/a", "https://new.example/users/a", "");
     ("https://new.example/users/a", "", "legacy https://new.example/users/a")]
  ∧ match demoFetch.2 with Done (Ok (resp, _)) => StatusCode resp | _ => 0 end = 200
  ∧ match (signerPlan dualSigner DestinationScopeFetch "https://new.example/other" demoFetch.1).2 with
    | Done (Ok plan) => Some (Primary plan, Fallback plan) | _ => None end = Some (ProfileLegacy, "").
Proof. vm_compute. done. Qed.

Lemma signed_fetch_is_bounded_witness : ∃ w' res sent, demoFetch = (w', Done res)
  ∧ w_sentRequests w' = sent ∧ (length sent ≤ 20)%nat.
Proof.
  destruct (signed_fetch_is_bounded (λ _, "date") markLegacy (λ _ _ _ _, Ok tt) markInclude
    (λ _, Err (errorsNew "no dictionary")) (λ _, Ok "") dualSigner (H0 := dualSigner_laws) plainClient oldRequest pickyWorld)
    as (w' & res & sent & E & Hs & Hl & _).
  - intros check [=].
  - vm_compute. by eexists.
  - exists w', res, sent. split; [exact E|]. split; [exact Hs|exact Hl].
Defined.
Lemma fallback_needs_evidence_witness : ∃ w' res first second, demoFetch = (w', Done res)
  ∧ w_sentRequests w' = map (λ c : ctxRequest (option NegotiationPlan), wireRequest (cReq c)) (first ++ second).
Proof.
  destruct (fallback_needs_evidence (λ _, "date") markLegacy (λ _ _ _ _, Ok tt) markInclude
    (λ _, Err (errorsNew "no dictionary")) (λ _, Ok "") dualSigner (H0 := dualSigner_laws) plainClient oldRequest pickyWorld)
    as (w' & res & first & second & E & Hs & _).
  - intros check [=].
  - vm_compute. by eexists.
  - exists w', res, first, second. split; [exact E|exact Hs].
Defined.
Lemma remote_document_fetch_witness : ∃ w' res sent, fetchRemoteJSON "https://old.example/users/a" "relay" unmarshalActor
    (Some (remoteExecutor (λ _, "date") markLegacy (λ _ _ _ _, Ok tt) markInclude (λ _, Err (errorsNew "no dictionary"))
             (λ _, Ok "") dualSigner (λ _ _, false))) pickyWorld = (w', Done res)
  ∧ w_sentRequests w' = sent ∧ (length sent ≤ 20)%nat.
Proof.
  destruct (remote_document_fetch (λ _, "date") markLegacy (λ _ _ _ _, Ok tt) markInclude
    (λ _, Err (errorsNew "no dictionary")) (λ _, Ok "") dualSigner (H0 := dualSigner_laws) (λ _ _, false)
    "https://old.example/users/a" "relay" unmarshalActor pickyWorld) as (w' & res & sent & E & Hs & Hl & _).
  exists w', res, sent. split; [exact E|]. split; [exact Hs|exact Hl].
Defined.
