(* ===== verification/Queue.v ===== *)
(** * Queue admission and fan-out (api/resolver.go, first half)

    Capacity of the job queue is reserved in Redis before tasks are handed to the
    broker and released afterwards.  [enqueueActivityExcept] chooses the targets
    of one activity, plans a signature profile per target, stores the body once
    with the number of targets and sends one group of tasks.  The package-level
    variables of [api] the functions read are the record [Globals]; machinery's
    [tasks.NewGroup] is one of its fields, the broker is part of the [World]. *)

From S2P Require Import Prelude GoStrings GoUrl Redis GoTime World Observability.
From S2P Require Import Negotiation Signer RelayState ActivityModel.

(** ** deliverypolicy *)

Definition RetryCount : Z := 5.
Definition InitialRetryTimeoutSeconds : Z := 5.
Definition ActivityRetentionSeconds : Z := 15 * 60.
Definition MaxAttempts : Z := RetryCount + 1.
Definition ActivityRetention : Duration := ActivityRetentionSeconds * Second.

(** ** Scripts *)

Definition queueReservationKey : string := "relay:queue:reservations".
Definition queueKey : string := "relay".
Definition activityKeyPrefix : string := "relay:activity:".

Definition reserveScript (queue key additional maximum : string) : Rcmd Z :=
  queued ← LLEN queue;
  stored ← GETopt key;
  reserved ← luaNumber (default "0" stored);
  additional ← luaNumber additional;
  maximum ← luaNumber maximum;
  if maximum <? queued + reserved + additional then mret 0
  else
    _ ← INCRBY key additional;
    _ ← EXPIRE key 60;
    mret 1.
Definition releaseScript (key : string) (additional : Z) : Rcmd Z :=
  remaining ← DECRBY key additional;
  if remaining <=? 0 then (_ ← DEL key; mret remaining) else mret remaining.
Definition storeRelayActivityScript (key body : string) (count : string) (retention : Z) : Rcmd Z :=
  _ ← HSET key [("body", body); ("remain_count", count)];
  _ ← EXPIRE key retention;
  mret 1.

(** ** Domains and targets *)

Definition normalizedStoredDomain (domain : string) : string :=
  let domain := TrimSpace domain in
  if domain =s "" then ""
  else match url_Parse ("//" +:+ domain) with
  | Ok parsed => if negb (Hostname parsed =s "") then ToLower (TrimSuffix (Hostname parsed) ".")
                 else ToLower (TrimSuffix domain ".")
  | Err _ => ToLower (TrimSuffix domain ".")
  end.
(** [normalizedActorDomain]; [None] is a nil URL. *)
Definition normalizedActorDomain (actorID : option URL) : string :=
  match actorID with None => "" | Some u => ToLower (TrimSuffix (Hostname u) ".") end.

Definition excludedSet (excludedDomains : list string) : gset string :=
  list_to_set (List.filter (λ d, negb (d =s "")) (map normalizedStoredDomain excludedDomains)).
Definition dedupeKey (subscription : Subscriber) : string :=
  let domain := normalizedStoredDomain (subDomain subscription) in
  if domain =s "" then ToLower (TrimSpace (subInboxURL subscription)) else domain.
(** The loop that collects the targets; [seen] holds the keys already delivered to. *)
Fixpoint selectTargets (excluded seen : gset string) (subscriptions : list Subscriber) : list Subscriber :=
  match subscriptions with
  | [] => []
  | s :: rest =>
      if bool_decide (normalizedStoredDomain (subDomain s) ∈ excluded) then selectTargets excluded seen rest
      else if negb (is_ok (NormalizeDestinationOrigin (subInboxURL s))) then selectTargets excluded seen rest
      else if dedupeKey s =s "" then s :: selectTargets excluded seen rest
      else if bool_decide (dedupeKey s ∈ seen) then selectTargets excluded seen rest
      else s :: selectTargets excluded ({[dedupeKey s]} ∪ seen) rest
  end.

Definition relayTaskWithProfile (inboxURL activityID profile : string) : taskSignature :=
  mkTask "relay-v2" RetryCount InitialRetryTimeoutSeconds
    [("inboxURL", inboxURL); ("activityID", activityID); ("signatureProfile", profile)].
Definition relayTask (inboxURL activityID : string) : taskSignature :=
  relayTaskWithProfile inboxURL activityID ProfileLegacy.
Definition registerTask (inboxURL body profile : string) : taskSignature :=
  mkTask "register" 2 0 [("inboxURL", inboxURL); ("body", body); ("signatureProfile", profile)].

(** ** The package's variables *)

Section queue.
Context {S : Type} `{Redis S} {PrivateKey : Type}.
Abbreviation Mw := (M (World S)).

Record Globals := mkGlobals {
  MaxQueueJobs : Z;
  MaxFanoutTargets : Z;
  MaxActivityBytes : Z;
  DistributionPolicy : string;
  RelayActor : Actor;
  RemoteRequestSigner : option (ConfiguredSigner (S := S) (PrivateKey := PrivateKey));
  OperationalMetrics : bool;
  NewGroup : list taskSignature → option error }.
Variable g : Globals.

(** api/operational_metrics.go *)
Definition recordActivityMetric (result_ activityType reason : string) : Mw unit :=
  whenEnabled (OperationalMetrics g) (RecordActivity result_ activityType reason).
Definition recordHTTPSignatureVerification (profile result_ reason : string) : Mw unit :=
  whenEnabled (OperationalMetrics g) (RecordHTTPSignatureVerification profile result_ reason).
Definition recordQueueAdmission (kind result_ reason : string) : Mw unit :=
  whenEnabled (OperationalMetrics g) (RecordQueueAdmission kind result_ reason).
Definition recordFanoutTargets (result_ : string) (count : Z) : Mw unit :=
  whenEnabled (OperationalMetrics g) (RecordFanoutTargets result_ count).
Definition recordRedisOperationFailure (component operation : string) : Mw unit :=
  whenEnabled (OperationalMetrics g) (RecordRedisFailure component operation).

(** ** Capacity *)

Definition reserveQueueCapacityWithReason (additional : Z) : Mw (bool * string) :=
  if additional <? 1 then mret (true, "accepted")
  else
    reserved ← redis (reserveScript queueKey queueReservationKey (itoa additional) (itoa (MaxQueueJobs g)));
    match reserved with
    | Err _ => _ ← recordRedisOperationFailure "api" "queue_reserve"; mret (false, "redis")
    | Ok n => mret (if negb (n =? 1) then (false, "capacity") else (true, "accepted"))
    end.
Definition reserveQueueCapacity (additional : Z) : Mw bool :=
  r ← reserveQueueCapacityWithReason additional; mret r.1.
Definition releaseQueueCapacity (additional : Z) : Mw unit :=
  if additional <? 1 then mret tt
  else
    r ← redis (releaseScript queueReservationKey additional);
    match r with
    | Err _ => recordRedisOperationFailure "api" "queue_release"
    | Ok _ => mret tt
    end.

(** ** Tasks *)

Definition plannedDeliveryProfile (inboxURL : string) : Mw (result string) :=
  match RemoteRequestSigner g with
  | None => mret (Ok ProfileLegacy)
  | Some cs => plan ←! signerPlan (Some cs) DestinationScopeDelivery inboxURL; mret (Ok (Primary plan))
  end.

(** [enqueueRegisterActivity]; the deferred release runs last. *)
Definition enqueueRegisterActivity (inboxURL body : string) : Mw unit :=
  profile ← plannedDeliveryProfile inboxURL;
  match profile with
  | Err _ => recordQueueAdmission "register" "error" "signature_plan"
  | Ok profile =>
      '(accepted, reason) ← reserveQueueCapacityWithReason 1;
      if negb accepted then recordQueueAdmission "register" "rejected" reason
      else
        sent ← brokerSend [registerTask inboxURL body profile];
        _ ← match sent with
            | Err _ => recordQueueAdmission "register" "error" "broker"
            | Ok _ => recordQueueAdmission "register" "accepted" "accepted"
            end;
        releaseQueueCapacity 1
  end.

Definition negotiatedRelayTask (inboxURL activityID : string) : Mw (result taskSignature) :=
  profile ←! plannedDeliveryProfile inboxURL;
  mret (Ok (relayTaskWithProfile inboxURL activityID profile)).

Definition storeRelayActivity (activityID body : string) (targetCount : Z) : Mw (result unit) :=
  stored ← redis (storeRelayActivityScript (activityKeyPrefix +:+ activityID) body (itoa targetCount)
                    ActivityRetentionSeconds);
  match stored with
  | Err e => _ ← recordRedisOperationFailure "api" "activity_store"; mret (Err e)
  | Ok n => mret (if negb (n =? 1)
                  then Err (errorsNew ("unexpected relay activity storage result: " +:+ itoa n)) else Ok tt)
  end.

(** The tasks of the targets whose signature could be planned, in order. *)
Fixpoint planTasks (activityID : string) (targets : list Subscriber) : Mw (list taskSignature) :=
  match targets with
  | [] => mret []
  | target :: rest =>
      task ← negotiatedRelayTask (subInboxURL target) activityID;
      tasks ← planTasks activityID rest;
      mret (match task with Ok t => t :: tasks | Err _ => tasks end)
  end.

(** What happens between the reservation and its deferred release. *)
Definition storeAndSend (activityID body : string) (signatures : list taskSignature) : Mw bool :=
  let n := Z.of_nat (length signatures) in
  let failed reason := (_ ← recordQueueAdmission "relay" "error" reason;
                        _ ← recordFanoutTargets "error" n; mret false) in
  stored ← storeRelayActivity activityID body n;
  match stored with
  | Err _ => failed "store"
  | Ok _ =>
      match NewGroup g signatures with
      | Some _ => failed "group"
      | None =>
          sent ← brokerSend signatures;
          match sent with
          | Err _ => failed "broker"
          | Ok _ => _ ← recordQueueAdmission "relay" "accepted" "accepted";
                    _ ← recordFanoutTargets "queued" n; mret true
          end
      end
  end.

Definition enqueueActivityExcept (subscriptions : list Subscriber) (body : string)
    (excludedDomains : list string) : Mw bool :=
  let targets := selectTargets (excludedSet excludedDomains) ∅ subscriptions in
  if MaxFanoutTargets g <? Z.of_nat (length targets) then
    _ ← recordQueueAdmission "relay" "rejected" "fanout_limit";
    _ ← recordFanoutTargets "rejected" (Z.of_nat (length targets));
    mret false
  else if Z.of_nat (length targets) <? 1 then
    _ ← recordQueueAdmission "relay" "skipped" "no_targets"; mret true
  else
    activityID ← uuidNew;
    signatures ← planTasks activityID targets;
    let n := Z.of_nat (length signatures) in
    if n <? 1 then
      _ ← recordQueueAdmission "relay" "error" "signature_plan";
      _ ← recordFanoutTargets "error" (Z.of_nat (length targets));
      mret false
    else
      '(accepted, reason) ← reserveQueueCapacityWithReason n;
      if negb accepted then
        _ ← recordQueueAdmission "relay" "rejected" reason;
        _ ← recordFanoutTargets "rejected" n;
        mret false
      else
        ok ← storeAndSend activityID body signatures;
        _ ← releaseQueueCapacity n;
        mret ok.

Definition enqueueActivity (subscriptions : list Subscriber) (sourceDomain body : string) : Mw unit :=
  _ ← enqueueActivityExcept subscriptions body [sourceDomain]; mret tt.
Definition enqueueActivityForAll (sourceDomain body : string) : Mw unit :=
  snapshot ← getRelay; enqueueActivity (SubscribersAndFollowers snapshot) sourceDomain body.
Definition enqueueActivityForAllExcept (body : string) (excludedDomains : list string) : Mw bool :=
  snapshot ← getRelay; enqueueActivityExcept (SubscribersAndFollowers snapshot) body excludedDomains.
Definition enqueueActivityForSubscriber (sourceDomain body : string) : Mw unit :=
  snapshot ← getRelay; enqueueActivity (Subscribers snapshot) sourceDomain body.
Definition enqueueActivityForFollower (sourceDomain body : string) : Mw unit :=
  snapshot ← getRelay;
  enqueueActivity (map followerAsSubscriber (Followers snapshot)) sourceDomain body.
End queue.
