(* ===== verification/QueueSpec.v ===== *)
(** * Fan-out and queue capacity: what holds of every run

    Target selection, the frames of the recorders and scripts, one fan-out from
    selection to the broker, and the reservation counter. *)

From S2P Require Import Prelude GoStrings GoUrl Redis GoTime World Frame Observability.
From S2P Require Import Negotiation Signer RelayState ActivityModel Queue.

(** ** Targets *)

Lemma blank_origin_invalid address : TrimSpace address = "" → is_ok (NormalizeDestinationOrigin address) = false.
Proof. intros E. unfold NormalizeDestinationOrigin. rewrite E. by vm_compute. Qed.
Lemma dedupeKey_nonempty s : is_ok (NormalizeDestinationOrigin (subInboxURL s)) = true → dedupeKey s ≠ "".
Proof.
  intros Ho E. unfold dedupeKey in E. destruct (normalizedStoredDomain (subDomain s) =s "") eqn:Ed.
  - assert (TrimSpace (subInboxURL s) = "").
    { destruct (TrimSpace (subInboxURL s)); [done|discriminate E]. }
    by rewrite blank_origin_invalid in Ho.
  - apply eqs_false in Ed. done.
Qed.

Lemma selectTargets_sublist excluded seen subs : selectTargets excluded seen subs `sublist_of` subs.
Proof.
  revert seen. induction subs as [|s subs IH]; intros seen; [constructor|]. cbn [selectTargets].
  repeat case_match; constructor; auto.
Qed.
Lemma selectTargets_ok excluded seen subs s :
  s ∈ selectTargets excluded seen subs →
  normalizedStoredDomain (subDomain s) ∉ excluded ∧ is_ok (NormalizeDestinationOrigin (subInboxURL s)) = true
  ∧ dedupeKey s ∉ seen.
Proof.
  revert seen. induction subs as [|s' subs IH]; intros seen; [by intros ?%not_elem_of_nil|].
  cbn [selectTargets]. destruct (bool_decide (_ ∈ excluded)) eqn:E1; [apply IH|].
  apply bool_decide_eq_false in E1.
  destruct (is_ok (NormalizeDestinationOrigin (subInboxURL s'))) eqn:E2; cbn [negb]; [|apply IH]. pose proof (dedupeKey_nonempty s' E2) as Hne.
  destruct (dedupeKey s' =s "") eqn:E3; [by apply eqs_true in E3|].
  destruct (bool_decide (dedupeKey s' ∈ seen)) eqn:E4; [apply IH|]. apply bool_decide_eq_false in E4.
  rewrite elem_of_cons. intros [->|Hs]; [done|]. apply IH in Hs as (? & ? & ?). set_solver.
Qed.
Lemma selectTargets_NoDup excluded seen subs : NoDup (dedupeKey <$> selectTargets excluded seen subs).
Proof.
  revert seen. induction subs as [|s subs IH]; intros seen; [constructor|]. cbn [selectTargets].
  destruct (bool_decide (_ ∈ excluded)); [apply IH|].
  destruct (is_ok _) eqn:E2; cbn [negb]; [|apply IH]. pose proof (dedupeKey_nonempty s E2) as Hne.
  destruct (dedupeKey s =s "") eqn:E3; [by apply eqs_true in E3|].
  destruct (bool_decide (dedupeKey s ∈ seen)); [apply IH|].
  rewrite fmap_cons, NoDup_cons. split; [|apply IH].
  intros (s' & Heq & Hs')%list_elem_of_fmap. apply selectTargets_ok in Hs' as (_ & _ & Hn). set_solver.
Qed.
(** A deliverable subscription that is not excluded reaches its domain: it or an earlier one with
    the same key is a target. *)
Lemma selectTargets_complete excluded seen subs s :
  s ∈ subs → normalizedStoredDomain (subDomain s) ∉ excluded →
  is_ok (NormalizeDestinationOrigin (subInboxURL s)) = true →
  dedupeKey s ∈ seen ∨ dedupeKey s ∈ dedupeKey <$> selectTargets excluded seen subs.
Proof.
  revert seen. induction subs as [|s' subs IH]; intros seen; [by intros ?%not_elem_of_nil|].
  intros Hs Hd Ho. cbn [selectTargets].
  apply elem_of_cons in Hs as [->|Hs].
  - rewrite (bool_decide_eq_false_2 _ Hd), Ho. cbn [negb]. destruct (dedupeKey s' =s ""); [right; left|].
    destruct (bool_decide (dedupeKey s' ∈ seen)) eqn:E; [left; by apply bool_decide_eq_true in E|right; left].
  - specialize (λ seen, IH seen Hs Hd Ho). repeat case_match; rewrite ?fmap_cons, ?elem_of_cons;
      try apply IH; [destruct (IH seen); auto|].
    destruct (IH ({[dedupeKey s']} ∪ seen)) as [Hx|Hx]; [|auto].
    apply elem_of_union in Hx as [->%elem_of_singleton|Hx]; auto.
Qed.

(** ** Frames *)

Definition metricsKeyOnly (k : string) : Prop := k = OperationalMetricsKey.
Definition capacityKeys (k : string) : Prop := k = OperationalMetricsKey ∨ k = queueReservationKey.
Definition noKeys (k : string) : Prop := False.

Section runs.
Context {S : Type} `{RedisLaws S} {PrivateKey : Type}.
Abbreviation W := (World S).
Variable g : Globals (S := S) (PrivateKey := PrivateKey).

Lemma runs_whenEnabled ks b (m : M W (result unit)) : runs (nearby ks) m → runs (nearby ks) (whenEnabled b m).
Proof. intros Hm. unfold whenEnabled. runs_auto. Qed.
Lemma runs_increment_nearby (ks : string → Prop) metric delta labels :
  ks OperationalMetricsKey → runs (nearby (S := S) ks) (increment metric delta labels).
Proof. intros Hk. unfold increment. runs_auto. Qed.
Lemma runs_recordQueueAdmission (ks : string → Prop) k r x :
  ks OperationalMetricsKey → runs (nearby ks) (recordQueueAdmission g k r x).
Proof. intros. by apply runs_whenEnabled, runs_increment_nearby. Qed.
Lemma runs_recordRedisOperationFailure (ks : string → Prop) c o :
  ks OperationalMetricsKey → runs (nearby ks) (recordRedisOperationFailure g c o).
Proof. intros. by apply runs_whenEnabled, runs_increment_nearby. Qed.
Lemma runs_recordFanoutTargets (ks : string → Prop) r n :
  ks OperationalMetricsKey → runs (nearby ks) (recordFanoutTargets g r n).
Proof.
  intros. apply runs_whenEnabled. unfold RecordFanoutTargets. case_match; [by apply runs_ret, _|].
  by apply runs_increment_nearby.
Qed.
Hint Resolve runs_recordQueueAdmission runs_recordRedisOperationFailure runs_recordFanoutTargets : runs.

Lemma touches_reserveScript q n m : touches capacityKeys (reserveScript q queueReservationKey n m).
Proof.
  unfold reserveScript. assert (Hk : capacityKeys queueReservationKey) by by right.
  repeat (apply touches_bind; [auto with runs|intros ?]). case_match; [auto with runs|].
  repeat (apply touches_bind; [auto with runs|intros ?]). auto with runs.
Qed.
Lemma touches_releaseScript n : touches capacityKeys (releaseScript queueReservationKey n).
Proof.
  unfold releaseScript, DECRBY. assert (Hk : capacityKeys queueReservationKey) by by right.
  apply touches_bind; [auto with runs|intros ?]. case_match; [|auto with runs].
  apply touches_bind; [auto with runs|intros ?]. auto with runs.
Qed.
Lemma runs_reserve n : runs (nearby capacityKeys) (reserveQueueCapacityWithReason g n).
Proof.
  unfold reserveQueueCapacityWithReason. assert (capacityKeys OperationalMetricsKey) by by left.
  case_match; [by apply runs_ret, _|].
  apply runs_bind; [typeclasses eauto|apply runs_redis_nearby, touches_reserveScript|intros ?].
  runs_auto.
Qed.
Lemma runs_release n : runs (nearby capacityKeys) (releaseQueueCapacity g n).
Proof.
  unfold releaseQueueCapacity. assert (capacityKeys OperationalMetricsKey) by by left.
  case_match; [by apply runs_ret, _|].
  apply runs_bind; [typeclasses eauto|apply runs_redis_nearby, touches_releaseScript|intros ?].
  runs_auto.
Qed.

(** ** Planning

    What fan-out relies on in the signature planner: it answers and changes nothing but the
    position of the clock. *)
Class PlannerLaws : Prop :=
  planner_local : ∀ inboxURL, runs (nearby noKeys) (plannedDeliveryProfile g inboxURL).

Lemma planner_unsigned : RemoteRequestSigner g = None → PlannerLaws.
Proof. intros E inboxURL. unfold plannedDeliveryProfile. rewrite E. by apply runs_ret, _. Qed.
Lemma runs_loadCapability prefix scope origin : runs (nearby noKeys) (loadCapability (S := S) prefix scope origin).
Proof.
  unfold loadCapability. do 2 (apply runs_bindErr; [typeclasses eauto|by apply runs_ret, _|intros ?]).
  case_match; [by apply runs_ret, _|].
  apply runs_bindErr; [typeclasses eauto| |intros; by apply runs_ret, _].
  apply runs_redis_nearby, touches_readOnly. apply HGETALL_readOnly.
Qed.
(** A signer with a fixed profile, or one that negotiates with the Redis capability store. *)
Lemma planner_signed cs : RemoteRequestSigner g = Some cs →
  (∀ ng, csNegotiator cs = Some ng → ngNow ng = timeNow
     ∧ ∀ store, ngStore ng = Some store → ∃ prefix, store = RedisDestinationCapabilityStore prefix) →
  PlannerLaws.
Proof.
  intros E Hng inboxURL. unfold plannedDeliveryProfile. rewrite E.
  apply runs_bindErr; [typeclasses eauto| |intros; by apply runs_ret, _]. unfold signerPlan.
  destruct (csNegotiator cs) as [ng|]; [|runs_auto].
  destruct (Hng ng eq_refl) as [Hnow Hst]. unfold Plan. rewrite Hnow.
  do 2 (apply runs_bindErr; [typeclasses eauto|by apply runs_ret, _|intros ?]).
  repeat (case_match; [by apply runs_ret, _|]). destruct (ngStore ng) as [store|]; [|by apply runs_ret, _].
  destruct (Hst store eq_refl) as [prefix ->]. cbn [LoadDestinationCapability RedisDestinationCapabilityStore].
  apply runs_bindErr; [typeclasses eauto|apply runs_loadCapability|intros [c|]]; [|by apply runs_ret, _].
  unfold Fresh. runs_auto.
Qed.
Context `{!PlannerLaws}.

(** The planner has a profile for every deliverable inbox. *)
Definition plansAll : Prop := ∀ inboxURL, is_ok (NormalizeDestinationOrigin inboxURL) = true →
  ∀ w, match plannedDeliveryProfile g inboxURL w with (_, Done (Ok _)) => True | _ => False end.
(** The tasks of [chosen]: each target with the profile planned for it. *)
Definition tasksOf (activityID : string) (chosen : list (Subscriber * string)) : list taskSignature :=
  map (λ c, relayTaskWithProfile (subInboxURL c.1) activityID c.2) chosen.
Lemma planTasks_run activityID targets (w : W) : ∃ w' chosen,
  planTasks g activityID targets w = (w', Done (tasksOf activityID chosen))
  ∧ chosen.*1 `sublist_of` targets ∧ nearby noKeys w w'
  ∧ (plansAll → Forall (λ s, is_ok (NormalizeDestinationOrigin (subInboxURL s)) = true) targets →
     chosen.*1 = targets).
Proof.
  revert w. induction targets as [|t targets IH]; intros w; [by exists w, []|]. cbn [planTasks].
  destruct (planner_local (subInboxURL t) w) as (w1 & r & E & Hw1).
  destruct (IH w1) as (w2 & chosen & E2 & Hs & Hw2 & Hall).
  assert (Hn : negotiatedRelayTask g (subInboxURL t) activityID w
    = (w1, Done ((λ p, relayTaskWithProfile (subInboxURL t) activityID p) <$> r))).
  { unfold negotiatedRelayTask. destruct r; [by rewrite (bindErr_Ok _ _ _ _ _ E)|].
    by rewrite (bindErr_Err _ _ _ _ _ E). }
  exists w2, (match r with Ok p => (t, p) :: chosen | Err _ => chosen end).
  rewrite (bind_Done _ _ _ _ _ Hn), (bind_Done _ _ _ _ _ E2).
  split; [by destruct r|]. split; [destruct r; by constructor|]. split; [by etransitivity|].
  intros Hp [Ht Hts]%Forall_cons. pose proof (Hp _ Ht w) as Hr. rewrite E in Hr.
  destruct r as [profile|]; [|by destruct Hr]. rewrite fmap_cons. f_equal. by apply Hall.
Qed.

(** ** Storing and sending *)

Definition activityKey (activityID : string) : string := activityKeyPrefix +:+ activityID.
(** The body is stored, with that many targets still to serve, for a limited time. *)
Definition storedActivity (w : W) (activityID body : string) (n : Z) : Prop := ∃ h t,
  db_keys (rs_db (w_redis w)) !! activityKey activityID = Some (mkEntry (RHash h) (Some t))
  ∧ h !! "body" = Some body ∧ h !! "remain_count" = Some (itoa n).

Lemma storeScript_Ok key body count retention now d d' n : 0 < retention →
  storeRelayActivityScript key body count retention now d = (d', Ok n) →
  n = 1 ∧ ∃ h, db_keys d' !! key = Some (mkEntry (RHash h) (Some (now + 1000 * retention)))
    ∧ h !! "body" = Some body ∧ h !! "remain_count" = Some count.
Proof.
  intros Hr. unfold storeRelayActivityScript, mbind, Rcmd_bind, mret, Rcmd_ret, HSET.
  destruct (asHash now d key) as [h|] eqn:Eh; [|done].
  set (h' := foldl _ _ _). set (d1 := put _ _ _ _). unfold EXPIRE, EXPIREAT_MS.
  assert (Hf : find now d1 key = Some (mkEntry (RHash h') (ttlOf now d key))).
  { unfold d1. rewrite find_put_same. assert (live now (mkEntry (RHash h') (ttlOf now d key)) = true) as ->; [|done].
    unfold ttlOf. destruct (find now d key) as [e|] eqn:Ef; [|done]. by apply find_Some in Ef as [_ Hl]. }
  rewrite Hf. destruct (Z.leb_spec (now + 1000 * retention) now); [lia|]. cbn [e_val].
  intros [= <- <-]. split; [done|]. exists h'. split; [unfold put; simpl; by rewrite lookup_insert_eq|].
  unfold h'. simpl. by map_look.
Qed.

(** The keys written while storing the body, and those of a whole fan-out. *)
Definition bodyKeys (activityID : string) (k : string) : Prop :=
  metricsKeyOnly k ∨ k = activityKey activityID.
Definition storeKeys (activityID : string) (k : string) : Prop :=
  capacityKeys k ∨ k = activityKey activityID.
Lemma touches_storeScript activityID body n r :
  touches (bodyKeys activityID) (storeRelayActivityScript (activityKey activityID) body n r).
Proof.
  unfold storeRelayActivityScript. assert (bodyKeys activityID (activityKey activityID)) by by right.
  repeat (apply touches_bind; [auto with runs|intros ?]). auto with runs.
Qed.

Lemma storeRelayActivity_run activityID body n (w : W) : ∃ w' r,
  storeRelayActivity g activityID body n w = (w', Done r) ∧ nearby (bodyKeys activityID) w w'
  ∧ (r = Ok tt → storedActivity w' activityID body n).
Proof.
  unfold storeRelayActivity. set (c := storeRelayActivityScript _ _ _ _).
  assert (Hn : nearby (bodyKeys activityID) w (redis c w).1).
  { apply redisOnly_nearby, redisOnly_redis, touches_storeScript. }
  destruct (redis c w) as [w1 r1] eqn:E. unfold redis in E. injection E as <- <-. cbn [fst] in Hn.
  erewrite bind_Done by reflexivity.
  destruct (redis_do c (w_redis w)).2 as [z|e] eqn:E2.
  - apply redis_do_Ok in E2. unfold c in E2 at 1. apply storeScript_Ok in E2 as (-> & h & Hk & Hh); [|done].
    eexists _, _. split; [reflexivity|]. split; [done|]. intros _. exists h. eexists. split; [exact Hk|exact Hh].
  - destruct (runs_recordRedisOperationFailure (bodyKeys activityID) "api" "activity_store" (or_introl eq_refl)
      (set_redis (redis_do c (w_redis w)).1 w)) as (w2 & [] & E3 & Hn2).
    exists w2, (Err e). erewrite bind_Done by exact E3. split; [done|]. split; [by etransitivity|done].
Qed.

Lemma storedActivity_nearby (ks : string → Prop) w w' id body n :
  ¬ ks (activityKey id) → nearby ks w w' → storedActivity w id body n → storedActivity w' id body n.
Proof. intros Hk (_ & _ & _ & _ & K) (h & t & E & Hh). exists h, t. by rewrite K. Qed.
Lemma activityKey_other id : ¬ capacityKeys (activityKey id).
Proof. intros [E|E]; discriminate E. Qed.

(** Nothing but Redis keys in [ks], the queue and the position in the random UUIDs changed. *)
Definition sending (ks : string → Prop) (taken : list taskSignature) (w w' : W) : Prop :=
  w_queued w' = w_queued w ++ taken ∧ w_relay w' = w_relay w ∧ w_spawned w' = w_spawned w
  ∧ w_sentRequests w' = w_sentRequests w ∧ w_cache w' = w_cache w ∧ w_broker w' = w_broker w
  ∧ db_published (rs_db (w_redis w')) = db_published (rs_db (w_redis w))
  ∧ ∀ k, ¬ ks k → db_keys (rs_db (w_redis w')) !! k = db_keys (rs_db (w_redis w)) !! k.
Lemma nearby_sending (ks ks' : string → Prop) w w' :
  (∀ k, ks k → ks' k) → nearby ks w w' → sending ks' [] w w'.
Proof.
  intros Hk (A & B & _ & P & K). destruct_and?. unfold sending. rewrite app_nil_r.
  repeat split; try done. intros k Hn. apply K. auto.
Qed.
Lemma sending_trans ks t1 t2 w1 w2 w3 :
  sending ks t1 w1 w2 → sending ks t2 w2 w3 → sending ks (t1 ++ t2) w1 w3.
Proof.
  intros (A1 & B1 & C1 & D1 & E1 & F1 & P1 & K1) (A2 & B2 & C2 & D2 & E2 & F2 & P2 & K2).
  unfold sending. rewrite A2, A1, (assoc_L (++)). repeat split; try congruence.
  intros k Hk. by rewrite K2, K1.
Qed.
Lemma sending_nearby (ks ks' : string → Prop) taken w1 w2 w3 :
  nearby ks w2 w3 → sending ks' taken w1 w2 → (∀ k, ks k → ks' k) → sending ks' taken w1 w3.
Proof.
  intros Hn Hs Hk. rewrite <- (app_nil_r taken). eapply sending_trans; [done|]. by eapply nearby_sending.
Qed.
Lemma sending_broker ks taken w w' : sending ks taken w w' → brokerDocumented w → brokerDocumented w'.
Proof. intros (_ & _ & _ & _ & _ & Eb & _). unfold brokerDocumented. by rewrite Eb. Qed.
Lemma metrics_storeKeys id k : metricsKeyOnly k → storeKeys id k.
Proof. intros ->. by left; left. Qed.
Lemma metrics_bodyKeys id k : metricsKeyOnly k → bodyKeys id k.
Proof. by left. Qed.
Lemma sending_weaken (ks ks' : string → Prop) taken w w' :
  (∀ k, ks k → ks' k) → sending ks taken w w' → sending ks' taken w w'.
Proof.
  intros Hk (? & ? & ? & ? & ? & ? & ? & K). repeat (split; [done|]). intros k Hn. apply K. auto.
Qed.
Lemma bodyKeys_storeKeys id k : bodyKeys id k → storeKeys id k.
Proof. intros [->| ->]; [by left; left|by right]. Qed.
Lemma capacity_storeKeys id k : capacityKeys k → storeKeys id k.
Proof. by left. Qed.
Hint Resolve metrics_storeKeys capacity_storeKeys metrics_bodyKeys bodyKeys_storeKeys : runs.

Lemma brokerSend_run ts (w : W) : brokerDocumented w → ∃ w' r taken,
  brokerSend ts w = (w', Done r) ∧ sending noKeys taken w w' ∧ taken ⊆ ts ∧ (r = Ok tt → taken = ts)
  ∧ w_redis w' = w_redis w.
Proof.
  intros Hb. unfold brokerSend. destruct (Hb (w_sends w) ts) as [Hs He].
  destruct (w_broker w (w_sends w) ts) as [taken e]. simpl in *.
  eexists _, _, taken. split; [reflexivity|]. split; [by repeat split|]. split; [done|]. split; [|done].
  destruct e; [done|]. intros _. by apply He.
Qed.

(** The two metrics recorded at the end of an attempt. *)
Lemma record_both_run r1 x r2 n (b : bool) (w : W) : ∃ w',
  (_ ← recordQueueAdmission g "relay" r1 x; _ ← recordFanoutTargets g r2 n; mret b) w = (w', Done b)
  ∧ nearby metricsKeyOnly w w'.
Proof.
  assert (Hr : runs (nearby metricsKeyOnly)
    (_ ← recordQueueAdmission g "relay" r1 x; _ ← recordFanoutTargets g r2 n; mret b)).
  { apply runs_bind; [typeclasses eauto|by apply runs_recordQueueAdmission|intros _].
    apply runs_bind; [typeclasses eauto|by apply runs_recordFanoutTargets|intros _]. by apply runs_ret, _. }
  destruct (runs_recordQueueAdmission metricsKeyOnly "relay" r1 x eq_refl w) as (w1 & u1 & E1 & N1).
  destruct (runs_recordFanoutTargets metricsKeyOnly r2 n eq_refl w1) as (w2 & u2 & E2 & N2).
  exists w2. erewrite bind_Done by exact E1. erewrite bind_Done by exact E2. split; [done|by etransitivity].
Qed.

Definition sendOutcome activityID body (sigs taken : list taskSignature) (w w' : W) (ok : bool) : Prop :=
  sending (bodyKeys activityID) taken w w' ∧ taken ⊆ sigs ∧ (ok = true → taken = sigs)
  ∧ (taken ≠ [] ∨ ok = true → storedActivity w' activityID body (Z.of_nat (length sigs))).

Lemma send_finish activityID body sigs taken (w wa : W) ok r1 x r2 : ∀ n,
  sendOutcome activityID body sigs taken w wa ok →
  ∃ w', (_ ← recordQueueAdmission g "relay" r1 x; _ ← recordFanoutTargets g r2 n; mret ok) wa = (w', Done ok)
    ∧ sendOutcome activityID body sigs taken w w' ok.
Proof.
  intros n (Hs & Ht & Ha & Hst). destruct (record_both_run r1 x r2 n ok wa) as (w' & E & N).
  exists w'. split; [done|]. split; [eapply sending_nearby; [exact N|done|eauto with runs]|]. split; [done|]. split; [done|].
  intros Hne. eapply storedActivity_nearby; [|exact N|auto]. by intros ?.
Qed.

Lemma storeAndSend_run activityID body sigs (w : W) : brokerDocumented w → ∃ w' ok taken,
  storeAndSend g activityID body sigs w = (w', Done ok) ∧ sendOutcome activityID body sigs taken w w' ok.
Proof.
  intros Hb. unfold storeAndSend. set (n := Z.of_nat (length sigs)).
  destruct (storeRelayActivity_run activityID body n w) as (w1 & r & E1 & N1 & Hst).
  erewrite bind_Done by exact E1.
  assert (S1 : sending (bodyKeys activityID) [] w w1) by by eapply nearby_sending.
  assert (Hno : sendOutcome activityID body sigs [] w w1 false).
  { split; [done|]. split; [set_solver|]. split; [done|]. by intros [?|?]. }
  destruct r as [[]|e]; [|destruct (send_finish _ _ _ _ _ _ _ "error" "store" "error" n Hno); eauto].
  destruct (NewGroup g sigs); [destruct (send_finish _ _ _ _ _ _ _ "error" "group" "error" n Hno); eauto|].
  destruct (brokerSend_run sigs w1) as (w2 & r2 & taken & E2 & S2 & Hsub & Hall & Hred);
    [by eapply sending_broker|].
  erewrite bind_Done by exact E2.
  assert (Hsent : ∀ ok, (ok = true → taken = sigs) → sendOutcome activityID body sigs taken w w2 ok).
  { intros ok Hok. split.
    - change taken with ([] ++ taken). eapply sending_trans; [done|].
      destruct S2 as (? & ? & ? & ? & ? & ? & ? & K). repeat (split; [done|]). intros k _. apply K. by intros [].
    - split; [done|]. split; [done|]. intros _. unfold storedActivity. rewrite Hred. by apply Hst. }
  destruct r2 as [[]|e2].
  - destruct (send_finish _ _ _ _ _ _ true "accepted" "accepted" "queued" n (Hsent true (λ _, Hall eq_refl))); eauto.
  - destruct (send_finish _ _ _ _ _ _ false "error" "broker" "error" n (Hsent false ltac:(done))); eauto.
Qed.

(** The targets of an activity: a choice among the subscriptions, none excluded, each with a
    deliverable inbox, one per receiver, and no more than the configured maximum. *)
Definition targetsOk (subscriptions : list Subscriber) (excludedDomains : list string)
    (targets : list Subscriber) : Prop :=
  targets `sublist_of` subscriptions
  ∧ NoDup (dedupeKey <$> targets)
  ∧ Forall (λ s, normalizedStoredDomain (subDomain s) ∉ excludedSet excludedDomains
                 ∧ is_ok (NormalizeDestinationOrigin (subInboxURL s)) = true) targets
  ∧ Z.of_nat (length targets) ≤ Z.max 0 (MaxFanoutTargets g).
Lemma targetsOk_sublist subs excluded targets chosen :
  chosen `sublist_of` targets → targetsOk subs excluded targets → targetsOk subs excluded chosen.
Proof.
  intros Hc (Hs & Hn & Hf & Hl). split; [by etransitivity|]. split.
  { eapply sublist_NoDup; [exact Hn|]. by apply fmap_sublist. }
  split; [|apply sublist_length in Hc; lia]. rewrite Forall_forall in *. intros s Hin. apply Hf.
  eapply elem_of_submseteq; [exact Hin|by apply sublist_submseteq].
Qed.
Lemma selectTargets_targetsOk subs excluded :
  let targets := selectTargets (excludedSet excluded) ∅ subs in
  Z.of_nat (length targets) ≤ Z.max 0 (MaxFanoutTargets g) → targetsOk subs excluded targets.
Proof.
  intros targets Hl. split; [apply selectTargets_sublist|]. split; [apply selectTargets_NoDup|].
  split; [|done]. apply Forall_forall. intros s Hs. apply selectTargets_ok in Hs. naive_solver.
Qed.

(** Everything an attempt to fan out guarantees: [chosen] are the targets with their profiles,
    [taken] the tasks the broker took. *)
Definition fanoutOutcome subscriptions body excludedDomains (w w' : W) (ok : bool)
    (taken : list taskSignature) (activityID : string) (chosen : list (Subscriber * string)) : Prop :=
  sending (storeKeys activityID) taken w w'
  ∧ targetsOk subscriptions excludedDomains (chosen.*1)
  ∧ taken ⊆ tasksOf activityID chosen
  ∧ (ok = true → taken = tasksOf activityID chosen)
  ∧ (taken ≠ [] → storedActivity w' activityID body (Z.of_nat (length chosen)))
  ∧ (plansAll → ok = true → chosen.*1 = selectTargets (excludedSet excludedDomains) ∅ subscriptions).

Lemma fanout_none subs body excluded w w' ok id :
  sending (storeKeys id) [] w w' → (ok = true → selectTargets (excludedSet excluded) ∅ subs = []) →
  fanoutOutcome subs body excluded w w' ok [] id [].
Proof.
  intros Hs Hok. split; [done|]. split.
  { split; [apply sublist_nil_l|]. split; [constructor|]. split; [constructor|]. simpl. lia. }
  split; [set_solver|]. split; [done|]. split; [done|]. intros _ Hk. by rewrite Hok.
Qed.

Lemma fanout_rejected subs body excluded (w wa : W) id r1 x r2 n : sending (storeKeys id) [] w wa →
  ∃ w' ok taken activityID chosen,
    (_ ← recordQueueAdmission g "relay" r1 x; _ ← recordFanoutTargets g r2 n; mret false) wa = (w', Done ok)
    ∧ fanoutOutcome subs body excluded w w' ok taken activityID chosen.
Proof.
  intros Hs. destruct (record_both_run r1 x r2 n false wa) as (w' & E & N).
  exists w', false, [], id, []. split; [exact E|].
  apply fanout_none; [|done]. eapply sending_nearby; [exact N|done|eauto with runs].
Qed.

(** From a planned group of tasks on. *)
Lemma enqueue_planned subs body excluded (w w2 : W) id chosen :
  let sigs := tasksOf id chosen in
  sending (storeKeys id) [] w w2 → brokerDocumented w → targetsOk subs excluded (chosen.*1) →
  (plansAll → chosen.*1 = selectTargets (excludedSet excluded) ∅ subs) →
  ∃ w' ok taken activityID chosen,
    (ok ← storeAndSend g id body sigs; _ ← releaseQueueCapacity g (Z.of_nat (length sigs)); mret ok) w2 = (w', Done ok)
    ∧ fanoutOutcome subs body excluded w w' ok taken activityID chosen.
Proof.
  intros sigs S2 Hb Htok Hall.
  destruct (storeAndSend_run id body sigs w2) as (w3 & ok & taken & E3 & S3 & Hsubt & Hok & Hst);
    [by eapply sending_broker|].
  erewrite bind_Done by exact E3.
  destruct (runs_release (Z.of_nat (length sigs)) w3) as (w4 & u & E4 & N4).
  erewrite bind_Done by exact E4. exists w4, ok, taken, id, chosen. split; [done|]. split.
  { eapply sending_nearby; [exact N4| |eauto with runs].
    change taken with ([] ++ taken). eapply sending_trans; [done|].
    eapply sending_weaken; [|exact S3]. eauto with runs. }
  split; [done|]. split; [done|]. split; [done|]. split; [|auto].
  intros Hne. eapply storedActivity_nearby; [apply activityKey_other|exact N4|].
  assert (Hlen : length sigs = length chosen) by apply length_map. rewrite <- Hlen. apply Hst. by left.
Qed.

Lemma enqueue_run subscriptions body excludedDomains (w : W) : brokerDocumented w →
  ∃ w' ok taken activityID chosen,
    enqueueActivityExcept g subscriptions body excludedDomains w = (w', Done ok)
    ∧ fanoutOutcome subscriptions body excludedDomains w w' ok taken activityID chosen.
Proof.
  intros Hb. unfold enqueueActivityExcept. set (targets := selectTargets _ _ _).
  assert (Sw : sending (storeKeys "") [] w w) by (unfold sending; rewrite app_nil_r; done).
  destruct (Z.ltb_spec (MaxFanoutTargets g) (Z.of_nat (length targets))) as [Hl|Hl];
    [by apply (fanout_rejected _ _ _ w w "")|].
  destruct (Z.ltb_spec (Z.of_nat (length targets)) 1) as [Hz|Hz].
  { destruct (runs_recordQueueAdmission metricsKeyOnly "relay" "skipped" "no_targets" eq_refl w) as (w' & u & E & N).
    erewrite bind_Done by exact E. exists w', true, [], "", []. split; [done|].
    apply fanout_none; [eapply sending_nearby; [exact N|done|eauto with runs]|]. intros _. apply nil_length_inv. change (length targets = 0%nat). lia. }
  assert (Htok : targetsOk subscriptions excludedDomains targets) by (apply selectTargets_targetsOk; fold targets; lia).
  erewrite bind_Done by reflexivity. set (id := w_uuid w (w_uuids w)). set (w0 := mkWorld _ _ _ _ _ _ _ _ _ _ _ _ _ _).
  destruct (planTasks_run id targets w0) as (w1 & chosen & E1 & Hsub & N1 & Hall).
  erewrite bind_Done by exact E1.
  assert (S1 : sending (storeKeys id) [] w w1).
  { eapply sending_nearby; [exact N1|unfold sending; rewrite app_nil_r; done|by intros k []]. }
  destruct (Z.ltb_spec (Z.of_nat (length (tasksOf id chosen))) 1) as [Hc|Hc]; [by apply (fanout_rejected _ _ _ w w1 id)|].
  destruct (runs_reserve (Z.of_nat (length (tasksOf id chosen))) w1) as (w2 & [accepted reason] & E2 & N2).
  erewrite bind_Done by exact E2.
  assert (S2 : sending (storeKeys id) [] w w2) by (eapply sending_nearby; [exact N2|done|eauto with runs]).
  destruct accepted; cbn [negb]; [|by apply (fanout_rejected _ _ _ w w2 id)].
  apply enqueue_planned; [done|done|by eapply targetsOk_sublist|].
  intros Hp. apply Hall; [done|]. destruct Htok as (_ & _ & Hf & _). eapply Forall_impl; [exact Hf|naive_solver].
Qed.
End runs.

(** ** Claims on fan-out *)

Section claims.
Context {S : Type} `{RedisLaws S} {PrivateKey : Type}.
Variable g : Globals (S := S) (PrivateKey := PrivateKey).
Context `{!PlannerLaws g}.

(** C1: fanning out an activity ends without a panic whatever Redis fails, and every task the
    broker took is a [relay-v2] task for the inbox of a chosen target: a subscription that is not
    excluded and has a deliverable inbox, at most one per receiver and no more than the
    configured maximum in all.  A task is never queued unless the body is stored under the task's
    activity ID with the number of targets as its remaining count and an expiry.  Success is
    reported only when the broker took the whole group.  Apart from that only the metrics and the
    capacity reservation in Redis were written. *)
Theorem fanout_is_sound (subscriptions : list Subscriber) (body : string) (excludedDomains : list string)
    (w : World S) (Hb : brokerDocumented w) :
  ∃ w' ok taken activityID chosen,
    enqueueActivityExcept g subscriptions body excludedDomains w = (w', Done ok)
    ∧ sending (storeKeys activityID) taken w w'
    ∧ targetsOk g subscriptions excludedDomains (chosen.*1)
    ∧ taken ⊆ tasksOf activityID chosen
    ∧ (ok = true → taken = tasksOf activityID chosen)
    ∧ (taken ≠ [] → storedActivity w' activityID body (Z.of_nat (length chosen))).
Proof.
  destruct (enqueue_run g subscriptions body excludedDomains w Hb)
    as (w' & ok & taken & id & chosen & E & A & B & C & D & F & _).
  by exists w', ok, taken, id, chosen.
Qed.

(** C29: when the planner has a profile for every deliverable inbox, a successful fan-out reaches
    everyone: the tasks it added to the queue are those of a list of subscriptions, with one task,
    for its own inbox, for each, in which every subscription that is not excluded and has a
    deliverable inbox is represented by exactly one of the given subscriptions with its
    receiver's key (itself or another of the same receiver). *)
Theorem fanout_reaches_everyone (subscriptions : list Subscriber) (body : string)
    (excludedDomains : list string) (w w' : World S) (Hb : brokerDocumented w) (Hplans : plansAll g)
    (Hok : enqueueActivityExcept g subscriptions body excludedDomains w = (w', Done true)) :
  ∃ activityID chosen,
    w_queued w' = w_queued w ++ map (λ c, relayTaskWithProfile (subInboxURL c.1) activityID c.2) chosen
    ∧ NoDup (dedupeKey <$> chosen.*1)
    ∧ ∀ s, s ∈ subscriptions →
        normalizedStoredDomain (subDomain s) ∉ excludedSet excludedDomains →
        is_ok (NormalizeDestinationOrigin (subInboxURL s)) = true →
        ∃ t profile, (t, profile) ∈ chosen ∧ t ∈ subscriptions ∧ dedupeKey t = dedupeKey s
          ∧ relayTaskWithProfile (subInboxURL t) activityID profile ∈ w_queued w'.
Proof.
  destruct (enqueue_run g subscriptions body excludedDomains w Hb)
    as (w2 & ok & taken & id & chosen & E & (Hq & _) & (Hsub & Hdup & _) & _ & Hall & _ & Hch).
  rewrite E in Hok. injection Hok as -> ->. rewrite (Hall eq_refl) in Hq. exists id, chosen. split; [exact Hq|].
  split; [exact Hdup|]. intros s Hs Hd Ho.
  destruct (selectTargets_complete (excludedSet excludedDomains) ∅ subscriptions s Hs Hd Ho) as [Hx|Hx];
    [set_solver|].
  rewrite <- (Hch Hplans eq_refl) in Hx. apply list_elem_of_fmap in Hx as (t & Heq & Ht).
  assert (Hin : t ∈ subscriptions) by (eapply elem_of_submseteq; [exact Ht|by apply sublist_submseteq]).
  apply list_elem_of_fmap in Ht as ((t' & profile) & -> & Hc).
  exists t', profile. split; [done|]. split; [done|]. split; [done|]. rewrite Hq. apply elem_of_app. right.
  apply list_elem_of_In, in_map_iff. exists (t', profile). split; [done|]. by apply list_elem_of_In.
Qed.
End claims.

(** ** Capacity *)

Section capacity.
Context {S : Type} `{RedisLaws S} {PrivateKey : Type}.
Variable g : Globals (S := S) (PrivateKey := PrivateKey).

(** The live value of the reservation counter, and the length of the queue. *)
Definition reserved (now : Z) (d : db) : option Z :=
  match asString now d queueReservationKey with Ok v => parseInt 64 (default "0" v) | Err _ => None end.
Definition queueLength (now : Z) (d : db) : option Z :=
  match LLEN queueKey now d with (_, Ok n) => Some n | _ => None end.

Lemma live_future now v k : 0 < k → live now (mkEntry v (Some (now + k))) = true.
Proof. intros Hk. unfold live. cbn [e_expire]. apply Z.ltb_lt. lia. Qed.
Lemma toDouble_small z : Z.abs z < 2 ^ 53 → toDouble z = z.
Proof. intros Hz. unfold toDouble. by destruct (Z.ltb_spec (Z.abs z) (2 ^ 53)); [|lia]. Qed.
Lemma inWidth_small z : Z.abs z < 2 ^ 54 → inWidth 64 z = true.
Proof. intros Hz. unfold inWidth. apply andb_true_iff. rewrite Z.leb_le, Z.ltb_lt. lia. Qed.
Lemma luaNumber_itoa z now d : Z.abs z < 2 ^ 53 → luaNumber (itoa z) now d = (d, Ok z).
Proof.
  intros Hz. unfold luaNumber, luaToNumber. rewrite parseInt_itoa by (apply inWidth_small; lia).
  cbn. by rewrite toDouble_small.
Qed.

Lemma reserveScript_run n m now d r q : Z.abs n < 2 ^ 53 → Z.abs m < 2 ^ 53 → Z.abs r < 2 ^ 53 →
  reserved now d = Some r → queueLength now d = Some q →
  reserveScript queueKey queueReservationKey (itoa n) (itoa m) now d
  = if m <? q + r + n then (d, Ok 0)
    else (put queueReservationKey (RString (itoa (r + n))) (Some (now + 60000)) d, Ok 1).
Proof.
  intros Hn Hm Hr Eres Eq. unfold reserveScript, mbind, Rcmd_bind, mret, Rcmd_ret.
  unfold queueLength in Eq. assert (El : LLEN queueKey now d = (d, Ok q)).
  { unfold LLEN in *. by repeat case_match; simplify_eq. }
  rewrite El. unfold GETopt. unfold reserved in Eres.
  destruct (asString now d queueReservationKey) as [v|] eqn:Ev; [|done].
  assert (Ed : luaNumber (default "0" v) now d = (d, Ok r)).
  { unfold luaNumber, luaToNumber. rewrite Eres. cbn. by rewrite toDouble_small. }
  rewrite Ed, !luaNumber_itoa by done. destruct (Z.ltb_spec m (q + r + n)); [done|].
  unfold INCRBY. rewrite Ev, Eres, inWidth_small by lia. unfold EXPIRE, EXPIREAT_MS.
  rewrite find_put_same.
  assert (Hl : live now (mkEntry (RString (itoa (r + n))) (ttlOf now d queueReservationKey)) = true).
  { unfold ttlOf. destruct (find now d queueReservationKey) as [e|] eqn:Ef; [|done].
    by apply find_Some in Ef as [_ Hl]. }
  rewrite Hl. destruct (Z.leb_spec (now + 1000 * 60) now); [lia|]. cbn [e_val].
  f_equal. unfold put, setKeys. cbn [db_keys db_published]. by rewrite insert_insert_eq.
Qed.

(** C17: a reservation is admitted only while the queue, the reservations and the new jobs
    together stay within [MAX_QUEUE_JOBS], and then it raises the counter by exactly the new jobs;
    when it is refused for capacity they would not have fitted, and Redis is unchanged. *)
Theorem reservation_bounded (n : Z) (w : World S) (Hn : 1 ≤ n < 2 ^ 53)
    (Hm : Z.abs (MaxQueueJobs g) < 2 ^ 53) :
  ∃ w' accepted reason t, reserveQueueCapacityWithReason g n w = (w', Done (accepted, reason))
    ∧ rs_ms (w_redis w) ≤ t
    ∧ ∀ r q, reserved t (rs_db (w_redis w)) = Some r → Z.abs r < 2 ^ 53 →
        queueLength t (rs_db (w_redis w)) = Some q →
        (accepted = true → q + (r + n) ≤ MaxQueueJobs g
           ∧ reserved t (rs_db (w_redis w')) = Some (r + n)
           ∧ queueLength t (rs_db (w_redis w')) = Some q)
        ∧ (reason = "capacity" → MaxQueueJobs g < q + r + n ∧ rs_db (w_redis w') = rs_db (w_redis w)).
Proof.
  unfold reserveQueueCapacityWithReason. destruct (Z.ltb_spec n 1); [lia|].
  set (c := reserveScript _ _ _ _). set (w1 := (redis c w).1).
  erewrite bind_Done by reflexivity. fold w1. cbn [redis snd].
  assert (Hclock : rs_ms (w_redis w) ≤ rs_ms (w_redis w1)) by apply redis_do_clock.
  destruct (redis_do c (w_redis w)).2 as [z|e] eqn:E.
  2: { destruct (runs_recordRedisOperationFailure g metricsKeyOnly "api" "queue_reserve" eq_refl w1) as (w' & [] & E2 & _).
       exists w', false, "redis", (rs_ms (w_redis w1)). split; [by erewrite bind_Done by exact E2|]. done. }
  apply redis_do_Ok in E. eexists w1, _, _, (rs_ms (w_redis w1)). split; [by rewrite <- surjective_pairing|].
  split; [done|]. intros r q Hr Hr' Hq.
  assert (Ew : rs_db (redis_do c (w_redis w)).1 = rs_db (w_redis w1)) by done.
  change (rs_ms (redis_do c (w_redis w)).1) with (rs_ms (w_redis w1)) in E. unfold c in E at 1.
  rewrite (reserveScript_run n _ _ _ r q) in E by (done || lia).
  destruct (Z.ltb_spec (MaxQueueJobs g) (q + r + n)); injection E as Ed <-; cbn [fst snd negb Z.eqb].
  - split; [done|]. intros _. split; [lia|done].
  - split; [|done]. intros _. split; [lia|]. rewrite <- Ew, <- Ed. split.
    + unfold reserved, asString. rewrite find_put_same, live_future by done.
      apply parseInt_itoa, inWidth_small. lia.
    + revert Hq. unfold queueLength, LLEN. by rewrite find_put_other.
Qed.
End capacity.

Section returned.
Context {S : Type} `{RedisReliable S} {PrivateKey : Type}.
Variable g : Globals (S := S) (PrivateKey := PrivateKey).
Abbreviation W := (World S).

(** The reservation counter as stored (an expired counter that was not reaped included). *)
Definition counterEntry (w : W) : option entry := db_keys (rs_db (w_redis w)) !! queueReservationKey.
Definition storedReservations (w : W) : option Z :=
  match counterEntry w with
  | None => Some 0
  | Some (mkEntry (RString s) _) => parseInt 64 s
  | Some _ => None
  end.

(** The stored counter has outlived its expiry at the time [t]. *)
Definition lapsed (w : W) (t : Z) : Prop := ∃ e, counterEntry w = Some e ∧ live t e = false.
Lemma lapsed_mono w t t' : lapsed w t → t ≤ t' → lapsed w t'.
Proof.
  intros ([v [x|]] & E & Hl) Ht; [|done]. exists (mkEntry v (Some x)). split; [done|]. unfold live in *. cbn in *.
  apply Z.ltb_ge in Hl. apply Z.ltb_ge. lia.
Qed.

(** A request on a service that does not fail. *)
Lemma reserve_counter n (w w' : W) accepted reason r : 1 ≤ n → 0 ≤ r → r + n < 2 ^ 53 →
  Z.abs (MaxQueueJobs g) < 2 ^ 53 → storedReservations w = Some r →
  reserveQueueCapacityWithReason g n w = (w', Done (accepted, reason)) →
  if accepted : bool
  then ∃ r1, (r1 = r ∨ r1 = 0 ∧ lapsed w (rs_ms (w_redis w')))
         ∧ counterEntry w' = Some (mkEntry (RString (itoa (r1 + n))) (Some (rs_ms (w_redis w') + 60000)))
  else counterEntry w' = counterEntry w.
Proof.
  intros Hn Hr Hsum Hm Hs. unfold reserveQueueCapacityWithReason. destruct (Z.ltb_spec n 1); [lia|].
  set (c := reserveScript _ _ _ _). destruct (redis_ok c w) as (w1 & E & Hdb).
  erewrite bind_Done by exact E. set (t := rs_ms (w_redis w1)) in *. set (d := rs_db (w_redis w)) in *.
  assert (Hlive : ∃ r1, (r1 = r ∨ r1 = 0 ∧ lapsed w t) ∧ reserved t d = Some r1).
  { revert Hs. unfold storedReservations, lapsed, counterEntry, reserved, asString, find. fold d.
    destruct (db_keys d !! _) as [[v ttl]|]; [|intros [= <-]; exists 0; by auto].
    destruct v; [intros Hp|done|done]. destruct (live _ _) eqn:El; [exists r; by auto|exists 0; split; [eauto|done]]. }
  destruct Hlive as (r1 & Hr1 & Hlive).
  destruct (queueLength t d) as [q|] eqn:Eq.
  - unfold c in Hdb. unfold c at 1. rewrite (reserveScript_run n _ t _ r1 q) in Hdb |- * by (done || lia).
    destruct (_ <? _); cbn in Hdb |- *; intros [= <- <- <-].
    + unfold counterEntry. by rewrite Hdb.
    + exists r1. split; [done|]. unfold counterEntry. rewrite Hdb. simpl. by rewrite lookup_insert_eq.
  - assert (Hc : ∃ e, c t d = (d, Err e)).
    { unfold c, reserveScript, mbind, Rcmd_bind. unfold queueLength, LLEN in Eq. unfold LLEN.
      destruct (find t d queueKey) as [[[] ?]|]; simplify_eq; eauto. }
    destruct Hc as [e Hc]. rewrite Hc in Hdb |- *. cbn [fst snd] in Hdb |- *.
    destruct (runs_recordRedisOperationFailure g metricsKeyOnly "api" "queue_reserve" eq_refl w1)
      as (w2 & [] & E2 & (_ & _ & _ & _ & K)).
    erewrite bind_Done by exact E2. intros [= <- <- <-]. unfold counterEntry. rewrite K by done. by rewrite Hdb.
Qed.

Lemma release_counter n (w w' : W) r1 t u : 1 ≤ n → 0 ≤ r1 → r1 + n < 2 ^ 53 →
  counterEntry w = Some (mkEntry (RString (itoa (r1 + n))) (Some t)) →
  releaseQueueCapacity g n w = (w', Done u) →
  storedReservations w' = Some r1 ∨ storedReservations w' = Some 0 ∧ t ≤ rs_ms (w_redis w').
Proof.
  intros Hn Hr Hsum Hk. unfold releaseQueueCapacity. destruct (Z.ltb_spec n 1); [lia|].
  set (c := releaseScript _ _). destruct (redis_ok c w) as (w1 & E & Hdb). erewrite bind_Done by exact E.
  set (t1 := rs_ms (w_redis w1)) in *. unfold counterEntry in Hk. set (d := rs_db (w_redis w)) in *.
  assert (Hc : ∃ z d', c t1 d = (d', Ok z) ∧ (d' = drop_ queueReservationKey d ∧ (r1 = 0 ∨ t ≤ t1)
    ∨ ∃ ttl, 0 < r1 ∧ d' = put queueReservationKey (RString (itoa r1)) ttl d)).
  { assert (Ha : asString t1 d queueReservationKey = Ok (Some (itoa (r1 + n))) ∨ asString t1 d queueReservationKey = Ok None ∧ t ≤ t1).
    { unfold asString, find. rewrite Hk. unfold live. cbn [e_expire]. destruct (Z.ltb_spec t1 t); auto. }
    assert (Hdrop : ∀ v ttl, drop_ queueReservationKey (put queueReservationKey v ttl d) = drop_ queueReservationKey d).
    { intros. unfold drop_, put, setKeys. cbn [db_keys db_published]. by rewrite delete_insert_eq. }
    assert (Hrun : ∀ v z, asString t1 d queueReservationKey = Ok v → parseInt 64 (default "0" v) = Some z →
      Z.abs (z - n) < 2 ^ 54 → c t1 d = (if z - n <=? 0 then drop_ queueReservationKey d
        else put queueReservationKey (RString (itoa (z - n))) (ttlOf t1 d queueReservationKey) d, Ok (z - n))).
    { intros v z Ev Ez Hz. unfold c, releaseScript, DECRBY, INCRBY, mbind, Rcmd_bind, mret, Rcmd_ret, DEL.
      rewrite Ev, Ez, Z.add_opp_r, inWidth_small by done. destruct (_ <=? 0); [by rewrite Hdrop|done]. }
    destruct Ha as [Ha|[Ha Ht]].
    - rewrite (Hrun _ (r1 + n) Ha) by (first [apply parseInt_itoa, inWidth_small; lia|lia]).
      replace (r1 + n - n) with r1 by lia. eexists _, _. split; [reflexivity|].
      destruct (Z.leb_spec r1 0); [left; split; [done|left; lia]|eauto].
    - rewrite (Hrun _ 0 Ha) by (done || lia). eexists _, _. split; [reflexivity|].
      destruct (Z.leb_spec (0 - n) 0); [left; auto|lia]. }
  destruct Hc as (z & d' & Hc & Hd'). rewrite Hc in Hdb |- *. cbn [fst snd] in Hdb |- *.
  intros [= <- _]. unfold storedReservations, counterEntry. rewrite Hdb.
  destruct Hd' as [[-> Hw]|(ttl & Hpos & ->)].
  - unfold drop_. simpl. rewrite lookup_delete_eq. destruct Hw as [->|Hw]; auto.
  - left. unfold put. simpl. rewrite lookup_insert_eq. apply parseInt_itoa, inWidth_small. lia.
Qed.
Lemma nearby_counter (ks : string → Prop) (w w' : W) :
  ¬ ks queueReservationKey → nearby ks w w' → counterEntry w' = counterEntry w.
Proof. intros Hk (_ & _ & _ & _ & K). by apply K. Qed.
Lemma sending_counter (ks : string → Prop) taken (w w' : W) :
  ¬ ks queueReservationKey → sending ks taken w w' → counterEntry w' = counterEntry w.
Proof. intros Hk (_ & _ & _ & _ & _ & _ & _ & K). by apply K. Qed.
Lemma counter_stored (w w' : W) : counterEntry w' = counterEntry w → storedReservations w' = storedReservations w.
Proof. unfold storedReservations. by intros ->. Qed.
Lemma record_counter r1 x r2 n (b : bool) (w w' : W) ok :
  (_ ← recordQueueAdmission g "relay" r1 x; _ ← recordFanoutTargets g r2 n; mret b) w = (w', Done ok) →
  storedReservations w' = storedReservations w.
Proof.
  destruct (record_both_run g r1 x r2 n b w) as (w2 & E & N). rewrite E. intros [= <- _].
  apply counter_stored. eapply nearby_counter; [|exact N]. by intros [=].
Qed.

(** Redis's clock does not run backwards while storing and sending. *)
Definition clocked (w w' : W) : Prop := rs_ms (w_redis w) ≤ rs_ms (w_redis w').
#[export] Instance clocked_preorder : PreOrder clocked.
Proof. unfold clocked. split; [intros w; lia|intros w1 w2 w3; lia]. Qed.
Lemma runs_clocked {A} ks (m : M W A) : runs (nearby ks) m → runs clocked m.
Proof. apply runs_mono. by intros w w' (_ & _ & Hc & _). Qed.
Lemma storeAndSend_clock id body sigs (w : W) : clocked w (storeAndSend g id body sigs w).1.
Proof.
  assert (Hr : runs clocked (storeAndSend g id body sigs)).
  { assert (Hf : ∀ r1 x r2 n (b : bool), runs clocked (_ ← recordQueueAdmission g "relay" r1 x; _ ← recordFanoutTargets g r2 n; mret b)).
    { intros r1 x r2 n b w1. destruct (record_both_run g r1 x r2 n b w1) as (w2 & E & (_ & _ & Hc & _)). eauto. }
    unfold storeAndSend. apply runs_bind; [typeclasses eauto| |].
    - intros w1. destruct (storeRelayActivity_run g id body (Z.of_nat (length sigs)) w1) as (w2 & r & E & (_ & _ & Hc & _) & _). eauto.
    - intros [r|e]; [|apply Hf]. destruct (NewGroup g sigs); [apply Hf|].
      apply runs_bind; [typeclasses eauto| |intros [u|e]; apply Hf].
      intros w1. unfold brokerSend. destruct (w_broker w1 _ _) as [taken e]. eexists _, _. split; [reflexivity|].
      unfold clocked. cbn. lia. }
  destruct (Hr w) as (w' & a & E & Hc). by rewrite E.
Qed.

(** C16: over a Redis that answers, a fan-out gives back the capacity it reserved, however it ends
    (refused, nothing to send, a failed store, group or broker, or success): afterwards the stored
    counter is exactly what it was before.  The only exception is a counter that expired meanwhile,
    which ends at zero: the counter found at the start had outlived its expiry by the end, or the
    fan-out took the sixty seconds a reservation lives. *)
Theorem capacity_is_returned `{!PlannerLaws g} (subscriptions : list Subscriber) (body : string)
    (excludedDomains : list string) (w w' : World S) (ok : bool) (r : Z) (Hb : brokerDocumented w)
    (Hm : Z.abs (MaxQueueJobs g) < 2 ^ 53) (Hr : 0 ≤ r)
    (Hsum : r + Z.max 0 (MaxFanoutTargets g) < 2 ^ 53) (Hs : storedReservations w = Some r)
    (Hrun : enqueueActivityExcept g subscriptions body excludedDomains w = (w', Done ok)) :
  storedReservations w' = Some r
  ∨ storedReservations w' = Some 0
    ∧ (lapsed w (rs_ms (w_redis w')) ∨ rs_ms (w_redis w) + 60000 ≤ rs_ms (w_redis w')).
Proof.
  revert Hrun. unfold enqueueActivityExcept. set (targets := selectTargets _ _ _).
  destruct (Z.ltb_spec (MaxFanoutTargets g) (Z.of_nat (length targets))).
  { intros ->%record_counter. by left. }
  destruct (Z.ltb_spec (Z.of_nat (length targets)) 1).
  { destruct (runs_recordQueueAdmission g metricsKeyOnly "relay" "skipped" "no_targets" eq_refl w) as (w1 & u & E & N).
    erewrite bind_Done by exact E. intros [= <- <-]. left. rewrite <- Hs.
    apply counter_stored. eapply nearby_counter; [|exact N]. by intros [=]. }
  erewrite bind_Done by reflexivity. set (id := w_uuid w (w_uuids w)). set (w0 := mkWorld _ _ _ _ _ _ _ _ _ _ _ _ _ _).
  destruct (planTasks_run g id targets w0) as (w1 & chosen & E1 & Hsub & N1 & _). erewrite bind_Done by exact E1.
  assert (Hs1 : storedReservations w1 = Some r).
  { rewrite <- Hs. apply counter_stored. eapply (nearby_counter noKeys w0); [by intros []|exact N1]. }
  assert (Hb1 : brokerDocumented w1).
  { destruct N1 as (_ & (_ & _ & Eb & _) & _). unfold brokerDocumented. by rewrite Eb. }
  assert (Hc1 : rs_ms (w_redis w) ≤ rs_ms (w_redis w1)) by (destruct N1 as (_ & _ & Hc & _); exact Hc).
  assert (Hk1 : counterEntry w1 = counterEntry w) by (eapply (nearby_counter noKeys w0); [by intros []|exact N1]).
  set (n := Z.of_nat (length (tasksOf id chosen))).
  assert (Hn : n ≤ Z.of_nat (length targets)).
  { unfold n, tasksOf. rewrite length_map. apply sublist_length in Hsub. rewrite length_fmap in Hsub. lia. }
  destruct (Z.ltb_spec n 1); [intros ->%record_counter; by left|].
  destruct (runs_reserve g n w1) as (w2 & [accepted reason] & E2 & N2). erewrite bind_Done by exact E2.
  pose proof (reserve_counter n w1 w2 accepted reason r ltac:(lia) Hr ltac:(lia) Hm Hs1 E2) as Hres.
  destruct accepted; cbn [negb].
  2: { intros ->%record_counter. left. rewrite <- Hs1. by apply counter_stored. }
  assert (Hb2 : brokerDocumented w2).
  { destruct N2 as (_ & (_ & _ & Eb & _) & _). unfold brokerDocumented. by rewrite Eb. }
  destruct (storeAndSend_run g id body (tasksOf id chosen) w2 Hb2) as (w3 & ok3 & taken & E3 & S3 & _).
  erewrite bind_Done by exact E3. destruct Hres as (r1 & Hr1 & Hk).
  assert (Hc3 : rs_ms (w_redis w1) ≤ rs_ms (w_redis w2)) by (destruct N2 as (_ & _ & Hc & _); exact Hc).
  assert (Hnk : ¬ bodyKeys id queueReservationKey) by (intros [E|E]; discriminate E).
  rewrite <- (sending_counter _ _ _ _ Hnk S3) in Hk.
  destruct (releaseQueueCapacity g n w3) as [w4 [u|]] eqn:E4;
    [|destruct (runs_release g n w3) as (? & ? & E5 & _); by rewrite E5 in E4].
  erewrite bind_Done by exact E4. intros [= <- _].
  assert (Hlapse : ∀ t, lapsed w1 t → lapsed w t) by (unfold lapsed; by rewrite Hk1).
  assert (Hr1' : 0 ≤ r1 ≤ r) by (destruct Hr1 as [->|[-> _]]; lia).
  destruct (release_counter n w3 w4 r1 _ u ltac:(lia) ltac:(lia) ltac:(lia) Hk E4) as [Hf|[Hf Ht]]; rewrite Hf.
  - destruct Hr1 as [->|[-> Hlap]]; [by left|]. right. split; [done|]. left. eapply lapsed_mono; [apply Hlapse, Hlap|].
    assert (rs_ms (w_redis w3) ≤ rs_ms (w_redis w4)) by (destruct (runs_release g n w3) as (w5 & ? & E5 & (_ & _ & Hc & _)); rewrite E5 in E4; by injection E4 as <- _).
    pose proof (storeAndSend_clock id body (tasksOf id chosen) w2) as Hc. rewrite E3 in Hc. cbn [fst] in Hc. unfold clocked in Hc. lia.
  - right. split; [done|]. right. lia.
Qed.
End returned.

(** ** Witnesses *)

Definition exampleActor : Actor :=
  mkActor None "https://relay.example/actor" "Application" "relay" "relay" "" "https://relay.example/inbox"
    "https://relay.example/actor/outbox" "https://relay.example/actor/following"
    "https://relay.example/actor/followers" (Some "https://relay.example/inbox")
    (mkPublicKey "https://relay.example/actor#main-key" "https://relay.example/actor" "") None None.
Definition exampleGlobals : Globals (S := Calm) (PrivateKey := unit) :=
  mkGlobals 1000 3 1048576 "public_and_unlisted" exampleActor None true (λ _, None).
Definition exampleSubscriptions : list Subscriber :=
  [mkSubscriber "a.example" "https://a.example/inbox" "" ""; mkSubscriber "B.example." "https://b.example/inbox" "" "";
   mkSubscriber "c.example" "not a url" "" ""; mkSubscriber "A.EXAMPLE" "https://a.example/actor/inbox" "" "";
   mkSubscriber "src.example" "https://src.example/inbox" "" ""].
Definition exampleWorld : World Calm := quietWorld (mkCalm 5 emptyDb) (zeroRelayState false).

Lemma quietWorld_broker {S} (s : S) r : brokerDocumented (quietWorld s r).
Proof. intros n ts. by split. Qed.
#[export] Instance exampleGlobals_planner : PlannerLaws exampleGlobals.
Proof. by apply planner_unsigned. Qed.

Example fanout_example :
  let w' := (enqueueActivityExcept exampleGlobals exampleSubscriptions "body" ["src.example"] exampleWorld).1 in
  map taskArgs (w_queued w') =
    [[("inboxURL", "https://a.example/inbox"); ("activityID", "00000000-0000-4000-8000-000000000000");
      ("signatureProfile", "legacy")];
     [("inboxURL", "https://b.example/inbox"); ("activityID", "00000000-0000-4000-8000-000000000000");
      ("signatureProfile", "legacy")]].
Proof. vm_compute. reflexivity. Qed.

Lemma fanout_is_sound_witness : ∃ w' ok taken activityID chosen,
  enqueueActivityExcept exampleGlobals exampleSubscriptions "body" ["src.example"] exampleWorld = (w', Done ok)
  ∧ sending (storeKeys activityID) taken exampleWorld w'
  ∧ targetsOk exampleGlobals exampleSubscriptions ["src.example"] (chosen.*1)
  ∧ taken ⊆ tasksOf activityID chosen
  ∧ (ok = true → taken = tasksOf activityID chosen)
  ∧ (taken ≠ [] → storedActivity w' activityID "body" (Z.of_nat (length chosen))).
Proof. apply (fanout_is_sound exampleGlobals). apply quietWorld_broker. Defined.

Lemma fanout_reaches_everyone_witness : ∃ activityID chosen,
  w_queued (enqueueActivityExcept exampleGlobals exampleSubscriptions "body" ["src.example"] exampleWorld).1
  = w_queued exampleWorld ++ map (λ c, relayTaskWithProfile (subInboxURL c.1) activityID c.2) chosen
  ∧ NoDup (dedupeKey <$> chosen.*1)
  ∧ ∀ s, s ∈ exampleSubscriptions →
  normalizedStoredDomain (subDomain s) ∉ excludedSet ["src.example"] →
  is_ok (NormalizeDestinationOrigin (subInboxURL s)) = true →
  ∃ t profile, (t, profile) ∈ chosen ∧ t ∈ exampleSubscriptions ∧ dedupeKey t = dedupeKey s
    ∧ relayTaskWithProfile (subInboxURL t) activityID profile
      ∈ w_queued (enqueueActivityExcept exampleGlobals exampleSubscriptions "body" ["src.example"] exampleWorld).1.
Proof.
  apply (fanout_reaches_everyone exampleGlobals exampleSubscriptions "body" ["src.example"] exampleWorld).
  - apply quietWorld_broker.
  - intros inboxURL _ w. exact I.
  - assert (E : (enqueueActivityExcept exampleGlobals exampleSubscriptions "body" ["src.example"] exampleWorld).2
      = Done true) by (vm_compute; reflexivity).
    rewrite <- E. apply surjective_pairing.
Defined.

Lemma reservation_bounded_witness : ∃ w' accepted reason t,
  reserveQueueCapacityWithReason exampleGlobals 2 exampleWorld = (w', Done (accepted, reason))
  ∧ rs_ms (w_redis exampleWorld) ≤ t
  ∧ ∀ r q, reserved t (rs_db (w_redis exampleWorld)) = Some r → Z.abs r < 2 ^ 53 →
      queueLength t (rs_db (w_redis exampleWorld)) = Some q →
      (accepted = true → q + (r + 2) ≤ MaxQueueJobs exampleGlobals
         ∧ reserved t (rs_db (w_redis w')) = Some (r + 2) ∧ queueLength t (rs_db (w_redis w')) = Some q)
      ∧ (reason = "capacity" → MaxQueueJobs exampleGlobals < q + r + 2
           ∧ rs_db (w_redis w') = rs_db (w_redis exampleWorld)).
Proof. apply (reservation_bounded exampleGlobals); [lia|simpl; lia]. Defined.

(** Seven jobs are reserved by others, until the hundredth second. *)
Definition reservedWorld : World Calm :=
  quietWorld (mkCalm 5 (put queueReservationKey (RString "7") (Some 100000) emptyDb)) (zeroRelayState false).
Lemma capacity_is_returned_witness :
  let w' := (enqueueActivityExcept exampleGlobals exampleSubscriptions "body" ["src.example"] reservedWorld).1 in
  length (w_queued w') = 2%nat ∧ storedReservations w' = Some 7.
Proof.
  intros w'. split; [vm_compute; reflexivity|].
  destruct (capacity_is_returned exampleGlobals exampleSubscriptions "body" ["src.example"] reservedWorld w' true 7)
    as [Hr|[_ [(e & He & Hl)|Hl]]].
  - apply quietWorld_broker.
  - simpl. lia.
  - lia.
  - simpl. lia.
  - reflexivity.
  - assert (E : (enqueueActivityExcept exampleGlobals exampleSubscriptions "body" ["src.example"] reservedWorld).2
      = Done true) by (vm_compute; reflexivity).
    rewrite <- E. apply surjective_pairing.
  - exact Hr.
  - exfalso. vm_compute in He. injection He as <-. vm_compute in Hl. discriminate Hl.
  - exfalso. vm_compute in Hl. by apply Hl.
Defined.
