(* ===== verification/Relay.v ===== *)
(** * What the relay does with an activity (api/resolver.go, second half; api/relay_loop_guard.go)

    Follow and unfollow, the mutual-follow handshake, the recording of publishers,
    the three ways an activity is fanned out, and the reservation that keeps an
    activity another relay announced from being announced twice.  Goroutines are
    started, not run: they are added to [w_spawned]; [runGo] is what each does when
    it runs. *)

From S2P Require Import Prelude GoStrings GoUrl Sha256 Redis GoTime World Observability.
From S2P Require Import RelayState Json ActivityModel Queue Rfc9421.

Definition publicAddress : string := "https://www.w3.org/ns/activitystreams#Public".

(** [contains] on an activity's object (an [interface{}]) and on a [[]string]. *)
Definition containsObject (entries : option json) (key : string) : bool :=
  match entries with Some (JString s) => s =s key | _ => false end.
Definition containsList (entries : list string) (key : string) : bool := existsb (λ e, e =s key) entries.

(** A nil URL is [None]; [url.Parse] with its error dropped. *)
Definition parseOrNil (address : string) : option URL :=
  match url_Parse address with Ok u => Some u | Err _ => None end.

Definition isActorAbleToBeFollower (actor : Actor) : bool :=
  match url_Parse (acID actor) with
  | Err _ => false
  | Ok actorID =>
      if normalizedActorDomain (Some actorID) =s "" then false
      else if oneOf (acType actor) ["Application"; "Service"] then true
      else oneOf (TrimSuffix (Path actorID) "/") ["/relay"; "/friendica"]
  end.

Definition publisherInbox (actor : Actor) : string :=
  match acEndpoints actor with
  | Some shared => if shared =s "" then acInbox actor else shared
  | None => acInbox actor
  end.

(** ** The LD-signature shape *)

(** The [signature] member of the envelope, up to case, the last one given. *)
Definition signatureMember (v : json) : option json :=
  match v with
  | JObject ms => foldl (λ acc m, if EqualFold m.1 "signature" then Some m.2 else acc) None ms
  | _ => None
  end.
Record ldSignature := mkLd { ldType : string; ldCreator : string; ldCreated : string; ldValue : string }.
Definition ldField (k : string) (v : json) (s : ldSignature) : result ldSignature :=
  let '(mkLd ty creator created value) := s in
  if EqualFold k "type" then x ← decodeString ty v; Ok (mkLd x creator created value)
  else if EqualFold k "creator" then x ← decodeString creator v; Ok (mkLd ty x created value)
  else if EqualFold k "created" then x ← decodeString created v; Ok (mkLd ty creator x value)
  else if EqualFold k "signatureValue" then x ← decodeString value v; Ok (mkLd ty creator created x)
  else Ok s.
Definition hasMastodonLinkedDataSignature (body : string) : bool :=
  match jsonParse body with
  | Ok (JObject _ as v) =>
      match signatureMember v with
      | Some JNull | None => false
      | Some raw =>
          match decodeStruct ldField (mkLd "" "" "" "") raw with
          | Err _ => false
          | Ok s => (ldType s =s "RsaSignature2017") && negb (TrimSpace (ldCreator s) =s "")
                    && negb (TrimSpace (ldCreated s) =s "") && negb (TrimSpace (ldValue s) =s "")
          end
      end
  | _ => false
  end.

(** ** The loop guard's keys and scripts *)

Definition canonicalRelayKeyPrefix : string := "relay:canonical:".
Definition releaseCanonicalRelayScript (key token : string) : Rcmd Z :=
  stored ← GETopt key;
  match stored with
  | Some s => if s =s token then (_ ← DEL key; mret 1) else mret 0
  | None => mret 0
  end.
Record canonicalRelayReservation := mkReservation { resKey : string; resToken : string }.
Definition canonicalRelayKey (canonicalID : string) : string :=
  canonicalRelayKeyPrefix +:+ sha256Hex (TrimSpace canonicalID).

Section relay.
Context {S : Type} `{Redis S} {PrivateKey : Type}.
Abbreviation Mw := (M (World S)).
Variable g : Globals (S := S) (PrivateKey := PrivateKey).

Definition nilDereference {A} : Mw A := panic "invalid memory address or nil pointer dereference".

(** ** The loop guard *)

Definition reserveCanonicalRelayActivity (canonicalID : string)
    : Mw (result (canonicalRelayReservation * bool)) :=
  let canonicalID := TrimSpace canonicalID in
  if canonicalID =s "" then mret (Err (errorsNew "canonical relay activity ID is empty"))
  else
    token ← uuidNew;
    accepted ← redis (SETNX (canonicalRelayKey canonicalID) token (ttlMs ActivityRetention));
    match accepted with
    | Err e => _ ← recordRedisOperationFailure g "api" "canonical_reserve"; mret (Err e)
    | Ok accepted => mret (Ok (mkReservation (canonicalRelayKey canonicalID) token, accepted))
    end.
Definition releaseCanonicalRelayActivity (reservation : canonicalRelayReservation) : Mw unit :=
  if (resKey reservation =s "") || (resToken reservation =s "") then mret tt
  else
    r ← redis (releaseCanonicalRelayScript (resKey reservation) (resToken reservation));
    match r with
    | Err _ => recordRedisOperationFailure g "api" "canonical_release"
    | Ok _ => mret tt
    end.

(** ** Predicates on the actor's domain *)

Definition isPersonOnly : Mw bool := st ← getRelay; mret (cfgPersonOnly (RelayConfig st)).
Definition ManualApprovalRequired : Mw bool := st ← getRelay; mret (cfgManuallyAccept (RelayConfig st)).

Definition isActorLimited (actorID : option URL) : Mw bool := IsLimited (normalizedActorDomain actorID).
Definition isActorBlocked (actorID : option URL) : Mw bool := IsBlocked (normalizedActorDomain actorID).
Definition isActorSubscribed (actorID : option URL) : Mw bool := IsSubscriber (normalizedActorDomain actorID).
Definition isActorFollowers (actorID : option URL) : Mw bool := IsFollower (normalizedActorDomain actorID).
Definition isActorSubscribersOrFollowers (actorID : option URL) : Mw bool :=
  IsSubscriberOrFollower (normalizedActorDomain actorID).

Definition isActorAbleToRelay (actor : Actor) : Mw bool :=
  match url_Parse (acID actor) with
  | Err _ => mret false
  | Ok domain =>
      if normalizedActorDomain (Some domain) =s "" then mret false
      else
        blocked ← isActorBlocked (Some domain);
        limited ← (if (blocked : bool) then mret false else isActorLimited (Some domain));
        if blocked || limited then mret false
        else
          personOnly ← isPersonOnly;
          mret (negb (personOnly && negb (acType actor =s "Person")))
  end.

Definition isToMyFollower (entries : list string) : Mw bool :=
  snapshot ← getRelay;
  mret (existsb (λ entry, HasSuffix entry "/followers"
          && existsb (λ f, (folActorID f +:+ "/followers") =s entry) (Followers snapshot)) entries).

(** ** Follow and unfollow *)

Definition sendReply (activity : Activity) (actor : Actor) (activityType : string) : Mw unit :=
  reply ← GenerateReply activity (RelayActor g) (activityJson activity) activityType;
  go (GoEnqueueRegister (acInbox actor) (marshalActivity reply)).

Definition executeMutuallyFollow (follower : Follower) : Mw unit :=
  limited ← isActorLimited (parseOrNil (folActorID follower));
  if (limited : bool) then mret tt
  else
    followRequest ← NewActivityPubActivity (RelayActor g) [folActorID follower]
                      (JString (folActorID follower)) "Follow";
    go (GoEnqueueRegister (folInboxURL follower) (marshalActivity followRequest)).

(** The pending request of a follow that waits for approval; the write's error is dropped. *)
Definition storePending (host inboxURL : string) (activity : Activity) (actor : Actor) (object : string) : Mw unit :=
  _ ← redis (HSET (pendingPrefix +:+ host)
         [("inbox_url", inboxURL); ("activity_id", aID activity); ("type", "Follow");
          ("actor", acID actor); ("object", object)]);
  mret tt.

Definition executeFollowing (activity : Activity) (actor : Actor) : Mw (result unit) :=
  let actorID := parseOrNil (acID actor) in
  blocked ← isActorBlocked actorID;
  if (blocked : bool) then
    match actorID with
    | None => nilDereference
    | Some u => mret (Err (errorsNew (Host u +:+ " is blocked")))
    end
  else if containsObject (aObject activity) publicAddress then
    manual ← ManualApprovalRequired;
    if (manual : bool) then
      match actorID, acEndpoints actor with
      | Some u, Some sharedInbox =>
          _ ← storePending (Host u) sharedInbox activity actor publicAddress; mret (Ok tt)
      | _, _ => nilDereference
      end
    else
      _ ← sendReply activity actor "Accept";
      match actorID, acEndpoints actor with
      | Some u, Some sharedInbox =>
          _ ← AddSubscriber (mkSubscriber (Host u) sharedInbox (aID activity) (acID actor)); mret (Ok tt)
      | _, _ => nilDereference
      end
  else if containsObject (aObject activity) (acID (RelayActor g)) && isActorAbleToBeFollower actor then
    manual ← ManualApprovalRequired;
    match actorID with
    | None => nilDereference
    | Some u =>
        if (manual : bool) then
          _ ← storePending (Host u) (acInbox actor) activity actor (acID (RelayActor g)); mret (Ok tt)
        else
          let follower := mkFollower (Host u) (acInbox actor) (aID activity) (acID actor) false in
          added ← AddFollowerChecked follower;
          match added with
          | Err e => mret (Err (errorWrap "store follower: " e))
          | Ok _ =>
              _ ← sendReply activity actor "Accept";
              _ ← executeMutuallyFollow follower;
              mret (Ok tt)
          end
    end
  else mret (Err (errorsNew "only Public or the relay actor is allowed to be followed")).

Definition executeUnfollowing (activity : Activity) (actor : Actor) : Mw (result unit) :=
  let actorID := parseOrNil (acID actor) in
  if containsObject (aObject activity) publicAddress then
    match actorID with None => nilDereference | Some u => _ ← DelSubscriber (Host u); mret (Ok tt) end
  else if containsObject (aObject activity) (acID (RelayActor g)) && isActorAbleToBeFollower actor then
    match actorID with None => nilDereference | Some u => _ ← DelFollower (Host u); mret (Ok tt) end
  else mret (Err (errorsNew "only Public or the relay actor is allowed to be unfollowed")).

Definition finalizeMutuallyFollow (activity : Activity) (actor : Actor) (activityType : string) : Mw unit :=
  let actorID := parseOrNil (acID actor) in
  if (aActor activity =s acID (RelayActor g)) && containsObject (aObject activity) (acID actor) then
    follower ← isActorFollowers actorID;
    if (follower : bool) then
      match actorID with
      | None => nilDereference
      | Some u => _ ← UpdateFollowerStatusChecked (Host u) (activityType =s "Accept"); mret tt
      end
    else mret tt
  else mret tt.

Definition executeRejectRequest (activity : Activity) (actor : Actor) : Mw unit := sendReply activity actor "Reject".

(** ** Publishers *)

Definition recordPublisherActivity (activity : Activity) (actor : Actor) : Mw (result unit) :=
  match url_Parse (acID actor) with
  | Err _ => mret (Err (errorsNew "activity actor has an invalid ID"))
  | Ok u =>
      let domain := normalizedActorDomain (Some u) in
      if domain =s "" then mret (Err (errorsNew "activity actor has an invalid ID"))
      else
        blocked ← isActorBlocked (Some u);
        if (blocked : bool) then mret (Err (errorsNew (domain +:+ " is blocked")))
        else
          able ← isActorAbleToRelay actor;
          if negb able then mret (Ok tt)
          else RecordPublisherActivity (mkPublisher domain (acID actor) (publisherInbox actor) "" ""
                 (aID activity) (aType activity) 0)
  end.

(** ** Fan-out *)

(** The checks the three fan-outs start with, and the domain they continue with. *)
Definition withRelayableActor (actor : Actor) (k : string → Mw (result unit)) : Mw (result unit) :=
  match url_Parse (acID actor) with
  | Err _ => mret (Err (errorsNew "activity actor has an invalid ID"))
  | Ok u =>
      let domain := normalizedActorDomain (Some u) in
      if domain =s "" then mret (Err (errorsNew "activity actor has an invalid ID"))
      else
        blocked ← isActorBlocked (Some u);
        if (blocked : bool) then mret (Err (errorsNew (domain +:+ " is blocked")))
        else
          able ← isActorAbleToRelay actor;
          if negb able then mret (Ok tt) else k domain
  end.
Definition newAnnounce (objectID : string) : Mw string :=
  announce ← NewActivityPubActivity (RelayActor g) [actorFollowers (RelayActor g)] (JString objectID) "Announce";
  mret (marshalActivity announce).

Definition executeEmbeddedAnnounceActivity (activity : Activity) (actor : Actor) : Mw (result unit) :=
  withRelayableActor actor (λ sourceDomain,
    objectID ←! mret (UnwrapInnerObjectId activity);
    _ ←! recordPublisherActivity activity actor;
    jsonData ← newAnnounce objectID;
    _ ← go (GoEnqueueForAll sourceDomain jsonData);
    mret (Ok tt)).

(** From the snapshot on: what [executeRelayActivity] starts. *)
Definition startRoutes (activity : Activity) (sourceDomain body : string) : Mw unit :=
  snapshot ← getRelay;
  let preserveOriginal := hasMastodonLinkedDataSignature body in
  _ ← (if preserveOriginal then go (GoEnqueueActivity (Subscribers snapshot) sourceDomain body) else mret tt);
  match UnwrapInnerObjectId activity with
  | Err _ => mret tt
  | Ok objectID =>
      jsonData ← newAnnounce objectID;
      if preserveOriginal then
        go (GoEnqueueExcept (map followerAsSubscriber (Followers snapshot)) jsonData
              (sourceDomain :: map subDomain (Subscribers snapshot)))
      else go (GoEnqueueActivity (SubscribersAndFollowers snapshot) sourceDomain jsonData)
  end.
Definition executeRelayActivity (activity : Activity) (actor : Actor) (body : string) : Mw (result unit) :=
  withRelayableActor actor (λ sourceDomain,
    _ ←! recordPublisherActivity activity actor;
    _ ← startRoutes activity sourceDomain body;
    mret (Ok tt)).

Definition executeAnnounceActivity (activity : Activity) (actor : Actor) (sourceRelayDomain : string)
    : Mw (result unit) :=
  withRelayableActor actor (λ originDomain,
    reservation ← reserveCanonicalRelayActivity (aID activity);
    match reservation with
    | Err _ => mret (Ok tt)
    | Ok (reservation, accepted) =>
        if negb accepted then
          _ ← recordQueueAdmission g "relay" "skipped" "canonical_duplicate"; mret (Ok tt)
        else
          recorded ← recordPublisherActivity activity actor;
          match recorded with
          | Err e => _ ← releaseCanonicalRelayActivity reservation; mret (Err e)
          | Ok _ =>
              jsonData ← newAnnounce (aID activity);
              _ ← go (GoEnqueueForAllExceptOrRelease jsonData sourceRelayDomain originDomain
                        (resKey reservation) (resToken reservation));
              mret (Ok tt)
          end
    end).

(** ** Goroutines *)

Definition runGo (c : goCall) : Mw unit :=
  match c with
  | GoEnqueueRegister inboxURL body => enqueueRegisterActivity g inboxURL body
  | GoEnqueueActivity subscriptions sourceDomain body => enqueueActivity g subscriptions sourceDomain body
  | GoEnqueueExcept subscriptions body excluded =>
      _ ← enqueueActivityExcept g subscriptions body excluded; mret tt
  | GoEnqueueForAll sourceDomain body => enqueueActivityForAll g sourceDomain body
  | GoEnqueueForAllExceptOrRelease body sourceRelay origin key token =>
      ok ← enqueueActivityForAllExcept g body [sourceRelay; origin];
      if (ok : bool) then mret tt else releaseCanonicalRelayActivity (mkReservation key token)
  end.
End relay.
