(* ===== verification/RelaySpec.v ===== *)
(** * Fan-out decisions, follow requests and the loop guard: what holds of every run

    Who is relayed and where to, what a follow request leads to, and that a canonical
    activity is reserved once and released only by its holder. *)

From S2P Require Import Prelude GoStrings GoUrl Sha256 Redis GoTime World Frame Observability.
From S2P Require Import RelayState RelayStateSpec Json ActivityModel Queue QueueSpec Rfc9421 Relay.

(** ** Actors that are not relayed *)

(** The domain of an actor, when its ID is a URL with a host. *)
Definition actorDomain (actor : Actor) (domain : string) : Prop :=
  ∃ u, url_Parse (acID actor) = Ok u ∧ domain = normalizedActorDomain (Some u) ∧ domain ≠ "".

Section refusal.
Context {S : Type} `{Redis S} {PrivateKey : Type}.
Variable g : Globals (S := S) (PrivateKey := PrivateKey).
Abbreviation W := (World S).

Lemma isActorBlocked_run u (w : W) :
  isActorBlocked (Some u) w = (w, Done (bool_decide (normalizedActorDomain (Some u) ∈ blockedDomains (w_relay w)))).
Proof. done. Qed.
Lemma isActorLimited_run u (w : W) :
  isActorLimited (Some u) w = (w, Done (bool_decide (normalizedActorDomain (Some u) ∈ limitedDomains (w_relay w)))).
Proof. done. Qed.

(** Whether the relay distributes what this actor sends. *)
Definition relayable (actor : Actor) (domain : string) (w : W) : bool :=
  negb (bool_decide (domain ∈ blockedDomains (w_relay w)))
  && negb (bool_decide (domain ∈ limitedDomains (w_relay w)))
  && negb (cfgPersonOnly (RelayConfig (w_relay w)) && negb (acType actor =s "Person")).
Lemma isActorAbleToRelay_run actor domain (w : W) : actorDomain actor domain →
  isActorAbleToRelay actor w = (w, Done (relayable actor domain w)).
Proof.
  intros (u & Eu & -> & Hd). unfold isActorAbleToRelay. rewrite Eu.
  apply eqs_false in Hd. rewrite Hd. erewrite bind_Done by apply isActorBlocked_run. unfold relayable.
  destruct (bool_decide (_ ∈ blockedDomains _)); [done|].
  erewrite bind_Done by apply isActorLimited_run. by destruct (bool_decide (_ ∈ limitedDomains _)).
Qed.

Lemma withRelayableActor_run actor domain (k : string → M W (result unit)) (w : W) : actorDomain actor domain →
  withRelayableActor actor k w =
    if bool_decide (domain ∈ blockedDomains (w_relay w)) then (w, Done (Err (errorsNew (domain +:+ " is blocked"))))
    else if relayable actor domain w then k domain w else (w, Done (Ok tt)).
Proof.
  intros Hdom. pose proof Hdom as (u & Eu & Ed & Hd). unfold withRelayableActor. rewrite Eu, <- Ed.
  apply eqs_false in Hd. rewrite Hd. erewrite bind_Done by apply isActorBlocked_run. rewrite <- Ed.
  destruct (bool_decide (domain ∈ blockedDomains _)); [done|].
  rewrite (bind_Done _ _ _ _ _ (isActorAbleToRelay_run actor domain w Hdom)).
  by destruct (relayable actor domain w).
Qed.
Lemma recordPublisher_run activity actor domain (w : W) : actorDomain actor domain →
  recordPublisherActivity activity actor w =
    if bool_decide (domain ∈ blockedDomains (w_relay w)) then (w, Done (Err (errorsNew (domain +:+ " is blocked"))))
    else if relayable actor domain w
    then RecordPublisherActivity (mkPublisher domain (acID actor) (publisherInbox actor) "" "" (aID activity)
           (aType activity) 0) w
    else (w, Done (Ok tt)).
Proof.
  intros Hdom. pose proof Hdom as (u & Eu & Ed & Hd). unfold recordPublisherActivity. rewrite Eu, <- Ed.
  apply eqs_false in Hd. rewrite Hd. erewrite bind_Done by apply isActorBlocked_run. rewrite <- Ed.
  destruct (bool_decide (domain ∈ blockedDomains _)); [done|].
  rewrite (bind_Done _ _ _ _ _ (isActorAbleToRelay_run actor domain w Hdom)).
  by destruct (relayable actor domain w).
Qed.

(** C31: the four functions that relay or count what an actor published (executeRelayActivity,
    executeEmbeddedAnnounceActivity, executeAnnounceActivity and recordPublisherActivity, each
    asked about the actor it is given) let nothing of an unrelayable actor through: if the
    actor's domain is blocked they return the error that it is blocked, if it is limited (or, in
    person-only mode, the actor is not a Person) they return success; in both cases nothing at
    all has changed: no publisher is recorded and no delivery started.  Not covered are the
    functions that do not ask, such as executeUnfollowing, and the announcing relay itself where
    the actor asked about is the author of the announced object. *)
Theorem unrelayable_changes_nothing (activity : Activity) (actor : Actor) (body sourceRelay domain : string) (w : W)
    (Hdom : actorDomain actor domain) (Hno : relayable actor domain w = false) :
  let refused := bool_decide (domain ∈ blockedDomains (w_relay w)) in
  let answer : result unit := if refused then Err (errorsNew (domain +:+ " is blocked")) else Ok tt in
  executeRelayActivity g activity actor body w = (w, Done answer)
  ∧ executeEmbeddedAnnounceActivity g activity actor w = (w, Done answer)
  ∧ executeAnnounceActivity g activity actor sourceRelay w = (w, Done answer)
  ∧ recordPublisherActivity activity actor w = (w, Done answer).
Proof.
  cbv zeta. unfold executeRelayActivity, executeEmbeddedAnnounceActivity, executeAnnounceActivity.
  rewrite !(withRelayableActor_run _ _ _ _ Hdom), (recordPublisher_run _ _ _ _ Hdom), Hno.
  by destruct (bool_decide _).
Qed.
End refusal.

(** ** Routes *)

(** Redis, the relay's memory and the clock may have changed, nothing was sent or started. *)
Definition unsent {S} (w w' : World S) : Prop :=
  w_spawned w' = w_spawned w ∧ w_queued w' = w_queued w ∧ w_sentRequests w' = w_sentRequests w
  ∧ w_uuid w' = w_uuid w ∧ w_uuids w' = w_uuids w ∧ w_broker w' = w_broker w ∧ w_cache w' = w_cache w.
#[export] Instance unsent_preorder {S} : PreOrder (@unsent S).
Proof.
  split; [by intros w|]. unfold unsent. intros w1 w2 w3 H1 H2. destruct_and?. repeat split; congruence.
Qed.

Section routes.
Context {S : Type} `{Redis S} {PrivateKey : Type}.
Variable g : Globals (S := S) (PrivateKey := PrivateKey).
Abbreviation W := (World S).

Lemma unsent_redis {A} (c : Rcmd A) : runs unsent (redis (S := S) c).
Proof. intros w. eexists _, _. split; [reflexivity|]. by repeat split. Qed.
Lemma unsent_timeNow : runs unsent (timeNow (S := S)).
Proof. intros w. eexists _, _. split; [reflexivity|]. by repeat split. Qed.
Lemma unsent_getRelay : runs unsent (getRelay (S := S)).
Proof. intros w. eexists _, _. split; [reflexivity|]. by repeat split. Qed.
Lemma unsent_putRelay st : runs unsent (putRelay (S := S) st).
Proof. intros w. eexists _, _. split; [reflexivity|]. by repeat split. Qed.
Hint Resolve unsent_redis unsent_timeNow unsent_getRelay unsent_putRelay : runs.
Lemma unsent_RecordPublisherActivity p : runs unsent (RecordPublisherActivity (S := S) p).
Proof. unfold RecordPublisherActivity. runs_auto. Qed.

(** The text of an Announce of [objectID] by the relay, with the next activity ID. *)
Definition announceText (objectID uuid : string) : string :=
  marshalActivity (mkActivity activityStreamsContext (acID (RelayActor g) +:+ "/activities/" +:+ uuid)
    (acID (RelayActor g)) "Announce" (Some (JString objectID)) [actorFollowers (RelayActor g)] []).
(** The same world with more goroutines started. *)
Definition started (calls : list goCall) (w w' : W) : Prop :=
  w_spawned w' = w_spawned w ++ calls ∧ w_queued w' = w_queued w ∧ w_sentRequests w' = w_sentRequests w
  ∧ w_relay w' = w_relay w ∧ w_redis w' = w_redis w ∧ w_uuid w' = w_uuid w.
Lemma started_trans c1 c2 w1 w2 w3 : started c1 w1 w2 → started c2 w2 w3 → started (c1 ++ c2) w1 w3.
Proof.
  unfold started. intros H1 H2. destruct_and?. rewrite (assoc_L (++)). repeat split; congruence.
Qed.
Lemma newAnnounce_run objectID (w : W) : ∃ w',
  newAnnounce g objectID w = (w', Done (announceText objectID (w_uuid w (w_uuids w)))) ∧ started [] w w'.
Proof. eexists. split; [reflexivity|]. unfold started. rewrite app_nil_r. by repeat split. Qed.
Lemma go_run c (w : W) : go c w = (set_spawned (w_spawned w ++ [c]) w, Done tt)
  ∧ started [c] w (set_spawned (w_spawned w ++ [c]) w).
Proof. by repeat split. Qed.

(** The goroutines a distributed activity starts, from the relay's subscribers and followers. *)
Definition relayCalls (st : RelayState) (activity : Activity) (body domain uuid : string) : list goCall :=
  let ld := hasMastodonLinkedDataSignature body in
  (if ld then [GoEnqueueActivity (Subscribers st) domain body] else [])
  ++ match UnwrapInnerObjectId activity with
     | Err _ => []
     | Ok objectID =>
         if ld then [GoEnqueueExcept (map followerAsSubscriber (Followers st)) (announceText objectID uuid)
                       (domain :: map subDomain (Subscribers st))]
         else [GoEnqueueActivity (SubscribersAndFollowers st) domain (announceText objectID uuid)]
     end.

Lemma startRoutes_run activity domain body (w : W) : ∃ w',
  startRoutes g activity domain body w = (w', Done tt)
  ∧ started (relayCalls (w_relay w) activity body domain (w_uuid w (w_uuids w))) w w'.
Proof.
  assert (Hnil : ∀ w1 : W, started [] w1 w1) by (intros w1; unfold started; rewrite app_nil_r; by repeat split).
  unfold startRoutes, relayCalls. erewrite bind_Done by reflexivity.
  assert (Hann : ∀ objectID (w1 : W) (f : string → goCall), ∃ w2, (t ← newAnnounce g objectID; go (f t)) w1 = (w2, Done tt)
    ∧ started [f (announceText objectID (w_uuid w1 (w_uuids w1)))] w1 w2).
  { intros objectID w1 f. destruct (newAnnounce_run objectID w1) as (w2 & E2 & St2).
    erewrite bind_Done by exact E2. eexists. split; [apply go_run|].
    eapply (started_trans []); [exact St2|apply go_run]. }
  destruct (hasMastodonLinkedDataSignature body); cbv zeta.
  - destruct (go_run (GoEnqueueActivity (Subscribers (w_relay w)) domain body) w) as [E St].
    erewrite bind_Done by exact E. set (w1 := set_spawned _ w) in *.
    destruct (UnwrapInnerObjectId activity) as [objectID|e].
    + destruct (Hann objectID w1 (λ t, GoEnqueueExcept (map followerAsSubscriber (Followers (w_relay w))) t
        (domain :: map subDomain (Subscribers (w_relay w))))) as (w2 & E2 & St2).
      exists w2. split; [exact E2|]. by eapply started_trans.
    + exists w1. split; [done|]. rewrite app_nil_r. exact St.
  - erewrite bind_Done by reflexivity. destruct (UnwrapInnerObjectId activity) as [objectID|e]; [|by exists w].
    destruct (Hann objectID w (λ t, GoEnqueueActivity (SubscribersAndFollowers (w_relay w)) domain t)) as (w2 & E2 & St2).
    by exists w2.
Qed.

(** C7: distributing an activity of a relayable actor ends without a panic.  If recording the
    publisher fails nothing is started; otherwise exactly these deliveries are: a body with an
    LD signature goes unchanged to the subscribers other than its source, and a relay-authored
    Announce of the object to the followers other than the source and the subscribers; a body
    without one goes to nobody, the Announce to everyone other than the source; an activity whose
    object has no ID gets no Announce. *)
Theorem relay_routes (activity : Activity) (actor : Actor) (body domain : string) (w : W)
    (Hdom : actorDomain actor domain) (Hyes : relayable actor domain w = true) :
  ∃ w' r, executeRelayActivity g activity actor body w = (w', Done r)
    ∧ w_queued w' = w_queued w ∧ w_sentRequests w' = w_sentRequests w
    ∧ w_spawned w' = w_spawned w ++
        match r with
        | Ok _ => relayCalls (w_relay w') activity body domain (w_uuid w (w_uuids w))
        | Err _ => []
        end.
Proof.
  unfold executeRelayActivity. rewrite (withRelayableActor_run _ _ _ _ Hdom), Hyes.
  assert (Hb : bool_decide (domain ∈ blockedDomains (w_relay w)) = false).
  { unfold relayable in Hyes. by destruct (bool_decide (_ ∈ blockedDomains _)). }
  rewrite Hb. pose proof (recordPublisher_run activity actor domain w Hdom) as Er. rewrite Hb, Hyes in Er.
  destruct (unsent_RecordPublisherActivity (mkPublisher domain (acID actor) (publisherInbox actor) "" ""
    (aID activity) (aType activity) 0) w) as (w1 & r & E & U1 & U2 & U3 & U4 & U5 & _). rewrite E in Er.
  destruct r as [[]|e].
  - rewrite (bindErr_Ok _ _ _ _ _ Er). destruct (startRoutes_run activity domain body w1) as (w2 & E2 & St).
    erewrite bind_Done by exact E2. exists w2, (Ok tt). destruct St as (Hs & Hq & Hn & Hr & _).
    rewrite Hr, Hs, Hq, Hn, U1, U2, U3, U4, U5. done.
  - rewrite (bindErr_Err _ _ _ _ _ Er). exists w1, (Err e). rewrite app_nil_r. done.
Qed.

(** with an LD-signed body, no receiver gets two copies: a domain served with the original
    body is not served with the Announce, and the domain the activity came from gets neither. *)
Theorem one_copy_per_receiver (st : RelayState) (domain : string) (original announced : Subscriber)
    (Ho : original ∈ selectTargets (excludedSet [domain]) ∅ (Subscribers st))
    (Ha : announced ∈ selectTargets (excludedSet (domain :: map subDomain (Subscribers st))) ∅
            (map followerAsSubscriber (Followers st)))
    (Hd : normalizedStoredDomain domain ≠ "") :
  (normalizedStoredDomain (subDomain original) ≠ "" →
   normalizedStoredDomain (subDomain announced) ≠ normalizedStoredDomain (subDomain original))
  ∧ normalizedStoredDomain (subDomain original) ≠ normalizedStoredDomain domain
  ∧ normalizedStoredDomain (subDomain announced) ≠ normalizedStoredDomain domain.
Proof.
  assert (Hin : ∀ l x, x ∈ l → normalizedStoredDomain x ≠ "" → normalizedStoredDomain x ∈ excludedSet l).
  { intros l x Hx Hne. unfold excludedSet. rewrite elem_of_list_to_set, list_elem_of_In, filter_In.
    split; [by apply in_map, list_elem_of_In|]. apply eqs_false in Hne. by rewrite Hne. }
  apply selectTargets_ok in Ha as (Ha & _). pose proof (selectTargets_ok _ _ _ _ Ho) as (Ho' & _).
  split; [|split].
  - intros Hne E. apply Ha. rewrite E. apply Hin; [|done]. right. apply list_elem_of_In, in_map, list_elem_of_In.
    eapply elem_of_submseteq; [exact Ho|]. apply sublist_submseteq, selectTargets_sublist.
  - intros E. apply Ho'. rewrite E. apply Hin; [by left|done].
  - intros E. apply Ha. rewrite E. apply Hin; [by left|done].
Qed.
End routes.

(** ** The loop guard *)

Section guard.
Context {S : Type} `{RedisLaws S} {PrivateKey : Type}.
Variable g : Globals (S := S) (PrivateKey := PrivateKey).
Abbreviation W := (World S).

Lemma SETNX_true k v t now d d' : SETNX k v t now d = (d', Ok true) →
  find now d k = None ∧ db_keys d' !! k = Some (mkEntry (RString v) (Some (now + t))).
Proof.
  unfold SETNX. destruct (find now d k); [done|]. intros [= <-]. split; [done|].
  unfold put. cbn [db_keys setKeys]. by rewrite lookup_insert_eq.
Qed.
Lemma reserve_accepted id (w w' : W) r :
  reserveCanonicalRelayActivity g id w = (w', Done (Ok (r, true))) →
  resKey r = canonicalRelayKey (TrimSpace id) ∧ resToken r = w_uuid w (w_uuids w)
  ∧ rs_ms (w_redis w) ≤ rs_ms (w_redis w')
  ∧ find (rs_ms (w_redis w')) (rs_db (w_redis w)) (resKey r) = None
  ∧ db_keys (rs_db (w_redis w')) !! resKey r
    = Some (mkEntry (RString (resToken r)) (Some (rs_ms (w_redis w') + 900000))).
Proof.
  unfold reserveCanonicalRelayActivity. destruct (TrimSpace id =s ""); [done|].
  erewrite bind_Done by reflexivity. set (w0 := mkWorld _ _ _ _ _ _ _ _ _ _ _ _ _ _).
  set (c := SETNX _ _ _). erewrite bind_Done by reflexivity. cbn [fst snd].
  destruct (redis_do c (w_redis w0)).2 as [b|e] eqn:E.
  - apply redis_do_Ok in E. intros [= <- <- ->]. cbn [resKey resToken].
    split; [done|]. split; [done|]. split; [apply redis_do_clock|].
    apply SETNX_true in E as [Ef Ek]. split; [exact Ef|exact Ek].
  - intros Hrun. exfalso. revert Hrun.
    destruct (runs_recordRedisOperationFailure g metricsKeyOnly "api" "canonical_reserve" eq_refl
      (set_redis (redis_do c (w_redis w0)).1 w0)) as (w2 & u & E2 & _).
    erewrite bind_Done by exact E2. by intros [=].
Qed.

(** an activity announced by another relay is taken up once: if the same activity ID (up to
    surrounding white space) is reserved again, and nothing removed the first reservation in
    between, the Redis clock has moved on by at least the activity retention of 15 minutes. *)
Theorem canonical_reserved_once (id1 id2 : string) (w0 w1 w2 w3 : W) (r1 r2 : canonicalRelayReservation)
    (H1 : reserveCanonicalRelayActivity g id1 w0 = (w1, Done (Ok (r1, true))))
    (Hbetween : liveKeysKept canonicalRelayKeyPrefix w1 w2)
    (H2 : reserveCanonicalRelayActivity g id2 w2 = (w3, Done (Ok (r2, true))))
    (Hsame : TrimSpace id1 = TrimSpace id2) :
  rs_ms (w_redis w1) + 900000 ≤ rs_ms (w_redis w3).
Proof.
  apply reserve_accepted in H1 as (K1 & _ & _ & _ & S1).
  apply reserve_accepted in H2 as (K2 & _ & C2 & F2 & _).
  destruct (Z.lt_ge_cases (rs_ms (w_redis w3)) (rs_ms (w_redis w1) + 900000)) as [Hlt|]; [|done]. exfalso.
  set (e := mkEntry _ _) in S1. destruct Hbetween as [_ Hk].
  assert (Hl : ∀ t, t ≤ rs_ms (w_redis w3) → live t e = true) by (intros t Ht; apply Z.ltb_lt; cbn; lia).
  assert (Hp : HasPrefix (resKey r1) canonicalRelayKeyPrefix = true)
    by (rewrite K1; unfold canonicalRelayKey; apply HasPrefix_app).
  specialize (Hk _ e Hp S1 (Hl _ C2)). rewrite K2, <- Hsame, <- K1 in F2. unfold find in F2.
  by rewrite Hk, Hl in F2.
Qed.

(** a reservation is released only by its owner: releasing with a token other than the stored
    one changes nothing but the failure metrics, whatever Redis fails. *)
Theorem release_needs_the_token (r : canonicalRelayReservation) (w : W) (token : string) (t : option Z)
    (Hk : db_keys (rs_db (w_redis w)) !! resKey r = Some (mkEntry (RString token) t))
    (Hother : token ≠ resToken r) :
  ∃ w', releaseCanonicalRelayActivity g r w = (w', Done tt) ∧ nearby metricsKeyOnly w w'.
Proof.
  unfold releaseCanonicalRelayActivity. destruct (_ || _); [by exists w|]. set (c := releaseCanonicalRelayScript _ _).
  assert (Hc : ∀ now, (c now (rs_db (w_redis w))).1 = rs_db (w_redis w)).
  { intros now. unfold c, releaseCanonicalRelayScript, GETopt, asString, find, mbind, Rcmd_bind, mret, Rcmd_ret.
    rewrite Hk. apply eqs_false in Hother. destruct (live now _); [|done]. by rewrite Hother. }
  assert (N1 : nearby metricsKeyOnly w (redis c w).1).
  { unfold redis. split; [done|]. split; [done|]. split; [apply redis_do_clock|].
    cbn [fst w_redis set_redis]. destruct (redis_do_db c (w_redis w)) as [E|E]; rewrite E, ?Hc; done. }
  destruct (redis c w) as [w1 o] eqn:E. unfold redis in E. injection E as <- <-.
  erewrite bind_Done by reflexivity. destruct (redis_do c (w_redis w)).2 as [z|e]; [by eexists|].
  destruct (runs_recordRedisOperationFailure g metricsKeyOnly "api" "canonical_release" eq_refl
    (set_redis (redis_do c (w_redis w)).1 w)) as (w2 & [] & E2 & N2).
  exists w2. split; [exact E2|]. by etransitivity.
Qed.
End guard.

Section retry.
Context {S : Type} `{RedisReliable S} {PrivateKey : Type}.
Variable g : Globals (S := S) (PrivateKey := PrivateKey).
Abbreviation W := (World S).

Lemma canonical_not_store id canonicalID : ¬ storeKeys id (canonicalRelayKey canonicalID).
Proof. intros [[E|E]|E]; discriminate E. Qed.

(** C30: over a Redis that answers, the goroutine of an accepted announce keeps its reservation
    exactly when the fan-out succeeded: if the fan-out failed (too many targets, no capacity, no
    signature plan, or the broker), afterwards the activity ID is not reserved any more (its entry
    was deleted, or had expired), so a later announce of it can be taken up.  (When Redis itself
    fails, the release fails too and is only logged; the reservation then stays until it expires.) *)
Theorem failed_announce_is_retryable `{!PlannerLaws g} (body sourceRelay origin canonicalID token : string)
    (w : W) (t : option Z) (Hb : brokerDocumented w) (Htoken : token ≠ "")
    (Hk : db_keys (rs_db (w_redis w)) !! canonicalRelayKey canonicalID = Some (mkEntry (RString token) t)) :
  let key := canonicalRelayKey canonicalID in
  ∃ w1 w' ok, enqueueActivityForAllExcept g body [sourceRelay; origin] w = (w1, Done ok)
    ∧ runGo g (GoEnqueueForAllExceptOrRelease body sourceRelay origin key token) w = (w', Done tt)
    ∧ if ok : bool then db_keys (rs_db (w_redis w')) !! key = Some (mkEntry (RString token) t)
      else find (rs_ms (w_redis w')) (rs_db (w_redis w')) key = None.
Proof.
  intros key.
  destruct (enqueue_run g (SubscribersAndFollowers (w_relay w)) body [sourceRelay; origin] w Hb)
    as (w1 & ok & taken & id & chosen & E & (_ & _ & _ & _ & _ & _ & _ & K) & _).
  assert (E' : enqueueActivityForAllExcept g body [sourceRelay; origin] w = (w1, Done ok)) by exact E.
  assert (Hk1 : db_keys (rs_db (w_redis w1)) !! key = Some (mkEntry (RString token) t)).
  { rewrite K; [done|apply canonical_not_store]. }
  cbn [runGo]. rewrite (bind_Done _ _ _ _ _ E'). destruct ok; [by exists w1, w1, true|].
  unfold releaseCanonicalRelayActivity. cbn [resKey resToken].
  apply eqs_false in Htoken. rewrite Htoken. change (key =s "") with false. cbn [orb].
  set (c := releaseCanonicalRelayScript key token). destruct (redis_ok c w1) as (w2 & E2 & Hdb).
  erewrite bind_Done by exact E2. set (now := rs_ms (w_redis w2)) in *. set (d := rs_db (w_redis w1)) in *.
  assert (Hc : c now d = if live now (mkEntry (RString token) t) then (drop_ key d, Ok 1) else (d, Ok 0)).
  { unfold c, releaseCanonicalRelayScript, GETopt, asString, find, mbind, Rcmd_bind, mret, Rcmd_ret.
    rewrite Hk1. destruct (live now _); [|done]. by rewrite eqs_refl. }
  rewrite Hc in Hdb |- *. exists w1, w2, false. split; [exact E'|].
  destruct (live now _) eqn:El; cbn [fst snd] in Hdb |- *; (split; [done|]); rewrite Hdb; unfold find.
  - unfold drop_, setKeys. cbn [db_keys]. by rewrite lookup_delete_eq.
  - fold now. by rewrite Hk1, El.
Qed.
End retry.

(** ** Follow requests *)

Section follow.
Context {S : Type} `{RedisReliable S} {PrivateKey : Type}.
Variable g : Globals (S := S) (PrivateKey := PrivateKey).
Abbreviation W := (World S).

(** The text of the relay's reply to an activity, with the next activity ID. *)
Definition replyText (activity : Activity) (activityType uuid : string) : string :=
  marshalActivity (mkActivity activityStreamsContext (acID (RelayActor g) +:+ "/activities/" +:+ uuid)
    (acID (RelayActor g)) activityType (Some (activityJson activity)) [aActor activity] []).
Lemma sendReply_run activity actor ty (w : W) : ∃ w', sendReply g activity actor ty w = (w', Done tt)
  ∧ started [GoEnqueueRegister (acInbox actor) (replyText activity ty (w_uuid w (w_uuids w)))] w w'.
Proof. eexists. split; [reflexivity|]. by repeat split. Qed.

(** A refresh starts nothing and writes no key. *)
Lemma refresh_unsent : runs unsent (refresh (S := S)).
Proof.
  intros w. unfold refresh, mbind, M_bind, getRelay. destruct (notifiable (w_relay w)).
  - eexists _, _. split; [reflexivity|]. by repeat split.
  - destruct (Load_run w) as (w' & r & E & _ & _ & Ho & _). rewrite E. eexists _, _. split; [reflexivity|].
    unfold sameOutside in Ho. destruct_and?. by repeat split.
Qed.

(** an actor that is not blocked and follows the Public collection is subscribed at once, or
    waits when approval is manual.  Waiting: only its pending request is written and nothing is
    sent.  Otherwise an Accept of the request is sent to its inbox and its subscription is stored
    with its shared inbox. *)
Theorem public_follow_outcome (activity : Activity) (actor : Actor) (u : URL) (shared : string) (w : W)
    (Hu : url_Parse (acID actor) = Ok u) (He : acEndpoints actor = Some shared)
    (Ho : aObject activity = Some (JString publicAddress))
    (Hb : normalizedActorDomain (Some u) ∉ blockedDomains (w_relay w))
    (Hd : stateKeysOk (rs_db (w_redis w))) :
  ∃ w', executeFollowing g activity actor w = (w', Done (Ok tt))
    ∧ w_queued w' = w_queued w ∧ w_sentRequests w' = w_sentRequests w
    ∧ if cfgManuallyAccept (RelayConfig (w_relay w))
      then redisOnly (λ k, k = pendingPrefix +:+ Host u) w w'
      else w_spawned w' = w_spawned w ++
             [GoEnqueueRegister (acInbox actor) (replyText activity "Accept" (w_uuid w (w_uuids w)))]
        ∧ storedSubscriber (rs_db (w_redis w')) (Host u)
          = mkSubscriber (Host u) shared (aID activity) (acID actor).
Proof.
  unfold executeFollowing, parseOrNil. rewrite Hu. erewrite bind_Done by apply isActorBlocked_run.
  rewrite bool_decide_eq_false_2 by done. unfold containsObject. rewrite Ho, eqs_refl.
  erewrite bind_Done by reflexivity. rewrite He. destruct (cfgManuallyAccept _).
  - unfold storePending. set (c := HSET _ _).
    assert (N : redisOnly (λ k, k = pendingPrefix +:+ Host u) w (redis c w).1)
      by by apply redisOnly_redis, touches_HSET.
    destruct (redis c w) as [w1 o] eqn:E. assert (∃ r, o = Done r) as [r ->] by (injection E; eauto).
    exists w1. unfold mbind at 1, M_bind at 1. rewrite (bind_Done _ _ _ _ _ E). cbn [fst] in N.
    destruct N as (? & Hout & ?). unfold sameOutside in Hout. destruct_and?. by repeat split.
  - destruct (sendReply_run activity actor "Accept" w) as (w1 & E1 & Hs & Hq & Hn & _ & Hr & _).
    erewrite bind_Done by exact E1. unfold AddSubscriber. set (c := HSET _ _).
    set (key := subscriptionPrefix +:+ Host u). assert (Hkey : stateKey key) by (unfold key; auto with relay).
    destruct (redis_ok c w1) as (w2 & E2 & Hdb). rewrite Hr in Hdb. unfold c in Hdb. rewrite HSET_state in Hdb by done.
    destruct (refresh_unsent w2) as (w3 & [] & E3 & U1 & U2 & U3 & _).
    destruct (refresh_keys w2) as (w3' & E3' & K). rewrite E3 in E3'. injection E3' as <-.
    assert (Eadd : (_ ← redis c; refresh) w1 = (w3, Done tt)) by by erewrite bind_Done by exact E2.
    exists w3. erewrite bind_Done by exact Eadd. split; [done|].
    assert (H12 : w_spawned w2 = w_spawned w1 ∧ w_queued w2 = w_queued w1 ∧ w_sentRequests w2 = w_sentRequests w1)
      by (unfold redis in E2; injection E2 as <- _; done).
    destruct H12 as (V1 & V2 & V3). rewrite U1, U2, U3, V1, V2, V3, Hs, Hq, Hn.
    do 3 (split; [done|]). unfold storedSubscriber, subscriberOf, fieldsOf, hashAt. fold key. rewrite K, Hdb.
    unfold put, setKeys. cbn [fst db_keys subDomain]. fold key. rewrite lookup_insert_eq. unfold key.
    rewrite TrimPrefix_app. cbn [loadFields nth map foldl]. map_look. done.
Qed.

(** an actor document without [endpoints] that follows the Public collection makes the handler
    panic; when approval is not manual this happens after the Accept was started, and no
    subscription is stored. *)
Theorem public_follow_without_endpoints_panics (activity : Activity) (actor : Actor) (u : URL) (w : W)
    (Hu : url_Parse (acID actor) = Ok u) (He : acEndpoints actor = None)
    (Ho : aObject activity = Some (JString publicAddress))
    (Hb : normalizedActorDomain (Some u) ∉ blockedDomains (w_relay w)) :
  ∃ w' msg, executeFollowing g activity actor w = (w', Panic msg) ∧ w_redis w' = w_redis w
    ∧ w_spawned w' = w_spawned w ++
        if cfgManuallyAccept (RelayConfig (w_relay w)) then []
        else [GoEnqueueRegister (acInbox actor) (replyText activity "Accept" (w_uuid w (w_uuids w)))].
Proof.
  unfold executeFollowing, parseOrNil. rewrite Hu. erewrite bind_Done by apply isActorBlocked_run.
  rewrite bool_decide_eq_false_2 by done. unfold containsObject. rewrite Ho, eqs_refl.
  erewrite bind_Done by reflexivity. rewrite He. destruct (cfgManuallyAccept _).
  - eexists _, _. split; [reflexivity|]. by rewrite app_nil_r.
  - destruct (sendReply_run activity actor "Accept" w) as (w1 & E1 & Hs & _ & _ & _ & Hr & _).
    erewrite bind_Done by exact E1. eexists _, _. split; [reflexivity|]. done.
Qed.
End follow.

(** ** Witnesses *)

Definition remoteActor (endpoints : option string) : Actor :=
  mkActor None "https://Mixed.example/users/alice" "Person" "" "" "" "https://mixed.example/users/alice/inbox" "" "" ""
    endpoints (mkPublicKey "" "" "") None None.
Definition exampleCreate : Activity :=
  mkActivity None "https://mixed.example/1" "https://Mixed.example/users/alice" "Create"
    (Some (JObject [("id", JString "https://mixed.example/notes/1")])) [publicAddress] [].
Definition exampleFollow : Activity :=
  mkActivity None "https://mixed.example/2" "https://Mixed.example/users/alice" "Follow"
    (Some (JString publicAddress)) [] [].
Definition exampleState (blocked : gset string) (manual : bool) : RelayState :=
  mkRelayState true (mkRelayConfig false manual) [] [] (take 2 exampleSubscriptions)
    [mkFollower "c.example" "https://c.example/inbox" "x" "https://c.example/actor" false] []
    exampleSubscriptions ∅ blocked ∅ ∅ ∅.
Definition relayWorld (blocked : gset string) (manual : bool) : World Calm :=
  quietWorld (mkCalm 5 emptyDb) (exampleState blocked manual).

Lemma remoteActor_domain e : actorDomain (remoteActor e) "mixed.example".
Proof. eexists. split; [vm_compute; reflexivity|]. split; [vm_compute; reflexivity|done]. Qed.

Lemma unrelayable_changes_nothing_witness :
  let w := relayWorld {["mixed.example"]} false in
  let answer : result unit := Err (errorsNew "mixed.example is blocked") in
  executeRelayActivity exampleGlobals exampleCreate (remoteActor None) "{}" w = (w, Done answer)
  ∧ executeEmbeddedAnnounceActivity exampleGlobals exampleCreate (remoteActor None) w = (w, Done answer)
  ∧ executeAnnounceActivity exampleGlobals exampleCreate (remoteActor None) "r.example" w = (w, Done answer)
  ∧ recordPublisherActivity exampleCreate (remoteActor None) w = (w, Done answer).
Proof.
  apply (unrelayable_changes_nothing exampleGlobals exampleCreate (remoteActor None) "{}" "r.example" "mixed.example").
  - apply remoteActor_domain.
  - vm_compute. reflexivity.
Defined.

Lemma relay_routes_witness : ∃ w' r,
  let w := relayWorld ∅ false in
  executeRelayActivity exampleGlobals exampleCreate (remoteActor None) "{}" w = (w', Done r)
  ∧ w_queued w' = w_queued w ∧ w_sentRequests w' = w_sentRequests w
  ∧ w_spawned w' = w_spawned w ++ match r with
      | Ok _ => relayCalls exampleGlobals (w_relay w') exampleCreate "{}" "mixed.example" (w_uuid w (w_uuids w))
      | Err _ => [] end.
Proof.
  apply (relay_routes exampleGlobals).
  - apply remoteActor_domain.
  - vm_compute. reflexivity.
Defined.
(** There the unsigned body leads to one Announce for everyone but the source. *)
Example relay_routes_example :
  match w_spawned (executeRelayActivity exampleGlobals exampleCreate (remoteActor None) "{}" (relayWorld ∅ false)).1 with
  | [GoEnqueueActivity subs "mixed.example" _] => length subs = 5%nat
  | _ => False
  end.
Proof. vm_compute. reflexivity. Qed.

Lemma one_copy_per_receiver_witness :
  let a := mkSubscriber "a.example" "https://a.example/inbox" "" "" in
  let c := mkSubscriber "c.example" "https://c.example/inbox" "x" "https://c.example/actor" in
  (normalizedStoredDomain (subDomain a) ≠ "" →
   normalizedStoredDomain (subDomain c) ≠ normalizedStoredDomain (subDomain a))
  ∧ normalizedStoredDomain (subDomain a) ≠ normalizedStoredDomain "mixed.example"
  ∧ normalizedStoredDomain (subDomain c) ≠ normalizedStoredDomain "mixed.example".
Proof.
  apply (one_copy_per_receiver (exampleState ∅ false) "mixed.example").
  - apply (bool_decide_unpack _). vm_compute. exact I.
  - apply (bool_decide_unpack _). vm_compute. exact I.
  - vm_compute. discriminate.
Defined.

Definition reserveExample (now : Z) : World Calm * outcome (result (canonicalRelayReservation * bool)) :=
  reserveCanonicalRelayActivity exampleGlobals "https://o.example/1" (quietWorld (mkCalm now emptyDb) (zeroRelayState true)).
Lemma reserveExample_ok now : reserveExample now = ((reserveExample now).1,
  Done (Ok (mkReservation (canonicalRelayKey "https://o.example/1") "00000000-0000-4000-8000-000000000000", true))).
Proof. reflexivity. Qed.
Definition reserveAgain : World Calm * outcome (result (canonicalRelayReservation * bool)) :=
  let w1 := (reserveExample 5).1 in
  reserveCanonicalRelayActivity exampleGlobals " https://o.example/1" (set_redis (mkCalm 1000000 (rs_db (w_redis w1))) w1).
Lemma reserveAgain_ok : ∃ r, reserveAgain = (reserveAgain.1, Done (Ok (r, true))).
Proof.
  assert (E : match reserveAgain.2 with Done (Ok (_, true)) => true | _ => false end = true)
    by (vm_compute; reflexivity).
  destruct reserveAgain as [w [[[r []]|]|]]; try discriminate E. by exists r.
Qed.
Lemma canonical_reserved_once_witness :
  rs_ms (w_redis (reserveExample 5).1) + 900000 ≤ rs_ms (w_redis reserveAgain.1).
Proof.
  destruct reserveAgain_ok as [r2 E2].
  eapply (canonical_reserved_once exampleGlobals "https://o.example/1" " https://o.example/1"
    (quietWorld (mkCalm 5 emptyDb) (zeroRelayState true)) (reserveExample 5).1
    (set_redis (mkCalm 1000000 (rs_db (w_redis (reserveExample 5).1))) (reserveExample 5).1)).
  - exact (reserveExample_ok 5).
  - split; [vm_compute; discriminate|]. intros k e _ He _. exact He.
  - exact E2.
  - vm_compute. reflexivity.
Defined.

Lemma release_needs_the_token_witness : ∃ w',
  releaseCanonicalRelayActivity exampleGlobals (mkReservation (canonicalRelayKey "https://o.example/1") "other")
    (reserveExample 5).1 = (w', Done tt) ∧ nearby metricsKeyOnly (reserveExample 5).1 w'.
Proof.
  eapply (release_needs_the_token exampleGlobals).
  - vm_compute. reflexivity.
  - discriminate.
Defined.

Lemma failed_announce_is_retryable_witness :
  let w := (reserveExample 5).1 in
  let key := canonicalRelayKey "https://o.example/1" in
  let token := "00000000-0000-4000-8000-000000000000" in
  ∃ w1 w' ok, enqueueActivityForAllExcept exampleGlobals "b" ["r.example"; "o.example"] w = (w1, Done ok)
    ∧ runGo exampleGlobals (GoEnqueueForAllExceptOrRelease "b" "r.example" "o.example" key token) w = (w', Done tt)
    ∧ if ok : bool then db_keys (rs_db (w_redis w')) !! key = Some (mkEntry (RString token) (Some 900006))
      else find (rs_ms (w_redis w')) (rs_db (w_redis w')) key = None.
Proof.
  apply (failed_announce_is_retryable exampleGlobals "b" "r.example" "o.example" "https://o.example/1").
  - apply quietWorld_broker.
  - discriminate.
  - vm_compute. reflexivity.
Defined.

Lemma public_follow_outcome_witness :
  let w := relayWorld ∅ false in
  ∃ w' u, executeFollowing exampleGlobals exampleFollow (remoteActor (Some "https://mixed.example/inbox")) w = (w', Done (Ok tt))
    ∧ w_queued w' = w_queued w ∧ w_sentRequests w' = w_sentRequests w
    ∧ w_spawned w' = w_spawned w ++ [GoEnqueueRegister "https://mixed.example/users/alice/inbox"
         (replyText exampleGlobals exampleFollow "Accept" (w_uuid w (w_uuids w)))]
    ∧ storedSubscriber (rs_db (w_redis w')) (Host u)
      = mkSubscriber (Host u) "https://mixed.example/inbox" "https://mixed.example/2" "https://Mixed.example/users/alice".
Proof.
  cbv zeta. destruct (remoteActor_domain (Some "https://mixed.example/inbox")) as (u & Eu & _).
  destruct (public_follow_outcome exampleGlobals exampleFollow (remoteActor (Some "https://mixed.example/inbox")) u
    "https://mixed.example/inbox" (relayWorld ∅ false) Eu eq_refl eq_refl) as (w' & E & Hq & Hs & Hr).
  - apply not_elem_of_empty.
  - intros k e _ He. discriminate He.
  - exists w', u. split; [exact E|]. split; [exact Hq|]. split; [exact Hs|exact Hr].
Defined.

Lemma public_follow_without_endpoints_panics_witness :
  let w := relayWorld ∅ false in
  ∃ w' msg, executeFollowing exampleGlobals exampleFollow (remoteActor None) w = (w', Panic msg)
    ∧ w_redis w' = w_redis w
    ∧ w_spawned w' = w_spawned w ++ [GoEnqueueRegister "https://mixed.example/users/alice/inbox"
         (replyText exampleGlobals exampleFollow "Accept" (w_uuid w (w_uuids w)))].
Proof.
  cbv zeta. destruct (remoteActor_domain None) as (u & Eu & _).
  apply (public_follow_without_endpoints_panics exampleGlobals exampleFollow (remoteActor None) u (relayWorld ∅ false) Eu eq_refl eq_refl).
  apply not_elem_of_empty.
Defined.
