(* ===== verification/Decode.v ===== *)
(** * Authenticating an inbound activity (api/decode.go, api/rfc9421_inbound.go)

    The profile is chosen by the [Signature-Input] field; either way the activity
    is returned only if a signature over the body verifies with a key whose owner
    is bound to the activity's actor.  Parameters: go-fed/httpsig's verifier,
    parsing of a public key from PEM, the RFC 9421 library, the actor cache, and
    the executor of signed GET requests. *)

From S2P Require Import Prelude GoStrings GoUrl Sha256 Redis GoTime World Observability.
From S2P Require Import Signer Rfc9421 Json ActivityModel Queue.

Definition inboundSignatureProfileLegacy : string := "legacy".
Definition inboundSignatureProfileRFC9421 : string := "rfc9421".
Definition selectInboundSignatureProfile (request : inRequest) : string :=
  match headerValues (inHeader request) "Signature-Input" with
  | [] => inboundSignatureProfileLegacy
  | _ => inboundSignatureProfileRFC9421
  end.

Definition readInboundActivityBody (limit : Z) (request : inRequest) : result string :=
  match inBody request with
  | None => Err (errorsNew "activity request body is unavailable")
  | Some (content, readErr) =>
      match readLimited limit content readErr with
      | (_, Some e) => Err e
      | (body, None) => if limit <? len body then Err (errorsNew "activity body exceeds configured limit") else Ok body
      end
  end.

Definition parseInboundActivity (body : string) : result Activity :=
  activity ← unmarshalActivity body;
  if TrimSpace (aActor activity) =s "" then Err (errorsNew "activity has no actor") else Ok activity.

Definition normalizedRemoteHost (address : string) : result string :=
  parsed ← url_Parse address;
  let host := ToLower (TrimSuffix (Hostname parsed) ".") in
  if host =s "" then Err (errorsNew "remote URL has no host") else Ok host.
(** [ownerHost, err := normalizedRemoteHost(id); err != nil || ownerHost != host]. *)
Definition hostDiffers (id host : string) : bool :=
  match normalizedRemoteHost id with Ok h => negb (h =s host) | Err _ => true end.

Definition verifySignatureActorBinding (keyID : string) (keyOwner : Actor) (activityActor : string) : result unit :=
  actorHost ← mapErr (errorWrap "invalid activity actor: ") (normalizedRemoteHost activityActor);
  keyHost ← mapErr (errorWrap "invalid signature key ID: ") (normalizedRemoteHost keyID);
  if negb (keyHost =s actorHost) then Err (errorsNew "signature key host does not match activity actor host")
  else if negb (acID keyOwner =s "") && hostDiffers (acID keyOwner) actorHost
  then Err (errorsNew "signature key owner does not match activity actor host")
  else if negb (pkOwner (acPublicKey keyOwner) =s "") && hostDiffers (pkOwner (acPublicKey keyOwner)) actorHost
  then Err (errorsNew "public key owner does not match activity actor host")
  else Ok tt.
Definition verifyActivityActorDocument (activityActor : string) (remoteActor : Actor) : result unit :=
  activityHost ← mapErr (errorWrap "invalid activity actor: ") (normalizedRemoteHost activityActor);
  if hostDiffers (acID remoteActor) activityHost
  then Err (errorsNew "resolved actor document does not match activity actor host") else Ok tt.

Definition classifyHTTPSignatureVerificationError (err : error) : string :=
  if errorIs err "ErrRFC9421Replay" then "replay"
  else
    let has := Contains (ToLower (err_text err)) in
    if has "content-digest" || has "digest header" then "digest"
    else if has "older than" || has "future" || has "expired" || has "expires" || has "created parameter" then "time"
    else if has "authority" then "authority"
    else if has "actor" || has "owner" then "actor"
    else if has "resolve" || has "public key" || has "keyid" then "key"
    else if has "reserve rfc 9421 nonce" || has "redis" then "redis"
    else if has "covered component" || has "algorithm" || has "nonce parameter" then "policy"
    else if has "parse rfc 9421" || has "find activitypub" || has "structured field" then "parse"
    else if has "verify rfc 9421 signature" || has "verification error" then "crypto"
    else if has "invalid character" || has "activity has no actor" then "activity"
    else "other".

Section decode.
Context {S : Type} `{Redis S} {PrivateKey PublicKey Base : Type}.
Abbreviation Mw := (M (World S)).
Variable g : Globals (S := S) (PrivateKey := PrivateKey).
(** [httpsig.NewVerifier(request)]: the key ID and [verifier.Verify(key, RSA_SHA256)]. *)
Variable legacyVerifier : inRequest → result (string * (PublicKey → result unit)).
(** [models.ReadPublicKeyRSAFromString]. *)
Variable readPublicKey : string → result (option PublicKey).
Variable lib : SigLib PublicKey Base.
Variable cache : ActorCache S.
Variable executor : option (RemoteRequestExecutor S).
Variables serviceName version serverScheme serverHost : string.

Definition relayRemoteUserAgent : string :=
  serviceName +:+ " (golang net/http; Activity-Relay " +:+ version +:+ "; " +:+ serverHost +:+ ")".
Definition fetchActor (url : string) : Mw (result Actor) :=
  NewActivityPubActorFromRemoteActor cache url relayRemoteUserAgent executor.

(** [activityPubRFC9421KeyResolver.ResolveRFC9421Key]. *)
Definition ResolveRFC9421Key (keyID : string) : Mw (result (RFC9421ResolvedKey PublicKey)) :=
  let keyID := TrimSpace keyID in
  if keyID =s "" then mret (Err (errorsNew "RFC 9421 key ID is empty"))
  else match executor with
  | None => mret (Err (errorsNew "remote request signer is unavailable"))
  | Some _ =>
      actor ←! fetchActor keyID;
      let key := acPublicKey actor in
      if TrimSpace (acID actor) =s "" then mret (Err (errorsNew "resolved ActivityPub actor has no ID"))
      else if TrimSpace (pkID key) =s ""
      then mret (Err (errorsNew "resolved ActivityPub actor has no public-key ID"))
      else if negb (pkID key =s keyID)
      then mret (Err (errorsNew "resolved ActivityPub public-key ID does not match keyid"))
      else if TrimSpace (pkOwner key) =s ""
      then mret (Err (errorsNew "resolved ActivityPub public key has no owner"))
      else
        publicKey ←! mret (mapErr (errorWrap "parse resolved ActivityPub RSA public key: ") (readPublicKey (pkPem key)));
        match publicKey with
        | None => mret (Err (errorsNew "resolved ActivityPub RSA public key is nil"))
        | Some k => mret (Ok (mkResolved (pkID key) (pkOwner key) (acID actor) (Some k)))
        end
  end.
Definition newInboundRFC9421Verifier : result (RFC9421Verifier S PublicKey) :=
  NewRFC9421Verifier (mkVOptions serverScheme serverHost (Some ResolveRFC9421Key)
    (Some (ReserveRFC9421Nonce (NewRedisRFC9421NonceStore ""))) 0 0 0 None).

Definition decodeRFC9421Activity (verifier : option (RFC9421Verifier S PublicKey)) (request : inRequest)
    (body : string) : Mw (result (Activity * Actor)) :=
  match verifier with
  | None => mret (Err (errorsNew "RFC 9421 inbound verifier is unavailable"))
  | Some _ =>
      verification ←! VerifyPOST lib verifier request body;
      activity ←! mret (parseInboundActivity body);
      _ ←! mret (BindActivityActor (Some verification) (aActor activity));
      remoteActor ←! fetchActor (aActor activity);
      _ ←! mret (BindActivityActor (Some verification) (acID remoteActor));
      mret (Ok (activity, remoteActor))
  end.

Definition decodeLegacyActivity (request : inRequest) (body : string) : Mw (result (Activity * Actor)) :=
  let request := mkIn (inMethod request) (inURL request) (inHost request)
                   (headerSet (inHeader request) "Host" (inHost request)) (inBody request) in
  '(keyID, verify) ←! mret (legacyVerifier request);
  keyOwnerActor ←! fetchActor keyID;
  publicKey ←! mret (readPublicKey (pkPem (acPublicKey keyOwnerActor)));
  match publicKey with
  | None => mret (Err (errorsNew "failed parse PublicKey from string"))
  | Some key =>
      _ ←! mret (verify key);
      let calculatedDigest := "SHA-256=" +:+ base64Std (sum256 (bytes body)) in
      if negb (headerGet (inHeader request) "Digest" =s calculatedDigest)
      then mret (Err (errorsNew "digest header is mismatch"))
      else
        activity ←! mret (parseInboundActivity body);
        _ ←! mret (verifySignatureActorBinding keyID keyOwnerActor (aActor activity));
        remoteActor ←! fetchActor (aActor activity);
        _ ←! mret (verifyActivityActorDocument (aActor activity) remoteActor);
        mret (Ok (activity, remoteActor))
  end.

Definition decodeActivity (verifier : option (RFC9421Verifier S PublicKey)) (request : inRequest)
    : Mw (result (Activity * Actor * string)) :=
  let profile := selectInboundSignatureProfile request in
  body ←! mret (readInboundActivityBody (MaxActivityBytes g) request);
  decoded ← (if profile =s inboundSignatureProfileRFC9421
             then decodeRFC9421Activity verifier request body else decodeLegacyActivity request body);
  match decoded with
  | Err e =>
      _ ← recordHTTPSignatureVerification g profile "failure" (classifyHTTPSignatureVerificationError e);
      mret (Err e)
  | Ok (activity, actor) =>
      _ ← recordHTTPSignatureVerification g profile "success" "accepted";
      mret (Ok (activity, actor, body))
  end.

Definition fetchOriginalActivityFromURL (address : string) : Mw (result (Activity * Actor)) :=
  remoteActivity ←! NewActivityPubActivityFromRemoteActivity address relayRemoteUserAgent executor;
  remoteActor ←! fetchActor (aActor remoteActivity);
  mret (Ok (remoteActivity, remoteActor)).
End decode.
