(* ===== verification/DecodeSpec.v ===== *)
(** * What an authenticated activity is

    Inversion of [decodeActivity]: the body, the digest or the verified signature, and
    the binding of actor, key and actor document, for both profiles. *)

From S2P Require Import Prelude GoStrings GoUrl Sha256 Redis GoTime World Frame Observability.
From S2P Require Import Signer Rfc9421 Rfc9421Spec Json ActivityModel Queue QueueSpec Decode.

Lemma len_ofBytes l : len (ofBytes l) = Z.of_nat (length l).
Proof. unfold len. by rewrite <- length_bytes, bytes_ofBytes. Qed.

(** A body that was read is the whole body, within the limit. *)
Lemma readInbound_whole limit request body :
  readInboundActivityBody limit request = Ok body → inBody request = Some (body, None) ∧ len body ≤ limit.
Proof.
  unfold readInboundActivityBody. destruct (inBody request) as [[content readErr]|]; [|done].
  unfold readLimited. destruct (Z.ltb_spec (len content) (limit + 1)).
  - destruct readErr; [done|]. destruct (Z.ltb_spec limit (len content)); [lia|]. by intros [= <-].
  - destruct (Z.ltb_spec limit (len (ofBytes (take (Z.to_nat (limit + 1)) (bytes content))))) as [|Hl]; [done|].
    exfalso. rewrite len_ofBytes, length_take, length_bytes in Hl. unfold len in *. lia.
Qed.

Lemma hostDiffers_false id host : hostDiffers id host = false → normalizedRemoteHost id = Ok host.
Proof.
  unfold hostDiffers. destruct (normalizedRemoteHost id) as [h|]; [|done].
  destruct (h =s host) eqn:E; [|done]. by apply eqs_true in E as ->.
Qed.
Lemma actorBinding_ok keyID owner actor : verifySignatureActorBinding keyID owner actor = Ok tt →
  ∃ host, normalizedRemoteHost actor = Ok host ∧ normalizedRemoteHost keyID = Ok host
    ∧ (acID owner ≠ "" → normalizedRemoteHost (acID owner) = Ok host)
    ∧ (pkOwner (acPublicKey owner) ≠ "" → normalizedRemoteHost (pkOwner (acPublicKey owner)) = Ok host).
Proof.
  unfold verifySignatureActorBinding. destruct (normalizedRemoteHost actor) as [ah|]; [|done]. cbn [mapErr mbind result_bind].
  destruct (normalizedRemoteHost keyID) as [kh|]; [|done]. cbn [mapErr mbind result_bind].
  destruct (kh =s ah) eqn:E1; [|done]. apply eqs_true in E1 as ->. cbn [negb].
  destruct (negb (acID owner =s "") && hostDiffers (acID owner) ah) eqn:E2; [done|].
  destruct (negb (pkOwner _ =s "") && hostDiffers (pkOwner _) ah) eqn:E3; [done|]. intros _.
  exists ah. split; [done|]. split; [done|].
  split; intros Hne; apply eqs_false in Hne; apply hostDiffers_false.
  - by rewrite Hne in E2.
  - by rewrite Hne in E3.
Qed.
Lemma actorDocument_ok activityActor actor : verifyActivityActorDocument activityActor actor = Ok tt →
  ∃ host, normalizedRemoteHost activityActor = Ok host ∧ normalizedRemoteHost (acID actor) = Ok host.
Proof.
  unfold verifyActivityActorDocument. destruct (normalizedRemoteHost activityActor) as [ah|]; [|done].
  cbn [mapErr mbind result_bind]. destruct (hostDiffers (acID actor) ah) eqn:E; [done|]. intros _.
  exists ah. split; [done|]. by apply hostDiffers_false.
Qed.

(** A sequence of fallible steps that ended well, from its first step. *)
Lemma bindErr_done {W A B} (m : M W (result A)) (f : A → M W (result B)) w w' b :
  bindErr m f w = (w', Done (Ok b)) → ∃ w1 a, m w = (w1, Done (Ok a)) ∧ f a w1 = (w', Done (Ok b)).
Proof.
  unfold bindErr, mbind, M_bind. destruct (m w) as [w1 [[a|e]|msg]]; [eauto|done|done].
Qed.
Lemma bindErr_pure {W A B} (r : result A) (f : A → M W (result B)) w w' b :
  bindErr (mret r) f w = (w', Done (Ok b)) → ∃ a, r = Ok a ∧ f a w = (w', Done (Ok b)).
Proof. intros (w1 & a & [= -> ->] & E)%bindErr_done. eauto. Qed.

Section decoded.
Context {S : Type} `{RedisLaws S} {PrivateKey PublicKey Base : Type}.
Variable g : Globals (S := S) (PrivateKey := PrivateKey).
Variable legacyVerifier : inRequest → result (string * (PublicKey → result unit)).
Variable readPublicKey : string → result (option PublicKey).
Variable lib : SigLib PublicKey Base.
Variable cache : ActorCache S.
Variable executor : option (RemoteRequestExecutor S).
Variables serviceName version serverHost : string.
Abbreviation decode := (decodeActivity g legacyVerifier readPublicKey lib cache executor serviceName version serverHost).
Abbreviation fetched url w w' actor :=
  (fetchActor cache executor serviceName version serverHost url w = (w', Done (Ok actor))).

Lemma decodeActivity_ok verifier request (w w' : World S) activity actor body :
  decode verifier request w = (w', Done (Ok (activity, actor, body))) →
  inBody request = Some (body, None) ∧ len body ≤ MaxActivityBytes g
  ∧ ∃ w1, (if selectInboundSignatureProfile request =s inboundSignatureProfileRFC9421
           then decodeRFC9421Activity lib cache executor serviceName version serverHost verifier request body
           else decodeLegacyActivity legacyVerifier readPublicKey cache executor serviceName version serverHost request body) w
          = (w1, Done (Ok (activity, actor))) ∧ nearby metricsKeyOnly w1 w'.
Proof.
  unfold decodeActivity. intros (b & Hb & Hrun)%bindErr_pure. apply readInbound_whole in Hb as [Hb Hl].
  revert Hrun. set (m := if _ =s _ then _ else _).
  unfold mbind at 1, M_bind at 1. destruct (m w) as [w1 [[[a ac]|e]|msg]] eqn:E; [| |done].
  - destruct (runs_whenEnabled metricsKeyOnly (OperationalMetrics g)
      (RecordHTTPSignatureVerification (selectInboundSignatureProfile request) "success" "accepted")
      (runs_increment_nearby _ _ _ _ eq_refl) w1) as (w2 & [] & E2 & N).
    unfold recordHTTPSignatureVerification. erewrite bind_Done by exact E2. intros [= <- <- <- <-].
    split; [done|]. split; [done|]. by exists w1.
  - destruct (runs_whenEnabled metricsKeyOnly (OperationalMetrics g)
      (RecordHTTPSignatureVerification (selectInboundSignatureProfile request) "failure"
         (classifyHTTPSignatureVerificationError e))
      (runs_increment_nearby _ _ _ _ eq_refl) w1) as (w2 & [] & E2 & N).
    unfold recordHTTPSignatureVerification. erewrite bind_Done by exact E2. by intros [=].
Qed.

(** C5: an activity accepted under the legacy profile was authenticated: the body is the whole
    request body within the size limit, the [Digest] field is its SHA-256, the request signature
    verified with the key of the document fetched for the signature's key ID, and the key ID, that
    document's owner (when it names one), the activity's actor and the returned actor document all
    have the same host.  The returned activity is the one in the body. *)
Theorem decoded_legacy_is_bound (verifier : option (RFC9421Verifier S PublicKey)) (request : inRequest)
    (w w' : World S) (activity : Activity) (actor : Actor) (body : string)
    (Hlegacy : headerValues (inHeader request) "Signature-Input" = [])
    (Hok : decode verifier request w = (w', Done (Ok (activity, actor, body)))) :
  let wireRequest := mkIn (inMethod request) (inURL request) (inHost request)
                       (headerSet (inHeader request) "Host" (inHost request)) (inBody request) in
  inBody request = Some (body, None) ∧ len body ≤ MaxActivityBytes g
  ∧ parseInboundActivity body = Ok activity
  ∧ headerGet (inHeader wireRequest) "Digest" = "SHA-256=" +:+ base64Std (sum256 (bytes body))
  ∧ ∃ keyID verify keyOwner key w1 w2 w3 host,
      legacyVerifier wireRequest = Ok (keyID, verify)
      ∧ fetched keyID w w1 keyOwner ∧ fetched (aActor activity) w2 w3 actor
      ∧ readPublicKey (pkPem (acPublicKey keyOwner)) = Ok (Some key) ∧ verify key = Ok tt
      ∧ normalizedRemoteHost (aActor activity) = Ok host ∧ normalizedRemoteHost keyID = Ok host
      ∧ normalizedRemoteHost (acID actor) = Ok host
      ∧ (acID keyOwner ≠ "" → normalizedRemoteHost (acID keyOwner) = Ok host)
      ∧ (pkOwner (acPublicKey keyOwner) ≠ "" → normalizedRemoteHost (pkOwner (acPublicKey keyOwner)) = Ok host).
Proof.
  intros wireRequest. apply decodeActivity_ok in Hok as (Hb & Hl & wd & Hrun & _).
  split; [done|]. split; [done|]. unfold selectInboundSignatureProfile in Hrun. rewrite Hlegacy in Hrun.
  change (inboundSignatureProfileLegacy =s inboundSignatureProfileRFC9421) with false in Hrun.
  unfold decodeLegacyActivity in Hrun. fold wireRequest in Hrun.
  apply bindErr_pure in Hrun as ([keyID verify] & Hv & Hrun).
  apply bindErr_done in Hrun as (w1 & keyOwner & Ho & Hrun).
  apply bindErr_pure in Hrun as ([key|] & Hkey & Hrun); [|done].
  apply bindErr_pure in Hrun as ([] & Hsig & Hrun).
  destruct (headerGet (inHeader wireRequest) "Digest" =s _) eqn:Ed; [|done]. apply eqs_true in Ed. cbn [negb] in Hrun.
  apply bindErr_pure in Hrun as (a & Ha & Hrun).
  apply bindErr_pure in Hrun as ([] & Hbind & Hrun).
  apply bindErr_done in Hrun as (w2 & ra & Hra & Hrun).
  apply bindErr_pure in Hrun as ([] & Hdoc & Hrun). injection Hrun as _ -> ->.
  split; [done|]. split; [done|].
  apply actorBinding_ok in Hbind as (host & H1 & H2 & H3 & H4).
  apply actorDocument_ok in Hdoc as (host' & H5 & H6). rewrite H1 in H5. injection H5 as <-.
  exists keyID, verify, keyOwner, key, w1, w1, w2, host. done.
Qed.

(** C4: an activity accepted under RFC 9421 was authenticated: the body is the whole request body
    within the size limit, the request verified against it, and the activity's actor and the
    returned actor document have the canonical identity of the owner of the verified key.  The
    returned activity is the one in the body. *)
Theorem decoded_rfc9421_is_bound (verifier : option (RFC9421Verifier S PublicKey)) (request : inRequest)
    (w w' : World S) (activity : Activity) (actor : Actor) (body : string)
    (Hrfc : headerValues (inHeader request) "Signature-Input" ≠ [])
    (Hok : decode verifier request w = (w', Done (Ok (activity, actor, body)))) :
  inBody request = Some (body, None) ∧ len body ≤ MaxActivityBytes g
  ∧ parseInboundActivity body = Ok activity
  ∧ ∃ v identity w1 w2, VerifyPOST lib verifier request body w = (w1, Done (Ok v))
      ∧ fetched (aActor activity) w1 w2 actor
      ∧ canonicalRFC9421ActorIdentity (vKeyOwner v) = Ok identity
      ∧ canonicalRFC9421ActorIdentity (aActor activity) = Ok identity
      ∧ canonicalRFC9421ActorIdentity (acID actor) = Ok identity.
Proof.
  apply decodeActivity_ok in Hok as (Hb & Hl & wd & Hrun & _).
  split; [done|]. split; [done|]. unfold selectInboundSignatureProfile in Hrun.
  destruct (headerValues (inHeader request) "Signature-Input"); [done|].
  change (inboundSignatureProfileRFC9421 =s inboundSignatureProfileRFC9421) with true in Hrun.
  unfold decodeRFC9421Activity in Hrun. destruct verifier as [vf|]; [|done].
  apply bindErr_done in Hrun as (w1 & v & Hv & Hrun). apply bindErr_pure in Hrun as (a & Ha & Hrun).
  apply bindErr_pure in Hrun as ([] & Hb1 & Hrun). apply bindErr_done in Hrun as (w2 & ra & Hra & Hrun).
  apply bindErr_pure in Hrun as ([] & Hb2 & Hrun). injection Hrun as _ -> ->. split; [done|].
  apply bindActor_identities in Hb1 as (i1 & I1 & O1 & _). apply bindActor_identities in Hb2 as (i2 & I2 & O2 & _).
  rewrite O1 in O2. injection O2 as <-. exists v, i1, w1, w2. done.
Qed.
End decoded.

(** ** Witnesses *)

Definition aliceURL : string := "https://a.example/actor".
Definition aliceDocument : string := jsonMarshal (JObject
  [("id", JString aliceURL); ("type", JString "Person"); ("inbox", JString "https://a.example/inbox");
   ("publicKey", JObject [("id", JString (aliceURL +:+ "#main-key")); ("owner", JString aliceURL);
                          ("publicKeyPem", JString "pem")])]).
Definition noteActivity : Activity :=
  mkActivity None "https://a.example/1" aliceURL "Create" (Some (JString "https://a.example/notes/1")) [] [].
Definition noteBody : string := marshalActivity noteActivity.
(** A world whose actor cache holds the document, under the key ID too. *)
Definition cachedWorld : World Calm :=
  set_cache {[ aliceURL := aliceDocument; (aliceURL +:+ "#main-key") := aliceDocument ]} demoStart.
Definition legacyRequest : inRequest :=
  mkIn "POST" (Some (mkURL "" "" None "" "/inbox" "" false false "" "" "")) "relay.example"
    {[ "Digest" := ["SHA-256=" +:+ base64Std (sum256 (bytes noteBody))] ]} (Some (noteBody, None)).
Definition rfcRequest : inRequest :=
  mkIn "POST" (Some (mkURL "" "" None "" "/inbox" "" false false "" "" "")) "relay.example"
    {[ "Signature-Input" := ["activitypub=..."]; "Content-Digest" := ["sha-256=..."] ]} (Some (noteBody, None)).
Definition noteLib : SigLib unit unit :=
  mkSigLib (sigset_Unmarshal demoLib) (sigset_Find demoLib) (sigbase_Derive demoLib) (CanonicalString demoLib)
    (rsaVerify demoLib)
    (λ _, Ok [("sha-256", SfvItemMember (mkSfvItem (SfvBytes (sum256 (bytes noteBody))) None))]).
Definition exampleLegacyVerifier (r : inRequest) : result (string * (unit → result unit)) :=
  Ok (aliceURL +:+ "#main-key", λ _, Ok tt).
Definition exampleDecode (request : inRequest) :=
  decodeActivity exampleGlobals exampleLegacyVerifier (λ _, Ok (Some tt)) noteLib mapCache None "relay" "1" "relay.example"
    (Some demoVerifier) request cachedWorld.
Lemma exampleDecode_ok request : match (exampleDecode request).2 with Done (Ok _) => true | _ => false end = true →
  ∃ activity actor body, exampleDecode request = ((exampleDecode request).1, Done (Ok (activity, actor, body))).
Proof.
  destruct (exampleDecode request) as [w [[[[a ac] b]|]|]]; cbn; [|done|done]. intros _. by exists a, ac, b.
Qed.

Lemma decoded_legacy_is_bound_witness : ∃ activity actor body host,
  exampleDecode legacyRequest = ((exampleDecode legacyRequest).1, Done (Ok (activity, actor, body)))
  ∧ parseInboundActivity body = Ok activity
  ∧ normalizedRemoteHost (aActor activity) = Ok host ∧ normalizedRemoteHost (acID actor) = Ok host.
Proof.
  destruct (exampleDecode_ok legacyRequest) as (activity & actor & body & E); [vm_compute; reflexivity|].
  destruct (decoded_legacy_is_bound exampleGlobals exampleLegacyVerifier (λ _, Ok (Some tt)) noteLib mapCache None
    "relay" "1" "relay.example" (Some demoVerifier) legacyRequest cachedWorld (exampleDecode legacyRequest).1 activity actor body)
    as (_ & _ & Hp & _ & keyID & verify & owner & key & w1 & w2 & w3 & host & _ & _ & _ & _ & _ & Ha & _ & Hd & _).
  - vm_compute. reflexivity.
  - exact E.
  - exists activity, actor, body, host. split; [exact E|]. split; [exact Hp|]. split; [exact Ha|exact Hd].
Defined.

Lemma decoded_rfc9421_is_bound_witness : ∃ activity actor body identity,
  exampleDecode rfcRequest = ((exampleDecode rfcRequest).1, Done (Ok (activity, actor, body)))
  ∧ canonicalRFC9421ActorIdentity (aActor activity) = Ok identity
  ∧ canonicalRFC9421ActorIdentity (acID actor) = Ok identity.
Proof.
  destruct (exampleDecode_ok rfcRequest) as (activity & actor & body & E); [vm_compute; reflexivity|].
  destruct (decoded_rfc9421_is_bound exampleGlobals exampleLegacyVerifier (λ _, Ok (Some tt)) noteLib mapCache None
    "relay" "1" "relay.example" (Some demoVerifier) rfcRequest cachedWorld (exampleDecode rfcRequest).1 activity actor body)
    as (_ & _ & _ & v & identity & w1 & w2 & _ & _ & _ & Ha & Hd).
  - vm_compute. discriminate.
  - exact E.
  - exists activity, actor, body, identity. split; [exact E|]. split; [exact Ha|exact Hd].
Defined.
