(* ===== verification/Inbox.v ===== *)
(** * The inbox and the read-only collections (api/handle.go, api/activitypub_collections.go)

    A POST to the inbox is authenticated by the decoder it is given, then routed by
    its audience and its type.  A response is what was written to the
    [ResponseWriter]: every path writes the status once.  The deferred metric runs
    after the response, or on a panic, which it passes on.  Log messages are left
    out. *)

From S2P Require Import Prelude GoStrings GoUrl Redis GoTime World Observability.
From S2P Require Import PublicAddressPolicy Rfc9421 Json ActivityModel Queue Relay Decode.

Record reply := mkReply { rStatus : Z; rHeader : Header; rBody : string }.
#[export] Instance reply_eq_dec : EqDecision reply.
Proof. solve_decision. Defined.

(** ** Collections *)

Definition activityPubContentType : string := "application/activity+json".
(** [writeActivityPubJSON] of a value that marshals. *)
Definition writeActivityPubJSON (request : inRequest) (value : json) : reply :=
  mkReply 200 (headerSet ∅ "Content-Type" activityPubContentType)
    (if inMethod request =s "HEAD" then "" else jsonMarshal value).
Definition emptyOrderedCollection (id : string) : json :=
  JObject [("@context", JString "https://www.w3.org/ns/activitystreams"); ("id", JString id);
           ("type", JString "OrderedCollection"); ("totalItems", JNumber "0"); ("orderedItems", JArray [])].
Definition methodNotAllowed (allow : string) : reply := mkReply 405 (headerSet ∅ "Allow" allow) "".
Definition handleReadOnlyOrderedCollection (request : inRequest) (id allow : string) : reply :=
  if oneOf (inMethod request) ["GET"; "HEAD"] then writeActivityPubJSON request (emptyOrderedCollection id)
  else methodNotAllowed allow.
Definition handleRelayOutbox (relayActor : Actor) (request : inRequest) : reply :=
  handleReadOnlyOrderedCollection request (acOutbox relayActor) "GET, HEAD".
Definition handleRelayFollowers (relayActor : Actor) (request : inRequest) : reply :=
  handleReadOnlyOrderedCollection request (acFollowersURL relayActor) "GET, HEAD".
Definition handleRelayFollowing (relayActor : Actor) (request : inRequest) : reply :=
  handleReadOnlyOrderedCollection request (acFollowingURL relayActor) "GET, HEAD".

(** ** Audiences *)

(** [policy.Allows] and [policy.ExcludesPublicOnlyInCC] on an activity that is not nil. *)
Definition shouldDistributeByPublicAddress (activity : Activity) (policy : string) : bool :=
  Allows policy (aTo activity) (aCc activity).
Definition isPublicOnlyInCCExcluded (activity : Activity) (policy : string) : bool :=
  ExcludesPublicOnlyInCC policy (aTo activity) (aCc activity).

Definition shouldFanOutPublicAnnounce (activity : Activity) : bool :=
  if negb (aType activity =s "Announce") then false
  else match aObject activity with
  | Some (JObject _) =>
      match UnwrapInnerObjectId activity, url_Parse (aActor activity) with
      | Ok objectID, Ok actorURL =>
          match url_Parse objectID with
          | Ok objectURL =>
              let actorDomain := normalizedActorDomain (Some actorURL) in
              negb (actorDomain =s "") && (actorDomain =s normalizedActorDomain (Some objectURL))
          | Err _ => false
          end
      | _, _ => false
      end
  | _ => false
  end.

Definition classifyInboxMetric (status : Z) : string * string :=
  if (200 <=? status) && (status <? 300) then ("accepted", "accepted")
  else if status =? 405 then ("ignored", "method")
  else if status =? 400 then ("rejected", "invalid")
  else if (status =? 401) || (status =? 403) then ("rejected", "policy")
  else if 500 <=? status then ("rejected", "internal")
  else ("rejected", "unsupported").

Section inbox.
Context {S : Type} `{Redis S} {PrivateKey : Type}.
Abbreviation Mw := (M (World S)).
Variable g : Globals (S := S) (PrivateKey := PrivateKey).
Variable cache : ActorCache S.
Variable executor : option (RemoteRequestExecutor S).
Variables serviceName version serverHost : string.

Definition configuredPublicAddressDistributionPolicy : string := DistributionPolicy g.

Definition accepted : reply := mkReply 202 ∅ "".
Definition unauthorized (e : error) : reply := mkReply 401 ∅ (err_text e).
(** [if err != nil { 401 with the error's text }; 202]. *)
Definition answer (r : result unit) : reply := match r with Ok _ => accepted | Err e => unauthorized e end.

Definition executePolicyExcludedPublicActivity (activity : Activity) (actor : Actor) : Mw (result unit) :=
  if oneOf (aType activity) ["Create"; "Update"; "Delete"; "Move"; "Announce"]
  then recordPublisherActivity activity actor else mret (Ok tt).
Definition executePublicAnnounce (activity : Activity) (actor : Actor) : Mw (result unit) :=
  if shouldFanOutPublicAnnounce activity then executeEmbeddedAnnounceActivity g activity actor
  else recordPublisherActivity activity actor.

(** ** The four routes of an authenticated activity *)

Definition inboxPublic (activity : Activity) (actor : Actor) (body : string) : Mw reply :=
  if oneOf (aType activity) ["Create"; "Update"; "Delete"; "Move"] then
    r ← executeRelayActivity g activity actor body; mret (answer r)
  else if aType activity =s "Announce" then
    r ← executePublicAnnounce activity actor; mret (answer r)
  else mret accepted.

Definition inboxFollow (activity : Activity) (actor : Actor) : Mw reply :=
  r ← executeFollowing g activity actor;
  _ ← match r with Err _ => executeRejectRequest g activity actor | Ok _ => mret tt end;
  mret accepted.
Definition inboxUndo (activity : Activity) (actor : Actor) : Mw reply :=
  match UnwrapInnerActivity activity with
  | Err _ => mret accepted
  | Ok innerActivity =>
      if aType innerActivity =s "Follow" then
        r ← executeUnfollowing g innerActivity actor;
        _ ← match r with Err _ => executeRejectRequest g activity actor | Ok _ => mret tt end;
        mret accepted
      else mret accepted
  end.
(** An Accept or a Reject. *)
Definition inboxAnswered (activity : Activity) (actor : Actor) : Mw reply :=
  match UnwrapInnerActivity activity with
  | Err _ => mret accepted
  | Ok innerActivity =>
      if aType innerActivity =s "Follow" then
        _ ← finalizeMutuallyFollow g innerActivity actor (aType activity); mret accepted
      else mret accepted
  end.
Definition inboxAnnounce (activity : Activity) : Mw reply :=
  let actorID := parseOrNil (aActor activity) in
  known ← isActorSubscribersOrFollowers actorID;
  if negb known then mret (unauthorized (errorsNew "to use the relay service, please follow in advance"))
  else match aObject activity with
  | Some (JString innerObject) =>
      fetched ← fetchOriginalActivityFromURL cache executor serviceName version serverHost innerObject;
      match fetched with
      | Err e => mret (mkReply 400 ∅ (err_text e))
      | Ok (origActivity, origActor) =>
          _ ← executeAnnounceActivity g origActivity origActor (normalizedActorDomain actorID);
          mret accepted
      end
  | _ => mret accepted
  end.

Definition inboxLitePub (activity : Activity) (actor : Actor) : Mw reply :=
  if aType activity =s "Follow" then inboxFollow activity actor
  else if aType activity =s "Undo" then inboxUndo activity actor
  else if oneOf (aType activity) ["Accept"; "Reject"] then inboxAnswered activity actor
  else if aType activity =s "Announce" then inboxAnnounce activity
  else mret accepted.
Definition inboxExcluded (activity : Activity) (actor : Actor) : Mw reply :=
  r ← executePolicyExcludedPublicActivity activity actor; mret (answer r).
Definition inboxOther (activity : Activity) (actor : Actor) : Mw reply :=
  if aType activity =s "Follow" then inboxFollow activity actor
  else if aType activity =s "Undo" then inboxUndo activity actor
  else mret accepted.

(** The second and the third case of the switch: addressed to the relay, or to one of its
    followers' followers. *)
Definition addressedToRelay (activity : Activity) : Mw bool :=
  let relay := acID (RelayActor g) in
  if containsList (aTo activity) relay || containsList (aCc activity) relay then mret true
  else
    inTo ← isToMyFollower (aTo activity);
    if (inTo : bool) then mret true else isToMyFollower (aCc activity).
Definition routeActivity (activity : Activity) (actor : Actor) (body : string) : Mw reply :=
  let policy := configuredPublicAddressDistributionPolicy in
  if shouldDistributeByPublicAddress activity policy then inboxPublic activity actor body
  else
    toRelay ← addressedToRelay activity;
    if (toRelay : bool) then inboxLitePub activity actor
    else if isPublicOnlyInCCExcluded activity policy then inboxExcluded activity actor
    else inboxOther activity actor.

(** ** The handler *)

(** The deferred function on a panic: it records the activity as rejected and panics again. *)
Definition onPanic {A} (activityType : string) (m : Mw A) : Mw A := λ w,
  match m w with
  | (w', Panic msg) => (_ ← recordActivityMetric g "rejected" activityType "internal"; panic msg) w'
  | r => r
  end.
Definition handleInbox (request : inRequest) (activityDecoder : inRequest → Mw (result (Activity * Actor * string)))
    : Mw reply :=
  if oneOf (inMethod request) ["GET"; "HEAD"] then
    mret (handleReadOnlyOrderedCollection request (acInbox (RelayActor g)) "GET, HEAD, POST")
  else if inMethod request =s "POST" then
    decoded ← onPanic "other" (activityDecoder request);
    '(activityType, response) ← match decoded with
      | Err _ => mret ("other", mkReply 400 ∅ "")
      | Ok (activity, actor, body) =>
          response ← onPanic (aType activity) (routeActivity activity actor body);
          mret (aType activity, response)
      end;
    let '(result_, reason) := classifyInboxMetric (rStatus response) in
    _ ← recordActivityMetric g result_ activityType reason;
    mret response
  else mret (methodNotAllowed "GET, HEAD, POST").
End inbox.
