(* ===== verification/InboxSpec.v ===== *)
(** * The inbox: what holds of every request

    The statuses of all answers, and the requests that must not have an effect. *)

From S2P Require Import Prelude GoStrings GoUrl Redis GoTime World Frame Observability.
From S2P Require Import PublicAddressPolicy RelayState Rfc9421 Json ActivityModel Queue QueueSpec Relay RelaySpec.
From S2P Require Import Decode Inbox.

Section inbox.
Context {S : Type} `{RedisLaws S} {PrivateKey : Type}.
Abbreviation W := (World S).
Variable g : Globals (S := S) (PrivateKey := PrivateKey).
Variable cache : ActorCache S.
Variable executor : option (RemoteRequestExecutor S).
Variables serviceName version serverHost : string.
Abbreviation route := (routeActivity g cache executor serviceName version serverHost).
Abbreviation handle := (handleInbox g cache executor serviceName version serverHost).
Abbreviation decoder := (inRequest → M W (result (Activity * Actor * string))).

Lemma runs_recordActivityMetric r t x : runs (nearby metricsKeyOnly) (recordActivityMetric g r t x).
Proof. by apply runs_whenEnabled, runs_increment_nearby. Qed.
Lemma onPanic_Done {A} t (m : M W A) w w' a : m w = (w', Done a) → onPanic g t m w = (w', Done a).
Proof. intros E. unfold onPanic. by rewrite E. Qed.
Lemma onPanic_inv {A} t (m : M W A) w w' a : onPanic g t m w = (w', Done a) → m w = (w', Done a).
Proof.
  unfold onPanic. destruct (m w) as [w1 [b|msg]]; [done|].
  destruct (runs_recordActivityMetric "rejected" t "internal" w1) as (w2 & u & E & _).
  erewrite bind_Done by exact E. done.
Qed.

(** A POST whose activity is decoded ends as its route does, with the metric recorded after it. *)
Lemma handle_decoded request (decode : decoder) w w1 w2 activity actor body response :
  inMethod request = "POST" → decode request w = (w1, Done (Ok (activity, actor, body))) →
  route activity actor body w1 = (w2, Done response) →
  ∃ w', handle request decode w = (w', Done response) ∧ nearby metricsKeyOnly w2 w'.
Proof.
  intros Hm Hd Hr. unfold handleInbox. rewrite Hm.
  change (oneOf "POST" ["GET"; "HEAD"]) with false. change ("POST" =s "POST") with true. cbv iota.
  erewrite bind_Done by (apply onPanic_Done; exact Hd).
  rewrite (bind_Done _ _ w1 w2 (aType activity, response))
    by by rewrite (bind_Done _ _ _ _ _ (onPanic_Done (aType activity) _ _ _ _ Hr)).
  destruct (classifyInboxMetric (rStatus response)) as [res reason].
  destruct (runs_recordActivityMetric res (aType activity) reason w2) as (w3 & u & E & N).
  exists w3. by erewrite bind_Done by exact E.
Qed.

(** A POST that is not decoded is answered 400, with the metric recorded. *)
Lemma handle_undecoded request (decode : decoder) w w1 e :
  inMethod request = "POST" → decode request w = (w1, Done (Err e)) →
  ∃ w', handle request decode w = (w', Done (mkReply 400 ∅ "")) ∧ nearby metricsKeyOnly w1 w'.
Proof.
  intros Hpost Hfail. unfold handleInbox. rewrite Hpost.
  change (oneOf "POST" ["GET"; "HEAD"]) with false. change ("POST" =s "POST") with true. cbv iota.
  erewrite bind_Done by (apply onPanic_Done; exact Hfail). erewrite bind_Done by reflexivity.
  destruct (runs_recordActivityMetric "rejected" "other" "invalid" w1) as (w2 & u & E & N).
  exists w2. split; [|exact N]. cbn [rStatus]. change (classifyInboxMetric 400) with ("rejected", "invalid"). cbv beta iota.
  by erewrite bind_Done by exact E.
Qed.

(** a request the decoder does not authenticate is answered 400 and has no effect but what
    the decoder itself did and the metrics: nothing is stored, started or sent. *)
Theorem inbox_rejects_undecoded (request : inRequest) (decode : decoder) (w w1 : World S) (e : error)
    (Hpost : inMethod request = "POST") (Hfail : decode request w = (w1, Done (Err e))) :
  ∃ w', handle request decode w = (w', Done (mkReply 400 ∅ "")) ∧ nearby metricsKeyOnly w1 w'.
Proof. exact (handle_undecoded _ _ _ _ _ Hpost Hfail). Qed.

(** ** Statuses *)

(** Every answer of a computation has one of these statuses. *)
Definition answersIn (l : list Z) (m : M W reply) : Prop := ∀ w w' r, m w = (w', Done r) → rStatus r ∈ l.
Lemma answersIn_ret l r : rStatus r ∈ l → answersIn l (mret r).
Proof. intros Hr w w' r' [= _ <-]. done. Qed.
Lemma answersIn_bind l {A} (m : M W A) f : (∀ a, answersIn l (f a)) → answersIn l (m ≫= f).
Proof.
  intros Hf w w' r. unfold mbind, M_bind. destruct (m w) as [w1 [a|msg]]; [|done]. apply Hf.
Qed.
Lemma answer_status (l : list Z) r : 202 ∈ l → 401 ∈ l → rStatus (answer r) ∈ l.
Proof. by destruct r. Qed.
Ltac statuses := first [set_solver | apply answer_status; set_solver].
Ltac answers := repeat first
  [ apply answersIn_ret; statuses | apply answersIn_bind; intros ?
  | match goal with
    | |- answersIn _ (if _ then _ else _) => case_match
    | |- answersIn _ (match _ with _ => _ end) => case_match
    end ].
Lemma route_answers activity actor body : answersIn [202; 400; 401] (route activity actor body).
Proof.
  unfold routeActivity, inboxPublic, inboxLitePub, inboxExcluded, inboxOther, inboxFollow, inboxUndo,
    inboxAnswered, inboxAnnounce. answers.
Qed.

(** every answered request has a documented outcome.  GET and HEAD get the empty collection
    and other methods 405, without any effect; a POST is answered 202, 400 or 401. *)
Theorem inbox_answers (request : inRequest) (decode : decoder) (w w' : World S) (r : reply)
    (Hrun : handle request decode w = (w', Done r)) :
  (inMethod request = "POST" → rStatus r ∈ [202; 400; 401])
  ∧ (inMethod request ≠ "POST" → w' = w
     ∧ if oneOf (inMethod request) ["GET"; "HEAD"]
       then rStatus r = 200 ∧ (inMethod request = "HEAD" → rBody r = "")
       else r = mkReply 405 {["Allow" := ["GET, HEAD, POST"]]} "").
Proof.
  revert Hrun. unfold handleInbox. destruct (oneOf (inMethod request) ["GET"; "HEAD"]) eqn:Em.
  - unfold handleReadOnlyOrderedCollection, writeActivityPubJSON. rewrite Em. intros [= <- <-].
    split; [by intros E; rewrite E in Em|]. intros _. split; [done|]. split; [done|]. by intros ->.
  - destruct (inMethod request =s "POST") eqn:Ep.
    + apply eqs_true in Ep. intros (w1 & d & _ & Hrun)%bind_inv. split; [intros _|done].
      apply bind_inv in Hrun as (w2 & [t response] & Hr & Hrun).
      destruct (classifyInboxMetric _) as [res reason]. apply bind_inv in Hrun as (w3 & u & _ & Hrun).
      injection Hrun as _ <-. destruct d as [[[activity actor] body]|e].
      * apply bind_inv in Hr as (w4 & r' & Hr & E). injection E as _ _ <-.
        by apply onPanic_inv, route_answers in Hr.
      * injection Hr as _ _ <-. cbn. set_solver.
    + apply eqs_false in Ep. intros [= <- <-]. split; [done|]. intros _. by split.
Qed.

(** ** Who may use the relay *)

Definition contentTypes : list string := ["Create"; "Update"; "Delete"; "Move"; "Announce"].
Lemma contentTypes_split t : oneOf t contentTypes = true →
  oneOf t ["Create"; "Update"; "Delete"; "Move"] = true ∨ oneOf t ["Create"; "Update"; "Delete"; "Move"] = false ∧ t = "Announce".
Proof.
  unfold oneOf, contentTypes. cbn. destruct (t =s "Announce") eqn:E; [apply eqs_true in E as ->; by right|].
  intros Ht. left. by destruct (t =s "Create"), (t =s "Update"), (t =s "Delete"), (t =s "Move").
Qed.

(** content from a blocked domain, publicly addressed, is answered 401 with the reason, and
    nothing but the metrics changes. *)
Theorem inbox_refuses_blocked (request : inRequest) (decode : decoder) (w w1 : World S)
    (activity : Activity) (actor : Actor) (body domain : string) (Hpost : inMethod request = "POST")
    (Hdec : decode request w = (w1, Done (Ok (activity, actor, body))))
    (Hpublic : shouldDistributeByPublicAddress activity (DistributionPolicy g) = true)
    (Htype : oneOf (aType activity) contentTypes = true)
    (Hdom : actorDomain actor domain) (Hblocked : domain ∈ blockedDomains (w_relay w1)) :
  ∃ w', handle request decode w = (w', Done (mkReply 401 ∅ (domain +:+ " is blocked")))
    ∧ nearby metricsKeyOnly w1 w'.
Proof.
  eapply handle_decoded; [done|exact Hdec|]. unfold routeActivity. cbv zeta.
  unfold configuredPublicAddressDistributionPolicy. rewrite Hpublic. unfold inboxPublic.
  assert (Hb : bool_decide (domain ∈ blockedDomains (w_relay w1)) = true) by by apply bool_decide_eq_true_2.
  destruct (contentTypes_split _ Htype) as [Ht|[Ht Ha]]; rewrite Ht.
  - unfold executeRelayActivity. erewrite bind_Done by (rewrite (withRelayableActor_run _ _ _ _ Hdom), Hb; reflexivity). done.
  - rewrite Ha. change ("Announce" =s "Announce") with true. cbv iota. unfold executePublicAnnounce.
    case_match.
    + unfold executeEmbeddedAnnounceActivity.
      erewrite bind_Done by (rewrite (withRelayableActor_run _ _ _ _ Hdom), Hb; reflexivity). done.
    + erewrite bind_Done by (rewrite (recordPublisher_run _ _ _ _ Hdom), Hb; reflexivity). done.
Qed.

(** Addressed to the relay or to a follower's followers, by the relay state. *)
Definition toRelay (activity : Activity) (st : RelayState) : bool :=
  let mine entries := existsb (λ entry, HasSuffix entry "/followers"
      && existsb (λ f, (folActorID f +:+ "/followers") =s entry) (Followers st)) entries in
  containsList (aTo activity) (acID (RelayActor g)) || containsList (aCc activity) (acID (RelayActor g))
  || mine (aTo activity) || mine (aCc activity).
Lemma addressedToRelay_run activity (w : W) : addressedToRelay g activity w = (w, Done (toRelay activity (w_relay w))).
Proof.
  unfold addressedToRelay, toRelay. destruct (containsList (aTo activity) _ || containsList (aCc activity) _); [done|].
  cbn [orb]. unfold isToMyFollower at 1. erewrite bind_Done by reflexivity.
  by destruct (existsb _ (aTo activity)).
Qed.

(** an Announce sent to the relay by a domain that is neither a subscriber nor a follower is
    answered 401 and nothing but the metrics changes: the announced object is not fetched. *)
Theorem inbox_announce_needs_follow (request : inRequest) (decode : decoder) (w w1 : World S)
    (activity : Activity) (actor : Actor) (body : string) (Hpost : inMethod request = "POST")
    (Hdec : decode request w = (w1, Done (Ok (activity, actor, body))))
    (Hprivate : shouldDistributeByPublicAddress activity (DistributionPolicy g) = false)
    (Hto : toRelay activity (w_relay w1) = true) (Htype : aType activity = "Announce")
    (Hsub : subscribersByDomain (w_relay w1) !! normalizedActorDomain (parseOrNil (aActor activity)) = None)
    (Hfol : followersByDomain (w_relay w1) !! normalizedActorDomain (parseOrNil (aActor activity)) = None) :
  ∃ w', handle request decode w
      = (w', Done (mkReply 401 ∅ "to use the relay service, please follow in advance"))
    ∧ nearby metricsKeyOnly w1 w'.
Proof.
  eapply handle_decoded; [done|exact Hdec|]. unfold routeActivity. cbv zeta.
  unfold configuredPublicAddressDistributionPolicy. rewrite Hprivate.
  erewrite bind_Done by apply addressedToRelay_run. rewrite Hto. unfold inboxLitePub. rewrite Htype.
  change ("Announce" =s "Follow") with false. change ("Announce" =s "Undo") with false.
  change (oneOf "Announce" ["Accept"; "Reject"]) with false. change ("Announce" =s "Announce") with true. cbv iota.
  unfold inboxAnnounce. cbv zeta. unfold isActorSubscribersOrFollowers, IsSubscriberOrFollower.
  erewrite bind_Done by (erewrite bind_Done by reflexivity; reflexivity). by rewrite Hsub, Hfol.
Qed.

(** C32: under [explicit_public_only], an activity with Public only in [cc] that is not addressed to
    the relay is never distributed, whatever its type: no delivery is started, queued or sent (its
    publisher may be recorded). *)
Theorem inbox_never_distributes_excluded (request : inRequest) (decode : decoder) (w w1 : World S)
    (activity : Activity) (actor : Actor) (body domain : string) (Hpost : inMethod request = "POST")
    (Hdec : decode request w = (w1, Done (Ok (activity, actor, body))))
    (Hpolicy : DistributionPolicy g = PublicAddressExplicitPublicOnly)
    (Hto : activityStreamsPublicAddress ∉ aTo activity) (Hcc : activityStreamsPublicAddress ∈ aCc activity)
    (Hother : toRelay activity (w_relay w1) = false) (Hdom : actorDomain actor domain) :
  ∃ w' r, handle request decode w = (w', Done r) ∧ unsent w1 w'.
Proof.
  assert (Hnt : containsPublicAddress (aTo activity) = false).
  { destruct (containsPublicAddress (aTo activity)) eqn:E; [|done]. by apply containsPublicAddress_true in E. }
  apply containsPublicAddress_true in Hcc.
  assert (Hr : ∃ w2 r, route activity actor body w1 = (w2, Done r) ∧ unsent w1 w2).
  { unfold routeActivity, configuredPublicAddressDistributionPolicy, shouldDistributeByPublicAddress,
      isPublicOnlyInCCExcluded, Allows, ExcludesPublicOnlyInCC. cbv zeta. rewrite Hpolicy, Hnt, Hcc.
    change (PublicAddressExplicitPublicOnly =s PublicAddressPublicAndUnlisted) with false.
    change (PublicAddressExplicitPublicOnly =s PublicAddressExplicitPublicOnly) with true. cbn [andb negb].
    erewrite bind_Done by apply addressedToRelay_run. rewrite Hother.
    unfold inboxExcluded, executePolicyExcludedPublicActivity. case_match.
    - pose proof (recordPublisher_run activity actor domain w1 Hdom) as Er.
      assert (Hu : ∃ w2 r, recordPublisherActivity activity actor w1 = (w2, Done r) ∧ unsent w1 w2).
      { rewrite Er. case_match; [by eexists _, _|]. case_match; [|by eexists _, _].
        apply unsent_RecordPublisherActivity. }
      destruct Hu as (w2 & r & E2 & U2). exists w2, (answer r). by erewrite bind_Done by exact E2.
    - eexists _, _. by erewrite bind_Done by reflexivity. }
  destruct Hr as (w2 & r & E & U). destruct (handle_decoded request decode w w1 w2 _ _ _ _ Hpost Hdec E) as (w' & E' & N).
  exists w', r. split; [exact E'|]. etransitivity; [exact U|]. destruct N as (_ & B & _). destruct_and?.
  by repeat split.
Qed.
End inbox.

(** ** Witnesses *)

Definition inboxPost : inRequest :=
  mkIn "POST" (Some (mkURL "" "" None "" "/inbox" "" false false "" "" "")) "relay.example" ∅ (Some ("{}", None)).
Definition decodesTo (r : result (Activity * Actor * string)) (request : inRequest)
  : M (World Calm) (result (Activity * Actor * string)) := mret r.
Definition exampleInbox (g : Globals (S := Calm) (PrivateKey := unit)) (r : result (Activity * Actor * string)) :=
  handleInbox g mapCache None "relay" "1" "relay.example" inboxPost (decodesTo r).
Definition explicitGlobals : Globals (S := Calm) (PrivateKey := unit) :=
  mkGlobals 1000 3 1048576 PublicAddressExplicitPublicOnly exampleActor None true (λ _, None).
Definition exampleAnnounce : Activity :=
  mkActivity None "https://mixed.example/3" "https://Mixed.example/users/alice" "Announce"
    (Some (JString "https://o.example/1")) ["https://relay.example/actor"] [].
Definition unlistedCreate : Activity :=
  mkActivity None "https://mixed.example/4" "https://Mixed.example/users/alice" "Create"
    (Some (JString "https://mixed.example/notes/4")) [] [activityStreamsPublicAddress].

Lemma inbox_rejects_undecoded_witness : ∃ w',
  exampleInbox exampleGlobals (Err (errorsNew "bad signature")) (relayWorld ∅ false) = (w', Done (mkReply 400 ∅ ""))
  ∧ nearby metricsKeyOnly (relayWorld ∅ false) w'.
Proof.
  apply (inbox_rejects_undecoded exampleGlobals mapCache None "relay" "1" "relay.example" inboxPost
    (decodesTo (Err (errorsNew "bad signature"))) (relayWorld ∅ false) (relayWorld ∅ false) (errorsNew "bad signature")).
  - reflexivity.
  - reflexivity.
Defined.

Definition exampleAnswered : World Calm * outcome reply :=
  exampleInbox exampleGlobals (Ok (exampleCreate, remoteActor None, "{}")) (relayWorld ∅ false).
Lemma exampleAnswered_ok : exampleAnswered = (exampleAnswered.1, Done (mkReply 202 ∅ "")).
Proof.
  assert (E : exampleAnswered.2 = Done (mkReply 202 ∅ "")) by (vm_compute; reflexivity).
  rewrite <- E. apply surjective_pairing.
Qed.
Lemma inbox_answers_witness : 202 ∈ [202; 400; 401].
Proof.
  destruct (inbox_answers exampleGlobals mapCache None "relay" "1" "relay.example" inboxPost
    (decodesTo (Ok (exampleCreate, remoteActor None, "{}"))) (relayWorld ∅ false) exampleAnswered.1
    (mkReply 202 ∅ "") exampleAnswered_ok) as [Hpost _].
  exact (Hpost eq_refl).
Defined.

Lemma inbox_refuses_blocked_witness : ∃ w',
  exampleInbox exampleGlobals (Ok (exampleCreate, remoteActor None, "{}")) (relayWorld {["mixed.example"]} false)
    = (w', Done (mkReply 401 ∅ ("mixed.example" +:+ " is blocked")))
  ∧ nearby metricsKeyOnly (relayWorld {["mixed.example"]} false) w'.
Proof.
  apply (inbox_refuses_blocked exampleGlobals mapCache None "relay" "1" "relay.example" inboxPost
    (decodesTo (Ok (exampleCreate, remoteActor None, "{}"))) (relayWorld {["mixed.example"]} false)
    (relayWorld {["mixed.example"]} false) exampleCreate (remoteActor None) "{}" "mixed.example").
  - reflexivity.
  - reflexivity.
  - vm_compute. reflexivity.
  - vm_compute. reflexivity.
  - apply remoteActor_domain.
  - change (blockedDomains _) with ({["mixed.example"]} : gset string). apply elem_of_singleton. reflexivity.
Defined.

Lemma inbox_announce_needs_follow_witness : ∃ w',
  exampleInbox exampleGlobals (Ok (exampleAnnounce, remoteActor None, "{}")) (relayWorld ∅ false)
    = (w', Done (mkReply 401 ∅ "to use the relay service, please follow in advance"))
  ∧ nearby metricsKeyOnly (relayWorld ∅ false) w'.
Proof.
  apply (inbox_announce_needs_follow exampleGlobals mapCache None "relay" "1" "relay.example" inboxPost
    (decodesTo (Ok (exampleAnnounce, remoteActor None, "{}"))) (relayWorld ∅ false) (relayWorld ∅ false)
    exampleAnnounce (remoteActor None) "{}").
  1,2: reflexivity.
  all: vm_compute; reflexivity.
Defined.

Lemma inbox_never_distributes_excluded_witness : ∃ w' r,
  exampleInbox explicitGlobals (Ok (unlistedCreate, remoteActor None, "{}")) (relayWorld ∅ false) = (w', Done r)
  ∧ unsent (relayWorld ∅ false) w'.
Proof.
  apply (inbox_never_distributes_excluded explicitGlobals mapCache None "relay" "1" "relay.example" inboxPost
    (decodesTo (Ok (unlistedCreate, remoteActor None, "{}"))) (relayWorld ∅ false) (relayWorld ∅ false)
    unlistedCreate (remoteActor None) "{}" "mixed.example").
  - reflexivity.
  - reflexivity.
  - reflexivity.
  - apply not_elem_of_nil.
  - apply list_elem_of_here.
  - vm_compute. reflexivity.
  - apply remoteActor_domain.
Defined.
