(* ===== verification/ReplaySpec.v ===== *)
(** * Replayed activities

    The inbox composed with inbound authentication and the nonce store: what happens to a
    signature that was accepted once, from the request to its answer. *)

From S2P Require Import Prelude GoStrings GoUrl Sha256 Redis GoTime World Frame Observability.
From S2P Require Import Negotiation Signer NegotiationSpec HttpClient DoGet Rfc9421 Rfc9421Spec Json ActivityModel Queue QueueSpec Decode DecodeSpec Inbox InboxSpec.

(** Computations that keep a relation however they end, a panic included. *)
Section preserves.
Context {W : Type} (R : relation W) `{!PreOrder R}.
Definition preserves {A} (m : M W A) : Prop := ∀ w, R w (m w).1.
Lemma preserves_ret {A} (a : A) : preserves (mret a).
Proof. intros w. reflexivity. Qed.
Lemma preserves_bind {A B} (m : M W A) (f : A → M W B) : preserves m → (∀ a, preserves (f a)) → preserves (m ≫= f).
Proof.
  intros Hm Hf w. specialize (Hm w). unfold mbind, M_bind. destruct (m w) as [w1 [a|msg]]; [|exact Hm].
  etransitivity; [exact Hm|apply Hf].
Qed.
Lemma preserves_bindErr {A B} (m : M W (result A)) (f : A → M W (result B)) :
  preserves m → (∀ a, preserves (f a)) → preserves (bindErr m f).
Proof. intros Hm Hf. apply preserves_bind; [done|]. intros [a|e]; [apply Hf|apply preserves_ret]. Qed.
Lemma preserves_run {A} (m : M W A) w w' o : preserves m → m w = (w', o) → R w w'.
Proof. intros Hm E. specialize (Hm w). by rewrite E in Hm. Qed.
End preserves.
Ltac preserves_auto := repeat match goal with
  | |- preserves _ (mret _) => apply preserves_ret; typeclasses eauto
  | |- preserves _ (_ ≫= _) => apply preserves_bind; [typeclasses eauto| |intros ?]
  | |- preserves _ (bindErr _ _) => apply preserves_bindErr; [typeclasses eauto| |intros ?]
  | |- preserves _ (if _ then _ else _) => case_match
  | |- preserves _ (match _ with _ => _ end) => case_match
  end; eauto.

Section replay.
Context {S : Type} `{RedisLaws S} {PrivateKey PublicKey Base : Type}.
Abbreviation W := (World S).

#[local] Instance liveKeysKept_preorder prefix : PreOrder (liveKeysKept (S := S) prefix).
Proof. split; [exact (liveKeysKept_refl prefix)|typeclasses eauto]. Qed.

(** The stored nonces, while they live. *)
Abbreviation noncesKept := (liveKeysKept (S := S) defaultRFC9421NoncePrefix).

Variable g : Globals (S := S) (PrivateKey := PrivateKey).
Variable legacyVerifier : inRequest → result (string * (PublicKey → result unit)).
Variable readPublicKey : string → result (option PublicKey).
Variable lib : SigLib PublicKey Base.
Variable cache : ActorCache S.
Variable executor : option (RemoteRequestExecutor S).
Variables serviceName version serverScheme serverHost : string.
Abbreviation decode := (decodeActivity g legacyVerifier readPublicKey lib cache executor serviceName version serverHost).
Abbreviation handle := (handleInbox g cache executor serviceName version serverHost).
Abbreviation inboundVerifier := (newInboundRFC9421Verifier readPublicKey cache executor serviceName version serverScheme serverHost).
Abbreviation fetch := (fetchActor cache executor serviceName version serverHost).

(** The actor cache and the remote request executor leave the stored nonces alone. *)
Record FetchKeepsNonces : Prop := {
  fk_get : ∀ k, preserves noncesKept (cacheGet cache k);
  fk_set : ∀ k v, preserves noncesKept (cacheSet cache k v);
  fk_delete : ∀ k, preserves noncesKept (cacheDelete cache k);
  fk_do : ∀ doGET u h, executor = Some doGET → preserves noncesKept (doGET u h) }.

Lemma nearby_noncesKept w w' : nearby metricsKeyOnly w w' → noncesKept w w'.
Proof.
  intros (_ & _ & Hms & _ & Hk). split; [exact Hms|]. intros k e Hp He _. rewrite Hk; [exact He|].
  intros Hm. unfold metricsKeyOnly in Hm. subst k. vm_compute in Hp. discriminate Hp.
Qed.

Lemma fetch_keeps url : FetchKeepsNonces → preserves noncesKept (fetch url).
Proof.
  intros [Hg Hs Hd Hx]. unfold fetchActor, NewActivityPubActorFromRemoteActor. cbv zeta.
  set (load := bindErr _ _). assert (Hload : preserves noncesKept load).
  { unfold load, fetchRemoteJSON. preserves_auto. }
  clearbody load. preserves_auto.
Qed.
Lemma resolve_keeps keyID : FetchKeepsNonces →
  preserves noncesKept (ResolveRFC9421Key readPublicKey cache executor serviceName version serverHost keyID).
Proof. intros HK. unfold ResolveRFC9421Key. cbv zeta. pose proof fetch_keeps. preserves_auto. Qed.

(** The verifier the API process builds. *)
Lemma inboundVerifier_ok vf : inboundVerifier = Ok vf →
  vfNonceStore vf = ReserveRFC9421Nonce defaultRFC9421NoncePrefix ∧ vfNow vf = timeNow
  ∧ vfKeyResolver vf = ResolveRFC9421Key readPublicKey cache executor serviceName version serverHost
  ∧ vfReplayTTL vf = DefaultRFC9421ReplayTTL.
Proof.
  unfold newInboundRFC9421Verifier, NewRFC9421Verifier. cbn [voScheme voAuthority voKeyResolver voNonceStore
    voMaximumAge voFutureSkew voReplayTTL voNow].
  destruct (_ && _); [done|]. destruct (_ =s ""); [done|].
  change (0 =? 0) with true. cbv iota. change (DefaultRFC9421MaximumAge <? Second) with false.
  change (DefaultRFC9421FutureSkew <? 0) with false.
  change (DefaultRFC9421ReplayTTL <? wrap64 (DefaultRFC9421MaximumAge + DefaultRFC9421FutureSkew)) with false.
  cbv iota. intros [= <-]. done.
Qed.
Lemma timeNow_keeps : preserves noncesKept timeNow.
Proof.
  intros w. apply nearby_noncesKept. destruct (runs_timeNow metricsKeyOnly w) as (w' & t & E & N).
  rewrite E. exact N.
Qed.

(** An accepted request was verified, and its nonce is stored when decoding ends. *)
Lemma decoded_verified vf request w w' d : FetchKeepsNonces →
  headerValues (inHeader request) "Signature-Input" ≠ [] →
  decode (Some vf) request w = (w', Done (Ok d)) →
  ∃ body w1 v, VerifyPOST lib (Some vf) request body w = (w1, Done (Ok v)) ∧ noncesKept w1 w'.
Proof.
  intros HK Hrfc Hok. destruct d as [[activity actor] body].
  apply decodeActivity_ok in Hok as (_ & _ & wd & Hrun & N). unfold selectInboundSignatureProfile in Hrun.
  destruct (headerValues (inHeader request) "Signature-Input"); [done|].
  change (inboundSignatureProfileRFC9421 =s inboundSignatureProfileRFC9421) with true in Hrun.
  apply bindErr_done in Hrun as (w1 & v & Hv & Hrun). exists body, w1, v. split; [exact Hv|].
  transitivity wd; [|exact (nearby_noncesKept _ _ N)]. refine (preserves_run _ _ _ _ _ _ Hrun).
  pose proof fetch_keeps. preserves_auto.
Qed.

(** Two requests whose ActivityPub signatures name the same key and carry the same nonce. *)
Definition sameNonce (vf : RFC9421Verifier S PublicKey) (r1 r2 : inRequest) : Prop :=
  ∀ u1 m1 u2 m2, selectMessage lib vf r1 = Ok (u1, m1) → selectMessage lib vf r2 = Ok (u2, m2) →
    KeyID (Input m1) = KeyID (Input m2) ∧ Nonce (Input m1) = Nonce (Input m2).
Lemma sameNonce_refl vf r : sameNonce vf r r.
Proof. intros u1 m1 u2 m2 E1 E2. rewrite E1 in E2. by injection E2 as <- <-. Qed.
Lemma verified_sameNonce vf r1 r2 b1 b2 w1 w1' w2 w2' v1 v2 : sameNonce vf r1 r2 →
  VerifyPOST lib (Some vf) r1 b1 w1 = (w1', Done (Ok v1)) →
  VerifyPOST lib (Some vf) r2 b2 w2 = (w2', Done (Ok v2)) →
  vKeyID v1 = vKeyID v2 ∧ vNonce v1 = vNonce v2.
Proof.
  intros Hs (? & ? & ? & m1 & ? & _ & _ & [_ (u1 & _ & E1 & _) _ _ _] & _ & ->)%VerifyPOST_ok
    (? & ? & ? & m2 & ? & _ & _ & [_ (u2 & _ & E2 & _) _ _ _] & _ & ->)%VerifyPOST_ok.
  exact (Hs _ _ _ _ E1 E2).
Qed.
Lemma verified_clock vf request body w w' v : FetchKeepsNonces → inboundVerifier = Ok vf →
  VerifyPOST lib (Some vf) request body w = (w', Done (Ok v)) → rs_ms (w_redis w) ≤ rs_ms (w_redis w').
Proof.
  intros HK (Hs & Hn & Hr & _)%inboundVerifier_ok (w1 & now & w2 & m & res & En & Ek & _ & Es & _)%VerifyPOST_ok.
  rewrite Hn in En. rewrite Hr in Ek. rewrite Hs in Es. apply Reserve_true in Es as (_ & _ & C3).
  pose proof (preserves_run _ _ _ _ _ timeNow_keeps En) as [C1 _].
  pose proof (preserves_run _ _ _ _ _ (resolve_keeps _ HK) Ek) as [C2 _]. lia.
Qed.

(** C15: an activity accepted under RFC 9421 is not accepted again: while its nonce is remembered
    (less than ten minutes of the Redis clock since the first request came in), a POST whose
    signature names the same key and carries the same nonce, the same request in particular, is
    answered 400, whatever was done in between that leaves the stored nonces alone, and nothing
    happens for it but its decoding and the metrics: no activity is stored, started or sent. *)
Theorem replayed_activity_is_refused (vf : RFC9421Verifier S PublicKey) (first again : inRequest)
    (w0 w1 w2 w3 : W) (accepted : Activity * Actor * string) (second : result (Activity * Actor * string))
    (Hverifier : inboundVerifier = Ok vf) (Hkeeps : FetchKeepsNonces)
    (Hrfc : headerValues (inHeader first) "Signature-Input" ≠ [])
    (Hfirst : decode (Some vf) first w0 = (w1, Done (Ok accepted)))
    (Hbetween : noncesKept w1 w2)
    (Hpost : inMethod again = "POST") (Hagain : headerValues (inHeader again) "Signature-Input" ≠ [])
    (Hsame : sameNonce vf first again)
    (Hsecond : decode (Some vf) again w2 = (w3, Done second))
    (Htime : rs_ms (w_redis w3) < rs_ms (w_redis w0) + 600000) :
  ∃ w', handle again (decode (Some vf)) w2 = (w', Done (mkReply 400 ∅ "")) ∧ nearby metricsKeyOnly w3 w'.
Proof.
  destruct second as [d|e]; [exfalso|exact (handle_undecoded _ _ _ _ _ _ _ _ _ _ _ Hpost Hsecond)].
  apply (decoded_verified _ _ _ _ _ Hkeeps Hrfc) in Hfirst as (b1 & x1 & v1 & V1 & K1).
  apply (decoded_verified _ _ _ _ _ Hkeeps Hagain) in Hsecond as (b2 & x2 & v2 & V2 & [C2 _]).
  pose proof (verified_clock _ _ _ _ _ _ Hkeeps Hverifier V1) as C1.
  destruct (inboundVerifier_ok vf Hverifier) as (Hs & Hn & Hr & Ht).
  assert (Hkept : noncesKept x1 w2) by by transitivity w1.
  pose proof (nonce_accepted_once lib defaultRFC9421NoncePrefix vf first again b1 b2 w0 x1 w2 x2 v1 v2 Hs) as Honce.
  rewrite Hn, Hr, Ht in Honce.
  specialize (Honce timeNow_keeps (λ k, resolve_keeps k Hkeeps) V1 Hkept V2 (verified_sameNonce _ _ _ _ _ _ _ _ _ _ _ Hsame V1 V2)).
  change (ttlMs DefaultRFC9421ReplayTTL) with 600000 in Honce. lia.
Qed.
End replay.

(** ** The relay's own fetches leave the nonces alone *)

Section fetching.
Context {S : Type} `{RedisLaws S} {PrivateKey Message : Type}.
Variable httpdate : Time → string.
Variable legacySign : PrivateKey → string → list string → string → outRequest → result outRequest.
Variable rfcSign : PrivateKey → string → list string → outRequest → result Message.
Variable rfcInclude : Message → outRequest → result outRequest.
Variable unmarshal : list string → result sfvDictionary.
Variable marshalDigest : list ascii → result string.
Variable signer : option (ConfiguredSigner (S := S) (PrivateKey := PrivateKey)).
Variable sensitive : URL → URL → bool.
Abbreviation noncesKept := (liveKeysKept (S := S) defaultRFC9421NoncePrefix).
#[local] Existing Instance liveKeysKept_preorder.

(** A fixed profile, or negotiation with the wall clock and the store [NewNegotiatingSigner] makes. *)
Definition relaySigner : Prop := ∀ ng, signer ≫= csNegotiator = Some ng → ngNow ng = timeNow
  ∧ ∀ store, ngStore ng = Some store →
      store = RedisDestinationCapabilityStore (NewRedisDestinationCapabilityStore "").
Hypothesis Hsigner : relaySigner.

Lemma redis_keeps {A} (ks : string → Prop) (c : Rcmd A) : touches ks c →
  (∀ k, ks k → HasPrefix k defaultRFC9421NoncePrefix = false) → preserves noncesKept (redis c).
Proof.
  intros Hc Hks w. destruct (redisOnly_redis ks c w Hc) as (_ & _ & Hms & _ & Hk). split; [exact Hms|].
  intros k e Hp He _. rewrite Hk; [exact He|]. intros Hin. rewrite (Hks k Hin) in Hp. discriminate Hp.
Qed.
Lemma capabilityKey_apart scope origin :
  HasPrefix (capabilityKey (NewRedisDestinationCapabilityStore "") scope origin) defaultRFC9421NoncePrefix = false.
Proof. reflexivity. Qed.
Lemma load_keeps scope origin :
  preserves noncesKept (loadCapability (S := S) (NewRedisDestinationCapabilityStore "") scope origin).
Proof.
  unfold loadCapability. preserves_auto. apply (redis_keeps (λ _, False)); [|tauto].
  apply touches_readOnly, HGETALL_readOnly.
Qed.
Lemma save_keeps capability :
  preserves noncesKept (saveCapability (S := S) (NewRedisDestinationCapabilityStore "") capability).
Proof.
  unfold saveCapability. pose proof (timeNow_keeps (S := S)). preserves_auto.
  eapply (redis_keeps (λ k, k = capabilityKey _ _ _)); [|by intros k ->; apply capabilityKey_apart].
  by apply touches_saveCapabilityScript.
Qed.

Lemma observation_keeps ng d p e ttl : signer ≫= csNegotiator = Some ng →
  preserves noncesKept (saveObservation (Some ng) DestinationScopeFetch d p e ttl).
Proof.
  intros [Hn Hs]%Hsigner. unfold saveObservation. destruct (ngStore ng) as [store|]; [|preserves_auto].
  rewrite (Hs store eq_refl), Hn. cbn [SaveDestinationCapability RedisDestinationCapabilityStore].
  pose proof (timeNow_keeps (S := S)). pose proof save_keeps. preserves_auto.
Qed.
Lemma plan_keeps d : preserves noncesKept (signerPlan signer DestinationScopeFetch d).
Proof.
  unfold signerPlan. destruct signer as [cs|] eqn:Es; [|preserves_auto].
  destruct (csNegotiator cs) as [ng|] eqn:En; [|preserves_auto].
  destruct (Hsigner ng) as [Hn Hs]; [by rewrite Es|]. unfold Plan. rewrite Hn.
  destruct (ngStore ng) as [store|]; [|preserves_auto]. rewrite (Hs store eq_refl).
  cbn [LoadDestinationCapability RedisDestinationCapabilityStore]. unfold Fresh.
  pose proof (timeNow_keeps (S := S)). pose proof load_keeps. preserves_auto.
Qed.
Lemma observe_keeps d p c h : preserves noncesKept (observeBestEffort unmarshal signer DestinationScopeFetch d p c h).
Proof.
  unfold observeBestEffort, ObserveResponse. destruct (signer ≫= csNegotiator) as [ng|] eqn:En; [|preserves_auto].
  unfold ObserveRFC9421Success, ObserveExplicitRFC9421Rejection.
  pose proof (λ d p e ttl, observation_keeps ng d p e ttl En). preserves_auto.
Qed.
Lemma learn_keeps d : preserves noncesKept (observeLegacyFallbackBestEffort signer d).
Proof.
  unfold observeLegacyFallbackBestEffort. destruct (signer ≫= csNegotiator) as [ng|] eqn:En; [|preserves_auto].
  unfold ObserveSuccessfulLegacyFallback. pose proof (λ d p e ttl, observation_keeps ng d p e ttl En). preserves_auto.
Qed.
Lemma signGET_keeps r p :
  preserves noncesKept (SignGETWithProfile httpdate legacySign rfcSign rfcInclude marshalDigest signer r p).
Proof.
  unfold SignGETWithProfile, signerSignGETWithProfile, SignGET, Signer.sign, signRFC9421, ensureDate.
  pose proof (timeNow_keeps (S := S)). preserves_auto.
Qed.
Lemma signPlanned_keeps r :
  preserves noncesKept (signPlannedGET httpdate legacySign rfcSign rfcInclude marshalDigest signer r).
Proof.
  unfold signPlannedGET. destruct (outURL r) as [u|]; [|intros w; reflexivity].
  pose proof plan_keeps. pose proof signGET_keeps. preserves_auto.
Qed.
Lemma httpDo_keeps r : preserves noncesKept (httpDo r).
Proof. intros w. split; [cbn; lia|]. intros k e _ He _. exact He. Qed.
Lemma follow_keeps {C} fuel (client : httpClient S C) ireq reqs req :
  (∀ redirect via, preserves noncesKept (default defaultCheckRedirect (CheckRedirect client) redirect via)) →
  preserves noncesKept (follow fuel client ireq reqs req).
Proof.
  intros Hc. revert reqs req. induction fuel as [|fuel IH]; intros reqs req; cbn [follow]; [intros w; reflexivity|].
  pose proof httpDo_keeps. preserves_auto. intros w. reflexivity.
Qed.
Lemma clientDo_keeps {C} (client : httpClient S C) req :
  (∀ redirect via, preserves noncesKept (default defaultCheckRedirect (CheckRedirect client) redirect via)) →
  preserves noncesKept (clientDo client req).
Proof. intros Hc. unfold clientDo. destruct (outURL _); [by apply follow_keeps|preserves_auto]. Qed.
Lemma redirect_keeps redirect via :
  preserves noncesKept (signingRedirect httpdate legacySign rfcSign rfcInclude marshalDigest signer None redirect via).
Proof. unfold signingRedirect. pose proof signPlanned_keeps. preserves_auto. Qed.

(** The executor of the relay's signed fetches, with its redirects, evidence and fallback. *)
Lemma remoteExecutor_keeps u h :
  preserves noncesKept (remoteExecutor httpdate legacySign rfcSign rfcInclude unmarshal marshalDigest signer sensitive u h).
Proof.
  unfold remoteExecutor, DoGET, fallbackGET. cbn [mbind option_bind cReq newGET outURL CheckRedirect remoteHTTPClient].
  set (client := mkHttpClient _ _).
  assert (Hclient : ∀ req, preserves noncesKept (clientDo client req))
    by (intros req; apply clientDo_keeps; intros redirect via; apply redirect_keeps).
  clearbody client. pose proof signPlanned_keeps. pose proof signGET_keeps. pose proof observe_keeps.
  pose proof learn_keeps. preserves_auto.
Qed.
Lemma relayFetch_keepsNonces (cache : ActorCache S) :
  (∀ k, preserves noncesKept (cacheGet cache k)) → (∀ k v, preserves noncesKept (cacheSet cache k v)) →
  (∀ k, preserves noncesKept (cacheDelete cache k)) →
  FetchKeepsNonces cache
    (Some (remoteExecutor httpdate legacySign rfcSign rfcInclude unmarshal marshalDigest signer sensitive)).
Proof. intros Hg Hs Hd. split; [done..|]. intros doGET u h [= <-]. apply remoteExecutor_keeps. Qed.
End fetching.

(** ** Witness *)

(** An executor that reaches nobody; the actor cache holds the documents. *)
Definition unreachable : RemoteRequestExecutor Calm := λ _ _, mret (Err (errorsNew "unreachable")).
Definition inboundExample : result (RFC9421Verifier Calm unit) :=
  newInboundRFC9421Verifier (λ _, Ok (Some tt)) mapCache (Some unreachable) "relay" "1" "https" "relay.example".
Definition inboundDecode (vf : RFC9421Verifier Calm unit) : inRequest → M (World Calm) (result (Activity * Actor * string)) :=
  decodeActivity exampleGlobals exampleLegacyVerifier (λ _, Ok (Some tt)) noteLib mapCache (Some unreachable)
    "relay" "1" "relay.example" (Some vf).
Lemma mapCache_keeps : FetchKeepsNonces mapCache (Some unreachable).
Proof.
  split; [intros k w|intros k v w|intros k w|intros f u h [= <-] w]; (split; [cbn; lia|]); intros key e _ He _; exact He.
Qed.
Definition firstAnswer (vf : RFC9421Verifier Calm unit) := inboundDecode vf rfcRequest cachedWorld.
Definition secondAnswer (vf : RFC9421Verifier Calm unit) := inboundDecode vf rfcRequest (firstAnswer vf).1.
Definition isAccepted {A} (o : outcome (result A)) : bool := match o with Done (Ok _) => true | _ => false end.
Definition exampleVerifier : RFC9421Verifier Calm unit :=
  match inboundExample with Ok vf => vf | Err _ => demoVerifier end.
Lemma firstAnswer_accepted : ∃ d, firstAnswer exampleVerifier = ((firstAnswer exampleVerifier).1, Done (Ok d)).
Proof.
  assert (E : isAccepted (firstAnswer exampleVerifier).2 = true) by (vm_compute; reflexivity).
  destruct (firstAnswer exampleVerifier) as [w [[d|e]|m]]; [by exists d|discriminate E|discriminate E].
Qed.
Lemma secondAnswer_done :
  secondAnswer exampleVerifier = ((secondAnswer exampleVerifier).1, Done (Err ErrRFC9421Replay)).
Proof.
  assert (E : (secondAnswer exampleVerifier).2 = Done (Err ErrRFC9421Replay)) by (vm_compute; reflexivity).
  rewrite <- E. apply surjective_pairing.
Qed.
Lemma replayed_activity_is_refused_witness : ∃ w',
  handleInbox exampleGlobals mapCache (Some unreachable) "relay" "1" "relay.example" rfcRequest
    (inboundDecode exampleVerifier) (firstAnswer exampleVerifier).1 = (w', Done (mkReply 400 ∅ ""))
  ∧ nearby metricsKeyOnly (secondAnswer exampleVerifier).1 w'.
Proof.
  destruct firstAnswer_accepted as [d Hd].
  apply (replayed_activity_is_refused exampleGlobals exampleLegacyVerifier (λ _, Ok (Some tt)) noteLib mapCache
    (Some unreachable) "relay" "1" "https" "relay.example" exampleVerifier rfcRequest rfcRequest cachedWorld
    (firstAnswer exampleVerifier).1 (firstAnswer exampleVerifier).1 (secondAnswer exampleVerifier).1 d
    (Err ErrRFC9421Replay)).
  - reflexivity.
  - exact mapCache_keeps.
  - vm_compute. discriminate.
  - exact Hd.
  - apply liveKeysKept_refl.
  - reflexivity.
  - vm_compute. discriminate.
  - apply sameNonce_refl.
  - exact secondAnswer_done.
  - vm_compute. reflexivity.
Defined.
