(* ===== verification/Deliver.v ===== *)
(** * The delivery worker (deliver/deliver.go, deliver/sender.go, internal/deliverymeta)

    The worker runs the tasks of the queue: [relay-v2] loads a stored body, signs
    and posts it to one inbox, records the outcome and, once the target is settled
    (delivered, or failed for the last time), takes it off the body's count of
    remaining targets.  What only reaches the log is left out, the readings of the
    clock for it are not.  The worker's HTTP client has no redirect policy of its own, so
    net/http follows up to nine redirects of a post.  Parameters: the signing libraries,
    net/http's rule for the sensitive header fields of a redirect, and machinery's
    [retry.FibonacciNext]. *)

From S2P Require Import Prelude GoStrings GoUrl Sha256 Redis GoTime World Observability.
From S2P Require Import ReceiverHealth Negotiation Signer HttpClient Json ActivityModel Queue.

(** ** What a body says about itself (internal/deliverymeta) *)

Definition maxIdentifierBytes : nat := 2048.
Record Metadata := mkMetadata {
  mdActivityID : string; mdActivityType : string; mdObjectID : string; mdActorID : string;
  mdOriginDomain : string; mdBodySHA256 : string }.

(** [identifier] and [textValue] of an [interface{}] that is not nil. *)
Fixpoint identifier (value : json) : string :=
  match value with
  | JString s => s
  | JObject ms => (fix member ms := match ms with
      | [] => ""
      | (k, v) :: ms => if k =s "id" then identifier v else member ms end) ms
  | JArray l => (fix entries l := match l with
      | [] => ""
      | v :: l => let found := identifier v in if negb (found =s "") then found else entries l end) l
  | _ => ""
  end.
Fixpoint textValue (value : json) : string :=
  match value with
  | JString s => s
  | JArray l => (fix entries l := match l with
      | [] => ""
      | v :: l => let found := textValue v in if negb (found =s "") then found else entries l end) l
  | _ => ""
  end.
Definition metadataDomain (identifier : string) : string :=
  match url_Parse identifier with
  | Err _ => ""
  | Ok parsed => ToLower (TrimSuffix (Hostname parsed) ".")
  end.
Definition bounded (value : string) : string :=
  let value := TrimSpace value in
  if len value <=? Z.of_nat maxIdentifierBytes then value else ofBytes (take maxIdentifierBytes (bytes value)).
(** The body as a [map[string]any]; a JSON null is the nil map. *)
Definition payloadOf (body : string) : result (list (string * json)) :=
  v ← jsonParse body;
  match v with
  | JNull => Ok []
  | JObject _ => v ← toInterface v; Ok (match v with JObject ms => ms | _ => [] end)
  | _ => Err errJsonType
  end.
Definition FromBody (body : string) : Metadata :=
  let sum := sha256Hex body in
  match payloadOf body with
  | Err _ => mkMetadata "" "" "" "" "" sum
  | Ok payload =>
      let at_ f k := match lookupMember k payload with Some v => f v | None => "" end in
      let actor := bounded (at_ identifier "actor") in
      mkMetadata (bounded (at_ identifier "id")) (bounded (at_ textValue "type"))
        (bounded (at_ identifier "object")) actor (metadataDomain actor) sum
  end.

(** ** Attempts *)

(** The fields of the task's signature the worker reads; [None] when it is called directly. *)
Record attemptSignature := mkAttemptSignature { sigUUID : string; sigRetryCount : Z; sigRetryTimeout : Z }.
Record deliveryAttempt := mkAttempt {
  TaskUUID : string; Attempt : Z; AttemptsMax : Z; RetriesRemaining : Z; NextRetrySeconds : Z; Terminal : bool }.

Definition currentDeliveryAttempt (FibonacciNext : Z → Z) (signature : option attemptSignature) : deliveryAttempt :=
  match signature with
  | None => mkAttempt "direct" 1 1 0 0 true
  | Some s =>
      let retriesRemaining := sigRetryCount s in
      let attempt := MaxAttempts - retriesRemaining in
      let attempt := if attempt <? 1 then 1 else attempt in
      let attempt := if MaxAttempts <? attempt then MaxAttempts else attempt in
      let nextRetrySeconds := if 0 <? retriesRemaining then FibonacciNext (sigRetryTimeout s) else 0 in
      mkAttempt (sigUUID s) attempt MaxAttempts retriesRemaining nextRetrySeconds (retriesRemaining <=? 0)
  end.

Definition boundedDeliveryLogValue (value : string) (maximum : nat) : string :=
  if len value <=? Z.of_nat maximum then value else ofBytes (take maximum (bytes value)).

(** ** Scripts *)

Definition finishScript (key : string) : Rcmd Z :=
  present ← EXISTS key;
  if negb present then mret (-1)
  else
    remaining ← HINCRBY key "remain_count" (-1);
    if remaining <? 1 then (_ ← DEL key; mret remaining) else mret remaining.
Definition pushErrorLogScript (key text : string) (seconds : Z) : Rcmd Z :=
  changed ← HSETNX key "last_error" text;
  if changed : bool then (_ ← EXPIRE key seconds; mret 1) else mret 0.

(** ** The sender *)

Definition maxDeliveryResponseBodyBytes : Z := 4096.
Record deliveryResponse := mkDelivered {
  drStatusCode : Z; drStatus : string; drHeader : Header; drBody : string; drBodyTruncated : bool }.
Definition noResponse : deliveryResponse := mkDelivered 0 "" ∅ "" false.

(** The text kept of a transport error: the [*url.Error] found in its chain is unwrapped. *)
Definition transportMessage (e : error) : string :=
  match head (omap (cutPrefix urlErrorTag) (err_is e)) with
  | Some inner => if errorIs e "net.Error:timeout" then "Client.Timeout exceeded while awaiting headers" else inner
  | None => err_text e
  end.
(** From [HttpClient.Do]'s response on: what is kept of it, and the error of a status that is not 2xx. *)
Definition readDeliveryResponse (inboxURL : string) (resp : httpResponse) : deliveryResponse * option error :=
  let '(responseBody, readErr) := readLimited maxDeliveryResponseBodyBytes (RespBody resp) (RespReadErr resp) in
  let truncated := maxDeliveryResponseBodyBytes <? len responseBody in
  let responseBody := if truncated then ofBytes (take (Z.to_nat maxDeliveryResponseBodyBytes) (bytes responseBody))
                      else responseBody in
  let text := Join (Fields responseBody) " " in
  let result_ text := mkDelivered (StatusCode resp) (Status resp) (RespHeader resp) text truncated in
  if negb (Z.quot (StatusCode resp) 100 =? 2) then
    match readErr with
    | Some e => (result_ text,
        Some (errorWrap (inboxURL +:+ ": " +:+ Status resp +:+ ": unable to read response body: ") e))
    | None =>
        let text := if truncated && negb (text =s "") then text +:+ " [truncated]" else text in
        (result_ text, Some (errorsNew (inboxURL +:+ ": " +:+ Status resp
                                        +:+ (if text =s "" then "" else ": " +:+ text))))
    end
  else (result_ text, None).

Section worker.
Context {S : Type} `{Redis S} {PrivateKey Message : Type}.
Abbreviation Mw := (M (World S)).

(** The libraries the worker signs and retries with. *)
Record Libraries := mkLibraries {
  Time2Str : Time → string;
  libLegacySign : PrivateKey → string → list string → string → outRequest → result outRequest;
  libRfcSign : PrivateKey → string → list string → outRequest → result Message;
  libRfcInclude : Message → outRequest → result outRequest;
  libUnmarshal : list string → result sfvDictionary;
  libMarshalDigest : list ascii → result string;
  libSensitive : URL → URL → bool;
  FibonacciNext : Z → Z }.
(** The package's variables. *)
Record workerConfig := mkWorkerConfig {
  outboundSignatureProfile : string; ServerServiceName : string; ServerHost : string; ActorKey : option PrivateKey }.
Record Worker := mkWorker {
  GlobalConfig : option workerConfig; workerVersion : string; workerActor : Actor; workerMetrics : bool;
  OutboundRequestSigner : option (ConfiguredSigner (S := S) (PrivateKey := PrivateKey)) }.
Variable lib : Libraries.
Variable wk : Worker.

Definition recordDeliveryMetric (result_ errorClass : string) : Mw unit :=
  whenEnabled (workerMetrics wk) (RecordDelivery result_ errorClass).
Definition recordWorkerRedisFailure (operation : string) : Mw unit :=
  whenEnabled (workerMetrics wk) (RecordRedisFailure "worker" operation).

Definition OutboundSignatureProfile (config : option workerConfig) : string :=
  match config with
  | None => ProfileLegacy
  | Some c => if outboundSignatureProfile c =s "" then ProfileLegacy else outboundSignatureProfile c
  end.

Definition directDeliveryProfile : string :=
  let usable profile := negb (profile =s ProfileDual) && negb (profile =s "") in
  let signer := signerProfile (OutboundRequestSigner wk) in
  let configured := OutboundSignatureProfile (GlobalConfig wk) in
  if match OutboundRequestSigner wk with Some _ => true | None => false end && usable signer then signer
  else if match GlobalConfig wk with Some _ => true | None => false end && usable configured then configured
  else ProfileLegacy.

Definition appendSignatureWithProfile (request : outRequest) (body KeyID : string) (privateKey : option PrivateKey)
    (profile : string) : Mw (result outRequest) :=
  let signWith signer := SignPOSTWithProfile (Time2Str lib) (libLegacySign lib) (libRfcSign lib) (libRfcInclude lib)
                           (libMarshalDigest lib) (Some signer) request body profile in
  match OutboundRequestSigner wk with
  | Some signer => signWith signer
  | None => signer ←! mret (NewConfiguredSigner KeyID privateKey profile); signWith signer
  end.
Definition appendSignature (request : outRequest) (body KeyID : string) (privateKey : option PrivateKey)
    : Mw (result outRequest) := appendSignatureWithProfile request body KeyID privateKey directDeliveryProfile.

(** [HttpClient], a client without [CheckRedirect]. *)
Definition deliveryClient : httpClient S unit := mkHttpClient None (libSensitive lib).
Definition sendActivityWithResponseProfile (inboxURL KeyID body : string) (privateKey : option PrivateKey)
    (profile : string) : Mw (deliveryResponse * option error) :=
  match requestURL inboxURL with
  | Err e => mret (noResponse, Some (errorWrap "create delivery request: " e))
  | Ok u =>
      match GlobalConfig wk with
      | None => panic "invalid memory address or nil pointer dereference"
      | Some config =>
          now ← timeNow;
          let header := headerSet (headerSet (headerSet ∅ "Content-Type" "application/activity+json")
            "User-Agent" (ServerServiceName config +:+ " (golang net/http; Activity-Relay "
                          +:+ workerVersion wk +:+ "; " +:+ ServerHost config +:+ ")"))
            "Date" (Time2Str lib now) in
          signed ← appendSignatureWithProfile (mkOut "POST" (Some u) (Host u) header (Some body) (len body))
                     body KeyID privateKey profile;
          match signed with
          | Err e => mret (noResponse, Some (errorWrap "sign delivery request: " e))
          | Ok req =>
              resp ← clientDo deliveryClient (mkCtxRequest req tt);
              mret (match resp with
                    | Err e => (noResponse, Some (errorsNew (inboxURL +:+ ": " +:+ transportMessage e)))
                    | Ok (resp, _) => readDeliveryResponse inboxURL resp
                    end)
          end
      end
  end.
Definition sendActivityWithResponse (inboxURL KeyID body : string) (privateKey : option PrivateKey)
    : Mw (deliveryResponse * option error) :=
  sendActivityWithResponseProfile inboxURL KeyID body privateKey directDeliveryProfile.
Definition sendActivity (inboxURL KeyID body : string) (privateKey : option PrivateKey) : Mw (option error) :=
  r ← sendActivityWithResponse inboxURL KeyID body privateKey; mret r.2.

(** ** The tasks *)

Definition finishRelayTarget (activityID : string) : Mw (result Z) :=
  remaining ← redis (finishScript (activityKeyPrefix +:+ activityID));
  match remaining with
  | Err e => _ ← recordWorkerRedisFailure "activity_cleanup"; mret (Err e)
  | Ok n => mret (Ok n)
  end.

Definition recordReceiverAttempt (receiverDomain : string) (succeeded : bool) : Mw unit :=
  if receiverDomain =s "" then mret tt
  else
    now ← timeNow;
    recorded ← RecordReceiverDelivery receiverDomain succeeded now;
    match recorded with
    | Err _ => recordWorkerRedisFailure "receiver_health"
    | Ok _ => mret tt
    end.

Definition statisticsKeyPrefix : string := "relay:statistics:".
Definition storeTransientDeliveryError (receiverDomain : string) (deliveryErr : option error) : Mw unit :=
  match deliveryErr with
  | None => mret tt
  | Some e =>
      if receiverDomain =s "" then mret tt
      else
        pushed ← redis (pushErrorLogScript (statisticsKeyPrefix +:+ receiverDomain)
                          (boundedDeliveryLogValue (err_text e) 4096) 60);
        match pushed with
        | Err _ => recordWorkerRedisFailure "statistics"
        | Ok _ => mret tt
        end
  end.

Definition deliveryProfileFromArgs (args : list string) : result string :=
  match args with
  | _ :: _ :: profile :: _ => ParseWireProfile profile
  | _ =>
      match GlobalConfig wk with
      | None => Ok ProfileLegacy
      | Some c =>
          let profile := OutboundSignatureProfile (Some c) in
          if negb (profile =s ProfileDual) && negb (profile =s "") then ParseWireProfile profile else Ok ProfileLegacy
      end
  end.

(** The post, and what the answer says about the receiver's signature profiles. *)
Definition postAndObserve (inboxURL body profile : string) : Mw (option error) :=
  match GlobalConfig wk with
  | None => panic "invalid memory address or nil pointer dereference"
  | Some config =>
      '(response, deliveryErr) ← sendActivityWithResponseProfile inboxURL (pkID (acPublicKey (workerActor wk)))
                                   body (ActorKey config) profile;
      _ ← match OutboundRequestSigner wk with
          | None => mret tt
          | Some signer =>
              _ ← ObserveResponse (libUnmarshal lib) (Some signer) DestinationScopeDelivery inboxURL profile
                    (drStatusCode response) (drHeader response);
              mret tt
          end;
      mret deliveryErr
  end.

(** [relayActivityV2] from the failed load of the body on. *)
Definition bodyUnavailable (activityStorageID : string) (attempt : deliveryAttempt) (e : error) : Mw (result unit) :=
  errorClass ← (if errorIs e redisNilName then mret "activity_expired"
                else (_ ← recordWorkerRedisFailure "activity_load"; mret "other"));
  _ ← recordDeliveryMetric "skipped" errorClass;
  _ ← (if negb (Terminal attempt) then (_ ← timeNow; mret tt)
       else (_ ← finishRelayTarget activityStorageID; mret tt));
  mret (Err (errorWrap "load relay activity body: " e)).
(** ... and from the answer of the post on. *)
Definition settleAttempt (activityStorageID receiverDomain : string) (attempt : deliveryAttempt)
    (deliveryErr : option error) : Mw (result unit) :=
  match deliveryErr with
  | None =>
      _ ← recordDeliveryMetric "success" "none";
      _ ← recordReceiverAttempt receiverDomain true;
      _ ← finishRelayTarget activityStorageID;
      mret (Ok tt)
  | Some e =>
      _ ← recordDeliveryMetric "failure" (ClassifyDeliveryError (Some e));
      _ ← recordReceiverAttempt receiverDomain false;
      _ ← storeTransientDeliveryError receiverDomain (Some e);
      _ ← (if negb (Terminal attempt) then (_ ← timeNow; mret tt)
           else (_ ← finishRelayTarget activityStorageID; mret tt));
      mret (Err e)
  end.

Definition relayActivityV2 (signature : option attemptSignature) (args : list string) : Mw (result unit) :=
  match args with
  | inboxURL :: activityStorageID :: _ =>
      signatureProfile ←! mret (mapErr (errorWrap "relay-v2 signature profile: ") (deliveryProfileFromArgs args));
      let attempt := currentDeliveryAttempt (FibonacciNext lib) signature in
      let receiverDomain := match ReceiverDomainFromInboxURL inboxURL with Ok d => d | Err _ => "" end in
      body ← redis (HGET_ (activityKeyPrefix +:+ activityStorageID) "body");
      match body with
      | Err e => bodyUnavailable activityStorageID attempt e
      | Ok body =>
          started ← timeNow;
          deliveryErr ← postAndObserve inboxURL body signatureProfile;
          elapsedAt ← timeNow;
          settleAttempt activityStorageID receiverDomain attempt deliveryErr
      end
  | _ => mret (Err (errorsNew "relay-v2 requires inbox URL and activity storage ID"))
  end.

Definition registerActivity (args : list string) : Mw (result unit) :=
  match args with
  | inboxURL :: body :: _ =>
      profile ←! mret (mapErr (errorWrap "register signature profile: ") (deliveryProfileFromArgs args));
      deliveryErr ← postAndObserve inboxURL body profile;
      mret (match deliveryErr with None => Ok tt | Some e => Err e end)
  | _ => mret (Err (errorsNew "register requires inbox URL and activity body"))
  end.
End worker.
