(* ===== verification/DeliverSpec.v ===== *)
(** * Delivery: what holds of every attempt

    The numbers of an attempt, the metadata of a body, the count of remaining targets
    as a reference count, one post, and one attempt from the load of the body to the
    settling of the target. *)

From S2P Require Import Prelude GoStrings GoUrl Sha256 Redis GoTime World Frame Observability.
From S2P Require Import ReceiverHealth Negotiation Signer HttpClient NegotiationSpec Json ActivityModel Queue QueueSpec Deliver.

(** ** Attempts *)

(** The attempt number of a task lies between 1 and the maximum whatever retry count it
    carries; an attempt is the last one exactly when no retries are left, and then none is
    announced; with a retry count the relay hands out, attempts done and retries left add up. *)
Theorem attempt_bounds (next : Z → Z) (s : attemptSignature) :
  let a := currentDeliveryAttempt next (Some s) in
  1 ≤ Attempt a ≤ MaxAttempts
  ∧ (Terminal a = true ↔ sigRetryCount s ≤ 0)
  ∧ (Terminal a = true → NextRetrySeconds a = 0)
  ∧ (0 ≤ sigRetryCount s ≤ RetryCount → Attempt a + RetriesRemaining a = AttemptsMax a).
Proof.
  unfold currentDeliveryAttempt, MaxAttempts, RetryCount.
  cbn [Attempt Terminal NextRetrySeconds RetriesRemaining AttemptsMax].
  rewrite Z.leb_le. split; [repeat case_match; lia|]. split; [done|].
  split; [intros ?; destruct (Z.ltb_spec 0 (sigRetryCount s)); lia|]. intros ?.
  destruct (Z.ltb_spec (5 + 1 - sigRetryCount s) 1); [lia|].
  destruct (Z.ltb_spec (5 + 1) (5 + 1 - sigRetryCount s)); lia.
Qed.

(** ** Metadata *)

Lemma ofBytes_length l : String.length (ofBytes l) = length l.
Proof. induction l as [|c l IH]; [done|]. simpl. by f_equal. Qed.
Lemma bounded_length value : len (bounded value) ≤ 2048.
Proof.
  unfold bounded. destruct (Z.leb_spec (len (TrimSpace value)) (Z.of_nat maxIdentifierBytes)); [done|].
  unfold len. rewrite ofBytes_length, length_take. unfold maxIdentifierBytes. lia.
Qed.
(** The correlation data of a body is total and bounded: it always carries the body's digest,
    every identifier in it is at most 2048 bytes long, and a body that is not a JSON object has
    the digest only. *)
Theorem metadata_bounded (body : string) :
  let m := FromBody body in
  mdBodySHA256 m = sha256Hex body
  ∧ Forall (λ s, len s ≤ 2048) [mdActivityID m; mdActivityType m; mdObjectID m; mdActorID m]
  ∧ (is_ok (payloadOf body) = false → m = mkMetadata "" "" "" "" "" (sha256Hex body)).
Proof.
  cbv zeta. unfold FromBody. destruct (payloadOf body) as [payload|e].
  - split; [done|]. split; [|done]. repeat constructor; apply bounded_length.
  - split; [done|]. split; [|done]. by repeat constructor.
Qed.

(** ** The count of remaining targets *)

Lemma finishScript_run key now d h t n : db_keys d !! key = Some (mkEntry (RHash h) (Some t)) → now < t →
  h !! "remain_count" = Some (itoa n) → 1 ≤ n < 2 ^ 53 →
  ∃ d', finishScript key now d = (d', Ok (n - 1))
    ∧ db_keys d' !! key = if n - 1 <? 1 then None
                          else Some (mkEntry (RHash (<["remain_count" := itoa (n - 1)]> h)) (Some t)).
Proof.
  intros Hk Hl Hc Hn. assert (Hf : find now d key = Some (mkEntry (RHash h) (Some t))).
  { unfold find. rewrite Hk. unfold live. cbn. by apply Z.ltb_lt in Hl as ->. }
  unfold finishScript, mbind, Rcmd_bind, mret, Rcmd_ret, EXISTS. rewrite Hf, bool_decide_eq_true_2 by done.
  cbn [negb]. unfold HINCRBY, asHash, ttlOf. rewrite Hf, Hc.
  change (default "0" (Some (itoa n))) with (itoa n). rewrite parseInt_itoa by (apply inWidth_small; lia). change (n + -1) with (n - 1).
  rewrite inWidth_small by lia. destruct (n - 1 <? 1).
  - eexists. split; [reflexivity|]. unfold drop_, put. cbn [db_keys setKeys]. by rewrite lookup_delete_eq.
  - eexists. split; [reflexivity|]. unfold put. cbn [db_keys setKeys]. by rewrite lookup_insert_eq.
Qed.
Lemma finishScript_absent key now d : db_keys d !! key = None → finishScript key now d = (d, Ok (-1)).
Proof. intros Hk. unfold finishScript, mbind, Rcmd_bind, EXISTS, find. by rewrite Hk. Qed.

(** Settling one target at each of the given times. *)
Fixpoint finishAll (key : string) (times : list Z) (d : db) : db :=
  match times with [] => d | t :: times => finishAll key times (finishScript key t d).1 end.
Lemma finishAll_absent key times d : db_keys d !! key = None → finishAll key times d = d.
Proof.
  intros Hk. induction times as [|t times IH]; [done|]. cbn [finishAll]. by rewrite finishScript_absent.
Qed.
Lemma finishAll_count key times d h t n : db_keys d !! key = Some (mkEntry (RHash h) (Some t)) →
  Forall (λ now, now < t) times → h !! "remain_count" = Some (itoa n) → 1 ≤ n < 2 ^ 53 →
  let left := n - Z.of_nat (length times) in
  if 1 <=? left
  then ∃ h', db_keys (finishAll key times d) !! key = Some (mkEntry (RHash h') (Some t))
         ∧ h' !! "remain_count" = Some (itoa left) ∧ h' !! "body" = h !! "body"
  else db_keys (finishAll key times d) !! key = None.
Proof.
  intros Hk Ht. revert d h n Hk. induction Ht as [|now times Hnow _ IH]; intros d h n Hk Hc Hn; cbv zeta.
  - cbn [length finishAll]. rewrite Z.sub_0_r. destruct (Z.leb_spec 1 n); [|lia]. by exists h.
  - cbn [length finishAll]. destruct (finishScript_run key now d h t n Hk Hnow Hc Hn) as (d' & E & Hk').
    rewrite E. cbn [fst]. destruct (Z.ltb_spec (n - 1) 1).
    + rewrite finishAll_absent by done. destruct (Z.leb_spec 1 (n - Z.of_nat (Datatypes.S (length times)))); [lia|done].
    + specialize (IH d' _ (n - 1) Hk' ltac:(by map_look) ltac:(lia)). cbv zeta in IH.
      replace (n - Z.of_nat (Datatypes.S (length times))) with (n - 1 - Z.of_nat (length times)) by lia.
      destruct (1 <=? _); [|exact IH]. destruct IH as (h' & E1 & E2 & E3). exists h'. split; [done|]. split; [done|].
      rewrite E3. by map_look.
Qed.

(** a stored body lives exactly as long as it has targets to serve: stored for [n] targets, it
    is still there with the right count after fewer than [n] of them are settled, and gone as
    soon as all are. *)
Theorem body_lives_until_last_target (key body : string) (n now : Z) (d d' : db) (times : list Z)
    (Hn : 1 ≤ n < 2 ^ 53)
    (Hstore : storeRelayActivityScript key body (itoa n) ActivityRetentionSeconds now d = (d', Ok 1))
    (Htimes : Forall (λ t, t < now + 900000) times) :
  let left := n - Z.of_nat (length times) in
  if 1 <=? left
  then ∃ h, db_keys (finishAll key times d') !! key = Some (mkEntry (RHash h) (Some (now + 900000)))
         ∧ h !! "remain_count" = Some (itoa left) ∧ h !! "body" = Some body
  else db_keys (finishAll key times d') !! key = None.
Proof.
  apply storeScript_Ok in Hstore as (_ & h & Hk & Hb & Hc); [|done].
  pose proof (finishAll_count key times d' h _ n Hk Htimes Hc Hn) as Hf. cbv zeta in *.
  by rewrite Hb in Hf.
Qed.

(** ** Frames *)

(** Redis keys other than the stored activities. *)
Definition workKeys (k : string) : Prop := HasPrefix k activityKeyPrefix = false.
Lemma activityKey_notWork id : ¬ workKeys (activityKey id).
Proof. unfold workKeys, activityKey. by rewrite HasPrefix_app. Qed.

Section attempt.
Context {S : Type} `{RedisLaws S} {PrivateKey Message : Type}.
Abbreviation W := (World S).
Variable lib : Libraries (PrivateKey := PrivateKey) (Message := Message).
Variable wk : Worker (S := S) (PrivateKey := PrivateKey).

Lemma runs_recordDeliveryMetric r c : runs (nearby workKeys) (recordDeliveryMetric wk r c).
Proof. by apply runs_whenEnabled, runs_increment_nearby. Qed.
Lemma runs_recordWorkerRedisFailure o : runs (nearby workKeys) (recordWorkerRedisFailure wk o).
Proof. by apply runs_whenEnabled, runs_increment_nearby. Qed.
Hint Resolve runs_recordDeliveryMetric runs_recordWorkerRedisFailure : runs.

Lemma touches_recordScript key at_ ok : workKeys key → touches workKeys (recordReceiverDeliveryScript key at_ ok).
Proof.
  intros Hk. unfold recordReceiverDeliveryScript. case_match;
    repeat (apply touches_bind; [auto with runs|intros ?]); auto with runs.
Qed.
Lemma runs_recordReceiverAttempt domain ok : runs (nearby workKeys) (recordReceiverAttempt wk domain ok).
Proof.
  unfold recordReceiverAttempt, RecordReceiverDelivery. runs_auto.
  by apply runs_redis_nearby, touches_recordScript.
Qed.
Lemma touches_pushErrorLogScript key text n : workKeys key → touches workKeys (pushErrorLogScript key text n).
Proof.
  intros Hk. unfold pushErrorLogScript. apply touches_bind; [auto with runs|intros []]; [|auto with runs].
  apply touches_bind; [auto with runs|intros ?]. auto with runs.
Qed.
Lemma runs_storeTransientDeliveryError domain e : runs (nearby workKeys) (storeTransientDeliveryError wk domain e).
Proof.
  unfold storeTransientDeliveryError. runs_auto. by apply runs_redis_nearby, touches_pushErrorLogScript.
Qed.
Hint Resolve runs_recordReceiverAttempt runs_storeTransientDeliveryError : runs.

(** Signing reads the clock and nothing else. *)
Lemma runs_sign (f : Time → string) ls signer r body headers :
  runs (nearby (S := S) noKeys) (sign (PrivateKey := PrivateKey) f ls signer r body headers).
Proof. unfold sign, ensureDate. runs_auto. Qed.
Lemma runs_signRFC9421 (f : Time → string) rs ri md signer r body comps :
  runs (nearby (S := S) noKeys) (signRFC9421 (PrivateKey := PrivateKey) (Message := Message) f rs ri md signer r body comps).
Proof. unfold signRFC9421, ensureDate. runs_auto. Qed.
Lemma runs_appendSignature r body k key profile :
  runs (nearby noKeys) (appendSignatureWithProfile lib wk r body k key profile).
Proof.
  unfold appendSignatureWithProfile, SignPOSTWithProfile, signerSignPOSTWithProfile, SignPOST.
  runs_auto; eauto using runs_sign, runs_signRFC9421.
Qed.

(** What the worker relies on in the observer of signature capabilities: it answers, and the
    stored activities are none of its business. *)
Class ObserverLaws : Prop := observer_local : ∀ signer, OutboundRequestSigner wk = Some signer →
  ∀ inboxURL profile status header, runs (nearby workKeys)
    (ObserveResponse (libUnmarshal lib) (Some signer) DestinationScopeDelivery inboxURL profile status header).
Lemma observer_unsigned : OutboundRequestSigner wk = None → ObserverLaws.
Proof. intros E signer E'. congruence. Qed.

Lemma runs_saveCapability capability :
  runs (nearby (S := S) workKeys) (saveCapability defaultDestinationCapabilityPrefix capability).
Proof.
  unfold saveCapability. runs_auto. set (key := capabilityKey _ _ _). assert (workKeys key) by done.
  by apply runs_redis_nearby, touches_saveCapabilityScript.
Qed.
(** The relay's own signers: a fixed profile, or negotiation with the Redis capability store. *)
Lemma observer_signed signer : OutboundRequestSigner wk = Some signer →
  (∀ ng, csNegotiator signer = Some ng → ngNow ng = timeNow
     ∧ ngStore ng = Some (RedisDestinationCapabilityStore defaultDestinationCapabilityPrefix)) →
  ObserverLaws.
Proof.
  intros E Hng signer' E' inboxURL profile status header. rewrite E in E'. injection E' as <-.
  unfold ObserveResponse. cbn [mbind option_bind].
  destruct (csNegotiator signer) as [ng|]; [|by apply runs_ret, _]. destruct (Hng ng eq_refl) as [Hnow Hst].
  assert (Hs : ∀ profile evidence ttl,
    runs (nearby workKeys) (saveObservation (Some ng) DestinationScopeDelivery inboxURL profile evidence ttl)).
  { intros p ev ttl. unfold saveObservation. rewrite Hst, Hnow. runs_auto. apply runs_saveCapability. }
  unfold ObserveRFC9421Success, ObserveExplicitRFC9421Rejection. runs_auto; apply Hs.
Qed.
Context (Hconfig : GlobalConfig wk ≠ None).

(** ** The post *)

(** A request and the redirects that followed it: at most ten in all, each but the last answered with a
    redirect. *)
Definition redirected (w : W) (sent : list httpRequest) : Prop :=
  (length sent ≤ maxExchanges)%nat
  ∧ ∀ i q, sent !! i = Some q → (Datatypes.S i < length sent)%nat →
      ∃ a, w_net w (w_posts w + i)%nat q = Ok a ∧ is_Some (redirectBehavior (reqMethod q) (StatusCode a)).
(** What answered the last of them. *)
Definition lastAnswer (w : W) (sent : list httpRequest) : option (result httpResponse) :=
  q ← last sent; Some (w_net w (w_posts w + pred (length sent))%nat q).
Lemma redirected_net w w' sent : w_net w' = w_net w → w_posts w' = w_posts w → redirected w' sent → redirected w sent.
Proof. unfold redirected. by intros -> ->. Qed.
(** As [nearby], with a request and its redirects sent, or none. *)
Definition posted (ks : string → Prop) (w w' : W) : Prop :=
  (w_relay w' = w_relay w ∧ w_queued w' = w_queued w ∧ w_spawned w' = w_spawned w ∧ w_cache w' = w_cache w
   ∧ w_uuids w' = w_uuids w)
  ∧ (∃ sent, w_sentRequests w' = w_sentRequests w ++ sent ∧ redirected w sent)
  ∧ rs_ms (w_redis w) ≤ rs_ms (w_redis w')
  ∧ ∀ k, ¬ ks k → db_keys (rs_db (w_redis w')) !! k = db_keys (rs_db (w_redis w)) !! k.
Lemma posted_nearby ks w1 w2 w3 : posted ks w1 w2 → nearby ks w2 w3 → posted ks w1 w3.
Proof.
  intros ((A1 & B1 & C1 & D1 & U1) & (sent & E1 & L) & M1 & K1) (A2 & B2 & M2 & _ & K2). destruct_and?.
  split; [repeat split; congruence|]. split; [exists sent; split; [congruence|done]|]. split; [lia|].
  intros k Hk. by rewrite K2, K1.
Qed.
Lemma nearby_posted ks w1 w2 w3 : nearby ks w1 w2 → posted ks w2 w3 → posted ks w1 w3.
Proof.
  intros (A2 & B2 & M2 & _ & K2) ((A1 & B1 & C1 & D1 & U1) & (sent & E1 & L) & M1 & K1). destruct_and?.
  split; [repeat split; congruence|]. split; [exists sent; split; [congruence|by eapply redirected_net]|]. split; [lia|].
  intros k Hk. by rewrite K1, K2.
Qed.
Lemma posted_refl ks w : posted ks w w.
Proof. split; [done|]. split; [exists []; rewrite app_nil_r; split; [done|]; split; [cbn; lia|done]|]. by split. Qed.
Lemma posted_weaken (ks ks' : string → Prop) w w' : (∀ k, ks k → ks' k) → posted ks w w' → posted ks' w w'.
Proof. intros Hk (A & B & C & K). repeat (split; [done|]). intros k Hn. apply K. auto. Qed.

(** The world with these requests sent. *)
Definition withSent (sent : list httpRequest) (w : W) : W :=
  mkWorld (w_redis w) (w_relay w) (w_clock w) (w_ticks w) (w_uuid w) (w_uuids w) (w_broker w) (w_sends w) (w_queued w)
    (w_net w) (w_posts w + length sent)%nat (w_sentRequests w ++ sent) (w_spawned w) (w_cache w).
Lemma withSent_cons q sent w : withSent sent (httpDo q w).1 = withSent (q :: sent) w.
Proof. unfold withSent. cbn. rewrite <- app_assoc, Nat.add_succ_r. done. Qed.
Lemma withSent_one q w : (httpDo q w).1 = withSent [q] w.
Proof. unfold withSent. cbn. by rewrite Nat.add_1_r. Qed.
(** How a chain of requests ended: with the response of its last, or with an error that is that of its
    last, or that of a redirect that was not followed. *)
Definition chainEnds (w : W) (sent : list httpRequest) (res : result httpResponse) : Prop :=
  match res with
  | Ok resp => lastAnswer w sent = Some (Ok resp)
  | Err e => lastAnswer w sent = Some (Err e)
      ∨ ∃ a method, lastAnswer w sent = Some (Ok a) ∧ is_Some (redirectBehavior method (StatusCode a))
  end.
Lemma chain_cons q sent w a method res : sent ≠ [] → w_net w (w_posts w) q = Ok a → method = reqMethod q →
  is_Some (redirectBehavior method (StatusCode a)) → (Datatypes.S (length sent) ≤ maxExchanges)%nat →
  redirected (httpDo q w).1 sent → chainEnds (httpDo q w).1 sent res →
  redirected w (q :: sent) ∧ chainEnds w (q :: sent) res.
Proof.
  intros Hne Ha -> Hr Hl [_ Hs] He. destruct sent as [|q' sent]; [done|]. split.
  - split; [exact Hl|]. intros [|i] x Hx Hi; cbn in Hx, Hi.
    + injection Hx as <-. rewrite Nat.add_0_r. eauto.
    + destruct (Hs i x Hx ltac:(cbn; lia)) as (b & Eb & Hb). exists b. split; [|done]. cbn in Eb. by rewrite Nat.add_succ_r.
  - assert (E : lastAnswer w (q :: q' :: sent) = lastAnswer (httpDo q w).1 (q' :: sent)).
    { unfold lastAnswer. cbn [last length pred]. destruct (last (q' :: sent)); [|done]. cbn. by rewrite Nat.add_succ_r. }
    unfold chainEnds. rewrite E. exact He.
Qed.
Lemma chain_one q w res : (match res with
    | Ok resp => w_net w (w_posts w) q = Ok resp
    | Err e => w_net w (w_posts w) q = Err e ∨ ∃ a method, w_net w (w_posts w) q = Ok a ∧ is_Some (redirectBehavior method (StatusCode a))
    end) → redirected w [q] ∧ chainEnds w [q] res.
Proof.
  intros Hr. split; [split; [unfold maxExchanges; cbn; lia|]; intros i x _ Hi; cbn in Hi; lia|].
  unfold chainEnds, lastAnswer. cbn. rewrite Nat.add_0_r. destruct res as [resp|e]; [by rewrite Hr|].
  destruct Hr as [->|(a & method & -> & Hr)]; [by left|right; eauto].
Qed.
(** net/http without a redirect policy: ten exchanges at most, then an error. *)
Lemma follow_default sensitive ireq fuel : ∀ reqs req (w : W), (length reqs + fuel = maxExchanges)%nat → (1 ≤ fuel)%nat →
  is_Some (outURL (cReq req)) → ∃ res more, let sent := wireRequest (cReq req) :: more in
  follow (C := unit) fuel (mkHttpClient None sensitive) ireq reqs req w = (withSent sent w, Done res)
  ∧ (length sent ≤ fuel)%nat ∧ redirected w sent ∧ chainEnds w sent (fst <$> res).
Proof.
  induction fuel as [|fuel IH]; intros reqs req w Hl Hf [base Hu]; [lia|]. cbn [follow]. set (q := wireRequest (cReq req)).
  assert (Hone : ∀ res : result (httpResponse * ctxRequest unit), (redirected w [q] ∧ chainEnds w [q] (fst <$> res)) → ∃ (res' : result (httpResponse * ctxRequest unit)) more,
    ((httpDo q w).1, Done res) = (withSent (q :: more) w, Done res') ∧ (length (q :: more) ≤ Datatypes.S fuel)%nat
    ∧ redirected w (q :: more) ∧ chainEnds w (q :: more) (fst <$> res')).
  { intros res Hr. exists res, []. rewrite withSent_one. split; [done|]. cbn. split; [lia|exact Hr]. }
  unfold bindErr. rewrite (bind_Done (httpDo q) _ w (httpDo q w).1 (w_net w (w_posts w) q) eq_refl).
  destruct (w_net w (w_posts w) q) as [resp|e] eqn:En; [|apply (Hone (Err e)), chain_one; by left].
  cbv zeta. assert (Hok : redirected w [q] ∧ chainEnds w [q] (fst <$> (Ok (resp, req) : result (httpResponse * ctxRequest unit)))) by by apply chain_one.
  destruct (redirectBehavior (outMethod (cReq req)) (StatusCode resp)) as [[method body]|] eqn:Er; [|exact (Hone _ Hok)].
  assert (Hbad : ∀ e, redirected w [q] ∧ chainEnds w [q] (fst <$> (Err e : result (httpResponse * ctxRequest unit)))).
  { intros e. apply chain_one. right. exists resp, (outMethod (cReq req)). by rewrite Er. }
  destruct (_ =s ""); [exact (Hone _ Hok)|]. rewrite Hu. destruct (parseReference base _) as [u|e]; [|exact (Hone _ (Hbad _))].
  cbn [CheckRedirect default]. unfold defaultCheckRedirect. rewrite length_app. cbn [length].
  destruct (Nat.leb_spec 10 (length reqs + 1)) as [|Hlt]; [erewrite bind_Done by reflexivity; exact (Hone _ (Hbad _))|].
  erewrite bind_Done by reflexivity. set (next := redirectedRequest _ _ _ _ _ _ _ _).
  destruct (IH (reqs ++ [req]) next (httpDo q w).1) as (res & more & E & L & R & A);
    [rewrite length_app; cbn; lia|unfold maxExchanges in Hl; lia|by eexists|].
  exists res, (wireRequest (cReq next) :: more). rewrite withSent_cons in E. split; [exact E|]. cbn [length] in *. split; [lia|].
  apply (chain_cons q _ w resp (outMethod (cReq req))); [done|done|done|by rewrite Er|cbn; unfold maxExchanges in *; lia|exact R|exact A].
Qed.

(** One run of the sender: no request (it could not be built or signed), or one with its redirects. *)
Definition sendRun (inboxURL : string) (w : W) (sent : list httpRequest) (r : deliveryResponse * option error) : Prop :=
  (sent = [] ∧ r.1 = noResponse ∧ r.2 ≠ None)
  ∨ ∃ res, chainEnds w sent res
      ∧ r = match res with
            | Err e => (noResponse, Some (errorsNew (inboxURL +:+ ": " +:+ transportMessage e)))
            | Ok answer => readDeliveryResponse inboxURL answer
            end.
Lemma send_run inboxURL k body key profile (w : W) : ∃ w' r sent,
  sendActivityWithResponseProfile lib wk inboxURL k body key profile w = (w', Done r)
  ∧ posted noKeys w w' ∧ w_sentRequests w' = w_sentRequests w ++ sent ∧ sendRun inboxURL w sent r.
Proof.
  unfold sendActivityWithResponseProfile. destruct (requestURL inboxURL) as [u|e].
  2: { eexists w, _, []. split; [reflexivity|]. rewrite app_nil_r. split; [apply posted_refl|]. split; [done|]. by left. }
  destruct (GlobalConfig wk) as [config|]; [|done].
  destruct (runs_timeNow noKeys w) as (w0 & now & E0 & N0). erewrite bind_Done by exact E0. cbv zeta.
  match goal with |- context[appendSignatureWithProfile lib wk ?r] =>
    destruct (runs_appendSignature r body k key profile w0) as (w1 & signed & E1 & N1) end.
  erewrite bind_Done by exact E1. pose proof (transitivity N0 N1) as N.
  pose proof N as (_ & (_ & _ & _ & _ & _ & Enet & Epos & Esent & _) & _).
  assert (Hnone : ∀ e, ∃ w' r sent, (w1, Done (noResponse, Some e)) = (w', Done r) ∧ posted noKeys w w'
    ∧ w_sentRequests w' = w_sentRequests w ++ sent ∧ sendRun inboxURL w sent r).
  { intros e. eexists w1, _, []. split; [reflexivity|]. rewrite app_nil_r. split; [by eapply nearby_posted, posted_refl|].
    split; [done|]. by left. }
  destruct signed as [req|e]; [|apply Hnone]. unfold clientDo. cbn [cReq]. destruct (outURL req) as [v|] eqn:Ev.
  2: { erewrite bind_Done by reflexivity. apply Hnone. }
  destruct (follow_default (libSensitive lib) (mkCtxRequest req tt) maxExchanges [] (mkCtxRequest req tt) w1) as (res & more & E & _ & R & A);
    [done|unfold maxExchanges; lia|by eexists|].
  unfold deliveryClient. erewrite bind_Done by exact E. set (sent := wireRequest _ :: more) in *.
  eexists _, _, sent. split; [reflexivity|]. split.
  - eapply nearby_posted; [exact N|]. split; [done|]. split; [by exists sent|]. by split.
  - cbn [w_sentRequests withSent]. split; [by rewrite Esent|]. right. exists (fst <$> res). split.
    + unfold chainEnds, lastAnswer in *. rewrite Enet, Epos in A. exact A.
    + by destruct res as [[resp c]|e].
Qed.
Lemma readDeliveryResponse_ok inboxURL answer :
  let r := readDeliveryResponse inboxURL answer in
  drStatusCode r.1 = StatusCode answer ∧ (r.2 = None ↔ Z.quot (StatusCode answer) 100 = 2).
Proof.
  cbv zeta. unfold readDeliveryResponse. destruct (readLimited _ _ _) as [b re].
  destruct (Z.eqb_spec (Z.quot (StatusCode answer) 100) 2); cbn [negb]; [done|].
  destruct re; split; try done; split; done.
Qed.

(** One delivery sends one request, with its redirects, or none, and counts as delivered exactly when the
    last request was answered with a 2xx status; a failure to build or sign it, a transport
    error, a redirect that is not followed and any other status are errors.  The worker does not
    panic. *)
Theorem delivered_iff_2xx (inboxURL keyID body : string) (key : option PrivateKey) (profile : string) (w : World S) :
  ∃ w' response e sent, sendActivityWithResponseProfile lib wk inboxURL keyID body key profile w = (w', Done (response, e))
    ∧ posted noKeys w w' ∧ w_sentRequests w' = w_sentRequests w ++ sent
    ∧ (e = None ↔ ∃ answer, lastAnswer w sent = Some (Ok answer) ∧ drStatusCode response = StatusCode answer
         ∧ Z.quot (StatusCode answer) 100 = 2).
Proof.
  destruct (send_run inboxURL keyID body key profile w) as (w' & [response e] & sent & E & P & Es & R).
  exists w', response, e, sent. split; [exact E|]. split; [exact P|]. split; [exact Es|].
  destruct R as [(-> & _ & Hn)|(res & Hr & Eq)]; cbn [fst snd] in *.
  - split; [done|]. by intros (a & Ha & _).
  - destruct res as [answer|te]; cbn in Hr.
    + pose proof (readDeliveryResponse_ok inboxURL answer) as [Hc Hi]. rewrite <- Eq in Hc, Hi. cbn [fst snd] in *.
      rewrite Hi, Hr. split; [intros Hq; by exists answer|]. by intros (a & [= <-] & _ & Hq).
    + injection Eq as -> ->. split; [done|]. intros (a & Ha & _ & Hq). destruct Hr as [Hr|(b & method & Hr & Hb)]; [congruence|].
      rewrite Hr in Ha. injection Ha as ->. exfalso. revert Hb. unfold redirectBehavior. intros Hb.
      repeat match type of Hb with context [StatusCode a =? ?z] => destruct (Z.eqb_spec (StatusCode a) z) as [Hz|]; [rewrite Hz in Hq; by vm_compute in Hq|] end.
      by destruct Hb.
Qed.
End attempt.

(** ** One attempt *)

Section settle.
Context {S : Type} `{RedisReliable S} {PrivateKey Message : Type}.
Abbreviation W := (World S).
Variable lib : Libraries (PrivateKey := PrivateKey) (Message := Message).
Variable wk : Worker (S := S) (PrivateKey := PrivateKey).
Context (Hconfig : GlobalConfig wk ≠ None) `{!ObserverLaws lib wk}.

Lemma runs_postAndObserve inboxURL body profile (w : W) : ∃ w' e,
  postAndObserve lib wk inboxURL body profile w = (w', Done e) ∧ posted workKeys w w'.
Proof.
  pose proof Hconfig as Hc. unfold postAndObserve. destruct (GlobalConfig wk) as [config|] eqn:Ec; [|done].
  rewrite <- Ec in Hc. destruct (send_run lib wk Hc inboxURL (pkID (acPublicKey (workerActor wk))) body (ActorKey config) profile w)
    as (w1 & [response e] & sent & E1 & P1 & _).
  erewrite bind_Done by exact E1. apply (posted_weaken _ workKeys) in P1; [|by intros k []].
  destruct (OutboundRequestSigner wk) as [signer|] eqn:Es; [|by exists w1, e].
  destruct (observer_local lib wk signer Es inboxURL profile (drStatusCode response) (drHeader response) w1)
    as (w2 & u & E2 & N2).
  exists w2, e. erewrite bind_Done by (erewrite bind_Done by exact E2; reflexivity).
  split; [done|]. by eapply posted_nearby.
Qed.

(** The entry of the stored activity, and the same with one target taken off. *)
Definition activityEntry (id : string) (w : W) : option entry := db_keys (rs_db (w_redis w)) !! activityKey id.
Definition oneTargetLess (n t : Z) (h : gmap string string) : option entry :=
  if n - 1 <? 1 then None else Some (mkEntry (RHash (<["remain_count" := itoa (n - 1)]> h)) (Some t)).
Definition stored (id : string) (n t : Z) (h : gmap string string) (w : W) : Prop :=
  activityEntry id w = Some (mkEntry (RHash h) (Some t)) ∧ h !! "remain_count" = Some (itoa n) ∧ 1 ≤ n < 2 ^ 53.

Lemma finishRelayTarget_run id n t h (w : W) : stored id n t h w → ∃ w' r,
  finishRelayTarget wk id w = (w', Done r) ∧ nearby (λ k, workKeys k ∨ k = activityKey id) w w'
  ∧ (rs_ms (w_redis w') < t → activityEntry id w' = oneTargetLess n t h).
Proof.
  intros (Hk & Hc & Hn). unfold finishRelayTarget. set (c := finishScript _).
  assert (Ht : touches (λ k, workKeys k ∨ k = activityKey id) c).
  { unfold c, finishScript. fold (activityKey id).
    assert ((λ k, workKeys k ∨ k = activityKey id) (activityKey id)) by by right.
    apply touches_bind; [auto with runs|intros ?]. case_match; [auto with runs|].
    apply touches_bind; [auto with runs|intros ?]. case_match; [|auto with runs].
    apply touches_bind; auto with runs. }
  pose proof (redisOnly_nearby _ _ _ (redisOnly_redis _ c w Ht)) as N1.
  destruct (redis_ok c w) as (w1 & E & Hdb). rewrite E in N1. cbn [fst] in N1. erewrite bind_Done by exact E.
  destruct (c (rs_ms (w_redis w1)) (rs_db (w_redis w))).2 as [z|e] eqn:Er.
  - exists w1, (Ok z). split; [done|]. split; [exact N1|]. intros Hl.
    destruct (finishScript_run (activityKey id) (rs_ms (w_redis w1)) _ h t n Hk Hl Hc Hn) as (d' & Ec & Hd').
    unfold activityEntry. rewrite Hdb. unfold c. fold (activityKey id). by rewrite Ec.
  - destruct (runs_recordWorkerRedisFailure wk "activity_cleanup" w1) as (w2 & u & E2 & N2).
    pose proof (nearby_weaken _ (λ k, workKeys k ∨ k = activityKey id) _ _ (λ k Hk, or_introl Hk) N2) as N2'.
    exists w2, (Err e). erewrite bind_Done by exact E2. split; [done|]. split; [by etransitivity|].
    intros Hl. exfalso. destruct N2 as (_ & _ & Hms & _).
    destruct (finishScript_run (activityKey id) (rs_ms (w_redis w1)) _ h t n Hk (Z.le_lt_trans _ _ _ Hms Hl) Hc Hn) as (d' & Ec & _).
    unfold c in Er. fold (activityKey id) in Er. by rewrite Ec in Er.
Qed.

Lemma stored_nearby id n t h w w' : nearby workKeys w w' → stored id n t h w → stored id n t h w'.
Proof.
  intros (_ & _ & _ & _ & K) (E & Hs). split; [|done]. unfold activityEntry. rewrite K; [done|apply activityKey_notWork].
Qed.
Lemma stored_posted id n t h w w' : posted workKeys w w' → stored id n t h w → stored id n t h w'.
Proof.
  intros (_ & _ & _ & K) (E & Hs). split; [|done]. unfold activityEntry. rewrite K; [done|apply activityKey_notWork].
Qed.

(** How an attempt leaves the stored activity: with one target less when the target is settled,
    as it was when the attempt will be repeated. *)
Definition accounted (id : string) (n t : Z) (h : gmap string string) (settled : bool) (w' : W) : Prop :=
  rs_ms (w_redis w') < t →
  activityEntry id w' = if settled then oneTargetLess n t h else Some (mkEntry (RHash h) (Some t)).

Definition settleOrRetry (id : string) (attempt : deliveryAttempt) : M W unit :=
  if negb (Terminal attempt) then (_ ← timeNow; mret tt) else (_ ← finishRelayTarget wk id; mret tt).
Definition finishKeys (id : string) (k : string) : Prop := workKeys k ∨ k = activityKey id.
Lemma settleOrRetry_run id attempt n t h (w : W) : stored id n t h w → ∃ w',
  settleOrRetry id attempt w = (w', Done tt) ∧ nearby (finishKeys id) w w'
  ∧ accounted id n t h (Terminal attempt) w'.
Proof.
  intros Hs. unfold settleOrRetry. destruct (Terminal attempt); cbn [negb].
  - destruct (finishRelayTarget_run id n t h w Hs) as (w' & r & E & N & Ha).
    exists w'. erewrite bind_Done by exact E. by split.
  - destruct (runs_timeNow workKeys w) as (w' & now & E & N). exists w'. erewrite bind_Done by exact E.
    split; [done|]. split; [eapply nearby_weaken; [|exact N]; by left|].
    intros _. by destruct (stored_nearby _ _ _ _ _ _ N Hs) as [Hs' _].
Qed.
Lemma settleAttempt_run id domain attempt e n t h (w : W) : stored id n t h w → ∃ w' r,
  settleAttempt wk id domain attempt e w = (w', Done r) ∧ nearby (finishKeys id) w w'
  ∧ accounted id n t h (is_ok r || Terminal attempt) w' ∧ (is_ok r = true ↔ e = None).
Proof.
  intros Hs. unfold settleAttempt. assert (Hk : ∀ k, workKeys k → finishKeys id k) by by left.
  destruct e as [e|].
  - destruct (runs_recordDeliveryMetric wk "failure" (ClassifyDeliveryError (Some e)) w) as (w1 & u1 & E1 & N1).
    erewrite bind_Done by exact E1.
    destruct (runs_recordReceiverAttempt wk domain false w1) as (w2 & u2 & E2 & N2). erewrite bind_Done by exact E2.
    destruct (runs_storeTransientDeliveryError wk domain (Some e) w2) as (w3 & u3 & E3 & N3).
    erewrite bind_Done by exact E3. pose proof (transitivity (transitivity N1 N2) N3) as N.
    destruct (settleOrRetry_run id attempt n t h w3 (stored_nearby _ _ _ _ _ _ N Hs)) as (w4 & E4 & N4 & Ha).
    unfold settleOrRetry in E4. exists w4, (Err e). erewrite bind_Done by exact E4. split; [done|].
    split; [etransitivity; [by eapply nearby_weaken|exact N4]|]. by split.
  - destruct (runs_recordDeliveryMetric wk "success" "none" w) as (w1 & u1 & E1 & N1). erewrite bind_Done by exact E1.
    destruct (runs_recordReceiverAttempt wk domain true w1) as (w2 & u2 & E2 & N2). erewrite bind_Done by exact E2.
    pose proof (transitivity N1 N2) as N.
    destruct (finishRelayTarget_run id n t h w2 (stored_nearby _ _ _ _ _ _ N Hs)) as (w3 & r & E3 & N3 & Ha).
    exists w3, (Ok tt). erewrite bind_Done by exact E3. split; [done|].
    split; [etransitivity; [by eapply nearby_weaken|exact N3]|]. by split.
Qed.

Lemma bodyUnavailable_run id attempt e n t h (w : W) : stored id n t h w → ∃ w' r,
  bodyUnavailable wk id attempt e w = (w', Done r) ∧ nearby (finishKeys id) w w'
  ∧ accounted id n t h (is_ok r || Terminal attempt) w'.
Proof.
  intros Hs. unfold bodyUnavailable. assert (Hk : ∀ k, workKeys k → finishKeys id k) by by left.
  assert (Hc : runs (nearby workKeys) (if errorIs e redisNilName then mret "activity_expired"
    else _ ← recordWorkerRedisFailure wk "activity_load"; mret "other")).
  { case_match; [by apply runs_ret, _|]. apply runs_bind; [typeclasses eauto| |intros ?; by apply runs_ret, _].
    apply runs_recordWorkerRedisFailure. }
  destruct (Hc w) as (w1 & class & E1 & N1). erewrite bind_Done by exact E1.
  destruct (runs_recordDeliveryMetric wk "skipped" class w1) as (w2 & u2 & E2 & N2). erewrite bind_Done by exact E2.
  pose proof (transitivity N1 N2) as N.
  destruct (settleOrRetry_run id attempt n t h w2 (stored_nearby _ _ _ _ _ _ N Hs)) as (w3 & E3 & N3 & Ha).
  unfold settleOrRetry in E3. eexists w3, _. erewrite bind_Done by exact E3. split; [reflexivity|].
  split; [etransitivity; [by eapply nearby_weaken|exact N3]|]. exact Ha.
Qed.

End settle.

(** ** Witnesses *)

Definition demoLibraries : Libraries (PrivateKey := unit) (Message := unit) :=
  mkLibraries (λ _, "Thu, 01 Jan 1970 00:00:00 GMT") (λ _ _ _ _ r, Ok r) (λ _ _ _ _, Ok tt) (λ _ r, Ok r)
    (λ _, Ok []) (λ _, Ok "sha-256=:x:") (λ _ _, false) (λ n, n + 1).
Definition demoWorker : Worker (S := Calm) (PrivateKey := unit) :=
  mkWorker (Some (mkWorkerConfig "" "relay" "relay.example" (Some tt))) "1" exampleActor true None.
Definition storedHash (n : Z) : gmap string string := {[ "body" := "{}"; "remain_count" := itoa n ]}.
Definition deliveryWorld (n : Z) : World Calm :=
  quietWorld (mkCalm 5 (mkDb {[ activityKey "id" := mkEntry (RHash (storedHash n)) (Some 900000) ]} []))
    (zeroRelayState true).
#[export] Instance demoWorker_observer : ObserverLaws demoLibraries demoWorker.
Proof. by apply observer_unsigned. Qed.

Example delivery_example :
  let w' := (relayActivityV2 demoLibraries demoWorker None ["https://a.example/inbox"; "id"; "legacy"] (deliveryWorld 2)).1 in
  map reqURL (w_sentRequests w') = ["https://a.example/inbox"]
  ∧ (match activityEntry "id" w' with Some (mkEntry (RHash h) _) => h !! "remain_count" | _ => None end) = Some "1".
Proof. vm_compute. done. Qed.

Lemma body_lives_until_last_target_witness :
  db_keys (finishAll "k" [6; 7] (storeRelayActivityScript "k" "b" (itoa 2) ActivityRetentionSeconds 5 emptyDb).1) !! "k"
  = None.
Proof.
  apply (body_lives_until_last_target "k" "b" 2 5 emptyDb
    (storeRelayActivityScript "k" "b" (itoa 2) ActivityRetentionSeconds 5 emptyDb).1 [6; 7]).
  - lia.
  - vm_compute. reflexivity.
  - repeat constructor.
Defined.

Lemma delivered_iff_2xx_witness : ∃ w' response e sent,
  sendActivityWithResponseProfile demoLibraries demoWorker "https://a.example/inbox" "k" "b" (Some tt) "legacy"
    (deliveryWorld 2) = (w', Done (response, e))
  ∧ posted noKeys (deliveryWorld 2) w' ∧ w_sentRequests w' = w_sentRequests (deliveryWorld 2) ++ sent
  ∧ (e = None ↔ ∃ answer, lastAnswer (deliveryWorld 2) sent = Some (Ok answer)
       ∧ drStatusCode response = StatusCode answer ∧ Z.quot (StatusCode answer) 100 = 2).
Proof. apply (delivered_iff_2xx demoLibraries demoWorker). discriminate. Defined.
(** A server that answers a post with a redirect to its front page: the worker fetches the page and takes
    the activity for delivered, although nothing accepted it. *)
Definition redirectingWorld : World Calm :=
  let w := deliveryWorld 2 in
  mkWorld (w_redis w) (w_relay w) (w_clock w) (w_ticks w) (w_uuid w) (w_uuids w) (w_broker w) (w_sends w) (w_queued w)
    (λ _ q, Ok (if reqMethod q =s "POST" then mkHttpResponse 302 "302 Found" {[ "Location" := ["/about"] ]} "" None
                else mkHttpResponse 200 "200 OK" ∅ "" None))
    (w_posts w) (w_sentRequests w) (w_spawned w) (w_cache w).
Example redirect_counts_as_delivery :
  let '(w', o) := relayActivityV2 demoLibraries demoWorker None ["https://a.example/inbox"; "id"; "legacy"] redirectingWorld in
  o = Done (Ok tt) ∧ map (λ q, (reqMethod q, reqURL q, reqBody q)) (w_sentRequests w')
    = [("POST", "https://a.example/inbox", "{}"); ("GET", "https://a.example/about", "")].
Proof. vm_compute. done. Qed.

