(* ===== verification/NetAddr.v ===== *)
(** * IP addresses: package net/netip

    [ParseAddr], [Addr.String] and the address classes the directory client tests.
    An IPv6 address is its eight 16-bit groups with its zone; error texts are not
    kept (the source discards them). *)

From S2P Require Import Prelude GoStrings GoUrl.

Inductive Addr :=
  | Addr4 (octets : list Z)
  | Addr6 (groups : list Z) (zone : string).
#[export] Instance Addr_eq_dec : EqDecision Addr.
Proof. solve_decision. Defined.

(** ** Parsing *)

(** One decimal octet: no leading zero, at most 255. *)
Definition octet (s : string) : option Z :=
  match bytes s with
  | [] => None
  | c :: r =>
      if negb (forallb isDigit (c :: r)) then None
      else if bool_decide (c = "0"%char) && negb (bool_decide (r = [])) then None
      else n ← parseDigits s; if n <=? 255 then Some n else None
  end.
Definition parseIPv4Fields (s : string) : option (list Z) :=
  match Split s "." with
  | [a; b; c; d] => w ← octet a; x ← octet b; y ← octet c; z ← octet d; Some [w; x; y; z]
  | _ => None
  end.

(** The leading hexadecimal digits of a group, their value and the rest. *)
Fixpoint hexRun (acc : Z) (digits : nat) (l : list ascii) : Z * nat * list ascii :=
  match l with
  | c :: r => if isHex c then hexRun (16 * acc + Z.of_N (unhex c)) (Datatypes.S digits) r
              else (acc, digits, l)
  | [] => (acc, digits, [])
  end.
(** The loop over the groups: the groups read, where the ellipsis is and whether all is read. *)
Fixpoint groupsLoop (fuel : nat) (groups : list Z) (ellipsis : option nat) (l : list ascii)
    : option (list Z * option nat) :=
  if (8 <=? length groups)%nat then match l with [] => Some (groups, ellipsis) | _ => None end
  else
  match fuel with
  | O => None
  | Datatypes.S fuel =>
      let '(acc, digits, rest) := hexRun 0 0 l in
      if (digits =? 0)%nat || (4 <? digits)%nat then None
      else match rest with
      | [] => Some (groups ++ [acc], ellipsis)
      | c :: rest' =>
          if decide (c = "."%char) then
            if bool_decide (ellipsis = None) && negb (length groups =? 6)%nat then None
            else if (6 <? length groups)%nat then None
            else match parseIPv4Fields (ofBytes l) with
                 | Some [a; b; c; d] => Some (groups ++ [256 * a + b; 256 * c + d], ellipsis)
                 | _ => None
                 end
          else if negb (bool_decide (c = ":"%char)) then None
          else
            let groups := groups ++ [acc] in
            match rest' with
            | [] => None
            | c2 :: rest2 =>
                if decide (c2 = ":"%char) then
                  match ellipsis with
                  | Some _ => None
                  | None => match rest2 with
                            | [] => Some (groups, Some (length groups))
                            | _ => groupsLoop fuel groups (Some (length groups)) rest2
                            end
                  end
                else groupsLoop fuel groups ellipsis rest'
            end
      end
  end.
Definition expandEllipsis (r : list Z * option nat) : option (list Z) :=
  let '(groups, ellipsis) := r in
  if (length groups <? 8)%nat then
    match ellipsis with
    | None => None
    | Some e => Some (take e groups ++ repeat 0 (8 - length groups) ++ drop e groups)
    end
  else match ellipsis with Some _ => None | None => Some groups end.
Definition parseIPv6 (s : string) : option Addr :=
  let '(s, zone, found) := Cut s "%" in
  if found && (zone =s "") then None
  else
    let groups :=
      match cutPrefix "::" s with
      | Some r => if r =s "" then Some (repeat 0 8)
                  else groupsLoop 9 [] (Some 0%nat) (bytes r) ≫= expandEllipsis
      | None => groupsLoop 9 [] None (bytes s) ≫= expandEllipsis
      end in
    (λ g, Addr6 g zone) <$> groups.

(** [netip.ParseAddr]: the first of the characters ".", ":" and "%" selects the parser. *)
Fixpoint addrKind (l : list ascii) : option ascii :=
  match l with
  | [] => None
  | c :: r => if bool_decide (c ∈ ["."; ":"; "%"]%char) then Some c else addrKind r
  end.
Definition ParseAddr (s : string) : option Addr :=
  match addrKind (bytes s) with
  | Some c => if decide (c = "."%char) then Addr4 <$> parseIPv4Fields s
              else if decide (c = ":"%char) then parseIPv6 s else None
  | None => None
  end.

(** ** Printing *)

Definition dotted (l : list Z) : string := Join (map itoa l) ".".
Definition hexText (z : Z) : string :=
  ofBytes (match dropWhileByte "0"%char
                   (map (λ k, hexDigit (Z.to_N (z / 16 ^ k mod 16))) [3; 2; 1; 0]) with
           | [] => ["0"%char]
           | l => l
           end).
(** The zero run starting at a list. *)
Fixpoint zeroRun (l : list Z) : nat :=
  match l with z :: l => if z =? 0 then Datatypes.S (zeroRun l) else 0%nat | [] => 0%nat end.
(** The first longest run of at least two zero groups: its start and length. *)
Fixpoint longestRun (i : nat) (best : nat * nat) (l : list Z) : nat * nat :=
  match l with
  | [] => best
  | _ :: r =>
      let n := zeroRun l in
      longestRun (Datatypes.S i) (if (2 <=? n)%nat && (best.2 <? n)%nat then (i, n) else best) r
  end.
Definition string6 (groups : list Z) : string :=
  let '(i, n) := longestRun 0 (8%nat, 0%nat) groups in
  if (n =? 0)%nat then Join (map hexText groups) ":"
  else Join (map hexText (take i groups)) ":" +:+ "::" +:+ Join (map hexText (drop (i + n) groups)) ":".
Definition zoneText (zone : string) : string := if zone =s "" then "" else "%" +:+ zone.
Definition Addr_String (a : Addr) : string :=
  match a with
  | Addr4 l => dotted l
  | Addr6 [0; 0; 0; 0; 0; 65535; x; y] zone =>
      "::ffff:" +:+ dotted [x / 256; x mod 256; y / 256; y mod 256] +:+ zoneText zone
  | Addr6 g zone => string6 g +:+ zoneText zone
  end.
Definition Is6 (a : Addr) : bool := match a with Addr6 _ _ => true | Addr4 _ => false end.

(** ** Classes *)

Definition group (g : list Z) (i : nat) : Z := nth i g 0.
Definition octetAt (l : list Z) (i : nat) : Z := nth i l 0.
(** [IsLoopback], [IsMulticast], ... of an IPv4 address; an IPv4-mapped IPv6 address is
    unmapped first by [IsLoopback], [IsLinkLocalUnicast], [IsLinkLocalMulticast] and
    [IsMulticast]. *)
Definition Unmap (a : Addr) : Addr :=
  match a with
  | Addr6 [0; 0; 0; 0; 0; 65535; x; y] _ => Addr4 [x / 256; x mod 256; y / 256; y mod 256]
  | _ => a
  end.
Definition IsUnspecified (a : Addr) : bool :=
  bool_decide (a = Addr4 [0; 0; 0; 0] ∨ a = Addr6 (repeat 0 8) "").
Definition IsLoopback (a : Addr) : bool :=
  match Unmap a with
  | Addr4 l => octetAt l 0 =? 127
  | Addr6 g _ => bool_decide (g = [0; 0; 0; 0; 0; 0; 0; 1])
  end.
Definition IsLinkLocalUnicast (a : Addr) : bool :=
  match Unmap a with
  | Addr4 l => (octetAt l 0 =? 169) && (octetAt l 1 =? 254)
  | Addr6 g _ => Z.land (group g 0) 65472 =? 65152
  end.
Definition IsLinkLocalMulticast (a : Addr) : bool :=
  match Unmap a with
  | Addr4 l => (octetAt l 0 =? 224) && (octetAt l 1 =? 0) && (octetAt l 2 =? 0)
  | Addr6 g _ => Z.land (group g 0) 65295 =? 65282
  end.
Definition IsMulticast (a : Addr) : bool :=
  match Unmap a with
  | Addr4 l => Z.land (octetAt l 0) 240 =? 224
  | Addr6 g _ => Z.shiftr (group g 0) 8 =? 255
  end.

(** ** Known answers *)

Definition roundTrips (s : string) : bool :=
  match ParseAddr s with Some a => Addr_String a =s s | None => false end.
Example addr_canonical :
  forallb roundTrips ["192.0.2.1"; "::"; "::1"; "2001:db8::1"; "2001:db8:0:1::2"; "fe80::1%eth0";
                      "::ffff:192.0.2.1"; "1:2:3:4:5:6:7:8"; "1:0:0:4::8"; "64:ff9b::c000:201"] = true.
Proof. vm_compute. reflexivity. Qed.
Example addr_not_canonical :
  existsb roundTrips ["192.0.2.01"; "2001:DB8::1"; "2001:db8:0:0::1"; "1:2:3:4:5:6:7"; "0:0::0"; "1::2::3";
                      "1.2.3"; "1.2.3.256"; "fe80::1%"; "1:2:3:4:5:6:7:8:9"; "example.org"; "::1.2.3.4";
                      "1:2:3:4:5:6:7::8"] = false.
Proof. vm_compute. reflexivity. Qed.
