(* ===== verification/DirectoryOrigin.v ===== *)
(** * Directory origins (internal/directoryclient/origin.go)

    A directory is named by one canonical HTTPS origin.  [ParseOrigin] refuses any
    other spelling, so origins are compared as strings. *)

From S2P Require Import Prelude GoStrings GoUrl NetAddr.

Definition MaximumDirectories : Z := 8.
Definition ErrDirectoryConfiguration : error :=
  errorSentinel "ErrDirectoryConfiguration" "directory client configuration is invalid".

Record Directory := mkDirectory { Origin : string; Enabled : bool }.
#[export] Instance Directory_eq_dec : EqDecision Directory.
Proof. solve_decision. Defined.

(** The loop ranges over characters: a byte above 127 belongs to a character outside the set. *)
Definition validDNSLabel (label : string) : bool :=
  match bytes label with
  | [] => false
  | c :: _ =>
      negb ((63 <? len label) || bool_decide (c = "-"%char)
            || bool_decide (last (bytes label) = Some "-"%char))
      && forallb (λ c, inRange c 97 122 || isDigit c || bool_decide (c = "-"%char)) (bytes label)
  end.

Definition canonicalAuthority (parsed : URL) : bool :=
  let hostname := Hostname parsed in
  let port := Port parsed in
  let canonicalHost :=
    match ParseAddr hostname with
    | Some address =>
        if negb (hostname =s Addr_String address) then None
        else if Is6 address then Some ("[" +:+ hostname +:+ "]") else Some hostname
    | None =>
        if negb (ToLower hostname =s hostname) || HasSuffix hostname "." || (253 <? len hostname)
           || negb (Contains hostname ".") then None
        else if forallb validDNSLabel (Split hostname ".") then Some hostname else None
    end in
  match canonicalHost with
  | None => false
  | Some canonicalHost =>
      if port =s "" then Host parsed =s canonicalHost
      else match parseUint 16 port with
           | None => false
           | Some portNumber =>
               if (portNumber =? 0) || (portNumber =? 443) || negb (itoa portNumber =s port) then false
               else Host parsed =s canonicalHost +:+ ":" +:+ port
           end
  end.

Definition ParseOrigin (value : string) : result URL :=
  if (value =s "") || negb (TrimSpace value =s value) then Err ErrDirectoryConfiguration
  else match url_ParseRequestURI value with
  | Err _ => Err ErrDirectoryConfiguration
  | Ok parsed =>
      if negb (Scheme parsed =s "https") || (Host parsed =s "") || (Hostname parsed =s "")
         || match User parsed with Some _ => true | None => false end
         || negb (Path parsed =s "") || negb (RawPath parsed =s "") || negb (RawQuery parsed =s "")
         || negb (Fragment parsed =s "") || ForceQuery parsed || negb (Opaque parsed =s "")
         || negb (URL_String parsed =s value) then Err ErrDirectoryConfiguration
      else if negb (canonicalAuthority parsed) then Err ErrDirectoryConfiguration
      else Ok parsed
  end.

(** The loop of [ParseDirectories] with the origins seen so far. *)
Fixpoint parseEntries (seen : gset string) (entries : list Directory) : result (list Directory) :=
  match entries with
  | [] => Ok []
  | entry :: entries =>
      origin ← ParseOrigin (Origin entry);
      let canonical := URL_String origin in
      if decide (canonical ∈ seen) then Err ErrDirectoryConfiguration
      else
        rest ← parseEntries ({[canonical]} ∪ seen) entries;
        Ok (mkDirectory canonical (Enabled entry) :: rest)
  end.
Definition ParseDirectories (entries : list Directory) : result (list Directory) :=
  if MaximumDirectories <? Z.of_nat (length entries) then Err ErrDirectoryConfiguration
  else parseEntries ∅ entries.

(** ** Accepted origins *)

(** The origin is accepted as it is written.  (An address in an unusual notation that the URL keeps, such
    as https://192.0.2.07, is accepted too.) *)
Definition originOk (s : string) : Prop := is_ok (ParseOrigin s) = true.
#[export] Instance originOk_dec s : Decision (originOk s).
Proof. apply _. Defined.

Lemma ParseOrigin_String v u : ParseOrigin v = Ok u → URL_String u = v.
Proof.
  unfold ParseOrigin. destruct (_ || _); [done|]. destruct (url_ParseRequestURI v) as [p|]; [|done].
  destruct (_ || negb (URL_String p =s v)) eqn:E; [done|].
  destruct (canonicalAuthority p); [|done]. intros [= <-].
  apply orb_false_iff in E as [_ E]. apply negb_false_iff in E. by apply eqs_true in E.
Qed.
(** What an accepted origin is. *)
Lemma ParseOrigin_fields v u : ParseOrigin v = Ok u →
  url_ParseRequestURI v = Ok u ∧ Scheme u = "https" ∧ Host u ≠ "" ∧ User u = None ∧ Path u = ""
  ∧ RawPath u = "" ∧ RawQuery u = "" ∧ Fragment u = "" ∧ ForceQuery u = false ∧ Opaque u = ""
  ∧ canonicalAuthority u = true.
Proof.
  unfold ParseOrigin. destruct (_ || _); [done|]. destruct (url_ParseRequestURI v) as [p|]; [|done].
  destruct (_ || negb (URL_String p =s v)) eqn:E; [done|]. destruct (canonicalAuthority p) eqn:Ec; [|done].
  intros [= <-]. rewrite !orb_false_iff, !negb_false_iff, !eqs_true, !eqs_false in E.
  destruct (User p); [naive_solver|]. naive_solver.
Qed.

Lemma parseEntries_Ok seen es ds :
  parseEntries seen es = Ok ds ↔
  ds = es ∧ Forall originOk (Origin <$> es) ∧ NoDup (Origin <$> es)
  ∧ ∀ o, o ∈ Origin <$> es → o ∉ seen.
Proof.
  revert seen ds. induction es as [|e es IH]; intros seen ds; simpl.
  { split; [intros [= <-]|intros (-> & _); done].
    split; [done|]. split; [constructor|]. split; [constructor|]. by intros o ?%elem_of_nil. }
  rewrite Forall_cons, NoDup_cons. unfold originOk at 1.
  destruct (ParseOrigin (Origin e)) as [u|] eqn:Eo; simpl; [|by split; [|intros (_ & [? _] & _)]].
  rewrite (ParseOrigin_String _ _ Eo). case_decide as Hs.
  { split; [done|]. intros (_ & _ & _ & H). exfalso. eapply H; [left|done]. }
  split.
  - intros (rest & Hr & [= <-])%result_bind_Ok. apply IH in Hr as (-> & Hf & Hn & Hs').
    split; [by destruct e|]. split; [done|]. split; [split; [|done]|].
    + intros Hin. apply (Hs' _ Hin). set_solver.
    + intros o [->|Ho]%elem_of_cons; [done|]. specialize (Hs' o Ho). set_solver.
  - intros (-> & [_ Hf] & [Hni Hn] & Hs').
    assert (E : parseEntries ({[Origin e]} ∪ seen) es = Ok es).
    { apply IH. split; [done|]. split; [done|]. split; [done|]. intros o Ho.
      rewrite not_elem_of_union, not_elem_of_singleton. split; [by intros ->|].
      apply Hs'. by right. }
    rewrite E. simpl. by destruct e.
Qed.

(** A directory list is accepted exactly when it has at most eight entries, every origin
    is canonical and no origin is repeated, and it is then returned as it is: order,
    spelling and enabled flags are the operator's. *)
Theorem directories_accepted entries ds :
  ParseDirectories entries = Ok ds ↔
  ds = entries ∧ (length entries ≤ 8)%nat ∧ Forall originOk (Origin <$> entries)
  ∧ NoDup (Origin <$> entries).
Proof.
  unfold ParseDirectories, MaximumDirectories. destruct (Z.ltb_spec 8 (Z.of_nat (length entries))).
  { split; [done|]. intros (_ & ? & _). lia. }
  rewrite parseEntries_Ok. split.
  - intros (-> & Hf & Hn & _). split; [done|]. split; [lia|done].
  - intros (-> & _ & Hf & Hn). split; [done|]. split; [done|]. split; [done|]. set_solver.
Qed.

Example origins_accepted :
  forallb (λ s, is_ok (ParseOrigin s)) ["https://directory.example"; "https://directory.example:8443";
    "https://192.0.2.7"; "https://[2001:db8::7]"; "https://[2001:db8::7]:8443"] = true.
Proof. vm_compute. reflexivity. Qed.
Example origins_refused :
  existsb (λ s, is_ok (ParseOrigin s)) [""; " https://a.example"; "http://a.example"; "https://A.example";
    "https://a.example/"; "https://a.example:443"; "https://a.example:08443"; "https://localhost";
    "https://u@a.example"; "https://a.example?"; "https://a.example?x"; "https://-a.example";
    "https://a..example"; "https://a.example."; "https://[2001:DB8::7]"] = false.
Proof. vm_compute. reflexivity. Qed.
(** Four numbers that are no IPv4 address pass as the labels of a name. *)
Example noncanonical_address_as_name : is_ok (ParseOrigin "https://192.0.2.07") = true.
Proof. vm_compute. reflexivity. Qed.
