(* ===== verification/DirectoryProfile.v ===== *)
(** * The descriptive profile a relay publishes (internal/directoryclient/profile.go)

    [NormalizeRelayProfile] refuses a profile with any invalid field;
    [SanitizeRelayProfile] omits the invalid fields and reports them.
    [mail.ParseAddress] is a parameter: the address it finds in a text. *)

From S2P Require Import Prelude GoStrings GoUrl Json NetAddr DirectoryOrigin.

Definition MaximumProfileScalarBytes : Z := 256.
Definition MaximumProfileNoteBytes : Z := 1024.
Definition MaximumProfileListItems : Z := 16.
Definition MaximumProfileListItemBytes : Z := 128.
Definition MaximumProfileURLBytes : Z := 2048.
Definition MaximumProfileEmailBytes : Z := 320.
Definition MaximumProfileFediverseIDBytes : Z := 256.

Definition ErrProfile : error := errorSentinel "ErrProfile" "directory profile is invalid".

Record ProfileWarning := mkProfileWarning { warnField : string; warnMessage : string }.

Record RelayProfile := mkProfile {
  ParticipationMode : string;
  Availability : string;
  RelayType : string;
  Languages : list string;
  Countries : list string;
  Regions : list string;
  Topics : list string;
  ContactFediverse : string;
  ContactEmail : string;
  ContactURL : string;
  ParticipationURL : string;
  Notes : string
}.
Definition zeroProfile : RelayProfile := mkProfile "" "" "" [] [] [] [] "" "" "" "" "".

Definition validParticipationMode (value : string) : bool := oneOf value [""; "open"; "restricted"; "closed"].

(** [utf8.ValidString]. *)
Fixpoint validUtf8 (fuel : nat) (l : list ascii) : bool :=
  match l with
  | [] => true
  | c :: r =>
      match fuel with
      | O => false
      | Datatypes.S fuel =>
          if (byteN c <? 128)%N then validUtf8 fuel r
          else match runeWidth l with Some n => validUtf8 fuel (drop n l) | None => false end
      end
  end.
Definition validString (s : string) : bool := validUtf8 (String.length s) (bytes s).

(** The loop ranges over characters; the tested ones are single bytes. *)
Definition containsProfileControl (value : string) : bool := existsb isCTL (bytes value).

Definition normalizeProfileText (value : string) (maximum : Z) : result string :=
  let value := TrimSpace value in
  if value =s "" then Ok ""
  else if negb (validString value) || (maximum <? len value) || containsProfileControl value
  then Err ErrProfile
  else Ok value.

(** The loop of [normalizeProfileList]: the normalized items, repeated ones included. *)
Fixpoint normalizeItems (values : list string) : result (list string) :=
  match values with
  | [] => Ok []
  | value :: values =>
      match normalizeProfileText value MaximumProfileListItemBytes with
      | Err _ => Err ErrProfile
      | Ok normalized =>
          if normalized =s "" then Err ErrProfile
          else rest ← normalizeItems values; Ok (normalized :: rest)
      end
  end.
Definition normalizeProfileList (values : list string) : result (list string) :=
  match values with
  | [] => Ok []
  | _ =>
      if MaximumProfileListItems <? Z.of_nat (length values) then Err ErrProfile
      else items ← normalizeItems values; Ok (sortStrings (remove_dups items))
  end.

Definition normalizeProfileURL (value : string) : result string :=
  let value := TrimSpace value in
  if value =s "" then Ok ""
  else if negb (validString value) || (MaximumProfileURLBytes <? len value) || containsProfileControl value
  then Err ErrProfile
  else match url_ParseRequestURI value with
  | Err _ => Err ErrProfile
  | Ok parsed =>
      if negb (Scheme parsed =s "https") || match User parsed with Some _ => true | None => false end
         || (Host parsed =s "") || negb (RawQuery parsed =s "") || negb (Fragment parsed =s "")
         || ForceQuery parsed || negb (Opaque parsed =s "") || negb (URL_String parsed =s value)
      then Err ErrProfile
      else if negb (is_ok (ParseOrigin ("https://" +:+ Host parsed))) then Err ErrProfile
      else
        let path := EscapedPath parsed in
        let path := if path =s "" then "/" else path in
        if Contains path "%" || Contains path "\" || Contains path "//" then Err ErrProfile
        else if existsb (λ segment, (segment =s ".") || (segment =s "..")) (Split path "/")
        then Err ErrProfile
        else Ok ("https://" +:+ Host parsed +:+ path)
  end.

Section email.
Variable ParseAddress : string → result string.

Definition normalizeProfileEmail (value : string) : result string :=
  let value := TrimSpace value in
  if value =s "" then Ok ""
  else if negb (validString value) || (MaximumProfileEmailBytes <? len value) || containsProfileControl value
  then Err ErrProfile
  else match ParseAddress value with
  | Err _ => Err ErrProfile
  | Ok address =>
      if negb (address =s value)
         || existsb (λ c, bool_decide (c ∈ ["<"%char; ">"%char; dquote])) (bytes value)
      then Err ErrProfile
      else Ok value
  end.

Definition NormalizeRelayProfile (profile : RelayProfile) : result RelayProfile :=
  match normalizeProfileText (ParticipationMode profile) MaximumProfileScalarBytes with
  | Err _ => Err ErrProfile
  | Ok participationMode =>
      if negb (validParticipationMode participationMode) then Err ErrProfile
      else
        availability ← normalizeProfileText (Availability profile) MaximumProfileScalarBytes;
        relayType ← normalizeProfileText (RelayType profile) MaximumProfileScalarBytes;
        languages ← normalizeProfileList (Languages profile);
        countries ← normalizeProfileList (Countries profile);
        regions ← normalizeProfileList (Regions profile);
        topics ← normalizeProfileList (Topics profile);
        contactFediverse ← normalizeProfileText (ContactFediverse profile) MaximumProfileFediverseIDBytes;
        contactEmail ← normalizeProfileEmail (ContactEmail profile);
        contactURL ← normalizeProfileURL (ContactURL profile);
        participationURL ← normalizeProfileURL (ParticipationURL profile);
        notes ← normalizeProfileText (Notes profile) MaximumProfileNoteBytes;
        Ok (mkProfile participationMode availability relayType languages countries regions topics
              contactFediverse contactEmail contactURL participationURL notes)
  end.

(** One field of [SanitizeRelayProfile]: its normal form, or nothing and a warning. *)
Definition keepOr {A} (empty : A) (field message : string) (r : result A) : A * list ProfileWarning :=
  match r with Ok a => (a, []) | Err _ => (empty, [mkProfileWarning field message]) end.
Definition setText (field value : string) (maximum : Z) : string * list ProfileWarning :=
  keepOr "" field "invalid value; field will be omitted" (normalizeProfileText value maximum).
Definition setList (field : string) (values : list string) : list string * list ProfileWarning :=
  keepOr [] field "invalid list; field will be omitted" (normalizeProfileList values).

Definition setParticipation (value : string) : string * list ProfileWarning :=
  keepOr "" "participation_mode"
    "invalid value; allowed values are open, restricted, closed; field will be omitted"
    (participation ← normalizeProfileText value MaximumProfileScalarBytes;
     if validParticipationMode participation then Ok participation else Err ErrProfile).

Definition SanitizeRelayProfile (profile : RelayProfile) : RelayProfile * list ProfileWarning :=
  let '(participation, w1) := setParticipation (ParticipationMode profile) in
  let '(availability, w2) := setText "availability" (Availability profile) MaximumProfileScalarBytes in
  let '(relayType, w3) := setText "relay_type" (RelayType profile) MaximumProfileScalarBytes in
  let '(languages, w4) := setList "languages" (Languages profile) in
  let '(countries, w5) := setList "countries" (Countries profile) in
  let '(regions, w6) := setList "regions" (Regions profile) in
  let '(topics, w7) := setList "topics" (Topics profile) in
  let '(contactFediverse, w8) := setText "contact_fediverse" (ContactFediverse profile) MaximumProfileFediverseIDBytes in
  let '(contactEmail, w9) := keepOr "" "contact_email" "invalid email address; field will be omitted"
                               (normalizeProfileEmail (ContactEmail profile)) in
  let '(contactURL, w10) := keepOr "" "contact_url" "invalid HTTPS URL; field will be omitted"
                              (normalizeProfileURL (ContactURL profile)) in
  let '(participationURL, w11) := keepOr "" "participation_url" "invalid HTTPS URL; field will be omitted"
                                    (normalizeProfileURL (ParticipationURL profile)) in
  let '(notes, w12) := setText "notes" (Notes profile) MaximumProfileNoteBytes in
  (mkProfile participation availability relayType languages countries regions topics contactFediverse
     contactEmail contactURL participationURL notes,
   w1 ++ w2 ++ w3 ++ w4 ++ w5 ++ w6 ++ w7 ++ w8 ++ w9 ++ w10 ++ w11 ++ w12).
End email.

(** ** The wire form and its digest (v2.go) *)

Definition stringArray (l : list string) : json := JArray (map JString l).
(** [profileWire], as [json.Marshal] writes it: an empty list is [[]], not [null]. *)
Definition profileWire (profile : RelayProfile) : json :=
  JObject [("participation_mode", JString (ParticipationMode profile));
           ("availability", JString (Availability profile)); ("relay_type", JString (RelayType profile));
           ("languages", stringArray (Languages profile)); ("countries", stringArray (Countries profile));
           ("regions", stringArray (Regions profile)); ("topics", stringArray (Topics profile));
           ("contact_fediverse", JString (ContactFediverse profile));
           ("contact_email", JString (ContactEmail profile)); ("contact_url", JString (ContactURL profile));
           ("participation_url", JString (ParticipationURL profile)); ("notes", JString (Notes profile))].
