(* ===== verification/DirectoryProfileSpec.v ===== *)
(** * Profiles: sanitizing, normalizing, and doing it twice *)

From S2P Require Import Prelude GoStrings GoUrl Json NetAddr DirectoryOrigin DirectoryProfile.

Section fields.
Context (ParseAddress : string → result string).
Abbreviation Normalize := (NormalizeRelayProfile ParseAddress).
Abbreviation Sanitize := (SanitizeRelayProfile ParseAddress).

Lemma keepOr_ok {A} (e : A) f m r a : keepOr e f m r = (a, []) ↔ r = Ok a.
Proof. unfold keepOr. destruct r; split; congruence. Qed.

(** A chain of fields: all kept exactly when all normalize. *)
Ltac split_fields :=
  repeat match goal with
  | H : _ ++ _ = [] |- _ => apply app_eq_nil in H as [? ?]; subst
  end.

(** Sanitizing agrees with normalizing: a profile is accepted by NormalizeRelayProfile
    exactly when SanitizeRelayProfile reports no warning, and then both give the same
    profile. *)
Theorem sanitize_agrees_with_normalize p q : Normalize p = Ok q ↔ Sanitize p = (q, []).
Proof.
  unfold NormalizeRelayProfile, SanitizeRelayProfile, setParticipation, setText, setList.
  destruct (normalizeProfileText (ParticipationMode p) _) as [a|e];
    cbv beta iota zeta delta [mbind result_bind]; [destruct (validParticipationMode a)|]; cbn [negb].
  2, 3: unfold keepOr at 1; by split; [|repeat (destruct (keepOr _ _ _ _))].
  unfold keepOr at 1.
  split.
  - intros H. repeat (apply result_bind_Ok in H as (? & E & H); rewrite E; clear E). by injection H as <-.
  - repeat match goal with |- context [keepOr ?e ?f ?m ?r] =>
      let E := fresh "E" in destruct (keepOr e f m r) as [? ?] eqn:E end.
    intros [= <- Hw]. split_fields. apply keepOr_ok in E, E0, E1, E2, E3, E4, E5, E6, E7, E8, E9.
    rewrite E, E0, E1, E2, E3, E4, E5, E6, E7, E8, E9. done.
Qed.

(** ** Normal forms are normal *)

Lemma normalizeProfileText_idem v m r :
  normalizeProfileText v m = Ok r → normalizeProfileText r m = Ok r.
Proof.
  unfold normalizeProfileText. destruct (eqs (TrimSpace v) "") eqn:E.
  { intros [= <-]. done. }
  destruct (_ || _ || _) eqn:E2; [done|]. intros [= <-].
  rewrite TrimSpace_idem, E, E2. done.
Qed.
Lemma normalizeProfileEmail_idem v r :
  normalizeProfileEmail ParseAddress v = Ok r → normalizeProfileEmail ParseAddress r = Ok r.
Proof.
  unfold normalizeProfileEmail. destruct (eqs (TrimSpace v) "") eqn:E.
  { intros [= <-]. done. }
  destruct (negb (validString (TrimSpace v)) || _ || _) eqn:E2; [done|].
  destruct (ParseAddress (TrimSpace v)) as [a|] eqn:E3; [|done].
  destruct (negb (eqs a (TrimSpace v)) || _) eqn:E4; [done|]. intros [= <-].
  by rewrite TrimSpace_idem, E, E2, E3, E4.
Qed.

Lemma normalizeItems_normal l r :
  normalizeItems l = Ok r →
  Forall (λ x, x ≠ "" ∧ normalizeProfileText x MaximumProfileListItemBytes = Ok x) r
  ∧ length r = length l.
Proof.
  revert r. induction l as [|v l IH]; intros r; simpl; [intros [= <-]; by split|].
  destruct (normalizeProfileText v _) as [x|] eqn:E; [|done].
  destruct (eqs x "") eqn:Ex; [done|]. intros (rest & Hr & [= <-])%result_bind_Ok.
  destruct (IH rest Hr) as [Hf Hl]. split; [|simpl; lia]. constructor; [|done].
  split; [by apply eqs_false|by eapply normalizeProfileText_idem].
Qed.
Lemma normalizeItems_fix l :
  Forall (λ x, x ≠ "" ∧ normalizeProfileText x MaximumProfileListItemBytes = Ok x) l →
  normalizeItems l = Ok l.
Proof.
  induction 1 as [|x l [Hx E] _ IH]; simpl; [done|]. rewrite E.
  apply eqs_false in Hx. rewrite Hx, IH. done.
Qed.

Lemma remove_dups_NoDup_id (l : list string) : NoDup l → remove_dups l = l.
Proof.
  induction 1 as [|x l Hx _ IH]; simpl; [done|]. destruct (decide_rel _ _ _); [done|by rewrite IH].
Qed.
Lemma remove_dups_length (l : list string) : (length (remove_dups l) ≤ length l)%nat.
Proof. induction l as [|x l IH]; simpl; [lia|]. destruct (decide_rel _ _ _); simpl; lia. Qed.
Lemma sortStrings_fix l : Sorted strLe l → sortStrings l = l.
Proof.
  intros Hs. apply (Sorted_unique strLe); [apply sortStrings_sorted|done|apply sortStrings_perm].
Qed.

Lemma normalizeProfileList_idem l r : normalizeProfileList l = Ok r → normalizeProfileList r = Ok r.
Proof.
  destruct l as [|v l]; [by intros [= <-]|]. unfold normalizeProfileList at 1.
  destruct (Z.ltb_spec MaximumProfileListItems (Z.of_nat (length (v :: l)))) as [|Hl]; [done|].
  intros (items & Hi & [= <-])%result_bind_Ok. destruct (normalizeItems_normal _ _ Hi) as [Hf Hlen].
  set (r := sortStrings (remove_dups items)).
  assert (Hperm : r ≡ₚ remove_dups items) by apply sortStrings_perm.
  assert (Hn : NoDup r) by (rewrite Hperm; apply NoDup_remove_dups).
  assert (Hr : normalizeItems r = Ok r).
  { apply normalizeItems_fix. rewrite Hperm. apply Forall_forall. intros x Hx.
    rewrite elem_of_remove_dups in Hx. by eapply Forall_forall in Hf. }
  assert (Hlr : (length r ≤ length (v :: l))%nat).
  { rewrite Hperm, <- Hlen. apply remove_dups_length. }
  assert (Hsort : Sorted strLe r) by apply sortStrings_sorted.
  clearbody r. unfold normalizeProfileList. destruct r as [|y r]; [done|].
  destruct (Z.ltb_spec MaximumProfileListItems (Z.of_nat (length (y :: r)))); [lia|].
  rewrite Hr. change (Ok (sortStrings (remove_dups (y :: r))) = Ok (y :: r)).
  by rewrite remove_dups_NoDup_id, sortStrings_fix.
Qed.
End fields.

(** ** Links *)

Lemma cutBytes_None c l : c ∉ l → cutBytes c l = (l, None).
Proof.
  induction l as [|x l IH]; simpl; [done|]. intros [Hx Hl]%not_elem_of_cons.
  rewrite decide_False by done. by rewrite IH.
Qed.
Lemma cutBytes_first c l r : c ∉ l → cutBytes c (l ++ c :: r) = (l, Some r).
Proof.
  induction l as [|x l IH]; simpl; [by rewrite decide_True|]. intros [Hx Hl]%not_elem_of_cons.
  rewrite decide_False by done. by rewrite IH.
Qed.
Lemma cutBytes_in c l : c ∈ l → ∃ a b, cutBytes c l = (a, Some b).
Proof.
  induction l as [|x l IH]; [by intros ?%elem_of_nil|]. intros Hc. simpl. case_decide as Hd; [eauto|].
  apply elem_of_cons in Hc as [->|Hc]; [done|]. destruct (IH Hc) as (a & b & E). rewrite E. eauto.
Qed.
Lemma containsByte_false c s : containsByte c s = false ↔ c ∉ bytes s.
Proof. unfold containsByte. apply bool_decide_eq_false. Qed.
Lemma Cut_absent s c : c ∉ bytes s → Cut s c = (s, "", false).
Proof. intros Hc. unfold Cut. by rewrite cutBytes_None, ofBytes_bytes. Qed.
Lemma Cut_last s c : c ∉ bytes s → Cut (s +:+ String c "") c = (s, "", true).
Proof.
  intros Hc. unfold Cut. rewrite bytes_app. simpl bytes. rewrite cutBytes_first by done.
  by rewrite ofBytes_bytes.
Qed.
Lemma Cut_present s c : c ∈ bytes s → ∃ a b, Cut s c = (a, b, true).
Proof. intros Hc. unfold Cut. destruct (cutBytes_in c _ Hc) as (a & b & ->). eauto. Qed.

Lemma escapeBytes_plain mode l : "%"%char ∉ GoUrl.escapeBytes mode l → GoUrl.escapeBytes mode l = l.
Proof.
  induction l as [|c l IH]; simpl; [done|]. destruct (shouldEscape c mode); simpl.
  - intros [? _]%not_elem_of_cons. done.
  - intros [_ Hl]%not_elem_of_cons. by rewrite IH.
Qed.
Lemma escape_plain s mode : "%"%char ∉ bytes (escape s mode) → escape s mode = s.
Proof.
  unfold escape. rewrite bytes_ofBytes. intros H. by rewrite escapeBytes_plain, ofBytes_bytes.
Qed.

Lemma append_assoc (a b c : string) : (a +:+ b) +:+ c = a +:+ b +:+ c.
Proof.
  induction a as [|x a IH]; [done|].
  change (String x ((a +:+ b) +:+ c) = String x (a +:+ b +:+ c)). by rewrite IH.
Qed.
Lemma append_nil_r (a : string) : a +:+ "" = a.
Proof. induction a as [|x a IH]; [done|]. change (String x (a +:+ "") = String x a). by rewrite IH. Qed.

(** The text of an HTTPS URL without query and fragment. *)
Lemma URL_String_https u :
  Scheme u = "https" → Opaque u = "" → User u = None → Host u ≠ "" → ForceQuery u = false →
  RawQuery u = "" → Fragment u = "" →
  URL_String u = "https://" +:+ escape (Host u) encodeHost
    +:+ (if negb (eqs (EscapedPath u) "") && negb (HasPrefix (EscapedPath u) "/") then "/" else "")
    +:+ EscapedPath u.
Proof.
  intros Hs Ho Hu Hh Hf Hq Hfr. unfold URL_String. rewrite Hs, Ho, Hu, Hf, Hq, Hfr.
  apply eqs_false in Hh. rewrite Hh. cbn -[EscapedPath escape HasPrefix Cut]. rewrite andb_false_r. simpl.
  rewrite andb_true_r. set (p := EscapedPath u). set (h := escape (Host u) encodeHost).
  destruct (negb (eqs p "") && negb (HasPrefix p "/")); simpl; by rewrite ?append_assoc.
Qed.

Lemma getScheme_https h : getScheme ("https://" +:+ h) = Ok ("https", "//" +:+ h).
Proof.
  unfold getScheme. rewrite bytes_app.
  transitivity ((Ok ("https", ofBytes (bytes "//" ++ bytes h))) : result (string * string)); [reflexivity|].
  by rewrite <- bytes_app, ofBytes_bytes.
Qed.
Lemma HasPrefix_slashes h : HasPrefix ("//" +:+ h) "/" = true ∧ HasPrefix ("//" +:+ h) "//" = true.
Proof. split; [|apply HasPrefix_app]. apply HasPrefix_true. by exists ("/" +:+ h). Qed.

(** The parse of an HTTPS URL whose rest has no question mark. *)
Lemma parseURL_https h :
  existsb isCTL (bytes ("https://" +:+ h)) = false → "?"%char ∉ bytes h →
  parseURL ("https://" +:+ h) true =
    (let '(authority, tail, slash) := Cut h "/" in
     '(user, host) ← parseAuthority authority;
     setPath (mkURL "https" "" user host "" "" false false "" "" "")
       (if slash : bool then "/" +:+ tail else "")).
Proof.
  intros Hc Hq. unfold parseURL. rewrite Hc.
  assert (E1 : eqs ("https://" +:+ h) "" = false) by (apply eqs_false; discriminate).
  assert (E2 : eqs ("https://" +:+ h) "*" = false) by (apply eqs_false; discriminate).
  rewrite E1, E2. cbn [andb]. rewrite getScheme_https.
  change (ToLower "https") with "https". cbv beta iota zeta delta [mbind result_bind].
  change (ToLower "https") with "https".
  rewrite (Cut_absent ("//" +:+ h) "?"%char).
  2: { rewrite bytes_app, not_elem_of_app. split; [|done]. by apply containsByte_false. }
  cbv beta iota zeta. cbn [andb orb negb]. destruct (HasPrefix_slashes h) as [-> ->]. cbn [andb orb negb]. rewrite TrimPrefix_app.
  by destruct (Cut h "/") as [[a t] []].
Qed.

Lemma setPath_fields u p u' : setPath u p = Ok u' →
  ∃ path, unescape p encodePath = Ok path ∧
  u' = mkURL (Scheme u) (Opaque u) (User u) (Host u) path
         (if eqs p (escape path encodePath) then "" else p) (OmitHost u) (ForceQuery u) (RawQuery u)
         (Fragment u) (RawFragment u).
Proof. unfold setPath. intros (path & E & [= <-])%result_bind_Ok. eauto. Qed.

Lemma parseURL_query v u : parseURL v true = Ok u →
  match getScheme v with
  | Ok (_, rest) => "?"%char ∈ bytes rest → eqs v "*" = true ∨ ForceQuery u = true ∨ RawQuery u ≠ ""
  | Err _ => True
  end.
Proof.
  unfold parseURL. destruct (existsb _ _); [done|]. destruct (eqs v "" && true); [done|].
  destruct (eqs v "*"); [destruct (getScheme v) as [[? ?]|]; auto|].
  intros ([s rest] & -> & H)%result_bind_Ok Hq. right. destruct (Cut_present _ _ Hq) as (a & b & E).
  rewrite E in H. cbn [andb] in H.
  assert (Hb : (if eqs b "" then (a, "") else (a, b)) = (a, b)).
  { destruct (eqs b "") eqn:Eb; [|done]. apply eqs_true in Eb. by subst. }
  rewrite Hb in H. cut (ForceQuery u = eqs b "" ∧ RawQuery u = b).
  { intros [-> ->]. destruct (eqs b "") eqn:Eb; [by left|right]. by apply eqs_false. }
  repeat match type of H with (if ?x then _ else _) = _ => destruct x end; try done.
  - by injection H as <-.
  - destruct (Cut _ "/") as [[x y] z]. apply result_bind_Ok in H as ([us ho] & _ & H).
    apply setPath_fields in H as (pa & _ & ->). done.
  - apply setPath_fields in H as (pa & _ & ->). done.
Qed.

(** An accepted link starts with the scheme and has no question mark. *)
Lemma parseURL_no_query h u :
  parseURL ("https://" +:+ h) true = Ok u → RawQuery u = "" → ForceQuery u = false → "?"%char ∉ bytes h.
Proof.
  intros E Hr Hf Hin. pose proof (parseURL_query _ _ E) as H. rewrite getScheme_https in H.
  destruct H as [H|[H|H]]; [by rewrite bytes_app; apply elem_of_app; right| |congruence|congruence].
  by apply eqs_true in H.
Qed.
Lemma parseURL_no_ctl v u : parseURL v true = Ok u → existsb isCTL (bytes v) = false.
Proof. unfold parseURL. by destruct (existsb _ _). Qed.

(** The path of a parsed link is empty or starts with a slash, as written and as escaped. *)
Lemma unescape_slash p path : unescape ("/" +:+ p) encodePath = Ok path → ∃ q, path = "/" +:+ q.
Proof.
  unfold unescape. rewrite bytes_app. simpl. destruct (unescapeBytes encodePath (bytes p)) as [l|]; [|done].
  simpl. intros [= <-]. by exists (ofBytes l).
Qed.
Lemma setPath_escaped u p u' : setPath u ("/" +:+ p) = Ok u' →
  EscapedPath u' ≠ "" ∧ HasPrefix (EscapedPath u') "/" = true.
Proof.
  intros (path & E & ->)%setPath_fields. destruct (unescape_slash _ _ E) as [q ->].
  unfold EscapedPath. cbn [RawPath Path].
  assert (He : HasPrefix (escape ("/" +:+ q) encodePath) "/" = true).
  { unfold escape. rewrite bytes_app. simpl. apply HasPrefix_true. by eexists. }
  assert (Hs : eqs ("/" +:+ q) "*" = false) by (apply eqs_false; discriminate).
  rewrite Hs. set (raw := if eqs ("/" +:+ p) _ then "" else "/" +:+ p).
  assert (Hraw : raw = "" ∨ raw = "/" +:+ p) by (unfold raw; case_match; auto).
  destruct Hraw as [-> | ->].
  - change (negb (eqs "" "")) with false. cbn [andb]. split; [|done]. intros H. by rewrite H in He.
  - case_match; [split; [discriminate|apply HasPrefix_app]|]. split; [|done]. intros H'. by rewrite H' in He.
Qed.
Lemma setPath_empty u u' : setPath u "" = Ok u' → Path u' = "" ∧ RawPath u' = "".
Proof. intros (path & [= <-] & ->)%setPath_fields. done. Qed.
Lemma EscapedPath_empty u : Path u = "" → RawPath u = "" → EscapedPath u = "".
Proof. unfold EscapedPath. by intros -> ->. Qed.

(** What the link checks establish: the host is spelled as it is read, and the text is the
    scheme, the host and the path. *)
Definition linkParsed (v : string) (u : URL) : Prop :=
  url_ParseRequestURI v = Ok u ∧ Scheme u = "https" ∧ User u = None ∧ Host u ≠ "" ∧ RawQuery u = ""
  ∧ Fragment u = "" ∧ ForceQuery u = false ∧ Opaque u = "" ∧ URL_String u = v.

Lemma ParseRequestURI_parseURL v u : url_ParseRequestURI v = Ok u ↔ parseURL v true = Ok u.
Proof. unfold url_ParseRequestURI. destruct (parseURL v true); simpl; split; congruence. Qed.

Lemma link_host_escape v u : linkParsed v u → "%"%char ∉ bytes v → escape (Host u) encodeHost = Host u.
Proof.
  intros (_ & Hs & Hu & Hh & Hq & Hf & Hfq & Ho & Hv) Hp. apply escape_plain.
  rewrite URL_String_https in Hv by done. rewrite <- Hv, !bytes_app in Hp.
  by apply not_elem_of_app in Hp as [_ [? _]%not_elem_of_app].
Qed.

(** A parsed link is the scheme, the host and its escaped path. *)
Lemma link_text v u : linkParsed v u → "%"%char ∉ bytes v →
  v = "https://" +:+ Host u +:+ EscapedPath u
  ∧ (EscapedPath u = "" → "?"%char ∉ bytes (Host u) ∧ "/"%char ∉ bytes (Host u)
     ∧ parseAuthority (Host u) = Ok (None, Host u)).
Proof.
  intros Hl Hp. pose proof (link_host_escape v u Hl Hp) as He.
  destruct Hl as (Hparse & Hs & Hu & Hh & Hq & Hf & Hfq & Ho & Hv).
  rewrite URL_String_https in Hv by done. rewrite He in Hv. apply ParseRequestURI_parseURL in Hparse.
  set (rest := Host u +:+ (if negb (eqs (EscapedPath u) "") && negb (HasPrefix (EscapedPath u) "/")
                           then "/" else "") +:+ EscapedPath u) in *.
  pose proof (parseURL_no_ctl _ _ Hparse) as Hctl. rewrite <- Hv in Hparse, Hctl.
  pose proof (parseURL_no_query rest u Hparse Hq Hfq) as Hno.
  rewrite parseURL_https in Hparse by done. destruct (Cut rest "/") as [[auth tail] slash] eqn:Ec.
  apply result_bind_Ok in Hparse as ([us ho] & Ha & Hparse). destruct slash.
  - apply setPath_escaped in Hparse as [Hne Hpre]. split; [|done].
    rewrite <- Hv. unfold rest. by rewrite Hpre, andb_false_r.
  - pose proof (setPath_empty _ _ Hparse) as [Hpa Hra].
    assert (Hem : EscapedPath u = "") by by apply EscapedPath_empty.
    assert (Hr : rest = Host u) by (unfold rest; rewrite Hem; change (negb (eqs "" "")) with false;
                                    cbn [andb]; by rewrite !append_nil_r).
    assert (Hsl : "/"%char ∉ bytes rest).
    { intros Hin. destruct (Cut_present _ _ Hin) as (? & ? & E). congruence. }
    split; [by rewrite Hem, append_nil_r, <- Hv, Hr|]. intros _. rewrite Hr in *. split; [done|]. split; [done|].
    rewrite Cut_absent in Ec by done. injection Ec as <- _. rewrite Ha.
    apply setPath_fields in Hparse as (pp & _ & Hu'). rewrite Hu' in Hu |- *. simpl in Hu |- *. by subst.
Qed.

(** Adding a slash keeps a text well-formed. *)
Lemma runeWidth_app l x n : runeWidth l = Some n → runeWidth (l ++ x) = Some n ∧ (n ≤ length l)%nat.
Proof.
  destruct l as [|a [|b l]]; [done|done|]. cbn [runeWidth app].
  destruct (_ && _); [intros [= <-]; split; [done|simpl; lia]|].
  destruct l as [|c l]; [done|]. cbn [app].
  destruct (byteBetween 224 239 a && _ && _); [intros [= <-]; split; [done|simpl; lia]|].
  destruct l as [|d l]; [done|]. cbn [app].
  destruct (_ && _ && _ && _); [intros [= <-]; split; [done|simpl; lia]|done].
Qed.
Lemma validUtf8_slash fuel l :
  validUtf8 fuel l = true → validUtf8 (Datatypes.S fuel) (l ++ ["/"%char]) = true.
Proof.
  revert l. induction fuel as [|fuel IH]; intros [|c r]; try done.
  cbn [validUtf8]. destruct (byteN c <? 128)%N eqn:Ec; cbn [app]; rewrite Ec; [apply IH|].
  destruct (runeWidth (c :: r)) as [n|] eqn:Er; [|done].
  destruct (runeWidth_app _ ["/"%char] n Er) as [E Hn]. rewrite app_comm_cons, E.
  rewrite drop_app_le by done. apply IH.
Qed.
Lemma validString_slash s : validString s = true → validString (s +:+ "/") = true.
Proof.
  unfold validString. intros H. apply validUtf8_slash in H. rewrite bytes_app.
  assert (E : String.length (s +:+ "/") = Datatypes.S (String.length s)); [|by rewrite E].
  clear H. induction s as [|c s IH]; [done|].
  change (Datatypes.S (String.length (s +:+ "/")) = Datatypes.S (Datatypes.S (String.length s))). by rewrite IH.
Qed.
Lemma len_slash s : len (s +:+ "/") = len s + 1.
Proof.
  unfold len. induction s as [|c s IH]; [done|].
  change (String.length (String c s +:+ "/")) with (Datatypes.S (String.length (s +:+ "/"))).
  change (String.length (String c s)) with (Datatypes.S (String.length s)). lia.
Qed.
Lemma TrimSpace_https_slash h : TrimSpace ("https://" +:+ h +:+ "/") = "https://" +:+ h +:+ "/".
Proof.
  apply TrimSpace_fix; rewrite !bytes_app; [done|].
  rewrite !rev_app_distr. cbn [bytes rev app]. set (l := rev (bytes h) ++ _).
  assert (H2 : ∀ b, isSpace2 b "/" = false) by (intros b; unfold isSpace2; apply andb_false_r).
  assert (H3 : ∀ c b, isSpace3 c b "/" = false).
  { intros c b. unfold isSpace3. change (byteN "/") with 47%N. simpl. by rewrite !andb_false_r. }
  destruct l as [|b [|c l]]; simpl; rewrite ?H2, ?H3; done.
Qed.

(** A profile link without escapes. *)
Definition plainLink (v : string) : Prop :=
  "%"%char ∉ bytes (TrimSpace v) ∧ len (TrimSpace v) < MaximumProfileURLBytes.

Lemma normalizeProfileURL_Ok v r : normalizeProfileURL v = Ok r → r ≠ "" →
  let v := TrimSpace v in
  validString v = true ∧ len v ≤ MaximumProfileURLBytes ∧ containsProfileControl v = false ∧
  ∃ u, linkParsed v u ∧ is_ok (ParseOrigin ("https://" +:+ Host u)) = true
  ∧ r = "https://" +:+ Host u +:+ (if eqs (EscapedPath u) "" then "/" else EscapedPath u).
Proof.
  unfold normalizeProfileURL. destruct (eqs (TrimSpace v) ""); [by intros [= <-]|].
  destruct (negb (validString (TrimSpace v)) || _ || _) eqn:E1; [done|].
  destruct (url_ParseRequestURI (TrimSpace v)) as [u|] eqn:E2; [|done].
  destruct (_ || negb (eqs (URL_String u) (TrimSpace v))) eqn:E3; [done|].
  destruct (is_ok (ParseOrigin _)) eqn:E4; [|done]. cbn [negb].
  do 2 (match goal with |- context [if ?b then Err _ else _] => destruct b; [done|] end). intros [= <-] _.
  rewrite !orb_false_iff, !negb_false_iff, ?Z.ltb_ge in E1. destruct E1 as [[? ?] ?].
  split; [done|]. split; [done|]. split; [done|]. exists u. split; [|done].
  rewrite !orb_false_iff, !negb_false_iff, !eqs_true, !eqs_false in E3.
  unfold linkParsed. destruct (User u); destruct_and?; [done|by repeat split].
Qed.

Lemma normalizeProfileURL_trim v : normalizeProfileURL (TrimSpace v) = normalizeProfileURL v.
Proof. unfold normalizeProfileURL. by rewrite TrimSpace_idem. Qed.

(** The URL of a host with the root path. *)
Definition rootURL (h : string) : URL := mkURL "https" "" None h "/" "" false false "" "" "".
Lemma parse_root h :
  existsb isCTL (bytes ("https://" +:+ h)) = false → "?"%char ∉ bytes h → "/"%char ∉ bytes h →
  parseAuthority h = Ok (None, h) →
  url_ParseRequestURI ("https://" +:+ h +:+ "/") = Ok (rootURL h).
Proof.
  intros Hc Hq Hs Ha. apply ParseRequestURI_parseURL. rewrite parseURL_https.
  - rewrite (Cut_last h "/"%char) by done. rewrite Ha. done.
  - rewrite <- append_assoc, bytes_app, existsb_app, Hc. done.
  - rewrite bytes_app, not_elem_of_app. split; [done|]. by apply containsByte_false.
Qed.

Lemma normalizeProfileURL_idem v r :
  plainLink v → normalizeProfileURL v = Ok r → normalizeProfileURL r = Ok r.
Proof.
  intros [Hp Hlen] Hn. destruct (decide (r = "")) as [->|Hr]; [done|].
  destruct (normalizeProfileURL_Ok _ _ Hn Hr) as (Hutf & _ & Hctl & u & Hl & Ho & ->).
  pose proof (link_text _ _ Hl Hp) as [Ht Hauth]. destruct (eqs (EscapedPath u) "") eqn:Ee.
  2: { rewrite <- Ht in *. by rewrite normalizeProfileURL_trim. }
  apply eqs_true in Ee. destruct (Hauth Ee) as (Hq & Hs & Ha). rewrite Ee, append_nil_r in Ht.
  pose proof (link_host_escape _ _ Hl Hp) as Hesc.
  destruct Hl as (_ & _ & _ & Hh & _).
  set (h := Host u) in *. unfold normalizeProfileURL. rewrite TrimSpace_https_slash.
  assert (E1 : eqs ("https://" +:+ h +:+ "/") "" = false) by (apply eqs_false; discriminate).
  assert (E2 : validString ("https://" +:+ h +:+ "/") = true).
  { rewrite <- append_assoc, <- Ht. by apply validString_slash. }
  assert (E3 : (MaximumProfileURLBytes <? len ("https://" +:+ h +:+ "/")) = false).
  { rewrite <- append_assoc, <- Ht, len_slash. apply Z.ltb_ge. lia. }
  assert (E4 : containsProfileControl ("https://" +:+ h +:+ "/") = false).
  { unfold containsProfileControl in *. rewrite Ht in Hctl.
    by rewrite <- append_assoc, bytes_app, existsb_app, Hctl. }
  rewrite E1, E2, E3, E4. cbn [orb negb].
  rewrite parse_root; [|unfold containsProfileControl in Hctl; by rewrite <- Ht|done..].
  assert (E5 : URL_String (rootURL h) = "https://" +:+ h +:+ "/").
  { rewrite URL_String_https by done. change (EscapedPath (rootURL h)) with "/".
    change (Host (rootURL h)) with h. by rewrite Hesc. }
  rewrite E5. cbn [rootURL Scheme User Host RawQuery Fragment ForceQuery Opaque].
  apply eqs_false in Hh. rewrite Hh, Ho, !eqs_refl. reflexivity.
Qed.

Section twice.
Context (ParseAddress : string → result string).
Abbreviation Normalize := (NormalizeRelayProfile ParseAddress).
Abbreviation Sanitize := (SanitizeRelayProfile ParseAddress).

Lemma keepOr_normal {A} (f : A → result A) (e : A) v n m a :
  f e = Ok e → (∀ r, f v = Ok r → f r = Ok r) → (keepOr e n m (f v)).1 = a → f a = Ok a.
Proof. intros He Hf <-. unfold keepOr. destruct (f v) as [r|] eqn:E; simpl; auto. Qed.

Ltac renorm f lem E := apply (keepOr_normal f) in E; [|reflexivity|intros ?; by apply lem].
Lemma setParticipation_normal v :
  normalizeProfileText (setParticipation v).1 MaximumProfileScalarBytes = Ok (setParticipation v).1
  ∧ validParticipationMode (setParticipation v).1 = true.
Proof.
  unfold setParticipation, keepOr. destruct (normalizeProfileText v _) as [a|] eqn:E; [|done].
  apply normalizeProfileText_idem in E. simpl. by destruct (validParticipationMode a) eqn:Ev.
Qed.

(** Sanitizing makes a profile acceptable: whatever the operator wrote, as long as its
    links are plain (no percent sign, not over-long), what is left after sanitizing is
    accepted by NormalizeRelayProfile and unchanged by it, so the client that is built from
    the configuration is not refused. *)
Theorem sanitized_profile_is_accepted p :
  plainLink (ContactURL p) → plainLink (ParticipationURL p) →
  Normalize (Sanitize p).1 = Ok (Sanitize p).1.
Proof.
  intros Hc Hpa. unfold SanitizeRelayProfile, setText, setList.
  pose proof (setParticipation_normal (ParticipationMode p)) as Hm.
  destruct (setParticipation _) as [m w]. simpl in Hm. destruct Hm as [Hm1 Hm2].
  repeat match goal with |- context [keepOr ?e ?f ?g ?r] =>
    let E := fresh "E" in destruct (keepOr e f g r) as [? ?] eqn:E; apply (f_equal fst) in E; simpl in E end.
  cbn [fst]. unfold NormalizeRelayProfile. cbn [ParticipationMode Availability RelayType Languages Countries
    Regions Topics ContactFediverse ContactEmail ContactURL ParticipationURL Notes].
  rewrite Hm1, Hm2. cbn [negb].
  renorm (λ v, normalizeProfileText v MaximumProfileScalarBytes) normalizeProfileText_idem E.
  renorm (λ v, normalizeProfileText v MaximumProfileScalarBytes) normalizeProfileText_idem E0.
  renorm normalizeProfileList normalizeProfileList_idem E1.
  renorm normalizeProfileList normalizeProfileList_idem E2.
  renorm normalizeProfileList normalizeProfileList_idem E3.
  renorm normalizeProfileList normalizeProfileList_idem E4.
  renorm (λ v, normalizeProfileText v MaximumProfileFediverseIDBytes) normalizeProfileText_idem E5.
  renorm (normalizeProfileEmail ParseAddress) normalizeProfileEmail_idem E6.
  renorm normalizeProfileURL normalizeProfileURL_idem E7. renorm normalizeProfileURL normalizeProfileURL_idem E8.
  renorm (λ v, normalizeProfileText v MaximumProfileNoteBytes) normalizeProfileText_idem E9.
  rewrite E, E0, E1, E2, E3, E4, E5, E6, E7, E8, E9. done.
Qed.
End twice.

(** ** Examples *)

(** An address parser that finds every text to be its own address. *)
Definition anyAddress (s : string) : result string := Ok s.
Definition demoProfile : RelayProfile :=
  mkProfile " open " "best effort" "public" ["en"; "de"; "en"] [] ["eu"] [] "@admin@relay.example"
    "admin@relay.example" "https://relay.example" "https://relay.example/join" (ofBytes [chr 7]).

Lemma sanitized_profile_is_accepted_witness :
  let q := (SanitizeRelayProfile anyAddress demoProfile).1 in
  NormalizeRelayProfile anyAddress q = Ok q
  ∧ ContactURL q = "https://relay.example/" ∧ Languages q = ["de"; "en"] ∧ Notes q = "".
Proof.
  intros q. split; [|vm_compute; done].
  apply (sanitized_profile_is_accepted anyAddress demoProfile).
  - split; [by apply containsByte_false|vm_compute; reflexivity].
  - split; [by apply containsByte_false|vm_compute; reflexivity].
Defined.

(** A link to an IPv6 address whose zone starts with an encoded percent sign is accepted
    by SanitizeRelayProfile without a warning, but rewritten to a link that
    NormalizeRelayProfile refuses: the client built from the sanitized profile is refused
    although the profile was reported valid. *)
Theorem scoped_link_breaks_the_profile PA :
  let p := mkProfile "" "" "" [] [] [] [] "" "" "https://[fe80::1%2525x]/" "" "" in
  (SanitizeRelayProfile PA p).2 = []
  ∧ is_ok (NormalizeRelayProfile PA (SanitizeRelayProfile PA p).1) = false.
Proof. vm_compute. done. Qed.
