(* ===== verification/DirectoryStore.v ===== *)
(** * The directory scheduler's durable state and lease (internal/directoryscheduler/store.go)

    [RedisStore] keeps, per directory origin, a hash with the scheduling state and
    a string key with the lease: the key's value is the owner's random token.
    [Acquire] sets it only when it is free, [Renew], [Release] and [SaveOwned] are
    Lua scripts that act only while it still holds their token.

    The receiver's, the lease's and the context's nil checks are not modelled: the
    types here have no nil.  [w_uuid] is the source of the random bytes. *)

From S2P Require Import Prelude GoStrings Sha256 Redis GoTime World Rfc9421.

(** ** Formats *)

(** [hex.DecodeString]. *)
Definition hexNibble (c : ascii) : option N :=
  let n := byteN c in
  if ((48 <=? n) && (n <=? 57))%N then Some (n - 48)%N
  else if ((97 <=? n) && (n <=? 102))%N then Some (n - 87)%N
  else if ((65 <=? n) && (n <=? 70))%N then Some (n - 55)%N
  else None.
Fixpoint hexDecodeBytes (l : list ascii) : option (list ascii) :=
  match l with
  | [] => Some []
  | a :: b :: l =>
      hi ← hexNibble a; lo ← hexNibble b; r ← hexDecodeBytes l; Some (chr (16 * hi + lo) :: r)
  | [_] => None
  end.
Definition hexDecode (s : string) : option (list ascii) := hexDecodeBytes (bytes s).

(** [base64.RawURLEncoding.EncodeToString]: the URL alphabet without padding. *)
Definition urlDigit (c : ascii) : ascii :=
  if decide (c = "+"%char) then "-"%char else if decide (c = "/"%char) then "_"%char else c.
Definition base64RawURL (l : list ascii) : string :=
  ofBytes (map urlDigit (List.filter (λ c, negb (bool_decide (c = "="%char))) (b64encode l))).

(** ** The state *)

Definition keyPrefix : string := "relay:directory:v1:".
Definition stateRetention : Duration := 90 * 24 * Hour.
Definition maximumAttempt : Z := 16.
Definition ErrStore : error := errorSentinel "ErrStore" "directory scheduler store failed".

Record State := mkState {
  Registered : bool;
  LastSuccess : Time;
  NextAttempt : Time;
  LastOutcome : string;
  Diagnostic : string;
  Attempt : Z;
  LastObserved : Time;
  ProfileDigest : string;
  ProfileProtocolVersion : Z
}.
Definition zeroState : State := mkState false zeroTime zeroTime "" "" 0 zeroTime "" 0.
#[export] Instance State_eq_dec : EqDecision State.
Proof. solve_decision. Defined.

Record redisLease := mkLease { leaseKey : string; leaseValue : string }.

Definition directoryKey (origin suffix : string) : string :=
  keyPrefix +:+ sha256Hex origin +:+ ":" +:+ suffix.

Definition parseTime (value : string) : result Time :=
  if (value =s "") || (value =s "0") then Ok zeroTime
  else match parseInt 64 value with
       | None => Err ErrStore
       | Some seconds => if seconds <? 0 then Err ErrStore else Ok (seconds * Second)
       end.
Definition unixString (value : Time) : string :=
  if IsZero value then "0" else itoa (value / Second).

Definition validProfileState (digest : string) (protocolVersion : Z) : bool :=
  if digest =s "" then protocolVersion =? 0
  else if (negb (protocolVersion =? 1) && negb (protocolVersion =? 2) && negb (protocolVersion =? 3))
          || negb (len digest =? 32 * 2) then false
  else match hexDecode digest with
       | None => false
       | Some decoded => (Z.of_nat (length decoded) =? 32) && (hexEncode decoded =s digest)
       end.
Definition validOutcome (value : string) : bool :=
  oneOf value ["" ; "registered"; "heartbeat"; "retrying"; "authentication"; "policy"; "suspended";
               "malformed"; "disabled"].
Definition validDiagnostic (value : string) : bool :=
  oneOf value [""; "none"; "transport"; "internal"; "rate_limited"; "authentication"; "enrollment";
               "suspended"; "lifecycle"; "malformed"; "lease_lost"; "disabled"].

Definition validateState (origin : string) (state : State) : bool :=
  negb ((origin =s "") || (Attempt state <? 0) || (maximumAttempt <? Attempt state)
        || negb (validOutcome (LastOutcome state)) || negb (validDiagnostic (Diagnostic state))
        || negb (validProfileState (ProfileDigest state) (ProfileProtocolVersion state))).

Definition stateFields : list string :=
  ["registered"; "last_success_unix"; "next_attempt_unix"; "last_outcome"; "diagnostic"; "attempt";
   "last_observed_unix"; "profile_digest"; "profile_protocol_version"].
Definition stateArguments (state : State) : list string :=
  [if Registered state then "1" else "0"; unixString (LastSuccess state); unixString (NextAttempt state);
   LastOutcome state; Diagnostic state; itoa (Attempt state); unixString (LastObserved state);
   ProfileDigest state; itoa (ProfileProtocolVersion state)].

(** ** Loading *)

(** An optional 8-bit counter field with an upper bound. *)
Definition boundedField (value : string) (bound : Z) : result Z :=
  if value =s "" then Ok 0
  else match parseUint 8 value with
       | None => Err ErrStore
       | Some n => if bound <? n then Err ErrStore else Ok n
       end.

(** The reading of the hash, after HGETALL. *)
Definition decodeState (values : gmap string string) : result State :=
  let field f := default "" (values !! f) in
  if decide (values = ∅) then Ok zeroState
  else if negb (field "registered" =s "0") && negb (field "registered" =s "1") then Err ErrStore
  else
    lastSuccess ← parseTime (field "last_success_unix");
    nextAttempt ← parseTime (field "next_attempt_unix");
    lastObserved ← parseTime (field "last_observed_unix");
    attempt ← boundedField (field "attempt") maximumAttempt;
    version ← boundedField (field "profile_protocol_version") 3;
    let state := mkState (field "registered" =s "1") lastSuccess nextAttempt (field "last_outcome")
                   (field "diagnostic") attempt lastObserved (field "profile_digest") version in
    if negb (validOutcome (LastOutcome state)) || negb (validDiagnostic (Diagnostic state))
       || negb (validProfileState (ProfileDigest state) (ProfileProtocolVersion state))
    then Err ErrStore else Ok state.

(** ** The scripts *)

(** PEXPIRE: 1 when the key was there. *)
Definition PEXPIRE (k : string) (ms : Z) : Rcmd Z := λ now d,
  match find now d k with
  | None => (d, Ok 0)
  | Some _ => ((EXPIREAT_MS k (now + ms) now d).1, Ok 1)
  end.

Definition renewLeaseScript (key value : string) (ms : Z) : Rcmd Z :=
  held ← GETopt key;
  if decide (held = Some value) then PEXPIRE key ms else mret 0.
Definition releaseLeaseScript (key value : string) : Rcmd Z :=
  held ← GETopt key;
  if decide (held = Some value) then (_ ← DEL key; mret 1) else mret 0.
Definition saveOwnedScript (leaseKey stateKey value : string) (arguments : list string) (ms : Z) : Rcmd Z :=
  held ← GETopt leaseKey;
  if decide (held = Some value) then
    _ ← HSET stateKey (zip stateFields arguments);
    _ ← PEXPIRE stateKey ms;
    mret 1
  else mret 0.

(** ** The operations of the store and of its leases *)

Section store.
Context {S : Type} `{Redis S}.
Abbreviation Mw := (M (World S)).

(** The store answers [ErrStore] for every failure. *)
Definition orErrStore {A} (r : result A) : result A :=
  match r with Ok a => Ok a | Err _ => Err ErrStore end.

(** [rand.Read] of [n] bytes: the next random value of the world, an error when it is too short. *)
Definition randRead (n : nat) : Mw (result (list ascii)) :=
  value ← uuidNew;
  mret (if (String.length value <? n)%nat then Err (errorsNew "unexpected EOF")
        else Ok (take n (bytes value))).
Definition leaseToken : Mw (result string) :=
  value ←! randRead 24;
  mret (Ok (base64RawURL value)).

Definition Load (origin : string) : Mw (result State) :=
  if origin =s "" then mret (Err ErrStore)
  else
    r ← redis (HGETALL (directoryKey origin "state"));
    mret (match r with Err _ => Err ErrStore | Ok values => decodeState values end).

Definition Save (origin : string) (state : State) : Mw (result unit) :=
  if negb (validateState origin state) then mret (Err ErrStore)
  else
    let key := directoryKey origin "state" in
    r ← redis (rpipe (HSET key (zip stateFields (stateArguments state)))
                     (EXPIRE key (stateRetention / Second)));
    mret (match r with Err _ => Err ErrStore | Ok _ => Ok tt end).

Definition SaveOwned (origin : string) (lease : redisLease) (state : State) : Mw (result bool) :=
  if negb (leaseKey lease =s directoryKey origin "lease") || negb (validateState origin state)
  then mret (Err ErrStore)
  else
    r ← redis (saveOwnedScript (leaseKey lease) (directoryKey origin "state") (leaseValue lease)
                 (stateArguments state) (stateRetention / Millisecond));
    mret (match r with Err _ => Err ErrStore | Ok n => Ok (n =? 1) end).

Definition Acquire (origin : string) (ttl : Duration) : Mw (result (option redisLease)) :=
  if (origin =s "") || (ttl <=? 0) then mret (Err ErrStore)
  else
    v ← leaseToken;
    match v with
    | Err _ => mret (Err ErrStore)
    | Ok value =>
        let key := directoryKey origin "lease" in
        r ← redis (SETNX key value (ttlMs ttl));
        mret (match r with
              | Err _ => Err ErrStore
              | Ok false => Ok None
              | Ok true => Ok (Some (mkLease key value))
              end)
    end.

Definition Renew (lease : redisLease) (ttl : Duration) : Mw (result bool) :=
  if ttl <=? 0 then mret (Err ErrStore)
  else
    r ← redis (renewLeaseScript (leaseKey lease) (leaseValue lease) (ttl / Millisecond));
    mret (match r with Err _ => Err ErrStore | Ok n => Ok (n =? 1) end).

Definition Release (lease : redisLease) : Mw (result unit) :=
  r ← redis (releaseLeaseScript (leaseKey lease) (leaseValue lease));
  mret (match r with Err _ => Err ErrStore | Ok _ => Ok tt end).
End store.
