(* ===== verification/DirectoryStoreSpec.v ===== *)
(** * What the directory scheduler's store guarantees

    - A saved state reads back as itself, to the second ([saved_state_reads_back]).
    - Whatever the hash holds, a loaded state is valid ([decodeState_valid]).
    - The lease excludes: while one owner's lease lives, no command of anybody else
      acquires it, saves under it, renews or releases it ([lease_excludes_others]),
      in any interleaving of commands of any number of processes. *)

From S2P Require Import Prelude GoStrings Sha256 Redis GoTime World Frame Rfc9421 DirectoryStore.

(** ** Formats *)

Lemma hexNibble_hexDigit n : (n < 16)%N → hexNibble (hexDigit n) = Some n.
Proof.
  intros Hn. rewrite <- (N2Nat.id n) in *. generalize dependent (N.to_nat n). intros k Hk.
  do 16 (destruct k as [|k]; [reflexivity|]). lia.
Qed.
Lemma hexDecodeBytes_hexBytes l : hexDecodeBytes (hexBytes l) = Some l.
Proof.
  induction l as [|a l IH]; [done|]. cbn [hexBytes hexDecodeBytes].
  pose proof (N_ascii_bounded a) as Ha. fold (byteN a) in Ha.
  assert (byteN a / 16 < 16)%N by (apply N.Div0.div_lt_upper_bound; lia).
  assert (byteN a mod 16 < 16)%N by (apply N.mod_lt; lia).
  rewrite !hexNibble_hexDigit by done. simpl. rewrite IH. simpl.
  rewrite <- N.div_mod'. unfold chr, byteN. by rewrite ascii_N_embedding.
Qed.
Lemma hexDecode_hexEncode l : hexDecode (hexEncode l) = Some l.
Proof. unfold hexDecode, hexEncode. rewrite bytes_ofBytes. apply hexDecodeBytes_hexBytes. Qed.
Lemma sha256Hex_valid s v : v = 1 ∨ v = 2 ∨ v = 3 → validProfileState (sha256Hex s) v = true.
Proof.
  intros Hv. unfold validProfileState, len. pose proof (sha256Hex_length s) as Hl.
  destruct (eqs (sha256Hex s) "") eqn:E; [apply eqs_true in E; by rewrite E in Hl|].
  rewrite Hl. unfold sha256Hex. rewrite hexDecode_hexEncode, sum256_length, eqs_refl.
  by destruct Hv as [-> | [-> | ->]].
Qed.

(** ** Keys *)

Lemma append_length_inj a b c d :
  String.length a = String.length b → a +:+ c = b +:+ d → a = b ∧ c = d.
Proof.
  revert b. induction a as [|x a IH]; intros [|y b]; simpl; try done.
  intros [= Hl] [= -> E]. destruct (IH b Hl E) as [-> ->]. done.
Qed.
Lemma directoryKey_inj o o' s s' :
  directoryKey o s = directoryKey o' s' → sha256Hex o = sha256Hex o' ∧ s = s'.
Proof.
  unfold directoryKey. intros E. apply append_inj, append_length_inj in E as [E1 E2].
  - split; [done|]. by apply append_inj in E2.
  - by rewrite !sha256Hex_length.
Qed.
Lemma directoryKey_lease_state o o' : directoryKey o "lease" ≠ directoryKey o' "state".
Proof. intros E. by apply directoryKey_inj in E as [_ ?]. Qed.
Lemma directoryKey_same o o' s s' :
  sha256Hex o = sha256Hex o' → s = s' → directoryKey o s = directoryKey o' s'.
Proof. unfold directoryKey. by intros -> ->. Qed.

(** ** Saving and loading *)

(** A time as the store keeps it: to the second, the zero time as itself. *)
Definition truncTime (t : Time) : Time := if IsZero t then zeroTime else t / Second * Second.
(** Times the store can hold: the zero time, or one after the first second of 1970. *)
Definition storableTime (t : Time) : Prop := IsZero t = true ∨ 1 ≤ t / Second < 2 ^ 63.
Definition truncState (s : State) : State :=
  mkState (Registered s) (truncTime (LastSuccess s)) (truncTime (NextAttempt s)) (LastOutcome s)
    (Diagnostic s) (Attempt s) (truncTime (LastObserved s)) (ProfileDigest s) (ProfileProtocolVersion s).
Definition storable (s : State) : Prop :=
  storableTime (LastSuccess s) ∧ storableTime (NextAttempt s) ∧ storableTime (LastObserved s).

Lemma itoa_not_empty z : itoa z ≠ "".
Proof.
  intros E. destruct (Z.le_gt_cases 0 z) as [Hz|Hz].
  - pose proof (parseDigits_itoa z Hz) as Hp. by rewrite E in Hp.
  - by destruct z.
Qed.
Lemma itoa_zero_inv z : 0 ≤ z → itoa z = "0" → z = 0.
Proof.
  intros Hz E. pose proof (parseDigits_itoa z Hz) as Hp. rewrite E in Hp.
  change (parseDigits "0") with (Some 0) in Hp. congruence.
Qed.
Lemma eqs_ne a b : a ≠ b → eqs a b = false.
Proof. intros. by apply eqs_false. Qed.

Lemma parseTime_unixString t : storableTime t → parseTime (unixString t) = Ok (truncTime t).
Proof.
  intros Ht. unfold unixString, truncTime. destruct (IsZero t) eqn:E; [done|].
  destruct Ht as [?|Ht]; [congruence|]. unfold parseTime.
  rewrite (eqs_ne _ "") by apply itoa_not_empty.
  rewrite (eqs_ne _ "0") by (intros H; apply itoa_zero_inv in H; lia). simpl.
  rewrite parseInt_itoa; [by destruct (Z.ltb_spec (t / Second) 0); [lia|]|].
  unfold inWidth. apply andb_true_iff. split; [apply Z.leb_le|apply Z.ltb_lt]; lia.
Qed.
Lemma boundedField_itoa z b : 0 ≤ z ≤ b → b < 256 → boundedField (itoa z) b = Ok z.
Proof.
  intros Hz Hb. unfold boundedField. rewrite (eqs_ne _ "") by apply itoa_not_empty.
  rewrite parseUint_itoa by lia. by destruct (Z.ltb_spec b z); [lia|].
Qed.

Lemma validProfileState_version d v : validProfileState d v = true → 0 ≤ v ≤ 3.
Proof.
  unfold validProfileState. destruct (eqs d ""); [intros E; apply Z.eqb_eq in E; lia|].
  destruct (Z.eqb_spec v 1), (Z.eqb_spec v 2), (Z.eqb_spec v 3); simpl; try done; intros _; lia.
Qed.
Lemma validateState_true o s :
  validateState o s = true ↔
  o ≠ "" ∧ 0 ≤ Attempt s ≤ maximumAttempt ∧ validOutcome (LastOutcome s) = true
  ∧ validDiagnostic (Diagnostic s) = true
  ∧ validProfileState (ProfileDigest s) (ProfileProtocolVersion s) = true.
Proof.
  unfold validateState. rewrite negb_true_iff, !orb_false_iff, !negb_false_iff, !Z.ltb_ge, eqs_false.
  naive_solver.
Qed.

(** The hash a save leaves on top of the fields that were there. *)
Definition savedHash (h : gmap string string) (s : State) : gmap string string :=
  foldl (λ h '(f, v), <[f := v]> h) h (zip stateFields (stateArguments s)).

Lemma savedHash_fields h s :
  (∀ f v, (f, v) ∈ zip stateFields (stateArguments s) → savedHash h s !! f = Some v).
Proof.
  intros f v Hf. unfold savedHash, stateFields, stateArguments in *. cbn [zip zip_with foldl] in *.
  repeat (apply elem_of_cons in Hf as [[= -> ->]|Hf];
          [repeat (rewrite lookup_insert_ne by done); by rewrite lookup_insert_eq|]).
  by apply elem_of_nil in Hf.
Qed.

Lemma decode_saved o h s :
  validateState o s = true → storable s → decodeState (savedHash h s) = Ok (truncState s).
Proof.
  intros Hv (H1 & H2 & H3). apply validateState_true in Hv as (_ & Ha & Ho & Hd & Hp).
  pose proof (savedHash_fields h s) as F. unfold stateFields, stateArguments in F. simpl in F.
  unfold decodeState. rewrite decide_False.
  2: { intros E. specialize (F "registered"). rewrite E in F.
       specialize (F _ ltac:(left)). by rewrite lookup_empty in F. }
  rewrite (F "registered" _ ltac:(repeat (first [left|right]))),
    (F "last_success_unix" _ ltac:(right; left)),
    (F "next_attempt_unix" _ ltac:(do 2 right; left)), (F "last_outcome" _ ltac:(do 3 right; left)),
    (F "diagnostic" _ ltac:(do 4 right; left)), (F "attempt" _ ltac:(do 5 right; left)),
    (F "last_observed_unix" _ ltac:(do 6 right; left)), (F "profile_digest" _ ltac:(do 7 right; left)),
    (F "profile_protocol_version" _ ltac:(do 8 right; left)).
  cbn [default]. cbn [from_option id]. rewrite !parseTime_unixString by done.
  apply validProfileState_version in Hp as Hv. unfold maximumAttempt in *.
  rewrite !boundedField_itoa by (try lia; done). simpl.
  destruct (Registered s) eqn:ER; simpl; rewrite Ho, Hd, Hp; unfold truncState; by rewrite ER.
Qed.

Lemma parseUint_nonneg w v z : parseUint w v = Some z → 0 ≤ z.
Proof.
  unfold parseUint, parseDigits. destruct v as [|c r]; [done|].
  destruct (DecimalString.NilEmpty.uint_of_string _) as [u|]; [|done]. simpl.
  case_match; [|done]. intros [= <-]. lia.
Qed.
Lemma boundedField_range v b z : boundedField v b = Ok z → 0 ≤ b → 0 ≤ z ≤ b.
Proof.
  unfold boundedField. destruct (eqs v ""); [intros [= <-]; lia|].
  destruct (parseUint 8 v) as [n|] eqn:E; [|done]. apply parseUint_nonneg in E.
  destruct (Z.ltb_spec b n); [done|]. intros [= <-]. lia.
Qed.
(** Whatever Redis holds, a state that is read is a valid one. *)
Lemma decodeState_valid o values s :
  o ≠ "" → decodeState values = Ok s → validateState o s = true.
Proof.
  intros Ho Hd. unfold decodeState in Hd. cbv zeta in Hd. case_decide; [injection Hd as <-|].
  { apply validateState_true. by split. }
  destruct (negb _ && negb _); [done|].
  apply result_bind_Ok in Hd as (t1 & _ & Hd). apply result_bind_Ok in Hd as (t2 & _ & Hd).
  apply result_bind_Ok in Hd as (t3 & _ & Hd). apply result_bind_Ok in Hd as (a & E1 & Hd).
  apply result_bind_Ok in Hd as (v & E2 & Hd).
  destruct (negb _ || negb _ || negb _) eqn:E3; [done|]. injection Hd as <-.
  rewrite !orb_false_iff, !negb_false_iff in E3. destruct E3 as [[E3 E4] E5].
  apply boundedField_range in E1; [|done]. apply validateState_true. simpl. auto.
Qed.

(** ** The scripts, by what they find *)

Lemma asString_held now d k v :
  asString now d k = Ok (Some v) → ∃ e, find now d k = Some (mkEntry (RString v) e).
Proof. unfold asString. destruct (find now d k) as [[[] e]|]; naive_solver. Qed.
Lemma held_asString now d k v e :
  find now d k = Some (mkEntry (RString v) e) → asString now d k = Ok (Some v).
Proof. unfold asString. by intros ->. Qed.

Lemma PEXPIRE_fst k ms now d :
  0 < ms → (PEXPIRE k ms now d).1 =
    match find now d k with None => d | Some e => put k (e_val e) (Some (now + ms)) d end.
Proof.
  intros Hms. unfold PEXPIRE, EXPIREAT_MS. destruct (find now d k) as [e|]; [|done]. simpl.
  by destruct (Z.leb_spec (now + ms) now); [lia|].
Qed.

(** A save under the lease writes exactly when the lease holds the token. *)
Lemma saveOwned_not_held lk sk v args ms now d n d' :
  saveOwnedScript lk sk v args ms now d = (d', Ok n) →
  asString now d lk ≠ Ok (Some v) → n = 0 ∧ d' = d.
Proof.
  unfold saveOwnedScript, GETopt, mbind, Rcmd_bind. destruct (asString now d lk) as [h|]; [|done].
  case_decide as Hd; [intros _ Hn; by subst|]. intros [= <- <-]. done.
Qed.
Lemma saveOwned_held lk sk v s ms now d n d' :
  saveOwnedScript lk sk v (stateArguments s) ms now d = (d', Ok n) →
  asString now d lk = Ok (Some v) → 0 < ms →
  ∃ h, asHash now d sk = Ok h ∧ n = 1
  ∧ d' = put sk (RHash (savedHash h s)) (Some (now + ms)) (put sk (RHash (savedHash h s)) (ttlOf now d sk) d).
Proof.
  unfold saveOwnedScript, GETopt, mbind, Rcmd_bind. intros E Hh Hms. rewrite Hh in E.
  rewrite decide_True in E by done. unfold HSET in E.
  destruct (asHash now d sk) as [h|] eqn:Eh; [|done]. fold (savedHash h s) in E. exists h.
  split; [done|]. set (d1 := put sk _ _ d) in *.
  pose proof (PEXPIRE_fst sk ms now d1 Hms) as HP.
  assert (Hf : find now d1 sk = Some (mkEntry (RHash (savedHash h s)) (ttlOf now d sk))).
  { unfold d1. rewrite find_put_same. unfold ttlOf. destruct (find now d sk) as [[v' e']|] eqn:Ef; [|done].
    apply find_Some in Ef as [_ Hl]. simpl. unfold live in *. simpl in *. by rewrite Hl. }
  rewrite Hf in HP. unfold PEXPIRE in *. rewrite Hf in *. simpl in *. injection E as <- <-. done.
Qed.

(** A save that answers 1 found its token and replaced the nine fields. *)
Lemma saveOwned_one lk sk v s ms now d d' :
  saveOwnedScript lk sk v (stateArguments s) ms now d = (d', Ok 1) → 0 < ms →
  asString now d lk = Ok (Some v)
  ∧ ∃ h, asHash now d sk = Ok h ∧ d' =
      put sk (RHash (savedHash h s)) (Some (now + ms)) (put sk (RHash (savedHash h s)) (ttlOf now d sk) d).
Proof.
  intros E Hms. destruct (asString now d lk) as [[u|]|] eqn:Eh.
  - destruct (decide (u = v)) as [->|Hne].
    + apply saveOwned_held in E as (h & ? & _ & ?); [|done|done]. split; [done|]. by exists h.
    + apply saveOwned_not_held in E; [by destruct E|]. rewrite Eh. congruence.
  - apply saveOwned_not_held in E; [by destruct E|by rewrite Eh].
  - unfold saveOwnedScript, GETopt, mbind, Rcmd_bind in E. by rewrite Eh in E.
Qed.

Lemma find_mono now now' d k e : find now' d k = Some e → now ≤ now' → find now d k = Some e.
Proof.
  intros Hf Hn. apply find_Some in Hf as [Hk Hl]. unfold find. rewrite Hk.
  destruct e as [v [t|]]; [|done]. unfold live in *. simpl in *. apply Z.ltb_lt in Hl.
  by destruct (Z.ltb_spec now t); [|lia].
Qed.

(** ** Interleaved calls of several processes *)

(** The Redis request of a call of the store, and whether it took effect; [call_effect] below says that it
    is the one the call makes. *)
Inductive storeCmd :=
  | CmdLoad (origin : string)
  | CmdAcquire (origin value : string) (ttl : Duration)
  | CmdRenew (lease : redisLease) (ttl : Duration)
  | CmdRelease (lease : redisLease)
  | CmdSaveOwned (origin : string) (lease : redisLease) (state : State).
Definition cmdRun (c : storeCmd) : Rcmd bool :=
  match c with
  | CmdLoad o => _ ← HGETALL (directoryKey o "state"); mret true
  | CmdAcquire o v ttl => SETNX (directoryKey o "lease") v (ttlMs ttl)
  | CmdRenew l ttl => n ← renewLeaseScript (leaseKey l) (leaseValue l) (ttl / Millisecond); mret (n =? 1)
  | CmdRelease l => n ← releaseLeaseScript (leaseKey l) (leaseValue l); mret (n =? 1)
  | CmdSaveOwned o l s =>
      n ← saveOwnedScript (leaseKey l) (directoryKey o "state") (leaseValue l) (stateArguments s)
            (stateRetention / Millisecond);
      mret (n =? 1)
  end.
(** Requests that contend for the lease of [origin]. *)
Definition contends (origin : string) (c : storeCmd) : Prop :=
  match c with
  | CmdLoad _ => False
  | CmdAcquire o _ _ => directoryKey o "lease" = directoryKey origin "lease"
  | CmdRenew l _ | CmdRelease l | CmdSaveOwned _ l _ => leaseKey l = directoryKey origin "lease"
  end.

Section exclusion.
Context (origin v : string) (exp : Z).
Abbreviation lk := (directoryKey origin "lease").
Abbreviation sk := (directoryKey origin "state").
Definition heldBy (d : db) : Prop := db_keys d !! lk = Some (mkEntry (RString v) (Some exp)).
(** A lease of somebody else: made by [Acquire] for some origin, with another token. *)
Definition otherLease (l : redisLease) : Prop := (∃ o, leaseKey l = directoryKey o "lease") ∧ leaseValue l ≠ v.
Definition foreign (c : storeCmd) : Prop :=
  match c with
  | CmdLoad _ | CmdAcquire _ _ _ => True
  | CmdRenew l _ | CmdRelease l => otherLease l
  | CmdSaveOwned o l _ => leaseKey l = directoryKey o "lease" ∧ otherLease l
  end.

Lemma held_find now d : heldBy d → now < exp → find now d lk = Some (mkEntry (RString v) (Some exp)).
Proof. intros Hd Hn. unfold find. rewrite Hd. unfold live. simpl. by apply Z.ltb_lt in Hn as ->. Qed.

Lemma held_refuses now d c :
  heldBy d → now < exp → foreign c → contends origin c → cmdRun c now d = (d, Ok false).
Proof.
  intros Hd Hn Hw Hc. pose proof (held_find now d Hd Hn) as Hf.
  pose proof (held_asString _ _ _ _ _ Hf) as Ha.
  destruct c as [o|o u ttl|l ttl|l|o l s]; simpl in Hc, Hw; cbn [cmdRun]; unfold otherLease in *; destruct_and?; [done| |..].
  - unfold SETNX. by rewrite Hc, Hf.
  - unfold renewLeaseScript, GETopt, mbind, Rcmd_bind. rewrite Hc, Ha.
    rewrite decide_False by congruence. done.
  - unfold releaseLeaseScript, GETopt, mbind, Rcmd_bind. rewrite Hc, Ha.
    rewrite decide_False by congruence. done.
  - unfold saveOwnedScript, GETopt, mbind, Rcmd_bind. rewrite Hc, Ha.
    rewrite decide_False by congruence. done.
Qed.

(** A command writes only the lease or the state of the origin it is about. *)
Lemma touches_PEXPIRE (ks : string → Prop) k ms : ks k → touches ks (PEXPIRE k ms).
Proof.
  intros Hk now d. unfold PEXPIRE. destruct (find now d k); [|by split].
  unfold EXPIREAT_MS. repeat case_match; simpl; (split; [done|]); intros k' Hk'; try done;
    first [apply keys_put|apply keys_drop]; intros ->; by apply Hk'.
Qed.
Definition cmdKeys (c : storeCmd) (k : string) : Prop :=
  match c with
  | CmdLoad _ => False
  | CmdAcquire o _ _ => k = directoryKey o "lease"
  | CmdRenew l _ | CmdRelease l => k = leaseKey l
  | CmdSaveOwned o l _ => k = directoryKey o "state"
  end.
Lemma cmdRun_touches c : touches (cmdKeys c) (cmdRun c).
Proof.
  destruct c as [o|o u ttl|l ttl|l|o l s]; cbn [cmdRun].
  - apply touches_readOnly. intros now d. unfold HGETALL, mbind, Rcmd_bind. by destruct (asHash _ _ _).
  - by apply touches_SETNX.
  - unfold renewLeaseScript. apply touches_bind; [|intros; apply touches_ret].
    apply touches_bind; [apply touches_GETopt|]. intros h. case_decide; [by apply touches_PEXPIRE|apply touches_ret].
  - unfold releaseLeaseScript. apply touches_bind; [|intros; apply touches_ret].
    apply touches_bind; [apply touches_GETopt|]. intros h. case_decide; [|apply touches_ret].
    apply touches_bind; [by apply touches_DEL|intros; apply touches_ret].
  - unfold saveOwnedScript. apply touches_bind; [|intros; apply touches_ret].
    apply touches_bind; [apply touches_GETopt|]. intros h. case_decide; [|apply touches_ret].
    apply touches_bind; [by apply touches_HSET|]. intros _.
    apply touches_bind; [by apply touches_PEXPIRE|intros; apply touches_ret].
Qed.

(** While the lease is held, a foreign command leaves the lease and the origin's state alone. *)
Lemma foreign_keeps now d c :
  heldBy d → now < exp → foreign c →
  heldBy (cmdRun c now d).1 ∧ db_keys (cmdRun c now d).1 !! sk = db_keys d !! sk.
Proof.
  intros Hd Hn Hc. destruct (cmdRun_touches c now d) as [_ Hk]. pose proof (directoryKey_lease_state origin) as Hls.
  assert (Hcase : contends origin c ∨ (¬ cmdKeys c lk ∧ ¬ cmdKeys c sk)).
  { destruct c as [o|o u ttl|l ttl|l|o l s]; simpl in *; [right; split; intros []|..].
    - destruct (decide (directoryKey o "lease" = lk)); [by left|]. right. split; [congruence|].
      intros E. by apply (directoryKey_lease_state o origin).
    - destruct Hc as [[o Ho] _]. destruct (decide (leaseKey l = lk)); [by left|]. right. split; [congruence|].
      rewrite Ho. intros E. by apply (directoryKey_lease_state o origin).
    - destruct Hc as [[o Ho] _]. destruct (decide (leaseKey l = lk)); [by left|]. right. split; [congruence|].
      rewrite Ho. intros E. by apply (directoryKey_lease_state o origin).
    - destruct (decide (leaseKey l = lk)) as [|Hne]; [by left|]. right. split; [intros E; by apply (Hls o)|].
      intros E. apply Hne. destruct Hc as [-> _]. symmetry in E. apply directoryKey_inj in E as [E _].
      by apply directoryKey_same. }
  destruct Hcase as [Hcase|[H1 H2]].
  - rewrite (held_refuses now d c) by done. done.
  - unfold heldBy. by rewrite !Hk.
Qed.

End exclusion.

Section calls.
Context {S : Type} `{RedisLaws S}.

(** A call of the store or of a lease, by a process whose world it runs in. *)
Inductive storeCall :=
  | CallLoad (origin : string)
  | CallAcquire (origin : string) (ttl : Duration)
  | CallRenew (lease : redisLease) (ttl : Duration)
  | CallRelease (lease : redisLease)
  | CallSaveOwned (origin : string) (lease : redisLease) (state : State).
Definition callRun (c : storeCall) : M (World S) unit :=
  match c with
  | CallLoad o => _ ← Load o; mret tt
  | CallAcquire o ttl => _ ← Acquire o ttl; mret tt
  | CallRenew l ttl => _ ← Renew l ttl; mret tt
  | CallRelease l => _ ← Release l; mret tt
  | CallSaveOwned o l s => _ ← SaveOwned o l s; mret tt
  end.
(** The call is that of a process which does not hold the lease with the token [v]. *)
Definition callByOther (v : string) (c : storeCall) : Prop :=
  match c with
  | CallLoad _ | CallAcquire _ _ => True
  | CallRenew l _ | CallRelease l | CallSaveOwned _ l _ => otherLease v l
  end.
(** Redis before and after one call of any process: the processes share nothing else. *)
Inductive storeStep (v : string) : S → S → Prop :=
  | Step c (w w' : World S) : callByOther v c → callRun c w = (w', Done tt) → storeStep v (w_redis w) (w_redis w').

Lemma redis_effect {A} (c : Rcmd A) (w w' : World S) r : redis c w = (w', Done r) →
  rs_ms (w_redis w) ≤ rs_ms (w_redis w')
  ∧ (rs_db (w_redis w') = rs_db (w_redis w) ∨ rs_db (w_redis w') = (c (rs_ms (w_redis w')) (rs_db (w_redis w))).1)
  ∧ ∀ a, r = Ok a → c (rs_ms (w_redis w')) (rs_db (w_redis w)) = (rs_db (w_redis w'), Ok a).
Proof.
  unfold redis. intros [= <- <-]. cbn [w_redis set_redis]. split; [apply redis_do_clock|]. split; [apply redis_do_db|].
  intros a. apply redis_do_Ok.
Qed.
Lemma one_effect (c : Rcmd Z) now d : ((n ← c; mret (n =? 1)) now d : db * result bool)
  = ((c now d).1, n ← (c now d).2; Ok (n =? 1)).
Proof. unfold mbind at 1, Rcmd_bind. destruct (c now d) as [d' [n|e]]; done. Qed.

(** What a call asks of Redis: nothing, or its request. *)
Definition asks (c : storeCmd) (w w' : World S) (ok : bool) : Prop :=
  rs_ms (w_redis w) ≤ rs_ms (w_redis w')
  ∧ (rs_db (w_redis w') = rs_db (w_redis w) ∨ rs_db (w_redis w') = (cmdRun c (rs_ms (w_redis w')) (rs_db (w_redis w))).1)
  ∧ (ok = true → cmdRun c (rs_ms (w_redis w')) (rs_db (w_redis w)) = (rs_db (w_redis w'), Ok true)).
Lemma asks_nothing c w w' : w_redis w' = w_redis w → asks c w w' false.
Proof. unfold asks. intros ->. split; [lia|]. split; [by left|done]. Qed.
Lemma asks_one c w w' (cmd : Rcmd Z) r : redis cmd w = (w', Done r) → cmdRun c = (n ← cmd; mret (n =? 1)) →
  asks c w w' match r with Ok n => n =? 1 | Err _ => false end.
Proof.
  intros (Hm & Hd & Ho)%redis_effect Hc. unfold asks. rewrite Hc, one_effect. split; [done|]. split; [exact Hd|].
  destruct r as [n|e]; [|done]. intros Hn. specialize (Ho n eq_refl). rewrite Ho. cbn. by rewrite Hn.
Qed.
Definition granted (r : result bool) : bool := match r with Ok b => b | Err _ => false end.
Lemma Renew_asks l ttl w w' r : Renew l ttl w = (w', Done r) → asks (CmdRenew l ttl) w w' (granted r).
Proof.
  unfold Renew. destruct (ttl <=? 0); [intros [= <- <-]; by apply asks_nothing|].
  intros (w1 & x & E & [= <- <-])%bind_inv. eapply (asks_one (CmdRenew l ttl)) in E; [|reflexivity]. by destruct x.
Qed.
Lemma Release_asks l w w' r : Release l w = (w', Done r) → asks (CmdRelease l) w w' false.
Proof.
  unfold Release. intros (w1 & x & E & [= <- _])%bind_inv. eapply (asks_one (CmdRelease l)) in E as (Hm & Hd & _); [|reflexivity].
  by split.
Qed.
Lemma SaveOwned_asks o l s w w' r : SaveOwned o l s w = (w', Done r) →
  (w_redis w' = w_redis w ∧ r = Err ErrStore)
  ∨ leaseKey l = directoryKey o "lease" ∧ asks (CmdSaveOwned o l s) w w' (granted r).
Proof.
  unfold SaveOwned. destruct (eqs (leaseKey l) _) eqn:Ek; cbn [negb orb]; [|intros [= <- <-]; by left].
  apply eqs_true in Ek. destruct (negb _); [intros [= <- <-]; by left|].
  intros (w1 & x & E & [= <- <-])%bind_inv. right. split; [done|]. eapply (asks_one (CmdSaveOwned o l s)) in E; [|reflexivity]. by destruct x.
Qed.
Lemma Acquire_asks o ttl w w' r : Acquire o ttl w = (w', Done r) → ∃ value,
  asks (CmdAcquire o value ttl) w w' match r with Ok (Some _) => true | _ => false end
  ∧ (∀ lease, r = Ok (Some lease) → lease = mkLease (directoryKey o "lease") value)
  ∧ (∀ e, r = Err e → e = ErrStore).
Proof.
  unfold Acquire, leaseToken, randRead. destruct (_ || _); [intros [= <- <-]; exists ""; split; [by apply asks_nothing|naive_solver]|].
  intros (w1 & x & (w2 & y & (w3 & u & E3 & [= <- <-])%bind_inv & E2)%bind_inv & E)%bind_inv.
  assert (E3' : w_redis w3 = w_redis w) by (unfold uuidNew in E3; injection E3 as <- _; done).
  destruct (String.length u <? 24)%nat; injection E2 as <- <-.
  { injection E as <- <-. exists "". split; [by apply asks_nothing|naive_solver]. }
  apply bind_inv in E as (w4 & x & (Hm & Hd & Ho)%redis_effect & [= <- <-]). eexists. unfold asks. rewrite <- E3'.
  split; [split; [exact Hm|]; split; [exact Hd|]|].
  - destruct x as [[]|]; [intros _; by apply Ho|done..].
  - destruct x as [[]|]; naive_solver.
Qed.

(** Every call asks nothing of Redis, or makes the request of its kind. *)
Lemma call_effect v c w w' : callByOther v c → callRun c w = (w', Done tt) →
  ∃ cm, foreign v cm ∧ asks cm w w' false.
Proof.
  assert (Hw : ∀ cm b, asks cm w w' b → asks cm w w' false) by (intros cm b (? & ? & _); by split).
  intros Hc E. destruct c as [o|o ttl|l ttl|l|o l s]; simpl in *; apply bind_inv in E as (w1 & r & E & [= <-]).
  - exists (CmdLoad o). split; [done|]. unfold Load in E. destruct (eqs o ""); [injection E as <- _; by apply asks_nothing|].
    apply bind_inv in E as (w2 & x & (Hm & Hd & _)%redis_effect & [= <- _]). split; [done|]. split; [|done].
    left. destruct Hd as [->| ->]; [done|apply HGETALL_readOnly].
  - apply Acquire_asks in E as (value & Ha & _). exists (CmdAcquire o value ttl). split; [done|by eapply Hw].
  - apply Renew_asks in E. exists (CmdRenew l ttl). split; [done|by eapply Hw].
  - apply Release_asks in E. by exists (CmdRelease l).
  - apply SaveOwned_asks in E as [[E _]|[Hk E]].
    + exists (CmdLoad o). split; [done|by apply asks_nothing].
    + exists (CmdSaveOwned o l s). split; [done|by eapply Hw].
Qed.

Lemma other_keeps origin v exp x y : storeStep v x y → heldBy origin v exp (rs_db x) → rs_ms y < exp →
  rs_ms x ≤ rs_ms y ∧ heldBy origin v exp (rs_db y)
  ∧ db_keys (rs_db y) !! directoryKey origin "state" = db_keys (rs_db x) !! directoryKey origin "state".
Proof.
  intros [c w w' Hc E] Hx Hy. destruct (call_effect v c w w' Hc E) as (cm & Hf & Hm & Hd & _). split; [done|].
  destruct Hd as [->| ->]; [done|]. by apply foreign_keeps.
Qed.
Lemma storeStep_clock v x y : storeStep v x y → rs_ms x ≤ rs_ms y.
Proof. intros [c w w' Hc E]. by destruct (call_effect v c w w' Hc E) as (cm & _ & Hm & _). Qed.
Lemma storeSteps_clock v x y : rtc (storeStep v) x y → rs_ms x ≤ rs_ms y.
Proof. intros Hs. induction Hs as [|x y z Hs _ IH]; [lia|]. apply storeStep_clock in Hs. lia. Qed.
Lemma others_keep origin v exp x y : rtc (storeStep v) x y → heldBy origin v exp (rs_db x) → rs_ms y < exp →
  heldBy origin v exp (rs_db y)
  ∧ db_keys (rs_db y) !! directoryKey origin "state" = db_keys (rs_db x) !! directoryKey origin "state".
Proof.
  intros Hs. induction Hs as [|x y z Hs Hss IH]; intros Hx Hz; [done|]. pose proof (storeSteps_clock _ _ _ Hss).
  destruct (other_keeps origin v exp x y Hs Hx) as (_ & Hy & Ey); [lia|]. destruct (IH Hy Hz) as [Hz' Ez].
  split; [done|]. by rewrite Ez.
Qed.
Lemma Acquire_holds origin ttl w0 w1 lease : Acquire origin ttl w0 = (w1, Done (Ok (Some lease))) →
  leaseKey lease = directoryKey origin "lease"
  ∧ heldBy origin (leaseValue lease) (rs_ms (w_redis w1) + ttlMs ttl) (rs_db (w_redis w1))
  ∧ db_keys (rs_db (w_redis w1)) !! directoryKey origin "state" = db_keys (rs_db (w_redis w0)) !! directoryKey origin "state".
Proof.
  intros (value & (_ & _ & Ha) & Hl & _)%Acquire_asks. rewrite (Hl lease eq_refl). split; [done|].
  specialize (Ha eq_refl). cbn [cmdRun] in Ha. unfold SETNX in Ha. destruct (find _ _ _); [done|].
  injection Ha as <-. unfold heldBy, put. simpl. rewrite lookup_insert_eq. split; [done|].
  by rewrite lookup_insert_ne by apply directoryKey_lease_state.
Qed.
(** While the lease is held, what is asked for it is refused, without effect. *)
Lemma asks_refused origin v exp cm w w' ok : heldBy origin v exp (rs_db (w_redis w)) → rs_ms (w_redis w') < exp →
  foreign v cm → contends origin cm → asks cm w w' ok → ok = false ∧ rs_db (w_redis w') = rs_db (w_redis w).
Proof.
  intros Hd Hn Hf Hc (Hm & Hdb & Ho). rewrite (held_refuses origin v exp) in Hdb, Ho by done.
  split; [destruct ok; [by specialize (Ho eq_refl)|done]|]. by destruct Hdb.
Qed.

(** C11: the lease excludes.  A process acquires the lease of a directory.  Other processes then call
    Load, Acquire, Renew, Release and SaveOwned of the store, on this or any other directory, in any
    order and with any failures of their Redis connections, with leases of other tokens than
    the one acquired.  At any moment before the acquired lease runs out: it is still there, the
    directory's saved state is what it was, and a further call of another process is refused and
    changes nothing in Redis (Acquire returns no lease, Renew and SaveOwned do not return true,
    Release releases nothing), while the owner's Renew returns true unless its connection fails. *)
Theorem lease_excludes_others origin ttl (w0 w1 : World S) lease x :
  Acquire origin ttl w0 = (w1, Done (Ok (Some lease))) →
  rtc (storeStep (leaseValue lease)) (w_redis w1) x →
  let expires := rs_ms (w_redis w1) + ttlMs ttl in
  rs_ms x < expires →
  db_keys (rs_db x) !! directoryKey origin "lease" = Some (mkEntry (RString (leaseValue lease)) (Some expires))
  ∧ db_keys (rs_db x) !! directoryKey origin "state" = db_keys (rs_db (w_redis w0)) !! directoryKey origin "state"
  ∧ (∀ w w' : World S, w_redis w = x → rs_ms (w_redis w') < expires →
      (∀ ttl' r, Acquire origin ttl' w = (w', Done r) → (r = Ok None ∨ r = Err ErrStore) ∧ rs_db (w_redis w') = rs_db x)
      ∧ (∀ other ttl' r, leaseKey other = leaseKey lease → leaseValue other ≠ leaseValue lease →
           Renew other ttl' w = (w', Done r) → r ≠ Ok true ∧ rs_db (w_redis w') = rs_db x)
      ∧ (∀ other r, leaseKey other = leaseKey lease → leaseValue other ≠ leaseValue lease →
           Release other w = (w', Done r) → rs_db (w_redis w') = rs_db x)
      ∧ (∀ other state r, leaseValue other ≠ leaseValue lease →
           SaveOwned origin other state w = (w', Done r) → r ≠ Ok true ∧ rs_db (w_redis w') = rs_db x)
      ∧ (∀ ttl' r, 0 < ttl' → Renew lease ttl' w = (w', Done r) → r = Ok true ∨ r = Err ErrStore)).
Proof.
  intros Ha Hs expires Hx. apply Acquire_holds in Ha as (Hk & Hh & Hst).
  destruct (others_keep origin _ expires _ _ Hs Hh Hx) as [Hd Hst']. split; [exact Hd|]. split; [congruence|].
  intros w w' <- Hw. set (v := leaseValue lease) in *.
  assert (Hother : ∀ other, leaseKey other = leaseKey lease → leaseValue other ≠ v → otherLease v other).
  { intros other Ho Hv. split; [exists origin; congruence|done]. }
  assert (Href : ∀ cm ok, foreign v cm → contends origin cm → asks cm w w' ok → ok = false ∧ rs_db (w_redis w') = rs_db (w_redis w)).
  { intros cm ok. by apply (asks_refused origin v expires). }
  split; [|split; [|split; [|split]]].
  - intros ttl' r (value & A & _ & He)%Acquire_asks. apply Href in A as [A Hdb]; [|done|done]. split; [|done].
    destruct r as [[]|e]; [done|by left|right; by rewrite (He e eq_refl)].
  - intros other ttl' r Ho Hv A%Renew_asks. apply Href in A as [A Hdb]; [|by apply Hother|simpl; congruence].
    split; [|done]. by destruct r as [[]|].
  - intros other r Ho Hv A%Release_asks. apply Href in A as [A Hdb]; [done|by apply Hother|simpl; congruence].
  - intros other state r Hv [[E ->]|[Ho A]]%SaveOwned_asks; [split; [done|by rewrite E]|].
    apply Href in A as [A Hdb]; [|split; [done|apply Hother; [congruence|done]]|done]. split; [|done]. by destruct r as [[]|].
  - intros ttl' r Ht E. unfold Renew in E. destruct (Z.leb_spec ttl' 0); [lia|].
    apply bind_inv in E as (w2 & y & (Hm & _ & Ho)%redis_effect & [= <- <-]). destruct y as [n|e]; [|by right]. left.
    specialize (Ho n eq_refl). pose proof (held_find origin v expires _ _ Hd Hw) as Hfd.
    unfold renewLeaseScript, GETopt, mbind, Rcmd_bind in Ho. rewrite Hk in Ho.
    rewrite (held_asString _ _ _ _ _ Hfd), decide_True in Ho by done. unfold PEXPIRE in Ho. rewrite Hfd in Ho.
    by injection Ho as _ <-.
Qed.
End calls.

Section roundtrip.
Context {S : Type} `{RedisReliable S}.

(** A state saved under the lease is read back as it was, its times to the second, by
    every load in the ninety days the state is kept. *)
Theorem saved_state_reads_back origin lease state (w w' : World S) :
  storable state →
  SaveOwned origin lease state w = (w', Done (Ok true)) →
  rs_ms (w_redis (Load origin w').1) < rs_ms (w_redis w') + stateRetention / Millisecond →
  (Load origin w').2 = Done (Ok (truncState state)).
Proof.
  intros Hst Hsave Hms. unfold SaveOwned in Hsave. destruct (negb _ || negb _) eqn:Eg; [done|].
  apply orb_false_iff in Eg as [_ Hv%negb_false_iff].
  set (c := saveOwnedScript _ _ _ _ _) in Hsave. unfold mbind, M_bind, redis in Hsave. simpl in Hsave.
  destruct (redis_do c (w_redis w)).2 as [n|] eqn:En; [|done].
  injection Hsave as Hw Hn. apply Z.eqb_eq in Hn as ->. apply redis_do_Ok in En.
  apply saveOwned_one in En as (_ & h & Hh & Hd); [|done].
  assert (Ho : eqs origin "" = false).
  { apply eqs_false. by apply validateState_true in Hv as [? _]. }
  revert Hms. unfold Load. rewrite Ho. unfold mbind, M_bind, redis. simpl. intros Hms.
  pose proof (redis_do_ok _ (HGETALL (directoryKey origin "state")) (w_redis w')) as HG.
  set (g := redis_do _ (w_redis w')) in *. clearbody g. injection HG as _ HG. rewrite HG.
  rewrite <- Hw in *. simpl in *. fold c in Hms, Hd. rewrite Hd. unfold asHash.
  rewrite find_put_same. unfold live. simpl. apply Z.ltb_lt in Hms. rewrite Hms.
  by rewrite (decode_saved origin).
Qed.
End roundtrip.

(** ** Examples *)

Definition demoOrigin : string := "https://directory.example".
Definition demoState : State :=
  mkState true (1700000000 * Second) (1700090000 * Second) "heartbeat" "none" 3 (1700000000 * Second)
    "" 0.
(** Two processes that share a Redis, with different random values. *)
Definition storeWorld (random : string) (r : Calm) : World Calm :=
  let w := quietWorld r (zeroRelayState false) in
  mkWorld (w_redis w) (w_relay w) (w_clock w) (w_ticks w) (λ _, random) (w_uuids w) (w_broker w) (w_sends w) (w_queued w)
    (w_net w) (w_posts w) (w_sentRequests w) (w_spawned w) (w_cache w).
Definition ownerWorld : World Calm := storeWorld "aaaaaaaaaaaaaaaaaaaaaaaa" (mkCalm 1000 emptyDb).
Definition afterAcquire : World Calm := (Acquire demoOrigin Minute ownerWorld).1.
Definition theirLease : redisLease := mkLease (directoryKey demoOrigin "lease") "other".
Definition theirWorld (r : Calm) : World Calm := storeWorld "bbbbbbbbbbbbbbbbbbbbbbbb" r.
Lemma theirStep v c (r : Calm) : callByOther v c → (callRun c (theirWorld r)).2 = Done tt →
  storeStep v r (w_redis (callRun c (theirWorld r)).1).
Proof.
  intros Hc E. apply (Step v c (theirWorld r)); [exact Hc|]. rewrite <- E. apply surjective_pairing.
Qed.
Lemma lease_excludes_others_witness :
  let x1 := w_redis (callRun (CallAcquire demoOrigin Minute) (theirWorld (w_redis afterAcquire))).1 in
  let x2 := w_redis (callRun (CallRelease theirLease) (theirWorld x1)).1 in
  (SaveOwned demoOrigin theirLease demoState (theirWorld x2)).2 ≠ Done (Ok true)
  ∧ (Acquire demoOrigin Minute (theirWorld x2)).2 ≠ Done (Ok (Some theirLease))
  ∧ db_keys (rs_db x2) !! directoryKey demoOrigin "state" = None.
Proof.
  intros x1 x2. set (mine := mkLease (directoryKey demoOrigin "lease") "YWFhYWFhYWFhYWFhYWFhYWFhYWFhYWFh").
  assert (E : (Acquire demoOrigin Minute ownerWorld).2 = Done (Ok (Some mine))) by (vm_compute; reflexivity).
  destruct (lease_excludes_others demoOrigin Minute ownerWorld afterAcquire mine x2) as (_ & Hst & Hr).
  - rewrite <- E. apply surjective_pairing.
  - eapply rtc_l; [apply (theirStep _ (CallAcquire demoOrigin Minute)); [exact I|vm_compute; reflexivity]|].
    apply rtc_once, (theirStep _ (CallRelease theirLease)); [|vm_compute; reflexivity].
    split; [by exists demoOrigin|discriminate].
  - vm_compute. reflexivity.
  - split; [|split].
    + destruct (SaveOwned demoOrigin theirLease demoState (theirWorld x2)) as [w' o] eqn:Es. cbn [snd]. intros ->.
      destruct (Hr (theirWorld x2) w') as (_ & _ & _ & H & _); [reflexivity| |].
      { apply (f_equal fst) in Es. cbn [fst] in Es. rewrite <- Es. vm_compute. reflexivity. }
      by apply (H theirLease demoState (Ok true)).
    + destruct (Acquire demoOrigin Minute (theirWorld x2)) as [w' o] eqn:Es. cbn [snd]. intros ->.
      destruct (Hr (theirWorld x2) w') as (H & _); [reflexivity| |].
      { apply (f_equal fst) in Es. cbn [fst] in Es. rewrite <- Es. vm_compute. reflexivity. }
      by destruct (H Minute _ Es) as [[|] _].
    + rewrite Hst. reflexivity.
Defined.

Definition demoWorld : World Calm :=
  quietWorld (mkCalm 1000 (put (directoryKey demoOrigin "lease") (RString "mine") None emptyDb)) (zeroRelayState false).
Lemma saved_state_reads_back_witness :
  let lease := mkLease (directoryKey demoOrigin "lease") "mine" in
  let w' := (SaveOwned demoOrigin lease demoState demoWorld).1 in
  (Load demoOrigin w').2 = Done (Ok demoState).
Proof.
  intros lease w'.
  assert (Ht : truncState demoState = demoState) by reflexivity. rewrite <- Ht.
  apply (saved_state_reads_back demoOrigin lease demoState demoWorld w').
  - split; [right; vm_compute; split; congruence|]. split; right; vm_compute; split; congruence.
  - assert (E : (SaveOwned demoOrigin lease demoState demoWorld).2 = Done (Ok true)) by reflexivity.
    rewrite <- E. apply surjective_pairing.
  - vm_compute. reflexivity.
Defined.
