(* ===== verification/DirectoryClient.v ===== *)
(** * The directory lifecycle client (internal/directoryclient)

    One client talks to one directory: a status document is read to agree on a
    protocol version, then a signed register, heartbeat or unregister request of
    that version is sent and its answer checked against a closed vocabulary.

    [clientError] is the error of a call: a plain error (sentinels compared with
    [errors.Is]) or a validated [ProtocolError].  Parameters: [mime.ParseMediaType],
    [http.ParseTime], [mail.ParseAddress], the size of an RSA key, and the steps of
    common-fate/httpsig (derive, canonicalize, sign, include).  The options that
    only tests set ([HTTPClient], [Now], [Nonce]) are the production ones. *)

From S2P Require Import Prelude GoStrings GoUrl Sha256 GoTime Redis World Json NetAddr Signer ActivityModel.
From S2P Require Import DirectoryOrigin DirectoryProfile DirectoryStore.

(** ** Vocabulary (vocabulary.go) *)

Definition ProtocolVersion : Z := 1.
Definition ProtocolVersion2 : Z := 2.
Definition ProtocolVersion3 : Z := 3.
Definition MaximumLifecycleProtocolVersions : Z := 8.
Definition MaximumParticipatingInstanceCount : Z := 10000000.
Definition OperationRegister : string := "register".
Definition OperationHeartbeat : string := "heartbeat".
Definition OperationUnregister : string := "unregister".
Definition operationValid (operation : string) : bool :=
  oneOf operation [OperationRegister; OperationHeartbeat; OperationUnregister].
Definition outcomeValidFor (outcome operation : string) : bool :=
  if operation =s OperationRegister then oneOf outcome ["created"; "updated"; "unchanged"]
  else if operation =s OperationHeartbeat then outcome =s "recorded"
  else if operation =s OperationUnregister then oneOf outcome ["removed"; "absent"]
  else false.

Definition ErrorAuthenticationFailed : string := "authentication_failed".
Definition ErrorLifecycleUnavailable : string := "lifecycle_unavailable".
Definition ErrorEnrollmentClosed : string := "enrollment_closed".
Definition ErrorRelayNotRegistered : string := "relay_not_registered".
Definition ErrorRelaySuspended : string := "relay_suspended".
Definition ErrorRateLimited : string := "rate_limited".
Definition ErrorInternal : string := "internal_error".
Definition errorCodeValid (code : string) : bool :=
  oneOf code ["invalid_request"; "unsupported_protocol_version"; ErrorAuthenticationFailed; "replay_detected";
              ErrorLifecycleUnavailable; ErrorEnrollmentClosed; ErrorRelayNotRegistered;
              ErrorRelaySuspended; ErrorRateLimited; ErrorInternal].

Record Response := mkResponse {
  respVersion : Z; respOperation : string; respOutcome : string; respRelayActor : string }.
Definition zeroResponse : Response := mkResponse 0 "" "" "".

(** ** Errors *)

Definition ErrDirectoryResponse : error := errorSentinel "ErrDirectoryResponse" "directory response is invalid".
Definition ErrResponseTooLarge : error := errorSentinel "ErrResponseTooLarge" "directory response is too large".
Definition ErrDirectoryTransport : error := errorSentinel "ErrDirectoryTransport" "directory transport failed".

Inductive clientError :=
  | Plain (e : error)
  | ProtocolError (statusCode : Z) (code : string) (retryAfter : Duration).
Inductive cresult (A : Type) := COk (a : A) | CErr (e : clientError).
Arguments COk {A} a.
Arguments CErr {A} e.
(** [errors.Is(err, ErrDirectoryTransport)] and the like; [errors.As] on a [ProtocolError]. *)
Definition clientErrorIs (e : clientError) (name : string) : bool :=
  match e with Plain e => errorIs e name | ProtocolError _ _ _ => false end.
Definition protocolCode (e : clientError) : option string :=
  match e with Plain _ => None | ProtocolError _ code _ => Some code end.
Definition hasCode (e : clientError) (code : string) : bool := bool_decide (protocolCode e = Some code).

Definition bindC {W A B} (m : M W (cresult A)) (f : A → M W (cresult B)) : M W (cresult B) :=
  m ≫= λ r, match r with COk a => f a | CErr e => mret (CErr e) end.
Notation "x ←? m ; k" := (bindC m (λ x, k)) (at level 20, m at level 100, k at level 200) : relay_scope.
Definition plain {A} (r : result A) : cresult A := match r with Ok a => COk a | Err e => CErr (Plain e) end.

(** ** Constants of the client *)

Definition maximumResponseBytes : Z := 16 * 1024.
Definition maximumErrorMessage : Z := 256.
Definition MaximumRetryAfter : Duration := 24 * Hour.
Definition statusPath : string := "/v1/status".
Definition operationPath (operation : string) : string :=
  if operation =s OperationRegister then "/v1/relays/register"
  else if operation =s OperationHeartbeat then "/v1/relays/heartbeat"
  else if operation =s OperationUnregister then "/v1/relays/unregister" else "".
(** The path switches of [sendV2] and [sendV3]. *)
Definition operationPathV2 (operation : string) : string :=
  if operation =s OperationRegister then "/v2/relays/register"
  else if operation =s OperationHeartbeat then "/v2/relays/heartbeat"
  else if operation =s OperationUnregister then "/v2/relays/unregister" else "".
Definition operationPathV3 (operation : string) : string :=
  if operation =s OperationRegister then "/v3/relays/register"
  else if operation =s OperationHeartbeat then "/v3/relays/heartbeat"
  else if operation =s OperationUnregister then "/v3/relays/unregister" else "".

(** ** Strict decoding *)

(** A member name that occurs twice in one object, anywhere in the document. *)
Fixpoint duplicateJSONName (v : json) : bool :=
  match v with
  | JArray l => existsb duplicateJSONName l
  | JObject ms => negb (bool_decide (NoDup ms.*1)) || existsb (λ m, duplicateJSONName m.2) ms
  | _ => false
  end.

(** Decoding into an [int], a [bool] and an [[]int]. *)
Definition decodeInt (old : Z) (v : json) : result Z :=
  match v with
  | JNumber literal => match parseInt 64 literal with Some z => Ok z | None => Err errJsonType end
  | JNull => Ok old
  | _ => Err errJsonType
  end.
Definition decodeBool (old : bool) (v : json) : result bool :=
  match v with JBool b => Ok b | JNull => Ok old | _ => Err errJsonType end.
Fixpoint decodeIntElements (old : list Z) (l : list json) : result (list Z) :=
  match l with
  | [] => Ok []
  | v :: l =>
      z ← decodeInt (default 0 (head old)) v;
      rest ← decodeIntElements (tail old) l;
      Ok (z :: rest)
  end.
Definition decodeInts (old : list Z) (v : json) : result (list Z) :=
  match v with JNull => Ok [] | JArray l => decodeIntElements old l | _ => Err errJsonType end.
Definition errUnknownField : error := errorsNew "json: unknown field".

(** [decodeStrictJSON] into a struct: its fields are matched up to case, an unknown one is
    refused. *)
Definition decodeStrictJSON {A} (field : string → json → A → result A) (zero : A) (body : string) : result A :=
  if body =s "" then Err ErrDirectoryResponse
  else match jsonParse body with
  | Err _ => Err ErrDirectoryResponse
  | Ok v =>
      if duplicateJSONName v then Err ErrDirectoryResponse
      else match decodeStruct field zero v with Ok a => Ok a | Err _ => Err ErrDirectoryResponse end
  end.

Definition responseField (k : string) (v : json) (r : Response) : result Response :=
  let '(mkResponse version operation outcome actor) := r in
  if EqualFold k "protocol_version" then z ← decodeInt version v; Ok (mkResponse z operation outcome actor)
  else if EqualFold k "operation" then s ← decodeString operation v; Ok (mkResponse version s outcome actor)
  else if EqualFold k "outcome" then s ← decodeString outcome v; Ok (mkResponse version operation s actor)
  else if EqualFold k "relay_actor" then s ← decodeString actor v; Ok (mkResponse version operation outcome s)
  else Err errUnknownField.

Record errorDocument := mkErrorDocument { docCode : string; docMessage : string }.
Record errorResponse := mkErrorResponse { errVersion : Z; errDocument : errorDocument }.
Definition errorDocumentField (k : string) (v : json) (d : errorDocument) : result errorDocument :=
  if EqualFold k "code" then s ← decodeString (docCode d) v; Ok (mkErrorDocument s (docMessage d))
  else if EqualFold k "message" then s ← decodeString (docMessage d) v; Ok (mkErrorDocument (docCode d) s)
  else Err errUnknownField.
Definition errorResponseField (k : string) (v : json) (r : errorResponse) : result errorResponse :=
  if EqualFold k "protocol_version" then z ← decodeInt (errVersion r) v; Ok (mkErrorResponse z (errDocument r))
  else if EqualFold k "error" then
    d ← decodeStruct errorDocumentField (errDocument r) v; Ok (mkErrorResponse (errVersion r) d)
  else Err errUnknownField.

Record DirStatus := mkDirStatus {
  SchemaVersion : Z; LifecycleProtocolVersions : list Z; Service : string; Version : string;
  StatusPublicBaseURL : string; LifecycleEnabled : bool; LifecycleAvailable : bool;
  EnrollmentOpen : bool; PublicListingEnabled : bool; PublicListingAvailable : bool }.
Definition zeroStatus : DirStatus := mkDirStatus 0 [] "" "" "" false false false false false.
Definition statusField (k : string) (v : json) (s : DirStatus) : result DirStatus :=
  let '(mkDirStatus sv lv service version base le la eo ple pla) := s in
  if EqualFold k "schema_version" then z ← decodeInt sv v; Ok (mkDirStatus z lv service version base le la eo ple pla)
  else if EqualFold k "lifecycle_protocol_versions" then
    l ← decodeInts lv v; Ok (mkDirStatus sv l service version base le la eo ple pla)
  else if EqualFold k "service" then x ← decodeString service v; Ok (mkDirStatus sv lv x version base le la eo ple pla)
  else if EqualFold k "version" then x ← decodeString version v; Ok (mkDirStatus sv lv service x base le la eo ple pla)
  else if EqualFold k "public_base_url" then
    x ← decodeString base v; Ok (mkDirStatus sv lv service version x le la eo ple pla)
  else if EqualFold k "lifecycle_enabled" then
    b ← decodeBool le v; Ok (mkDirStatus sv lv service version base b la eo ple pla)
  else if EqualFold k "lifecycle_available" then
    b ← decodeBool la v; Ok (mkDirStatus sv lv service version base le b eo ple pla)
  else if EqualFold k "enrollment_open" then
    b ← decodeBool eo v; Ok (mkDirStatus sv lv service version base le la b ple pla)
  else if EqualFold k "public_listing_enabled" then
    b ← decodeBool ple v; Ok (mkDirStatus sv lv service version base le la eo b pla)
  else if EqualFold k "public_listing_available" then
    b ← decodeBool pla v; Ok (mkDirStatus sv lv service version base le la eo ple b)
  else Err errUnknownField.

Definition validDirectoryVersionToken (value : string) : bool :=
  negb ((value =s "") || (64 <? len value))
  && forallb (λ c, isAlpha c || isDigit c || byteIn c "._+~-") (bytes value).

(** Versions strictly increasing from 1 on, the loop of [validStatusLifecycleVersions]. *)
Fixpoint increasingVersions (previous : Z) (l : list Z) : bool :=
  match l with [] => true | v :: l => (previous <? v) && increasingVersions v l end.
Definition validStatusLifecycleVersions (status : DirStatus) : bool :=
  let l := LifecycleProtocolVersions status in
  if (SchemaVersion status =? 2) || (SchemaVersion status =? 3) then bool_decide (l = [])
  else if SchemaVersion status =? 4 then
    negb (bool_decide (l = []) || (MaximumLifecycleProtocolVersions <? Z.of_nat (length l)))
    && increasingVersions 0 l && existsb (Z.eqb ProtocolVersion) l
  else false.

(** ** Answers *)

Definition errorStatusMatches (code : string) (status : Z) : bool :=
  if code =s "invalid_request" then (status =? 400) || (status =? 413)
  else if code =s "unsupported_protocol_version" then status =? 400
  else if code =s ErrorAuthenticationFailed then status =? 401
  else if (code =s "replay_detected") || (code =s ErrorRelayNotRegistered) then status =? 409
  else if code =s ErrorLifecycleUnavailable then status =? 503
  else if (code =s ErrorEnrollmentClosed) || (code =s ErrorRelaySuspended) then status =? 403
  else if code =s ErrorRateLimited then status =? 429
  else if code =s ErrorInternal then (status =? 500) || (status =? 503)
  else false.

Definition decodeSuccessVersion (status : Z) (operation relayActor : string) (protocolVersion : Z) (body : string)
    : result Response :=
  if (operation =s OperationRegister) && negb (status =? 200) && negb (status =? 201)
     || negb (operation =s OperationRegister) && negb (status =? 200) then Err ErrDirectoryResponse
  else match decodeStrictJSON responseField zeroResponse body with
  | Err _ => Err ErrDirectoryResponse
  | Ok response =>
      if negb (respVersion response =? protocolVersion) || negb (respOperation response =s operation)
         || negb (outcomeValidFor (respOutcome response) operation)
         || negb (respRelayActor response =s relayActor) then Err ErrDirectoryResponse
      else Ok response
  end.
Definition decodeSuccess (status : Z) (operation relayActor body : string) : result Response :=
  decodeSuccessVersion status operation relayActor ProtocolVersion body.

Definition readResponseBody (response : httpResponse) : result string :=
  match readLimited maximumResponseBytes (RespBody response) (RespReadErr response) with
  | (_, Some _) => Err ErrDirectoryResponse
  | (body, None) => if maximumResponseBytes <? len body then Err ErrResponseTooLarge else Ok body
  end.

(** [http.TimeFormat] of a UTC time. *)
Definition weekdayName (days : Z) : string :=
  nth (Z.to_nat ((days + 4) mod 7)) ["Sun"; "Mon"; "Tue"; "Wed"; "Thu"; "Fri"; "Sat"] "".
Definition monthName (m : Z) : string :=
  nth (Z.to_nat (m - 1)) ["Jan"; "Feb"; "Mar"; "Apr"; "May"; "Jun"; "Jul"; "Aug"; "Sep"; "Oct"; "Nov"; "Dec"] "".
Definition formatHTTP (t : Time) : string :=
  let secs := t / Second in
  let days := secs / 86400 in
  let '(y, m, d) := civil days in
  let s := secs mod 86400 in
  weekdayName days +:+ ", " +:+ two d +:+ " " +:+ monthName m +:+ " " +:+ padTo 4 (itoa y) +:+ " "
  +:+ two (s / 3600) +:+ ":" +:+ two (s mod 3600 / 60) +:+ ":" +:+ two (s mod 60) +:+ " GMT".
Example formatHTTP_sample : formatHTTP (1709210096 * Second) = "Thu, 29 Feb 2024 12:34:56 GMT".
Proof. vm_compute. reflexivity. Qed.

(** ** Identity and destinations *)

Definition validRelayIdentity (actor publicBase : string) : bool :=
  match url_ParseRequestURI actor, ParseOrigin publicBase with
  | Ok actorURL, Ok baseURL =>
      if negb (Scheme actorURL =s "https") || negb (Scheme baseURL =s "https")
         || bool_decide (User actorURL ≠ None) || bool_decide (User baseURL ≠ None)
         || negb (RawQuery actorURL =s "") || negb (Fragment actorURL =s "") || ForceQuery actorURL
         || Contains actor "#"
         || negb (RawQuery baseURL =s "") || negb (Fragment baseURL =s "") || ForceQuery baseURL
         || (Host actorURL =s "") || (Host baseURL =s "") || negb (Host actorURL =s Host baseURL)
         || negb (Path baseURL =s "") || (Path actorURL =s "")
         || negb (URL_String actorURL =s actor) || negb (URL_String baseURL =s publicBase) then false
      else if Contains (EscapedPath actorURL) "//" then false
      else negb (existsb (λ segment, (segment =s ".") || (segment =s "..")) (Split (EscapedPath actorURL) "/"))
  | _, _ => false
  end.

(** The zero [netip.Addr], which the code also refuses, is no value of [Addr]: [LookupNetIP] returns none. *)
Definition unsafeDirectoryDestination (address : Addr) : bool :=
  IsUnspecified address || IsLoopback address || IsLinkLocalUnicast address
  || IsLinkLocalMulticast address || IsMulticast address.

(** ** Retry-After *)

Definition boundedRetryAfter (ParseTime : string → result Time) (code : string) (status : Z) (header : Header)
    (now : Time) : result Duration :=
  if negb ((code =s ErrorRateLimited) || (code =s ErrorInternal) && (status =? 503)) then Ok 0
  else
    let value := TrimSpace (headerGet header "Retry-After") in
    if value =s "" then Ok 0
    else
      let delay :=
        match parseUint 64 value with
        | Some seconds => if MaximumRetryAfter / Second <? seconds then Ok MaximumRetryAfter else Ok (seconds * Second)
        | None =>
            match ParseTime value with
            | Err _ => Err ErrDirectoryResponse
            | Ok when => if when - now <? 0 then Err ErrDirectoryResponse else Ok (when - now)
            end
        end in
      delay ← delay; Ok (if MaximumRetryAfter <? delay then MaximumRetryAfter else delay).

Definition decodeProtocolErrorAtVersion (ParseTime : string → result Time) (status : Z) (header : Header)
    (protocolVersion : Z) (body : string) (now : Time) : clientError :=
  match decodeStrictJSON errorResponseField (mkErrorResponse 0 (mkErrorDocument "" "")) body with
  | Err _ => Plain ErrDirectoryResponse
  | Ok response =>
      let code := docCode (errDocument response) in
      let message := docMessage (errDocument response) in
      if negb (errVersion response =? protocolVersion) || negb (errorCodeValid code) || (message =s "")
         || (maximumErrorMessage <? len message) || negb (errorStatusMatches code status)
      then Plain ErrDirectoryResponse
      else match boundedRetryAfter ParseTime code status header now with
           | Err _ => Plain ErrDirectoryResponse
           | Ok retryAfter => ProtocolError status code retryAfter
           end
  end.
Definition decodeProtocolErrorAt (ParseTime : string → result Time) (status : Z) (header : Header) (body : string)
    (now : Time) : clientError :=
  decodeProtocolErrorAtVersion ParseTime status header ProtocolVersion body now.

(** ** The client *)

Definition SignatureLabel : string := "directory".
Definition SignatureTag : string := "activity-relay-directory-v1".
Definition SignatureTagV2 : string := "activity-relay-directory-v2".
Definition SignatureTagV3 : string := "activity-relay-directory-v3".
Definition SignatureAlg : string := "rsa-v1_5-sha256".
Definition SignatureTTL : Duration := 5 * Minute.
Definition postComponents : list string :=
  ["@method"; "@authority"; "@target-uri"; "content-digest"; "content-type"; "date"].

(** [sigparams.Params]. *)
Record sigParams := mkSigParams {
  spKeyID : string; spTag : string; spAlg : string; spCreated : Time; spExpires : Time;
  spCovered : list string; spNonce : string }.

Section client.
Context {S : Type} `{Redis S} {PrivateKey Base : Type}.
Abbreviation Mw := (M (World S)).

(** What the client takes from outside: see the head of the file. *)
Record ClientLib := mkClientLib {
  ParseMediaType : string → result (string * list (string * string));
  ParseTime : string → result Time;
  ParseAddress : string → result string;
  keyBits : PrivateKey → Z;
  sigDerive : sigParams → outRequest → result Base;
  sigCanonical : Base → sigParams → result string;
  rsaSign : PrivateKey → string → result string;
  sigInclude : string → sigParams → string → outRequest → result outRequest;
  marshalDigest : list ascii → result string }.
Variable lib : ClientLib.

Record requestSigner := mkRequestSigner { rsKeyID : string; rsPrivateKey : PrivateKey }.
Definition newRequestSigner (keyID : string) (privateKey : option PrivateKey) : result requestSigner :=
  match privateKey with
  | None => Err ErrDirectoryConfiguration
  | Some key =>
      if (keyID =s "") || negb (TrimSpace keyID =s keyID) || (keyBits lib key <? 2048)
      then Err ErrDirectoryConfiguration
      else Ok (mkRequestSigner keyID key)
  end.

Definition randomNonce : Mw (result string) :=
  value ←! randRead 24; mret (Ok (base64RawURL value)).

Definition signWithTag (signer : requestSigner) (request : outRequest) (body tag : string)
    : Mw (result outRequest) :=
  match outURL request with
  | None => mret (Err ErrDirectoryConfiguration)
  | Some u =>
      if (tag =s "") || negb (outMethod request =s "POST") || negb (Scheme u =s "https") || (Host u =s "")
         || negb (Fragment u =s "") then mret (Err ErrDirectoryConfiguration)
      else
        now ← timeNow;
        let created := now / Second * Second in
        if created <? 0 then mret (Err ErrDirectoryConfiguration)
        else
          n ← randomNonce;
          match n with
          | Err _ => mret (Err ErrDirectoryConfiguration)
          | Ok nonce =>
              if (nonce =s "") || (256 <? len nonce)
                 || existsb (λ c, bool_decide (c ∈ [chr 13; chr 10])) (bytes nonce)
              then mret (Err ErrDirectoryConfiguration)
              else
                let h := headerSet (headerSet (headerSet (outHeader request) "Host" (Host u))
                                      "Content-Type" "application/json") "Date" (formatHTTP created) in
                mret
                  (digest ← mapErr (errorWrap "directory content digest: ")
                     (mapErr (errorWrap "marshal RFC 9530 Content-Digest: ") (marshalDigest lib (sum256 (bytes body))));
                   let h := foldl headerDel (headerSet h "Content-Digest" digest)
                              ["Digest"; "Signature"; "Signature-Input"] in
                   let prepared := mkOut (outMethod request) (outURL request) (Host u) h (Some body) (len body) in
                   let params := mkSigParams (rsKeyID signer) tag SignatureAlg created (created + SignatureTTL)
                                   postComponents nonce in
                   base ← mapErr (errorWrap "derive directory signature: ") (sigDerive lib params prepared);
                   canonical ← mapErr (errorWrap "canonicalize directory signature: ") (sigCanonical lib base params);
                   signed ← mapErr (errorWrap "sign directory request: ") (rsaSign lib (rsPrivateKey signer) canonical);
                   final ← mapErr (errorWrap "include directory signature: ")
                             (sigInclude lib SignatureLabel params signed prepared);
                   if (headerGet (outHeader final) "Signature-Input" =s "")
                      || (headerGet (outHeader final) "Signature" =s "")
                   then Err (errorsNew "directory signature fields are missing")
                   else Ok final)
          end
  end.

Record Options := mkOptions {
  optOrigin : string; optRelayActor : string; optPublicBaseURL : string; optProfile : RelayProfile;
  optKeyID : string; optPrivateKey : option PrivateKey; optTelemetry : option (Mw (result Z)) }.
Record Client := mkClient {
  clOrigin : URL; clRelayActor : string; clPublicBaseURL : string; clProfile : RelayProfile;
  clSigner : requestSigner; clTelemetry : option (Mw (result Z)) }.

Definition New (options : Options) : result Client :=
  match ParseOrigin (optOrigin options) with
  | Err _ => Err ErrDirectoryConfiguration
  | Ok origin =>
      if negb (validRelayIdentity (optRelayActor options) (optPublicBaseURL options))
      then Err ErrDirectoryConfiguration
      else match NormalizeRelayProfile (ParseAddress lib) (optProfile options) with
      | Err _ => Err ErrDirectoryConfiguration
      | Ok profile =>
          signer ← newRequestSigner (optKeyID options) (optPrivateKey options);
          Ok (mkClient origin (optRelayActor options) (optPublicBaseURL options) profile signer
                (optTelemetry options))
      end
  end.

Definition clientProfileDigest_ (client : Client) : string := sha256Hex (jsonMarshal (profileWire (clProfile client))).

Definition withPath (u : URL) (path : string) : URL :=
  mkURL (Scheme u) (Opaque u) (User u) (Host u) path (RawPath u) (OmitHost u) (ForceQuery u) (RawQuery u)
    (Fragment u) (RawFragment u).
Definition validJSONMediaType (value : string) : bool :=
  match ParseMediaType lib value with
  | Ok (mediaType, parameters) => (mediaType =s "application/json") && bool_decide (parameters = [])
  | Err _ => false
  end.

(** [httpClient.Do]: any failure, redirects refused by the policy included, is one sentinel. *)
Definition transport (request : httpRequest) : Mw (cresult httpResponse) :=
  r ← httpDo request;
  mret (match r with Ok response => COk response | Err _ => CErr (Plain ErrDirectoryTransport) end).

Definition Status_ (client : Client) : Mw (cresult DirStatus) :=
  match requestURL (URL_String (withPath (clOrigin client) statusPath)) with
  | Err _ => mret (CErr (Plain ErrDirectoryConfiguration))
  | Ok target =>
      response ←? transport (mkHttpRequest "GET" (URL_String target) ∅ "");
      body ←? mret (plain (readResponseBody response));
      if negb (validJSONMediaType (headerGet (RespHeader response) "Content-Type"))
      then mret (CErr (Plain ErrDirectoryResponse))
      else if negb (StatusCode response =? 200) then
        now ← timeNow;
        mret (CErr (decodeProtocolErrorAt (ParseTime lib) (StatusCode response) (RespHeader response) body now))
      else
        mret (match decodeStrictJSON statusField zeroStatus body with
              | Err _ => CErr (Plain ErrDirectoryResponse)
              | Ok status =>
                  if negb (validStatusLifecycleVersions status)
                     || negb (Service status =s "activity-relay-directory")
                     || negb (validDirectoryVersionToken (Version status))
                     || negb (StatusPublicBaseURL status =s URL_String (clOrigin client))
                  then CErr (Plain ErrDirectoryResponse) else COk status
              end)
  end.

(** The body that [send], [sendV2] and [sendV3] share: the request of one operation at a path,
    signed with a tag, and the answer of one protocol version. *)
Definition exchange (client : Client) (operation path tag : string) (protocolVersion : Z) (document : json)
    : Mw (cresult Response) :=
  if negb (operationValid operation) then mret (CErr (Plain ErrDirectoryConfiguration))
  else
    let body := jsonMarshal document in
    match requestURL (URL_String (withPath (clOrigin client) path)) with
    | Err _ => mret (CErr (Plain ErrDirectoryConfiguration))
    | Ok target =>
        signed ← signWithTag (clSigner client)
                   (mkOut "POST" (Some target) (Host target) ∅ (Some body) (len body)) body tag;
        match signed with
        | Err e => mret (CErr (Plain e))
        | Ok request =>
            response ←? transport (mkHttpRequest (outMethod request) (URL_String target) (outHeader request) body);
            responseBody ←? mret (plain (readResponseBody response));
            if negb (validJSONMediaType (headerGet (RespHeader response) "Content-Type"))
            then mret (CErr (Plain ErrDirectoryResponse))
            else if (200 <=? StatusCode response) && (StatusCode response <? 300) then
              mret (plain (decodeSuccessVersion (StatusCode response) operation (clRelayActor client)
                             protocolVersion responseBody))
            else
              now ← timeNow;
              mret (CErr (decodeProtocolErrorAtVersion (ParseTime lib) (StatusCode response)
                            (RespHeader response) protocolVersion responseBody now))
        end
    end.
Definition send (client : Client) (operation : string) (document : json) : Mw (cresult Response) :=
  exchange client operation (operationPath operation) SignatureTag ProtocolVersion document.
Definition sendV2 (client : Client) (operation : string) (document : json) : Mw (cresult Response) :=
  exchange client operation (operationPathV2 operation) SignatureTagV2 ProtocolVersion2 document.
Definition sendV3 (client : Client) (operation : string) (document : json) : Mw (cresult Response) :=
  exchange client operation (operationPathV3 operation) SignatureTagV3 ProtocolVersion3 document.

(** ** Requests *)

Definition jint (z : Z) : json := JNumber (itoa z).
Definition registerRequest (client : Client) : json :=
  JObject [("protocol_version", jint ProtocolVersion); ("operation", JString OperationRegister);
           ("relay_actor", JString (clRelayActor client)); ("public_base_url", JString (clPublicBaseURL client))].
Definition identityRequest (client : Client) (version : Z) (operation : string) : json :=
  JObject [("protocol_version", jint version); ("operation", JString operation);
           ("relay_actor", JString (clRelayActor client))].
Definition v2RegisterRequest (client : Client) : json :=
  JObject [("protocol_version", jint ProtocolVersion2); ("operation", JString OperationRegister);
           ("relay_actor", JString (clRelayActor client)); ("public_base_url", JString (clPublicBaseURL client));
           ("profile", profileWire (clProfile client))].
Definition telemetryMember (telemetry : option Z) : list (string * json) :=
  match telemetry with
  | None => []
  | Some count => [("telemetry", JObject [("participating_instance_count", jint count)])]
  end.
Definition v3RegisterRequest (client : Client) (telemetry : option Z) : json :=
  JObject ([("protocol_version", jint ProtocolVersion3); ("operation", JString OperationRegister);
            ("relay_actor", JString (clRelayActor client)); ("public_base_url", JString (clPublicBaseURL client));
            ("profile", profileWire (clProfile client))] ++ telemetryMember telemetry).
Definition v3HeartbeatRequest (client : Client) (telemetry : option Z) : json :=
  JObject ([("protocol_version", jint ProtocolVersion3); ("operation", JString OperationHeartbeat);
            ("relay_actor", JString (clRelayActor client))] ++ telemetryMember telemetry).

Definition currentV3Telemetry (client : Client) : Mw (option Z) :=
  match clTelemetry client with
  | None => mret None
  | Some telemetry =>
      r ← telemetry;
      mret (match r with
            | Err _ => None
            | Ok count => if (count <? 0) || (MaximumParticipatingInstanceCount <? count) then None else Some count
            end)
  end.

(** ** Operations *)

Definition Register (client : Client) : Mw (cresult Response) :=
  send client OperationRegister (registerRequest client).
Definition Heartbeat (client : Client) : Mw (cresult Response) :=
  send client OperationHeartbeat (identityRequest client ProtocolVersion OperationHeartbeat).
Definition Unregister (client : Client) : Mw (cresult Response) :=
  send client OperationUnregister (identityRequest client ProtocolVersion OperationUnregister).

Definition HeartbeatWithRegisterReconciliation (client : Client) : Mw (cresult Response) :=
  r ← Heartbeat client;
  match r with
  | COk response => mret (COk response)
  | CErr e =>
      if negb (hasCode e ErrorRelayNotRegistered) then mret (CErr e)
      else _ ←? Register client; Heartbeat client
  end.

(** The loop of [negotiatedProtocolVersion], from the last version on. *)
Fixpoint newestSupported (versions : list Z) : option Z :=
  match versions with
  | [] => None
  | v :: rest => if (v =? ProtocolVersion3) || (v =? ProtocolVersion2) || (v =? ProtocolVersion) then Some v
                 else newestSupported rest
  end.
Definition negotiatedProtocolVersion (client : Client) : Mw (cresult Z) :=
  status ←? Status_ client;
  mret (COk (if 4 <=? SchemaVersion status
             then default ProtocolVersion (newestSupported (rev (LifecycleProtocolVersions status)))
             else ProtocolVersion)).

Definition registerVersion (client : Client) (version : Z) : Mw (cresult Response) :=
  if version =? ProtocolVersion then send client OperationRegister (registerRequest client)
  else if version =? ProtocolVersion2 then sendV2 client OperationRegister (v2RegisterRequest client)
  else if version =? ProtocolVersion3 then
    telemetry ← currentV3Telemetry client;
    sendV3 client OperationRegister (v3RegisterRequest client telemetry)
  else mret (CErr (Plain ErrDirectoryConfiguration)).
Definition heartbeatVersion (client : Client) (version : Z) : Mw (cresult Response) :=
  if version =? ProtocolVersion
  then send client OperationHeartbeat (identityRequest client ProtocolVersion OperationHeartbeat)
  else if version =? ProtocolVersion2
  then sendV2 client OperationHeartbeat (identityRequest client ProtocolVersion2 OperationHeartbeat)
  else if version =? ProtocolVersion3 then
    telemetry ← currentV3Telemetry client;
    sendV3 client OperationHeartbeat (v3HeartbeatRequest client telemetry)
  else mret (CErr (Plain ErrDirectoryConfiguration)).
Definition unregisterVersion (client : Client) (version : Z) : Mw (cresult Response) :=
  if version =? ProtocolVersion
  then send client OperationUnregister (identityRequest client ProtocolVersion OperationUnregister)
  else if version =? ProtocolVersion2
  then sendV2 client OperationUnregister (identityRequest client ProtocolVersion2 OperationUnregister)
  else if version =? ProtocolVersion3
  then sendV3 client OperationUnregister (identityRequest client ProtocolVersion3 OperationUnregister)
  else mret (CErr (Plain ErrDirectoryConfiguration)).

Definition RegisterNegotiated (client : Client) : Mw (cresult Response) :=
  version ←? negotiatedProtocolVersion client; registerVersion client version.
Definition HeartbeatNegotiated (client : Client) : Mw (cresult Response) :=
  version ←? negotiatedProtocolVersion client; heartbeatVersion client version.
Definition UnregisterNegotiated (client : Client) : Mw (cresult Response) :=
  version ←? negotiatedProtocolVersion client; unregisterVersion client version.
Definition HeartbeatWithRegisterReconciliationNegotiated (client : Client) : Mw (cresult Response) :=
  version ←? negotiatedProtocolVersion client;
  r ← heartbeatVersion client version;
  match r with
  | COk response => mret (COk response)
  | CErr e =>
      if negb (hasCode e ErrorRelayNotRegistered) then mret (CErr e)
      else _ ←? registerVersion client version; heartbeatVersion client version
  end.

(** [guardedDirectoryDialContext]: the resolver and the dialer are the world's; the addresses
    dialled are returned with the outcome. *)
Fixpoint dialCandidates (dial : Addr → bool) (addresses : list Addr) : list Addr * option Addr :=
  match addresses with
  | [] => ([], None)
  | candidate :: rest =>
      if unsafeDirectoryDestination candidate then dialCandidates dial rest
      else if dial candidate then ([candidate], Some candidate)
      else let '(dialled, connected) := dialCandidates dial rest in (candidate :: dialled, connected)
  end.
Definition guardedDirectoryDial (lookup : string → option (list Addr)) (dial : Addr → bool) (host : string)
    : list Addr * result Addr :=
  match lookup host with
  | None | Some [] => ([], Err ErrDirectoryTransport)
  | Some addresses =>
      let '(dialled, connected) := dialCandidates dial addresses in
      (dialled, match connected with Some a => Ok a | None => Err ErrDirectoryTransport end)
  end.
End client.

(** *** The settings of the HTTP client *)

Record httpClientSettings := mkHttpClientSettings {
  hcTimeout : Duration; hcDialTimeout : Duration; hcKeepAlive : Duration; hcProxy : option string; hcForceAttemptHTTP2 : bool;
  hcMaxIdleConns : Z; hcMaxIdleConnsPerHost : Z; hcMaxConnsPerHost : Z; hcIdleConnTimeout : Duration;
  hcTLSHandshakeTimeout : Duration; hcResponseHeaderTimeout : Duration; hcExpectContinueTimeout : Duration;
  hcMaxResponseHeaderBytes : Z; hcDisableCompression : bool; hcMinTLS : string }.
(** Its connections are made by [guardedDirectoryDial]. *)
Definition newDirectoryHTTPClient : httpClientSettings :=
  let directoryDialTimeout := 5 * Second in
  let directoryTLSHandshakeTimeout := 5 * Second in
  let directoryResponseHeaderTimeout := 5 * Second in
  let maximumResponseHeaderBytes := 64 * 1024 in
  let defaultRequestTimeout := 15 * Second in
  mkHttpClientSettings defaultRequestTimeout directoryDialTimeout (30 * Second) None true 2 1 2 (30 * Second)
    directoryTLSHandshakeTimeout directoryResponseHeaderTimeout Second maximumResponseHeaderBytes true "1.2".
(** The phases before the response body have their own limits, which together do not exceed the limit
    of the whole request; no proxy is asked, and what is read of a response is bounded. *)
Example client_limits_fit : let c := newDirectoryHTTPClient in
  hcDialTimeout c + hcTLSHandshakeTimeout c + hcResponseHeaderTimeout c ≤ hcTimeout c ∧ hcProxy c = None ∧ hcDisableCompression c = true.
Proof. vm_compute. split; [discriminate|done]. Qed.
Arguments ClientLib PrivateKey Base : clear implicits.
Arguments Client S PrivateKey : clear implicits.
Arguments Options S PrivateKey : clear implicits.
