(* ===== verification/DirectoryClientSpec.v ===== *)
(** * What the directory client guarantees

    - A call touches nothing but the network, the clock and the random source
      ([runs_netOnly_...]), and its answer is of the closed vocabulary
      ([client_answers_are_validated]).
    - The version spoken is one both sides support ([negotiated_version]).
    - The register of a reconciliation happens only after the directory said the
      relay is not registered ([reconciliation_registers_only_when_told]). *)

From S2P Require Import Prelude GoStrings GoUrl Sha256 GoTime Redis World Frame Json NetAddr Signer.
From S2P Require Import ActivityModel DirectoryOrigin DirectoryProfile DirectoryStore DirectoryStoreSpec.
From S2P Require Import DirectoryClient.

(** ** Frame *)

Section frame.
Context {S : Type}.
Abbreviation W := (World S).

(** Only the clock, the random source and the network were used; [w_sentRequests] grew. *)
Definition netOnly (w w' : W) : Prop :=
  (w_redis w' = w_redis w ∧ w_relay w' = w_relay w ∧ w_clock w' = w_clock w ∧ w_uuid w' = w_uuid w
   ∧ w_net w' = w_net w ∧ w_broker w' = w_broker w)
  ∧ (w_sends w' = w_sends w ∧ w_queued w' = w_queued w ∧ w_spawned w' = w_spawned w ∧ w_cache w' = w_cache w)
  ∧ (w_ticks w ≤ w_ticks w')%nat ∧ (w_posts w ≤ w_posts w')%nat
  ∧ ∃ l, w_sentRequests w' = w_sentRequests w ++ l.
#[export] Instance netOnly_preorder : PreOrder netOnly.
Proof.
  split.
  - intros w. repeat split; try done. exists []. by rewrite app_nil_r.
  - intros w1 w2 w3 (A1 & B1 & T1 & P1 & l1 & E1) (A2 & B2 & T2 & P2 & l2 & E2).
    destruct_and?. split; [repeat split; congruence|]. split; [repeat split; congruence|].
    split; [lia|]. split; [lia|]. exists (l1 ++ l2). by rewrite E2, E1, app_assoc.
Qed.
Lemma netOnly_timeNow : runs netOnly timeNow.
Proof.
  intros w. eexists _, _. split; [reflexivity|]. split; [by repeat split|]. split; [by repeat split|]. simpl.
  split; [lia|]. split; [lia|]. exists []. by rewrite app_nil_r.
Qed.
Lemma netOnly_uuidNew : runs netOnly uuidNew.
Proof.
  intros w. eexists _, _. split; [reflexivity|]. split; [by repeat split|]. split; [by repeat split|]. simpl.
  split; [lia|]. split; [lia|]. exists []. by rewrite app_nil_r.
Qed.
Lemma netOnly_httpDo r : runs netOnly (httpDo r).
Proof.
  intros w. eexists _, _. split; [reflexivity|]. split; [by repeat split|]. split; [by repeat split|]. simpl.
  split; [lia|]. split; [lia|]. by exists [r].
Qed.
Lemma runs_bindC {A B} (R : relation W) `{!PreOrder R} (m : M W (cresult A)) (f : A → M W (cresult B)) :
  runs R m → (∀ a, runs R (f a)) → runs R (bindC m f).
Proof.
  intros Hm Hf. apply (runs_bind R); [done|]. intros [a|e]; [apply Hf|by apply runs_ret].
Qed.
End frame.
#[export] Hint Resolve netOnly_timeNow netOnly_uuidNew netOnly_httpDo : runs.

(** Decompose along [bindC] too. *)
Ltac runsC := repeat first
  [ progress cbv beta zeta
  | match goal with |- runs _ (bindC _ _) => apply (runs_bindC _); [|intros ?] end
  | runs_step ]; eauto with runs.

Section spec.
Context {S : Type} `{Redis S} {PrivateKey Base : Type} (lib : ClientLib PrivateKey Base).
Abbreviation W := (World S).
Abbreviation Client := (Client S PrivateKey).

Lemma netOnly_randRead n : runs netOnly (randRead (S := S) n).
Proof. unfold randRead. runsC. Qed.
#[local] Hint Resolve netOnly_randRead : runs.
Lemma netOnly_signWithTag signer r body tag : runs netOnly (signWithTag (S := S) lib signer r body tag).
Proof. unfold signWithTag, randomNonce. runsC. Qed.
Lemma netOnly_transport r : runs netOnly (transport (S := S) r).
Proof. unfold transport. runsC. Qed.
#[local] Hint Resolve netOnly_signWithTag netOnly_transport : runs.
Lemma netOnly_Status (c : Client) : runs netOnly (Status_ lib c).
Proof. unfold Status_. runsC. Qed.
Lemma netOnly_exchange (c : Client) o p t v d : runs netOnly (exchange lib c o p t v d).
Proof. unfold exchange. runsC. Qed.
#[local] Hint Resolve netOnly_Status netOnly_exchange : runs.

(** The telemetry source of a client is as quiet as the client. *)
Definition quietTelemetry (c : Client) : Prop :=
  match clTelemetry c with Some t => runs netOnly t | None => True end.
Lemma netOnly_telemetry (c : Client) : quietTelemetry c → runs netOnly (currentV3Telemetry c).
Proof. unfold quietTelemetry, currentV3Telemetry. intros Ht. destruct (clTelemetry c); runsC. Qed.
#[local] Hint Resolve netOnly_telemetry : runs.
Lemma netOnly_negotiated (c : Client) : runs netOnly (negotiatedProtocolVersion lib c).
Proof. unfold negotiatedProtocolVersion. runsC. Qed.
Lemma netOnly_registerVersion (c : Client) v : quietTelemetry c → runs netOnly (registerVersion lib c v).
Proof. intros Ht. unfold registerVersion, send, sendV2, sendV3. runsC. Qed.
Lemma netOnly_heartbeatVersion (c : Client) v : quietTelemetry c → runs netOnly (heartbeatVersion lib c v).
Proof. intros Ht. unfold heartbeatVersion, send, sendV2, sendV3. runsC. Qed.
Lemma netOnly_unregisterVersion (c : Client) v : runs netOnly (unregisterVersion lib c v).
Proof. unfold unregisterVersion, send, sendV2, sendV3. runsC. Qed.
#[local] Hint Resolve netOnly_negotiated netOnly_registerVersion netOnly_heartbeatVersion netOnly_unregisterVersion : runs.
Lemma netOnly_RegisterNegotiated (c : Client) : quietTelemetry c → runs netOnly (RegisterNegotiated lib c).
Proof. intros Ht. unfold RegisterNegotiated. runsC. Qed.
Lemma netOnly_HeartbeatNegotiated (c : Client) : quietTelemetry c → runs netOnly (HeartbeatNegotiated lib c).
Proof. intros Ht. unfold HeartbeatNegotiated. runsC. Qed.
Lemma netOnly_UnregisterNegotiated (c : Client) : runs netOnly (UnregisterNegotiated lib c).
Proof. unfold UnregisterNegotiated. runsC. Qed.
Lemma netOnly_ReconciliationNegotiated (c : Client) :
  quietTelemetry c → runs netOnly (HeartbeatWithRegisterReconciliationNegotiated lib c).
Proof. intros Ht. unfold HeartbeatWithRegisterReconciliationNegotiated. runsC. Qed.
Lemma netOnly_Reconciliation (c : Client) : runs netOnly (HeartbeatWithRegisterReconciliation lib c).
Proof. unfold HeartbeatWithRegisterReconciliation, Register, Heartbeat, send. runsC. Qed.
Lemma netOnly_Register (c : Client) : runs netOnly (Register lib c).
Proof. unfold Register, send. runsC. Qed.
End spec.
#[export] Hint Resolve netOnly_RegisterNegotiated netOnly_HeartbeatNegotiated netOnly_UnregisterNegotiated
  netOnly_ReconciliationNegotiated netOnly_Reconciliation netOnly_Register : runs.

(** ** Answers *)

(** Every value a computation returns satisfies [P]. *)
Definition yields {W A} (P : A → Prop) (m : M W A) : Prop := ∀ w w' a, m w = (w', Done a) → P a.
Lemma yields_ret {W A} (P : A → Prop) (a : A) : P a → yields P (mret a : M W A).
Proof. intros Ha w w' b [= _ <-]. done. Qed.
Lemma yields_bind {W A B} (P : B → Prop) (m : M W A) (f : A → M W B) :
  (∀ a, yields P (f a)) → yields P (m ≫= f).
Proof.
  intros Hf w w' b. unfold mbind, M_bind. destruct (m w) as [w1 [a|]]; [|done]. apply Hf.
Qed.
Lemma yields_bind_in {W A B} (Q : A → Prop) (P : B → Prop) (m : M W A) (f : A → M W B) :
  yields Q m → (∀ a, Q a → yields P (f a)) → yields P (m ≫= f).
Proof.
  intros Hm Hf w w' b. unfold mbind, M_bind. destruct (m w) as [w1 [a|]] eqn:E; [|done].
  apply Hf. by eapply Hm.
Qed.
Lemma yields_bindC {W A B} (P : cresult B → Prop) (m : M W (cresult A)) (f : A → M W (cresult B)) :
  yields (λ r, match r with COk _ => True | CErr e => P (CErr e) end) m →
  (∀ a, yields P (f a)) → yields P (bindC m f).
Proof.
  intros Hm Hf. apply (yields_bind_in _ _ _ _ Hm). intros [a|e] Hq; [apply Hf|by apply yields_ret].
Qed.

(** What an answer to an operation in a protocol version may be. *)
Definition soundError (e : clientError) : Prop :=
  match e with
  | Plain _ => True
  | ProtocolError status code retryAfter =>
      errorCodeValid code = true ∧ errorStatusMatches code status = true ∧ 0 ≤ retryAfter ≤ MaximumRetryAfter
  end.
Definition soundAnswer (actor operation : string) (version : Z) (r : cresult Response) : Prop :=
  match r with
  | COk response => respVersion response = version ∧ respOperation response = operation
                    ∧ outcomeValidFor (respOutcome response) operation = true ∧ respRelayActor response = actor
  | CErr e => soundError e
  end.

Lemma boundedRetryAfter_range pt code st h now d :
  boundedRetryAfter pt code st h now = Ok d → 0 ≤ d ≤ MaximumRetryAfter.
Proof.
  unfold boundedRetryAfter. destruct (negb _); [intros [= <-]; unfold MaximumRetryAfter, Hour, Minute, Second; lia|].
  destruct (eqs _ ""); [intros [= <-]; unfold MaximumRetryAfter, Hour, Minute, Second; lia|].
  intros (x & Hx & [= <-])%result_bind_Ok. assert (0 ≤ x).
  { destruct (parseUint 64 _) as [n|] eqn:E.
    - apply parseUint_nonneg in E. case_match; injection Hx as <-; unfold MaximumRetryAfter, Hour, Minute, Second; lia.
    - destruct (pt _) as [t|]; [|done]. destruct (Z.ltb_spec (t - now) 0); [done|]. injection Hx as <-. done. }
  destruct (Z.ltb_spec MaximumRetryAfter x); unfold MaximumRetryAfter, Hour, Minute, Second in *; lia.
Qed.
Lemma decodeProtocolError_sound pt st h v body now : soundError (decodeProtocolErrorAtVersion pt st h v body now).
Proof.
  unfold decodeProtocolErrorAtVersion. destruct (decodeStrictJSON _ _ _) as [r|]; [|done].
  destruct (_ || negb (errorStatusMatches _ st)) eqn:E; [done|].
  destruct (boundedRetryAfter _ _ _ _ _) as [d|] eqn:Ed; [|done]. apply boundedRetryAfter_range in Ed.
  rewrite !orb_false_iff, !negb_false_iff in E. destruct_and?. done.
Qed.
Lemma decodeSuccess_sound st op actor v body r :
  decodeSuccessVersion st op actor v body = Ok r → soundAnswer actor op v (COk r).
Proof.
  unfold decodeSuccessVersion. destruct (_ || _); [done|]. destruct (decodeStrictJSON _ _ _) as [r'|]; [|done].
  destruct (_ || negb (eqs (respRelayActor r') actor)) eqn:E; [done|]. intros [= <-].
  rewrite !orb_false_iff, !negb_false_iff, Z.eqb_eq, !eqs_true in E. simpl. tauto.
Qed.

Section answers.
Context {S : Type} `{Redis S} {PrivateKey Base : Type} (lib : ClientLib PrivateKey Base).
Abbreviation Client := (Client S PrivateKey).

Lemma exchange_sound (c : Client) op p t v d : yields (soundAnswer (clRelayActor c) op v) (exchange lib c op p t v d).
Proof.
  unfold exchange. destruct (negb _); [by apply yields_ret|]. cbv zeta.
  destruct (requestURL _) as [u|]; [|by apply yields_ret]. apply yields_bind. intros [r|e]; [|by apply yields_ret].
  apply yields_bindC.
  { unfold transport. apply yields_bind. intros [x|]; by apply yields_ret. }
  intros resp. apply yields_bindC.
  { apply yields_ret. by destruct (readResponseBody resp). }
  intros body. destruct (negb _); [by apply yields_ret|]. destruct (_ && _).
  - apply yields_ret. destruct (decodeSuccessVersion _ _ _ _ _) as [r'|] eqn:E; [|done].
    by apply decodeSuccess_sound in E.
  - apply yields_bind. intros now. apply yields_ret. apply decodeProtocolError_sound.
Qed.
Lemma registerVersion_sound (c : Client) v :
  yields (soundAnswer (clRelayActor c) OperationRegister v) (registerVersion lib c v).
Proof.
  unfold registerVersion, send, sendV2, sendV3. destruct (Z.eqb_spec v ProtocolVersion) as [->|]; [apply exchange_sound|].
  destruct (Z.eqb_spec v ProtocolVersion2) as [->|]; [apply exchange_sound|].
  destruct (Z.eqb_spec v ProtocolVersion3) as [->|]; [apply yields_bind; intros; apply exchange_sound|by apply yields_ret].
Qed.
Lemma heartbeatVersion_sound (c : Client) v :
  yields (soundAnswer (clRelayActor c) OperationHeartbeat v) (heartbeatVersion lib c v).
Proof.
  unfold heartbeatVersion, send, sendV2, sendV3. destruct (Z.eqb_spec v ProtocolVersion) as [->|]; [apply exchange_sound|].
  destruct (Z.eqb_spec v ProtocolVersion2) as [->|]; [apply exchange_sound|].
  destruct (Z.eqb_spec v ProtocolVersion3) as [->|]; [apply yields_bind; intros; apply exchange_sound|by apply yields_ret].
Qed.
Lemma unregisterVersion_sound (c : Client) v :
  yields (soundAnswer (clRelayActor c) OperationUnregister v) (unregisterVersion lib c v).
Proof.
  unfold unregisterVersion, send, sendV2, sendV3. destruct (Z.eqb_spec v ProtocolVersion) as [->|]; [apply exchange_sound|].
  destruct (Z.eqb_spec v ProtocolVersion2) as [->|]; [apply exchange_sound|].
  destruct (Z.eqb_spec v ProtocolVersion3) as [->|]; [apply exchange_sound|by apply yields_ret].
Qed.

Definition supported (v : Z) : Prop := v = ProtocolVersion ∨ v = ProtocolVersion2 ∨ v = ProtocolVersion3.
Lemma newestSupported_Some l v : newestSupported l = Some v → v ∈ l ∧ supported v.
Proof.
  induction l as [|x l IH]; simpl; [done|]. destruct (_ || _) eqn:E.
  - intros [= <-]. split; [left|]. rewrite !orb_true_iff, !Z.eqb_eq in E. unfold supported. tauto.
  - intros Hv. destruct (IH Hv). split; [by right|done].
Qed.
Lemma Status_sound (c : Client) :
  yields (λ r, match r with
               | COk s => validStatusLifecycleVersions s = true
               | CErr e => soundError e
               end) (Status_ lib c).
Proof.
  unfold Status_. destruct (requestURL _) as [u|]; [|by apply yields_ret]. apply yields_bindC.
  { unfold transport. apply yields_bind. intros [x|]; by apply yields_ret. }
  intros resp. apply yields_bindC.
  { apply yields_ret. by destruct (readResponseBody resp). }
  intros body. destruct (negb _); [by apply yields_ret|]. destruct (negb _).
  - apply yields_bind. intros now. apply yields_ret. apply decodeProtocolError_sound.
  - apply yields_ret. destruct (decodeStrictJSON _ _ _) as [s|]; [|done].
    destruct (validStatusLifecycleVersions s) eqn:E; [|done]. by destruct (_ || _).
Qed.
Lemma negotiated_sound (c : Client) :
  yields (λ r, match r with COk v => supported v | CErr e => soundError e end) (negotiatedProtocolVersion lib c).
Proof.
  unfold negotiatedProtocolVersion. eapply yields_bind_in; [apply Status_sound|].
  intros [s|e] Hs; apply yields_ret; [|done]. case_match; [|by left].
  destruct (newestSupported _) as [v|] eqn:E; [|by left]. by apply newestSupported_Some in E as [_ ?].
Qed.

(** An answer of some supported version. *)
Definition validated (c : Client) (operation : string) (r : cresult Response) : Prop :=
  ∃ v, supported v ∧ soundAnswer (clRelayActor c) operation v r.
Lemma validated_negotiated (c : Client) op (f : Z → M (World S) (cresult Response)) :
  (∀ v, yields (soundAnswer (clRelayActor c) op v) (f v)) →
  yields (validated c op) (bindC (negotiatedProtocolVersion lib c) f).
Proof.
  intros Hf. unfold bindC. eapply yields_bind_in; [apply negotiated_sound|]. intros [v|e] Hv.
  - intros w w' r E. exists v. split; [done|]. by eapply Hf.
  - apply yields_ret. exists ProtocolVersion. split; [by left|done].
Qed.

(** C33: Every answer of the client is validated.  A successful negotiated register,
    heartbeat, unregister or reconciliation returns a response of protocol version 1, 2 or 3
    to exactly the operation that was requested, with an outcome of that operation's
    vocabulary and the relay's own actor; an error is a plain one or a protocol error whose
    code is of the closed vocabulary, fits its HTTP status, and whose retry delay is between
    zero and 24 hours. *)
Theorem client_answers_are_validated (c : Client) :
  yields (validated c OperationRegister) (RegisterNegotiated lib c)
  ∧ yields (validated c OperationHeartbeat) (HeartbeatNegotiated lib c)
  ∧ yields (validated c OperationUnregister) (UnregisterNegotiated lib c)
  ∧ yields (validated c OperationHeartbeat) (HeartbeatWithRegisterReconciliationNegotiated lib c).
Proof.
  split; [apply validated_negotiated, registerVersion_sound|].
  split; [apply validated_negotiated, heartbeatVersion_sound|].
  split; [apply validated_negotiated, unregisterVersion_sound|].
  apply validated_negotiated. intros v. eapply yields_bind_in; [apply heartbeatVersion_sound|].
  intros [r|e] Hr; [by apply yields_ret|]. destruct (negb _); [by apply yields_ret|].
  unfold bindC. eapply yields_bind_in; [apply registerVersion_sound|].
  intros [r'|e'] Hr'; [apply heartbeatVersion_sound|by apply yields_ret].
Qed.

(** ** How many requests *)

Definition sends {A} (n : nat) (m : M (World S) A) : Prop := ∀ w w' a, m w = (w', Done a) →
  ∃ l, w_sentRequests w' = w_sentRequests w ++ l ∧ (length l ≤ n)%nat.
Lemma sends_ret {A} n (a : A) : sends n (mret a).
Proof. intros w w' b [= <- _]. exists []. rewrite app_nil_r. split; [done|simpl; lia]. Qed.
Lemma sends_bind {A B} n k (m : M (World S) A) (f : A → M (World S) B) :
  sends n m → (∀ a, sends k (f a)) → sends (n + k) (m ≫= f).
Proof.
  intros Hm Hf w w' b. unfold mbind, M_bind. destruct (m w) as [w1 [a|]] eqn:E; [|done]. intros E'.
  destruct (Hm _ _ _ E) as (l1 & E1 & H1). destruct (Hf _ _ _ _ E') as (l2 & E2 & H2).
  exists (l1 ++ l2). rewrite E2, E1, length_app, app_assoc. split; [done|lia].
Qed.
Lemma sends_weaken {A} n k (m : M (World S) A) : sends n m → (n ≤ k)%nat → sends k m.
Proof. intros Hm Hk w w' a E. destruct (Hm _ _ _ E) as (l & E1 & H1). exists l. split; [done|lia]. Qed.
Lemma sends_bindC {A B} n k (m : M (World S) (cresult A)) (f : A → M (World S) (cresult B)) :
  sends n m → (∀ a, sends k (f a)) → sends (n + k) (bindC m f).
Proof. intros Hm Hf. apply sends_bind; [done|]. intros [a|e]; [apply Hf|apply sends_ret]. Qed.
Lemma sends_timeNow : sends 0 (timeNow : M (World S) _).
Proof. intros w w' a [= <- _]. exists []. by rewrite app_nil_r. Qed.
Lemma sends_randRead n : sends 0 (randRead n : M (World S) _).
Proof. intros w w' a [= <- _]. exists []. by rewrite app_nil_r. Qed.
Lemma sends_transport r : sends 1 (transport r : M (World S) _).
Proof. intros w w' a [= <- _]. exists [r]. split; [done|simpl; lia]. Qed.

Lemma sends_signWithTag signer r body tag : sends 0 (signWithTag (S := S) lib signer r body tag).
Proof.
  unfold signWithTag. destruct (outURL r); [|apply sends_ret]. destruct (_ || _); [apply sends_ret|].
  apply (sends_bind 0 0); [apply sends_timeNow|]. intros now. cbv zeta. destruct (_ <? 0); [apply sends_ret|].
  apply (sends_bind 0 0).
  { unfold randomNonce, bindErr. apply (sends_bind 0 0); [apply sends_randRead|]. intros [x|]; apply sends_ret. }
  intros [n|]; [|apply sends_ret]. destruct (_ || _); apply sends_ret.
Qed.
Lemma sends_Status (c : Client) : sends 1 (Status_ lib c).
Proof.
  unfold Status_. destruct (requestURL _); [|apply sends_ret].
  apply (sends_bindC 1 0); [apply sends_transport|]. intros resp.
  apply (sends_bindC 0 0); [apply sends_ret|]. intros body.
  destruct (negb _); [apply sends_ret|]. destruct (negb _); [|apply sends_ret].
  apply (sends_bind 0 0); [apply sends_timeNow|]. intros. apply sends_ret.
Qed.
Lemma sends_exchange (c : Client) o p t v d : sends 1 (exchange lib c o p t v d).
Proof.
  unfold exchange. destruct (negb _); [apply sends_ret|]. cbv zeta. destruct (requestURL _); [|apply sends_ret].
  apply (sends_bind 0 1); [apply sends_signWithTag|]. intros [r|]; [|apply sends_ret].
  apply (sends_bindC 1 0); [apply sends_transport|]. intros resp.
  apply (sends_bindC 0 0); [apply sends_ret|]. intros body.
  destruct (negb _); [apply sends_ret|]. destruct (_ && _); [apply sends_ret|].
  apply (sends_bind 0 0); [apply sends_timeNow|]. intros. apply sends_ret.
Qed.

(** A telemetry source that sends no request, as the API's, which counts its own state. *)
Definition silentTelemetry (c : Client) : Prop :=
  match clTelemetry c with Some t => sends 0 t | None => True end.
Lemma sends_telemetry (c : Client) : silentTelemetry c → sends 0 (currentV3Telemetry c).
Proof.
  unfold silentTelemetry, currentV3Telemetry. destruct (clTelemetry c); [|intros; apply sends_ret].
  intros Ht. apply (sends_bind 0 0); [done|]. intros. apply sends_ret.
Qed.
Lemma sends_registerVersion (c : Client) v : silentTelemetry c → sends 1 (registerVersion lib c v).
Proof.
  intros Ht. unfold registerVersion, send, sendV2, sendV3. repeat case_match; try apply sends_exchange; try apply sends_ret.
  apply (sends_bind 0 1); [by apply sends_telemetry|]. intros. apply sends_exchange.
Qed.
Lemma sends_heartbeatVersion (c : Client) v : silentTelemetry c → sends 1 (heartbeatVersion lib c v).
Proof.
  intros Ht. unfold heartbeatVersion, send, sendV2, sendV3. repeat case_match; try apply sends_exchange; try apply sends_ret.
  apply (sends_bind 0 1); [by apply sends_telemetry|]. intros. apply sends_exchange.
Qed.
Lemma sends_negotiated (c : Client) : sends 1 (negotiatedProtocolVersion lib c).
Proof. unfold negotiatedProtocolVersion. apply (sends_bindC 1 0); [apply sends_Status|]. intros. apply sends_ret. Qed.

(** A reconciliation registers only when told to.  A heartbeat with register
    reconciliation sends at most four requests; it goes beyond the status request and the
    first heartbeat only when that heartbeat, sent right after the status request, was
    answered with the error code [relay_not_registered]. *)
Theorem reconciliation_registers_only_when_told (c : Client) w w' r :
  silentTelemetry c →
  HeartbeatWithRegisterReconciliationNegotiated lib c w = (w', Done r) →
  ∃ l, w_sentRequests w' = w_sentRequests w ++ l ∧ (length l ≤ 4)%nat
  ∧ ((2 < length l)%nat →
     ∃ v w1 w2 e, heartbeatVersion lib c v w1 = (w2, Done (CErr e)) ∧ supported v
       ∧ hasCode e ErrorRelayNotRegistered = true
       ∧ ∃ l1, w_sentRequests w1 = w_sentRequests w ++ l1 ∧ (length l1 ≤ 1)%nat).
Proof.
  intros Ht. unfold HeartbeatWithRegisterReconciliationNegotiated, bindC at 1. unfold mbind at 1, M_bind at 1.
  destruct (negotiatedProtocolVersion lib c w) as [w1 [v|]] eqn:Ev; [|done].
  pose proof (negotiated_sound c _ _ _ Ev) as Hv. destruct (sends_negotiated c _ _ _ Ev) as (l1 & E1 & H1).
  destruct v as [v|e].
  2: { intros [= <- <-]. exists l1. split; [done|]. split; [lia|]. lia. }
  unfold mbind at 1, M_bind at 1. destruct (heartbeatVersion lib c v w1) as [w2 [h|]] eqn:Eh; [|done].
  destruct (sends_heartbeatVersion c v Ht _ _ _ Eh) as (l2 & E2 & H2).
  assert (E12 : w_sentRequests w2 = w_sentRequests w ++ l1 ++ l2) by by rewrite E2, E1, app_assoc.
  assert (Hshort : ∀ w3, w2 = w3 → ∃ l, w_sentRequests w3 = w_sentRequests w ++ l ∧ (length l ≤ 2)%nat).
  { intros w3 <-. exists (l1 ++ l2). rewrite length_app. split; [done|lia]. }
  destruct h as [resp|e].
  { intros [= <- <-]. destruct (Hshort w2 eq_refl) as (l & El & Hl). exists l. split; [done|]. split; [lia|lia]. }
  destruct (hasCode e ErrorRelayNotRegistered) eqn:Ec.
  2: { intros [= <- <-]. destruct (Hshort w2 eq_refl) as (l & El & Hl). exists l. split; [done|]. split; [lia|lia]. }
  cbn [negb]. intros Er.
  assert (Hs : sends (1 + 1) (bindC (registerVersion lib c v) (λ _, heartbeatVersion lib c v))).
  { apply sends_bindC; [by apply sends_registerVersion|]. intros _. by apply sends_heartbeatVersion. }
  destruct (Hs _ _ _ Er) as (l3 & E3 & H3). exists ((l1 ++ l2) ++ l3).
  rewrite E3, E12, !length_app, !app_assoc. split; [done|]. split; [lia|]. intros _.
  exists v, w1, w2, e. split; [done|]. split; [done|]. split; [done|]. by exists l1.
Qed.
End answers.

(** ** The dialer *)

(** Addresses as the numbers they stand for. *)
Definition wellFormed (a : Addr) : Prop :=
  match a with
  | Addr4 l => length l = 4%nat ∧ Forall (λ o, 0 ≤ o < 2 ^ 8) l
  | Addr6 g _ => length g = 8%nat ∧ Forall (λ x, 0 ≤ x < 2 ^ 16) g
  end.
Definition ipv4Number (l : list Z) : Z := foldl (λ n o, 2 ^ 8 * n + o) 0 l.
Definition ipv6Number (g : list Z) : Z := foldl (λ n x, 2 ^ 16 * n + x) 0 g.
(** The blocks 127.0.0.0/8 (loopback), 169.254.0.0/16 (link-local) and 224.0.0.0/4 (multicast). *)
Definition localIPv4 (n : Z) : Prop := n / 2 ^ 24 = 127 ∨ n / 2 ^ 16 = 256 * 169 + 254 ∨ n / 2 ^ 28 = 14.
(** Those and 0.0.0.0; ::, ::1, fe80::/10 and ff00::/8; and the three blocks within ::ffff:0:0/96. *)
Definition localAddress (a : Addr) : Prop :=
  match a with
  | Addr4 l => ipv4Number l = 0 ∨ localIPv4 (ipv4Number l)
  | Addr6 g zone =>
      let n := ipv6Number g in
      (n = 0 ∧ zone = "") ∨ n = 1 ∨ n / 2 ^ 118 = 1018 ∨ n / 2 ^ 120 = 255
      ∨ (n / 2 ^ 32 = 65535 ∧ localIPv4 (n mod 2 ^ 32))
  end.

(** A mask of [n] ones [k] bits up selects the bits there. *)
Lemma land_mask g n k : 0 ≤ n → 0 ≤ k → Z.land g (Z.shiftl (Z.ones n) k) = (g / 2 ^ k) mod 2 ^ n * 2 ^ k.
Proof.
  intros Hn Hk. rewrite <- Z.land_ones, <- Z.shiftr_div_pow2, <- Z.shiftl_mul_pow2 by done.
  apply Z.bits_inj'. intros i Hi. rewrite Z.land_spec. destruct (Z.lt_ge_cases i k).
  - rewrite !Z.shiftl_spec_low by lia. by rewrite andb_false_r.
  - rewrite !Z.shiftl_spec by lia. rewrite Z.land_spec, Z.shiftr_spec by lia. by rewrite Z.sub_add.
Qed.
Lemma Unmap_other g0 g1 g2 g3 g4 g5 g6 g7 z : ¬ (g0 = 0 ∧ g1 = 0 ∧ g2 = 0 ∧ g3 = 0 ∧ g4 = 0 ∧ g5 = 65535) →
  Unmap (Addr6 [g0; g1; g2; g3; g4; g5; g6; g7] z) = Addr6 [g0; g1; g2; g3; g4; g5; g6; g7] z.
Proof. intros Hn. unfold Unmap. repeat (case_match; try done). exfalso. apply Hn. by repeat split. Qed.
Lemma eqb_iff x y : (x =? y) = true ↔ x = y.
Proof. apply Z.eqb_eq. Qed.

(** The tests on the four octets of an address, or of a mapped one, are those blocks. *)
Lemma local4_blocks a b c d : Forall (λ o, 0 ≤ o < 2 ^ 8) [a; b; c; d] →
  let l := [a; b; c; d] in
  ((octetAt l 0 =? 127) || ((octetAt l 0 =? 169) && (octetAt l 1 =? 254))
   || ((octetAt l 0 =? 224) && (octetAt l 1 =? 0) && (octetAt l 2 =? 0)) || (Z.land (octetAt l 0) 240 =? 224)) = true
  ↔ localIPv4 (ipv4Number l).
Proof.
  intros Hf l. rewrite !Forall_cons in Hf. destruct Hf as (Ha & Hb & Hc & Hd & _). unfold l, octetAt, localIPv4, ipv4Number. cbn [nth foldl].
  change 240 with (Z.shiftl (Z.ones 4) 4). rewrite land_mask by done.
  rewrite !orb_true_iff, !andb_true_iff, !eqb_iff.
  assert (E1 : (2 ^ 8 * (2 ^ 8 * (2 ^ 8 * (2 ^ 8 * 0 + a) + b) + c) + d) / 2 ^ 24 = a) by (symmetry; apply (Z.div_unique_pos _ _ _ (2 ^ 16 * b + 2 ^ 8 * c + d)); lia).
  assert (E2 : (2 ^ 8 * (2 ^ 8 * (2 ^ 8 * (2 ^ 8 * 0 + a) + b) + c) + d) / 2 ^ 16 = 256 * a + b) by (symmetry; apply (Z.div_unique_pos _ _ _ (2 ^ 8 * c + d)); lia).
  assert (E3 : (2 ^ 8 * (2 ^ 8 * (2 ^ 8 * (2 ^ 8 * 0 + a) + b) + c) + d) / 2 ^ 28 = a / 2 ^ 4).
  { change (2 ^ 28) with (2 ^ 24 * 2 ^ 4). by rewrite <- Z.div_div, E1 by lia. }
  rewrite E1, E2, E3. assert (Hq : 0 ≤ a / 2 ^ 4 < 16) by (split; [apply Z.div_pos; lia|apply Z.div_lt_upper_bound; lia]).
  rewrite (Z.mod_small (a / 2 ^ 4)) by exact Hq.
  assert (Hx : a = 224 → a / 2 ^ 4 = 14) by (intros ->; done). change (2 ^ 4) with 16 in *. lia.
Qed.

Lemma unsafe4 l : wellFormed (Addr4 l) → unsafeDirectoryDestination (Addr4 l) = true ↔ localAddress (Addr4 l).
Proof.
  intros [Hl Hf]. destruct l as [|a [|b [|c [|d [|]]]]]; try done. pose proof (local4_blocks a b c d Hf) as Hb. cbv zeta in Hb.
  rewrite !Forall_cons in Hf. destruct Hf as (Ha & Hb' & Hc & Hd & _).
  unfold unsafeDirectoryDestination, IsLoopback, IsLinkLocalUnicast, IsLinkLocalMulticast, IsMulticast, localAddress. cbn [Unmap].
  rewrite <- Hb, !orb_true_iff. unfold IsUnspecified. rewrite bool_decide_eq_true.
  assert ((Addr4 [a; b; c; d] = Addr4 [0; 0; 0; 0] ∨ Addr4 [a; b; c; d] = Addr6 (repeat 0 8) "") ↔ ipv4Number [a; b; c; d] = 0) as ->; [|tauto].
  unfold ipv4Number. cbn [foldl]. split; [by intros [[= -> -> -> ->]|]|].
  intros E. left. repeat f_equal; lia.
Qed.
Definition group16 (x : Z) : Prop := 0 ≤ x < 2 ^ 16.
(** Blocks of IPv6 addresses by their groups. *)
Lemma ipv6_blocks g0 g1 g2 g3 g4 g5 g6 g7 (n := ipv6Number [g0; g1; g2; g3; g4; g5; g6; g7]) :
  Forall group16 [g0; g1; g2; g3; g4; g5; g6; g7] →
  n = 2 ^ 112 * g0 + 2 ^ 96 * g1 + 2 ^ 80 * g2 + 2 ^ 64 * g3 + 2 ^ 48 * g4 + 2 ^ 32 * g5 + 2 ^ 16 * g6 + g7
  ∧ n / 2 ^ 118 = g0 / 2 ^ 6 ∧ n / 2 ^ 120 = g0 / 2 ^ 8
  ∧ n / 2 ^ 32 = 2 ^ 80 * g0 + 2 ^ 64 * g1 + 2 ^ 48 * g2 + 2 ^ 32 * g3 + 2 ^ 16 * g4 + g5
  ∧ n mod 2 ^ 32 = 2 ^ 16 * g6 + g7.
Proof.
  rewrite !Forall_cons. unfold group16. intros (H0 & H1 & H2 & H3 & H4 & H5 & H6 & H7 & _).
  assert (En : n = 2 ^ 112 * g0 + 2 ^ 96 * g1 + 2 ^ 80 * g2 + 2 ^ 64 * g3 + 2 ^ 48 * g4 + 2 ^ 32 * g5 + 2 ^ 16 * g6 + g7)
    by (unfold n, ipv6Number; cbn [foldl]; lia). clearbody n.
  assert (Ehi : n / 2 ^ 112 = g0) by (symmetry; apply (Z.div_unique_pos _ _ _ (n - 2 ^ 112 * g0)); lia).
  assert (Elo : n / 2 ^ 32 = 2 ^ 80 * g0 + 2 ^ 64 * g1 + 2 ^ 48 * g2 + 2 ^ 32 * g3 + 2 ^ 16 * g4 + g5)
    by (symmetry; apply (Z.div_unique_pos _ _ _ (2 ^ 16 * g6 + g7)); lia).
  split; [exact En|]. split; [change (2 ^ 118) with (2 ^ 112 * 2 ^ 6); by rewrite <- Z.div_div, Ehi by lia|].
  split; [change (2 ^ 120) with (2 ^ 112 * 2 ^ 8); by rewrite <- Z.div_div, Ehi by lia|]. split; [exact Elo|].
  symmetry. apply (Z.mod_unique_pos _ _ (n / 2 ^ 32)); lia.
Qed.
Lemma unsafe_mapped g6 g7 zone : Forall group16 [0; 0; 0; 0; 0; 65535; g6; g7] →
  unsafeDirectoryDestination (Addr6 [0; 0; 0; 0; 0; 65535; g6; g7] zone) = true
  ↔ localAddress (Addr6 [0; 0; 0; 0; 0; 65535; g6; g7] zone).
Proof.
  intros Hf. destruct (ipv6_blocks _ _ _ _ _ _ _ _ Hf) as (En & E118 & E120 & Elo & Emod). cbn [localAddress].
  rewrite E118, E120, Elo, Emod. rewrite !Forall_cons in Hf. destruct Hf as (_ & _ & _ & _ & _ & _ & H6 & H7 & _).
  unfold group16 in *. set (n := ipv6Number _) in *. clearbody n.
  unfold unsafeDirectoryDestination, IsLoopback, IsLinkLocalUnicast, IsLinkLocalMulticast, IsMulticast, IsUnspecified.
  cbn [Unmap]. rewrite bool_decide_eq_false_2 by (by intros [|]). cbn [orb].
  rewrite (local4_blocks (g6 / 256) (g6 mod 256) (g7 / 256) (g7 mod 256)).
  2: { repeat constructor; first [apply Z.mod_pos_bound; lia|apply Z.div_pos; lia|apply Z.div_lt_upper_bound; lia]. }
  assert (ipv4Number [g6 / 256; g6 mod 256; g7 / 256; g7 mod 256] = 2 ^ 16 * g6 + g7) as ->.
  { unfold ipv4Number. cbn [foldl]. pose proof (Z.div_mod g6 256). pose proof (Z.div_mod g7 256). lia. }
  split; [intros Hx; do 4 right; split; [lia|done]|]. intros [[? _]|[?|[Hx|[Hx|[_ Hx]]]]]; [lia|lia|by vm_compute in Hx|by vm_compute in Hx|done].
Qed.
(** The masks of the two IPv6 blocks. *)
Lemma masks6 g : group16 g → (Z.land g 65472 = 65152 ↔ g / 2 ^ 6 = 1018) ∧ (Z.land g 65295 = 65282 → g / 2 ^ 8 = 255).
Proof.
  unfold group16. intros Hg. split.
  - change 65472 with (Z.shiftl (Z.ones 10) 6). rewrite land_mask by done.
    rewrite (Z.mod_small (g / 2 ^ 6)) by (split; [apply Z.div_pos; lia|apply Z.div_lt_upper_bound; lia]). change (2 ^ 6) with 64. lia.
  - intros E. assert (E' : Z.shiftr (Z.land g 65295) 8 = 255) by (by rewrite E). rewrite Z.shiftr_land in E'.
    change (Z.shiftr 65295 8) with (Z.ones 8) in E'. rewrite Z.land_ones, Z.shiftr_div_pow2, Z.mod_small in E' by
      (first [done|split; [apply Z.div_pos; lia|apply Z.div_lt_upper_bound; lia]]). done.
Qed.
Lemma unsafe6 g zone : wellFormed (Addr6 g zone) → unsafeDirectoryDestination (Addr6 g zone) = true ↔ localAddress (Addr6 g zone).
Proof.
  intros [Hl Hf]. destruct g as [|g0 [|g1 [|g2 [|g3 [|g4 [|g5 [|g6 [|g7 [|]]]]]]]]]; try done.
  destruct (decide (g0 = 0 ∧ g1 = 0 ∧ g2 = 0 ∧ g3 = 0 ∧ g4 = 0 ∧ g5 = 65535)) as [(-> & -> & -> & -> & -> & ->)|Hn];
    [by apply unsafe_mapped|].
  destruct (ipv6_blocks _ _ _ _ _ _ _ _ Hf) as (En & E118 & E120 & Elo & Emod). cbn [localAddress]. rewrite E118, E120, Elo, Emod.
  rewrite !Forall_cons in Hf. destruct Hf as (H0 & H1 & H2 & H3 & H4 & H5 & H6 & H7 & _). destruct (masks6 g0 H0) as [Hll Hm].
  set (n := ipv6Number _) in *. clearbody n.
  unfold unsafeDirectoryDestination, IsLoopback, IsLinkLocalUnicast, IsLinkLocalMulticast, IsMulticast, IsUnspecified.
  rewrite Unmap_other by done. unfold group. cbn [nth]. rewrite Z.shiftr_div_pow2, !orb_true_iff, !bool_decide_eq_true, !eqb_iff by done.
  assert (Hz : (Addr6 [g0; g1; g2; g3; g4; g5; g6; g7] zone = Addr4 [0; 0; 0; 0]
      ∨ Addr6 [g0; g1; g2; g3; g4; g5; g6; g7] zone = Addr6 (repeat 0 8) "") ↔ n = 0 ∧ zone = "").
  { split; [intros [|[= -> -> -> -> -> -> -> -> ->]]; [done|split; [lia|done]]|]. intros [E ->]. right. cbn [repeat].
    assert (g0 = 0 ∧ g1 = 0 ∧ g2 = 0 ∧ g3 = 0 ∧ g4 = 0 ∧ g5 = 0 ∧ g6 = 0 ∧ g7 = 0) as (-> & -> & -> & -> & -> & -> & -> & ->) by lia. done. }
  assert (Ho : [g0; g1; g2; g3; g4; g5; g6; g7] = [0; 0; 0; 0; 0; 0; 0; 1] ↔ n = 1).
  { split; [intros [= -> -> -> -> -> -> -> ->]; lia|]. intros E.
    assert (g0 = 0 ∧ g1 = 0 ∧ g2 = 0 ∧ g3 = 0 ∧ g4 = 0 ∧ g5 = 0 ∧ g6 = 0 ∧ g7 = 1) as (-> & -> & -> & -> & -> & -> & -> & ->) by lia. done. }
  assert (Hmap : ¬ (2 ^ 80 * g0 + 2 ^ 64 * g1 + 2 ^ 48 * g2 + 2 ^ 32 * g3 + 2 ^ 16 * g4 + g5 = 65535)) by (intros E; apply Hn; lia).
  rewrite Hz, Ho, Hll. tauto.
Qed.
Lemma unsafe_is_local a : wellFormed a → unsafeDirectoryDestination a = true ↔ localAddress a.
Proof. destruct a; [apply unsafe4|apply unsafe6]. Qed.

Lemma dialCandidates_run dial l d o : dialCandidates dial l = (d, o) →
  (∀ a, a ∈ d → a ∈ l ∧ unsafeDirectoryDestination a = false)
  ∧ match o with
    | Some a => a ∈ d ∧ dial a = true
    | None => ∀ a, a ∈ l → unsafeDirectoryDestination a = false → a ∈ d ∧ dial a = false
    end.
Proof.
  revert d o. induction l as [|x l IH]; intros d o; simpl; [intros [= <- <-]; split; by intros a ?%elem_of_nil|].
  destruct (unsafeDirectoryDestination x) eqn:Eu.
  - intros E. destruct (IH _ _ E) as [IH1 IH2]. split; [intros a Ha; destruct (IH1 a Ha); split; [by right|done]|].
    destruct o; [done|]. intros a [->|Ha]%elem_of_cons; [congruence|auto].
  - destruct (dial x) eqn:Ed.
    + intros [= <- <-]. split; [|split; [left|done]]. intros a ->%list_elem_of_singleton. split; [left|done].
    + destruct (dialCandidates dial l) as [d' o'] eqn:E. intros [= <- <-]. destruct (IH _ _ eq_refl) as [IH1 IH2]. split.
      * intros a [->|Ha]%elem_of_cons; [split; [left|done]|]. destruct (IH1 a Ha). split; [by right|done].
      * destruct o'; [destruct IH2; split; [by right|done]|]. intros a [->|Ha]%elem_of_cons Hu; [split; [left|done]|].
        destruct (IH2 a Ha Hu). split; [by right|done].
Qed.

(** C34: the guarded dialer never connects to, nor even tries, an address of one of the blocks 0.0.0.0/32,
    127.0.0.0/8, 169.254.0.0/16, 224.0.0.0/4, ::/128 (without a zone), ::1/128, fe80::/10 and
    ff00::/8, nor an IPv4-mapped address of 127.0.0.0/8, 169.254.0.0/16 or 224.0.0.0/4; and it fails
    only when it has tried every other address the host resolved to.  (The IPv4-mapped form of
    the unspecified address, ::ffff:0.0.0.0, is not refused: see [mapped_unspecified_is_dialled].) *)
Theorem dialer_avoids_local_addresses lookup dial host addresses dialled r :
  lookup host = Some addresses → Forall wellFormed addresses →
  guardedDirectoryDial lookup dial host = (dialled, r) →
  (∀ a, a ∈ dialled → a ∈ addresses ∧ ¬ localAddress a)
  ∧ match r with
    | Ok a => a ∈ dialled ∧ dial a = true
    | Err _ => ∀ a, a ∈ addresses → ¬ localAddress a → a ∈ dialled ∧ dial a = false
    end.
Proof.
  unfold guardedDirectoryDial. intros -> Hw H. rewrite Forall_forall in Hw.
  assert (Hl : ∀ a, a ∈ addresses → unsafeDirectoryDestination a = false ↔ ¬ localAddress a).
  { intros a Ha. rewrite <- (unsafe_is_local a (Hw a Ha)). by rewrite not_true_iff_false. }
  destruct addresses as [|x l]; [injection H as <- <-; split; by intros a ?%elem_of_nil|].
  destruct (dialCandidates dial (x :: l)) as [d o] eqn:E. injection H as <- <-. apply dialCandidates_run in E as [E1 E2].
  split; [intros a Ha; destruct (E1 a Ha) as [Hin Hu]; split; [done|by apply Hl]|].
  destruct o; [done|]. intros a Ha Hn. apply E2; [done|]. by apply Hl.
Qed.

(** ** Examples *)

Definition quoted (s : string) : string := ofBytes ([dquote] ++ bytes s ++ [dquote]).
Definition demoLib : ClientLib unit unit :=
  mkClientLib (λ s, Ok (s, [])) (λ _, Err (errorsNew "no date")) (λ s, Ok s) (λ _, 4096)
    (λ _ _, Ok tt) (λ _ p, Ok (spNonce p)) (λ _ s, Ok s)
    (λ label p sig r, Ok (withHeader (headerSet (headerSet (outHeader r) "Signature-Input" label) "Signature" sig) r))
    (λ d, Ok (base64Std d)).
Definition demoActor : string := "https://relay.example/actor".
Definition demoOptions : Options Calm unit :=
  mkOptions "https://directory.example" demoActor "https://relay.example" zeroProfile
    "https://relay.example/actor#main-key" (Some tt) (Some (mret (Ok 7))).

(** A directory that answers the four requests of a reconciliation. *)
Definition jsonAnswer (status : Z) (v : json) : result httpResponse :=
  Ok (mkHttpResponse status "" {[ "Content-Type" := ["application/json"] ]} (jsonMarshal v) None).
Definition answerDoc (operation outcome : string) : json :=
  JObject [("protocol_version", jint 3); ("operation", JString operation); ("outcome", JString outcome);
           ("relay_actor", JString demoActor)].
Definition demoNet (n : nat) (r : httpRequest) : result httpResponse :=
  match n with
  | 0%nat => jsonAnswer 200 (JObject [("schema_version", jint 4);
      ("lifecycle_protocol_versions", JArray [jint 1; jint 2; jint 3; jint 9]);
      ("service", JString "activity-relay-directory"); ("version", JString "1.4.0");
      ("public_base_url", JString "https://directory.example")])
  | 1%nat => jsonAnswer 409 (JObject [("protocol_version", jint 3);
      ("error", JObject [("code", JString "relay_not_registered"); ("message", JString "unknown relay")])])
  | 2%nat => jsonAnswer 201 (answerDoc "register" "created")
  | _ => jsonAnswer 200 (answerDoc "heartbeat" "recorded")
  end.
Definition withNet {S} (net : nat → httpRequest → result httpResponse) (w : World S) : World S :=
  mkWorld (w_redis w) (w_relay w) (w_clock w) (w_ticks w) (w_uuid w) (w_uuids w) (w_broker w) (w_sends w)
    (w_queued w) net (w_posts w) (w_sentRequests w) (w_spawned w) (w_cache w).
Definition directoryWorld : World Calm := withNet demoNet (quietWorld (mkCalm 1000 emptyDb) (zeroRelayState false)).
Definition demoClient : result (Client Calm unit) := New demoLib demoOptions.

Lemma reconciliation_registers_only_when_told_witness :
  match demoClient with
  | Ok c =>
      let w' := (HeartbeatWithRegisterReconciliationNegotiated demoLib c directoryWorld).1 in
      length (w_sentRequests w') = 4%nat
      ∧ ∃ v w1 w2 e, heartbeatVersion demoLib c v w1 = (w2, Done (CErr e)) ∧ supported v
          ∧ hasCode e ErrorRelayNotRegistered = true
          ∧ ∃ l1, w_sentRequests w1 = w_sentRequests directoryWorld ++ l1 ∧ (length l1 ≤ 1)%nat
  | Err _ => False
  end.
Proof.
  destruct demoClient as [c|e] eqn:Ec; [|vm_compute in Ec; discriminate Ec].
  assert (Hc : c = match demoClient with Ok c => c | Err _ => c end) by by rewrite Ec.
  intros w'. assert (Hl : length (w_sentRequests w') = 4%nat).
  { unfold w'. rewrite Hc. vm_compute. reflexivity. }
  split; [exact Hl|].
  destruct (HeartbeatWithRegisterReconciliationNegotiated demoLib c directoryWorld) as [w2 o] eqn:Er.
  assert (Ho : match o with Done _ => true | Panic _ => false end = true).
  { assert (E : o = (HeartbeatWithRegisterReconciliationNegotiated demoLib c directoryWorld).2) by by rewrite Er.
    rewrite E, Hc. vm_compute. reflexivity. }
  destruct o as [r|m]; [|discriminate Ho].
  destruct (reconciliation_registers_only_when_told demoLib c directoryWorld w2 r) as (l & E1 & H1 & H2).
  - rewrite Hc. apply (sends_ret 0).
  - exact Er.
  - apply H2. unfold w' in Hl. cbn [fst] in Hl. rewrite E1, length_app in Hl.
    change (length (w_sentRequests directoryWorld)) with 0%nat in Hl. lia.
Defined.

Definition resolvedAddresses (texts : list string) (host : string) : option (list Addr) := Some (omap ParseAddr texts).
Lemma dialer_avoids_local_addresses_witness :
  let addresses := ["127.0.0.1"; "::ffff:127.0.0.1"; "fe80::1"; "ff02::1"; "0.0.0.0"; "192.0.2.1"; "192.0.2.2"] in
  guardedDirectoryDial (resolvedAddresses addresses) (λ a, bool_decide (a = Addr4 [192; 0; 2; 2])) "directory.example"
  = ([Addr4 [192; 0; 2; 1]; Addr4 [192; 0; 2; 2]], Ok (Addr4 [192; 0; 2; 2]))
  ∧ ¬ localAddress (Addr4 [192; 0; 2; 1]).
Proof.
  intros addresses.
  assert (E : guardedDirectoryDial (resolvedAddresses addresses) (λ a, bool_decide (a = Addr4 [192; 0; 2; 2])) "directory.example"
    = ([Addr4 [192; 0; 2; 1]; Addr4 [192; 0; 2; 2]], Ok (Addr4 [192; 0; 2; 2]))) by (vm_compute; reflexivity).
  split; [exact E|].
  destruct (dialer_avoids_local_addresses (resolvedAddresses addresses) (λ a, bool_decide (a = Addr4 [192; 0; 2; 2]))
    "directory.example" (omap ParseAddr addresses) [Addr4 [192; 0; 2; 1]; Addr4 [192; 0; 2; 2]] (Ok (Addr4 [192; 0; 2; 2])) eq_refl) as [H _].
  - vm_compute. repeat constructor; discriminate.
  - exact E.
  - destruct (H (Addr4 [192; 0; 2; 1])) as [_ Hl]; [left|exact Hl].
Defined.
(** The unspecified address in its IPv4-mapped form is dialled: [IsUnspecified] does not unmap. *)
Example mapped_unspecified_is_dialled :
  guardedDirectoryDial (resolvedAddresses ["::ffff:0.0.0.0"]) (λ _, true) "directory.example"
  = ([Addr6 [0; 0; 0; 0; 0; 65535; 0; 0] ""], Ok (Addr6 [0; 0; 0; 0; 0; 65535; 0; 0] "")).
Proof. vm_compute. reflexivity. Qed.

(** The decoder refuses a repeated name, but not one repeated in another case: the last wins. *)
Definition caseVariants : string :=
  jsonMarshal (JObject [("protocol_version", jint 1); ("operation", JString "register");
    ("outcome", JString "created"); ("Outcome", JString "updated"); ("relay_actor", JString demoActor)]).
Example case_variant_decoded :
  respOutcome <$> decodeSuccess 200 "register" demoActor caseVariants = Ok "updated".
Proof. vm_compute. reflexivity. Qed.
