(* ===== verification/DirectoryScheduler.v ===== *)
(** * The directory scheduler (internal/directoryscheduler)

    One cycle visits the enabled directories.  A visit re-reads the durable
    configuration and state, decides whether anything is due, takes the directory's
    lease, decides again, registers or heartbeats, and saves the outcome under the
    lease.

    [SchedWorld] is the process world with the scheduler's own mutable field
    [lastNow].  What the code leaves to the runtime is an argument of the visit
    ([visitEnv]): how many times the lease renewal fired while the remote operation
    ran, whether one more renewal was under way when it ended, and the error of the
    context at the end.  The renewal goroutine touches only Redis and the operation
    only the network, so the model runs the operation first; when the renewal loses
    the lease the operation's own outcome is dropped, as in the code (where it is
    also cancelled). *)

From S2P Require Import Prelude GoStrings Sha256 GoTime Redis World Observability DirectoryOrigin.
From S2P Require Import DirectoryProfile DirectoryStore DirectoryClient.

Definition NominalHeartbeatInterval : Duration := 24 * Hour.
Definition MaximumStableJitter : Duration := 2 * Hour.
Definition SchedulerPollInterval : Duration := Minute.
Definition minimumSchedulerSleep : Duration := Second.
Definition leaseTTL : Duration := Minute.
Definition initialRetry : Duration := 30 * Second.
Definition maximumLocalRetry : Duration := 15 * Minute.

(** [t.Truncate(time.Second)]. *)
Definition truncateSecond (t : Time) : Time := t / Second * Second.

(** ** Deadlines *)

(** [binary.BigEndian.Uint64] of the first eight bytes. *)
Definition bigEndian64 (l : list ascii) : Z :=
  foldl (λ a c, 256 * a + Z.of_N (byteN c)) 0 (take 8 l).
Definition nulByte : string := ofBytes [chr 0].

Definition stableJitter (relayActor origin : string) : Duration :=
  let digest := sum256 (bytes (relayActor +:+ nulByte +:+ origin +:+ nulByte +:+ "daily")) in
  let seconds := MaximumStableJitter / Second + 1 in
  bigEndian64 digest mod seconds * Second.

Definition schedulerRetryDelay (attempt : Z) (relayActor origin : string) : Duration :=
  let attempt := if attempt <? 1 then 1 else attempt in
  let base := Z.shiftl initialRetry (attempt - 1) in
  let base := if maximumLocalRetry <? base then maximumLocalRetry else base in
  let digest := sum256 (bytes (relayActor +:+ nulByte +:+ origin +:+ nulByte +:+ "retry" +:+ nulByte +:+ itoa attempt)) in
  let jitterRange := Z.quot base 5 in
  if jitterRange <=? 0 then base
  else
    let jitterSeconds := Z.quot jitterRange Second in
    let delay := base + bigEndian64 digest mod (jitterSeconds + 1) * Second in
    if maximumLocalRetry <? delay then maximumLocalRetry else delay.

Definition NextHeartbeatAttempt (relayActor origin : string) (completedAt : Time) : Time :=
  if IsZero completedAt then zeroTime
  else truncateSecond completedAt + (NominalHeartbeatInterval + stableJitter relayActor origin).

Definition startupReconciliationDue (state : State) (startupBoundary : Time) : bool :=
  if IsZero startupBoundary
     || negb (IsZero (LastObserved state)) && negb (Before (LastObserved state) startupBoundary)
  then false
  else oneOf (LastOutcome state) [""; "registered"; "heartbeat"].

(** The classification of [applyFailure]: outcome and diagnostic. *)
Definition failureClass (err : clientError) : string * string :=
  if clientErrorIs err "ErrDirectoryTransport" then ("retrying", "transport")
  else if hasCode err ErrorRateLimited then ("retrying", "rate_limited")
  else if hasCode err ErrorInternal then ("retrying", "internal")
  else if hasCode err ErrorAuthenticationFailed then ("authentication", "authentication")
  else if hasCode err ErrorRelaySuspended then ("suspended", "suspended")
  else if hasCode err ErrorEnrollmentClosed then ("policy", "enrollment")
  else if hasCode err ErrorLifecycleUnavailable then ("policy", "lifecycle")
  else ("malformed", "malformed").
Definition protocolRetryAfter (err : clientError) : Duration :=
  match err with ProtocolError _ _ retryAfter => retryAfter | Plain _ => 0 end.

Definition applyFailure (relayActor : string) (state : State) (origin : string) (now : Time) (err : clientError) : State :=
  let '(outcome, diagnostic) := failureClass err in
  if negb (outcome =s "retrying") then
    mkState (Registered state) (LastSuccess state) (NextHeartbeatAttempt relayActor origin now) outcome diagnostic 0
      now (ProfileDigest state) (ProfileProtocolVersion state)
  else
    let attempt := Attempt state + 1 in
    let attempt := if maximumAttempt <? attempt then maximumAttempt else attempt in
    let delay := schedulerRetryDelay attempt relayActor origin in
    let delay := if delay <? protocolRetryAfter err then protocolRetryAfter err else delay in
    let delay := if MaximumRetryAfter <? delay then MaximumRetryAfter else delay in
    mkState (Registered state) (LastSuccess state) (now + delay) outcome diagnostic attempt now
      (ProfileDigest state) (ProfileProtocolVersion state).

Section scheduler.
Context {S : Type} `{Redis S}.
Abbreviation Mw := (M (World S)).

(** ** The client interface (scheduler.go, profile_sync.go) *)

(** The interface [Client] with the optional interfaces [negotiatedDirectoryClient] and
    [profileDigestClient]. *)
Record SchedClient := mkSchedClient {
  scRegister : Mw (cresult Response);
  scHeartbeat : Mw (cresult Response);
  scNegotiated : option (Mw (cresult Response) * Mw (cresult Response));
  scProfileDigest : option string }.
Definition schedulerRegister (client : SchedClient) : Mw (cresult Response) :=
  match scNegotiated client with Some (register, _) => register | None => scRegister client end.
Definition schedulerHeartbeat (client : SchedClient) : Mw (cresult Response) :=
  match scNegotiated client with Some (_, heartbeat) => heartbeat | None => scHeartbeat client end.
Definition clientProfileDigest (client : SchedClient) : option string :=
  digest ← scProfileDigest client; if len digest =? 64 then Some digest else None.

(** ** The scheduler *)

Record Scheduler := mkScheduler {
  relayActor : string;
  directories : list Directory;
  enabled : string → Mw (result bool);
  clients : Directory → Mw (result SchedClient);
  metrics : bool }.
Definition New_ (config : Scheduler) : result Scheduler :=
  if (relayActor config =s "") || bool_decide (directories config = [])
     || (MaximumDirectories <? Z.of_nat (length (directories config)))
  then Err (errorsNew "directory scheduler configuration is invalid")
  else Ok config.

Record SchedWorld := mkSW { sw_world : World S; sw_lastNow : Time }.
Abbreviation Ms := (M SchedWorld).
Definition lift {A} (m : Mw A) : Ms A := λ w,
  let '(w', a) := m (sw_world w) in (mkSW w' (sw_lastNow w), a).

Definition monotonicNow (persisted : Time) : Ms Time :=
  clock ← lift timeNow;
  w ← get;
  let now := truncateSecond clock in
  let now := if Before now (sw_lastNow w) then sw_lastNow w else now in
  let now := if Before now persisted then persisted else now in
  _ ← modify (λ w, mkSW (sw_world w) now);
  mret now.

Definition record (scheduler : Scheduler) (result_ diagnostic : string) : Ms unit :=
  lift (whenEnabled (metrics scheduler) (RecordDirectory result_ diagnostic)).

(** The renewal goroutine: whether it reported the lease as lost. *)
Fixpoint renewLease (fires : nat) (late : bool) (lease : redisLease) : Mw bool :=
  match fires with
  | O => if late then (_ ← Renew lease leaseTTL; mret false) else mret false
  | Datatypes.S fires =>
      r ← Renew lease leaseTTL;
      match r with
      | Ok true => renewLease fires late lease
      | _ => mret true
      end
  end.

Definition saveOwned (scheduler : Scheduler) (origin : string) (lease : redisLease) (state : State)
    : Ms (result unit) :=
  r ← lift (SaveOwned origin lease state);
  match r with
  | Err e => _ ← record scheduler "failure" "internal"; mret (Err e)
  | Ok false => _ ← record scheduler "failure" "lease_lost"; mret (Err ErrStore)
  | Ok true => mret (Ok tt)
  end.

Record visitEnv := mkVisitEnv { renewFires : nat; lateRenewal : bool; contextErr : option error }.

(** Whether a visit has nothing to do yet. *)
Definition notDue (startupDue profileChanged : bool) (state : State) (now : Time) : bool :=
  negb startupDue && negb profileChanged && negb (IsZero (NextAttempt state)) && Before now (NextAttempt state).
(** The digest differs from the one last registered. *)
Definition digestChanged (state : State) (client : SchedClient) : bool :=
  match clientProfileDigest client with Some digest => negb (ProfileDigest state =s digest) | None => false end.

(** The state after a successful operation. *)
Definition applySuccess (relayActor : string) (client : SchedClient) (state : State) (origin : string)
    (completedAt : Time) (response : Response) : State :=
  let registered := respOperation response =s OperationRegister in
  let '(digest, version) :=
    match clientProfileDigest client with
    | Some digest => if registered then (digest, respVersion response)
                     else (ProfileDigest state, ProfileProtocolVersion state)
    | None => (ProfileDigest state, ProfileProtocolVersion state)
    end in
  mkState true completedAt (NextHeartbeatAttempt relayActor origin completedAt)
    (if registered then "registered" else "heartbeat") "none" 0 completedAt digest version.

(** The part of a visit that reports an outcome and saves it. *)
Definition finish (scheduler : Scheduler) (origin : string) (lease : redisLease) (state : State) (result_ : string)
    : Ms (Time * option error) :=
  r ← saveOwned scheduler origin lease state;
  match r with
  | Err e => mret (zeroTime, Some e)
  | Ok _ => _ ← record scheduler result_ (Diagnostic state); mret (NextAttempt state, None)
  end.

(** The remote operation of a visit: a heartbeat, or a register when the relay is not known to
    be registered or its profile changed; a register on top when the directory has started to
    speak a version that was not registered yet. *)
Definition remoteOperation (client : SchedClient) (state : State) (profileChanged : bool) : Mw (cresult Response) :=
  r ← (if Registered state && negb profileChanged then schedulerHeartbeat client else schedulerRegister client);
  match r with
  | COk response =>
      if (respOperation response =s OperationHeartbeat) && (ProtocolVersion2 <=? respVersion response)
         && negb (ProfileProtocolVersion state =? respVersion response)
      then schedulerRegister client else mret (COk response)
  | CErr e => mret (CErr e)
  end.

(** A visit while it holds the lease. *)
Definition visitOwned (scheduler : Scheduler) (entry : Directory) (startupBoundary : Time) (env : visitEnv)
    (lease : redisLease) : Ms (Time * option error) :=
  let origin := Origin entry in
  st ← lift (Load origin);
  match st with
  | Err e => _ ← record scheduler "failure" "internal"; mret (zeroTime, Some e)
  | Ok state =>
      now ← monotonicNow (LastObserved state);
      let startupDue := startupReconciliationDue state startupBoundary in
      en ← lift (enabled scheduler origin);
      match en with
      | Err e => _ ← record scheduler "failure" "internal"; mret (zeroTime, Some e)
      | Ok false => mret (zeroTime, None)
      | Ok true =>
          cl ← lift (clients scheduler entry);
          match cl with
          | Err _ =>
              finish scheduler origin lease
                (applyFailure (relayActor scheduler) state origin now (Plain ErrDirectoryResponse)) "failure"
          | Ok client =>
              let profileChanged := Registered state && digestChanged state client in
              if notDue startupDue profileChanged state now then mret (NextAttempt state, None)
              else
                r ← lift (remoteOperation client state profileChanged);
                lost ← lift (renewLease (renewFires env) (lateRenewal env) lease);
                if (lost : bool) then (_ ← record scheduler "failure" "lease_lost"; mret (zeroTime, Some ErrStore))
                else match contextErr env with
                | Some e => mret (zeroTime, Some e)
                | None =>
                    completedAt ← monotonicNow (LastObserved state);
                    match r with
                    | COk response =>
                        finish scheduler origin lease
                          (applySuccess (relayActor scheduler) client state origin completedAt response) "success"
                    | CErr e =>
                        finish scheduler origin lease
                          (applyFailure (relayActor scheduler) state origin completedAt e) "failure"
                    end
                end
          end
      end
  end.

Definition runDirectory (scheduler : Scheduler) (entry : Directory) (startupBoundary : Time) (env : visitEnv)
    : Ms (Time * option error) :=
  let origin := Origin entry in
  en ← lift (enabled scheduler origin);
  match en with
  | Err e => _ ← record scheduler "failure" "internal"; mret (zeroTime, Some e)
  | Ok false => mret (zeroTime, None)
  | Ok true =>
      st ← lift (Load origin);
      match st with
      | Err e => _ ← record scheduler "failure" "internal"; mret (zeroTime, Some e)
      | Ok state =>
          now ← monotonicNow (LastObserved state);
          let startupDue := startupReconciliationDue state startupBoundary in
          profileChanged ←
            (if Registered state then
               preview ← lift (clients scheduler entry);
               mret (match preview with Ok client => digestChanged state client | Err _ => false end)
             else mret false);
          if notDue startupDue profileChanged state now then mret (NextAttempt state, None)
          else
            l ← lift (Acquire origin leaseTTL);
            match l with
            | Err e => _ ← record scheduler "failure" "internal"; mret (zeroTime, Some e)
            | Ok None => mret (zeroTime, None)
            | Ok (Some lease) =>
                r ← visitOwned scheduler entry startupBoundary env lease;
                _ ← lift (Release lease);
                mret r
            end
      end
  end.

(** ** Cycles *)

Fixpoint cycleLoop (scheduler : Scheduler) (entries : list (Directory * visitEnv)) (startupBoundary : Time)
    (earliest : Time) (first : option error) : Ms (Time * option error) :=
  match entries with
  | [] => mret (earliest, first)
  | (entry, env) :: entries =>
      if negb (Enabled entry) then cycleLoop scheduler entries startupBoundary earliest first
      else
        '(nextAttempt, err) ← runDirectory scheduler entry startupBoundary env;
        let earliest := if negb (IsZero nextAttempt) && (IsZero earliest || Before nextAttempt earliest)
                        then nextAttempt else earliest in
        let first := match first with Some e => Some e | None => err end in
        cycleLoop scheduler entries startupBoundary earliest first
  end.
Definition runCycle (scheduler : Scheduler) (envs : Directory → visitEnv) (startupBoundary : Time)
    : Ms (Time * option error) :=
  cycleLoop scheduler (map (λ d, (d, envs d)) (directories scheduler)) startupBoundary zeroTime None.
Definition RunOnce (scheduler : Scheduler) (envs : Directory → visitEnv) : Ms (option error) :=
  '(_, err) ← runCycle scheduler envs zeroTime; mret err.

Definition nextWakeDelay (nextAttempt : Time) : Ms Duration :=
  delay ← (if IsZero nextAttempt then mret SchedulerPollInterval
           else
             now ← monotonicNow zeroTime;
             let until := nextAttempt - now in
             mret (if until <? SchedulerPollInterval then until else SchedulerPollInterval));
  mret (if delay <? minimumSchedulerSleep then minimumSchedulerSleep else delay).

(** [Run] up to the cycle at which its context ends: one element per cycle that was followed
    by a sleep, and the sleeps. *)
Fixpoint runLoop (scheduler : Scheduler) (cycles : list (Directory → visitEnv)) (startupBoundary : Time)
    : Ms (list Duration) :=
  match cycles with
  | [] => mret []
  | envs :: cycles =>
      '(nextAttempt, _) ← runCycle scheduler envs startupBoundary;
      delay ← nextWakeDelay nextAttempt;
      rest ← runLoop scheduler cycles startupBoundary;
      mret (delay :: rest)
  end.
Definition Run (scheduler : Scheduler) (cycles : list (Directory → visitEnv)) : Ms (list Duration) :=
  now ← lift timeNow;
  runLoop scheduler cycles (truncateSecond now).
End scheduler.
Arguments Scheduler S : clear implicits.
Arguments SchedClient S : clear implicits.
Arguments SchedWorld S : clear implicits.

(** The directory client as an implementation of the interface. *)
Definition asSchedClient {S PrivateKey Base} `{Redis S} (lib : ClientLib PrivateKey Base) (c : Client S PrivateKey)
    : SchedClient S :=
  mkSchedClient (Register lib c) (HeartbeatWithRegisterReconciliation lib c)
    (Some (RegisterNegotiated lib c, HeartbeatWithRegisterReconciliationNegotiated lib c))
    (Some (clientProfileDigest_ c)).
