(* ===== verification/DirectorySchedulerSpec.v ===== *)
(** * What the directory scheduler guarantees *)

From S2P Require Import Prelude GoStrings Sha256 GoTime Redis World Frame Observability Rfc9421.
From S2P Require Import DirectoryOrigin DirectoryProfile DirectoryStore DirectoryStoreSpec DirectoryClient.
From S2P Require Import DirectoryClientSpec DirectoryScheduler.

(** ** Deadlines *)

Ltac times := unfold NominalHeartbeatInterval, MaximumStableJitter, SchedulerPollInterval, minimumSchedulerSleep,
  leaseTTL, initialRetry, maximumLocalRetry, MaximumRetryAfter, truncateSecond, Hour, Minute, Second in *.

Lemma stableJitter_range a o : 0 ≤ stableJitter a o ≤ MaximumStableJitter.
Proof.
  unfold stableJitter. set (x := bigEndian64 _). clearbody x. times.
  change (2 * (60 * (60 * 1000000000)) / 1000000000 + 1) with 7201.
  pose proof (Z.mod_pos_bound x 7201 ltac:(lia)). lia.
Qed.
Lemma NextHeartbeatAttempt_range a o t : IsZero t = false →
  truncateSecond t + NominalHeartbeatInterval ≤ NextHeartbeatAttempt a o t
  ≤ truncateSecond t + NominalHeartbeatInterval + MaximumStableJitter.
Proof. intros Ht. unfold NextHeartbeatAttempt. rewrite Ht. pose proof (stableJitter_range a o). lia. Qed.

(** The local delay doubles from 30 seconds and is capped at a quarter of an hour. *)
Lemma retryDelay_range n a o : initialRetry ≤ schedulerRetryDelay n a o ≤ maximumLocalRetry.
Proof.
  unfold schedulerRetryDelay. set (k := if n <? 1 then 1 else n).
  assert (Hk : 0 ≤ k - 1) by (unfold k; destruct (Z.ltb_spec n 1); lia).
  rewrite Z.shiftl_mul_pow2 by done. assert (1 ≤ 2 ^ (k - 1)) by (pose proof (Z.pow_pos_nonneg 2 (k - 1)); lia).
  set (b := initialRetry * 2 ^ (k - 1)). assert (Hb : initialRetry ≤ b) by (unfold b; times; nia). clearbody b.
  set (base := if maximumLocalRetry <? b then maximumLocalRetry else b).
  assert (Hbase : initialRetry ≤ base ≤ maximumLocalRetry).
  { unfold base. destruct (Z.ltb_spec maximumLocalRetry b); times; lia. } clearbody base.
  destruct (Z.leb_spec (Z.quot base 5) 0); [done|]. set (x := bigEndian64 _). clearbody x.
  assert (0 ≤ Z.quot (Z.quot base 5) Second) by (apply Z.quot_pos; times; lia).
  pose proof (Z.mod_pos_bound x (Z.quot (Z.quot base 5) Second + 1) ltac:(lia)).
  set (y := x mod _) in *. clearbody y.
  destruct (Z.ltb_spec maximumLocalRetry (base + y * Second)); times; nia.
Qed.

(** ** Validity *)

Lemma failureClass_valid e : validOutcome (failureClass e).1 = true ∧ validDiagnostic (failureClass e).2 = true.
Proof. unfold failureClass. repeat case_match; done. Qed.
Lemma failureClass_retrying e : (failureClass e).1 = "retrying" ↔
  clientErrorIs e "ErrDirectoryTransport" = true ∨ hasCode e ErrorRateLimited = true ∨ hasCode e ErrorInternal = true.
Proof.
  unfold failureClass. destruct (clientErrorIs e _); [simpl; tauto|].
  destruct (hasCode e ErrorRateLimited); [simpl; tauto|]. destruct (hasCode e ErrorInternal); [simpl; tauto|].
  repeat case_match; simpl; split; try done; intros [?|[?|?]]; done.
Qed.

Lemma applyFailure_valid a s o now e : validateState o s = true → validateState o (applyFailure a s o now e) = true.
Proof.
  rewrite !validateState_true. intros (Ho & Ha & _ & _ & Hp). unfold applyFailure.
  pose proof (failureClass_valid e) as [H1 H2]. destruct (failureClass e) as [oc di]. simpl in H1, H2.
  destruct (negb _); simpl; (split; [done|]); (split; [|done]); [unfold maximumAttempt; lia|].
  destruct (Z.ltb_spec maximumAttempt (Attempt s + 1)); unfold maximumAttempt in *; lia.
Qed.

Section success.
Context {S : Type} `{Redis S}.
Lemma applySuccess_valid a b (c : SchedClient S) s o t r v :
  validateState o s = true → supported v → soundAnswer b (respOperation r) v (COk r) →
  (∀ d, scProfileDigest c = Some d → ∃ x, d = sha256Hex x) →
  validateState o (applySuccess a c s o t r) = true.
Proof.
  rewrite !validateState_true. intros (Ho & _ & _ & _ & Hp) Hv Hr Hd. unfold applySuccess.
  assert (Hdv : ∀ d, clientProfileDigest c = Some d → validProfileState d (respVersion r) = true).
  { unfold clientProfileDigest. intros d Hcd. destruct (scProfileDigest c) as [d'|] eqn:E; [|done]. simpl in Hcd.
    destruct (len d' =? 64); [|done]. injection Hcd as ->. destruct (Hd d eq_refl) as [x ->].
    apply sha256Hex_valid. destruct Hr as [-> _]. destruct Hv as [->|[->| ->]]; unfold ProtocolVersion, ProtocolVersion2, ProtocolVersion3; auto. }
  destruct (clientProfileDigest c) as [d|].
  - specialize (Hdv d eq_refl). destruct (eqs (respOperation r) OperationRegister); simpl; repeat split; done.
  - simpl. destruct (eqs _ _); repeat split; done.
Qed.
End success.

(** Failures back off within bounds.  After a failed operation the attempt counter stays
    within its range, the observation time is recorded, and the next attempt is: for a
    transport failure, a rate limit or an internal error, at least 30 seconds and at most 24
    hours away, not before the delay the directory asked for, and at most 15 minutes away
    when it asked for none; for any other failure, the normal deadline of 24 to 26 hours with
    the counter reset. *)
Theorem failure_backoff_is_bounded actor state origin now e :
  soundError e → 0 ≤ Attempt state ≤ maximumAttempt → IsZero now = false →
  let s := applyFailure actor state origin now e in
  let retrying := LastOutcome s = "retrying" in
  (0 ≤ Attempt s ≤ maximumAttempt ∧ LastObserved s = now ∧ Registered s = Registered state)
  ∧ (retrying ↔ clientErrorIs e "ErrDirectoryTransport" = true ∨ hasCode e ErrorRateLimited = true
                ∨ hasCode e ErrorInternal = true)
  ∧ (retrying → now + initialRetry ≤ NextAttempt s ≤ now + MaximumRetryAfter
       ∧ now + protocolRetryAfter e ≤ NextAttempt s
       ∧ (protocolRetryAfter e = 0 → NextAttempt s ≤ now + maximumLocalRetry) ∧ 1 ≤ Attempt s)
  ∧ (¬ retrying → Attempt s = 0
       ∧ truncateSecond now + NominalHeartbeatInterval ≤ NextAttempt s
         ≤ truncateSecond now + NominalHeartbeatInterval + MaximumStableJitter).
Proof.
  intros He Ha Hz. cbv zeta. rewrite <- failureClass_retrying. unfold applyFailure.
  destruct (failureClass e) as [oc di]. cbn [fst]. destruct (eqs oc "retrying") eqn:Eo; cbn [negb].
  - apply eqs_true in Eo. subst oc. cbn [Attempt LastObserved Registered LastOutcome NextAttempt].
    set (n := if maximumAttempt <? Attempt state + 1 then _ else _).
    assert (Hn : 1 ≤ n ≤ maximumAttempt).
    { unfold n. destruct (Z.ltb_spec maximumAttempt (Attempt state + 1)); unfold maximumAttempt in *; lia. }
    pose proof (retryDelay_range n actor origin) as Hr. set (d := schedulerRetryDelay n actor origin) in *. clearbody d n.
    assert (Hp : 0 ≤ protocolRetryAfter e ≤ MaximumRetryAfter).
    { destruct e; simpl in *; [times; lia|tauto]. }
    set (p := protocolRetryAfter e) in *. clearbody p.
    split; [split; [lia|done]|]. split; [done|]. split; [|done]. intros _.
    destruct (Z.ltb_spec d p); [destruct (Z.ltb_spec MaximumRetryAfter p)|destruct (Z.ltb_spec MaximumRetryAfter d)];
      times; repeat split; lia.
  - apply eqs_false in Eo. cbn [Attempt LastObserved Registered LastOutcome NextAttempt].
    split; [split; [unfold maximumAttempt; lia|done]|]. split; [done|]. split; [done|]. intros _. split; [done|].
    by apply NextHeartbeatAttempt_range.
Qed.

(** ** The interface to the client *)

(** What the scheduler relies on of a client: its calls use only the network, the clock and
    random values, its answers are validated, and its profile digest is a SHA-256. *)
Class ClientLaws {S : Type} `{Redis S} (actor : string) (c : SchedClient S) : Prop := {
  law_register : runs netOnly (schedulerRegister c);
  law_heartbeat : runs netOnly (schedulerHeartbeat c);
  law_register_answer : yields (λ r, ∃ v, supported v ∧ soundAnswer actor OperationRegister v r) (schedulerRegister c);
  law_heartbeat_answer : yields (λ r, ∃ v, supported v ∧ soundAnswer actor OperationHeartbeat v r) (schedulerHeartbeat c);
  law_digest : ∀ d, scProfileDigest c = Some d → ∃ x, d = sha256Hex x
}.

(** The directory client, as the API hands it to the scheduler, keeps these laws. *)
#[export] Instance directoryClient_laws {S PrivateKey Base} `{Redis S} (lib : ClientLib PrivateKey Base)
    (c : Client S PrivateKey) (Ht : quietTelemetry c) : ClientLaws (clRelayActor c) (asSchedClient lib c).
Proof.
  split; cbn [schedulerRegister schedulerHeartbeat scNegotiated asSchedClient].
  - by apply netOnly_RegisterNegotiated.
  - by apply netOnly_ReconciliationNegotiated.
  - apply validated_negotiated, registerVersion_sound.
  - intros w w' r E. eapply validated_negotiated; [|exact E]. intros v.
    eapply yields_bind_in; [apply heartbeatVersion_sound|].
    intros [x|e] Hr; [by apply yields_ret|]. destruct (negb _); [by apply yields_ret|].
    unfold bindC. eapply yields_bind_in; [apply registerVersion_sound|].
    intros [r'|e'] Hr'; [apply heartbeatVersion_sound|by apply yields_ret].
  - intros d [= <-]. unfold clientProfileDigest_. eauto.
Qed.

Section visits.
Context {S : Type} `{RedisLaws S}.
Abbreviation SW := (SchedWorld S).

(** ** No contact without the lease and the flag *)

(** What a computation of the scheduler does to the requests sent and to Redis's clock. *)
Definition quietly (w w' : SW) : Prop :=
  w_sentRequests (sw_world w') = w_sentRequests (sw_world w)
  ∧ rs_ms (w_redis (sw_world w)) ≤ rs_ms (w_redis (sw_world w')).
#[export] Instance quietly_preorder : PreOrder quietly.
Proof. split; unfold quietly; [intros w; split; [done|lia]|]. intros w1 w2 w3 [A1 B1] [A2 B2]. split; [congruence|lia]. Qed.
Definition quietW (w w' : World S) : Prop :=
  w_sentRequests w' = w_sentRequests w ∧ rs_ms (w_redis w) ≤ rs_ms (w_redis w').
#[export] Instance quietW_preorder : PreOrder quietW.
Proof. split; unfold quietW; [intros w; split; [done|lia]|]. intros w1 w2 w3 [A1 B1] [A2 B2]. split; [congruence|lia]. Qed.

Lemma quiet_lift {A} (m : M (World S) A) : runs quietW m → runs quietly (lift m).
Proof.
  intros Hm w. destruct (Hm (sw_world w)) as (w' & a & E & Hq). unfold lift. rewrite E. eexists _, _. split; [done|]. done.
Qed.
Lemma quietW_redis {A} (c : Rcmd A) : runs quietW (redis c).
Proof.
  intros w. eexists _, _. split; [reflexivity|]. split; [done|]. cbn [w_redis set_redis fst]. apply redis_do_clock.
Qed.
Lemma quiet_timeNow : runs quietW timeNow.
Proof. intros w. eexists _, _. split; [reflexivity|]. split; [done|]. simpl. lia. Qed.
Lemma quiet_uuidNew : runs quietW uuidNew.
Proof. intros w. eexists _, _. split; [reflexivity|]. split; [done|]. simpl. lia. Qed.
#[local] Hint Resolve quietW_redis quiet_timeNow quiet_uuidNew quiet_lift : runs.

Lemma quiet_Load o : runs quietW (Load o).
Proof. unfold Load. runs_auto. Qed.
Lemma quiet_SaveOwned o l s : runs quietW (SaveOwned o l s).
Proof. unfold SaveOwned. runs_auto. Qed.
Lemma quiet_Renew l t : runs quietW (Renew l t).
Proof. unfold Renew. runs_auto. Qed.
Lemma quiet_Release l : runs quietW (Release l).
Proof. unfold Release. runs_auto. Qed.
Lemma quiet_Acquire o t : runs quietW (Acquire o t).
Proof. unfold Acquire, leaseToken, randRead. runs_auto. Qed.
Lemma quiet_record (s : Scheduler S) r d : runs quietly (record s r d).
Proof.
  unfold record, whenEnabled, RecordDirectory, increment. apply quiet_lift. runs_auto.
Qed.
#[local] Hint Resolve quiet_Load quiet_SaveOwned quiet_Renew quiet_Release quiet_Acquire quiet_record : runs.
Lemma quiet_renewLease n late l : runs quietW (renewLease n late l).
Proof. induction n as [|n IH]; cbn [renewLease]; runs_auto. Qed.
Lemma quiet_monotonicNow t : runs quietly (monotonicNow (S := S) t).
Proof.
  unfold monotonicNow. apply runs_bind; [typeclasses eauto|by apply quiet_lift, quiet_timeNow|]. intros c.
  apply runs_get; [exact (λ _, True)|]. intros w. cbv zeta.
  apply runs_bind; [typeclasses eauto| |intros; apply runs_ret; typeclasses eauto].
  intros w1. eexists _, _. split; [reflexivity|]. split; [done|]. simpl. lia.
Qed.
#[local] Hint Resolve quiet_renewLease quiet_monotonicNow : runs.
Lemma quiet_saveOwned (s : Scheduler S) o l st : runs quietly (saveOwned s o l st).
Proof. unfold saveOwned. runs_auto. Qed.
#[local] Hint Resolve quiet_saveOwned : runs.
Lemma quiet_finish (s : Scheduler S) o l st r : runs quietly (finish s o l st r).
Proof. unfold finish. runs_auto. Qed.
#[local] Hint Resolve quiet_finish : runs.

(** The configuration of a visit is read without sending anything and without Redis. *)
Definition configOnly (w w' : World S) : Prop := w_sentRequests w' = w_sentRequests w ∧ w_redis w' = w_redis w.
#[export] Instance configOnly_preorder : PreOrder configOnly.
Proof. split; [by intros w|]. intros w1 w2 w3 [A1 B1] [A2 B2]. split; congruence. Qed.
Definition quietConfiguration (s : Scheduler S) (entry : Directory) : Prop :=
  runs configOnly (enabled s (Origin entry)) ∧ runs configOnly (clients s entry).
Lemma configOnly_quiet {A} (m : M (World S) A) : runs configOnly m → runs quietW m.
Proof. apply runs_mono. intros w w' [E1 E2]. split; [done|]. rewrite E2. lia. Qed.

(** Running a quiet computation keeps the requests sent. *)
Lemma quietly_run {A} (m : M SW A) w w' a : runs quietly m → m w = (w', Done a) → quietly w w'.
Proof. intros Hm E. destruct (Hm w) as (w1 & b & E1 & Hq). rewrite E in E1. by injection E1 as -> ->. Qed.
Lemma quiet_run_no_panic {A} (m : M SW A) w w' msg : runs quietly m → m w = (w', Panic msg) → False.
Proof. intros Hm E. destruct (Hm w) as (w1 & b & E1 & Hq). rewrite E in E1. done. Qed.
Lemma lift_inv {A} (m : M (World S) A) (w w' : SW) a :
  lift m w = (w', Done a) → m (sw_world w) = (sw_world w', Done a) ∧ sw_lastNow w' = sw_lastNow w.
Proof. unfold lift. destruct (m (sw_world w)) as [w1 o]. by intros [= <- ->]. Qed.

(** Close a branch that sends nothing against the fact that something was sent. *)
Ltac contradict_quiet E Hne :=
  exfalso; apply Hne; eapply quietly_run in E; [|solve [runs_auto]]; destruct E as [E _]; rewrite E; congruence.

(** The lease is in Redis with the token of its owner, until [expires]. *)
Definition leaseStands (origin : string) (lease : redisLease) (expires : Z) (w : World S) : Prop :=
  db_keys (rs_db (w_redis w)) !! directoryKey origin "lease" = Some (mkEntry (RString (leaseValue lease)) (Some expires)).
Lemma Load_db o (w w' : World S) r : Load o w = (w', Done r) → rs_db (w_redis w') = rs_db (w_redis w).
Proof.
  unfold Load. destruct (eqs o ""); [by intros [= <- _]|]. intros (w1 & x & E & [= <- _])%bind_inv.
  unfold redis in E. injection E as <- _. cbn. by apply redis_read_db, HGETALL_readOnly.
Qed.
Lemma monotonicNow_redis t (w w' : SW) now : monotonicNow t w = (w', Done now) → w_redis (sw_world w') = w_redis (sw_world w).
Proof. unfold monotonicNow, lift, timeNow, get, modify, mbind, M_bind, mret, M_ret. cbn. by intros [= <- _]. Qed.
Lemma configOnly_redis {A} (m : M (World S) A) w w' a : runs configOnly m → m w = (w', Done a) → w_redis w' = w_redis w.
Proof. intros Hm E. destruct (Hm w) as (w1 & b & E1 & [_ Hr]). rewrite E in E1. by injection E1 as <- _. Qed.

(** A visit under the lease, from the world [w] to the world [w'], that contacted the directory: what it
    did up to the request, in order, and what the request is. *)
Definition contactedUnder (s : Scheduler S) (entry : Directory) (boundary : Time) (w w' : SW) : Prop :=
  ∃ state w1 now w2 w3 client w4 w5 r,
    lift (Load (Origin entry)) w = (w1, Done (Ok state))
    ∧ monotonicNow (LastObserved state) w1 = (w2, Done now)
    ∧ lift (enabled s (Origin entry)) w2 = (w3, Done (Ok true))
    ∧ lift (clients s entry) w3 = (w4, Done (Ok client))
    ∧ w_sentRequests (sw_world w4) = w_sentRequests (sw_world w)
    ∧ rs_db (w_redis (sw_world w4)) = rs_db (w_redis (sw_world w))
    ∧ lift (remoteOperation client state (Registered state && digestChanged state client)) w4 = (w5, Done r)
    ∧ quietly w5 w'.
Lemma visitOwned_contact (s : Scheduler S) entry b env lease w w' x :
  quietConfiguration s entry →
  visitOwned s entry b env lease w = (w', Done x) →
  w_sentRequests (sw_world w') ≠ w_sentRequests (sw_world w) → contactedUnder s entry b w w'.
Proof.
  intros [Hen' Hcl'] E Hne. pose proof (configOnly_quiet _ Hen') as Hen. pose proof (configOnly_quiet _ Hcl') as Hcl.
  unfold visitOwned in E. apply bind_inv in E as (w1 & st & E1 & E).
  pose proof (quietly_run _ _ _ _ (quiet_lift _ (quiet_Load _)) E1) as [Q1 T1].
  destruct st as [state|e]; [|contradict_quiet E Hne].
  apply bind_inv in E as (w2 & now & E2 & E). pose proof (quietly_run _ _ _ _ (quiet_monotonicNow _) E2) as [Q2 T2].
  cbv zeta in E. apply bind_inv in E as (w3 & en & E3 & E). pose proof (quietly_run _ _ _ _ (quiet_lift _ Hen) E3) as [Q3 T3].
  destruct en as [[]|e]; [|contradict_quiet E Hne..].
  apply bind_inv in E as (w4 & cl & E4 & E). pose proof (quietly_run _ _ _ _ (quiet_lift _ Hcl) E4) as [Q4 T4].
  destruct cl as [client|e]; [|contradict_quiet E Hne]. destruct (notDue _ _ _ _); [contradict_quiet E Hne|].
  apply bind_inv in E as (w5 & r & E5 & E).
  exists state, w1, now, w2, w3, client, w4, w5, r. repeat (split; [done|]). split; [congruence|]. split.
  { apply lift_inv in E1 as [E1 _]. apply Load_db in E1. apply monotonicNow_redis in E2. apply lift_inv in E3 as [E3 _].
    apply (configOnly_redis _ _ _ _ Hen') in E3. apply lift_inv in E4 as [E4 _]. apply (configOnly_redis _ _ _ _ Hcl') in E4.
    congruence. }
  split; [done|]. eapply quietly_run; [|exact E]. runs_auto.
Qed.

(** C14: no contact without the lease and the flag.  Take a visit of the scheduler that sent any request
    (reading the configuration sends nothing and leaves Redis alone).  The visit is: the flag and the
    state were read; the directory's lease was acquired; in the world Acquire returned, with no step
    in between, the state was read again, then the clock, then the flag, which was on, then the
    client was made; so far nothing was sent and the lease stands in Redis with its token, to run
    out a lease time after Acquire; then came the remote operation; and the release of the lease is
    the last step of the visit, nothing being sent after the remote operation. *)
Theorem contact_needs_lease_and_flag (s : Scheduler S) entry boundary env w w' x :
  quietConfiguration s entry →
  runDirectory s entry boundary env w = (w', Done x) →
  w_sentRequests (sw_world w') ≠ w_sentRequests (sw_world w) →
  ∃ wa state0 wb now0 wc changed wd lease we state w1 now w2 w3 client w4 w5 r wf u,
    lift (enabled s (Origin entry)) w = (wa, Done (Ok true))
    ∧ lift (Load (Origin entry)) wa = (wb, Done (Ok state0))
    ∧ monotonicNow (LastObserved state0) wb = (wc, Done now0)
    ∧ (if Registered state0 then
         preview ← lift (clients s entry);
         mret (match preview with Ok client => digestChanged state0 client | Err _ => false end)
       else mret false) wc = (wd, Done changed)
    ∧ lift (Acquire (Origin entry) leaseTTL) wd = (we, Done (Ok (Some lease)))
    ∧ lift (Load (Origin entry)) we = (w1, Done (Ok state))
    ∧ monotonicNow (LastObserved state) w1 = (w2, Done now)
    ∧ lift (enabled s (Origin entry)) w2 = (w3, Done (Ok true))
    ∧ lift (clients s entry) w3 = (w4, Done (Ok client))
    ∧ w_sentRequests (sw_world w4) = w_sentRequests (sw_world w)
    ∧ leaseStands (Origin entry) lease (rs_ms (w_redis (sw_world we)) + ttlMs leaseTTL) (sw_world w4)
    ∧ lift (remoteOperation client state (Registered state && digestChanged state client)) w4 = (w5, Done r)
    ∧ w_sentRequests (sw_world w') = w_sentRequests (sw_world w5)
    ∧ quietly w5 wf ∧ lift (Release lease) wf = (w', Done u).
Proof.
  intros Hq E Hne. pose proof Hq as [Hen' Hcl']. pose proof (configOnly_quiet _ Hen') as Hen. pose proof (configOnly_quiet _ Hcl') as Hcl.
  unfold runDirectory in E.
  apply bind_inv in E as (wa & en & Ea & E). pose proof (quietly_run _ _ _ _ (quiet_lift _ Hen) Ea) as [Q1 T1].
  destruct en as [[]|e]; [|contradict_quiet E Hne..].
  apply bind_inv in E as (wb & st & Eb & E). pose proof (quietly_run _ _ _ _ (quiet_lift _ (quiet_Load _)) Eb) as [Q2 T2].
  destruct st as [state0|e]; [|contradict_quiet E Hne].
  apply bind_inv in E as (wc & now0 & Ec & E). pose proof (quietly_run _ _ _ _ (quiet_monotonicNow _) Ec) as [Q3 T3].
  cbv zeta in E. apply bind_inv in E as (wd & changed & Ed & E). pose proof Ed as Ed'.
  eapply quietly_run in Ed' as [Q4 T4]; [|runs_auto].
  destruct (notDue _ _ _ _); [contradict_quiet E Hne|].
  apply bind_inv in E as (we & l & Ee & E). pose proof (quietly_run _ _ _ _ (quiet_lift _ (quiet_Acquire _ _)) Ee) as [Q5 T5].
  destruct l as [[lease|]|e]; [|contradict_quiet E Hne..].
  apply bind_inv in E as (wf & r' & Ef & E). apply bind_inv in E as (wg & u & Eg & E). injection E as <- <-.
  pose proof (quietly_run _ _ _ _ (quiet_lift _ (quiet_Release _)) Eg) as [Q7 T7].
  destruct (visitOwned_contact s entry boundary env lease we wf r' Hq Ef) as (state & w1 & now & w2 & w3 & client & w4 & w5 & r &
    E1 & E2 & E3 & E4 & Q & D & E5 & Q6); [congruence|].
  exists wa, state0, wb, now0, wc, changed, wd, lease, we, state, w1, now, w2, w3, client, w4, w5, r, wf, u.
  repeat (split; [done|]). split; [congruence|]. split; [|split; [done|]].
  - apply lift_inv in Ee as [Ee _]. apply Acquire_holds in Ee as (_ & Hh & _). unfold leaseStands. by rewrite D.
  - destruct Q6 as [Q6 T6]. split; [congruence|]. by repeat split.
Qed.
End visits.

(** ** The scheduler's clock *)

Section clock.
Context {S : Type} `{RedisLaws S}.
Abbreviation SW := (SchedWorld S).

(** A reading is not before the last one, nor before the time the state was last observed at,
    and is remembered. *)
Lemma monotonicNow_inv t (w w' : SW) now : monotonicNow t w = (w', Done now) →
  t ≤ now ∧ sw_lastNow w ≤ now ∧ sw_lastNow w' = now ∧ truncateSecond (w_clock (sw_world w) (w_ticks (sw_world w))) ≤ now
  ∧ w_redis (sw_world w') = w_redis (sw_world w) ∧ w_clock (sw_world w') = w_clock (sw_world w)
  ∧ w_uuid (sw_world w') = w_uuid (sw_world w) ∧ w_uuids (sw_world w') = w_uuids (sw_world w).
Proof.
  unfold monotonicNow, lift, timeNow, get, modify, mbind, M_bind, mret, M_ret. cbn.
  set (c := truncateSecond _). intros [= <- <-]. cbn. unfold Before.
  destruct (Z.ltb_spec c (sw_lastNow w)).
  - destruct (Z.ltb_spec (sw_lastNow w) t); repeat split; lia.
  - destruct (Z.ltb_spec c t); repeat split; lia.
Qed.

Lemma nextWakeDelay_range t : yields (λ d, minimumSchedulerSleep ≤ d ≤ SchedulerPollInterval) (nextWakeDelay (S := S) t).
Proof.
  unfold nextWakeDelay. apply (yields_bind_in (λ d, d ≤ SchedulerPollInterval)).
  - destruct (IsZero t); [by apply yields_ret|]. apply yields_bind. intros now. apply yields_ret.
    destruct (Z.ltb_spec (t - now) SchedulerPollInterval); lia.
  - intros d Hd. apply yields_ret. destruct (Z.ltb_spec d minimumSchedulerSleep); times; lia.
Qed.

(** The earliest deadline a cycle reports. *)
Lemma nextWakeDelay_deadline t (w w' : SW) d : nextWakeDelay t w = (w', Done d) → IsZero t = false →
  minimumSchedulerSleep < d → d ≤ t - sw_lastNow w'.
Proof.
  intros E Ht Hd. unfold nextWakeDelay in E. rewrite Ht in E. apply bind_inv in E as (w1 & x & E1 & E).
  apply bind_inv in E1 as (w2 & now & E2 & E1). apply monotonicNow_inv in E2 as (_ & _ & Hl & _).
  injection E1 as <- <-. injection E as <- <-. revert Hd.
  destruct (Z.ltb_spec (t - now) SchedulerPollInterval).
  - destruct (Z.ltb_spec (t - now) minimumSchedulerSleep); lia.
  - destruct (Z.ltb_spec SchedulerPollInterval minimumSchedulerSleep); lia.
Qed.

(** The scheduler neither spins nor oversleeps: however many cycles it runs and whatever
    they return, every sleep between two cycles lasts at least one second and at most one
    minute. *)
Theorem sleeps_are_bounded (s : Scheduler S) cycles (w w' : SW) sleeps :
  Run s cycles w = (w', Done sleeps) →
  length sleeps = length cycles ∧ Forall (λ d, minimumSchedulerSleep ≤ d ≤ SchedulerPollInterval) sleeps.
Proof.
  unfold Run. intros (w1 & now & _ & E)%bind_inv. revert w1 w' sleeps E. generalize (truncateSecond now) as b. intros b.
  induction cycles as [|envs cycles IH]; intros w1 w' sleeps E; cbn [runLoop] in E.
  - injection E as _ <-. by split.
  - apply bind_inv in E as (w2 & [next err] & _ & E). apply bind_inv in E as (w3 & d & Ed & E).
    apply bind_inv in E as (w4 & rest & Er & E). injection E as _ <-. apply nextWakeDelay_range in Ed.
    apply IH in Er as [Hl Hf]. split; [simpl; lia|by constructor].
Qed.
End clock.

(** ** A due visit completes *)

Lemma metricsKey_directoryKey o s : OperationalMetricsKey ≠ directoryKey o s.
Proof. unfold OperationalMetricsKey, directoryKey, keyPrefix. discriminate. Qed.
Lemma asHash_ext t d d' k : db_keys d !! k = db_keys d' !! k → asHash t d k = asHash t d' k.
Proof. unfold asHash, find. by intros ->. Qed.
Lemma find_ext t d d' k : db_keys d !! k = db_keys d' !! k → find t d k = find t d' k.
Proof. unfold find. by intros ->. Qed.

Section owned.
Context {S : Type} `{RedisReliable S}.
Abbreviation W := (World S).

Lemma redis_step {A} (c : Rcmd A) (w w' : W) r : redis c w = (w', Done r) →
  r = (c (rs_ms (w_redis w')) (rs_db (w_redis w))).2
  ∧ rs_db (w_redis w') = (c (rs_ms (w_redis w')) (rs_db (w_redis w))).1
  ∧ rs_ms (w_redis w) ≤ rs_ms (w_redis w')
  ∧ w_clock w' = w_clock w.
Proof.
  intros E. destruct (redis_ok c w) as (w1 & E1 & Hd). rewrite E in E1. injection E1 as <- ->.
  split; [done|]. split; [done|]. unfold redis in E. injection E as <- _. simpl. split; [apply redis_do_clock|done].
Qed.

Context (origin v : string) (D : Z).
Abbreviation lk := (directoryKey origin "lease").
Abbreviation sk := (directoryKey origin "state").
Abbreviation lease := (mkLease lk v).
(** The lease is held by [v] at least until [D]. *)
Definition owned (w : W) : Prop := ∃ exp, D ≤ exp ∧ heldBy origin v exp (rs_db (w_redis w)).
Definition stateEntry (w : W) : option entry := db_keys (rs_db (w_redis w)) !! sk.

(** What a step under the lease keeps. *)
Definition kept (w w' : W) : Prop :=
  (owned w → owned w') ∧ stateEntry w' = stateEntry w ∧ rs_ms (w_redis w) ≤ rs_ms (w_redis w')
  ∧ w_clock w' = w_clock w.
#[export] Instance kept_preorder : PreOrder kept.
Proof.
  split; [by intros w; unfold kept; repeat split|].
  intros w1 w2 w3 (A1 & B1 & C1 & E1) (A2 & B2 & C2 & E2). split; [auto|]. split; [congruence|]. split; [lia|congruence].
Qed.

Lemma touches_kept {A} ks (c : Rcmd A) w w' r :
  touches ks c → ¬ ks lk → ¬ ks sk → redis c w = (w', Done r) → kept w w'.
Proof.
  intros Ht Hl Hs E. apply redis_step in E as (_ & Hd & Hm & Hc).
  destruct (Ht (rs_ms (w_redis w')) (rs_db (w_redis w))) as [_ Hk].
  split; [|split; [|split; done]].
  - intros (exp & He & Hh). exists exp. split; [done|]. unfold heldBy in *. by rewrite Hd, Hk.
  - unfold stateEntry. by rewrite Hd, Hk.
Qed.
Lemma Load_kept o w w' r : Load o w = (w', Done r) → kept w w'.
Proof.
  unfold Load. destruct (eqs o ""); [intros [= <- _]; reflexivity|]. intros (w1 & x & E & [= <- _])%bind_inv.
  eapply (touches_kept (λ _, False)); [|tauto|tauto|exact E]. apply touches_readOnly, HGETALL_readOnly.
Qed.
Lemma Load_value w w' r state :
  origin ≠ "" → Load origin w = (w', Done r) →
  (∀ t, rs_ms (w_redis w) ≤ t ≤ rs_ms (w_redis w') → ∃ h, asHash t (rs_db (w_redis w)) sk = Ok h ∧ decodeState h = Ok state) →
  r = Ok state.
Proof.
  intros Ho E Hst. unfold Load in E. apply eqs_false in Ho. rewrite Ho in E. apply bind_inv in E as (w1 & x & E & Er).
  apply redis_step in E as (-> & _ & Hm & _). injection Er as <- <-. simpl.
  destruct (Hst (rs_ms (w_redis w1)) ltac:(split; [exact Hm|apply Z.le_refl])) as (h & -> & ->). done.
Qed.

Lemma owned_find w t : owned w → t < D → ∃ exp, D ≤ exp ∧ find t (rs_db (w_redis w)) lk = Some (mkEntry (RString v) (Some exp)).
Proof. intros (exp & He & Hh) Ht. exists exp. split; [done|]. apply held_find; [done|lia]. Qed.

Lemma Renew_owned w w' r : owned w → Renew lease leaseTTL w = (w', Done r) →
  rs_ms (w_redis w') < D → D ≤ rs_ms (w_redis w) + 60000 →
  r = Ok true ∧ kept w w' ∧ owned w'.
Proof.
  intros Ho E Ht HD. unfold Renew in E. change (leaseTTL <=? 0) with false in E. cbn [leaseKey leaseValue] in E.
  change (leaseTTL / Millisecond) with 60000 in E. apply bind_inv in E as (w1 & x & E & Er).
  injection Er as <- <-. pose proof E as E'. apply redis_step in E as (-> & Hd & Hm & Hc).
  destruct (owned_find w _ Ho Ht) as (exp & He & Hf).
  set (t := rs_ms (w_redis w1)) in *. set (d := rs_db (w_redis w)) in *.
  assert (Er : renewLeaseScript lk v 60000 t d = (put lk (RString v) (Some (t + 60000)) d, Ok 1)).
  { unfold renewLeaseScript, GETopt, mbind, Rcmd_bind. rewrite (held_asString _ _ _ _ _ Hf), decide_True by done.
    unfold PEXPIRE, EXPIREAT_MS. rewrite Hf. by destruct (Z.leb_spec (t + 60000) t); [lia|]. }
  rewrite Er in Hd |- *. simpl in Hd |- *.
  assert (Hw : owned w1).
  { exists (t + 60000). split; [lia|]. unfold heldBy. rewrite Hd. simpl. by rewrite lookup_insert_eq. }
  split; [done|]. split; [|done]. split; [done|]. split; [|done].
  unfold stateEntry. rewrite Hd. simpl. apply lookup_insert_ne. apply directoryKey_lease_state.
Qed.
Lemma renewLease_owned n late w w' lost : owned w → renewLease n late lease w = (w', Done lost) →
  rs_ms (w_redis w') < D → D ≤ rs_ms (w_redis w) + 60000 → lost = false ∧ kept w w' ∧ owned w'.
Proof.
  revert w. induction n as [|n IH]; intros w Ho E Ht HD; cbn [renewLease] in E.
  - destruct late; [|injection E as <- <-; done]. apply bind_inv in E as (w1 & r & E & [= <- <-]).
    by apply Renew_owned in E as (_ & ? & ?).
  - apply bind_inv in E as (w1 & r & E1 & E).
    assert (Hm : rs_ms (w_redis w1) ≤ rs_ms (w_redis w')).
    { destruct r as [[]|e]; [|by injection E as <- _..].
      destruct (quiet_renewLease n late lease w1) as (w2 & b & E' & [_ Hq]). rewrite E in E'. by injection E' as -> _. }
    destruct (Renew_owned _ _ _ Ho E1 ltac:(lia) HD) as (-> & K1 & O1).
    destruct (IH w1 O1 E Ht) as (-> & K2 & O2); [destruct K1 as (_ & _ & ? & _); lia|].
    split; [done|]. split; [by etransitivity|done].
Qed.

Lemma SaveOwned_owned w w' r s : owned w → validateState origin s = true →
  SaveOwned origin lease s w = (w', Done r) → rs_ms (w_redis w') < D →
  (∃ h, asHash (rs_ms (w_redis w')) (rs_db (w_redis w)) sk = Ok h) →
  r = Ok true ∧ owned w' ∧ rs_ms (w_redis w) ≤ rs_ms (w_redis w') ∧ w_clock w' = w_clock w
  ∧ ∃ h, stateEntry w' = Some (mkEntry (RHash (savedHash h s)) (Some (rs_ms (w_redis w') + stateRetention / Millisecond))).
Proof.
  intros Ho Hv E Ht [h Hh]. unfold SaveOwned in E. cbn [leaseKey leaseValue] in E.
  rewrite eqs_refl, Hv in E. cbn [negb orb] in E. apply bind_inv in E as (w1 & x & E & Er). injection Er as <- <-.
  apply redis_step in E as (-> & Hd & Hm & Hc). destruct (owned_find w _ Ho Ht) as (exp & He & Hf).
  set (t := rs_ms (w_redis w1)) in *. set (d := rs_db (w_redis w)) in *.
  destruct (saveOwnedScript lk sk v (stateArguments s) (stateRetention / Millisecond) t d) as [d' [n|e]] eqn:Es.
  2: { exfalso. unfold saveOwnedScript, GETopt, mbind, Rcmd_bind in Es.
       rewrite (held_asString _ _ _ _ _ Hf), decide_True in Es by done. unfold HSET in Es. rewrite Hh in Es.
       unfold PEXPIRE in Es. by destruct (find t _ sk). }
  apply saveOwned_held in Es as (h' & Hh' & -> & ->); [|by eapply held_asString|done].
  simpl in Hd. split; [done|]. split; [|split; [done|split; [done|]]].
  - exists exp. split; [done|]. apply find_Some in Hf as [Hk _]. unfold heldBy. rewrite Hd. unfold put. simpl.
    rewrite !lookup_insert_ne by (intros E; by apply (directoryKey_lease_state origin origin)). done.
  - exists h'. unfold stateEntry. rewrite Hd. simpl. by rewrite lookup_insert_eq.
Qed.

Lemma Release_owned w w' r : owned w → Release lease w = (w', Done r) → rs_ms (w_redis w') < D →
  db_keys (rs_db (w_redis w')) !! lk = None ∧ stateEntry w' = stateEntry w
  ∧ rs_ms (w_redis w) ≤ rs_ms (w_redis w').
Proof.
  intros Ho E Ht. unfold Release in E. cbn [leaseKey leaseValue] in E. apply bind_inv in E as (w1 & x & E & Er).
  injection Er as <- <-. apply redis_step in E as (-> & Hd & Hm & Hc).
  destruct (owned_find w _ Ho Ht) as (exp & He & Hf).
  unfold releaseLeaseScript, GETopt, DEL, mbind, Rcmd_bind in Hd.
  rewrite (held_asString _ _ _ _ _ Hf), decide_True in Hd by done. simpl in Hd.
  split; [by rewrite Hd; simpl; rewrite lookup_delete_eq|]. split; [|done].
  unfold stateEntry. rewrite Hd. simpl. apply lookup_delete_ne, directoryKey_lease_state.
Qed.
Lemma record_kept b r d w w' u : whenEnabled b (RecordDirectory r d) w = (w', Done u) → kept w w'.
Proof.
  unfold whenEnabled. destruct b; [|intros [= <- _]; reflexivity]. intros (w1 & x & E & [= <- _])%bind_inv.
  unfold RecordDirectory, increment in E. change (1 <? 1) with false in E. cbv iota in E.
  unfold bindErr in E. apply bind_inv in E as (w2 & y & E & Er).
  assert (w1 = w2) as -> by (by destruct y; injection Er as <- _).
  eapply (touches_kept (λ k, k = OperationalMetricsKey)); [by apply touches_HINCRBY| | |exact E];
    intros Hk; symmetry in Hk; by apply metricsKey_directoryKey in Hk.
Qed.
Lemma netOnly_kept w w' : netOnly w w' → kept w w'.
Proof.
  intros ((Hr & _ & Hc & _) & _). unfold kept, owned, stateEntry. rewrite Hr. repeat split; [tauto|lia|done].
Qed.
End owned.

(** Computations during which Redis's clock does not go back. *)
Section timely.
Context {S : Type} `{RedisLaws S}.
Abbreviation SW := (SchedWorld S).
Definition timelyW (w w' : World S) : Prop := rs_ms (w_redis w) ≤ rs_ms (w_redis w').
Definition timely (w w' : SW) : Prop := timelyW (sw_world w) (sw_world w').
#[export] Instance timelyW_preorder : PreOrder timelyW.
Proof. split; unfold timelyW; [intros w; lia|intros w1 w2 w3; lia]. Qed.
#[export] Instance timely_preorder : PreOrder timely.
Proof. split; unfold timely, timelyW; [intros w; lia|intros w1 w2 w3; lia]. Qed.
Lemma timely_lift {A} (m : M (World S) A) : runs timelyW m → runs timely (lift m).
Proof. intros Hm w. destruct (Hm (sw_world w)) as (w' & a & E & Hq). unfold lift. rewrite E. eexists _, _. done. Qed.
Lemma timely_quietly {A} (m : M SW A) : runs quietly m → runs timely m.
Proof. apply runs_mono. by intros w w' [_ ?]. Qed.
Lemma timely_quietW {A} (m : M (World S) A) : runs quietW m → runs timelyW m.
Proof. apply runs_mono. by intros w w' [_ ?]. Qed.
Lemma timely_netOnly {A} (m : M (World S) A) : runs netOnly m → runs timelyW m.
Proof. apply runs_mono. intros w w' ((Hr & _) & _). unfold timelyW. rewrite Hr. lia. Qed.
Lemma timely_id {A} (m : M (World S) A) a : (∀ w, m w = (w, Done a)) → runs timelyW m.
Proof. intros Hm w. exists w, a. split; [done|reflexivity]. Qed.
Lemma timely_redis_ops : (∀ o, runs timelyW (Load (S := S) o)) ∧ (∀ n b l, runs timelyW (renewLease (S := S) n b l))
  ∧ (∀ o l s, runs timelyW (SaveOwned (S := S) o l s)) ∧ (∀ l, runs timelyW (Release (S := S) l))
  ∧ (∀ o t, runs timelyW (Acquire (S := S) o t)).
Proof.
  repeat split; intros; apply timely_quietW; first [apply quiet_Load|apply quiet_renewLease|apply quiet_SaveOwned
    |apply quiet_Release|apply quiet_Acquire].
Qed.
Lemma timely_scheduler_ops (s : Scheduler S) : (∀ t, runs timely (monotonicNow (S := S) t)) ∧ (∀ r d, runs timely (record s r d))
  ∧ (∀ o l st r, runs timely (finish s o l st r)) ∧ (∀ o l st, runs timely (saveOwned s o l st)).
Proof.
  repeat split; intros; apply timely_quietly; first [apply quiet_monotonicNow|apply quiet_record|apply quiet_finish|apply quiet_saveOwned].
Qed.
Lemma timely_bind_known {A B} (m : M (World S) A) a (f : A → M SW B) :
  (∀ w, m w = (w, Done a)) → runs timely (f a) → runs timely (lift m ≫= f).
Proof.
  intros Hm Hf w. destruct (Hf w) as (w' & b & E & Hq). exists w', b. split; [|done].
  rewrite <- E. unfold mbind, M_bind, lift. rewrite Hm. by destruct w.
Qed.
Lemma quiet_monotonicNow_timely t : runs timely (monotonicNow (S := S) t).
Proof. apply timely_quietly, quiet_monotonicNow. Qed.
Lemma timely_run_le {A} (m : M SW A) w w' a : runs timely m → m w = (w', Done a) →
  rs_ms (w_redis (sw_world w)) ≤ rs_ms (w_redis (sw_world w')).
Proof. intros Hm E. destruct (Hm w) as (w1 & b & E1 & Hq). rewrite E in E1. by injection E1 as -> ->. Qed.
End timely.
Section completes.
Context {S : Type} `{RedisReliable S}.
Abbreviation SW := (SchedWorld S).

Lemma Acquire_free origin (w w' : World S) r : origin ≠ "" →
  (24 ≤ String.length (w_uuid w (w_uuids w)))%nat →
  find (rs_ms (w_redis w)) (rs_db (w_redis w)) (directoryKey origin "lease") = None →
  Acquire origin leaseTTL w = (w', Done r) →
  ∃ v, r = Ok (Some (mkLease (directoryKey origin "lease") v))
  ∧ owned origin v (rs_ms (w_redis w) + 60000) w' ∧ stateEntry origin w' = stateEntry origin w
  ∧ rs_ms (w_redis w) ≤ rs_ms (w_redis w') ∧ w_clock w' = w_clock w.
Proof.
  intros Ho Hu Hf E. unfold Acquire in E. apply eqs_false in Ho. rewrite Ho in E.
  change (leaseTTL <=? 0) with false in E. cbn [orb] in E. change (ttlMs leaseTTL) with 60000 in E.
  set (tok := base64RawURL (take 24 (bytes (w_uuid w (w_uuids w))))).
  assert (Ht : ∃ w1, leaseToken w = (w1, Done (Ok tok)) ∧ w_redis w1 = w_redis w ∧ w_clock w1 = w_clock w).
  { apply Nat.ltb_ge in Hu. unfold leaseToken, randRead, bindErr, uuidNew, mbind, M_bind, mret, M_ret.
    rewrite Hu. eexists. split; [reflexivity|done]. }
  destruct Ht as (w1 & Et & Hr1 & Hc1). erewrite bind_Done in E by exact Et.
  apply bind_inv in E as (w2 & b & E & Er). apply redis_step in E as (-> & Hd & Hm & Hc). rewrite Hr1 in *.
  assert (Hf2 : find (rs_ms (w_redis w2)) (rs_db (w_redis w)) (directoryKey origin "lease") = None).
  { destruct (find (rs_ms (w_redis w2)) _ _) as [e|] eqn:Ef; [|done]. by rewrite (find_mono _ _ _ _ _ Ef Hm) in Hf. }
  unfold SETNX in Hd, Er. rewrite Hf2 in Hd, Er. injection Er as <- <-. simpl in Hd. exists tok.
  split; [done|]. split; [|split; [|split; [done|congruence]]].
  - exists (rs_ms (w_redis w2) + 60000). split; [lia|]. unfold heldBy. rewrite Hd. simpl. by rewrite lookup_insert_eq.
  - unfold stateEntry. rewrite Hd. simpl. apply lookup_insert_ne, directoryKey_lease_state.
Qed.

Lemma due_not_notDue b changed (state : State) (w w' : SW) t now :
  (∀ n, NextAttempt state ≤ truncateSecond (w_clock (sw_world w) n)) →
  monotonicNow t w = (w', Done now) → notDue b changed state now = false.
Proof.
  intros Hd E. apply monotonicNow_inv in E as (_ & _ & _ & Hn & _). unfold notDue, Before.
  specialize (Hd (w_ticks (sw_world w))). destruct (Z.ltb_spec now (NextAttempt state)); [lia|]. apply andb_false_r.
Qed.

(** The state a visit ends with, by the outcome of its remote operation. *)
Definition visitOutcome (s : Scheduler S) (client : SchedClient S) (state : State) (origin : string) (completedAt : Time)
    (r : cresult Response) : State :=
  match r with
  | COk response => applySuccess (relayActor s) client state origin completedAt response
  | CErr e => applyFailure (relayActor s) state origin completedAt e
  end.
Lemma remoteOperation_netOnly actor client state changed : ClientLaws actor client →
  runs netOnly (remoteOperation client state changed).
Proof.
  intros L. pose proof law_register as L1. pose proof law_heartbeat as L2. unfold remoteOperation.
  apply runs_bind; [typeclasses eauto|by case_match|]. intros [r|e]; [case_match; [done|]|]; apply runs_ret; typeclasses eauto.
Qed.
Lemma remoteOperation_answer actor client state changed : ClientLaws actor client →
  yields (λ r, ∃ op v, supported v ∧ soundAnswer actor op v r ∧ op ∈ [OperationRegister; OperationHeartbeat])
    (remoteOperation client state changed).
Proof.
  intros L.
  assert (LR : yields (λ r, ∃ op v, supported v ∧ soundAnswer actor op v r ∧ op ∈ [OperationRegister; OperationHeartbeat])
                 (schedulerRegister client)).
  { intros w w' r E. apply law_register_answer in E as (v & ? & ?). exists OperationRegister, v.
    split; [done|]. split; [done|]. left. }
  assert (LH : yields (λ r, ∃ op v, supported v ∧ soundAnswer actor op v r ∧ op ∈ [OperationRegister; OperationHeartbeat])
                 (schedulerHeartbeat client)).
  { intros w w' r E. apply law_heartbeat_answer in E as (v & ? & ?). exists OperationHeartbeat, v.
    split; [done|]. split; [done|]. right; left. }
  unfold remoteOperation. eapply yields_bind_in; [destruct (Registered state && negb changed); [exact LH|exact LR]|].
  intros [r|e] Hr; [case_match; [done|]|]; by apply yields_ret.
Qed.
Lemma visitOutcome_valid s client state origin t r actor changed w w' : ClientLaws actor client →
  validateState origin state = true → remoteOperation client state changed w = (w', Done r) →
  validateState origin (visitOutcome s client state origin t r) = true.
Proof.
  intros L Hv E. pose proof (remoteOperation_answer actor client state changed L _ _ _ E) as (op & v & Hs & Ha & _).
  destruct r as [r|e]; simpl; [|by apply applyFailure_valid].
  assert (Hop : respOperation r = op) by (by destruct Ha as (_ & ? & _)).
  eapply (applySuccess_valid _ actor); [done|done| |by apply law_digest]. by rewrite Hop.
Qed.

(** A visit whose configuration, state and client are known. *)
Record visitKnown (s : Scheduler S) (entry : Directory) (client : SchedClient S) (state : State) (env : visitEnv)
    (w : SW) (until : Z) : Prop := {
  vk_origin : Origin entry ≠ "";
  vk_enabled : ∀ w, enabled s (Origin entry) w = (w, Done (Ok true));
  vk_client : ∀ w, clients s entry w = (w, Done (Ok client));
  vk_laws : ClientLaws (relayActor s) client;
  vk_context : contextErr env = None;
  (** the stored state, at every time until the end of the visit *)
  vk_state : ∀ t, rs_ms (w_redis (sw_world w)) ≤ t < until →
    ∃ h, asHash t (rs_db (w_redis (sw_world w))) (directoryKey (Origin entry) "state") = Ok h
         ∧ decodeState h = Ok state;
  (** the deadline has passed *)
  vk_due : ∀ n, NextAttempt state ≤ truncateSecond (w_clock (sw_world w) n)
}.

(** The clock bound of a computation that ran. *)
Ltac timely_auto :=
  repeat first
    [ progress cbv beta iota zeta
    | match goal with
      | |- runs timely (record ?s _ _) => apply (timely_scheduler_ops s)
      | |- runs timely (finish ?s _ _ _ _) => apply (timely_scheduler_ops s)
      | |- runs timely (saveOwned ?s _ _ _) => apply (timely_scheduler_ops s)
      | |- runs timely (@mbind _ _ _ _ _ (lift (enabled _ _))) => eapply timely_bind_known; [eassumption|]
      | |- runs timely (@mbind _ _ _ _ _ (lift (clients _ _))) => eapply timely_bind_known; [eassumption|]
      | |- runs timely (lift (remoteOperation _ _ _)) =>
          eapply timely_lift, timely_netOnly, remoteOperation_netOnly; eassumption
      | |- runs timely (lift _) => apply timely_lift, timely_redis_ops
      | |- runs timely (monotonicNow _) => apply quiet_monotonicNow_timely
      end
    | runs_step ].
Ltac timely_run E := eapply timely_run_le; [|exact E]; timely_auto.

Section visit.
Context (s : Scheduler S) (entry : Directory) (client : SchedClient S) (state : State) (env : visitEnv).
Abbreviation o := (Origin entry).
Abbreviation changed := (Registered state && digestChanged state client).

Lemma visitOwned_timely boundary lease :
  (∀ w, enabled s o w = (w, Done (Ok true))) → (∀ w, clients s entry w = (w, Done (Ok client))) →
  ClientLaws (relayActor s) client → runs timely (visitOwned s entry boundary env lease).
Proof. intros Ken Kcl Kl. unfold visitOwned. timely_auto. Qed.

(** The visit under the lease: the remote operation runs and its outcome is saved. *)
Lemma visitOwned_completes v D boundary (w0 w w' : SW) x :
  visitKnown s entry client state env w0 D →
  owned o v D (sw_world w) → stateEntry o (sw_world w) = stateEntry o (sw_world w0) →
  w_clock (sw_world w) = w_clock (sw_world w0) →
  rs_ms (w_redis (sw_world w0)) ≤ rs_ms (w_redis (sw_world w)) →
  D = rs_ms (w_redis (sw_world w0)) + 60000 →
  visitOwned s entry boundary env (mkLease (directoryKey o "lease") v) w = (w', Done x) →
  rs_ms (w_redis (sw_world w')) < D →
  ∃ completedAt r wa wb h t,
    remoteOperation client state changed wa = (wb, Done r) ∧ LastObserved state ≤ completedAt
    ∧ let st := visitOutcome s client state o completedAt r in
      x = (NextAttempt st, None)
      ∧ owned o v D (sw_world w')
      ∧ stateEntry o (sw_world w') = Some (mkEntry (RHash (savedHash h st)) (Some (t + stateRetention / Millisecond)))
      ∧ rs_ms (w_redis (sw_world w0)) ≤ t ≤ rs_ms (w_redis (sw_world w')).
Proof.
  intros K Ho Hse Hck Htm HD E Ht. destruct K as [Ko Ken Kcl Kl Kctx Kst Kdue].
  assert (Hst : ∀ w1 : World S, stateEntry o w1 = stateEntry o (sw_world w0) → ∀ t,
    rs_ms (w_redis (sw_world w0)) ≤ t < D →
    ∃ h, asHash t (rs_db (w_redis w1)) (directoryKey o "state") = Ok h ∧ decodeState h = Ok state).
  { intros w1 Hw1 t Hrange. destruct (Kst t Hrange) as (h & Hh & Hd). exists h. split; [|done]. rewrite <- Hh.
    by apply asHash_ext. }
  unfold visitOwned in E. apply bind_inv in E as (w1 & st & E1 & E).
  apply lift_inv in E1 as [E1 _]. pose proof (Load_kept o v D _ _ _ _ E1) as (O1 & S1 & T1 & C1).
  assert (Tl : rs_ms (w_redis (sw_world w1)) ≤ rs_ms (w_redis (sw_world w'))).
  { timely_run E. }
  assert (st = Ok state) as ->.
  { eapply Load_value; [exact Ko|exact E1|]. intros t Htt. apply (Hst _ Hse). lia. }
  apply bind_inv in E as (w2 & now & E2 & E). pose proof E2 as E2'.
  apply monotonicNow_inv in E2 as (_ & _ & _ & _ & R2 & C2 & _).
  cbv zeta in E. apply bind_inv in E as (w3 & en & E3 & E). apply lift_inv in E3 as [E3 _]. rewrite Ken in E3.
  injection E3 as R3 <-. apply bind_inv in E as (w4 & cl & E4 & E). apply lift_inv in E4 as [E4 _]. rewrite Kcl in E4.
  injection E4 as R4 <-. rewrite (due_not_notDue _ _ _ w1 w2 (LastObserved state) now) in E; [|by rewrite C1, Hck|exact E2'].
  apply bind_inv in E as (w5 & r & E5 & E). apply lift_inv in E5 as [E5 _].
  pose proof (remoteOperation_netOnly _ client state changed Kl (sw_world w4)) as (w5' & r' & E5' & N5).
  rewrite E5 in E5'. injection E5' as <- <-. apply (netOnly_kept o v D) in N5 as (O5 & S5 & T5 & C5).
  assert (O4 : owned o v D (sw_world w4)).
  { rewrite <- R4, <- R3. unfold owned. rewrite R2. by apply O1. }
  assert (S4 : stateEntry o (sw_world w4) = stateEntry o (sw_world w0)).
  { rewrite <- R4, <- R3. unfold stateEntry at 1. rewrite R2. fold (stateEntry o (sw_world w1)). congruence. }
  assert (T4 : rs_ms (w_redis (sw_world w4)) = rs_ms (w_redis (sw_world w1))) by (rewrite <- R4, <- R3; by rewrite R2).
  apply bind_inv in E as (w6 & lost & E6 & E). apply lift_inv in E6 as [E6 _].
  assert (T6 : rs_ms (w_redis (sw_world w6)) ≤ rs_ms (w_redis (sw_world w'))) by timely_run E.
  destruct (renewLease_owned o v D _ _ _ _ _ (O5 O4) E6 ltac:(lia) ltac:(lia)) as (-> & (_ & S6 & T6' & C6) & O6).
  rewrite Kctx in E. apply bind_inv in E as (w7 & completedAt & E7 & E).
  apply monotonicNow_inv in E7 as (Hc7 & _ & _ & _ & R7 & C7 & _).
  exists completedAt, r, (sw_world w4), (sw_world w5).
  assert (Hfin : ∃ res, finish s o (mkLease (directoryKey o "lease") v) (visitOutcome s client state o completedAt r) res w7
                        = (w', Done x)) by (destruct r; eexists; exact E).
  destruct Hfin as [res Hfin]. clear E.
  assert (Hvalid : validateState o state = true).
  { destruct (Kst (rs_ms (w_redis (sw_world w0)))) as (h & _ & Hd); [idtac; lia|]. by eapply decodeState_valid. }
  pose proof (visitOutcome_valid s client state o completedAt r _ _ _ _ Kl Hvalid E5) as Hv.
  set (st := visitOutcome s client state o completedAt r) in *.
  assert (O7 : owned o v D (sw_world w7)) by (unfold owned; by rewrite R7).
  assert (S7 : stateEntry o (sw_world w7) = stateEntry o (sw_world w0)).
  { unfold stateEntry at 1. rewrite R7. fold (stateEntry o (sw_world w6)). congruence. }
  unfold finish, saveOwned in Hfin. apply bind_inv in Hfin as (w8 & sv & E8 & Hfin).
  apply bind_inv in E8 as (w9 & ow & E9 & E8).
  assert (T79 : rs_ms (w_redis (sw_world w7)) ≤ rs_ms (w_redis (sw_world w9))) by timely_run E9.
  rewrite R7 in T79. apply lift_inv in E9 as [E9 _].
  assert (T9 : rs_ms (w_redis (sw_world w9)) ≤ rs_ms (w_redis (sw_world w8))) by timely_run E8.
  assert (T8 : rs_ms (w_redis (sw_world w8)) ≤ rs_ms (w_redis (sw_world w'))) by timely_run Hfin.
  destruct (SaveOwned_owned o v D _ _ _ st O7 Hv E9) as (-> & O9 & T9' & C9 & h & S9); [lia| |].
  { destruct (Hst (sw_world w7) S7 (rs_ms (w_redis (sw_world w9)))) as (h & Hh & _); [lia|by exists h]. }
  injection E8 as <- <-. apply bind_inv in Hfin as (w10 & u & E10 & Hfin). injection Hfin as <- <-.
  apply lift_inv in E10 as [E10 _]. apply (record_kept o v D) in E10 as (O10 & S10 & T10 & _).
  exists h, (rs_ms (w_redis (sw_world w9))). split; [done|]. split; [done|]. split; [done|].
  split; [by apply O10|]. split; [congruence|]. lia.
Qed.

Lemma Load_reads (w w' : World S) r : Load o w = (w', Done r) →
  rs_db (w_redis w') = rs_db (w_redis w) ∧ w_clock w' = w_clock w ∧ w_uuid w' = w_uuid w ∧ w_uuids w' = w_uuids w.
Proof.
  unfold Load. destruct (eqs o ""); [by intros [= <- _]|]. intros (w1 & y & E & [= <- _])%bind_inv.
  pose proof E as E'. apply redis_step in E' as (_ & Hd & _ & Hc). rewrite HGETALL_readOnly in Hd.
  unfold redis in E. injection E as <- _. by repeat split.
Qed.
Lemma owned_weaken v D D' (w : World S) : D ≤ D' → owned o v D' w → owned o v D w.
Proof. intros HD (exp & He & Hh). exists exp. split; [lia|done]. Qed.
Lemma preview_value (w w' : SW) b :
  (∀ w, clients s entry w = (w, Done (Ok client))) →
  (if Registered state then
     preview ← lift (clients s entry);
     mret (match preview with Ok client => digestChanged state client | Err _ => false end)
   else mret false) w = (w', Done b) → sw_world w' = sw_world w ∧ b = changed.
Proof.
  intros Hc. destruct (Registered state); [|by intros [= <- <-]]. intros (w1 & p & E & [= <- <-])%bind_inv.
  apply lift_inv in E as [E _]. rewrite Hc in E. injection E as E <-. done.
Qed.

(** C12: A due directory is served.  When the directory is enabled, its deadline has passed,
    its lease is free and Redis answers, a visit that is over before a lease would run out
    contacts the directory, reports no error, leaves the state that the outcome of the remote
    operation asks for (success or failure) stored with its retention, returns that state's
    next attempt, and leaves the lease free for the next process. *)
Theorem due_visit_completes boundary (w w' : SW) x :
  let start := rs_ms (w_redis (sw_world w)) in
  visitKnown s entry client state env w (start + 60000) →
  (24 ≤ String.length (w_uuid (sw_world w) (w_uuids (sw_world w))))%nat →
  find start (rs_db (w_redis (sw_world w))) (directoryKey o "lease") = None →
  runDirectory s entry boundary env w = (w', Done x) →
  rs_ms (w_redis (sw_world w')) < start + 60000 →
  ∃ completedAt r wa wb h t,
    remoteOperation client state changed wa = (wb, Done r) ∧ LastObserved state ≤ completedAt
    ∧ let st := visitOutcome s client state o completedAt r in
      x = (NextAttempt st, None)
      ∧ stateEntry o (sw_world w') = Some (mkEntry (RHash (savedHash h st)) (Some (t + stateRetention / Millisecond)))
      ∧ start ≤ t ≤ rs_ms (w_redis (sw_world w'))
      ∧ db_keys (rs_db (w_redis (sw_world w'))) !! directoryKey o "lease" = None.
Proof.
  intros start K Hu Hf E Ht. pose proof K as [Ko Ken Kcl Kl Kctx Kst Kdue]. unfold runDirectory in E.
  apply bind_inv in E as (w1 & en & E1 & E). apply lift_inv in E1 as [E1 _]. rewrite Ken in E1. injection E1 as R1 <-.
  apply bind_inv in E as (w2 & st & E2 & E). apply lift_inv in E2 as [E2 _].
  pose proof (Load_kept o "" 0 _ _ _ _ E2) as (_ & _ & T2 & _).
  pose proof (visitOwned_timely boundary) as Hvt.
  assert (Ts : rs_ms (w_redis (sw_world w2)) ≤ rs_ms (w_redis (sw_world w'))).
  { timely_run E. all: first [by apply Hvt|idtac]. }
  rewrite <- R1 in *. fold start in T2.
  assert (st = Ok state) as ->.
  { eapply Load_value; [exact Ko|exact E2|]. intros t Htt. apply Kst. fold start in Htt |- *. lia. }
  apply Load_reads in E2 as (D2 & C2 & U2 & V2).
  apply bind_inv in E as (w3 & now & E3 & E). pose proof E3 as E3'.
  apply monotonicNow_inv in E3 as (_ & _ & _ & _ & R3 & C3 & U3 & V3).
  cbv zeta in E. apply bind_inv in E as (w4 & ch & E4 & E). apply preview_value in E4 as [R4 ->]; [|done].
  rewrite (due_not_notDue _ _ _ w2 w3 (LastObserved state) now) in E; [|by rewrite C2|exact E3'].
  apply bind_inv in E as (w5 & l & E5 & E). apply lift_inv in E5 as [E5 _]. rewrite R4 in E5.
  apply Acquire_free in E5 as (v & -> & O5 & S5 & T5 & C5); [|exact Ko|rewrite U3, V3, U2, V2; exact Hu|].
  2: { rewrite R3, D2. destruct (find (rs_ms (w_redis (sw_world w2))) _ _) as [e|] eqn:Ef; [|done].
       by rewrite (find_mono _ _ _ _ _ Ef T2) in Hf. }
  rewrite R3 in O5, T5.
  apply bind_inv in E as (w6 & y & E6 & E). apply bind_inv in E as (w7 & z & E7 & E). injection E as <- <-.
  apply lift_inv in E7 as [E7 _].
  assert (T67 : rs_ms (w_redis (sw_world w6)) ≤ rs_ms (w_redis (sw_world w7))).
  { destruct (timely_redis_ops) as (_ & _ & _ & Hrel & _).
    destruct (Hrel (mkLease (directoryKey o "lease") v) (sw_world w6)) as (wr & ar & Er & Hle). rewrite E7 in Er.
    by injection Er as <- _. }
  eapply visitOwned_completes in E6 as (completedAt & r & wa & wb & h & t & Hop & Hlo & Hx & O6 & S6 & Ht6);
    [|exact K|eapply owned_weaken; [|exact O5]; fold start; lia| |congruence|fold start; lia|done|lia].
  2: { rewrite S5. unfold stateEntry. by rewrite R3, D2. }
  apply (Release_owned o v (start + 60000)) in E7 as (Hl7 & S7 & _); [|exact O6|exact Ht].
  exists completedAt, r, wa, wb, h, t. split; [done|]. split; [done|]. split; [done|].
  split; [congruence|]. split; [fold start in Ht6; lia|done].
Qed.
End visit.
End completes.

(** ** Examples *)

Definition demoEntry : Directory := mkDirectory "https://directory.example" true.
(** A directory that answers a status request and then a registration. *)
Definition registerNet (n : nat) (r : httpRequest) : result httpResponse :=
  match n with 0%nat => demoNet 0 r | _ => demoNet 2 r end.
Definition schedulerWorld : SchedWorld Calm :=
  mkSW (withNet registerNet (quietWorld (mkCalm 1000 emptyDb) (zeroRelayState false))) zeroTime.
Definition demoScheduler : Scheduler Calm :=
  mkScheduler demoActor [demoEntry] (λ _, mret (Ok true))
    (λ _, mret (match demoClient with Ok c => Ok (asSchedClient demoLib c) | Err e => Err e end)) false.
Definition demoEnv : visitEnv := mkVisitEnv 2 true None.
Definition demoVisit : SchedWorld Calm * outcome (Time * option error) :=
  runDirectory demoScheduler demoEntry zeroTime demoEnv schedulerWorld.

Lemma failure_backoff_is_bounded_witness :
  let s := applyFailure demoActor zeroState "https://directory.example" (1700000000 * Second)
             (ProtocolError 429 ErrorRateLimited (2 * Hour)) in
  LastOutcome s = "retrying" ∧ NextAttempt s = (1700000000 + 7200) * Second ∧ 1 ≤ Attempt s.
Proof.
  intros s. split; [reflexivity|]. split; [vm_compute; reflexivity|].
  destruct (failure_backoff_is_bounded demoActor zeroState "https://directory.example" (1700000000 * Second)
              (ProtocolError 429 ErrorRateLimited (2 * Hour))) as (_ & _ & H & _).
  - split; [reflexivity|]. split; [reflexivity|]. split; vm_compute; discriminate.
  - split; vm_compute; discriminate.
  - reflexivity.
  - apply H. reflexivity.
Defined.

Lemma sleeps_are_bounded_witness :
  match Run demoScheduler [λ _, demoEnv; λ _, demoEnv] schedulerWorld with
  | (_, Done sleeps) => Forall (λ d, minimumSchedulerSleep ≤ d ≤ SchedulerPollInterval) sleeps
  | (_, Panic _) => False
  end.
Proof.
  destruct (Run demoScheduler [λ _, demoEnv; λ _, demoEnv] schedulerWorld) as [w' o] eqn:E.
  destruct o as [sleeps|m].
  - exact (proj2 (sleeps_are_bounded demoScheduler _ _ _ _ E)).
  - assert (Ho : match (Run demoScheduler [λ _, demoEnv; λ _, demoEnv] schedulerWorld).2 with Done _ => true | Panic _ => false end = true)
      by (vm_compute; reflexivity).
    rewrite E in Ho. discriminate Ho.
Defined.

Lemma contact_needs_lease_and_flag_witness :
  length (w_sentRequests (sw_world demoVisit.1)) = 2%nat
  ∧ ∃ lease we client state w4 w5 r wf u,
    w_sentRequests (sw_world w4) = []
    ∧ leaseStands (Origin demoEntry) lease (rs_ms (w_redis (sw_world we)) + ttlMs leaseTTL) (sw_world w4)
    ∧ lift (remoteOperation client state (Registered state && digestChanged state client)) w4 = (w5, Done r)
    ∧ length (w_sentRequests (sw_world w5)) = 2%nat
    ∧ lift (Release lease) wf = (demoVisit.1, Done u).
Proof.
  assert (Hl : length (w_sentRequests (sw_world demoVisit.1)) = 2%nat) by (vm_compute; reflexivity).
  split; [exact Hl|]. destruct demoVisit as [w' o] eqn:E. cbn [fst] in *.
  destruct o as [x|m].
  2: { assert (Ho : match demoVisit.2 with Done _ => true | Panic _ => false end = true) by (vm_compute; reflexivity).
       rewrite E in Ho. discriminate Ho. }
  destruct (contact_needs_lease_and_flag demoScheduler demoEntry zeroTime demoEnv schedulerWorld w' x)
    as (wa & state0 & wb & now0 & wc & changed & wd & lease & we & state & w1 & now & w2 & w3 & client & w4 & w5 & r & wf & u
        & _ & _ & _ & _ & _ & _ & _ & _ & _ & Hs & Hlease & Hr & Hsent & _ & Hrel).
  - split; apply runs_ret; typeclasses eauto.
  - exact E.
  - intros Hs. rewrite Hs in Hl. discriminate Hl.
  - exists lease, we, client, state, w4, w5, r, wf, u. rewrite <- Hsent. repeat (split; [assumption|]). assumption.
Defined.

Lemma due_visit_completes_witness :
  match demoVisit with
  | (w', Done x) =>
      x.2 = None ∧ db_keys (rs_db (w_redis (sw_world w'))) !! directoryKey (Origin demoEntry) "lease" = None
      ∧ ∃ e, stateEntry (Origin demoEntry) (sw_world w') = Some e
  | (_, Panic _) => False
  end.
Proof.
  destruct demoVisit as [w' o] eqn:E. destruct o as [x|m].
  2: { assert (Ho : match demoVisit.2 with Done _ => true | Panic _ => false end = true) by (vm_compute; reflexivity).
       rewrite E in Ho. discriminate Ho. }
  destruct demoClient as [c|e] eqn:Ec; [|vm_compute in Ec; discriminate Ec].
  assert (Hc : c = match demoClient with Ok c => c | Err _ => c end) by (rewrite Ec; reflexivity).
  destruct (due_visit_completes demoScheduler demoEntry (asSchedClient demoLib c) zeroState demoEnv zeroTime schedulerWorld w' x)
    as (completedAt & r & wa & wb & h & t & _ & _ & Hx & Hs & _ & Hk).
  - split.
    + discriminate.
    + reflexivity.
    + intros w. cbn [clients demoScheduler]. rewrite Ec. reflexivity.
    + assert (Ha : relayActor demoScheduler = clRelayActor c) by (rewrite Hc; vm_compute; reflexivity).
      rewrite Ha. apply directoryClient_laws. rewrite Hc.
      assert (Hq : quietTelemetry match demoClient with Ok c => c | Err _ => c end) by (apply runs_ret; typeclasses eauto).
      exact Hq.
    + reflexivity.
    + intros t _. exists ∅. split; reflexivity.
    + intros n. cbn. unfold truncateSecond.
      rewrite Z.div_mul by (vm_compute; discriminate). change (NextAttempt zeroState) with zeroTime. unfold zeroTime, Second. lia.
  - vm_compute. repeat constructor.
  - reflexivity.
  - exact E.
  - assert (Hr : rs_ms (w_redis (sw_world demoVisit.1)) = 1008) by (vm_compute; reflexivity).
    rewrite E in Hr. cbn [fst] in Hr. rewrite Hr. vm_compute. reflexivity.
  - rewrite Hx. split; [reflexivity|]. split; [exact Hk|]. eexists. exact Hs.
Defined.
