(* ===== verification/FileSystem.v ===== *)
(** * The file system

    What the configuration files need of the operating system and of Go's os and
    path/filepath packages.  A file is an inode; a name is a directory and a last
    component.  The model keeps what survives a crash apart from what a running
    process sees: a body is durable once its file was synced, and a name that was
    linked, replaced or removed since its directory was last synced may be found
    after a crash as it was, or as any later call left it ([possible]).

    Every call is numbered.  Before it, other processes may change the file system
    ([fw_others]); it may fail ([fw_fails], for a write after some bytes); and the
    state it leaves is logged, so that a property of [fw_log] is a property of every
    instant at which the process or the machine may stop. *)

From S2P Require Import Prelude GoStrings World.

Inductive fileKind := RegularFile | SymbolicLink | OtherFile.
#[export] Instance fileKind_eq_dec : EqDecision fileKind.
Proof. solve_decision. Defined.

Record inode := mkInode {
  i_kind : fileKind; i_mode : Z; i_uid : Z; i_gid : Z;
  i_body : string;              (** for a symbolic link, its target *)
  i_durable : option string }.  (** the body a crash leaves; [None]: unknown *)
Abbreviation name := (string * string)%type.
Record Fs := mkFs {
  fs_inodes : gmap nat inode;
  fs_dir : gmap name nat;
  fs_durable : gmap name nat;
  fs_pending : list (name * option nat);
  fs_locks : gset nat }.

Record FsWorld := mkFsWorld {
  fw_fs : Fs; fw_calls : nat;
  fw_others : nat → Fs → Fs;
  fw_fails : nat → option nat;
  fw_random : nat → Z;
  fw_getenv : string → string;
  fw_log : list Fs }.
Abbreviation Mf := (M FsWorld).

(** ** Paths (path/filepath on a Unix system) *)

Definition slash : ascii := "/"%char.
Fixpoint cleanParts (rooted : bool) (stack : list string) (parts : list string) : list string :=
  match parts with
  | [] => rev stack
  | part :: parts =>
      if oneOf part [""; "."] then cleanParts rooted stack parts
      else if part =s ".." then
        match stack with
        | top :: stack' => if top =s ".." then cleanParts rooted (".." :: stack) parts else cleanParts rooted stack' parts
        | [] => cleanParts rooted (if rooted then [] else [".."]) parts
        end
      else cleanParts rooted (part :: stack) parts
  end.
Definition filepath_Clean (path : string) : string :=
  let rooted := HasPrefix path "/" in
  let cleaned := Join (cleanParts rooted [] (Split path slash)) "/" in
  if rooted then "/" +:+ cleaned else if cleaned =s "" then "." else cleaned.
(** Everything up to the last slash, and what follows it. *)
Definition pathPrefix (path : string) : string :=
  match cutLast path slash with Some (before, _) => before +:+ "/" | None => "" end.
Definition lastComponent (path : string) : string :=
  match cutLast path slash with Some (_, after) => after | None => path end.
Definition filepath_Dir (path : string) : string := filepath_Clean (pathPrefix path).
Definition filepath_Base (path : string) : string :=
  if path =s "" then "."
  else let stripped := TrimRightByte path slash in
       if stripped =s "" then "/" else lastComponent stripped.
(** The name a path stands for. *)
Definition resolve (path : string) : name := (filepath_Dir path, lastComponent path).

(** ** Calls *)

Definition errNotExist : error := errorSentinel "os.ErrNotExist" "no such file or directory".
Definition errExist : error := errorSentinel "os.ErrExist" "file exists".
Definition errIO : error := errorsNew "input/output error".
Definition errLoop : error := errorsNew "too many levels of symbolic links".

Definition syscallP {A} (partial : nat → Fs → Fs) (op : Fs → Fs * result A) : Mf (result A) := λ w,
  let fs := fw_others w (fw_calls w) (fw_fs w) in
  let '(fs', r) := match fw_fails w (fw_calls w) with Some k => (partial k fs, Err errIO) | None => op fs end in
  (mkFsWorld fs' (Datatypes.S (fw_calls w)) (fw_others w) (fw_fails w) (fw_random w) (fw_getenv w) (fw_log w ++ [fs']),
   Done r).
Definition syscall {A} : (Fs → Fs * result A) → Mf (result A) := syscallP (λ _ fs, fs).
Definition os_Getenv (key : string) : Mf string := λ w, (w, Done (fw_getenv w key)).

Record FileInfo := mkFileInfo { fi_inode : nat; fi_kind : fileKind; fi_mode : Z; fi_uid : Z; fi_gid : Z; fi_size : Z }.
Definition inodeInfo (n : nat) (i : inode) : FileInfo :=
  mkFileInfo n (i_kind i) (i_mode i) (i_uid i) (i_gid i) (len (i_body i)).
Definition IsRegular (info : FileInfo) : bool := bool_decide (fi_kind info = RegularFile).
Definition SameFile (a b : FileInfo) : bool := (fi_inode a =? fi_inode b)%nat.

Definition setInodes (m : gmap nat inode) (fs : Fs) : Fs :=
  mkFs m (fs_dir fs) (fs_durable fs) (fs_pending fs) (fs_locks fs).
Definition setLocks (l : gset nat) (fs : Fs) : Fs :=
  mkFs (fs_inodes fs) (fs_dir fs) (fs_durable fs) (fs_pending fs) l.
Definition link (k : name) (v : option nat) (fs : Fs) : Fs :=
  mkFs (fs_inodes fs) (match v with Some n => <[k := n]> (fs_dir fs) | None => delete k (fs_dir fs) end)
    (fs_durable fs) (fs_pending fs ++ [(k, v)]) (fs_locks fs).

Definition lookupName (fs : Fs) (k : name) : result (nat * inode) :=
  match fs_dir fs !! k with
  | None => Err errNotExist
  | Some n => match fs_inodes fs !! n with Some i => Ok (n, i) | None => Err errNotExist end
  end.
Definition os_Lstat (path : string) : Mf (result FileInfo) :=
  syscall (λ fs, (fs, '(n, i) ← lookupName fs (resolve path); Ok (inodeInfo n i))).
(** [unix.Open] with O_RDONLY and O_NOFOLLOW: a descriptor of the inode. *)
Definition openNoFollow (path : string) : Mf (result nat) :=
  syscall (λ fs, (fs, '(n, i) ← lookupName fs (resolve path);
                      if decide (i_kind i = SymbolicLink) then Err errLoop else Ok n)).
Definition file_Stat (n : nat) : Mf (result FileInfo) :=
  syscall (λ fs, (fs, match fs_inodes fs !! n with Some i => Ok (inodeInfo n i) | None => Err errIO end)).
Definition flockExclusive (n : nat) : Mf (result unit) := syscall (λ fs, (setLocks ({[n]} ∪ fs_locks fs) fs, Ok tt)).
Definition flockUnlock (n : nat) : Mf (result unit) := syscall (λ fs, (setLocks (fs_locks fs ∖ {[n]}) fs, Ok tt)).
(** [io.ReadAll(io.LimitReader(file, limit))] from the start of the file. *)
Definition readAllLimit (limit : Z) (n : nat) : Mf (result string) :=
  syscall (λ fs, (fs, match fs_inodes fs !! n with
                      | Some i => Ok (ofBytes (take (Z.to_nat limit) (bytes (i_body i))))
                      | None => Err errIO end)).
(** [os.ReadFile], which follows symbolic links. *)
Fixpoint followLinks (fuel : nat) (fs : Fs) (path : string) : result inode :=
  match fuel with
  | O => Err errLoop
  | Datatypes.S fuel =>
      '(_, i) ← lookupName fs (resolve path);
      if decide (i_kind i = SymbolicLink) then
        followLinks fuel fs (if HasPrefix (i_body i) "/" then i_body i else filepath_Dir path +:+ "/" +:+ i_body i)
      else Ok i
  end.
Definition os_ReadFile (path : string) : Mf (result string) :=
  syscall (λ fs, (fs, i ← followLinks 41 fs path; if decide (i_kind i = RegularFile) then Ok (i_body i) else Err errIO)).

(** [os.CreateTemp(dir, prefix)]: an empty file under a name that did not exist. *)
Definition tempName (dir prefix : string) (r : Z) : name := (dir, prefix +:+ itoa r).
Definition os_CreateTemp (dir prefix : string) : Mf (result (name * nat)) := λ w,
  let k := tempName dir prefix (fw_random w (fw_calls w)) in
  syscall (λ fs, match fs_dir fs !! k with
                 | Some _ => (fs, Err errExist)
                 | None =>
                     let n := fresh (dom (fs_inodes fs) ∪ map_img (fs_dir fs) ∪ map_img (fs_durable fs)
                                     ∪ list_to_set (omap snd (fs_pending fs))) in
                     (link k (Some n) (setInodes (<[n := mkInode RegularFile 384 0 0 "" None]> (fs_inodes fs)) fs),
                      Ok (k, n))
                 end) w.
Definition updInode (n : nat) (f : inode → inode) (fs : Fs) : Fs := setInodes (alter f n (fs_inodes fs)) fs.
Definition setBody (body : string) (i : inode) : inode :=
  mkInode (i_kind i) (i_mode i) (i_uid i) (i_gid i) body None.
(** [io.Copy(file, bytes.NewReader(body))] into an empty file. *)
Definition writeAll (n : nat) (body : string) : Mf (result unit) :=
  syscallP (λ k, updInode n (setBody (ofBytes (take k (bytes body))))) (λ fs, (updInode n (setBody body) fs, Ok tt)).
Definition file_Chown (n : nat) (uid gid : Z) : Mf (result unit) :=
  syscall (λ fs, (updInode n (λ i, mkInode (i_kind i) (i_mode i) uid gid (i_body i) (i_durable i)) fs, Ok tt)).
Definition file_Chmod (n : nat) (mode : Z) : Mf (result unit) :=
  syscall (λ fs, (updInode n (λ i, mkInode (i_kind i) mode (i_uid i) (i_gid i) (i_body i) (i_durable i)) fs, Ok tt)).
Definition file_Sync (n : nat) : Mf (result unit) :=
  syscall (λ fs, (updInode n (λ i, mkInode (i_kind i) (i_mode i) (i_uid i) (i_gid i) (i_body i) (Some (i_body i))) fs, Ok tt)).
Definition file_Close : Mf (result unit) := syscall (λ fs, (fs, Ok tt)).
Definition os_Remove (k : name) : Mf (result unit) :=
  syscall (λ fs, match fs_dir fs !! k with None => (fs, Err errNotExist) | Some _ => (link k None fs, Ok tt) end).
Definition os_Rename (from to : name) : Mf (result unit) :=
  syscall (λ fs, match fs_dir fs !! from with
                 | None => (fs, Err errNotExist)
                 | Some n => (link from None (link to (Some n) fs), Ok tt)
                 end).
(** Opening a directory and syncing it: the names in it are durable as they are. *)
Definition syncedNames (dir : string) (fs : Fs) : Fs :=
  mkFs (fs_inodes fs) (fs_dir fs)
    (filter (λ kv, kv.1.1 = dir) (fs_dir fs) ∪ filter (λ kv, kv.1.1 ≠ dir) (fs_durable fs))
    (filter (λ kv, kv.1.1 ≠ dir) (fs_pending fs)) (fs_locks fs).
Definition os_OpenDir (dir : string) : Mf (result unit) := syscall (λ fs, (fs, Ok tt)).
Definition dir_Sync (dir : string) : Mf (result unit) := syscall (λ fs, (syncedNames dir fs, Ok tt)).

(** ** What may be found *)

(** The inodes that a name may stand for: now, or after a crash. *)
Definition possible (fs : Fs) (k : name) (v : option nat) : Prop :=
  v = fs_dir fs !! k ∨ v = fs_durable fs !! k ∨ (k, v) ∈ fs_pending fs.
Definition durableBody (fs : Fs) (n : nat) : option string := fs_inodes fs !! n ≫= i_durable.
(** A directory that may be found: each name as one of its possibilities. *)
Definition mayFind (fs : Fs) (d : name → option nat) : Prop := ∀ k, possible fs k (d k).
