(* ===== verification/DirectoryConfig.v ===== *)
(** * The directory configuration (internal/directoryconfig/config.go, profile.go)

    The YAML library is a parameter ([YamlLib]): the documents of a stream, the
    document of a value, the boolean of a scalar, the text of a document.  A parsed
    document is a tree of [Node]s with the fields the code reads.  The private key is
    read from the file system; the PEM and PKCS#1 decoders are parameters. *)

From S2P Require Import Prelude GoStrings GoUrl World FileSystem DirectoryOrigin DirectoryProfile.

Inductive NodeKind := DocumentNode | SequenceNode | MappingNode | ScalarNode | AliasNode.
#[export] Instance NodeKind_eq_dec : EqDecision NodeKind.
Proof. solve_decision. Defined.
(** [yaml.Node]. *)
Inductive Node := mkNode (kind : NodeKind) (tag value anchor : string) (line : Z) (content : list Node).
Definition Kind (n : Node) : NodeKind := let (k, _, _, _, _, _) := n in k.
Definition Tag (n : Node) : string := let (_, t, _, _, _, _) := n in t.
Definition Value (n : Node) : string := let (_, _, v, _, _, _) := n in v.
Definition Anchor (n : Node) : string := let (_, _, _, a, _, _) := n in a.
Definition Line (n : Node) : Z := let (_, _, _, _, l, _) := n in l.
Definition Content (n : Node) : list Node := let (_, _, _, _, _, c) := n in c.
Definition isKind (k : NodeKind) (n : Node) : bool := bool_decide (Kind n = k).
Definition isScalar (tag : string) (n : Node) : bool := isKind ScalarNode n && (Tag n =s tag).

Record YamlLib := mkYamlLib {
  (** the results of [decoder.Decode] until it reports the end *)
  yamlDocuments : string → list (result Node);
  yamlUnmarshal : string → result Node;
  nodeBool : Node → result bool;
  (** [encoder.Encode] with an indent of 2, and [encoder.Close] *)
  yamlEncode : Node → result string }.
Record KeyLib (PrivateKey : Type) := mkKeyLib {
  pemDecode : string → option string;
  parsePKCS1PrivateKey : string → result PrivateKey }.
Arguments pemDecode {PrivateKey}.
Arguments parsePKCS1PrivateKey {PrivateKey}.

Definition maximumConfigBytes : Z := 1024 * 1024.
Definition ErrConfiguration : error := errorSentinel "ErrConfiguration" "directory command configuration is invalid".
Definition ErrNotFound : error := errorSentinel "ErrNotFound" "directory entry was not found".

(** ** YAML trees *)

(** The keys of a mapping: scalars, each with a value, none repeated. *)
Fixpoint mappingKeysValid (seen : list string) (content : list Node) : bool :=
  match content with
  | [] => true
  | [_] => false
  | key :: _ :: rest =>
      isKind ScalarNode key && negb (oneOf (Value key) seen) && mappingKeysValid (Value key :: seen) rest
  end.
(** Whether [validateNode] returns nil; its only error is [ErrConfiguration]. *)
Fixpoint validateNode (node : Node) : bool :=
  match node with
  | mkNode kind _ _ anchor _ content =>
      negb (bool_decide (kind = AliasNode)) && (anchor =s "")
      && (if decide (kind = MappingNode) then mappingKeysValid [] content else true)
      && forallb validateNode content
  end.

Fixpoint pairValue (content : list Node) (name : string) : option Node :=
  match content with
  | key :: value :: rest => if Value key =s name then Some value else pairValue rest name
  | _ => None
  end.
Definition mappingValue (mapping : Node) (name : string) : option Node :=
  if isKind MappingNode mapping then pairValue (Content mapping) name else None.

Definition scalarSetting (root : Node) (name : string) : option string :=
  match mappingValue root name with
  | Some node =>
      if isScalar "!!str" node && negb (Value node =s "") && (TrimSpace (Value node) =s Value node)
      then Some (Value node) else None
  | None => None
  end.

Section config.
Context {PrivateKey : Type} (yaml : YamlLib) (keys : KeyLib PrivateKey) (ParseAddress : string → result string).

Definition boolSetting (root : Node) (name : string) : result bool :=
  match mappingValue root name with
  | None => Ok false
  | Some node =>
      if negb (isScalar "!!bool" node) then Err ErrConfiguration
      else match nodeBool yaml node with Ok value => Ok value | Err _ => Err ErrConfiguration end
  end.

(** An element of DIRECTORIES. *)
Definition directoryItem (item : Node) : result Directory :=
  if negb (isKind MappingNode item) then Err ErrConfiguration
  else match mappingValue item "origin" with
  | None => Err ErrConfiguration
  | Some origin =>
      if negb (isScalar "!!str" origin) then Err ErrConfiguration
      else match mappingValue item "enabled" with
      | None => Ok (mkDirectory (Value origin) false)
      | Some enabledNode =>
          if negb (isScalar "!!bool" enabledNode) then Err ErrConfiguration
          else match nodeBool yaml enabledNode with
               | Err _ => Err ErrConfiguration
               | Ok enabled => Ok (mkDirectory (Value origin) enabled)
               end
      end
  end.
Fixpoint directoryItems (items : list Node) : result (list Directory) :=
  match items with
  | [] => Ok []
  | item :: items => entry ← directoryItem item; rest ← directoryItems items; Ok (entry :: rest)
  end.
Definition parseDirectorySequence (node : Node) : result (list Directory) :=
  if negb (isKind SequenceNode node) then Err ErrConfiguration
  else
    entries ← directoryItems (Content node);
    match ParseDirectories entries with
    | Ok parsed => Ok parsed
    | Err _ => Err (mkError (err_text ErrConfiguration +:+ ": DIRECTORIES") (err_is ErrConfiguration))
    end.
Definition directoriesSetting (root : Node) : result (list Directory) :=
  match mappingValue root "DIRECTORIES" with None => Ok [] | Some node => parseDirectorySequence node end.

(** The single document of a value from the environment. *)
Definition environmentDocument (value : string) : result Node :=
  match yamlUnmarshal yaml value with
  | Ok (mkNode _ _ _ _ _ [root]) => if validateNode root then Ok root else Err ErrConfiguration
  | _ => Err ErrConfiguration
  end.
Definition parseEnvironmentDirectories (value : string) : result (list Directory) :=
  if value =s "" then Ok [] else root ← environmentDocument value; parseDirectorySequence root.

Definition decodeYAML (body : string) : result Node :=
  match yamlDocuments yaml body with
  | Ok (mkNode _ _ _ _ _ [root]) :: rest =>
      if negb (isKind MappingNode root) then Err ErrConfiguration
      else match rest with
           | _ :: _ => Err ErrConfiguration
           | [] => if validateNode root then Ok root else Err ErrConfiguration
           end
  | _ => Err ErrConfiguration
  end.

(** ** The profile (profile.go) *)

Definition profileKeys : list string :=
  ["participation_mode"; "availability"; "relay_type"; "languages"; "countries"; "regions"; "topics";
   "contact_fediverse"; "contact_email"; "contact_url"; "participation_url"; "notes"].
Record Warning := mkWarning { wLine : Z; wField : string; wMessage : string }.
Definition Warning_String (warning : Warning) : string :=
  let prefix := if wField warning =s "" then "DIRECTORY_PROFILE" else "DIRECTORY_PROFILE." +:+ wField warning in
  if 0 <? wLine warning then "line " +:+ itoa (wLine warning) +:+ ": " +:+ prefix +:+ ": " +:+ wMessage warning
  else prefix +:+ ": " +:+ wMessage warning.

Definition decodeProfileStringList (node : Node) : option (list string) :=
  if negb (isKind SequenceNode node) then None
  else if forallb (isScalar "!!str") (Content node) then Some (Value <$> Content node) else None.

Definition setListField (field : string) (v : list string) (p : RelayProfile) : RelayProfile :=
  let '(mkProfile m a t l c r o f e u pu n) := p in
  if field =s "languages" then mkProfile m a t v c r o f e u pu n
  else if field =s "countries" then mkProfile m a t l v r o f e u pu n
  else if field =s "regions" then mkProfile m a t l c v o f e u pu n
  else if field =s "topics" then mkProfile m a t l c r v f e u pu n
  else p.
Definition setScalarField (field v : string) (p : RelayProfile) : RelayProfile :=
  let '(mkProfile m a t l c r o f e u pu n) := p in
  if field =s "participation_mode" then mkProfile v a t l c r o f e u pu n
  else if field =s "availability" then mkProfile m v t l c r o f e u pu n
  else if field =s "relay_type" then mkProfile m a v l c r o f e u pu n
  else if field =s "contact_fediverse" then mkProfile m a t l c r o v e u pu n
  else if field =s "contact_email" then mkProfile m a t l c r o f v u pu n
  else if field =s "contact_url" then mkProfile m a t l c r o f e v pu n
  else if field =s "participation_url" then mkProfile m a t l c r o f e u v n
  else if field =s "notes" then mkProfile m a t l c r o f e u pu v
  else p.

(** The loop over the pairs of the mapping: the raw profile, the warnings and the lines. *)
Fixpoint profilePairs (content : list Node) (raw : RelayProfile) (warnings : list Warning) (lines : gmap string Z)
    : RelayProfile * list Warning * gmap string Z :=
  match content with
  | key :: value :: rest =>
      let field := Value key in
      let lines := <[field := Line value]> lines in
      let warn message := profilePairs rest raw (warnings ++ [mkWarning (Line key) field message]) lines in
      if negb (oneOf field profileKeys) then warn "unknown optional profile key; field will be ignored"
      else if oneOf field ["languages"; "countries"; "regions"; "topics"] then
        match decodeProfileStringList value with
        | None => warn "must be a YAML list of strings; field will be omitted"
        | Some values => profilePairs rest (setListField field values raw) warnings lines
        end
      else if negb (isScalar "!!str" value) then warn "must be a string; field will be omitted"
      else profilePairs rest (setScalarField field (Value value) raw) warnings lines
  | _ => (raw, warnings, lines)
  end.
Definition decodeProfileNode (node : Node) : result (RelayProfile * list Warning) :=
  if negb (isKind MappingNode node) then Err ErrConfiguration
  else
    let '(raw, warnings, lines) := profilePairs (Content node) zeroProfile [] ∅ in
    let '(normalized, profileWarnings) := SanitizeRelayProfile ParseAddress raw in
    Ok (normalized,
        warnings ++ ((λ p, mkWarning (default 0 (lines !! warnField p)) (warnField p) (warnMessage p)) <$> profileWarnings)).
Definition profileSetting (root : Node) : result (RelayProfile * list Warning) :=
  match mappingValue root "DIRECTORY_PROFILE" with None => Ok (zeroProfile, []) | Some node => decodeProfileNode node end.
Definition parseEnvironmentProfile (value : string) : result (RelayProfile * list Warning) :=
  if value =s "" then Ok (zeroProfile, []) else root ← environmentDocument value; decodeProfileNode root.

(** ** Loading *)

Inductive Source := SourceFile | SourceEnvironment.
#[export] Instance Source_eq_dec : EqDecision Source.
Proof. solve_decision. Defined.
Record Config := mkConfig {
  cfgSource : Source; cfgPath : string; cfgDirectories : list Directory; cfgProfile : RelayProfile;
  cfgWarnings : list Warning; cfgPublicBaseURL : string; cfgRelayActor : string; cfgKeyID : string;
  cfgPrivateKey : PrivateKey; cfgSchedulerEnabled : bool; cfgRedisURL : string }.

(** [Config.Directory]. *)
Definition ConfigDirectory (config : Config) (origin : string) : result Directory :=
  match ParseOrigin origin with
  | Err _ => Err ErrConfiguration
  | Ok parsed =>
      match list_find (λ entry, Origin entry = URL_String parsed) (cfgDirectories config) with
      | Some (_, entry) => Ok entry
      | None => Err ErrNotFound
      end
  end.

(** models/utils.go. *)
Definition readPrivateKeyRSA (keyPath : string) : Mf (result PrivateKey) :=
  file ←! os_ReadFile keyPath;
  match pemDecode keys file with
  | None => mret (Err (errorsNew "ACTOR_PEM IS INVALID. FAILED TO READ"))
  | Some decoded => mret (parsePKCS1PrivateKey keys decoded)
  end.
Definition LoadActorPrivateKey (keyPath : string) : Mf (result PrivateKey) := readPrivateKeyRSA keyPath.

Definition build (source : Source) (path actorPEM relayDomain : string) (directories : list Directory)
    (profile : RelayProfile) (schedulerEnabled : bool) (redisURL : string) (warnings : list Warning)
    : Mf (result Config) :=
  if (actorPEM =s "") || negb (TrimSpace actorPEM =s actorPEM) || (relayDomain =s "")
     || negb (TrimSpace relayDomain =s relayDomain)
  then mret (Err ErrConfiguration)
  else match ParseOrigin ("https://" +:+ relayDomain) with
  | Err _ => mret (Err ErrConfiguration)
  | Ok base =>
      key ← LoadActorPrivateKey actorPEM;
      match key with
      | Err _ => mret (Err (errorsNew "relay actor identity could not be loaded"))
      | Ok key =>
          let actor := URL_String base +:+ "/actor" in
          mret (Ok (mkConfig source path directories profile warnings (URL_String base) actor
                      (actor +:+ "#main-key") key schedulerEnabled redisURL))
      end
  end.

Definition readRegularNoFollow (path : string) (expected : FileInfo) : Mf (result string) :=
  fd ←! openNoFollow path;
  actual ← file_Stat fd;
  match actual with
  | Err _ => mret (Err ErrConfiguration)
  | Ok actual =>
      if negb (IsRegular actual) || negb (SameFile expected actual) || (maximumConfigBytes <? fi_size actual)
      then mret (Err ErrConfiguration)
      else
        body ← readAllLimit (maximumConfigBytes + 1) fd;
        match body with
        | Err _ => mret (Err ErrConfiguration)
        | Ok body => if maximumConfigBytes <? len body then mret (Err ErrConfiguration) else mret (Ok body)
        end
  end.

Definition redisSetting (root : Node) : result string :=
  match mappingValue root "REDIS_URL" with
  | None => Ok ""
  | Some node =>
      if negb (isScalar "!!str" node) || (Value node =s "") || negb (TrimSpace (Value node) =s Value node)
      then Err ErrConfiguration else Ok (Value node)
  end.

(** The settings of a document, up to [build]. *)
Definition fileSettings (root : Node)
    : result (string * string * list Directory * (RelayProfile * list Warning) * bool * string) :=
  match scalarSetting root "ACTOR_PEM", scalarSetting root "RELAY_DOMAIN" with
  | Some actorPEM, Some relayDomain =>
      directories ← directoriesSetting root;
      profile ← profileSetting root;
      schedulerEnabled ← boolSetting root "DIRECTORY_SCHEDULER_ENABLED";
      redisURL ← redisSetting root;
      if (schedulerEnabled : bool) && (redisURL =s "") then Err ErrConfiguration
      else Ok (actorPEM, relayDomain, directories, profile, schedulerEnabled, redisURL)
  | _, _ => Err ErrConfiguration
  end.

Definition LoadConfig (path : string) : Mf (result Config) :=
  if (path =s "") || negb (TrimSpace path =s path) then mret (Err ErrConfiguration)
  else
    info ← os_Lstat path;
    match info with
    | Ok info =>
        if negb (IsRegular info) then mret (Err ErrConfiguration)
        else
          body ← readRegularNoFollow path info;
          match body with
          | Err _ => mret (Err ErrConfiguration)
          | Ok body =>
              match decodeYAML body with
              | Err _ => mret (Err ErrConfiguration)
              | Ok root =>
                  match fileSettings root with
                  | Err e => mret (Err e)
                  | Ok (actorPEM, relayDomain, directories, (profile, warnings), schedulerEnabled, redisURL) =>
                      build SourceFile path actorPEM relayDomain directories profile schedulerEnabled redisURL warnings
                  end
              end
          end
    | Err e =>
        if errorIs e "os.ErrNotExist" then
          value ← os_Getenv "DIRECTORIES";
          match parseEnvironmentDirectories value with
          | Err e => mret (Err e)
          | Ok directories =>
              value ← os_Getenv "DIRECTORY_PROFILE";
              match parseEnvironmentProfile value with
              | Err e => mret (Err e)
              | Ok (profile, warnings) =>
                  actorPEM ← os_Getenv "ACTOR_PEM";
                  relayDomain ← os_Getenv "RELAY_DOMAIN";
                  build SourceEnvironment path actorPEM relayDomain directories profile false "" warnings
              end
          end
        else mret (Err ErrConfiguration)
    end.
End config.
Arguments Config PrivateKey : clear implicits.
