(* ===== verification/DirectoryEditor.v ===== *)
(** * Editing the configuration file (internal/directoryconfig/editor.go)

    An entry is disabled or removed in the YAML tree, and the file is replaced through
    temporary files, syncs and renames, with a backup.  A temporary file is kept as the
    name it has and its inode; a deferred removal is the last step of the function that
    defers it. *)

From S2P Require Import Prelude GoStrings GoUrl World FileSystem DirectoryOrigin DirectoryConfig.

Definition BackupSuffix : string := ".activity-relay.bak".
Inductive editAction := disableEntry | removeEntry.
#[export] Instance editAction_eq_dec : EqDecision editAction.
Proof. solve_decision. Defined.
Inductive writeStage := stagePrepared | stageBackupDurable | stageRenamed | stageDirectorySynced.
Definition stageHook : Type := option (writeStage → option error).

(** [errors.Join]. *)
Definition errorsJoin (a b : error) : error :=
  mkError (err_text a +:+ ofBytes [chr 10] +:+ err_text b) (err_is a ++ err_is b).
Definition runStageHook (hook : stageHook) (stage : writeStage) : Mf (result unit) :=
  match hook with
  | None => mret (Ok tt)
  | Some hook =>
      match hook stage with None => mret (Ok tt) | Some err => mret (Err (errorsJoin ErrConfiguration err)) end
  end.

(** ** The tree *)

(** The content of a mapping with the value of the first pair of that name replaced. *)
Fixpoint updPair (name : string) (f : Node → Node) (content : list Node) : list Node :=
  match content with
  | key :: value :: rest =>
      if Value key =s name then key :: f value :: rest else key :: value :: updPair name f rest
  | _ => content
  end.
Definition withContent (content : list Node) (n : Node) : Node :=
  mkNode (Kind n) (Tag n) (Value n) (Anchor n) (Line n) content.
Definition falseNode : Node := mkNode ScalarNode "!!bool" "false" "" 0 [].
Definition enabledKey : Node := mkNode ScalarNode "!!str" "enabled" "" 0 [].
Definition asFalse (n : Node) : Node := mkNode ScalarNode "!!bool" "false" (Anchor n) (Line n) (Content n).
Definition setEnabled (entry : Node) : Node :=
  match mappingValue entry "enabled" with
  | None => withContent (Content entry ++ [enabledKey; falseNode]) entry
  | Some _ => withContent (updPair "enabled" asFalse (Content entry)) entry
  end.

(** The index of the first entry with that origin. *)
Definition hasOrigin (origin : string) (item : Node) : bool :=
  match mappingValue item "origin" with Some node => Value node =s origin | None => false end.
Definition entryIndex (origin : string) (items : list Node) : option (nat * Node) :=
  list_find (λ item, hasOrigin origin item = true) items.
Definition editItems (action : editAction) (index : nat) (items : list Node) : list Node :=
  match action with
  | disableEntry => alter setEnabled index items
  | removeEntry => delete index items
  end.
(** The document with the sequence under DIRECTORIES edited. *)
Definition editRoot (action : editAction) (index : nat) (root : Node) : Node :=
  withContent (updPair "DIRECTORIES" (λ d, withContent (editItems action index (Content d)) d) (Content root)) root.

(** ** The file *)

(** Up to four attempts to lock the file that the path still names. *)
Fixpoint lockAttempts (attempts : nat) (path : string) : Mf (result (nat * FileInfo * string)) :=
  match attempts with
  | O => mret (Err ErrConfiguration)
  | Datatypes.S attempts =>
      fd ←! openNoFollow path;
      _ ←! flockExclusive fd;
      info ← file_Stat fd;
      current ← os_Lstat path;
      match info, current with
      | Ok info, Ok current =>
          if IsRegular info && IsRegular current && SameFile info current then
            if maximumConfigBytes <? fi_size info then (_ ← flockUnlock fd; mret (Err ErrConfiguration))
            else
              body ← readAllLimit (maximumConfigBytes + 1) fd;
              match body with
              | Ok body =>
                  if maximumConfigBytes <? len body then (_ ← flockUnlock fd; mret (Err ErrConfiguration))
                  else mret (Ok (fd, info, body))
              | Err _ => _ ← flockUnlock fd; mret (Err ErrConfiguration)
              end
          else (_ ← flockUnlock fd; lockAttempts attempts path)
      | _, _ => _ ← flockUnlock fd; lockAttempts attempts path
      end
  end.
Definition openLockedSnapshot (path : string) : Mf (result (nat * FileInfo * string)) := lockAttempts 4 path.

Definition regularFileExists (path : string) : Mf bool :=
  info ← os_Lstat path;
  mret (match info with Ok info => IsRegular info | Err _ => false end).
Definition syncDirectory (path : string) : Mf (result unit) :=
  _ ←! os_OpenDir path; dir_Sync path.

Definition writeSyncedTemp (directory base body : string) (mode uid gid : Z) : Mf (result name) :=
  '(temp, n) ←! os_CreateTemp directory ("." +:+ base +:+ ".tmp-");
  r ← (_ ←! writeAll n body; _ ←! file_Chown n uid gid; _ ←! file_Chmod n mode; _ ←! file_Sync n; file_Close);
  match r with
  | Ok _ => mret (Ok temp)
  | Err e => _ ← file_Close; _ ← os_Remove temp; mret (Err e)
  end.

(** From the check of the path to the end. *)
Definition commitReplacement (path : string) (temp : name) (info : FileInfo) (hook : stageHook) : Mf (result unit) :=
  _ ←! runStageHook hook stageBackupDurable;
  current ← os_Lstat path;
  match current with
  | Err _ => mret (Err ErrConfiguration)
  | Ok current =>
      if negb (IsRegular current) || negb (SameFile info current) then mret (Err ErrConfiguration)
      else
        r ← os_Rename temp (resolve path);
        match r with
        | Err _ => mret (Err ErrConfiguration)
        | Ok _ =>
            _ ←! runStageHook hook stageRenamed;
            r ← syncDirectory (filepath_Dir path);
            match r with
            | Err _ => mret (Err ErrConfiguration)
            | Ok _ => runStageHook hook stageDirectorySynced
            end
        end
  end.
(** A new backup, and the rest. *)
Definition backupThenCommit (path backupPath original : string) (temp : name) (info : FileInfo) (hook : stageHook)
    : Mf (result unit) :=
  b ← writeSyncedTemp (filepath_Dir path) (filepath_Base backupPath) original (fi_mode info) (fi_uid info) (fi_gid info);
  match b with
  | Err _ => mret (Err ErrConfiguration)
  | Ok backupTemp =>
      r ← (r ← os_Rename backupTemp (resolve backupPath);
           match r with
           | Err _ => mret (Err ErrConfiguration)
           | Ok _ =>
               r ← syncDirectory (filepath_Dir path);
               match r with
               | Err _ => mret (Err ErrConfiguration)
               | Ok _ => commitReplacement path temp info hook
               end
           end);
      _ ← os_Remove backupTemp;
      mret r
  end.
Definition atomicReplace (path backupPath original replacement : string) (info : FileInfo) (preserveBackup : bool)
    (hook : stageHook) : Mf (result unit) :=
  t ← writeSyncedTemp (filepath_Dir path) (filepath_Base path) replacement (fi_mode info) (fi_uid info) (fi_gid info);
  match t with
  | Err _ => mret (Err ErrConfiguration)
  | Ok temp =>
      r ← (_ ←! runStageHook hook stagePrepared;
           keep ← (if preserveBackup then regularFileExists backupPath else mret false);
           if (keep : bool) then commitReplacement path temp info hook
           else backupThenCommit path backupPath original temp info hook);
      _ ← os_Remove temp;
      mret r
  end.

Section edit.
Context (yaml : YamlLib).

(** The edit of a locked file. *)
Definition editLocked (path origin : string) (action : editAction) (preserveBackup : bool) (hook : stageHook)
    (info : FileInfo) (original : string) : Mf (result string) :=
  match decodeYAML yaml original with
  | Err e => mret (Err e)
  | Ok root =>
      match mappingValue root "DIRECTORIES" with
      | None => mret (Err ErrNotFound)
      | Some directories =>
          if negb (isKind SequenceNode directories) then mret (Err ErrNotFound)
          else match parseDirectorySequence yaml directories with
          | Err e => mret (Err e)
          | Ok _ =>
              match entryIndex origin (Content directories) with
              | None => mret (Err ErrNotFound)
              | Some (index, item) =>
                  let entryWasEnabled :=
                    match action, mappingValue item "enabled" with
                    | disableEntry, Some node => match nodeBool yaml node with Ok b => b | Err _ => false end
                    | _, _ => false
                    end in
                  let idle := bool_decide (action = disableEntry) && negb entryWasEnabled in
                  let backup := path +:+ BackupSuffix in
                  done ← (if idle then regularFileExists backup else mret false);
                  if (done : bool) then mret (Ok backup)
                  else match yamlEncode yaml (editRoot action index root) with
                  | Err _ => mret (Err ErrConfiguration)
                  | Ok encoded =>
                      _ ←! atomicReplace path backup original encoded info (preserveBackup || idle) hook;
                      mret (Ok backup)
                  end
              end
          end
      end
  end.
Definition editFile (path origin : string) (action : editAction) (preserveBackup : bool) (hook : stageHook)
    : Mf (result string) :=
  match ParseOrigin origin with
  | Err _ => mret (Err ErrConfiguration)
  | Ok parsedOrigin =>
      l ← openLockedSnapshot path;
      match l with
      | Err _ => mret (Err ErrConfiguration)
      | Ok (locked, info, original) =>
          r ← editLocked path (URL_String parsedOrigin) action preserveBackup hook info original;
          _ ← flockUnlock locked;
          mret r
      end
  end.
Definition DisableFile (path origin : string) : Mf (result string) := editFile path origin disableEntry false None.
Definition RemoveFile (path origin : string) : Mf (result string) := editFile path origin removeEntry true None.
End edit.
