(* ===== verification/DirectoryEditorSpec.v ===== *)
(** * What editing the configuration file guarantees

    At every instant of a replacement, whichever call fails and whenever the machine
    stops, the path names a complete file: the old one, or the new one with the backup
    already in place ([replacement_survives_crashes]). *)

From Stdlib Require Import DecimalString.
From S2P Require Import Prelude GoStrings GoUrl World FileSystem DirectoryOrigin DirectoryConfig DirectoryEditor.

(** ** Paths *)

Lemma cutBytes_app_absent c l l' : c ∉ l →
  cutBytes c (l ++ l') = (l ++ (cutBytes c l').1, (cutBytes c l').2).
Proof.
  induction l as [|a l IH]; intros Hc; simpl; [by destruct (cutBytes c l')|].
  rewrite not_elem_of_cons in Hc. destruct Hc as [Hac Hc]. rewrite (IH Hc).
  destruct (decide (a = c)); [by subst|]. done.
Qed.
Lemma cutLast_append p suf c : c ∉ bytes suf →
  cutLast (p +:+ suf) c = prod_map id (λ r, r +:+ suf) <$> cutLast p c.
Proof.
  intros Hc. unfold cutLast. rewrite bytes_app, rev_app_distr.
  rewrite cutBytes_app_absent by (by rewrite list_elem_of_In, <- in_rev, <- list_elem_of_In).
  destruct (cutBytes c (rev (bytes p))) as [b [r|]]; simpl; [|done].
  unfold prod_map. simpl. do 2 f_equal. rewrite rev_app_distr, rev_involutive, ofBytes_app. by rewrite ofBytes_bytes.
Qed.

Lemma resolve_append p suf : slash ∉ bytes suf →
  resolve (p +:+ suf) = (filepath_Dir p, lastComponent p +:+ suf).
Proof.
  intros Hs. unfold resolve, filepath_Dir, pathPrefix, lastComponent. rewrite cutLast_append by done.
  by destruct (cutLast p slash) as [[a b]|].
Qed.
Lemma string_of_uint_no_k u : "k"%char ∉ bytes (NilEmpty.string_of_uint u).
Proof. induction u; simpl; rewrite ?not_elem_of_cons; set_solver. Qed.
Lemma itoa_no_k z : 0 ≤ z → "k"%char ∉ bytes (itoa z).
Proof.
  intros Hz. unfold itoa, NilZero.string_of_int, NilZero.string_of_uint.
  destruct z as [|q|q]; [by vm_compute; set_solver| |lia]. simpl.
  destruct (Pos.to_uint q) eqn:E; [by vm_compute; set_solver|rewrite <- E; apply string_of_uint_no_k..].
Qed.
(** A temporary name is never the backup's: it ends in a digit. *)
Lemma tempName_not_backup dir base r p :
  0 ≤ r → tempName dir ("." +:+ base +:+ ".tmp-") r ≠ resolve (p +:+ BackupSuffix).
Proof.
  intros Hr. rewrite resolve_append by (vm_compute; set_solver). unfold tempName. intros [= _ E].
  apply (f_equal (last ∘ bytes)) in E. unfold compose in E. rewrite !bytes_app, <- !app_assoc, !last_app in E.
  change (last (bytes BackupSuffix)) with (Some "k"%char) in E.
  destruct (last (bytes (itoa r))) as [c|] eqn:Ec; [|vm_compute in E; discriminate].
  injection E as ->. apply last_Some_elem_of in Ec. by apply itoa_no_k in Ec.
Qed.

(** ** Knowledge of the file system *)

(** A file that is complete and synced. *)
Definition complete (fs : Fs) (n : nat) (body : string) : Prop :=
  ∃ i, fs_inodes fs !! n = Some i ∧ i_kind i = RegularFile ∧ i_body i = body ∧ i_durable i = Some body.
Lemma complete_durable fs n body : complete fs n body → durableBody fs n = Some body.
Proof. intros (i & Hi & _ & _ & Hd). unfold durableBody. by rewrite Hi. Qed.

Section replace.
Context (path original replacement : string) (kept : option nat).
Abbreviation backupPath := (path +:+ BackupSuffix).
Abbreviation kp := (resolve path).
Abbreviation kb := (resolve backupPath).

(** What may be found at the path is the whole old file, or the whole new one next to a
    backup: the old file's content, or the backup that was to be kept. *)
Definition safe (fs : Fs) : Prop :=
  ∀ d, mayFind fs d → ∃ i, d kp = Some i
    ∧ (durableBody fs i = Some original
       ∨ durableBody fs i = Some replacement
         ∧ ∃ j, d kb = Some j ∧ (durableBody fs j = Some original ∨ kept = Some j)).

(** What is known while the replacement runs: what the path and the backup may stand for, the
    complete files, and the temporary names. *)
Record knows (ps bs : list (option nat)) (files : list (nat * string)) (temps : list (name * nat)) (fs : Fs) : Prop := {
  kn_path : ∀ v, possible fs kp v → v ∈ ps;
  kn_backup : ∀ v, possible fs kb v → v ∈ bs;
  kn_files : ∀ n body, (n, body) ∈ files → complete fs n body;
  kn_temps : ∀ k n, (k, n) ∈ temps → fs_dir fs !! k = Some n ∧ k ≠ kp ∧ k ≠ kb }.
(** The knowledge that makes an instant safe. *)
Definition good (ps bs : list (option nat)) (files : list (nat * string)) : Prop :=
  ∀ v, v ∈ ps → ∃ i, v = Some i ∧ ((i, original) ∈ files
    ∨ (i, replacement) ∈ files ∧ ∀ u, u ∈ bs → ∃ j, u = Some j ∧ ((j, original) ∈ files ∨ kept = Some j)).
Lemma knows_safe ps bs files temps fs : good ps bs files → knows ps bs files temps fs → safe fs.
Proof.
  intros Hg [Kp Kb Kf _] d Hd. destruct (Hg _ (Kp _ (Hd kp))) as (i & Hi & [Ho|[Hr Hb]]).
  - exists i. split; [done|]. left. by apply complete_durable, Kf.
  - destruct (Hb _ (Kb _ (Hd kb))) as (j & Hj & Hc). exists i. split; [done|]. right.
    split; [by apply complete_durable, Kf|]. exists j. split; [done|].
    destruct Hc as [Hc|Hc]; [left; by apply complete_durable, Kf|by right].
Qed.
Lemma knows_weaken ps bs files files' temps temps' fs :
  files' ⊆ files → temps' ⊆ temps → knows ps bs files temps fs → knows ps bs files' temps' fs.
Proof. intros Hf Ht [A B C D]. split; eauto. Qed.

(** Updating a file that is none of the known ones. *)
Lemma knows_upd ps bs files temps n f fs : n ∉ files.*1 →
  knows ps bs files temps fs → knows ps bs files temps (updInode n f fs).
Proof.
  intros Hn [A B C D]. split; [done|done| |done]. intros m body Hm. destruct (C m body Hm) as (i & Hi & Hrest).
  exists i. split; [|done]. simpl. rewrite lookup_alter_ne; [done|]. intros ->. apply Hn.
  apply list_elem_of_fmap. by exists (m, body).
Qed.
Lemma possible_link fs k v k' v' : possible (link k v fs) k' v' → (k' = k ∧ v' = v) ∨ possible fs k' v'.
Proof.
  unfold possible. simpl. rewrite elem_of_app, list_elem_of_singleton. intros [H|[H|[H|[= -> ->]]]]; [|by auto..].
  destruct (decide (k' = k)) as [->|Hne].
  - left. split; [done|]. by destruct v; rewrite H; [rewrite lookup_insert_eq|rewrite lookup_delete_eq].
  - right. left. by destruct v; rewrite H; [rewrite lookup_insert_ne|rewrite lookup_delete_ne].
Qed.
(** Linking or removing a name that is none of the known ones. *)
Lemma knows_link ps bs files temps k v fs : k ≠ kp → k ≠ kb → k ∉ temps.*1 →
  knows ps bs files temps fs → knows ps bs files temps (link k v fs).
Proof.
  intros Hp Hb Ht [A B C D]. split.
  - intros u [[E _]|Hu]%possible_link; [by destruct Hp|auto].
  - intros u [[E _]|Hu]%possible_link; [by destruct Hb|auto].
  - exact C.
  - intros k' n Hk. destruct (D k' n Hk) as (E & E'). split; [|done].
    assert (k ≠ k') by (intros ->; apply Ht, list_elem_of_fmap; by exists (k', n)).
    simpl. destruct v; [by rewrite lookup_insert_ne|by rewrite lookup_delete_ne].
Qed.

(** ** Programs over the file system *)

(** No other process touches the files, and random numbers are not negative. *)
Definition exclusive (w : FsWorld) : Prop := (∀ n fs, fw_others w n fs = fs) ∧ ∀ n, 0 ≤ fw_random w n.
Definition triple {A} (P : Fs → Prop) (m : Mf A) (Q : A → Fs → Prop) : Prop :=
  ∀ w, exclusive w → P (fw_fs w) → ∃ w' a l,
    m w = (w', Done a) ∧ exclusive w' ∧ fw_log w' = fw_log w ++ l ∧ Forall safe l ∧ Q a (fw_fs w').

Lemma triple_ret {A} (P : Fs → Prop) (a : A) (Q : A → Fs → Prop) : (∀ fs, P fs → Q a fs) → triple P (mret a) Q.
Proof. intros H w He Hp. exists w, a, []. rewrite app_nil_r. split; [done|]. split; [done|]. split; [done|].
  split; [constructor|by apply H].
Qed.
Lemma triple_bind {A B} (P : Fs → Prop) (m : Mf A) (R : A → Fs → Prop) (f : A → Mf B) Q :
  triple P m R → (∀ a, triple (R a) (f a) Q) → triple P (m ≫= f) Q.
Proof.
  intros Hm Hf w He Hp. destruct (Hm w He Hp) as (w1 & a & l1 & E1 & He1 & L1 & S1 & H1).
  destruct (Hf a w1 He1 H1) as (w2 & b & l2 & E2 & He2 & L2 & S2 & H2). exists w2, b, (l1 ++ l2).
  split; [by unfold mbind, M_bind; rewrite E1|]. split; [done|]. split; [by rewrite L2, L1, app_assoc|].
  split; [by apply Forall_app|done].
Qed.
Lemma triple_conseq {A} (P P' : Fs → Prop) (m : Mf A) (Q Q' : A → Fs → Prop) :
  triple P' m Q' → (∀ fs, P fs → P' fs) → (∀ a fs, Q' a fs → Q a fs) → triple P m Q.
Proof.
  intros Hm HP HQ w He Hp. destruct (Hm w He (HP _ Hp)) as (w' & a & l & ?). exists w', a, l. naive_solver.
Qed.
Lemma triple_fact {A} (φ : Prop) (P : Fs → Prop) (m : Mf A) Q : (∀ fs, P fs → φ) → (φ → triple P m Q) → triple P m Q.
Proof. intros Hf Hm w He Hp. by apply (Hm (Hf _ Hp)). Qed.
Lemma triple_bindErr {A B} (P : Fs → Prop) (m : Mf (result A)) (R : A → Fs → Prop) (E : error → Fs → Prop)
    (f : A → Mf (result B)) Q :
  triple P m (λ r fs, match r with Ok a => R a fs | Err e => E e fs end) →
  (∀ e fs, E e fs → Q (Err e) fs) → (∀ a, triple (R a) (f a) Q) → triple P (bindErr m f) Q.
Proof.
  intros Hm HE Hf. unfold bindErr. eapply triple_bind; [exact Hm|]. intros [a|e]; [apply Hf|by apply triple_ret, HE].
Qed.
Lemma triple_syscallP {A} (P : Fs → Prop) partial (op : Fs → Fs * result A) (Q : result A → Fs → Prop) :
  (∀ fs, P fs → (∀ k, safe (partial k fs) ∧ Q (Err errIO) (partial k fs)) ∧ safe (op fs).1 ∧ Q (op fs).2 (op fs).1) →
  triple P (syscallP partial op) Q.
Proof.
  intros H w [Ho Hr] Hp. unfold syscallP. rewrite Ho. destruct (H _ Hp) as [H1 [H2 H3]].
  destruct (fw_fails w (fw_calls w)) as [k|].
  - eexists _, _, [_]. split; [reflexivity|]. simpl. destruct (H1 k) as [? ?].
    split; [by split|]. split; [done|]. split; [by constructor|done].
  - destruct (op (fw_fs w)) as [fs' r]. eexists _, _, [fs']. split; [reflexivity|]. simpl in *.
    split; [by split|]. split; [done|]. split; [by constructor|done].
Qed.
Lemma triple_syscall {A} (P : Fs → Prop) (op : Fs → Fs * result A) (Q : result A → Fs → Prop) :
  (∀ fs, P fs → safe fs ∧ Q (Err errIO) fs ∧ safe (op fs).1 ∧ Q (op fs).2 (op fs).1) → triple P (syscall op) Q.
Proof. intros H. apply triple_syscallP. intros fs Hp. destruct (H fs Hp) as (? & ? & ? & ?). by repeat split. Qed.

(** A call that changes nothing. *)
Lemma triple_read {A} (P : Fs → Prop) (op : Fs → Fs * result A) :
  (∀ fs, P fs → safe fs) → (∀ fs, (op fs).1 = fs) →
  triple P (syscall op) (λ r fs, P fs ∧ (r = Err errIO ∨ r = (op fs).2)).
Proof.
  intros Hs Hr. apply triple_syscall. intros fs Hp. rewrite Hr. pose proof (Hs fs Hp). by repeat split; auto.
Qed.

(** ** Temporary files *)

Section temp.
Context (ps bs : list (option nat)) (files : list (nat * string)) (temps : list (name * nat)).
Context (Hgood : good ps bs files) (Hnamed : None ∉ ps).

(** A file that is being written under a temporary name. *)
Definition writing (R : inode → Prop) (k : name) (n : nat) (fs : Fs) : Prop :=
  knows ps bs files ((k, n) :: temps) fs ∧ n ∉ files.*1 ∧ k ∉ temps.*1
  ∧ ∃ i, fs_inodes fs !! n = Some i ∧ i_kind i = RegularFile ∧ R i.
Lemma writing_safe R k n fs : writing R k n fs → safe fs.
Proof. intros [K _]. by eapply knows_safe. Qed.
Lemma writing_upd R R' k n f fs : (∀ i, R i → R' (f i)) → (∀ i, i_kind (f i) = i_kind i) →
  writing R k n fs → writing R' k n (updInode n f fs).
Proof.
  intros Hf Hk (K & Hn & Ht & i & Hi & Hr & HR). split; [by apply knows_upd|]. split; [done|]. split; [done|].
  exists (f i). simpl. rewrite lookup_alter_eq, Hi. split; [done|]. split; [by rewrite Hk|auto].
Qed.
Lemma writing_any R k n fs : writing R k n fs → writing (λ _, True) k n fs.
Proof. intros (K & Hn & Ht & i & Hi & Hr & HR). split; [done|]. split; [done|]. split; [done|]. by exists i. Qed.

Lemma triple_CreateTemp dir base :
  triple (knows ps bs files temps) (os_CreateTemp dir ("." +:+ base +:+ ".tmp-"))
    (λ r fs, match r with Ok (k, n) => writing (λ _, True) k n fs | Err _ => knows ps bs files temps fs end).
Proof.
  intros w He Hp. set (k := tempName dir ("." +:+ base +:+ ".tmp-") (fw_random w (fw_calls w))).
  assert (Hkb : k ≠ kb) by (apply tempName_not_backup, He).
  unfold os_CreateTemp. fold k. clearbody k.
  match goal with |- ∃ _ _ _, syscall ?o w = _ ∧ _ => set (op := o) end.
  apply (triple_syscall (knows ps bs files temps) op
    (λ r fs, match r with Ok (k, n) => writing (λ _, True) k n fs | Err _ => knows ps bs files temps fs end)); [|done|done].
  clear w He Hp. intros fs K.
  assert (Hs : safe fs) by by eapply knows_safe. split; [done|]. split; [done|]. unfold op.
  destruct (fs_dir fs !! k) as [m|] eqn:Ek; simpl; [by split|].
  set (n := fresh _). assert (Hn : n ∉ dom (fs_inodes fs)) by (pose proof (is_fresh (dom (fs_inodes fs)
    ∪ map_img (fs_dir fs) ∪ map_img (fs_durable fs) ∪ list_to_set (omap snd (fs_pending fs)))) as Hf; fold n in Hf; set_solver).
  assert (Hkp : k ≠ kp).
  { intros ->. apply Hnamed. destruct K as [Kp _ _ _]. apply Kp. left. done. }
  assert (Hkt : k ∉ temps.*1).
  { intros ([k' m] & E & Hin)%list_elem_of_fmap. simpl in E. subst k'. destruct K as [_ _ _ Kt].
    apply Kt in Hin as [Hin _]. congruence. }
  assert (Hnf : n ∉ files.*1).
  { intros ([m body] & E & Hin)%list_elem_of_fmap. simpl in E. subst m. destruct K as [_ _ Kf _].
    destruct (Kf _ _ Hin) as (i & Hi & _). apply Hn. by eapply elem_of_dom_2. }
  set (fs1 := setInodes _ fs).
  assert (K1 : knows ps bs files temps fs1).
  { destruct K as [A B C D]. split; [done|done| |done]. intros m body Hm. destruct (C m body Hm) as (i & Hi & Hrest).
    exists i. split; [|done]. simpl. rewrite lookup_insert_ne; [done|]. intros ->. apply Hn. by eapply elem_of_dom_2. }
  assert (W : writing (λ _, True) k n (link k (Some n) fs1)).
  { split; [|split; [done|split; [done|]]].
    - pose proof (knows_link ps bs files temps k (Some n) fs1 Hkp Hkb Hkt K1) as [A B C D]. split; [done|done|done|].
      intros k' m [[= -> ->]|Hin]%elem_of_cons; [|by apply D]. split; [|done]. simpl. by rewrite lookup_insert_eq.
    - eexists. split; [simpl; apply lookup_insert_eq|]. done. }
  split; [by eapply writing_safe|done].
Qed.

(** Removing a temporary name, or one that is gone. *)
Lemma triple_Remove k n :
  k ≠ kp → k ≠ kb → k ∉ temps.*1 →
  triple (λ fs, knows ps bs files temps fs ∨ knows ps bs files ((k, n) :: temps) fs) (os_Remove k)
    (λ _ fs, knows ps bs files temps fs).
Proof.
  intros Hp Hb Ht. apply triple_syscall. intros fs HK.
  assert (K : knows ps bs files temps fs).
  { destruct HK as [K|K]; [done|]. eapply knows_weaken; [| |exact K]; set_solver. }
  assert (Hs : safe fs) by by eapply knows_safe. split; [done|]. split; [done|].
  destruct (fs_dir fs !! k); simpl; [|done].
  assert (K' := knows_link _ _ _ _ k None fs Hp Hb Ht K). split; [by eapply knows_safe|done].
Qed.

Lemma triple_upd R R' k n partial f :
  (∀ i, R i → R' (f i)) → (∀ i, i_kind (f i) = i_kind i) → (∀ m i, i_kind (partial m i) = i_kind i) →
  triple (writing R k n) (syscallP (λ m, updInode n (partial m)) (λ fs, (updInode n f fs, Ok tt)))
    (λ r fs, match r with Ok _ => writing R' k n fs | Err _ => writing (λ _, True) k n fs end).
Proof.
  intros HR Hk Hk'. apply triple_syscallP. intros fs W. split.
  - intros m. assert (W' : writing (λ _, True) k n (updInode n (partial m) fs)) by by eapply writing_upd.
    split; [by eapply writing_safe|done].
  - assert (W' : writing R' k n (updInode n f fs)) by by eapply writing_upd.
    simpl. split; [by eapply writing_safe|done].
Qed.
Lemma triple_upd_all R R' k n f :
  (∀ i, R i → R' (f i)) → (∀ i, i_kind (f i) = i_kind i) →
  triple (writing R k n) (syscall (λ fs, (updInode n f fs, Ok tt)))
    (λ r fs, match r with Ok _ => writing R' k n fs | Err _ => writing (λ _, True) k n fs end).
Proof.
  intros HR Hk. apply triple_syscall. intros fs W. assert (W' : writing R' k n (updInode n f fs)) by by eapply writing_upd.
  simpl. split; [by eapply writing_safe|]. split; [by eapply writing_any|]. split; [by eapply writing_safe|done].
Qed.
Lemma triple_Close R k n :
  triple (writing R k n) file_Close (λ r fs, match r with Ok _ => writing R k n fs | Err _ => writing (λ _, True) k n fs end).
Proof.
  eapply triple_conseq; [apply (triple_read (writing R k n)); [apply writing_safe|done]|done|].
  intros [u|e] fs [W _]; [done|by eapply writing_any].
Qed.

Lemma triple_writeSyncedTemp dir base body mode uid gid :
  triple (knows ps bs files temps) (writeSyncedTemp dir base body mode uid gid)
    (λ r fs, match r with
             | Ok k => ∃ n, knows ps bs ((n, body) :: files) ((k, n) :: temps) fs ∧ k ∉ temps.*1
             | Err _ => knows ps bs files temps fs
             end).
Proof.
  unfold writeSyncedTemp.
  eapply triple_bindErr; [eapply triple_conseq; [apply triple_CreateTemp|done|]| |].
  { intros [[k n]|e] fs H; [exact (H : (λ a fs, writing (λ _, True) a.1 a.2 fs) (k, n) fs)|exact H]. }
  { done. }
  intros [k n]. simpl.
  set (synced := λ i, i_body i = body ∧ i_durable i = Some body).
  eapply (triple_bind _ _ (λ r fs, match r with Ok _ => writing synced k n fs | Err _ => writing (λ _, True) k n fs end)).
  { eapply (triple_bindErr _ _ (λ _, writing (λ i, i_body i = body) k n) (λ _, writing (λ _, True) k n)); [by apply triple_upd|done|]. intros _.
    eapply (triple_bindErr _ _ (λ _, writing (λ i, i_body i = body) k n) (λ _, writing (λ _, True) k n)); [by apply triple_upd_all|done|]. intros _.
    eapply (triple_bindErr _ _ (λ _, writing (λ i, i_body i = body) k n) (λ _, writing (λ _, True) k n)); [by apply triple_upd_all|done|]. intros _.
    eapply (triple_bindErr _ _ (λ _, writing synced k n) (λ _, writing (λ _, True) k n)); [|done|].
    { apply triple_upd_all; [|done]. unfold synced. simpl. intros i ->. done. }
    intros _. apply triple_Close. }
  intros [u|e].
  - apply triple_ret. intros fs (K & Hn & Ht & i & Hi & Hk & Hb & Hd). exists n. split; [|done].
    destruct K as [A B C D]. split; [done|done| |done]. intros m body' [[= -> ->]|Hin]%elem_of_cons; [|by apply C].
    by exists i.
  - eapply triple_bind; [apply triple_Close|]. intros r.
    apply (triple_fact (k ≠ kp ∧ k ≠ kb ∧ k ∉ temps.*1)).
    { intros fs W. assert (W' : writing (λ _, True) k n fs) by by destruct r.
      destruct W' as ([_ _ _ D] & _ & Ht & _). destruct (D k n) as (_ & ? & ?); [by left|done]. }
    intros (Hp & Hb & Ht). eapply (triple_bind _ _ (λ _ fs, knows ps bs files temps fs)); [|intros _; by apply triple_ret].
    eapply triple_conseq; [by apply (triple_Remove k n)| |done]. intros fs W. right. by destruct r, W as [K _].
Qed.
End temp.

(** ** Renames and syncs *)

Lemma path_not_backup : kp ≠ kb.
Proof.
  rewrite resolve_append by (vm_compute; set_solver). unfold resolve. intros [= E].
  apply (f_equal (length ∘ bytes)) in E. unfold compose in E. rewrite bytes_app, length_app in E. simpl in E. lia.
Qed.
Lemma backup_directory : kb.1 = filepath_Dir path.
Proof. by rewrite resolve_append by (vm_compute; set_solver). Qed.

Lemma good_mono ps ps' bs bs' files files' :
  ps' ⊆ ps → bs' ⊆ bs → files ⊆ files' → good ps bs files → good ps' bs' files'.
Proof.
  intros Hp Hb Hf G v Hv. destruct (G v (Hp _ Hv)) as (i & -> & H). exists i. split; [done|].
  destruct H as [H|[H1 H2]]; [left; set_solver|right; split; [set_solver|]]. intros u Hu.
  destruct (H2 u (Hb _ Hu)) as (j & -> & Hj). exists j. split; [done|]. set_solver.
Qed.
Lemma knows_mono ps ps' bs bs' files temps fs :
  ps ⊆ ps' → bs ⊆ bs' → knows ps bs files temps fs → knows ps' bs' files temps fs.
Proof. intros Hp Hb [A B C D]. split; eauto. Qed.

(** Moving a temporary file to a name. *)
Lemma knows_rename ps bs files temps k t fs to : to = kp ∨ to = kb → k ∉ temps.*1 →
  knows ps bs files ((k, t) :: temps) fs →
  let fs' := link k None (link to (Some t) fs) in
  knows (if decide (to = kp) then Some t :: ps else ps) (if decide (to = kb) then Some t :: bs else bs) files temps fs'
  ∧ fs_dir fs' !! to = Some t.
Proof.
  intros Hto Ht K. destruct K as [A B C D]. destruct (D k t) as (Hk & Hkp & Hkb); [by left|].
  assert (Hkt : k ≠ to) by (by destruct Hto as [->| ->]). cbv zeta. split.
  2: { simpl. by rewrite lookup_delete_ne, lookup_insert_eq. }
  apply knows_link; [done|done|done|]. split.
  - intros v [[E ->]|Hv]%possible_link; case_decide; set_solver.
  - intros v [[E ->]|Hv]%possible_link; case_decide; set_solver.
  - exact C.
  - intros k' n Hin. destruct (D k' n) as (E & Hp & Hb); [by right|]. split; [|done]. simpl.
    rewrite lookup_insert_ne; [done|]. by destruct Hto as [->| ->].
Qed.

Lemma triple_Rename ps bs files temps k t to : to = kp ∨ to = kb → k ∉ temps.*1 →
  let ps' := if decide (to = kp) then Some t :: ps else ps in
  let bs' := if decide (to = kb) then Some t :: bs else bs in
  good ps bs files → good ps' bs' files →
  triple (knows ps bs files ((k, t) :: temps)) (os_Rename k to)
    (λ r fs, match r with
             | Ok _ => knows ps' bs' files temps fs ∧ fs_dir fs !! to = Some t
             | Err _ => knows ps bs files ((k, t) :: temps) fs
             end).
Proof.
  intros Hto Ht ps' bs' G G'. apply triple_syscall. intros fs K. assert (Hs : safe fs) by exact (knows_safe _ _ _ _ _ G K).
  split; [done|]. split; [done|]. pose proof K as [_ _ _ D]. destruct (D k t) as (-> & _); [by left|]. simpl.
  destruct (knows_rename ps bs files temps k t fs to Hto Ht K) as [K' E]. split; [exact (knows_safe _ _ _ _ _ G' K')|done].
Qed.

(** Syncing the directory leaves one possibility for each of its names. *)
Lemma possible_synced fs dir k v : k.1 = dir → possible (syncedNames dir fs) k v → v = fs_dir fs !! k.
Proof.
  intros Hk. unfold possible. simpl. intros [->|[->|Hin]]; [done| |].
  - destruct (fs_dir fs !! k) as [n|] eqn:E.
    + apply lookup_union_Some_l. by rewrite map_lookup_filter_Some.
    + apply lookup_union_None. rewrite !map_lookup_filter_None. split; [by left|]. right. naive_solver.
  - apply list_elem_of_filter in Hin. naive_solver.
Qed.
Lemma triple_syncDirectory ps bs files temps (R : Fs → Prop) : good ps bs files →
  (∀ dir fs, R fs → R (syncedNames dir fs)) →
  triple (λ fs, knows ps bs files temps fs ∧ R fs) (syncDirectory (filepath_Dir path))
    (λ r fs, match r with
             | Ok _ => knows [fs_dir fs !! kp] [fs_dir fs !! kb] files temps fs ∧ R fs
                       ∧ fs_dir fs !! kp ∈ ps ∧ fs_dir fs !! kb ∈ bs
             | Err _ => knows ps bs files temps fs ∧ R fs
             end).
Proof.
  intros G HR. unfold syncDirectory.
  eapply (triple_bindErr _ _ (λ _ fs, knows ps bs files temps fs ∧ R fs) (λ _ fs, knows ps bs files temps fs ∧ R fs)).
  { eapply triple_conseq; [apply (triple_read (λ fs, knows ps bs files temps fs ∧ R fs)); [|done]|done|].
    - intros fs [K _]. by eapply knows_safe.
    - intros [u|e] fs [K _]; done. }
  { done. }
  intros _. apply triple_syscall. intros fs [K HRf]. assert (Hs : safe fs) by by eapply knows_safe.
  split; [done|]. split; [done|]. simpl.
  assert (K' : knows [fs_dir fs !! kp] [fs_dir fs !! kb] files temps (syncedNames (filepath_Dir path) fs)).
  { destruct K as [A B C D]. split; [| |exact C|exact D].
    - intros v Hv. apply possible_synced in Hv as ->; [by left|done].
    - intros v Hv. apply possible_synced in Hv as ->; [by left|apply backup_directory]. }
  destruct K as [A B _ _]. assert (Hp : fs_dir fs !! kp ∈ ps) by (apply A; by left).
  assert (Hb : fs_dir fs !! kb ∈ bs) by (apply B; by left).
  split; [|by auto]. eapply knows_safe; [|exact K'].
  eapply good_mono; [| |done|exact G]; by intros v ->%list_elem_of_singleton.
Qed.

Lemma triple_hook (P : Fs → Prop) (E : Fs → Prop) hook stage : (∀ fs, P fs → E fs) →
  triple P (runStageHook hook stage) (λ r fs, match r with Ok _ => P fs | Err _ => E fs end).
Proof.
  intros HE. unfold runStageHook. destruct hook as [hook|]; [destruct (hook stage)|]; by apply triple_ret.
Qed.
Lemma triple_Lstat (P : Fs → Prop) p : (∀ fs, P fs → safe fs) →
  triple P (os_Lstat p) (λ r fs, P fs ∧ (r = Err errIO ∨ r = ('(n, i) ← lookupName fs (resolve p); Ok (inodeInfo n i)))).
Proof. intros Hs. by apply triple_read. Qed.

(** ** The replacement *)

Section commit.
Context (i0 t b : nat) (files : list (nat * string)) (k : name).
(** The temporary file holds the replacement, the backup is in place. *)
Context (Hnew : (t, replacement) ∈ files) (Hold : (i0, original) ∈ files).
Context (Hbackup : (b, original) ∈ files ∨ kept = Some b).
Abbreviation both := [Some t; Some i0].
Abbreviation bs := [Some b].
Definition pendingCommit (fs : Fs) : Prop := knows both bs files [] fs ∨ knows both bs files [(k, t)] fs.
Definition committed (fs : Fs) : Prop := knows [Some t] bs files [] fs.

Lemma good_both : good both bs files.
Proof.
  intros v Hv. rewrite elem_of_cons, list_elem_of_singleton in Hv. destruct Hv as [->| ->].
  - exists t. split; [done|]. right. split; [done|]. intros u ->%list_elem_of_singleton. by exists b.
  - exists i0. split; [done|]. by left.
Qed.
Lemma good_sub ps : ps ⊆ both → good ps bs files.
Proof. intros Hs. eapply good_mono; [exact Hs|done|done|apply good_both]. Qed.
Lemma triple_commit info hook :
  triple (knows [Some i0] bs files [(k, t)]) (commitReplacement path k info hook)
    (λ r fs, match r with Ok _ => committed fs | Err _ => pendingCommit fs end).
Proof.
  assert (Hw : ∀ fs, knows [Some i0] bs files [(k, t)] fs → pendingCommit fs).
  { intros fs K. right. eapply knows_mono; [| |exact K]; set_solver. }
  assert (G0 : good [Some i0] bs files) by (apply good_sub; set_solver).
  unfold commitReplacement.
  eapply (triple_bindErr _ _ (λ _, knows [Some i0] bs files [(k, t)]) (λ _, pendingCommit));
    [by apply triple_hook|done|]. intros _.
  eapply triple_bind; [apply triple_Lstat; intros fs K; by eapply knows_safe|].
  intros [current|e]; [|apply triple_ret; naive_solver].
  destruct (_ || _); [apply triple_ret; naive_solver|].
  eapply triple_bind.
  { eapply triple_conseq; [apply (triple_Rename [Some i0] bs files [] k t kp)|by intros fs [K _]|].
    - by left.
    - by apply not_elem_of_nil.
    - done.
    - rewrite decide_True by done. rewrite decide_False by apply path_not_backup. apply good_both.
    - intros r fs H. exact H. }
  rewrite decide_True by done. rewrite decide_False by apply path_not_backup.
  intros [u|e]; [|by apply triple_ret].
  eapply (triple_bindErr _ _ (λ _ fs, knows both bs files [] fs ∧ fs_dir fs !! kp = Some t) (λ _, pendingCommit));
    [apply triple_hook; intros fs [K _]; by left|done|]. intros _.
  eapply triple_bind; [apply triple_syncDirectory; [apply good_both|]|].
  { by intros dir fs E. }
  intros [u'|e]; [|apply triple_ret; intros fs [K _]; by left].
  eapply triple_conseq; [apply (triple_hook committed pendingCommit)| |by intros r fs H].
  - intros fs K. left. eapply knows_mono; [| |exact K]; set_solver.
  - intros fs (K & E & _ & Hb). apply list_elem_of_singleton in Hb. unfold committed. by rewrite E, Hb in K.
Qed.
End commit.

Lemma triple_exists {A X} (P : X → Fs → Prop) (m : Mf A) Q : (∀ x, triple (P x) m Q) → triple (λ fs, ∃ x, P x fs) m Q.
Proof. intros H w He [x Hp]. by apply (H x). Qed.

(** How a replacement may end: the new file is in place with its backup, or all is well. *)
Definition replaced (fs : Fs) : Prop :=
  ∃ t b files, knows [Some t] [Some b] files [] fs ∧ (t, replacement) ∈ files
    ∧ ((b, original) ∈ files ∨ kept = Some b).
Definition settled (fs : Fs) : Prop := ∃ ps bs files, good ps bs files ∧ knows ps bs files [] fs.
Definition ending {A} (r : result A) (fs : Fs) : Prop := match r with Ok _ => replaced fs | Err _ => settled fs end.
Lemma replaced_settled fs : replaced fs → settled fs.
Proof.
  intros (t & b & files & K & Ht & Hb). exists [Some t], [Some b], files. split; [|done].
  intros v ->%list_elem_of_singleton. exists t. split; [done|]. right. split; [done|].
  intros u ->%list_elem_of_singleton. by exists b.
Qed.
Lemma ending_settled {A} (r : result A) fs : ending r fs → settled fs.
Proof. destruct r; [apply replaced_settled|done]. Qed.
Lemma settled_safe fs : settled fs → safe fs.
Proof. intros (ps & bs & files & G & K). by eapply knows_safe. Qed.
Lemma knows_settled ps bs files temps fs : good ps bs files → knows ps bs files temps fs → settled fs.
Proof. intros G K. exists ps, bs, files. split; [done|]. eapply knows_weaken; [| |exact K]; set_solver. Qed.

(** The deferred removal of a temporary file. *)
Lemma triple_cleanup {A} k (r : result A) : k ≠ kp → k ≠ kb →
  triple (ending r) (_ ← os_Remove k; mret r) ending.
Proof.
  intros Hp Hb. eapply (triple_bind _ _ (λ _, ending r)); [|intros _; by apply triple_ret].
  apply triple_syscall. intros fs E. assert (Hs : safe fs) by by eapply settled_safe, ending_settled.
  split; [done|]. split; [done|]. destruct (fs_dir fs !! k); simpl; [|done].
  assert (E' : ending r (link k None fs)).
  { destruct r as [a|e]; simpl in E |- *.
    - destruct E as (t & b & files & K & Hrest). exists t, b, files. split; [|done].
      apply knows_link; [done|done|set_solver|done].
    - destruct E as (ps & bs & files & G & K). exists ps, bs, files. split; [done|].
      apply knows_link; [done|done|set_solver|done]. }
  split; [by eapply settled_safe, ending_settled|done].
Qed.
Lemma knows_temp_names ps bs files temps k n fs :
  knows ps bs files temps fs → (k, n) ∈ temps → k ≠ kp ∧ k ≠ kb.
Proof. intros [_ _ _ D] Hin. by destruct (D k n Hin). Qed.

Section backup.
Context (i0 t : nat) (b0 : option nat) (files : list (nat * string)) (k : name).
Context (Hnew : (t, replacement) ∈ files) (Hold : (i0, original) ∈ files).

Lemma good_old bs fs : files ⊆ fs → good [Some i0] bs fs.
Proof. intros Hf v ->%list_elem_of_singleton. exists i0. split; [done|]. left. by apply Hf. Qed.

Lemma triple_commit_ending b fs info hook : files ⊆ fs → (b, original) ∈ fs ∨ kept = Some b →
  triple (knows [Some i0] [Some b] fs [(k, t)]) (commitReplacement path k info hook) ending.
Proof.
  intros Hf Hb. eapply triple_conseq; [apply (triple_commit i0 t b fs k); [by apply Hf|by apply Hf|done]|done|].
  intros [u|e] fs'; simpl.
  - intros K. exists t, b, fs. split; [done|]. split; [by apply Hf|done].
  - intros [K|K]; eapply knows_settled; try exact K; apply (good_both i0 t b fs); auto.
Qed.

Lemma triple_backup info hook :
  triple (knows [Some i0] [b0] files [(k, t)]) (backupThenCommit path backupPath original k info hook) ending.
Proof.
  unfold backupThenCommit.
  eapply triple_bind; [apply triple_writeSyncedTemp; [by apply good_old|set_solver]|].
  intros [bt|e]; [|apply triple_ret; intros fs K; eapply knows_settled; [|exact K]; by apply good_old].
  apply triple_exists. intros n.
  apply (triple_fact (bt ≠ kp ∧ bt ≠ kb ∧ bt ∉ [(k, t)].*1)).
  { intros fs [K Hbt]. destruct (knows_temp_names _ _ _ _ bt n _ K); [by left|done]. }
  intros (Hp & Hb & Hbt). set (files' := (n, original) :: files).
  assert (Hsub : files ⊆ files') by (unfold files'; set_solver).
  eapply triple_bind; [|intros r; by apply triple_cleanup].
  eapply triple_bind.
  { eapply triple_conseq; [apply (triple_Rename [Some i0] [b0] files' [(k, t)] bt n kb)|by intros fs [K _]|].
    - by right.
    - done.
    - by apply good_old.
    - rewrite decide_False by (intros E; by apply path_not_backup). by apply good_old.
    - intros r fs H. exact H. }
  rewrite decide_False by (intros E; by apply path_not_backup). rewrite decide_True by done.
  intros [u|e]; [|apply triple_ret; intros fs K; eapply knows_settled; [|exact K]; by apply good_old].
  eapply triple_bind; [apply triple_syncDirectory; [by apply good_old|by intros dir fs E]|].
  intros [u'|e]; [|apply triple_ret; intros fs [K _]; eapply knows_settled; [|exact K]; by apply good_old].
  eapply triple_conseq; [apply (triple_commit_ending n files')|..]; [done|left; by left| |done].
  intros fs (K & E & Hp' & _). apply list_elem_of_singleton in Hp'. by rewrite E, Hp' in K.
Qed.
End backup.

(** The replacement, from a durable file. *)
Lemma triple_atomicReplace i0 b0 info preserve hook :
  (preserve = true → ∀ j, b0 = Some j → kept = Some j) →
  triple (knows [Some i0] [b0] [(i0, original)] [])
    (atomicReplace path backupPath original replacement info preserve hook) ending.
Proof.
  intros Hkept. assert (G : ∀ bs files, (i0, original) ∈ files → good [Some i0] bs files).
  { intros bs files Hf v ->%list_elem_of_singleton. exists i0. split; [done|]. by left. }
  unfold atomicReplace.
  eapply triple_bind; [apply triple_writeSyncedTemp; [apply G; by left|set_solver]|].
  intros [k|e]; [|apply triple_ret; intros fs K; eapply knows_settled; [|exact K]; apply G; by left].
  apply triple_exists. intros t. apply (triple_fact (k ≠ kp ∧ k ≠ kb)).
  { intros fs [K _]. apply (knows_temp_names _ _ _ _ k t _ K). by left. }
  intros (Hp & Hb). eapply triple_bind; [|intros r; by apply triple_cleanup].
  set (files := [(t, replacement); (i0, original)]).
  assert (Hn : (t, replacement) ∈ files) by by left. assert (Ho : (i0, original) ∈ files) by (right; by left).
  eapply (triple_bindErr _ _ (λ _, knows [Some i0] [b0] files [(k, t)]) (λ _, settled)).
  { eapply triple_conseq; [apply (triple_hook (knows [Some i0] [b0] files [(k, t)]) settled)|by intros fs [K _]|].
    - intros fs K. eapply knows_settled; [by apply G|exact K].
    - by intros r fs H. }
  { done. }
  intros _.
  eapply (triple_bind _ _ (λ (keep : bool) fs, knows [Some i0] [b0] files [(k, t)] fs
            ∧ (keep = true → preserve = true ∧ ∃ j, b0 = Some j))).
  { destruct preserve; [|apply triple_ret; intros fs K; by split].
    unfold regularFileExists.
    eapply triple_bind; [apply triple_Lstat; intros fs K; eapply knows_safe; [|exact K]; by apply G|].
    intros r. apply triple_ret. intros fs [K Hr]. split; [done|]. intros Hreg. split; [done|].
    destruct r as [fi|e]; [|done]. destruct Hr as [?|Hr]; [done|].
    unfold lookupName in Hr. destruct (fs_dir fs !! kb) as [j|] eqn:Ej; [|done]. exists j.
    destruct K as [_ B _ _]. assert (Hin : Some j ∈ [b0]) by (apply B; by left). by apply list_elem_of_singleton in Hin. }
  intros [].
  - apply (triple_fact (∃ j, b0 = Some j ∧ kept = Some j)).
    { intros fs [_ H]. destruct (H eq_refl) as (Hpr & j & Hj). exists j. split; [done|]. by apply Hkept. }
    intros (j & -> & Hj). eapply triple_conseq; [apply (triple_commit_ending i0 t files k)|..];
      [done|done|done|by right|by intros fs [K _]|done].
  - eapply triple_conseq; [apply (triple_backup i0 t b0 files k)|..]; [done|done|by intros fs [K _]|done].
Qed.
End replace.

(** A name that stands for one thing only, now and after any crash. *)
Definition standsFor (fs : Fs) (k : name) (v : option nat) : Prop := ∀ u, possible fs k u → u = v.

(** C10: The configuration survives a crash at any instant of its replacement.  If the
    configuration file is on disk and no other process interferes, then after every single
    call of [atomicReplace], whichever of them failed and wherever a test hook stopped it,
    whatever the machine finds after a crash at the path is one complete file: the original,
    or the replacement, and in that case the backup name holds the complete original (or the
    backup that was to be preserved).  When it returns without error, the path stands for the
    complete replacement and the backup name for that backup, and no crash can undo it. *)
Theorem replacement_survives_crashes path original replacement info preserve hook i0 b0 w w' r :
  let kp := resolve path in let kb := resolve (path +:+ BackupSuffix) in
  let backup fs j := durableBody fs j = Some original ∨ preserve = true ∧ b0 = Some j in
  exclusive w → complete (fw_fs w) i0 original →
  standsFor (fw_fs w) kp (Some i0) → standsFor (fw_fs w) kb b0 →
  atomicReplace path (path +:+ BackupSuffix) original replacement info preserve hook w = (w', Done r) →
  (∃ instants, fw_log w' = fw_log w ++ instants ∧
     ∀ fs d, fs ∈ instants → mayFind fs d → ∃ i, d kp = Some i
       ∧ (durableBody fs i = Some original
          ∨ durableBody fs i = Some replacement ∧ ∃ j, d kb = Some j ∧ backup fs j))
  ∧ (r = Ok tt → ∃ t b, standsFor (fw_fs w') kp (Some t) ∧ complete (fw_fs w') t replacement
                        ∧ standsFor (fw_fs w') kb (Some b) ∧ backup (fw_fs w') b).
Proof.
  intros kp kb backup He Hc Hp Hb E. set (kept := if preserve then b0 else None).
  assert (Hkept : ∀ j, kept = Some j → preserve = true ∧ b0 = Some j) by (unfold kept; by destruct preserve).
  destruct (triple_atomicReplace path original replacement kept i0 b0 info preserve hook) with (w := w)
    as (w1 & r1 & l & E1 & _ & L1 & S1 & Q1); [by unfold kept; intros ->|done| |].
  { split; [| |by intros n body [= -> ->]%list_elem_of_singleton|by intros k n ?%elem_of_nil].
    - intros v Hv. apply Hp in Hv as ->. by left.
    - intros v Hv. apply Hb in Hv as ->. by left. }
  rewrite E in E1. injection E1 as <- <-. split.
  - exists l. split; [done|]. intros fs d Hfs Hd. rewrite Forall_forall in S1.
    destruct (S1 fs Hfs d Hd) as (i & Hi & [Ho|[Hr (j & Hj & Hbj)]]); exists i; (split; [done|]); [by left|right].
    split; [done|]. exists j. split; [done|]. unfold backup. destruct Hbj; [by left|right; by apply Hkept].
  - intros ->. destruct Q1 as (t & b & files & [A B C _] & Ht & Hbb). exists t, b.
    split; [intros v Hv%A; by apply list_elem_of_singleton in Hv|]. split; [by apply C|].
    split; [intros v Hv%B; by apply list_elem_of_singleton in Hv|].
    destruct Hbb as [Hbb|Hbb]; [left; by apply complete_durable, C|right; by apply Hkept].
Qed.

(** ** An example *)

Definition demoPath : string := "/etc/relay/config.yml".
Definition demoFile (body : string) : inode := mkInode RegularFile 420 0 0 body (Some body).
Definition demoFs (body : string) : Fs :=
  let names := {[ resolve demoPath := 1%nat; resolve "/etc/relay/actor.pem" := 2%nat ]} in
  mkFs {[ 1%nat := demoFile body; 2%nat := demoFile "pem" ]} names names [] ∅.
Definition demoFsWorld (body : string) : FsWorld :=
  mkFsWorld (demoFs body) 0 (λ _ fs, fs) (λ _, None) Z.of_nat (λ _, "") [].
Definition demoInfo (body : string) : FileInfo := inodeInfo 1 (demoFile body).
Lemma standsFor_settled fs k v : fs_pending fs = [] → fs_dir fs !! k = v → fs_durable fs !! k = v → standsFor fs k v.
Proof. intros Hp Hd Hu u. unfold possible. rewrite Hp, Hd, Hu. intros [->|[->|?%elem_of_nil]]; done. Qed.
Lemma demoFsWorld_exclusive body : exclusive (demoFsWorld body).
Proof. split; [done|]. intros n. simpl. lia. Qed.

Lemma replacement_survives_crashes_witness :
  match atomicReplace demoPath (demoPath +:+ BackupSuffix) "old" "new" (demoInfo "old") false None (demoFsWorld "old") with
  | (w', Done (Ok _)) => length (fw_log w') = 21%nat ∧ ∃ t, complete (fw_fs w') t "new"
  | _ => False
  end.
Proof.
  destruct (atomicReplace demoPath (demoPath +:+ BackupSuffix) "old" "new" (demoInfo "old") false None (demoFsWorld "old"))
    as [w' o] eqn:E.
  assert (Ho : match o with Done (Ok _) => length (fw_log w') = 21%nat | _ => False end).
  { assert (Hc : match atomicReplace demoPath (demoPath +:+ BackupSuffix) "old" "new" (demoInfo "old") false None (demoFsWorld "old") with
                 | (w', Done (Ok _)) => length (fw_log w') = 21%nat | _ => False end) by (vm_compute; reflexivity).
    rewrite E in Hc. destruct o as [[|]|]; exact Hc. }
  destruct o as [[u|e]|m]; [|destruct Ho..]. split; [exact Ho|].
  destruct (replacement_survives_crashes demoPath "old" "new" (demoInfo "old") false None 1 None (demoFsWorld "old") w' (Ok u))
    as [_ H].
  - apply demoFsWorld_exclusive.
  - exists (demoFile "old"). repeat split.
  - apply standsFor_settled; vm_compute; reflexivity.
  - apply standsFor_settled; vm_compute; reflexivity.
  - exact E.
  - destruct u. destruct (H eq_refl) as (t & b & _ & Ht & _). exists t. exact Ht.
Defined.
