(* ===== verification/DirectoryDisableSpec.v ===== *)
(** * What disabling a directory entry guarantees

    [DisableFile] returns only when the entry is off on disk ([disable_off]).
    The YAML library's contract ([YamlLaws]): a document that is encoded decodes to the
    same tree, up to line numbers; a boolean does not depend on its line; the scalar
    false is false. *)

From S2P Require Import Prelude GoStrings GoUrl World Frame FileSystem DirectoryOrigin DirectoryConfig.
From S2P Require Import DirectoryEditor DirectoryEditorSpec.

(** ** Trees up to line numbers *)

Fixpoint erase (n : Node) : Node :=
  match n with mkNode kind tag value anchor _ content => mkNode kind tag value anchor 0 (erase <$> content) end.

Class YamlLaws (yaml : YamlLib) : Prop := {
  yaml_round_trip : ∀ root text, Kind root = MappingNode → validateNode root = true → yamlEncode yaml root = Ok text →
    ∃ kind tag value anchor line root', yamlDocuments yaml text = [Ok (mkNode kind tag value anchor line [root'])]
      ∧ erase root' = erase root;
  yaml_bool_line : ∀ n, nodeBool yaml (erase n) = nodeBool yaml n;
  yaml_false : ∀ anchor line content, nodeBool yaml (mkNode ScalarNode "!!bool" "false" anchor line content) = Ok false
}.

Fixpoint Node_size (n : Node) : nat :=
  match n with mkNode _ _ _ _ _ content => Datatypes.S (sum_list (Node_size <$> content)) end.
Lemma Node_ind' (P : Node → Prop) :
  (∀ kind tag value anchor line content, Forall P content → P (mkNode kind tag value anchor line content)) → ∀ n, P n.
Proof.
  intros H. fix IH 1. intros [kind tag value anchor line content]. apply H. induction content; constructor; [apply IH|done].
Qed.

Lemma erase_fields n : Kind (erase n) = Kind n ∧ Tag (erase n) = Tag n ∧ Value (erase n) = Value n
  ∧ Anchor (erase n) = Anchor n ∧ Content (erase n) = erase <$> Content n.
Proof. by destruct n. Qed.
Lemma isKind_erase k n : isKind k (erase n) = isKind k n.
Proof. by destruct n. Qed.
Lemma isScalar_erase t n : isScalar t (erase n) = isScalar t n.
Proof. by destruct n. Qed.
Lemma Value_erase n : Value (erase n) = Value n.
Proof. by destruct n. Qed.

(** Induction over the pairs of a mapping. *)
Lemma pairs_ind {A} (P : list A → Prop) : P [] → (∀ x, P [x]) → (∀ x y l, P l → P (x :: y :: l)) → ∀ l, P l.
Proof. intros H0 H1 H2. fix IH 1. intros [|x [|y l]]; [done|apply H1|apply H2, IH]. Qed.

Lemma mappingKeysValid_erase seen l : mappingKeysValid seen (erase <$> l) = mappingKeysValid seen l.
Proof.
  revert seen. induction l as [|x|x y l IH] using pairs_ind; intros seen; [done|done|].
  simpl. by rewrite isKind_erase, Value_erase, IH.
Qed.
Lemma validateNode_erase n : validateNode (erase n) = validateNode n.
Proof.
  induction n as [kind tag value anchor line content IH] using Node_ind'. simpl. rewrite mappingKeysValid_erase. f_equal.
  induction IH as [|x l Hx _ IHl]; [done|]. cbn [fmap list_fmap forallb]. rewrite Hx. f_equal. exact IHl.
Qed.
Lemma pairValue_erase l name : pairValue (erase <$> l) name = erase <$> pairValue l name.
Proof.
  induction l as [|x|x y l IH] using pairs_ind; [done|done|]. rewrite !fmap_cons. cbn [pairValue]. rewrite Value_erase.
  destruct (eqs _ _); [done|exact IH].
Qed.
Lemma mappingValue_erase n name : mappingValue (erase n) name = erase <$> mappingValue n name.
Proof.
  unfold mappingValue. rewrite isKind_erase. destruct (isKind _ n); [|done]. destruct (erase_fields n) as (_ & _ & _ & _ & ->).
  apply pairValue_erase.
Qed.

Section laws.
Context (yaml : YamlLib) `{YamlLaws yaml}.

Lemma directoryItem_erase n : directoryItem yaml (erase n) = directoryItem yaml n.
Proof.
  unfold directoryItem. rewrite isKind_erase, !mappingValue_erase. destruct (isKind _ n); [|done]. simpl.
  destruct (mappingValue n "origin") as [o|]; [|done]. simpl. rewrite isScalar_erase, Value_erase.
  destruct (isScalar _ o); [|done]. simpl. destruct (mappingValue n "enabled") as [e|]; [|done]. simpl.
  by rewrite isScalar_erase, yaml_bool_line.
Qed.
Lemma directoryItems_erase l : directoryItems yaml (erase <$> l) = directoryItems yaml l.
Proof. induction l as [|x l IH]; [done|]. rewrite fmap_cons. cbn [directoryItems]. by rewrite directoryItem_erase, IH. Qed.
Lemma directoriesSetting_erase n : directoriesSetting yaml (erase n) = directoriesSetting yaml n.
Proof.
  unfold directoriesSetting. rewrite mappingValue_erase. destruct (mappingValue n _) as [d|]; [|done]. simpl.
  unfold parseDirectorySequence. rewrite isKind_erase. destruct (erase_fields d) as (_ & _ & _ & _ & ->).
  by rewrite directoryItems_erase.
Qed.

(** ** Editing the tree *)

Lemma pairValue_updPair name f l v : pairValue l name = Some v → pairValue (updPair name f l) name = Some (f v).
Proof.
  induction l as [|x|x y l IH] using pairs_ind; [done|done|]. simpl. destruct (eqs (Value x) name) eqn:E; simpl; rewrite E.
  - by intros [= ->].
  - done.
Qed.
Lemma pairValue_updPair_ne name name' f l : name ≠ name' → pairValue (updPair name f l) name' = pairValue l name'.
Proof.
  intros Hne. induction l as [|x|x y l IH] using pairs_ind; [done|done|]. simpl. destruct (eqs (Value x) name) eqn:E; simpl.
  - apply eqs_true in E. subst. by rewrite (proj2 (eqs_false (Value x) name')).
  - by rewrite IH.
Qed.
Lemma mappingKeysValid_updPair name f seen l : mappingKeysValid seen (updPair name f l) = mappingKeysValid seen l.
Proof.
  revert seen. induction l as [|x|x y l IH] using pairs_ind; intros seen; [done|done|]. simpl.
  destruct (eqs (Value x) name); simpl; [done|by rewrite IH].
Qed.
Lemma forallb_updPair name f l : (∀ v, pairValue l name = Some v → validateNode v = true → validateNode (f v) = true) →
  forallb validateNode l = true → forallb validateNode (updPair name f l) = true.
Proof.
  induction l as [|x|x y l IH] using pairs_ind; [done|done|]. simpl. intros Hf.
  rewrite !andb_true_iff. intros (Hx & Hy & Hl). destruct (eqs (Value x) name); simpl; rewrite !andb_true_iff; auto.
Qed.
Lemma mappingKeysValid_append seen l k v : mappingKeysValid seen l = true → isKind ScalarNode k = true →
  pairValue l (Value k) = None → Value k ∉ seen → mappingKeysValid seen (l ++ [k; v]) = true.
Proof.
  intros Hl Hk. revert seen Hl. induction l as [|x|x y l IH] using pairs_ind; intros seen Hl Hp Hs; [|done|].
  - simpl. rewrite Hk. simpl. destruct (oneOf (Value k) seen) eqn:E; [by apply oneOf_true in E|done].
  - simpl in Hl |- *. rewrite !andb_true_iff in Hl. destruct Hl as [[Hx Hn] Hl]. rewrite Hx, Hn. simpl.
    simpl in Hp. destruct (eqs (Value x) (Value k)) eqn:E; [done|]. apply eqs_false in E.
    apply IH; [done|done|]. rewrite not_elem_of_cons. split; [congruence|done].
Qed.
Lemma pairValue_append l k v name : Nat.Even (length l) → pairValue l name = None →
  pairValue (l ++ [k; v]) name = if Value k =s name then Some v else None.
Proof.
  induction l as [|x|x y l IH] using pairs_ind; intros He Hp; [done| |].
  - exfalso. destruct He as [m Hm]. simpl in Hm. lia.
  - simpl in Hp |- *. destruct (eqs (Value x) name); [done|]. apply IH; [|done]. destruct He as [m Hm]. exists (m - 1)%nat.
    simpl in Hm. lia.
Qed.
Lemma pairValue_append_some l l' name v : pairValue l name = Some v → pairValue (l ++ l') name = Some v.
Proof. induction l as [|x|x y l IH] using pairs_ind; [done|done|]. simpl. by destruct (eqs (Value x) name). Qed.
Lemma mappingKeysValid_even seen l : mappingKeysValid seen l = true → Nat.Even (length l).
Proof.
  revert seen. induction l as [|x|x y l IH] using pairs_ind; intros seen; [by exists 0%nat|done|]. simpl.
  rewrite !andb_true_iff. intros [_ [m Hm]%IH]. exists (Datatypes.S m). simpl. lia.
Qed.

(** ** Switching an entry off *)

Lemma validateNode_parts n : validateNode n = true ↔
  Kind n ≠ AliasNode ∧ Anchor n = "" ∧ (Kind n = MappingNode → mappingKeysValid [] (Content n) = true)
  ∧ forallb validateNode (Content n) = true.
Proof.
  destruct n as [kind tag value anchor line content]. simpl.
  rewrite !andb_true_iff, negb_true_iff, bool_decide_eq_false, eqs_true. case_decide; naive_solver.
Qed.
Lemma Content_withContent l n : Content (withContent l n) = l.
Proof. done. Qed.
Lemma validateNode_content l n : Kind n = MappingNode → validateNode n = true → mappingKeysValid [] l = true →
  forallb validateNode l = true → validateNode (withContent l n) = true.
Proof. rewrite !validateNode_parts. intros Hk (Ha & Hn & _ & _) Hl Hf. simpl. by rewrite Hk. Qed.
Lemma asFalse_valid n : validateNode n = true → validateNode (asFalse n) = true.
Proof. rewrite !validateNode_parts. intros (_ & Hn & _ & Hf). simpl. done. Qed.

Lemma setEnabled_valid item : Kind item = MappingNode → validateNode item = true → validateNode (setEnabled item) = true.
Proof.
  intros Hk Hv. pose proof Hv as (_ & _ & Hm & Hf)%validateNode_parts. specialize (Hm Hk).
  unfold setEnabled, mappingValue, isKind. rewrite bool_decide_eq_true_2 by done.
  destruct (pairValue (Content item) "enabled") eqn:E.
  - apply validateNode_content; [done|done|by rewrite mappingKeysValid_updPair|].
    apply forallb_updPair; [|done]. intros v _. apply asFalse_valid.
  - apply validateNode_content; [done|done| |by rewrite forallb_app, Hf].
    apply mappingKeysValid_append; [done|done|done|by apply not_elem_of_nil].
Qed.
Lemma setEnabled_off item e : validateNode item = true → directoryItem yaml item = Ok e →
  directoryItem yaml (setEnabled item) = Ok (mkDirectory (Origin e) false).
Proof.
  intros Hv He. pose proof Hv as (_ & _ & Hm & _)%validateNode_parts. unfold directoryItem, isKind in *.
  destruct (bool_decide (Kind item = MappingNode)) eqn:Hk; [|done]. apply bool_decide_eq_true in Hk. simpl in He.
  assert (Hk' : Kind (setEnabled item) = MappingNode) by (unfold setEnabled; destruct (mappingValue item "enabled"); exact Hk).
  rewrite bool_decide_eq_true_2 by done. simpl. specialize (Hm Hk).
  destruct (mappingValue item "origin") as [o|] eqn:Eo; [|done]. destruct (isScalar "!!str" o) eqn:Es; [|done].
  simpl in He. assert (Ho : Origin e = Value o) by (repeat case_match; naive_solver).
  unfold mappingValue, isKind in Eo |- *.
  rewrite (bool_decide_eq_true_2 _ Hk) in Eo. rewrite (bool_decide_eq_true_2 _ Hk'). unfold setEnabled, mappingValue, isKind.
  rewrite (bool_decide_eq_true_2 _ Hk).
  destruct (pairValue (Content item) "enabled") as [v|] eqn:Ee.
  - rewrite Content_withContent.
    rewrite pairValue_updPair_ne, Eo by done. rewrite Es. simpl.
    rewrite (pairValue_updPair _ _ _ _ Ee). unfold asFalse. simpl. by rewrite yaml_false, Ho.
  - rewrite Content_withContent.
    rewrite (pairValue_append_some _ _ _ _ Eo), Es. simpl.
    rewrite pairValue_append by (done || by eapply mappingKeysValid_even). simpl. unfold falseNode.
    by rewrite yaml_false, Ho.
Qed.

Lemma directoryItems_Forall2 items es : directoryItems yaml items = Ok es ↔ Forall2 (λ i e, directoryItem yaml i = Ok e) items es.
Proof.
  revert es. induction items as [|x items IH]; intros es; simpl.
  - split; [intros [= <-]; constructor|by intros ->%Forall2_nil_inv_l].
  - split.
    + intros (e & He & (rest & Hr & [= <-])%result_bind_Ok)%result_bind_Ok. constructor; [done|by apply IH].
    + intros (e & rest & He & Hr & ->)%Forall2_cons_inv_l. rewrite He. simpl. apply IH in Hr. by rewrite Hr.
Qed.
(** The list of directories with one of them off. *)
Definition switchOff (e : Directory) : Directory := mkDirectory (Origin e) false.
Definition switchedOff (origin : string) (ds : list Directory) : list Directory :=
  (λ e, if Origin e =s origin then switchOff e else e) <$> ds.

Lemma directoryItems_disable items es index : Forall (λ i, validateNode i = true) items →
  directoryItems yaml items = Ok es →
  directoryItems yaml (alter setEnabled index items) = Ok (alter switchOff index es).
Proof.
  rewrite !directoryItems_Forall2. intros Hv He. revert index. induction He as [|x e items es Hx He IH]; intros index; [constructor|].
  apply Forall_cons in Hv as [Hvx Hv]. destruct index as [|index].
  - constructor; [by apply setEnabled_off|exact He].
  - constructor; [exact Hx|exact (IH Hv index)].
Qed.
Lemma alter_switchedOff ds index e : NoDup (Origin <$> ds) → ds !! index = Some e →
  alter switchOff index ds = switchedOff (Origin e) ds.
Proof.
  intros Hn Hi. apply list_eq. intros j. unfold switchedOff. rewrite list_lookup_fmap.
  destruct (decide (j = index)) as [->|Hne].
  - rewrite list_lookup_alter_eq, Hi. simpl. by rewrite eqs_refl.
  - rewrite list_lookup_alter_ne by done. destruct (ds !! j) as [e'|] eqn:Ej; simpl; [|done].
    rewrite (proj2 (eqs_false (Origin e') (Origin e))); [done|]. intros E. apply Hne.
    eapply NoDup_lookup; [exact Hn| |]; rewrite list_lookup_fmap; [by rewrite Ej|by rewrite Hi, E].
Qed.
Lemma switchedOff_id origin ds : (∀ e, e ∈ ds → Origin e = origin → Enabled e = false) → switchedOff origin ds = ds.
Proof.
  intros H0. unfold switchedOff. rewrite <- (list_fmap_id ds) at 2. apply list_fmap_ext. intros i e Hi.
  destruct (eqs (Origin e) origin) eqn:E; [|done]. apply eqs_true in E.
  specialize (H0 e ltac:(by eapply list_elem_of_lookup_2) E). destruct e. simpl in *. unfold switchOff. simpl. congruence.
Qed.
Lemma ParseDirectories_origins es ds es' : ParseDirectories es = Ok ds → Origin <$> es' = Origin <$> es →
  ds = es ∧ NoDup (Origin <$> es) ∧ ParseDirectories es' = Ok es'.
Proof.
  intros Hp Ho. unfold ParseDirectories in *. assert (Hl : length es' = length es).
  { by rewrite <- (length_fmap Origin es'), Ho, length_fmap. }
  rewrite Hl. destruct (_ <? _); [done|]. apply parseEntries_Ok in Hp as (-> & Hf & Hn & Hs).
  split; [done|]. split; [done|]. apply parseEntries_Ok. by rewrite Ho.
Qed.

Lemma forallb_alter_valid f index l : (∀ x, x ∈ l → validateNode x = true → validateNode (f x) = true) →
  forallb validateNode l = true → forallb validateNode (alter f index l) = true.
Proof.
  rewrite !forallb_Forall, !Forall_forall. intros Hf Hl x Hx. apply list_elem_of_lookup in Hx as [j Hj].
  destruct (decide (j = index)) as [->|Hne].
  - rewrite list_lookup_alter_eq in Hj. destruct (l !! index) as [y|] eqn:Ey; [|done]. injection Hj as <-.
    apply list_elem_of_lookup_2 in Ey. auto.
  - rewrite list_lookup_alter_ne in Hj by done. apply list_elem_of_lookup_2 in Hj. auto.
Qed.
Lemma alter_id_origins (index : nat) (es : list Directory) : Origin <$> alter switchOff index es = Origin <$> es.
Proof.
  apply list_eq. intros j. rewrite !list_lookup_fmap. destruct (decide (j = index)) as [->|Hne].
  - rewrite list_lookup_alter_eq. by destruct (es !! index).
  - by rewrite list_lookup_alter_ne.
Qed.

Lemma pairValue_elem l name v : pairValue l name = Some v → v ∈ l.
Proof.
  induction l as [|x|x y l IH] using pairs_ind; [done|done|]. simpl. destruct (eqs _ _); [intros [= ->]|intros H'%IH]; set_solver.
Qed.

(** What the edit finds and what it makes. *)
Section edited.
Context (root d : Node) (ds : list Directory) (origin : string) (index : nat) (item : Node).
Context (Hroot : validateNode root = true) (Hmap : Kind root = MappingNode).
Context (Hd : mappingValue root "DIRECTORIES" = Some d).
Context (Hds : parseDirectorySequence yaml d = Ok ds).
Context (Hfound : entryIndex origin (Content d) = Some (index, item)).

Lemma found_entry : ∃ es e, directoryItems yaml (Content d) = Ok es ∧ ParseDirectories es = Ok ds ∧ isKind SequenceNode d = true
  ∧ Content d !! index = Some item ∧ es !! index = Some e ∧ directoryItem yaml item = Ok e ∧ Origin e = origin.
Proof.
  unfold parseDirectorySequence in Hds. destruct (isKind SequenceNode d) eqn:Hk; [|done]. simpl in Hds.
  apply result_bind_Ok in Hds as (es & Hes & Hp). destruct (ParseDirectories es) as [ds'|] eqn:Ep; [|done].
  injection Hp as ->. apply list_find_Some in Hfound as (Hi & Ho & _).
  pose proof Hes as HF%directoryItems_Forall2. destruct (Forall2_lookup_l _ _ _ _ _ HF Hi) as (e & He & Hie).
  exists es, e. repeat split; try done. unfold hasOrigin in Ho. unfold directoryItem in Hie.
  destruct (isKind MappingNode item); [|done]. simpl in Hie. destruct (mappingValue item "origin") as [o|]; [|done].
  apply eqs_true in Ho. repeat case_match; naive_solver.
Qed.
Lemma directories_valid : validateNode d = true ∧ mappingKeysValid [] (Content root) = true.
Proof.
  pose proof Hroot as (_ & _ & Hm & Hf)%validateNode_parts. split; [|auto]. unfold mappingValue in Hd.
  destruct (isKind MappingNode root); [|done]. apply pairValue_elem in Hd. apply forallb_Forall in Hf.
  rewrite Forall_forall in Hf. auto.
Qed.

Lemma editRoot_off : let root' := editRoot disableEntry index root in
  Kind root' = MappingNode ∧ validateNode root' = true ∧ directoriesSetting yaml root' = Ok (switchedOff origin ds)
  ∧ directoriesSetting yaml root = Ok ds ∧ origin ∈ Origin <$> ds.
Proof.
  destruct found_entry as (es & e & Hes & Hp & Hk & Hi & He & Hie & Ho). destruct directories_valid as [Hvd Hvk].
  pose proof Hroot as (_ & _ & _ & Hvf)%validateNode_parts. pose proof Hvd as (Hda & Hdn & _ & Hdf)%validateNode_parts.
  assert (Hvi : Forall (λ i, validateNode i = true) (Content d)) by by apply forallb_Forall.
  assert (Hitems : directoryItems yaml (alter setEnabled index (Content d)) = Ok (alter switchOff index es))
    by by apply directoryItems_disable.
  destruct (ParseDirectories_origins es ds (alter switchOff index es) Hp (alter_id_origins index es)) as (-> & Hn & Hp').
  assert (Hkd : Kind d = SequenceNode) by (unfold isKind in Hk; by apply bool_decide_eq_true in Hk).
  assert (Hkinds : ∀ x, x ∈ Content d → Kind x = MappingNode).
  { apply directoryItems_Forall2 in Hes. intros x [j Hx]%list_elem_of_lookup.
    destruct (Forall2_lookup_l _ _ _ _ _ Hes Hx) as (ex & _ & Hex). unfold directoryItem, isKind in Hex.
    destruct (bool_decide (Kind x = MappingNode)) eqn:E; [by apply bool_decide_eq_true in E|done]. }
  intros root'. split; [done|]. split; [|split; [|split]].
  - apply validateNode_content; [done|done|by rewrite mappingKeysValid_updPair|].
    apply forallb_updPair; [|done]. intros v Hv _. unfold mappingValue, isKind in Hd.
    rewrite (bool_decide_eq_true_2 _ Hmap), Hv in Hd. injection Hd as ->. apply validateNode_parts.
    change (Kind (withContent ?l d)) with (Kind d). rewrite Content_withContent. split; [done|]. split; [done|].
    split; [by rewrite Hkd|]. apply forallb_alter_valid; [|done]. intros x Hx Hvx. apply setEnabled_valid; auto.
  - unfold directoriesSetting, mappingValue, root', editRoot, isKind in *. change (Kind (withContent ?l root)) with (Kind root).
    rewrite (bool_decide_eq_true_2 _ Hmap) in Hd |- *. rewrite Content_withContent, (pairValue_updPair _ _ _ _ Hd).
    unfold parseDirectorySequence, isKind. change (Kind (withContent ?l d)) with (Kind d). rewrite (bool_decide_eq_true_2 _ Hkd).
    simpl. rewrite Hitems. simpl. rewrite Hp'. f_equal. rewrite <- Ho. by apply alter_switchedOff.
  - unfold directoriesSetting. by rewrite Hd.
  - rewrite <- Ho. apply list_elem_of_fmap. exists e. split; [done|]. by eapply list_elem_of_lookup_2.
Qed.

(** The flag as the edit reads it. *)
Lemma idle_entry :
  match mappingValue item "enabled" with
  | Some node => match nodeBool yaml node with Ok b => b | Err _ => false end
  | None => false
  end = false → switchedOff origin ds = ds.
Proof.
  intros Hen. destruct found_entry as (es & e & Hes & Hp & Hk & Hi & He & Hie & Ho).
  destruct (ParseDirectories_origins es ds es Hp eq_refl) as (-> & Hn & _). apply switchedOff_id.
  intros e' He' Ho'. assert (e' = e) as ->.
  { eapply NoDup_fmap_inj_in; [exact Hn|done|by eapply list_elem_of_lookup_2|congruence]. }
  unfold directoryItem in Hie. repeat case_match; naive_solver.
Qed.
End edited.

(** ** Locking the file *)

Lemma knows_setLocks path ps bs files temps l fs :
  knows path ps bs files temps fs → knows path ps bs files temps (setLocks l fs).
Proof. by intros [A B C D]. Qed.

Section file.
Context (path original replacement : string) (kept : option nat) (i0 : nat) (b0 : option nat).
Abbreviation base := (knows path [Some i0] [b0] [(i0, original)] []).
Abbreviation tri := (triple path original replacement kept).
Lemma base_safe fs : base fs → safe path original replacement kept fs.
Proof.
  intros K. eapply knows_safe; [|exact K]. intros v ->%list_elem_of_singleton. exists i0. split; [done|]. left. by left.
Qed.
Lemma base_path fs n : base fs → fs_dir fs !! resolve path = Some n → n = i0.
Proof. intros [A _ _ _] E. assert (Hin : Some n ∈ [Some i0]) by (apply A; by left). set_solver. Qed.
Lemma base_file fs : base fs → ∃ i, fs_inodes fs !! i0 = Some i ∧ i_body i = original.
Proof. intros [_ _ C _]. destruct (C i0 original) as (i & Hi & _ & Hb & _); [by left|]. by exists i. Qed.
Lemma tri_locks (op : gset nat → gset nat) :
  tri base (syscall (λ fs, (setLocks (op (fs_locks fs)) fs, Ok tt))) (λ _, base).
Proof.
  apply triple_syscall. intros fs K. pose proof (base_safe fs K).
  assert (K' := knows_setLocks _ _ _ _ _ (op (fs_locks fs)) fs K). pose proof (base_safe _ K'). done.
Qed.
(** What the lock phase returns. *)
Definition snapshot (r : result (nat * FileInfo * string)) : Prop :=
  match r with Ok (_, _, body) => body = original | Err _ => True end.
Lemma tri_unlock {A} (r : result A) n (P : result A → Prop) : P r →
  tri base (_ ← flockUnlock n; mret r) (λ r fs, base fs ∧ P r).
Proof.
  intros HP. eapply (triple_bind _ _ _ _ _ _ (λ _, base)); [apply (tri_locks (λ l, l ∖ {[n]}))|].
  intros _. by apply triple_ret.
Qed.
Lemma length_ofBytes l : String.length (ofBytes l) = length l.
Proof. induction l as [|a l IH]; [done|]. unfold ofBytes in *. simpl. by rewrite IH. Qed.
Lemma take_all_limit (s : string) (n : Z) :
  (n <? len (ofBytes (take (Z.to_nat (n + 1)) (bytes s)))) = false → 0 ≤ n → ofBytes (take (Z.to_nat (n + 1)) (bytes s)) = s.
Proof.
  intros Hl Hn. apply Z.ltb_ge in Hl. rewrite take_ge; [apply ofBytes_bytes|].
  destruct (decide (Z.to_nat (n + 1) < length (bytes s))%nat) as [Hlt|]; [|lia]. exfalso. unfold len in Hl.
  assert (E : String.length (ofBytes (take (Z.to_nat (n + 1)) (bytes s))) = Z.to_nat (n + 1)).
  { rewrite length_ofBytes, length_take. lia. }
  lia.
Qed.

Lemma tri_lockAttempts attempts : tri base (lockAttempts attempts path) (λ r fs, base fs ∧ snapshot r).
Proof.
  induction attempts as [|attempts IH]; cbn [lockAttempts]; [by apply triple_ret|].
  eapply (triple_bindErr _ _ _ _ _ _ (λ fd fs, base fs ∧ fd = i0) (λ _, base)); [|by intros e fs K|].
  { eapply triple_conseq; [apply (triple_read _ _ _ _ base); [apply base_safe|done]|done|].
    intros [fd|e] fs [K Hr]; [|done]. split; [done|]. destruct Hr as [?|Hr]; [done|]. unfold lookupName in Hr. simpl in Hr.
    destruct (fs_dir fs !! resolve path) as [m|] eqn:Ed; [|done]. destruct (fs_inodes fs !! m); [|done]. simpl in Hr.
    case_decide; [done|]. injection Hr as ->. by eapply base_path. }
  intros fd. apply (triple_fact _ _ _ _ (fd = i0)); [by intros fs [_ ?]|]. intros ->.
  eapply (triple_bindErr _ _ _ _ _ _ (λ _, base) (λ _, base)); [|by intros e fs K|].
  { eapply triple_conseq; [apply (tri_locks (λ l, {[i0]} ∪ l))|by intros fs [K _]|]. by intros [] fs K. }
  intros _. eapply (triple_bind _ _ _ _ _ _ (λ _, base)).
  { eapply triple_conseq; [apply (triple_read _ _ _ _ base); [apply base_safe|done]|done|by intros r fs [K _]]. }
  intros info. eapply (triple_bind _ _ _ _ _ _ (λ _, base)).
  { eapply triple_conseq; [apply triple_Lstat; apply base_safe|done|by intros r fs [K _]]. }
  intros current. destruct info as [info|e], current as [current|e'];
    try (eapply (triple_bind _ _ _ _ _ _ (λ _, base)); [apply (tri_locks (λ l, l ∖ {[i0]}))|intros _; exact IH]).
  destruct (_ && _); [|eapply (triple_bind _ _ _ _ _ _ (λ _, base)); [apply (tri_locks (λ l, l ∖ {[i0]}))|intros _; exact IH]].
  destruct (_ <? _); [by apply tri_unlock|].
  eapply (triple_bind _ _ _ _ _ _ (λ r fs, base fs ∧ match r with Ok body => body = ofBytes (take (Z.to_nat (maximumConfigBytes + 1)) (bytes original)) | Err _ => True end)).
  { eapply triple_conseq; [apply (triple_read _ _ _ _ base); [apply base_safe|done]|done|].
    intros r fs [K Hr]. split; [done|]. destruct r as [body|]; [|done]. destruct Hr as [?|Hr]; [done|]. simpl in Hr.
    destruct (base_file fs K) as (i & Hi & Hb). rewrite Hi in Hr. injection Hr as ->. by rewrite Hb. }
  intros [body|e]; [|eapply triple_conseq; [by apply (tri_unlock (Err ErrConfiguration) i0 snapshot)|by intros fs [K _]|done]].
  apply (triple_fact _ _ _ _ (body = ofBytes (take (Z.to_nat (maximumConfigBytes + 1)) (bytes original)))); [by intros fs [_ ?]|].
  intros ->. destruct (maximumConfigBytes <? _) eqn:El.
  - eapply triple_conseq; [by apply (tri_unlock (Err ErrConfiguration) i0 snapshot)|by intros fs [K _]|done].
  - apply triple_ret. intros fs [K _]. split; [done|]. simpl. by apply take_all_limit.
Qed.

(** A document on disk: its file is complete and its name durable, and it decodes. *)
Definition onDisk (fs : Fs) (ds : list Directory) : Prop :=
  ∃ t body root, standsFor fs (resolve path) (Some t) ∧ complete fs t body
    ∧ decodeYAML yaml body = Ok root ∧ directoriesSetting yaml root = Ok ds.
Lemma onDisk_setLocks fs l ds : onDisk fs ds → onDisk (setLocks l fs) ds.
Proof. done. Qed.
Lemma knows_standsFor ps bs files temps fs t : knows path ps bs files temps fs → ps = [Some t] →
  standsFor fs (resolve path) (Some t).
Proof. intros [A _ _ _] -> v Hv%A. by apply list_elem_of_singleton in Hv. Qed.
Lemma decodeYAML_Ok body root : decodeYAML yaml body = Ok root → Kind root = MappingNode ∧ validateNode root = true.
Proof.
  unfold decodeYAML, isKind. destruct (yamlDocuments yaml body) as [|[[? ? ? ? ? [|r [|? ?]]]|?] [|? ?]]; try done;
    destruct (bool_decide (Kind r = MappingNode)) eqn:E; try done. simpl. destruct (validateNode r) eqn:Ev; [|done].
  intros [= <-]. by apply bool_decide_eq_true in E.
Qed.
Lemma encoded_decodes root text : Kind root = MappingNode → validateNode root = true → yamlEncode yaml root = Ok text →
  ∃ root', decodeYAML yaml text = Ok root' ∧ directoriesSetting yaml root' = directoriesSetting yaml root.
Proof.
  intros Hk Hv He. destruct (yaml_round_trip root text Hk Hv He) as (k & t & v & a & l & root' & Hd & Her).
  exists root'. unfold decodeYAML. rewrite Hd.
  assert (Hk' : isKind MappingNode root' = true).
  { rewrite <- isKind_erase, Her, isKind_erase. unfold isKind. by apply bool_decide_eq_true. }
  rewrite Hk'. simpl. rewrite <- validateNode_erase, Her, validateNode_erase, Hv. split; [done|].
  by rewrite <- directoriesSetting_erase, Her, directoriesSetting_erase.
Qed.
End file.

Section disable.
Context (path original origin : string) (i0 : nat) (b0 : option nat) (info : FileInfo).
Abbreviation base := (knows path [Some i0] [b0] [(i0, original)] []).

(** The edit of a locked file turns the entry off on disk. *)
Lemma editLocked_off (w w' : FsWorld) backup :
  exclusive w → base (fw_fs w) →
  editLocked yaml path origin disableEntry false None info original w = (w', Done (Ok backup)) →
  ∃ root ds, decodeYAML yaml original = Ok root ∧ directoriesSetting yaml root = Ok ds ∧ origin ∈ Origin <$> ds
    ∧ exclusive w' ∧ onDisk path (fw_fs w') (switchedOff origin ds).
Proof.
  intros He K E. unfold editLocked in E. destruct (decodeYAML yaml original) as [root|] eqn:Er; [|done].
  pose proof (decodeYAML_Ok _ _ Er) as [Hmap Hroot].
  destruct (mappingValue root "DIRECTORIES") as [d|] eqn:Hd; [|done]. destruct (isKind SequenceNode d) eqn:Hs; [|done].
  cbn [negb] in E. destruct (parseDirectorySequence yaml d) as [ds|] eqn:Hds; [|done].
  destruct (entryIndex origin (Content d)) as [[index item]|] eqn:Hf; [|done].
  destruct (editRoot_off root d ds origin index item Hroot Hmap Hd Hds Hf) as (Hk' & Hv' & Hoff & Hon & Hin).
  cbv zeta in E. exists root, ds. split; [done|]. split; [done|]. split; [done|].
  set (was := match mappingValue item "enabled" with Some node => _ | None => false end) in E.
  rewrite (bool_decide_eq_true_2 (disableEntry = disableEntry) eq_refl) in E. cbn [andb orb] in E.
  apply bind_inv in E as (w1 & stop & E1 & E).
  assert (Hpre : exclusive w1 ∧ base (fw_fs w1) ∧ (stop = true → was = false)).
  { destruct was; [injection E1 as <- <-; done|]. cbn [negb] in E1. unfold regularFileExists in E1.
    apply bind_inv in E1 as (w2 & r & E1 & E2). injection E2 as <- <-.
    destruct (triple_Lstat path original "" None base (path +:+ BackupSuffix)) with (w := w)
      as (w3 & r3 & l & E3 & He3 & _ & _ & K3 & _); [apply base_safe|done|done|].
    rewrite E1 in E3. by injection E3 as <- <-. }
  destruct Hpre as (He1 & K1 & Hstop). destruct stop.
  - injection E as <- _. split; [done|]. exists i0, original, root.
    split; [by eapply knows_standsFor|]. split; [destruct K1 as [_ _ C _]; apply C; by left|]. split; [done|].
    rewrite (idle_entry d ds origin index item); auto.
  - destruct (yamlEncode yaml (editRoot disableEntry index root)) as [encoded|] eqn:Een; [|done].
    unfold bindErr in E. apply bind_inv in E as (w2 & r & E2 & E).
    set (preserve := negb was) in *. set (kept := if preserve then b0 else None).
    destruct (triple_atomicReplace path original encoded kept i0 b0 info preserve None) with (w := w1)
      as (w3 & r3 & l & E3 & He3 & _ & _ & Q3); [by unfold kept; intros -> |done|done|].
    rewrite E2 in E3. injection E3 as <- <-. destruct r as [u|e]; [|done]. injection E as <- _.
    split; [done|]. destruct Q3 as (t & b & files & K3 & Ht & _).
    destruct (encoded_decodes _ _ Hk' Hv' Een) as (root' & Hd' & Hs'). exists t, encoded, root'.
    split; [by eapply knows_standsFor|]. split; [destruct K3 as [_ _ C _]; by apply C|]. split; [done|]. by rewrite Hs'.
Qed.
End disable.
End laws.

(** A disabled entry is off on disk: if [DisableFile] returns without error (the configuration
    file was on disk, no other process interfered), the path stands, after any crash, for a
    complete file that decodes to the same directories with this one disabled. *)
Lemma disable_off yaml path original origin i0 b0 w w' backup :
  YamlLaws yaml → exclusive w → complete (fw_fs w) i0 original →
  standsFor (fw_fs w) (resolve path) (Some i0) → standsFor (fw_fs w) (resolve (path +:+ BackupSuffix)) b0 →
  DisableFile yaml path origin w = (w', Done (Ok backup)) →
  ∃ root ds, decodeYAML yaml original = Ok root ∧ directoriesSetting yaml root = Ok ds ∧ origin ∈ Origin <$> ds
    ∧ onDisk yaml path (fw_fs w') (switchedOff origin ds).
Proof.
  intros L He Hc Hp Hb E. unfold DisableFile, editFile in E. destruct (ParseOrigin origin) as [u|] eqn:Eo; [|done].
  apply ParseOrigin_String in Eo. rewrite Eo in E. apply bind_inv in E as (w1 & r & E1 & E).
  destruct (tri_lockAttempts yaml path original "" None i0 b0 4) with (w := w)
    as (w1' & r' & l & E1' & He1 & _ & _ & K1 & Hsn); [done| |].
  { split; [| |by intros n body [= -> ->]%list_elem_of_singleton|by intros k n ?%elem_of_nil].
    - intros v Hv. apply Hp in Hv as ->. by left.
    - intros v Hv. apply Hb in Hv as ->. by left. }
  unfold openLockedSnapshot in E1. rewrite E1 in E1'. injection E1' as <- <-. destruct r as [[[fd info] body]|e]; [|done].
  simpl in Hsn. subst body. apply bind_inv in E as (w2 & r2 & E2 & E). apply bind_inv in E as (w3 & u3 & E3 & E).
  injection E as <- ->. destruct (editLocked_off yaml path original origin i0 b0 info w1 w2 backup He1 K1 E2)
    as (root & ds & Hd & Hs & Hin & He2 & Hdisk).
  exists root, ds. split; [done|]. split; [done|]. split; [done|]. unfold flockUnlock, syscall, syscallP in E3.
  destruct He2 as [Ho _]. rewrite Ho in E3. destruct (fw_fails w2 (fw_calls w2)); injection E3 as <- _; [exact Hdisk|].
  by apply onDisk_setLocks.
Qed.

(** ** A codec that keeps the contract *)

Definition kindCode (k : NodeKind) : Z :=
  match k with DocumentNode => 0 | SequenceNode => 1 | MappingNode => 2 | ScalarNode => 3 | AliasNode => 4 end.
Definition codeKind (z : Z) : NodeKind :=
  match z with 0 => DocumentNode | 1 => SequenceNode | 2 => MappingNode | 3 => ScalarNode | _ => AliasNode end.
Fixpoint toTree (n : Node) : gen_tree (Z * string * string * string * Z) :=
  match n with
  | mkNode kind tag value anchor line content => GenNode 0 (GenLeaf (kindCode kind, tag, value, anchor, line) :: map toTree content)
  end.
Fixpoint ofTree (t : gen_tree (Z * string * string * string * Z)) : Node :=
  match t with
  | GenNode _ (GenLeaf (kind, tag, value, anchor, line) :: l) => mkNode (codeKind kind) tag value anchor line (map ofTree l)
  | _ => mkNode AliasNode "" "" "" 0 []
  end.
Lemma ofTree_toTree n : ofTree (toTree n) = n.
Proof.
  induction n as [kind tag value anchor line content IH] using Node_ind'. cbn [toTree ofTree].
  f_equal; [by destruct kind|]. induction IH as [|x l Hx _ IHl]; [done|]. cbn [map]. by rewrite Hx, IHl.
Qed.
Fixpoint posBits (p : positive) : string :=
  match p with xI p => String "1"%char (posBits p) | xO p => String "0"%char (posBits p) | xH => "" end.
Fixpoint bitsPos (s : string) : positive :=
  match s with String c s => if decide (c = "1"%char) then xI (bitsPos s) else xO (bitsPos s) | EmptyString => xH end.
Lemma bitsPos_posBits p : bitsPos (posBits p) = p.
Proof. induction p as [p IH|p IH|]; simpl; [by rewrite IH..|done]. Qed.

Definition demoEncode (n : Node) : string := posBits (encode (toTree n)).
Definition demoYaml : YamlLib :=
  mkYamlLib
    (λ s, match decode (bitsPos s) with Some t => [Ok (mkNode DocumentNode "" "" "" 1 [ofTree t])] | None => [] end)
    (λ s, Err errIO)
    (λ n, if Value n =s "true" then Ok true else if Value n =s "false" then Ok false else Err errIO)
    (λ n, Ok (demoEncode n)).
#[export] Instance demoYaml_laws : YamlLaws demoYaml.
Proof.
  split.
  - intros root text _ _ [= <-]. exists DocumentNode, "", "", "", 1, root. split; [|done].
    unfold demoYaml, demoEncode. cbn [yamlDocuments]. by rewrite bitsPos_posBits, decode_encode, ofTree_toTree.
  - intros n. cbn [demoYaml nodeBool]. by rewrite Value_erase.
  - done.
Qed.

Definition scalar (tag value : string) : Node := mkNode ScalarNode tag value "" 3 [].
Definition demoDocument : Node :=
  mkNode MappingNode "!!map" "" "" 1
    [scalar "!!str" "ACTOR_PEM"; scalar "!!str" "/etc/relay/actor.pem"; scalar "!!str" "RELAY_DOMAIN"; scalar "!!str" "relay.example";
     scalar "!!str" "DIRECTORY_SCHEDULER_ENABLED"; scalar "!!bool" "true"; scalar "!!str" "REDIS_URL"; scalar "!!str" "redis://redis";
     scalar "!!str" "DIRECTORIES";
     mkNode SequenceNode "!!seq" "" "" 2
       [mkNode MappingNode "!!map" "" "" 2 [scalar "!!str" "origin"; scalar "!!str" "https://a.example";
                                            scalar "!!str" "enabled"; scalar "!!bool" "true"];
        mkNode MappingNode "!!map" "" "" 3 [scalar "!!str" "origin"; scalar "!!str" "https://b.example"]]].
Definition demoDisable : FsWorld * outcome (result string) :=
  DisableFile demoYaml demoPath "https://a.example" (demoFsWorld (demoEncode demoDocument)).
