(* ===== verification/DirectoryCommand.v ===== *)
(** * The directory commands (internal/directorycommand)

    The operator's commands: status, register, heartbeat, sync and unregister.
    [CmdWorld] is the process world, the file system and the lines printed.  The
    dependencies are the record the code injects ([dependencies]); [productionDependencies]
    fills it.  A command that coordinates with the scheduler holds the directory's lease;
    [leaseEnv] is what the runtime decides: how often the lease was renewed before the
    suppression is saved, before the remote request, and while it ran, and whether one more
    renewal was under way at the end.  A renewal that fails cancels the context of the
    command: what uses that context then fails. *)

From S2P Require Import Prelude GoStrings GoUrl GoTime Json Redis World ActivityModel FileSystem.
From S2P Require Import DirectoryOrigin DirectoryProfile DirectoryStore DirectoryClient DirectoryScheduler.
From S2P Require Import DirectoryConfig DirectoryEditor.

Definition environmentAcknowledgementFlag : string := "acknowledge-external-disable".
Definition maximumDirectoryCommandTime : Duration := 30 * Second.
Definition schedulerLeaseTTL : Duration := Minute.

(** ** Retries (retry.go) *)

Definition maximumAttempts : nat := 3.
Definition initialBackoff : Duration := 250 * Millisecond.
Definition maximumCommandRetryWait : Duration := 30 * Second.

(** [None]: no retry. *)
Definition retryDelay (err : clientError) (attempt : Z) : option Duration :=
  if clientErrorIs err "ErrDirectoryTransport" then Some (Z.shiftl initialBackoff attempt)
  else match err with
  | Plain _ => None
  | ProtocolError _ code retryAfter =>
      if oneOf code [ErrorRateLimited; ErrorInternal] then
        if maximumCommandRetryWait <? retryAfter then None
        else if 0 <? retryAfter then Some retryAfter
        else Some (Z.shiftl initialBackoff attempt)
      else None
  end.

Section retry.
Context {W A : Type} (sleep : Duration → M W (option error)) (operation : M W (cresult A)).
(** The loop from an attempt on, with the attempts that are left. *)
Fixpoint retryFrom (left_ : nat) (attempt : Z) (last : clientError) : M W (cresult A) :=
  match left_ with
  | O => mret (CErr last)
  | Datatypes.S left_ =>
      r ← operation;
      match r with
      | COk response => mret (COk response)
      | CErr err =>
          match retryDelay err attempt, left_ with
          | None, _ | _, O => mret (CErr err)
          | Some delay, _ =>
              s ← sleep delay;
              match s with
              | Some e => mret (CErr (Plain e))
              | None => retryFrom left_ (attempt + 1) err
              end
          end
      end
  end.
Definition retryLifecycle : M W (cresult A) := retryFrom maximumAttempts 0 (Plain (errorsNew "")).
End retry.
(** [retryStatus] is the same loop at the type of a status. *)
Definition retryStatus {W} (sleep : Duration → M W (option error)) (operation : M W (cresult DirStatus))
    : M W (cresult DirStatus) := retryLifecycle sleep operation.

(** ** Commands *)

Section command.
Context {S : Type} `{Redis S} {PrivateKey Base : Type} (lib : ClientLib PrivateKey Base).
Abbreviation Client := (Client S PrivateKey).
Abbreviation Config := (Config PrivateKey).

Record CmdWorld := mkCmdWorld { cw_world : World S; cw_fs : FsWorld; cw_out : list string }.
Abbreviation Mc := (M CmdWorld).
Definition inWorld {A} (m : M (World S) A) : Mc A := λ w,
  let '(w', a) := m (cw_world w) in (mkCmdWorld w' (cw_fs w) (cw_out w), a).
Definition inFs {A} (m : Mf A) : Mc A := λ w,
  let '(f', a) := m (cw_fs w) in (mkCmdWorld (cw_world w) f' (cw_out w), a).
Definition printf (line : string) : Mc unit := modify (λ w, mkCmdWorld (cw_world w) (cw_fs w) (cw_out w ++ [line])).

Record dependencies := mkDependencies {
  depLoad : string → Mc (result Config);
  depDisable : string → string → Mc (result string);
  depRemove : string → string → Mc (result string);
  depClient : Config → string → result Client;
  depSleep : Duration → Mc (option error);
  (** whether a state store over the configured Redis can be opened *)
  depStore : option (Config → result unit) }.

(** [statusParticipatingInstanceTelemetry]. *)
Definition connectedField (k : string) (v : json) (count : Z) : result Z :=
  if EqualFold k "count" then decodeInt count v else Ok count.
Definition statusCountField (k : string) (v : json) (count : Z) : result Z :=
  if EqualFold k "connected_instances" then decodeStruct connectedField count v else Ok count.
Definition maximumStatusBytes : Z := 64 * 1024.
Definition statusParticipatingInstanceTelemetry (publicBaseURL : string) : option (M (World S) (result Z)) :=
  match url_Parse (TrimSpace publicBaseURL) with
  | Err _ => None
  | Ok base =>
      if negb (oneOf (Scheme base) ["http"; "https"]) || (Host base =s "") then None
      else
        let endpoint := mkURL (Scheme base) (Opaque base) (User base) (Host base)
          (TrimRightByte (Path base) "/"%char +:+ "/status.json") (RawPath base) (OmitHost base) (ForceQuery base) "" ""
          (RawFragment base) in
        Some (
          match requestURL (URL_String endpoint) with
          | Err e => mret (Err e)
          | Ok target =>
              r ← httpDo (mkHttpRequest "GET" (URL_String target) ∅ "");
              mret (response ← r;
                    if negb (StatusCode response =? 200)
                    then Err (errorsNew ("relay status returned HTTP " +:+ itoa (StatusCode response)))
                    else match readLimited maximumStatusBytes (RespBody response) (RespReadErr response) with
                    | (_, Some _) => Err (errorsNew "relay status response is invalid")
                    | (body, None) =>
                        if maximumStatusBytes <? len body then Err (errorsNew "relay status response is invalid")
                        else match (v ← jsonParse body; decodeStruct statusCountField 0 v) with
                        | Err _ => Err (errorsNew "participating instance count is invalid")
                        | Ok count =>
                            if (count <? 0) || (MaximumParticipatingInstanceCount <? count)
                            then Err (errorsNew "participating instance count is invalid") else Ok count
                        end
                    end)
          end)
  end.

(** ** Configuration and selection *)

(** [loadCommandConfig]; the flag --config, or the error of looking it up. *)
Definition loadCommandConfig (deps : dependencies) (flag : result string) : Mc (result Config) :=
  match flag with
  | Err _ => mret (Err (errorsNew "configuration path is unavailable"))
  | Ok path =>
      config ← depLoad deps path;
      mret (match config with Ok config => Ok config | Err _ => Err (errorsNew "directory command configuration is invalid") end)
  end.

Definition selectedClient (config : Config) (origin : string) (deps : dependencies) (requireEnabled : bool)
    : result (Directory * Client) :=
  match ConfigDirectory config origin with
  | Err _ => Err (errorsNew "directory entry is not configured")
  | Ok entry =>
      if requireEnabled && negb (Enabled entry) then Err (errorsNew "directory entry is disabled")
      else match depClient deps config (Origin entry) with
           | Err _ => Err (errorsNew "directory client could not be initialized")
           | Ok client => Ok (entry, client)
           end
  end.

Definition commandError (operation : string) (err : clientError) : error :=
  match err with
  | ProtocolError _ code _ => errorsNew ("directory " +:+ operation +:+ " failed: " +:+ code)
  | Plain e =>
      if errorIs e "ErrDirectoryTransport" then errorsNew ("directory " +:+ operation +:+ " failed: transport unavailable")
      else if errorIs e "ErrResponseTooLarge" then errorsNew ("directory " +:+ operation +:+ " failed: response too large")
      else errorsNew ("directory " +:+ operation +:+ " failed: invalid response")
  end.

(** The state store of a configuration, when there is one. *)
Definition openStore (deps : dependencies) (config : Config) : bool :=
  match depStore deps with Some store => is_ok (store config) | None => false end.

Definition localDirectoryState (deps : dependencies) (config : Config) (entry : Directory) : Mc string :=
  let stateAvailable := negb (cfgRedisURL config =s "") && match depStore deps with Some _ => true | None => false end in
  if negb (Enabled entry) then
    if stateAvailable && openStore deps config then
      st ← inWorld (Load (Origin entry));
      mret (match st with Ok state => if Registered state then "unregister-pending" else "disabled" | Err _ => "disabled" end)
    else mret "disabled"
  else if negb stateAvailable then mret "configured"
  else if negb (openStore deps config) then mret "configured"
  else
    st ← inWorld (Load (Origin entry));
    match st with
    | Err _ => mret "configured"
    | Ok state =>
        if LastOutcome state =s "retrying" then mret "retrying"
        else if LastOutcome state =s "heartbeat" then
          if IsZero (NextAttempt state) then mret "heartbeat-current"
          else (now ← inWorld timeNow; mret (if Before now (NextAttempt state) then "heartbeat-current" else "registered"))
        else if LastOutcome state =s "registered" then mret "registered"
        else mret "configured"
    end.

Definition completeOrigins (deps : dependencies) (flag : result string) (toComplete : string) : Mc (option (list string)) :=
  config ← loadCommandConfig deps flag;
  mret (match config with
        | Err _ => None
        | Ok config => Some (sortStrings (base.filter (λ o, HasPrefix o toComplete = true) (Origin <$> cfgDirectories config)))
        end).

(** The status command, with no argument or one. *)
Fixpoint printStates (deps : dependencies) (config : Config) (entries : list Directory) : Mc unit :=
  match entries with
  | [] => mret tt
  | entry :: entries =>
      state ← localDirectoryState deps config entry;
      _ ← printf (Origin entry +:+ " " +:+ state);
      printStates deps config entries
  end.
Definition originLe (a b : Directory) : Prop := strLe (Origin a) (Origin b).
#[export] Instance originLe_dec : RelDecision originLe.
Proof. intros a b. unfold originLe. apply _. Defined.
Definition boolText (b : bool) : string := if b then "true" else "false".
Definition statusCommand (deps : dependencies) (flag : result string) (args : list string) : Mc (option error) :=
  config ← loadCommandConfig deps flag;
  match config with
  | Err e => mret (Some e)
  | Ok config =>
      match args with
      | [] => _ ← printStates deps config (merge_sort originLe (cfgDirectories config)); mret None
      | origin :: _ =>
          match selectedClient config origin deps false with
          | Err e => mret (Some e)
          | Ok (entry, client) =>
              remote ← retryStatus (depSleep deps) (inWorld (Status_ lib client));
              match remote with
              | CErr e => mret (Some (commandError "status" e))
              | COk remote =>
                  _ ← printf (Origin entry +:+ " enabled=" +:+ boolText (Enabled entry) +:+ " lifecycle_enabled="
                        +:+ boolText (LifecycleEnabled remote) +:+ " lifecycle_available=" +:+ boolText (LifecycleAvailable remote)
                        +:+ " enrollment_open=" +:+ boolText (EnrollmentOpen remote) +:+ " version=" +:+ Version remote);
                  mret None
              end
          end
      end
  end.

(** ** The lease of a command *)

Record leaseEnv := mkLeaseEnv { firesBeforeSave : nat; firesBeforeRequest : nat; firesDuring : nat; lateFire : bool }.

(** The renewals of [maintainSchedulerLease] that fired: whether the lease was reported lost. *)
Fixpoint maintainSchedulerLease (fires : nat) (lease : redisLease) : M (World S) bool :=
  match fires with
  | O => mret false
  | Datatypes.S fires =>
      r ← Renew lease schedulerLeaseTTL;
      match r with Ok true => maintainSchedulerLease fires lease | _ => mret true end
  end.
(** [leaseHasBeenLost] after so many renewals; without a lease, no. *)
Definition leaseHasBeenLost (fires : nat) (held : option (redisLease * State)) : Mc bool :=
  match held with Some (lease, _) => inWorld (maintainSchedulerLease fires lease) | None => mret false end.
Definition releaseSchedulerLease (lease : redisLease) : M (World S) unit := _ ← Release lease; mret tt.

(** The lease and the state a command starts from, or the suffix of its error. *)
Definition takeLease (deps : dependencies) (config : Config) (origin : string) : Mc (string + redisLease * State) :=
  if negb (openStore deps config) then mret (inl "store is unavailable")
  else
    l ← inWorld (Acquire origin schedulerLeaseTTL);
    match l with
    | Ok (Some lease) =>
        st ← inWorld (Load origin);
        match st with
        | Err _ => _ ← inWorld (releaseSchedulerLease lease); mret (inl "state is invalid")
        | Ok state => mret (inr (lease, state))
        end
    | _ => mret (inl "lease is unavailable")
    end.
(** The deferred end of a command that holds a lease. *)
Definition endLease (env : leaseEnv) (held : option (redisLease * State)) : Mc unit :=
  match held with
  | None => mret tt
  | Some (lease, _) =>
      _ ← (if lateFire env then (_ ← inWorld (Renew lease schedulerLeaseTTL); mret tt) else mret tt);
      inWorld (releaseSchedulerLease lease)
  end.
(** A command under the lease it may need. *)
Definition underLease (deps : dependencies) (config : Config) (needed : bool) (origin consequence : string) (env : leaseEnv)
    (run : option (redisLease * State) → Mc (option error)) : Mc (option error) :=
  if needed then
    l ← takeLease deps config origin;
    match l with
    | inl problem => mret (Some (errorsNew ("directory scheduler " +:+ problem +:+ "; " +:+ consequence)))
    | inr held => r ← run (Some held); _ ← endLease env (Some held); mret r
    end
  else run None.

(** ** register, heartbeat and sync *)

Definition lifecycleOperation : Type := Client → M (World S) (cresult Response).

(** The state after a successful operation; [None] when the profile digest is not usable. *)
Definition lifecycleState (config : Config) (client : Client) (origin : string) (state : State) (now : Time) (response : Response)
    : option State :=
  let completedAt := truncateSecond now in
  let completedAt := if Before completedAt (LastObserved state) then LastObserved state else completedAt in
  let completedAt := if Before completedAt (LastSuccess state) then LastSuccess state else completedAt in
  let next := NextHeartbeatAttempt (cfgRelayActor config) origin completedAt in
  if respOperation response =s OperationRegister then
    let digest := clientProfileDigest_ client in
    if negb (len digest =? 64) then None
    else Some (mkState true completedAt next "registered" "none" 0 completedAt digest (respVersion response))
  else Some (mkState true completedAt next "heartbeat" "none" 0 completedAt (ProfileDigest state) (ProfileProtocolVersion state)).

Definition saveLifecycle (config : Config) (client : Client) (origin : string) (held : option (redisLease * State))
    (response : Response) : Mc (option error) :=
  match held with
  | None => mret None
  | Some (lease, state) =>
      now ← inWorld timeNow;
      match lifecycleState config client origin state now response with
      | None => mret (Some (errorsNew "remote lifecycle request succeeded but scheduler profile state could not be finalized"))
      | Some state =>
          r ← inWorld (SaveOwned origin lease state);
          mret (match r with
                | Ok true => None
                | _ => Some (errorsNew "remote lifecycle request succeeded but scheduler state could not be finalized")
                end)
      end
  end.
Definition lifecycleBody (deps : dependencies) (config : Config) (name : string) (operation : lifecycleOperation)
    (entry : Directory) (client : Client) (env : leaseEnv) (held : option (redisLease * State)) : Mc (option error) :=
  response ← retryLifecycle (depSleep deps) (inWorld (operation client));
  lost ← leaseHasBeenLost (firesDuring env) held;
  if (lost : bool) then mret (Some (errorsNew "directory scheduler lease was lost during remote lifecycle request"))
  else match response with
  | CErr e => mret (Some (commandError name e))
  | COk response =>
      saved ← saveLifecycle config client (Origin entry) held response;
      match saved with
      | Some e => mret (Some e)
      | None => _ ← printf (name +:+ " " +:+ Origin entry +:+ ": " +:+ respOutcome response); mret None
      end
  end.
Definition lifecycleCommand (deps : dependencies) (name : string) (operation : lifecycleOperation) (env : leaseEnv)
    (flag : result string) (origin : string) : Mc (option error) :=
  config ← loadCommandConfig deps flag;
  match config with
  | Err e => mret (Some e)
  | Ok config =>
      match selectedClient config origin deps true with
      | Err e => mret (Some e)
      | Ok (entry, client) =>
          underLease deps config
            (bool_decide (cfgSource config = SourceFile) && cfgSchedulerEnabled config && negb (cfgRedisURL config =s ""))
            (Origin entry) "no remote request was sent" env
            (lifecycleBody deps config name operation entry client env)
      end
  end.

(** ** unregister *)

Record unregisterFlags := mkUnregisterFlags { flagRemove : bool; flagAcknowledge : bool }.

(** The entry is switched off in the file, or the operator has acknowledged to do it elsewhere. *)
Definition disableLocally (deps : dependencies) (config : Config) (flags : unregisterFlags) (origin : string) : Mc (option error) :=
  if decide (cfgSource config = SourceFile) then
    backup ← depDisable deps (cfgPath config) origin;
    match backup with
    | Err _ => mret (Some (errorsNew "directory entry could not be durably disabled; no remote request was sent"))
    | Ok backup => _ ← printf ("disabled " +:+ origin +:+ "; backup=" +:+ backup); mret None
    end
  else if flagRemove flags then mret (Some (errorsNew "--remove requires a regular configuration file"))
  else if negb (flagAcknowledge flags) then
    mret (Some (errorsNew ("environment-only configuration cannot be mutated; disable the external source and rerun with --"
                             +:+ environmentAcknowledgementFlag)))
  else (_ ← printf "warning: disable this directory in the external configuration source before restart"; mret None).

Definition suppressed (state : State) (registered : bool) (now : Time) : State :=
  mkState registered (LastSuccess state) zeroTime "disabled" "disabled" (Attempt state) now (ProfileDigest state)
    (ProfileProtocolVersion state).
(** Saving a suppressed state; the context is gone when the lease was lost. *)
Definition saveSuppressed (origin : string) (registered : State → bool) (lost : bool) (held : option (redisLease * State))
    : Mc bool :=
  match held with
  | None => mret true
  | Some (lease, state) =>
      now ← inWorld timeNow;
      if lost then mret false
      else
        r ← inWorld (SaveOwned origin lease (suppressed state (registered state) now));
        mret (match r with Ok true => true | _ => false end)
  end.

Definition finishUnregister (deps : dependencies) (config : Config) (flags : unregisterFlags) (origin : string)
    (held : option (redisLease * State)) (response : Response) : Mc (option error) :=
  _ ← printf ("unregister " +:+ origin +:+ ": " +:+ respOutcome response);
  saved ← saveSuppressed origin (λ _, false) false held;
  if negb (saved : bool) then mret (Some (errorsNew "remote unregister succeeded but scheduler state could not be finalized"))
  else if flagRemove flags then
    r ← depRemove deps (cfgPath config) origin;
    match r with
    | Err _ => mret (Some (errorsNew "remote unregister succeeded but the disabled entry could not be removed"))
    | Ok _ => _ ← printf ("removed " +:+ origin +:+ " from configuration"); mret None
    end
  else mret None.
(** The request of unregister and what follows it. *)
Definition remoteUnregister (deps : dependencies) (config : Config) (flags : unregisterFlags) (entry : Directory) (client : Client)
    (env : leaseEnv) (held : option (redisLease * State)) : Mc (option error) :=
  response ← retryLifecycle (depSleep deps) (inWorld (UnregisterNegotiated lib client));
  lost ← leaseHasBeenLost (firesDuring env) held;
  if (lost : bool) then
    mret (Some (errorsNew "directory scheduler lease was lost during remote unregister; the entry remains disabled"))
  else match response with
  | CErr e =>
      _ ← printf (if decide (cfgSource config = SourceFile)
                  then "remote unregister failed; the file-backed entry remains disabled; rerun unregister to retry"
                  else "remote unregister failed; keep the external entry disabled and rerun unregister to retry");
      mret (Some (commandError "unregister" e))
  | COk response => finishUnregister deps config flags (Origin entry) held response
  end.
Definition unregisterBody (deps : dependencies) (config : Config) (flags : unregisterFlags) (entry : Directory) (client : Client)
    (env : leaseEnv) (held : option (redisLease * State)) : Mc (option error) :=
  let origin := Origin entry in
  off ← disableLocally deps config flags origin;
  match off with
  | Some e => mret (Some e)
  | None =>
      lost ← leaseHasBeenLost (firesBeforeSave env) held;
      saved ← saveSuppressed origin Registered lost held;
      if negb (saved : bool) then
        mret (Some (errorsNew "directory suppression state could not be persisted; the entry remains disabled and no remote request was sent"))
      else
        lost ← leaseHasBeenLost (firesBeforeRequest env) held;
        if (lost : bool) then
          mret (Some (errorsNew "directory scheduler lease was lost; the entry remains disabled and no remote request was sent"))
        else remoteUnregister deps config flags entry client env held
  end.
Definition unregisterCommand (deps : dependencies) (flags : unregisterFlags) (env : leaseEnv) (flag : result string) (origin : string)
    : Mc (option error) :=
  config ← loadCommandConfig deps flag;
  match config with
  | Err e => mret (Some e)
  | Ok config =>
      match selectedClient config origin deps false with
      | Err e => mret (Some e)
      | Ok (entry, client) =>
          underLease deps config (bool_decide (cfgSource config = SourceFile) && negb (cfgRedisURL config =s ""))
            (Origin entry) "no local or remote change was made" env
            (unregisterBody deps config flags entry client env)
      end
  end.

(** ** Production *)

(** [productionDependencies]; [parseRedisURL] is [redis.ParseURL]. *)
Definition productionDependencies (yaml : YamlLib) (keys : KeyLib PrivateKey) (parseRedisURL : string → result unit)
    (sleep : Duration → Mc (option error)) : dependencies :=
  mkDependencies
    (λ path, inFs (LoadConfig yaml keys (ParseAddress lib) path))
    (λ path origin, inFs (DisableFile yaml path origin))
    (λ path origin, inFs (RemoveFile yaml path origin))
    (λ config origin,
       New lib (mkOptions origin (cfgRelayActor config) (cfgPublicBaseURL config) (cfgProfile config) (cfgKeyID config)
                  (Some (cfgPrivateKey config)) (statusParticipatingInstanceTelemetry (cfgPublicBaseURL config))))
    sleep
    (Some (λ config, match parseRedisURL (cfgRedisURL config) with
                     | Ok _ => Ok tt
                     | Err _ => Err (errorsNew "scheduler store configuration is invalid")
                     end)).

(** The commands of [buildCommand] with their operations. *)
Definition registerCommand (deps : dependencies) := lifecycleCommand deps "register" (RegisterNegotiated lib).
Definition heartbeatCommand (deps : dependencies) := lifecycleCommand deps "heartbeat" (HeartbeatNegotiated lib).
Definition syncCommand (deps : dependencies) := lifecycleCommand deps "sync" (RegisterNegotiated lib).
End command.
Arguments CmdWorld S : clear implicits.
Arguments dependencies S PrivateKey : clear implicits.
