(* ===== verification/DirectoryCommandSpec.v ===== *)
(** * What the directory commands guarantee

    - Retries are few and short ([retry_terminates]).
    - Nothing is sent by unregister before the entry is off on disk and the scheduler's
      suppression is saved ([unregister_disables_first]). *)

From S2P Require Import Prelude GoStrings GoUrl GoTime Json Redis World Frame FileSystem DirectoryOrigin.
From S2P Require Import DirectoryProfile DirectoryStore DirectoryClient DirectoryClientSpec DirectoryScheduler.
From S2P Require Import DirectorySchedulerSpec DirectoryConfig DirectoryEditor DirectoryEditorSpec.
From S2P Require Import DirectoryDisableSpec DirectoryCommand.

(** ** Retries *)

Section retry.
Context {W A : Type} (sleep : Duration → M W (option error)) (operation : M W (cresult A)).

(** Attempts that failed and were followed by a completed sleep. *)
Fixpoint retried (steps : list (clientError * Duration)) (attempt : Z) (w w' : W) : Prop :=
  match steps with
  | [] => w' = w
  | (e, d) :: steps =>
      ∃ w1 w2, operation w = (w1, Done (CErr e)) ∧ retryDelay e attempt = Some d ∧ sleep d w1 = (w2, Done None)
        ∧ retried steps (attempt + 1) w2 w'
  end.
(** How the loop ends after them. *)
Definition concluded (steps : nat) (w w' : W) (r : cresult A) : Prop :=
  ∃ wf x, operation w = (wf, Done x) ∧
    match x with
    | COk a => r = COk a ∧ w' = wf
    | CErr e =>
        r = CErr e ∧ w' = wf ∧ (retryDelay e (Z.of_nat steps) = None ∨ steps = 2%nat)
        ∨ ∃ d s, (steps < 2)%nat ∧ retryDelay e (Z.of_nat steps) = Some d ∧ sleep d wf = (w', Done (Some s))
                 ∧ r = CErr (Plain s)
    end.

Context (Hop : ∀ w, ∃ w' x, operation w = (w', Done x)) (Hsleep : ∀ d w, ∃ w' s, sleep d w = (w', Done s)).
Lemma retryFrom_runs left_ n last w : (n + left_ = 3)%nat → (0 < left_)%nat →
  ∃ w' r steps wl, retryFrom sleep operation left_ (Z.of_nat n) last w = (w', Done r)
    ∧ retried steps (Z.of_nat n) w wl ∧ (n + length steps ≤ 2)%nat ∧ concluded (n + length steps) wl w' r.
Proof.
  revert n last w. induction left_ as [|left_ IH]; intros n last w Hn Hl; [lia|]. cbn [retryFrom].
  destruct (Hop w) as (w1 & x & E). erewrite bind_Done by exact E.
  destruct x as [a|e].
  { exists w1, (COk a), [], w. rewrite Nat.add_0_r. split; [done|]. split; [done|]. split; [lia|]. exists w1, (COk a). done. }
  destruct (retryDelay e (Z.of_nat n)) as [d|] eqn:Ed.
  2: { exists w1, (CErr e), [], w. rewrite Nat.add_0_r. split; [done|]. split; [done|]. split; [lia|].
       exists w1, (CErr e). split; [done|]. left. auto. }
  destruct left_ as [|left_].
  { exists w1, (CErr e), [], w. rewrite Nat.add_0_r. split; [done|]. split; [done|]. split; [lia|].
    exists w1, (CErr e). split; [done|]. left. repeat split. right. lia. }
  destruct (Hsleep d w1) as (w2 & s & Es). erewrite bind_Done by exact Es. destruct s as [s|].
  { exists w2, (CErr (Plain s)), [], w. rewrite Nat.add_0_r. split; [done|]. split; [done|]. split; [lia|].
    exists w1, (CErr e). split; [done|]. right. exists d, s. repeat split; try done. lia. }
  replace (Z.of_nat n + 1) with (Z.of_nat (Datatypes.S n)) by lia.
  destruct (IH (Datatypes.S n) e w2) as (w' & r & steps & wl & Er & Hs & Hlen & Hc); [lia|lia|].
  exists w', r, ((e, d) :: steps), wl. split; [done|]. split.
  { simpl. exists w1, w2. repeat split; try done. by replace (Z.of_nat n + 1) with (Z.of_nat (Datatypes.S n)) by lia. }
  simpl in *. replace (n + Datatypes.S (length steps))%nat with (Datatypes.S n + length steps)%nat by lia. split; [lia|done].
Qed.
Lemma commandRetryDelay_range e n d : retryDelay e (Z.of_nat n) = Some d → (n ≤ 2)%nat →
  0 < d ≤ maximumCommandRetryWait ∧ protocolRetryAfter e ≤ d.
Proof.
  intros E Hn. assert (Hb : 0 < Z.shiftl initialBackoff (Z.of_nat n) ≤ maximumCommandRetryWait).
  { assert (n = 0 ∨ n = 1 ∨ n = 2)%nat as [->|[->| ->]] by lia; vm_compute; split; congruence || done. }
  unfold retryDelay in E. set (b := Z.shiftl _ _) in *. clearbody b. destruct e as [e|st code ra]; simpl in E |- *.
  - destruct (errorIs e _); [|done]. injection E as <-. lia.
  - destruct (_ || _); [|done]. destruct (Z.ltb_spec maximumCommandRetryWait ra); [done|].
    destruct (Z.ltb_spec 0 ra); injection E as <-; lia.
Qed.
Lemma retried_range steps n w w' : retried steps (Z.of_nat n) w w' → (n + length steps ≤ 3)%nat →
  Forall (λ '(e, d), 0 < d ≤ maximumCommandRetryWait ∧ protocolRetryAfter e ≤ d) steps.
Proof.
  revert n w. induction steps as [|[e d] steps IH]; intros n w Hr Hn; [constructor|].
  destruct Hr as (w1 & w2 & _ & Ed & _ & Hr). simpl in Hn. constructor; [apply (commandRetryDelay_range e n d Ed); lia|].
  apply (IH (Datatypes.S n) w2); [|lia]. by replace (Z.of_nat (Datatypes.S n)) with (Z.of_nat n + 1) by lia.
Qed.
End retry.

(** Retrying ends, and soon.  If the remote operation and the sleep always return, so does
    [retryLifecycle] (and [retryStatus], the same loop): it has run the operation at most
    three times, waited at most twice, each time for at most 30 seconds and at least as long
    as the directory asked; it returns the first success, and otherwise the last error, which
    is then one that is not retried, or the third, or that of an interrupted wait. *)
Theorem retry_terminates {W A} (sleep : Duration → M W (option error)) (operation : M W (cresult A)) w :
  (∀ w, ∃ w' x, operation w = (w', Done x)) → (∀ d w, ∃ w' s, sleep d w = (w', Done s)) →
  ∃ w' r steps wl, retryLifecycle sleep operation w = (w', Done r)
    ∧ retried sleep operation steps 0 w wl ∧ (length steps ≤ 2)%nat
    ∧ Forall (λ '(e, d), 0 < d ≤ maximumCommandRetryWait ∧ protocolRetryAfter e ≤ d) steps
    ∧ concluded sleep operation (length steps) wl w' r.
Proof.
  intros Hop Hs. destruct (retryFrom_runs sleep operation Hop Hs 3 0 (Plain (errorsNew "")) w) as (w' & r & steps & wl & E & Hr & Hl & Hc);
    [done|lia|].
  exists w', r, steps, wl. split; [exact E|]. split; [done|]. split; [lia|]. split; [|done].
  by apply (retried_range sleep operation steps 0 w wl Hr); lia.
Qed.
Lemma retry_terminates_witness :
  ∃ w' r steps wl, retryLifecycle (λ d t, (t + d, Done None)) (λ t : Z, (t, Done (@CErr Z (Plain ErrDirectoryTransport)))) 0 = (w', Done r)
    ∧ retried (λ d t, (t + d, Done None)) (λ t : Z, (t, Done (@CErr Z (Plain ErrDirectoryTransport)))) steps 0 0 wl
    ∧ (length steps ≤ 2)%nat.
Proof.
  destruct (retry_terminates (λ d t, (t + d, Done None)) (λ t : Z, (t, Done (@CErr Z (Plain ErrDirectoryTransport)))) 0)
    as (w' & r & steps & wl & H1 & H2 & H3 & _).
  - intros w. exists w, (CErr (Plain ErrDirectoryTransport)). reflexivity.
  - intros d w. exists (w + d), None. reflexivity.
  - exists w', r, steps, wl. split; [exact H1|]. split; [exact H2|exact H3].
Defined.

(** ** Loading reads *)

(** Without interference, nothing of the file system changes. *)
Definition fsSame (f f' : FsWorld) : Prop := exclusive f → fw_fs f' = fw_fs f ∧ exclusive f'.
#[export] Instance fsSame_preorder : PreOrder fsSame.
Proof.
  split; [by intros f He|]. intros f1 f2 f3 H12 H23 He. destruct (H12 He) as [E1 He2]. destruct (H23 He2) as [E2 He3].
  split; [congruence|done].
Qed.
Lemma runs_fsSame_read {A} (op : Fs → Fs * result A) : (∀ fs, (op fs).1 = fs) → runs fsSame (syscall op).
Proof.
  intros Hr f. unfold syscall, syscallP. set (fs := fw_others f (fw_calls f) (fw_fs f)).
  destruct (fw_fails f (fw_calls f)); [|specialize (Hr fs); destruct (op fs) as [fs' r]; simpl in Hr];
    (eexists _, _; split; [reflexivity|]); intros [Ho Hn]; subst; (split; [simpl; unfold fs; by rewrite Ho|by split]).
Qed.
Lemma runs_fsSame_getenv k : runs fsSame (os_Getenv k).
Proof. intros f. eexists _, _. split; [reflexivity|]. reflexivity. Qed.
#[local] Hint Extern 1 (runs fsSame (syscall _)) => apply runs_fsSame_read; done : runs.
#[local] Hint Resolve runs_fsSame_getenv : runs.
#[local] Hint Extern 1 (runs fsSame (os_Lstat _)) => apply runs_fsSame_read; done : runs.
#[local] Hint Extern 1 (runs fsSame (os_ReadFile _)) => apply runs_fsSame_read; done : runs.
#[local] Hint Extern 1 (runs fsSame (openNoFollow _)) => apply runs_fsSame_read; done : runs.
#[local] Hint Extern 1 (runs fsSame (file_Stat _)) => apply runs_fsSame_read; done : runs.
#[local] Hint Extern 1 (runs fsSame (readAllLimit _ _)) => apply runs_fsSame_read; done : runs.

Section load.
Context {PrivateKey : Type} (yaml : YamlLib) (keys : KeyLib PrivateKey) (pa : string → result string).
Lemma runs_LoadConfig path : runs fsSame (LoadConfig yaml keys pa path).
Proof. unfold LoadConfig, readRegularNoFollow, build, LoadActorPrivateKey, readPrivateKeyRSA. runs_auto. Qed.
Lemma build_fields src path pem dom ds p se ru ws f f' c :
  build keys src path pem dom ds p se ru ws f = (f', Done (Ok c)) → cfgSource c = src ∧ cfgPath c = path.
Proof.
  unfold build. destruct (_ || _); [done|]. destruct (ParseOrigin _) as [b|]; [|done].
  intros (f1 & k & _ & E)%bind_inv. destruct k; [|done]. by injection E as _ <-.
Qed.
Lemma LoadConfig_file path f f' c i0 body : exclusive f → complete (fw_fs f) i0 body →
  fs_dir (fw_fs f) !! resolve path = Some i0 → LoadConfig yaml keys pa path f = (f', Done (Ok c)) →
  cfgSource c = SourceFile ∧ cfgPath c = path ∧ fw_fs f' = fw_fs f ∧ exclusive f'.
Proof.
  intros He (i & Hi & Hk & _) Hd E. destruct (runs_LoadConfig path f) as (f1 & r1 & E1 & Hs). rewrite E in E1.
  injection E1 as <- <-. destruct (Hs He) as [Hf He']. unfold LoadConfig in E. destruct (_ || _); [done|].
  apply bind_inv in E as (f2 & info & E2 & E). destruct info as [info|e].
  - destruct (negb _); [done|]. apply bind_inv in E as (f3 & b & _ & E). destruct b as [b|]; [|done].
    destruct (decodeYAML yaml b) as [root|]; [|done]. destruct (fileSettings _ _ root) as [[[[[[? ?] ?] [? ?]] ?] ?]|]; [|done].
    by apply build_fields in E as [-> ->].
  - exfalso. unfold os_Lstat, syscall, syscallP in E2. destruct He as [Ho _]. rewrite Ho in E2.
    destruct (fw_fails f (fw_calls f)); [injection E2 as <- <-; done|].
    unfold lookupName in E2. rewrite Hd, Hi in E2. done.
Qed.
End load.

(** ** Commands that send nothing *)

Section mute.
Context {S : Type} `{RedisLaws S}.
Abbreviation CW := (CmdWorld S).
Definition silent (w w' : CW) : Prop := w_sentRequests (cw_world w') = w_sentRequests (cw_world w).
(** When it returns, nothing was sent. *)
Definition mute {A} (m : M CW A) : Prop := ∀ w w' a, m w = (w', Done a) → silent w w'.
Lemma mute_ret {A} (a : A) : mute (mret a).
Proof. by intros w w' b [= <- _]. Qed.
Lemma mute_bind {A B} (m : M CW A) (f : A → M CW B) : mute m → (∀ a, mute (f a)) → mute (m ≫= f).
Proof.
  intros Hm Hf w w' b (w1 & a & E1 & E2)%bind_inv. apply Hm in E1. apply Hf in E2. unfold silent in *. congruence.
Qed.
Lemma mute_inFs {A} (m : Mf A) : mute (inFs (S := S) m).
Proof. intros w w' a E. unfold inFs in E. destruct (m (cw_fs w)). injection E as <- _. done. Qed.
Lemma mute_inWorld {A} (m : M (World S) A) : runs quietW m → mute (inWorld m).
Proof.
  intros Hm w w' a E. unfold inWorld in E. destruct (Hm (cw_world w)) as (w1 & b & E1 & [Hq _]). rewrite E1 in E.
  injection E as <- _. exact Hq.
Qed.
Lemma mute_printf l : mute (printf (S := S) l).
Proof. by intros w w' a [= <- _]. Qed.
#[local] Hint Resolve quietW_redis quiet_timeNow quiet_uuidNew quiet_Load quiet_SaveOwned quiet_Renew quiet_Release
  quiet_Acquire : runs.
Lemma quiet_maintain n l : runs quietW (maintainSchedulerLease (S := S) n l).
Proof. induction n as [|n IH]; cbn [maintainSchedulerLease]; runs_auto. Qed.
Lemma quiet_releaseLease l : runs quietW (releaseSchedulerLease (S := S) l).
Proof. unfold releaseSchedulerLease. runs_auto. Qed.
#[local] Hint Resolve mute_ret mute_inFs mute_inWorld mute_printf quiet_maintain quiet_releaseLease : runs.
Ltac mute_auto :=
  repeat match goal with
  | |- mute (_ ≫= _) => apply mute_bind; [|intros ?]
  | |- mute (match _ with _ => _ end) => case_match
  | |- mute (if _ then _ else _) => case_match
  end; eauto with runs.
Lemma mute_lost n held : mute (leaseHasBeenLost (S := S) n held).
Proof. unfold leaseHasBeenLost. mute_auto. Qed.
Lemma mute_saveSuppressed o f lost held : mute (saveSuppressed (S := S) o f lost held).
Proof. unfold saveSuppressed. mute_auto. Qed.
Lemma mute_endLease env held : mute (endLease (S := S) env held).
Proof. unfold endLease. mute_auto. Qed.

Context {PrivateKey Base : Type} (lib : ClientLib PrivateKey Base) (yaml : YamlLib) (keys : KeyLib PrivateKey)
  (parseRedisURL : string → result unit) (sleep : Duration → M CW (option error)).
Abbreviation deps := (productionDependencies lib yaml keys parseRedisURL sleep).

Lemma mute_disableLocally config flags o : mute (disableLocally deps config flags o).
Proof. unfold disableLocally. simpl. mute_auto. Qed.
Lemma mute_takeLease config o : mute (takeLease deps config o).
Proof. unfold takeLease. mute_auto. Qed.
Lemma inWorld_inv {A} (m : M (World S) A) (w w' : CW) a : inWorld m w = (w', Done a) →
  m (cw_world w) = (cw_world w', Done a) ∧ cw_fs w' = cw_fs w.
Proof. unfold inWorld. destruct (m (cw_world w)) as [w1 o]. by intros [= <- ->]. Qed.
Lemma inFs_inv {A} (m : Mf A) (w w' : CW) a : inFs m w = (w', Done a) →
  m (cw_fs w) = (cw_fs w', Done a) ∧ cw_world w' = cw_world w.
Proof. unfold inFs. destruct (m (cw_fs w)) as [f o]. by intros [= <- ->]. Qed.

(** What the command did from the world [w] in which it holds what it holds to the world [wq] of its
    first request: it switched the entry off in the file, and under a lease it kept (renewed as
    often as [env] says), it stored the state that keeps the scheduler away. *)
Record prepared (config : Config PrivateKey) (origin : string) (env : leaseEnv) (held : option (redisLease * State)) (w wq : CW)
    : Prop := {
  prep_off : ∃ backup, DisableFile yaml (cfgPath config) origin (cw_fs w) = (cw_fs wq, Done (Ok backup));
  prep_suppressed :
    match held with
    | None => cw_world wq = cw_world w
    | Some (lease, state) => ∃ wa wt wd now,
        maintainSchedulerLease (firesBeforeSave env) lease (cw_world w) = (wa, Done false)
        ∧ timeNow wa = (wt, Done now)
        ∧ SaveOwned origin lease (suppressed state (Registered state) now) wt = (wd, Done (Ok true))
        ∧ maintainSchedulerLease (firesBeforeRequest env) lease wd = (cw_world wq, Done false)
    end;
  prep_silent : silent w wq }.

Lemma leaseHasBeenLost_fs n held (w w' : CW) b : leaseHasBeenLost n held w = (w', Done b) → cw_fs w' = cw_fs w.
Proof. unfold leaseHasBeenLost. destruct held as [[lease state]|]; [by intros [_ ?]%inWorld_inv|by intros [= <- _]]. Qed.
Lemma saveSuppressed_fs o f lost held (w w' : CW) b : saveSuppressed o f lost held w = (w', Done b) → cw_fs w' = cw_fs w.
Proof.
  unfold saveSuppressed. destruct held as [[lease state]|]; [|by intros [= <- _]].
  intros (w1 & now & [_ E1]%inWorld_inv & E)%bind_inv. destruct lost; [by injection E as <- _|].
  apply bind_inv in E as (w2 & r & [_ E2]%inWorld_inv & E). injection E as <- _. congruence.
Qed.
Lemma saveSuppressed_saved o lost lease state w w' :
  saveSuppressed o Registered lost (Some (lease, state)) w = (w', Done true) →
  lost = false ∧ ∃ wt now, timeNow (cw_world w) = (wt, Done now)
    ∧ SaveOwned o lease (suppressed state (Registered state) now) wt = (cw_world w', Done (Ok true)).
Proof.
  unfold saveSuppressed. intros (w1 & now & [E1 _]%inWorld_inv & E)%bind_inv. destruct lost; [done|].
  apply bind_inv in E as (w2 & r & E2 & E). injection E as <- Hr. apply inWorld_inv in E2 as [E2 _].
  split; [done|]. exists (cw_world w1), now. by destruct r as [[]|].
Qed.
Ltac contradict_mute E Hne := exfalso; apply Hne; injection E as <- _; unfold silent in *; congruence.

Lemma unregisterBody_prepared config flags entry client env held w w' r :
  cfgSource config = SourceFile →
  unregisterBody lib deps config flags entry client env held w = (w', Done r) →
  ¬ silent w w' → ∃ wq, prepared config (Origin entry) env held w wq
    ∧ remoteUnregister lib deps config flags entry client env held wq = (w', Done r).
Proof.
  intros Hsrc E Hne. unfold unregisterBody in E. apply bind_inv in E as (w1 & off & E1 & E).
  pose proof (mute_disableLocally _ _ _ _ _ _ E1) as Q1. destruct off; [contradict_mute E Hne|].
  unfold disableLocally in E1. rewrite decide_True in E1 by done.
  apply bind_inv in E1 as (wb & b & Ed & E1). destruct b as [backup|e].
  2: { by injection E1 as _ ?. }
  apply inFs_inv in Ed as [Ed Wd]. apply bind_inv in E1 as (wb' & u & Ep & E1). injection Ep as <- _. injection E1 as <-.
  apply bind_inv in E as (w2 & lost & E2 & E). pose proof (mute_lost _ _ _ _ _ E2) as Q2.
  pose proof (leaseHasBeenLost_fs _ _ _ _ _ E2) as F2.
  apply bind_inv in E as (w3 & saved & E3 & E). pose proof (mute_saveSuppressed _ _ _ _ _ _ _ E3) as Q3.
  pose proof (saveSuppressed_fs _ _ _ _ _ _ _ E3) as F3. destruct saved; [|contradict_mute E Hne]. cbn [negb] in E.
  apply bind_inv in E as (w4 & lost' & E4 & E). pose proof (mute_lost _ _ _ _ _ E4) as Q4.
  pose proof (leaseHasBeenLost_fs _ _ _ _ _ E4) as F4. destruct lost'; [contradict_mute E Hne|].
  exists w4. split; [|exact E]. split; [exists backup; rewrite F4, F3, F2; exact Ed| |unfold silent in *; congruence].
  destruct held as [[lease state]|]; [|injection E2 as <- _; injection E3 as <-; injection E4 as <-; exact Wd].
  apply saveSuppressed_saved in E3 as (-> & wt & now & Et & E3). apply inWorld_inv in E2 as [E2 _].
  apply inWorld_inv in E4 as [E4 _]. exists (cw_world w2), wt, (cw_world w3), now. cbn in E2. by rewrite <- Wd.
Qed.

Lemma mute_loadCommandConfig flag : mute (loadCommandConfig deps flag).
Proof. unfold loadCommandConfig. simpl. mute_auto. Qed.
Lemma takeLease_fs config o w w' x : takeLease deps config o w = (w', Done x) → cw_fs w' = cw_fs w.
Proof.
  unfold takeLease. destruct (negb _); [by intros [= <- _]|]. intros (w1 & l & [_ E1]%inWorld_inv & E)%bind_inv.
  destruct l as [[lease|]|]; [|by injection E as <- _..]. apply bind_inv in E as (w2 & st & [_ E2]%inWorld_inv & E).
  destruct st; [injection E as <- _; congruence|]. apply bind_inv in E as (w3 & u & [_ E3]%inWorld_inv & E).
  injection E as <- _. congruence.
Qed.
Lemma ConfigDirectory_origin (config : Config PrivateKey) o entry : ConfigDirectory config o = Ok entry → Origin entry = o.
Proof.
  unfold ConfigDirectory. destruct (ParseOrigin o) as [u|] eqn:E; [|done]. apply ParseOrigin_String in E.
  destruct (list_find _ _) as [[j e]|] eqn:Ef; [|done]. apply list_find_Some in Ef as (_ & He & _). intros [= <-]. congruence.
Qed.
Lemma selectedClient_origin config o entry client (d : dependencies S PrivateKey) b :
  selectedClient config o d b = Ok (entry, client) → Origin entry = o.
Proof.
  unfold selectedClient. destruct (ConfigDirectory config o) as [e|] eqn:E; [|done]. apply ConfigDirectory_origin in E.
  destruct (_ && _); [done|]. destruct (depClient d config (Origin e)); [|done]. by intros [= <- _].
Qed.

End mute.

(** ** An example *)

Definition unregisterNet (n : nat) (r : httpRequest) : result httpResponse :=
  match n with
  | 0%nat => jsonAnswer 200 (JObject [("schema_version", jint 4); ("lifecycle_protocol_versions", JArray [jint 1; jint 2; jint 3]);
      ("service", JString "activity-relay-directory"); ("version", JString "1.4.0");
      ("public_base_url", JString "https://a.example")])
  | _ => jsonAnswer 200 (answerDoc "unregister" "removed")
  end.
Definition commandWorld : CmdWorld Calm :=
  mkCmdWorld (withNet unregisterNet (quietWorld (mkCalm 1000 emptyDb) (zeroRelayState false)))
    (demoFsWorld (demoEncode demoDocument)) [].
Definition commandKeys : KeyLib unit := mkKeyLib unit (λ s, Some s) (λ _, Ok tt).
Definition demoUnregister : CmdWorld Calm * outcome (option error) :=
  unregisterCommand demoLib
    (productionDependencies demoLib demoYaml commandKeys (λ _, Ok tt) (λ _, mret None))
    (mkUnregisterFlags false false) (mkLeaseEnv 1 1 2 true) (Ok demoPath) "https://a.example" commandWorld.
#[local] Abbreviation unregisterDeps := (productionDependencies demoLib demoYaml commandKeys (λ _, Ok tt) (λ _, mret None)).
#[local] Abbreviation unregisterOptions := (mkUnregisterFlags false false).
#[local] Abbreviation unregisterEnv := (mkLeaseEnv 1 1 2 true).
