(* ===== verification/RelayConfig.v ===== *)
(** * The relay configuration (models/config.go, models/utils.go, models/models.go)

    The configuration library is a parameter ([Viper]): what each setting reads as.
    So are the decoding of keys ([KeyLib], [publicKeyPEM]), [redis.ParseURL], and
    whether Redis answered the ping at start-up.  The Machinery library's server is
    kept as what the code hands to its constructors. *)

From S2P Require Import Prelude GoStrings GoUrl GoTime Json Redis World FileSystem PublicAddressPolicy.
From S2P Require Import Negotiation ActivityModel DirectoryOrigin DirectoryConfig.

(** A setting as [viper.Get] returns it. *)
Inductive viperValue := ViperBool (b : bool) | ViperOther.
Record Viper := mkViper {
  viperGet : string → option viperValue;
  viperString : string → string;
  viperInt : string → Z;
  (** [viper.UnmarshalKey] into the list of directories *)
  viperDirectories : result (list Directory) }.

Record redisOptions := mkRedisOptions {
  roNetwork : string; roAddr : string; roUsername : string; roPassword : string; roDB : Z; roTLS : bool }.

(** [parsed.Redacted()]. *)
Definition URL_Redacted (u : URL) : string :=
  match User u with
  | Some (name, Some _) =>
      URL_String (mkURL (Scheme u) (Opaque u) (Some (name, Some "xxxxx")) (Host u) (Path u) (RawPath u) (OmitHost u)
                    (ForceQuery u) (RawQuery u) (Fragment u) (RawFragment u))
  | _ => URL_String u
  end.
Definition redactedRedisURL (redisURL : string) : string :=
  match url_Parse redisURL with Err _ => "<invalid>" | Ok parsed => URL_Redacted parsed end.

(** [net.SplitHostPort]: host and port. *)
Definition addrError (address why : string) : error :=
  errorsNew (if address =s "" then why else "address " +:+ address +:+ ": " +:+ why).
Definition SplitHostPort (hostport : string) : result (string * string) :=
  match cutLast hostport ":"%char with
  | None => Err (addrError hostport "missing port in address")
  | Some (before, port) =>
      match cutPrefix "[" hostport with
      | Some rest =>
          match Cut rest "]"%char with
          | (_, _, false) => Err (addrError hostport "missing ']' in address")
          | (host, after, true) =>
              if after =s "" then Err (addrError hostport "missing port in address")
              else if negb (before =s "[" +:+ host +:+ "]") then
                Err (addrError hostport (if HasPrefix after ":" then "too many colons in address" else "missing port in address"))
              else if containsByte "["%char rest then Err (addrError hostport "unexpected '[' in address")
              else if containsByte "]"%char after then Err (addrError hostport "unexpected ']' in address")
              else Ok (host, port)
          end
      | None =>
          if containsByte ":"%char before then Err (addrError hostport "too many colons in address")
          else if containsByte "["%char hostport then Err (addrError hostport "unexpected '[' in address")
          else if containsByte "]"%char hostport then Err (addrError hostport "unexpected ']' in address")
          else Ok (before, port)
      end
  end.
Definition validateBindAddress (address : string) : result unit :=
  '(_, port) ← SplitHostPort address;
  if port =s "" then Err (errorsNew "port is empty")
  else match parseUint 16 port with
  | None => Err (errorsNew "port must be numeric")
  | Some portNumber => if portNumber =? 0 then Err (errorsNew "port must be greater than zero") else Ok tt
  end.

Section config.
Context {S : Type} `{Redis S} {PrivateKey : Type} (viper : Viper) (keys : KeyLib PrivateKey)
  (parseRedisURL : string → result redisOptions).

Record RelayConfig := mkRelayConfig {
  rcActorKey : PrivateKey; rcDomain : URL; rcRedisClient : bool; rcRedisOptions : redisOptions; rcRedisURL : string;
  rcRedisDisplayURL : string; rcServerBind : string; rcObservabilityBind : string; rcServiceName : string;
  rcServiceSummary : string; rcServiceIconURL : option URL; rcServiceImageURL : option URL; rcJobConcurrency : Z;
  rcMaxActivityBytes : Z; rcMaxFanoutTargets : Z; rcMaxQueueJobs : Z; rcDistributionPolicy : string;
  rcSignatureProfile : string; rcNegotiator : option (DestinationNegotiator S); rcDirectories : list Directory;
  rcSchedulerEnabled : bool; rcConfigurationPath : string }.

(** An error of a setting. *)
Definition settingErr {A} (name : string) (r : result A) : result A :=
  match r with Ok a => Ok a | Err e => Err (errorsNew (name +:+ ": " +:+ err_text e)) end.
Definition optionalURL (name : string) : option URL :=
  match url_ParseRequestURI (viperString viper name) with Ok u => Some u | Err _ => None end.
(** A limit with its default and its least value. *)
Definition limitSetting (name : string) (default_ least : Z) (message : string) : result Z :=
  let value := viperInt viper name in
  let value := if value =? 0 then default_ else value in
  if value <? least then Err (errorsNew message) else Ok value.
Definition schedulerSetting : result bool :=
  match viperGet viper "DIRECTORY_SCHEDULER_ENABLED" with
  | None => Ok false
  | Some (ViperBool b) => Ok b
  | Some ViperOther => Err (errorsNew "DIRECTORY_SCHEDULER_ENABLED: must be a boolean")
  end.
Definition relayDirectoriesSetting : result (list Directory) :=
  match viperDirectories viper with
  | Err _ => Err (errorsNew "DIRECTORIES: invalid directory list")
  | Ok entries => settingErr "DIRECTORIES" (ParseDirectories entries)
  end.
(** The settings that are checked before the key is read. *)
Record Settings := mkSettings {
  setScheduler : bool; setDirectories : list Directory; setPolicy : string; setProfile : string; setDomain : URL;
  setConcurrency : Z; setActivityBytes : Z; setFanout : Z; setQueue : Z }.
Definition readSettings : result Settings :=
  scheduler ← schedulerSetting;
  directories ← relayDirectoriesSetting;
  policy ← settingErr "PUBLIC_ADDRESS_DISTRIBUTION_POLICY"
             (ParsePublicAddressDistributionPolicy (viperString viper "PUBLIC_ADDRESS_DISTRIBUTION_POLICY"));
  profile ← settingErr "OUTBOUND_SIGNATURE_PROFILE" (ParseOutboundProfile (viperString viper "OUTBOUND_SIGNATURE_PROFILE"));
  domain ← settingErr "RELAY_DOMAIN" (url_ParseRequestURI ("https://" +:+ viperString viper "RELAY_DOMAIN"));
  concurrency ← (let jobConcurrency := viperInt viper "JOB_CONCURRENCY" in
                 if jobConcurrency <? 1 then Err (errorsNew "JOB_CONCURRENCY IS 0 OR EMPTY. SHOULD BE SET MORE THAN 1")
                 else Ok jobConcurrency);
  activityBytes ← limitSetting "MAX_ACTIVITY_BYTES" (1024 * 1024) 1024 "MAX_ACTIVITY_BYTES SHOULD BE AT LEAST 1024";
  fanout ← limitSetting "MAX_FANOUT_TARGETS" 5000 1 "MAX_FANOUT_TARGETS SHOULD BE POSITIVE";
  queue ← limitSetting "MAX_QUEUE_JOBS" 100000 1 "MAX_QUEUE_JOBS SHOULD BE POSITIVE";
  Ok (mkSettings scheduler directories policy profile domain concurrency activityBytes fanout queue).

(** The negotiator over the capability store with its default prefix. *)
Definition runtimeNegotiator : result (DestinationNegotiator S) :=
  settingErr "HTTP SIGNATURE NEGOTIATOR"
    (NewDestinationNegotiator
       (mkNegOptions (Some (RedisDestinationCapabilityStore (NewRedisDestinationCapabilityStore ""))) 0 0 None)).
Definition observabilitySetting : result string :=
  let bind := TrimSpace (viperString viper "OBSERVABILITY_BIND") in
  if bind =s "" then Ok ""
  else match settingErr "OBSERVABILITY_BIND" (validateBindAddress bind) with Ok _ => Ok bind | Err e => Err e end.

Definition newRelayConfig (ping : result unit) (validationOnly : bool) : Mf (result RelayConfig) :=
  match readSettings with
  | Err e => mret (Err e)
  | Ok s =>
      key ← readPrivateKeyRSA keys (viperString viper "ACTOR_PEM");
      mret (
        privateKey ← settingErr "ACTOR_PEM" key;
        let redisURL := viperString viper "REDIS_URL" in
        options ← settingErr "REDIS_URL" (parseRedisURL redisURL);
        negotiator ← (if validationOnly then Ok None
                      else (_ ← settingErr "REDIS_URL" ping; ng ← runtimeNegotiator; Ok (Some ng)));
        observabilityBind ← observabilitySetting;
        Ok (mkRelayConfig privateKey (setDomain s) (negb validationOnly) options redisURL (redactedRedisURL redisURL)
              (viperString viper "RELAY_BIND") observabilityBind (viperString viper "RELAY_SERVICENAME")
              (viperString viper "RELAY_SUMMARY") (optionalURL "RELAY_ICON") (optionalURL "RELAY_IMAGE")
              (setConcurrency s) (setActivityBytes s) (setFanout s) (setQueue s) (setPolicy s) (setProfile s)
              negotiator (setDirectories s) (setScheduler s) ""))
  end.
Definition NewRelayConfig (ping : result unit) : Mf (result RelayConfig) := newRelayConfig ping false.
Definition ValidateRelayConfig (ping : result unit) : Mf (option error) :=
  r ← newRelayConfig ping true; mret (match r with Ok _ => None | Err e => Some e end).

(** ** Accessors; [None] is a nil receiver *)

Definition DirectorySchedulerEnabled (relayConfig : option RelayConfig) : bool :=
  match relayConfig with Some c => rcSchedulerEnabled c | None => false end.
Definition SetConfigurationPath (path : string) (c : RelayConfig) : RelayConfig :=
  mkRelayConfig (rcActorKey c) (rcDomain c) (rcRedisClient c) (rcRedisOptions c) (rcRedisURL c) (rcRedisDisplayURL c)
    (rcServerBind c) (rcObservabilityBind c) (rcServiceName c) (rcServiceSummary c) (rcServiceIconURL c)
    (rcServiceImageURL c) (rcJobConcurrency c) (rcMaxActivityBytes c) (rcMaxFanoutTargets c) (rcMaxQueueJobs c)
    (rcDistributionPolicy c) (rcSignatureProfile c) (rcNegotiator c) (rcDirectories c) (rcSchedulerEnabled c) path.
Definition ConfigurationPath (relayConfig : option RelayConfig) : string :=
  match relayConfig with Some c => rcConfigurationPath c | None => "" end.
Definition ConfigPublicAddressPolicy (relayConfig : option RelayConfig) : string :=
  match relayConfig with
  | None => PublicAddressPublicAndUnlisted
  | Some c => if rcDistributionPolicy c =s "" then PublicAddressPublicAndUnlisted else rcDistributionPolicy c
  end.
Definition ConfigSignatureProfile (relayConfig : option RelayConfig) : string :=
  match relayConfig with
  | None => ProfileLegacy
  | Some c => if rcSignatureProfile c =s "" then ProfileLegacy else rcSignatureProfile c
  end.

(** [NewActivityPubActorFromRelayConfig]; [publicKeyPEM] encodes the public half of a key, the
    empty string when it cannot be encoded. *)
Definition NewActivityPubActorFromRelayConfig (publicKeyPEM : PrivateKey → string) (c : RelayConfig) : Actor :=
  let hostname := URL_String (rcDomain c) in
  mkActor (Some (JArray [JString "https://www.w3.org/ns/activitystreams"; JString "https://w3id.org/security/v1"]))
    (hostname +:+ "/actor") "Application" (rcServiceName c) "relay" (rcServiceSummary c) (hostname +:+ "/inbox")
    (hostname +:+ "/actor/outbox") (hostname +:+ "/actor/following") (hostname +:+ "/actor/followers")
    (Some (hostname +:+ "/inbox"))
    (mkPublicKey (hostname +:+ "/actor#main-key") (hostname +:+ "/actor") (publicKeyPEM (rcActorKey c)))
    (URL_String <$> rcServiceIconURL c) (URL_String <$> rcServiceImageURL c).

Definition newline : string := ofBytes [chr 10].
Definition DumpWelcomeMessage (c : RelayConfig) (moduleName version : string) : string :=
  let observabilityBind := if rcObservabilityBind c =s "" then "disabled" else rcObservabilityBind c in
  "Welcome to Activity-Relay " +:+ version +:+ " - " +:+ moduleName +:+ newline +:+ " - Configuration" +:+ newline
  +:+ "RELAY NAME      : " +:+ rcServiceName c +:+ newline +:+ "RELAY DOMAIN    : " +:+ Host (rcDomain c) +:+ newline
  +:+ "REDIS URL       : " +:+ rcRedisDisplayURL c +:+ newline +:+ "BIND ADDRESS    : " +:+ rcServerBind c +:+ newline
  +:+ "OBSERVABILITY   : " +:+ observabilityBind +:+ newline
  +:+ "SIGNATURE PROFILE: " +:+ ConfigSignatureProfile (Some c) +:+ newline
  +:+ "PUBLIC ADDRESS POLICY: " +:+ ConfigPublicAddressPolicy (Some c) +:+ newline
  +:+ "JOB_CONCURRENCY : " +:+ itoa (rcJobConcurrency c) +:+ newline.

(** ** Machinery *)

Definition machineryRedisAddress (options : redisOptions) : string :=
  if (roUsername options =s "") && (roPassword options =s "") then roAddr options
  else if roUsername options =s "" then roPassword options +:+ "@" +:+ roAddr options
  else roUsername options +:+ ":" +:+ roPassword options +:+ "@" +:+ roAddr options.
Definition machineryQueueName : string := "relay".
Definition machineryResultsExpireSeconds : Z := 1.
(** The configuration and the arguments of the broker's and the backend's constructor. *)
Record machineryConf := mkMachineryConf {
  mcBroker : string; mcDefaultQueue : string; mcResultBackend : string; mcResultsExpireIn : Z; mcTLS : bool;
  mcMaxIdle : Z; mcIdleTimeout : Z; mcReadTimeout : Z; mcWriteTimeout : Z; mcConnectTimeout : Z;
  mcNormalTasksPollPeriod : Z; mcDelayedTasksPollPeriod : Z }.
Definition machineryConfig (options : redisOptions) (displayURL : string) : machineryConf :=
  mkMachineryConf displayURL machineryQueueName displayURL machineryResultsExpireSeconds (roTLS options)
    3 240 15 15 15 1000 500.
Inductive machineryEndpoint :=
  | GoRedisEndpoint (addresses : list string) (db : Z)
  | RedigoEndpoint (host username password socket : string) (db : Z).
Definition NewMachineryServer (globalConfig : option RelayConfig) : result (machineryConf * machineryEndpoint) :=
  match globalConfig with
  | None => Err (errorsNew "Redis configuration is unavailable")
  | Some c =>
      let options := rcRedisOptions c in
      let cnf := machineryConfig options (rcRedisDisplayURL c) in
      if roNetwork options =s "tcp" then Ok (cnf, GoRedisEndpoint [machineryRedisAddress options] (roDB options))
      else if roNetwork options =s "unix" then
        Ok (cnf, RedigoEndpoint "" (roUsername options) (roPassword options) (roAddr options) (roDB options))
      else Err (errorsNew ("unsupported Redis network " +:+ quote (roNetwork options) +:+ " for Machinery"))
  end.
End config.
Arguments RelayConfig S PrivateKey : clear implicits.
