(* ===== verification/RelayConfigSpec.v ===== *)
(** * What an accepted configuration guarantees *)

From S2P Require Import Prelude GoStrings GoUrl GoTime Redis World FileSystem PublicAddressPolicy Negotiation.
From S2P Require Import DirectoryOrigin DirectoryConfig RelayConfig.

Section spec.
Context {S : Type} `{Redis S} {PrivateKey : Type} (viper : Viper) (keys : KeyLib PrivateKey)
  (parseRedisURL : string → result redisOptions).

Lemma settingErr_Ok {A} name (r : result A) a : settingErr name r = Ok a → r = Ok a.
Proof. by destruct r. Qed.
Lemma limitSetting_range name d least msg z : limitSetting viper name d least msg = Ok z → least ≤ z.
Proof. unfold limitSetting. set (v := if _ =? 0 then _ else _). destruct (Z.ltb_spec v least); [done|]. by intros [= <-]. Qed.
Lemma relayDirectories_valid ds : relayDirectoriesSetting viper = Ok ds →
  (length ds ≤ 8)%nat ∧ Forall originOk (Origin <$> ds) ∧ NoDup (Origin <$> ds).
Proof.
  unfold relayDirectoriesSetting. destruct (viperDirectories viper) as [es|]; [|done]. intros E%settingErr_Ok.
  unfold ParseDirectories, MaximumDirectories in E. destruct (Z.ltb_spec 8 (Z.of_nat (length es))); [done|].
  apply parseEntries_Ok in E as (-> & Hf & Hn & _). split; [lia|done].
Qed.
Lemma policy_valid v p : ParsePublicAddressDistributionPolicy v = Ok p →
  p = PublicAddressExplicitPublicOnly ∨ p = PublicAddressPublicAndUnlisted.
Proof. unfold ParsePublicAddressDistributionPolicy. repeat case_match; naive_solver. Qed.
Lemma profile_valid v p : ParseOutboundProfile v = Ok p → p = ProfileLegacy ∨ p = ProfileRFC9421 ∨ p = ProfileDual.
Proof.
  unfold ParseOutboundProfile, ParseProfile. case_match; [intros [= <-]; auto|]. case_match; [intros [= <-]; auto|].
  unfold profileValidate. intros (u & Hu & [= <-])%result_bind_Ok. case_match; [|done].
  match goal with Hx : oneOf _ _ = true |- _ => apply oneOf_true in Hx; set_solver end.
Qed.
Lemma observability_valid b : observabilitySetting viper = Ok b → b = "" ∨ validateBindAddress b = Ok tt.
Proof.
  unfold observabilitySetting. destruct (eqs _ ""); [intros [= <-]; auto|].
  destruct (settingErr _ _) as [[]|] eqn:E; [|done]. intros [= <-]. right. by apply settingErr_Ok in E.
Qed.
Lemma parseUint_range w p n : parseUint w p = Some n → 0 ≤ n < 2 ^ w.
Proof.
  unfold parseUint, parseDigits. intros E. apply bind_Some in E as (z & Hz & E). destruct (Z.ltb_spec z (2 ^ w)); [|done].
  injection E as <-. split; [|done]. destruct p as [|c r]; [done|]. apply fmap_Some in Hz as (u & _ & ->). apply N2Z.is_nonneg.
Qed.
(** The negotiator's defaults are always accepted. *)
Lemma runtimeNegotiator_Ok : ∃ ng, runtimeNegotiator (S := S) = Ok ng.
Proof. unfold runtimeNegotiator, NewDestinationNegotiator. cbn. eexists. reflexivity. Qed.

Lemma readSettings_sound s : readSettings viper = Ok s →
  (length (setDirectories s) ≤ 8)%nat ∧ Forall originOk (Origin <$> setDirectories s) ∧ NoDup (Origin <$> setDirectories s)
  ∧ (setPolicy s = PublicAddressExplicitPublicOnly ∨ setPolicy s = PublicAddressPublicAndUnlisted)
  ∧ (setProfile s = ProfileLegacy ∨ setProfile s = ProfileRFC9421 ∨ setProfile s = ProfileDual)
  ∧ url_ParseRequestURI ("https://" +:+ viperString viper "RELAY_DOMAIN") = Ok (setDomain s)
  ∧ 1 ≤ setConcurrency s ∧ 1024 ≤ setActivityBytes s ∧ 1 ≤ setFanout s ∧ 1 ≤ setQueue s.
Proof.
  unfold readSettings. intros (sch & _ & E)%result_bind_Ok. apply result_bind_Ok in E as (ds & Hds & E).
  apply result_bind_Ok in E as (p & Hp%settingErr_Ok & E). apply result_bind_Ok in E as (pr & Hpr%settingErr_Ok & E).
  apply result_bind_Ok in E as (dom & Hdom%settingErr_Ok & E). apply result_bind_Ok in E as (jc & Hjc & E).
  apply result_bind_Ok in E as (ab & Hab%limitSetting_range & E). apply result_bind_Ok in E as (fo & Hfo%limitSetting_range & E).
  apply result_bind_Ok in E as (q & Hq%limitSetting_range & E). injection E as <-. cbn.
  destruct (Z.ltb_spec (viperInt viper "JOB_CONCURRENCY") 1); [done|]. injection Hjc as <-.
  destruct (relayDirectories_valid ds Hds) as (? & ? & ?). pose proof (policy_valid _ _ Hp). pose proof (profile_valid _ _ Hpr).
  done.
Qed.

(** C35: A configuration that is accepted is within its bounds.  Whatever the configuration
    source holds, an accepted relay configuration has a positive concurrency, fan-out and
    queue limit, a body limit of at least 1 KiB, at most eight distinct directory
    origins that ParseOrigin accepts as they are written, one of the two distribution
    policies and one of the three signature profiles, an observability address that is empty or
    has a numeric port from 1 to 65535, and, when it is to run, a negotiator. *)
Theorem accepted_configuration_is_sound ping validationOnly f f' (c : RelayConfig S PrivateKey) :
  newRelayConfig viper keys parseRedisURL ping validationOnly f = (f', Done (Ok c)) →
  1 ≤ rcJobConcurrency c ∧ 1024 ≤ rcMaxActivityBytes c ∧ 1 ≤ rcMaxFanoutTargets c ∧ 1 ≤ rcMaxQueueJobs c
  ∧ ((length (rcDirectories c) ≤ 8)%nat ∧ Forall originOk (Origin <$> rcDirectories c) ∧ NoDup (Origin <$> rcDirectories c))
  ∧ (ConfigPublicAddressPolicy (Some c) = PublicAddressExplicitPublicOnly
     ∨ ConfigPublicAddressPolicy (Some c) = PublicAddressPublicAndUnlisted)
  ∧ (ConfigSignatureProfile (Some c) = ProfileLegacy ∨ ConfigSignatureProfile (Some c) = ProfileRFC9421
     ∨ ConfigSignatureProfile (Some c) = ProfileDual)
  ∧ (rcObservabilityBind c = ""
     ∨ ∃ host port n, SplitHostPort (rcObservabilityBind c) = Ok (host, port) ∧ parseUint 16 port = Some n ∧ 0 < n < 2 ^ 16)
  ∧ (is_Some (rcNegotiator c) ↔ validationOnly = false) ∧ rcRedisClient c = negb validationOnly.
Proof.
  unfold newRelayConfig. destruct (readSettings viper) as [s|] eqn:Es; [|done].
  apply readSettings_sound in Es as (H1 & H2 & H3 & Hpol & Hpro & _ & Hc & Ha & Hf & Hq).
  unfold mbind, M_bind. destruct (readPrivateKeyRSA keys _ f) as [f1 [key|]]; [|done].
  intros E. injection E as _ E. apply result_bind_Ok in E as (k & _ & E). apply result_bind_Ok in E as (o & _ & E).
  apply result_bind_Ok in E as (ng & Hng & E). apply result_bind_Ok in E as (ob & Hob%observability_valid & E).
  injection E as <-. cbn. repeat split; try done.
  - destruct Hpol as [->| ->]; auto.
  - destruct Hpro as [->|[->| ->]]; auto.
  - destruct Hob as [->|Hob]; [by left|right]. unfold validateBindAddress in Hob.
    apply result_bind_Ok in Hob as ([h p] & Hs & Hob). exists h, p. destruct (eqs p ""); [done|].
    destruct (parseUint 16 p) as [n|] eqn:En; [|done]. exists n. split; [done|]. split; [done|].
    destruct (Z.eqb_spec n 0); [done|]. apply parseUint_range in En. lia.
  - intros [x Hx]. destruct validationOnly; [|done]. injection Hng as <-. done.
  - intros ->. apply result_bind_Ok in Hng as (u & _ & Hng). cbn in Hng. injection Hng as <-. done.
Qed.

(** What a dry run and a start have in common. *)
Definition sameSettings (a b : RelayConfig S PrivateKey) : Prop :=
  b = mkRelayConfig (rcActorKey a) (rcDomain a) true (rcRedisOptions a) (rcRedisURL a) (rcRedisDisplayURL a)
        (rcServerBind a) (rcObservabilityBind a) (rcServiceName a) (rcServiceSummary a) (rcServiceIconURL a)
        (rcServiceImageURL a) (rcJobConcurrency a) (rcMaxActivityBytes a) (rcMaxFanoutTargets a) (rcMaxQueueJobs a)
        (rcDistributionPolicy a) (rcSignatureProfile a) (rcNegotiator b) (rcDirectories a) (rcSchedulerEnabled a)
        (rcConfigurationPath a).

(** The dry run and the start.  From the same settings and files, the dry run
    (relay -t), whatever Redis would have said, and a start whose Redis answers end alike:
    both fail with the same error, or both succeed with the same configuration, except that
    only the second holds the Redis client and the negotiator. *)
Lemma dry_run_agrees_with_start ping f :
  let dry := newRelayConfig (S := S) viper keys parseRedisURL ping true f in
  let start := newRelayConfig viper keys parseRedisURL (Ok tt) false f in
  dry.1 = start.1
  ∧ match dry.2, start.2 with
    | Done (Ok a), Done (Ok b) => sameSettings a b
    | Done (Err e), Done (Err e') => e = e'
    | Panic m, Panic m' => m = m'
    | _, _ => False
    end.
Proof.
  unfold newRelayConfig. cbv zeta. destruct (readSettings viper) as [s|]; [|done].
  unfold mbind, M_bind. destruct (readPrivateKeyRSA keys _ f) as [f1 [key|]]; [|done]. cbn [fst snd mret M_ret].
  split; [done|]. unfold mret, M_ret. cbn [snd]. destruct (settingErr "ACTOR_PEM" key) as [k|]; [|done]. cbn.
  destruct (settingErr "REDIS_URL" (parseRedisURL _)) as [o|]; [|done]. cbn.
  destruct (observabilitySetting viper) as [ob|]; [|done]. cbn. done.
Qed.
End spec.

(** ** Examples *)

Definition demoViper : Viper :=
  mkViper (λ _, None)
    (λ k, if k =s "RELAY_DOMAIN" then "relay.example" else if k =s "OBSERVABILITY_BIND" then " [::1]:9100 "
          else if k =s "REDIS_URL" then "redis://:secret@redis:6379" else if k =s "ACTOR_PEM" then "/etc/relay/actor.pem" else "")
    (λ k, if k =s "JOB_CONCURRENCY" then 50 else 0)
    (Ok [mkDirectory "https://directory.example" true]).
Definition demoKeys : KeyLib unit := mkKeyLib unit (λ s, Some s) (λ _, Ok tt).
Definition demoParseRedis (s : string) : result redisOptions := Ok (mkRedisOptions "tcp" "redis:6379" "" "secret" 0 false).
Definition demoKeyWorld : FsWorld :=
  let k := resolve "/etc/relay/actor.pem" in
  mkFsWorld (mkFs {[ 1%nat := mkInode RegularFile 384 0 0 "pem" (Some "pem") ]} {[ k := 1%nat ]} {[ k := 1%nat ]} [] ∅)
    0 (λ _ fs, fs) (λ _, None) Z.of_nat (λ _, "") [].
Lemma accepted_configuration_is_sound_witness :
  match newRelayConfig (S := Calm) demoViper demoKeys demoParseRedis (Ok tt) false demoKeyWorld with
  | (_, Done (Ok c)) => rcRedisDisplayURL c = "redis://:xxxxx@redis:6379" ∧ rcMaxQueueJobs c = 100000 ∧ 1 ≤ rcMaxFanoutTargets c
  | _ => False
  end.
Proof.
  destruct (newRelayConfig (S := Calm) demoViper demoKeys demoParseRedis (Ok tt) false demoKeyWorld) as [f' o] eqn:E.
  assert (Ho : match (newRelayConfig (S := Calm) demoViper demoKeys demoParseRedis (Ok tt) false demoKeyWorld).2 with
               | Done (Ok c) => rcRedisDisplayURL c = "redis://:xxxxx@redis:6379" ∧ rcMaxQueueJobs c = 100000
               | _ => False end) by (vm_compute; split; reflexivity).
  rewrite E in Ho. destruct o as [[c|e]|m]; [|destruct Ho..]. destruct Ho as [H1 H2].
  destruct (accepted_configuration_is_sound demoViper demoKeys demoParseRedis (Ok tt) false demoKeyWorld f' c E) as (_ & _ & H3 & _).
  split; [exact H1|]. split; [exact H2|exact H3].
Defined.
