(* ===== verification/DirectoryService.v ===== *)
(** * The scheduler in the API process (api/directory_scheduler.go)

    The scheduler reads the configuration file again at every visit.  The file system is
    not part of the process world: [filesAt] is the file system as it is when the process
    is in a given world, so that other processes (the directory commands) may have
    changed it in between. *)

From S2P Require Import Prelude GoStrings GoUrl GoTime Redis World Frame FileSystem Observability.
From S2P Require Import ActivityModel DirectoryOrigin DirectoryProfile DirectoryStore DirectoryClient.
From S2P Require Import DirectoryClientSpec DirectoryScheduler DirectorySchedulerSpec DirectoryConfig.
From S2P Require Import DirectoryEditor DirectoryEditorSpec DirectoryDisableSpec RelayConfig.

(** api/web.go *)
Definition normalizedStatusDomain (domain : string) : string := ToLower (TrimSuffix (TrimSpace domain) ".").

Definition participatingInstanceCount (snapshot : RelayState) : Z :=
  let domains := (normalizedStatusDomain ∘ subDomain <$> SubscribersAndFollowers snapshot)
                 ++ (normalizedStatusDomain ∘ pubDomain <$> Publishers snapshot) in
  Z.of_nat (size (list_to_set (C := gset string) domains ∖ {[""]})).

Definition durableDirectoryEnabled {PrivateKey} (config : Config PrivateKey) (origin : string) : result bool :=
  if negb (cfgSchedulerEnabled config) then Ok false
  else match ConfigDirectory config origin with
  | Ok entry => Ok (Enabled entry)
  | Err e => if errorIs e "ErrNotFound" then Ok false else Err e
  end.

(** store.go *)
Definition NewRedisStore (client : bool) : result unit := if client then Ok tt else Err ErrStore.

Section service.
Context {S : Type} `{Redis S} {PrivateKey Base : Type} (lib : ClientLib PrivateKey Base) (yaml : YamlLib) (keys : KeyLib PrivateKey)
  (publicKeyPEM : PrivateKey → string) (filesAt : World S → FsWorld).
Abbreviation Mw := (M (World S)).
Abbreviation RelayConfig := (RelayConfig S PrivateKey).

(** The configuration file as it is now. *)
Definition loadFile (path : string) : Mw (result (Config PrivateKey)) := λ w,
  (w, match LoadConfig yaml keys (ParseAddress lib) path (filesAt w) with
      | (_, Done (Ok current)) =>
          if decide (cfgSource current = SourceFile) then Done (Ok current)
          else Done (Err (errorsNew "durable directory configuration is unavailable"))
      | (_, Done (Err _)) => Done (Err (errorsNew "durable directory configuration is unavailable"))
      | (_, Panic m) => Panic m
      end).
Definition enabledNow (path origin : string) : Mw (result bool) :=
  current ←! loadFile path; mret (durableDirectoryEnabled current origin).
Definition clientNow (config : RelayConfig) (actor : Actor) (path : string) (entry : Directory)
    : Mw (result (SchedClient S)) :=
  current ←! loadFile path;
  mret (client ← New lib (mkOptions (Origin entry) (acID actor) (URL_String (rcDomain config)) (cfgProfile current)
                            (pkID (acPublicKey actor)) (Some (rcActorKey config))
                            (Some (state ← getRelay; mret (Ok (participatingInstanceCount state)))));
        Ok (asSchedClient lib client)).

Definition newDirectoryScheduler (config : option RelayConfig) (metrics : bool) : Mf (result (Scheduler S)) :=
  match config with
  | Some c =>
      if negb (rcSchedulerEnabled c) || (rcConfigurationPath c =s "")
      then mret (Err (errorsNew "directory scheduler is not configured"))
      else
        let path := rcConfigurationPath c in
        info ← os_Lstat path;
        match info with
        | Err _ => mret (Err (errorsNew "directory scheduler requires a regular configuration file"))
        | Ok info =>
            if negb (IsRegular info) then mret (Err (errorsNew "directory scheduler requires a regular configuration file"))
            else if bool_decide (rcDirectories c = []) then mret (Err (errorsNew "directory scheduler has no entries"))
            else
              let actor := NewActivityPubActorFromRelayConfig publicKeyPEM c in
              mret (_ ← NewRedisStore (rcRedisClient c);
                    New_ (mkScheduler (acID actor) (rcDirectories c) (enabledNow path) (clientNow c actor path) metrics))
        end
  | None => mret (Err (errorsNew "directory scheduler is not configured"))
  end.
(** [startDirectoryScheduler]: the scheduler that runs, if any; the relay starts in any case. *)
Definition startDirectoryScheduler (config : option RelayConfig) (metrics : bool) : Mf (option (Scheduler S)) :=
  if negb (DirectorySchedulerEnabled config) then mret None
  else
    scheduler ← newDirectoryScheduler config metrics;
    mret (match scheduler with Ok s => Some s | Err _ => None end).
End service.
