(* ===== verification/DirectoryServiceSpec.v ===== *)
(** * The commands and the scheduler together

    [disabled_entry_is_not_contacted]: once [DisableFile] has returned, the scheduler of
    the API process no longer contacts that directory, whatever state it finds in Redis. *)

From S2P Require Import Prelude GoStrings GoUrl GoTime Redis World Frame FileSystem Observability.
From S2P Require Import ActivityModel DirectoryOrigin DirectoryProfile DirectoryStore DirectoryClient.
From S2P Require Import DirectoryClientSpec DirectoryScheduler DirectorySchedulerSpec DirectoryConfig.
From S2P Require Import DirectoryEditor DirectoryEditorSpec DirectoryDisableSpec DirectoryCommandSpec.
From S2P Require Import RelayConfig DirectoryService.

(** A call that only reads, without interference: it fails, or reads the file system as it is. *)
Lemma syscall_read {A} (op : Fs → Fs * result A) f f' r : (∀ fs, (op fs).1 = fs) → exclusive f →
  syscall op f = (f', Done r) → fw_fs f' = fw_fs f ∧ exclusive f' ∧ (r = Err errIO ∨ r = (op (fw_fs f)).2).
Proof.
  intros Hr [Ho Hn] E. unfold syscall, syscallP in E. rewrite Ho in E. specialize (Hr (fw_fs f)).
  destruct (fw_fails f (fw_calls f)); [injection E as <- <-; by repeat split; auto|].
  destruct (op (fw_fs f)) as [fs r']. simpl in Hr. injection E as <- <-. subst. by repeat split; auto.
Qed.

Section load.
Context {PrivateKey : Type} (yaml : YamlLib) `{YamlLaws yaml} (keys : KeyLib PrivateKey) (pa : string → result string).

Lemma readRegular_body path info f f' b t body :
  exclusive f → fs_dir (fw_fs f) !! resolve path = Some t → complete (fw_fs f) t body →
  readRegularNoFollow path info f = (f', Done (Ok b)) → b = body.
Proof.
  intros He Hd (i & Hi & Hk & Hb & _) E. unfold readRegularNoFollow in E.
  unfold bindErr in E. apply bind_inv in E as (f1 & fd & E1 & E). destruct fd as [fd|]; [|done].
  apply syscall_read in E1 as (F1 & He1 & R1); [|done|done]. destruct R1 as [?|R1]; [done|].
  unfold lookupName in R1. simpl in R1. rewrite Hd, Hi in R1. simpl in R1. rewrite decide_False in R1 by (by rewrite Hk).
  injection R1 as ->. apply bind_inv in E as (f2 & st & E2 & E).
  apply syscall_read in E2 as (F2 & He2 & _); [|done|done]. destruct st as [st|]; [|done].
  destruct (_ || _); [done|]. apply bind_inv in E as (f3 & x & E3 & E).
  apply syscall_read in E3 as (_ & _ & R3); [|done|done]. destruct x as [x|]; [|done]. destruct R3 as [?|R3]; [done|].
  simpl in R3. rewrite F2, F1, Hi in R3. injection R3 as ->.
  destruct (maximumConfigBytes <? _) eqn:El; [done|]. injection E as _ <-. rewrite Hb in *.
  by apply take_all_limit.
Qed.
Lemma build_directories src path pem dom ds p se ru ws f f' (c : Config PrivateKey) :
  build keys src path pem dom ds p se ru ws f = (f', Done (Ok c)) → cfgDirectories c = ds.
Proof.
  unfold build. destruct (_ || _); [done|]. destruct (ParseOrigin _) as [b|]; [|done].
  intros (f1 & k & _ & E)%bind_inv. destruct k; [|done]. by injection E as _ <-.
Qed.
(** A loaded configuration has the directories that are on disk. *)
Lemma LoadConfig_onDisk path f f' (c : Config PrivateKey) ds :
  exclusive f → onDisk yaml path (fw_fs f) ds → is_Some (fs_dir (fw_fs f) !! resolve path) →
  LoadConfig yaml keys pa path f = (f', Done (Ok c)) → cfgDirectories c = ds.
Proof.
  intros He (t & body & root & Hs & Hc & Hy & Hds) [t' Hd] E.
  assert (t' = t) as ->. { specialize (Hs (Some t')). symmetry in Hd. injection (Hs (or_introl Hd)). done. }
  pose proof E as E'. destruct (LoadConfig_file yaml keys pa path f f' c t body He Hc Hd E') as (Hsrc & _).
  unfold LoadConfig in E. destruct (_ || _); [done|]. apply bind_inv in E as (f1 & info & E1 & E).
  apply syscall_read in E1 as (F1 & He1 & _); [|done|done]. destruct info as [info|e].
  - destruct (negb _); [done|]. apply bind_inv in E as (f2 & b & E2 & E). destruct b as [b|]; [|done].
    eapply readRegular_body in E2; [|done|by rewrite F1|by rewrite F1]. subst b. rewrite Hy in E.
    unfold fileSettings in E. destruct (scalarSetting root "ACTOR_PEM"); [|done].
    destruct (scalarSetting root "RELAY_DOMAIN"); [|done]. rewrite Hds in E. cbn in E.
    destruct (profileSetting pa root) as [[p ws]|]; [|done]. cbn in E. destruct (boolSetting yaml root _) as [se|]; [|done].
    cbn in E. destruct (redisSetting root) as [ru|]; [|done]. cbn in E. destruct (se && _); [done|].
    by eapply build_directories.
  - exfalso. destruct (errorIs e _); [|done]. apply bind_inv in E as (f2 & v & _ & E).
    destruct (parseEnvironmentDirectories yaml v); [|done]. apply bind_inv in E as (f3 & v' & _ & E).
    destruct (parseEnvironmentProfile yaml pa v') as [[p ws]|]; [|done]. apply bind_inv in E as (f4 & pem & _ & E).
    apply bind_inv in E as (f5 & dom & _ & E). apply build_fields in E as [E _]. congruence.
Qed.
Lemma switchedOff_disabled (c : Config PrivateKey) origin ds : cfgDirectories c = switchedOff origin ds →
  durableDirectoryEnabled c origin ≠ Ok true.
Proof.
  intros Hc E. unfold durableDirectoryEnabled in E. destruct (negb _); [done|].
  destruct (ConfigDirectory c origin) as [e|err] eqn:Ed; [|by destruct (errorIs err _)].
  injection E as E. pose proof (ConfigDirectory_origin c origin e Ed) as Ho. unfold ConfigDirectory in Ed.
  destruct (ParseOrigin origin) as [u|]; [|done]. destruct (list_find _ _) as [[j e']|] eqn:Ef; [|done]. injection Ed as ->.
  apply list_find_Some in Ef as (Hj & _). rewrite Hc in Hj. unfold switchedOff in Hj. rewrite list_lookup_fmap in Hj.
  destruct (ds !! j) as [e0|]; [|done]. simpl in Hj. injection Hj as <-. destruct (eqs (Origin e0) origin) eqn:Eq; [done|].
  apply eqs_false in Eq. done.
Qed.
End load.

Section together.
Context {S : Type} `{RedisLaws S} {PrivateKey Base : Type} (lib : ClientLib PrivateKey Base) (yaml : YamlLib)
  (keys : KeyLib PrivateKey) (filesAt : World S → FsWorld).

Lemma enabledNow_off path origin ds w : YamlLaws yaml →
  exclusive (filesAt w) → onDisk yaml path (fw_fs (filesAt w)) (switchedOff origin ds) →
  ∀ w', enabledNow lib yaml keys filesAt path origin w ≠ (w', Done (Ok true)).
Proof.
  intros L He Hdisk w' E. unfold enabledNow, bindErr in E. apply bind_inv in E as (w1 & c & E1 & E).
  unfold loadFile in E1. injection E1 as <- E1. destruct c as [c|]; [|done]. injection E as _ E.
  destruct (LoadConfig yaml keys (ParseAddress lib) path (filesAt w)) as [f' [[c'|]|]] eqn:El; [|done|done].
  case_decide; [|done]. injection E1 as ->. revert E. apply (switchedOff_disabled c origin ds).
  eapply LoadConfig_onDisk; [done|exact Hdisk| |exact El]. destruct Hdisk as (t & ? & ? & Hs & _). exists t.
  apply Hs. by left.
Qed.

(** C13: A disabled directory is left alone.  Once [DisableFile] has returned without error, as
    long as nobody edits the file again, no visit of the scheduler of the API process to that
    directory sends a request or takes part in its schedule, whatever Redis holds for it
    (registered or not, overdue or not) and whatever the scheduler had read before. *)
Theorem disabled_entry_is_not_contacted path original i0 b0 f f' backup (s : Scheduler S) entry boundary env (w w' : SchedWorld S) x :
  YamlLaws yaml → exclusive f → complete (fw_fs f) i0 original →
  standsFor (fw_fs f) (resolve path) (Some i0) → standsFor (fw_fs f) (resolve (path +:+ BackupSuffix)) b0 →
  DisableFile yaml path (Origin entry) f = (f', Done (Ok backup)) →
  enabled s = enabledNow lib yaml keys filesAt path →
  (∀ w, exclusive (filesAt w) ∧ fw_fs (filesAt w) = fw_fs f') →
  runDirectory s entry boundary env w = (w', Done x) →
  w_sentRequests (sw_world w') = w_sentRequests (sw_world w) ∧ x.1 = zeroTime.
Proof.
  intros L He Hc Hp Hb Ed Hen Hf E.
  destruct (disable_off yaml path original (Origin entry) i0 b0 f f' backup L He Hc Hp Hb Ed) as (root & ds & _ & _ & _ & Hdisk).
  unfold runDirectory in E. apply bind_inv in E as (w1 & en & E1 & E). apply lift_inv in E1 as [E1 _]. rewrite Hen in E1.
  assert (Hw : sw_world w1 = sw_world w).
  { unfold enabledNow, bindErr in E1. apply bind_inv in E1 as (w2 & c & E2 & E1). unfold loadFile in E2. injection E2 as <- _.
    by destruct c; injection E1 as <- _. }
  destruct en as [[]|e].
  - exfalso. destruct (Hf (sw_world w)) as [He' Hfs]. eapply enabledNow_off; [exact L|exact He'| |exact E1].
    rewrite Hfs. exact Hdisk.
  - injection E as <- <-. by rewrite Hw.
  - apply bind_inv in E as (w2 & u & E2 & E). injection E as <- <-. rewrite <- Hw. split; [|done].
    apply (quietly_run _ _ _ _ (quiet_record s _ _) E2).
Qed.
End together.

(** ** An example *)

Definition servicedFiles (w : World Calm) : FsWorld := demoDisable.1.
Definition serviceScheduler : Scheduler Calm :=
  mkScheduler demoActor [mkDirectory "https://a.example" true]
    (enabledNow demoLib demoYaml (mkKeyLib unit (λ s, Some s) (λ _, Ok tt)) servicedFiles demoPath)
    (λ _, mret (Err (errorsNew "no client"))) false.
Lemma disabled_entry_is_not_contacted_witness :
  (enabled serviceScheduler "https://a.example" (sw_world schedulerWorld)).2 = Done (Ok false)
  ∧ match runDirectory serviceScheduler (mkDirectory "https://a.example" true) zeroTime demoEnv schedulerWorld with
    | (w', Done x) => w_sentRequests (sw_world w') = [] ∧ x.1 = zeroTime
    | _ => False
    end.
Proof.
  split; [vm_compute; reflexivity|].
  destruct (runDirectory serviceScheduler (mkDirectory "https://a.example" true) zeroTime demoEnv schedulerWorld) as [w' o] eqn:E.
  assert (Ho : match (runDirectory serviceScheduler (mkDirectory "https://a.example" true) zeroTime demoEnv schedulerWorld).2 with
               | Done _ => true | _ => false end = true) by (vm_compute; reflexivity).
  rewrite E in Ho. destruct o as [x|m]; [|discriminate Ho].
  destruct demoDisable as [f' o'] eqn:Ed.
  assert (Hd : match demoDisable.2 with Done (Ok _) => true | _ => false end = true) by (vm_compute; reflexivity).
  rewrite Ed in Hd. destruct o' as [[backup|e]|m]; [|discriminate Hd..].
  apply (disabled_entry_is_not_contacted demoLib demoYaml (mkKeyLib unit (λ s, Some s) (λ _, Ok tt)) servicedFiles
           demoPath (demoEncode demoDocument) 1 None (demoFsWorld (demoEncode demoDocument)) f' backup serviceScheduler
           (mkDirectory "https://a.example" true) zeroTime demoEnv schedulerWorld w' x).
  - apply demoYaml_laws.
  - apply demoFsWorld_exclusive.
  - exists (demoFile (demoEncode demoDocument)). repeat split.
  - apply standsFor_settled; vm_compute; reflexivity.
  - apply standsFor_settled; vm_compute; reflexivity.
  - exact Ed.
  - reflexivity.
  - intros w0. unfold servicedFiles. split; [|rewrite Ed; reflexivity].
    assert (Hx : fw_others demoDisable.1 = λ _ fs, fs) by (vm_compute; reflexivity).
    assert (Hr : fw_random demoDisable.1 = Z.of_nat) by (vm_compute; reflexivity).
    split; [rewrite Hx; reflexivity|]. rewrite Hr. intros n. lia.
  - exact E.
Defined.
