(* ===== verification/StatusPage.v ===== *)
(** * Public documents of the API (api/web.go, api/handle.go, models/models.go)

    - the status page: counts and lists of receivers and publishers with the delivery
      health of the receivers, encoded as JSON;
    - webfinger, nodeinfo and the relay actor;
    - the snapshot of the relay for the metrics collector (api/operational_metrics.go);
    - the table of public routes (api/api.go).

    The memory of the process is the relay state of the world; the global [Nodeinfo],
    which a request changes, is threaded. *)

From S2P Require Import Prelude GoStrings GoUrl GoTime Json Redis World RelayState ReceiverHealth PublicAddressPolicy Rfc9421.
From S2P Require Import ActivityModel Queue Relay Decode Inbox FileSystem RelayConfig DirectoryService.

(** ** Records of the status page *)

Record relayStatusReceiver := mkStatusReceiver {
  srDomain : string; srLastSuccessAt : string; srLastFailureAt : string;
  srConsecutiveFailures : Z; srTotalSuccesses : Z; srTotalFailures : Z }.
Record relayStatusPublisher := mkStatusPublisher {
  spDomain : string; spFirstSeen : string; spLastSeen : string; spLastActivityType : string;
  spActivityCount : Z; spSubscribed : bool; spReceivesRelay : bool }.
(** [relayStatusResponse]; each [Count] of the page is a field of its own. *)
Record relayStatusResponse := mkStatus {
  stSchemaVersion : Z; stStatus : string; stName : string; stDomain : string; stRegistration : string;
  stManualApproval : bool; stPersonOnly : bool; stPolicy : string; stPolicyLabel : string;
  stInbox : string; stActor : string;
  stConnectedCount : Z; stConnectedDomains : list string;
  stReceivingCount : Z; stReceivingDomains : list string; stReceivingEntries : list relayStatusReceiver;
  stPublishersCount : Z; stPublishersEntries : list relayStatusPublisher;
  stSoftwareVersion : string }.

Definition jsonInt (z : Z) : json := JNumber (itoa z).
Definition jsonStrings (l : list string) : json := JArray (map JString l).
Definition receiverJson (r : relayStatusReceiver) : json :=
  JObject ([("domain", JString (srDomain r))] ++ omitString "last_success_at" (srLastSuccessAt r)
    ++ omitString "last_failure_at" (srLastFailureAt r)
    ++ [("consecutive_failures", jsonInt (srConsecutiveFailures r)); ("total_successes", jsonInt (srTotalSuccesses r));
        ("total_failures", jsonInt (srTotalFailures r))]).
Definition statusPublisherJson (p : relayStatusPublisher) : json :=
  JObject ([("domain", JString (spDomain p))] ++ omitString "first_seen" (spFirstSeen p)
    ++ omitString "last_seen" (spLastSeen p) ++ omitString "last_activity_type" (spLastActivityType p)
    ++ [("activity_count", jsonInt (spActivityCount p)); ("subscribed", JBool (spSubscribed p));
        ("receives_relay", JBool (spReceivesRelay p))]).
Definition statusJson (s : relayStatusResponse) : json :=
  JObject [("schema_version", jsonInt (stSchemaVersion s)); ("status", JString (stStatus s)); ("name", JString (stName s));
    ("domain", JString (stDomain s)); ("registration", JString (stRegistration s));
    ("manual_approval", JBool (stManualApproval s)); ("person_only", JBool (stPersonOnly s));
    ("public_address_distribution_policy", JString (stPolicy s));
    ("public_address_distribution_label", JString (stPolicyLabel s));
    ("endpoints", JObject [("inbox", JString (stInbox s)); ("actor", JString (stActor s))]);
    ("connected_instances", JObject [("count", jsonInt (stConnectedCount s)); ("domains", jsonStrings (stConnectedDomains s))]);
    ("receiving_instances", JObject [("count", jsonInt (stReceivingCount s)); ("domains", jsonStrings (stReceivingDomains s));
       ("entries", JArray (map receiverJson (stReceivingEntries s)))]);
    ("publishers", JObject [("count", jsonInt (stPublishersCount s));
       ("entries", JArray (map statusPublisherJson (stPublishersEntries s)))]);
    ("software", JObject [("name", JString "activity-relay"); ("version", JString (stSoftwareVersion s));
       ("repository", JString "https://github.com/thystra/Activity-Relay")])].

(** ** Building it *)

Definition sortedStatusDomains (seen : gset string) : list string := sortStrings (elements seen).
(** A set of domains collected in a loop, without the empty one. *)
Definition seenDomains (domains : list string) : gset string :=
  list_to_set (List.filter (λ d, negb (d =s "")) (map normalizedStatusDomain domains)).
(** [sort.Slice] by domain; records of the same domain may come in any order. *)
Definition publisherLe (p q : relayStatusPublisher) : Prop := strLe (spDomain p) (spDomain q).
#[export] Instance publisherLe_dec : RelDecision publisherLe.
Proof. intros p q. unfold publisherLe. apply _. Defined.

Definition statusPublishers (snapshot : RelayState) (subscribed receiving : gset string) : list relayStatusPublisher :=
  merge_sort publisherLe (omap (λ publisher,
    let domain := normalizedStatusDomain (pubDomain publisher) in
    if domain =s "" then None
    else Some (mkStatusPublisher domain (pubFirstSeen publisher) (pubLastSeen publisher) (pubLastActivityType publisher)
                 (pubActivityCount publisher) (bool_decide (domain ∈ subscribed)) (bool_decide (domain ∈ receiving))))
    (Publishers snapshot)).
Definition zeroHealth : ReceiverDeliveryHealth := mkHealth "" "" "" 0 0 0.
Definition statusReceiver (health : gmap string ReceiverDeliveryHealth) (domain : string) : relayStatusReceiver :=
  let h := default zeroHealth (health !! domain) in
  mkStatusReceiver domain (LastSuccessAt h) (LastFailureAt h) (ConsecutiveFailures h) (TotalSuccesses h) (TotalFailures h).

Section status.
Context {S : Type} `{Redis S} {PrivateKey : Type}.
Abbreviation Mw := (M (World S)).
(** The globals: the configuration, the relay actor, the version, whether there is a Redis client. *)
Variable GlobalConfig : option (RelayConfig S PrivateKey).
Variable RelayActor : Actor.
Variable version : string.
Variable redisClient : bool.

Definition buildRelayStatus : Mw relayStatusResponse :=
  snapshot ← getRelay;
  let baseURL := match GlobalConfig with
                 | Some config => TrimRightByte (URL_String (rcDomain config)) "/" | None => "" end in
  let name := match GlobalConfig with
              | Some config => if acName RelayActor =s "" then rcServiceName config else acName RelayActor
              | None => acName RelayActor end in
  let policy := match GlobalConfig with
                | Some _ => ConfigPublicAddressPolicy GlobalConfig | None => PublicAddressPublicAndUnlisted end in
  let registration := if cfgManuallyAccept (World.RelayConfig snapshot) then "approval_required" else "open" in
  let receivingSeen := seenDomains (subDomain <$> SubscribersAndFollowers snapshot) in
  let subscribed := seenDomains (subDomain <$> Subscribers snapshot) in
  let publishers := statusPublishers snapshot subscribed receivingSeen in
  let participatingSeen := receivingSeen ∪ seenDomains (pubDomain <$> Publishers snapshot) in
  let participatingDomains := sortedStatusDomains participatingSeen in
  let receivingDomains := sortedStatusDomains receivingSeen in
  loaded ← (if redisClient then LoadReceiverDeliveryHealth receivingDomains else mret (Ok ∅));
  let healthByDomain := match loaded with Ok health => health | Err _ => ∅ end in
  mret (mkStatus 5 "ok" name (TrimPrefix baseURL "https://") registration
          (cfgManuallyAccept (World.RelayConfig snapshot)) (cfgPersonOnly (World.RelayConfig snapshot))
          policy (DisplayName policy) (baseURL +:+ "/inbox") (baseURL +:+ "/actor")
          (Z.of_nat (length participatingDomains)) participatingDomains
          (Z.of_nat (length receivingDomains)) receivingDomains (map (statusReceiver healthByDomain) receivingDomains)
          (Z.of_nat (length publishers)) publishers version).

(** [http.Error]. *)
Definition newlineByte : string := String (chr 10) "".
Definition httpError (header : Header) (message : string) (code : Z) : reply :=
  mkReply code (headerSet (headerSet (delete "Content-Length" header) "Content-Type" "text/plain; charset=utf-8")
                  "X-Content-Type-Options" "nosniff") (message +:+ newlineByte).
Definition handleRelayStatus (request : inRequest) : Mw reply :=
  let header := headerSet (headerSet (headerSet ∅ "Content-Type" "application/json; charset=utf-8")
                  "Cache-Control" "public, max-age=30") "X-Content-Type-Options" "nosniff" in
  if negb (inMethod request =s "GET") && negb (inMethod request =s "HEAD") then
    mret (httpError (headerSet header "Allow" "GET, HEAD") "method not allowed" 405)
  else if inMethod request =s "HEAD" then mret (mkReply 200 header "")
  else (status ← buildRelayStatus; mret (mkReply 200 header (jsonMarshal (statusJson status) +:+ newlineByte))).

(** ** The snapshot for the metrics collector *)

Record RuntimeSnapshot := mkRuntimeSnapshot {
  rsSubscribers : Z; rsFollowers : Z; rsUniqueReceivers : Z; rsPublishers : Z;
  rsHealthyReceivers : Z; rsFailingReceivers : Z; rsUnobservedReceivers : Z }.
Inductive receiverState := Unobserved | Failing | Healthy.
#[export] Instance receiverState_eq_dec : EqDecision receiverState.
Proof. solve_decision. Defined.
Definition receiverStateOf (entry : ReceiverDeliveryHealth) : receiverState :=
  if (TotalSuccesses entry =? 0) && (TotalFailures entry =? 0) then Unobserved
  else if 0 <? ConsecutiveFailures entry then Failing
  else Healthy.
Definition countState (s : receiverState) (health : gmap string ReceiverDeliveryHealth) (domains : list string) : Z :=
  Z.of_nat (length (List.filter (λ d, bool_decide (receiverStateOf (default zeroHealth (health !! d)) = s)) domains)).
(** The loop over a map visits the domains in any order; the counts do not depend on it. *)
Definition relayRuntimeSnapshot : Mw (result RuntimeSnapshot) :=
  snapshot ← getRelay;
  let uniqueReceivers := seenDomains (subDomain <$> SubscribersAndFollowers snapshot) in
  let domains := elements uniqueReceivers in
  health ←! LoadReceiverDeliveryHealth domains;
  mret (Ok (mkRuntimeSnapshot (Z.of_nat (length (Subscribers snapshot))) (Z.of_nat (length (Followers snapshot)))
              (Z.of_nat (size uniqueReceivers)) (Z.of_nat (length (Publishers snapshot)))
              (countState Healthy health domains) (countState Failing health domains)
              (countState Unobserved health domains))).
End status.

(** ** Webfinger (models/models.go, api/handle.go) *)

Record WebfingerLink := mkWebfingerLink { wlRel : string; wlType : string; wlHref : string }.
Record WebfingerResource := mkWebfingerResource { wrSubject : string; wrLinks : list WebfingerLink }.
Definition GenerateWebfingerResource (actor : Actor) (hostname : URL) : WebfingerResource :=
  mkWebfingerResource ("acct:" +:+ acPreferredUsername actor +:+ "@" +:+ Host hostname)
    [mkWebfingerLink "self" "application/activity+json" (acID actor)].
Definition webfingerLinkJson (l : WebfingerLink) : json :=
  JObject (omitString "rel" (wlRel l) ++ omitString "type" (wlType l) ++ omitString "href" (wlHref l)).
Definition webfingerJson (r : WebfingerResource) : json :=
  JObject (omitString "subject" (wrSubject r)
    ++ match wrLinks r with [] => [] | links => [("links", JArray (map webfingerLinkJson links))] end).

(** [url.QueryUnescape] and the values of one name in [url.ParseQuery]: malformed pairs are
    skipped. *)
Fixpoint queryUnescapeBytes (l : list ascii) : option (list ascii) :=
  match l with
  | [] => Some []
  | c :: l1 =>
      if decide (c = "%"%char) then
        match l1 with
        | a :: b :: l3 => if isHex a && isHex b then cons (chr (unhex a * 16 + unhex b)) <$> queryUnescapeBytes l3 else None
        | _ => None
        end
      else cons (if decide (c = "+"%char) then " "%char else c) <$> queryUnescapeBytes l1
  end.
Definition queryUnescape (s : string) : option string := ofBytes <$> queryUnescapeBytes (bytes s).
Definition queryValues (rawQuery name : string) : list string :=
  omap (λ pair,
    if containsByte ";" pair || (pair =s "") then None
    else
      let '(key, value, _) := Cut pair "=" in
      match queryUnescape key, queryUnescape value with
      | Some k, Some v => if k =s name then Some v else None
      | _, _ => None
      end) (Split rawQuery "&").

Definition jsonReply (value : json) : reply :=
  mkReply 200 (headerSet ∅ "Content-Type" "application/json") (jsonMarshal value).
Definition badMethod : reply := mkReply 400 ∅ "".
Definition handleWebfinger (resources : list WebfingerResource) (request : inRequest) : reply :=
  match inMethod request =s "GET", queryValues (default "" (RawQuery <$> inURL request)) "resource" with
  | true, queriedSubject :: _ =>
      match List.find (λ r, queriedSubject =s wrSubject r) resources with
      | Some r => jsonReply (webfingerJson r)
      | None => mkReply 404 ∅ ""
      end
  | _, _ => badMethod
  end.

(** ** Nodeinfo *)

Record Nodeinfo := mkNodeinfo {
  niVersion : string; niSoftwareName : string; niSoftwareVersion : string; niRepository : string;
  niProtocols : list string; niInbound : list string; niOutbound : list string; niOpenRegistrations : bool;
  niUsersTotal : Z; niUsersActiveMonth : Z; niUsersActiveHalfyear : Z }.
Record NodeinfoResources := mkNodeinfoResources { nrLinks : list (string * string); nrNodeinfo : Nodeinfo }.
Definition GenerateNodeinfoResources (hostname : URL) (serverVersion : string) : NodeinfoResources :=
  mkNodeinfoResources
    [("http://nodeinfo.diaspora.software/ns/schema/2.1", "https://" +:+ Host hostname +:+ "/nodeinfo/2.1")]
    (mkNodeinfo "2.1" "activity-relay" serverVersion "https://github.com/thystra/Activity-Relay" ["activitypub"] [] []
       true 0 0 0).
Definition nodeinfoLinksJson (links : list (string * string)) : json :=
  JObject [("links", JArray (map (λ l, JObject [("rel", JString l.1); ("href", JString l.2)]) links))].
Definition nodeinfoJson (n : Nodeinfo) : json :=
  JObject [("version", JString (niVersion n));
    ("software", JObject ([("name", JString (niSoftwareName n)); ("version", JString (niSoftwareVersion n))]
                          ++ omitString "repository" (niRepository n)));
    ("protocols", jsonStrings (niProtocols n));
    ("services", JObject [("inbound", jsonStrings (niInbound n)); ("outbound", jsonStrings (niOutbound n))]);
    ("openRegistrations", JBool (niOpenRegistrations n));
    ("usage", JObject [("users", JObject [("total", jsonInt (niUsersTotal n)); ("activeMonth", jsonInt (niUsersActiveMonth n));
                                          ("activeHalfyear", jsonInt (niUsersActiveHalfyear n))])]);
    ("metadata", JObject [])].
Definition withUsers (total : Z) (n : Nodeinfo) : Nodeinfo :=
  mkNodeinfo (niVersion n) (niSoftwareName n) (niSoftwareVersion n) (niRepository n) (niProtocols n) (niInbound n)
    (niOutbound n) (niOpenRegistrations n) total total total.
Definition handleNodeinfoLink (resources : NodeinfoResources) (request : inRequest) : reply :=
  if negb (inMethod request =s "GET") then badMethod else jsonReply (nodeinfoLinksJson (nrLinks resources)).
(** The answer, and the global the request leaves. *)
Definition handleNodeinfo {S} (resources : NodeinfoResources) (request : inRequest)
    : M (World S) (reply * NodeinfoResources) :=
  if negb (inMethod request =s "GET") then mret (badMethod, resources)
  else
    snapshot ← getRelay;
    let nodeinfo := withUsers (Z.of_nat (length (Subscribers snapshot))) (nrNodeinfo resources) in
    mret (jsonReply (nodeinfoJson nodeinfo), mkNodeinfoResources (nrLinks resources) nodeinfo).

(** ** The relay actor *)

Definition handleRelayActor (RelayActor : Actor) (request : inRequest) : reply :=
  if oneOf (inMethod request) ["GET"; "HEAD"] then writeActivityPubJSON request (actorJson RelayActor)
  else methodNotAllowed "GET, HEAD".

(** ** Routes (api/api.go) *)

Inductive endpoint :=
  | EndNodeinfoLink | EndWebfinger | EndNodeinfo | EndStatus | EndActor | EndOutbox | EndFollowers | EndFollowing | EndInbox.
#[export] Instance endpoint_eq_dec : EqDecision endpoint.
Proof. solve_decision. Defined.
Definition handlersRegister : list (string * endpoint) :=
  [("/.well-known/nodeinfo", EndNodeinfoLink); ("/.well-known/webfinger", EndWebfinger); ("/nodeinfo/2.1", EndNodeinfo);
   ("/status.json", EndStatus); ("/actor", EndActor); ("/actor/outbox", EndOutbox); ("/actor/followers", EndFollowers);
   ("/actor/following", EndFollowing); ("/inbox", EndInbox)].
