(* ===== verification/StatusPageSpec.v ===== *)
(** * Theorems about the public documents

    The status page is consistent with the relay state and with itself, whatever Redis
    answers; the snapshot of the collector splits the same receivers by their health;
    webfinger finds the relay's own actor. *)

From S2P Require Import Prelude GoStrings GoUrl GoTime Json Redis World Frame RelayState RelayStateSpec ReceiverHealth Rfc9421.
From S2P Require Import PublicAddressPolicy ActivityModel Inbox FileSystem RelayConfig DirectoryService StatusPage.

(** ** Sets of domains *)

Lemma seenDomains_elem d l : d ∈ seenDomains l ↔ d ≠ "" ∧ ∃ x, x ∈ l ∧ normalizedStatusDomain x = d.
Proof.
  unfold seenDomains. rewrite elem_of_list_to_set, list_elem_of_In, filter_In, <- list_elem_of_In, negb_true_iff, eqs_false.
  rewrite list_elem_of_fmap. naive_solver.
Qed.
Lemma sortedStatusDomains_elem d seen : d ∈ sortedStatusDomains seen ↔ d ∈ seen.
Proof. unfold sortedStatusDomains. by rewrite sortStrings_elem, elem_of_elements. Qed.
Lemma sortedStatusDomains_NoDup seen : NoDup (sortedStatusDomains seen).
Proof. unfold sortedStatusDomains. rewrite sortStrings_perm. apply NoDup_elements. Qed.
Lemma sortedStatusDomains_length seen : length (sortedStatusDomains seen) = size seen.
Proof. unfold sortedStatusDomains. by rewrite sortStrings_perm. Qed.

(** The telemetry of the directories counts the domains the page lists. *)
Lemma participating_size st : participatingInstanceCount st = Z.of_nat (size
  (seenDomains (subDomain <$> SubscribersAndFollowers st) ∪ seenDomains (pubDomain <$> Publishers st))).
Proof.
  unfold participatingInstanceCount. do 2 f_equal. apply set_eq. intros d.
  rewrite elem_of_difference, elem_of_list_to_set, elem_of_app, elem_of_singleton, elem_of_union, !seenDomains_elem.
  rewrite !list_elem_of_fmap. setoid_rewrite list_elem_of_fmap. unfold compose. naive_solver.
Qed.

(** ** Publishers of the page *)

Lemma statusPublishers_elem p st subscribed receiving : p ∈ statusPublishers st subscribed receiving ↔
  ∃ q, q ∈ Publishers st ∧ normalizedStatusDomain (pubDomain q) ≠ "" ∧ p = mkStatusPublisher
    (normalizedStatusDomain (pubDomain q)) (pubFirstSeen q) (pubLastSeen q) (pubLastActivityType q) (pubActivityCount q)
    (bool_decide (normalizedStatusDomain (pubDomain q) ∈ subscribed))
    (bool_decide (normalizedStatusDomain (pubDomain q) ∈ receiving)).
Proof.
  unfold statusPublishers. rewrite merge_sort_Permutation, list_elem_of_omap. split.
  - intros (q & Hq & E). exists q. split; [done|]. destruct (_ =s "") eqn:En; [done|]. apply eqs_false in En. by injection E as <-.
  - intros (q & Hq & En & ->). exists q. split; [done|]. apply eqs_false in En. by rewrite En.
Qed.

(** ** Health *)

Lemma counter_nonneg values i z : receiverHealthCounter values i = Ok z → 0 ≤ z.
Proof.
  unfold receiverHealthCounter. destruct (_ =s ""); [by intros [= <-]|]. destruct (parseInt 64 _) as [c|]; [|done].
  destruct (Z.ltb_spec c 0); [done|]. by intros [= <-].
Qed.
Definition healthSane (h : ReceiverDeliveryHealth) : Prop :=
  0 ≤ ConsecutiveFailures h ∧ 0 ≤ TotalSuccesses h ∧ 0 ≤ TotalFailures h.
Lemma healthOf_sane d values h : healthOf d values = Ok h → healthSane h.
Proof.
  unfold healthOf. destruct (receiverHealthCounter values 2) eqn:E2; [|done]. cbn [mapErr mbind result_bind].
  destruct (receiverHealthCounter values 3) eqn:E3; [|done]. cbn [mapErr mbind result_bind].
  destruct (receiverHealthCounter values 4) eqn:E4; [|done]. intros [= <-].
  apply counter_nonneg in E2, E3, E4. done.
Qed.
Lemma healthLoop_sane l acc m : healthLoop l acc = Ok m → map_Forall (λ _, healthSane) acc → map_Forall (λ _, healthSane) m.
Proof.
  revert acc. induction l as [|[d values] l IH]; intros acc; cbn; [by intros [= <-]|].
  destruct (healthOf d values) as [h|] eqn:Eh; [|done]. cbn [mbind result_bind]. intros Hl Hacc.
  apply (IH _ Hl). apply map_Forall_insert_2; [by eapply healthOf_sane|done].
Qed.
Lemma default_sane (m : gmap string ReceiverDeliveryHealth) d :
  map_Forall (λ _, healthSane) m → healthSane (default zeroHealth (m !! d)).
Proof. intros Hm. destruct (m !! d) as [h|] eqn:E; [by apply (Hm d)|done]. Qed.

Section spec.
Context {S : Type} `{RedisLaws S}.
Abbreviation W := (World S).
Lemma quiet_loadHealth domains : quiet (LoadReceiverDeliveryHealth (S := S) domains) (λ _, map_Forall (λ _, healthSane)).
Proof.
  unfold LoadReceiverDeliveryHealth. destruct (uniqueDomains domains) as [|d l]; [apply quiet_ret; intros; apply map_Forall_empty|].
  eapply quiet_bind; [apply quiet_loadHashes|]. intros values w. eexists _, _. split; [done|]. split; [done|].
  intros m Hm _. by eapply healthLoop_sane; [|apply map_Forall_empty].
Qed.

Record statusConsistent (st : RelayState) (s : relayStatusResponse) : Prop := {
  sc_receiving : ∀ d, d ∈ stReceivingDomains s ↔
    d ≠ "" ∧ ∃ r, r ∈ SubscribersAndFollowers st ∧ normalizedStatusDomain (subDomain r) = d;
  sc_connected : ∀ d, d ∈ stConnectedDomains s ↔
    d ∈ stReceivingDomains s ∨ d ≠ "" ∧ ∃ p, p ∈ Publishers st ∧ normalizedStatusDomain (pubDomain p) = d;
  sc_order : Sorted strLe (stReceivingDomains s) ∧ Sorted strLe (stConnectedDomains s);
  sc_distinct : NoDup (stReceivingDomains s) ∧ NoDup (stConnectedDomains s);
  sc_counts : stReceivingCount s = Z.of_nat (length (stReceivingDomains s))
    ∧ stConnectedCount s = Z.of_nat (length (stConnectedDomains s))
    ∧ stPublishersCount s = Z.of_nat (length (stPublishersEntries s));
  sc_telemetry : stConnectedCount s = participatingInstanceCount st;
  sc_entries : srDomain <$> stReceivingEntries s = stReceivingDomains s;
  sc_health : Forall (λ e, 0 ≤ srConsecutiveFailures e ∧ 0 ≤ srTotalSuccesses e ∧ 0 ≤ srTotalFailures e) (stReceivingEntries s);
  sc_publishers : ∀ p, p ∈ stPublishersEntries s → spDomain p ∈ stConnectedDomains s
    ∧ (spReceivesRelay p = true ↔ spDomain p ∈ stReceivingDomains s)
    ∧ (spSubscribed p = true ↔ ∃ r, r ∈ Subscribers st ∧ normalizedStatusDomain (subDomain r) = spDomain p);
  sc_published : ∀ q, q ∈ Publishers st → normalizedStatusDomain (pubDomain q) ≠ "" →
    ∃ p, p ∈ stPublishersEntries s ∧ spDomain p = normalizedStatusDomain (pubDomain q) ∧ spActivityCount p = pubActivityCount q;
  sc_approval : stManualApproval s = cfgManuallyAccept (World.RelayConfig st)
    ∧ (stRegistration s = "open" ↔ stManualApproval s = false) }.

Lemma seen_fmap {A} (f : A → string) d (l : list A) :
  d ∈ seenDomains (f <$> l) ↔ d ≠ "" ∧ ∃ a, a ∈ l ∧ normalizedStatusDomain (f a) = d.
Proof. rewrite seenDomains_elem. setoid_rewrite list_elem_of_fmap. naive_solver. Qed.

Section page.
Context {PrivateKey : Type} (config : option (RelayConfig S PrivateKey)) (actor : Actor) (version : string) (client : bool).

(** The status page is always built, whatever Redis answers, and building it changes nothing.
    Its lists are sorted and without repetitions, its counts are their lengths: the receivers are
    the distinct domains of subscribers and followers, each with one entry of non-negative
    counters; the connected instances are those and the publishers, as many as the relay reports
    to directories; every publisher is listed and marked as subscribed or receiving exactly when
    it is; registration is open exactly when follows are not approved by hand. *)
Theorem status_page_is_consistent (w : W) :
  ∃ w' s, buildRelayStatus config actor version client w = (w', Done s)
  ∧ sameButClock w w' ∧ statusConsistent (w_relay w) s.
Proof.
  unfold buildRelayStatus. unfold mbind at 1, M_bind at 1, getRelay at 1. set (st := w_relay w).
  set (receiving := seenDomains (subDomain <$> SubscribersAndFollowers st)).
  set (subscribed := seenDomains (subDomain <$> Subscribers st)). cbv zeta.
  assert (Hload : ∃ w1 r, (if client then LoadReceiverDeliveryHealth (sortedStatusDomains receiving) else mret (Ok ∅)) w
    = (w1, Done r) ∧ sameButClock w w1 ∧ map_Forall (λ _, healthSane) (match r with Ok m => m | Err _ => ∅ end)).
  { destruct client; [|eexists _, _; split; [done|]; split; [done|apply map_Forall_empty]].
    destruct (quiet_loadHealth (sortedStatusDomains receiving) w) as (w1 & r & E & Hs & Hr).
    exists w1, r. split; [done|]. split; [done|]. destruct r as [m|]; [by apply Hr|apply map_Forall_empty]. }
  destruct Hload as (w1 & r & E & Hs & Hh). rewrite (bind_Done _ _ _ _ _ E). eexists _, _. split; [done|]. split; [done|].
  set (health := match r with Ok m => m | Err _ => ∅ end) in *.
  assert (Hrec : ∀ d, d ∈ sortedStatusDomains receiving ↔
    d ≠ "" ∧ ∃ r0, r0 ∈ SubscribersAndFollowers st ∧ normalizedStatusDomain (subDomain r0) = d).
  { intros d. rewrite sortedStatusDomains_elem. apply seen_fmap. }
  split; cbn.
  - exact Hrec.
  - intros d. rewrite !sortedStatusDomains_elem, elem_of_union, (seen_fmap pubDomain). done.
  - split; apply sortStrings_sorted.
  - split; apply sortedStatusDomains_NoDup.
  - done.
  - by rewrite sortedStatusDomains_length, participating_size.
  - rewrite map_map. cbn. by rewrite map_id.
  - apply Forall_fmap, Forall_forall. intros d _. cbn. by apply default_sane.
  - intros p (q & Hq & Hd & ->)%statusPublishers_elem. cbn. split_and!.
    + rewrite sortedStatusDomains_elem, elem_of_union. right. apply seen_fmap. eauto.
    + by rewrite bool_decide_eq_true, sortedStatusDomains_elem.
    + rewrite bool_decide_eq_true. unfold subscribed. rewrite seen_fmap. naive_solver.
  - intros q Hq Hd. eexists. split; [apply statusPublishers_elem; by exists q|done].
  - split; [done|]. by destruct (cfgManuallyAccept _).
Qed.
End page.

(** ** The snapshot of the collector *)

Lemma countState_total health l :
  countState Healthy health l + countState Failing health l + countState Unobserved health l = Z.of_nat (length l).
Proof.
  unfold countState. induction l as [|d l IH]; [done|]. cbn [List.filter length].
  destruct (receiverStateOf _); repeat case_bool_decide; try done; cbn [length]; lia.
Qed.

(** The snapshot of the metrics collector ends whatever Redis answers, with an error or with
    counts in which every distinct receiver the status page lists is exactly once healthy, failing
    or unobserved. *)
Theorem runtime_snapshot_partitions (w : W) :
  ∃ w' r, relayRuntimeSnapshot w = (w', Done r) ∧ sameButClock w w'
  ∧ ∀ snap, r = Ok snap →
      rsHealthyReceivers snap + rsFailingReceivers snap + rsUnobservedReceivers snap = rsUniqueReceivers snap
      ∧ ∀ PrivateKey (config : option (RelayConfig S PrivateKey)) actor version client (v v' : W) s,
          w_relay v = w_relay w → buildRelayStatus config actor version client v = (v', Done s) →
          stReceivingCount s = rsUniqueReceivers snap.
Proof.
  unfold relayRuntimeSnapshot. unfold mbind at 1, M_bind at 1, getRelay at 1.
  set (receiving := seenDomains (subDomain <$> SubscribersAndFollowers (w_relay w))).
  destruct (quiet_loadHealth (elements receiving) w) as (w1 & r & E & Hs & Hr). cbv zeta. destruct r as [m|e].
  2: { rewrite (bindErr_Err _ _ _ _ _ E). eexists _, _. split; [done|]. split; [done|]. done. }
  rewrite (bindErr_Ok _ _ _ _ _ E). eexists _, _. split; [done|]. split; [done|]. intros snap [= <-]. cbn.
  split; [rewrite countState_total; done|].
  intros PK config actor version client v v' s Ev Eb. unfold buildRelayStatus in Eb.
  unfold mbind at 1, M_bind at 1, getRelay at 1 in Eb. cbv zeta in Eb. apply bind_inv in Eb as (v1 & rr & _ & Eb).
  injection Eb as _ <-. cbn. rewrite sortedStatusDomains_length, Ev. done.
Qed.
End spec.

(** ** Examples *)

Definition statusURL (raw : string) : option URL := match url_ParseRequestURI raw with Ok u => Some u | Err _ => None end.
Definition getRequest (raw : string) : inRequest := mkIn "GET" (statusURL raw) "relay.example" ∅ None.
Definition demoRelayActor : Actor :=
  mkActor activityStreamsContext "https://relay.example/actor" "Application" "relay" "relay" "" "https://relay.example/inbox" "" "" ""
    (Some "https://relay.example/inbox") (mkPublicKey "" "" "") None None.
Definition demoHost : URL := match url_Parse "https://relay.example" with Ok u => u | Err _ => emptyURL end.
Example webfinger_example :
  (λ q, rStatus (handleWebfinger [GenerateWebfingerResource demoRelayActor demoHost] (getRequest ("/.well-known/webfinger" +:+ q))))
  <$> ["?resource=acct:relay@relay.example"; "?x=1&resource=acct%3Arelay%40relay.example"; "?resource=acct:relay@other.example";
       "?resource=a;b"; ""] = [200; 200; 404; 400; 400].
Proof. vm_compute. reflexivity. Qed.
Example nodeinfo_example :
  match handleNodeinfo (GenerateNodeinfoResources demoHost "3.0") (getRequest "/nodeinfo/2.1") (Load demoWorld).1 with
  | (_, Done (r, res)) => (rStatus r, niUsersTotal (nrNodeinfo res)) | _ => (0, 0) end = (200, 1).
Proof. vm_compute. reflexivity. Qed.
(** The page of a relay with a subscriber, a follower and a publisher. *)
Example status_example :
  match buildRelayStatus (PrivateKey := unit) None demoRelayActor "3.0" true (Load demoWorld).1 with
  | (_, Done s) => Some (stReceivingDomains s, stConnectedDomains s, spReceivesRelay <$> stPublishersEntries s, stRegistration s)
  | _ => None end
  = Some (["fol.example"; "sub.example"], ["example.net"; "fol.example"; "sub.example"], [false], "open").
Proof. vm_compute. reflexivity. Qed.

Lemma status_page_is_consistent_witness : ∃ w' s,
  buildRelayStatus (PrivateKey := unit) None demoRelayActor "3.0" true (Load faultyWorld).1 = (w', Done s)
  ∧ stConnectedCount s = Z.of_nat (length (stConnectedDomains s)).
Proof.
  destruct (status_page_is_consistent (PrivateKey := unit) None demoRelayActor "3.0" true (Load faultyWorld).1)
    as (w' & s & E & _ & Hc).
  exists w', s. split; [exact E|apply Hc].
Defined.
Lemma runtime_snapshot_partitions_witness : ∃ w' snap, relayRuntimeSnapshot (Load demoWorld).1 = (w', Done (Ok snap))
  ∧ rsHealthyReceivers snap + rsFailingReceivers snap + rsUnobservedReceivers snap = rsUniqueReceivers snap.
Proof.
  destruct (runtime_snapshot_partitions (Load demoWorld).1) as (w' & r & E & _ & Hr).
  assert (Ho : match relayRuntimeSnapshot (Load demoWorld).1 with (_, Done (Ok _)) => true | _ => false end = true)
    by (vm_compute; reflexivity).
  rewrite E in Ho. destruct r as [snap|]; [|discriminate]. exists w', snap. split; [exact E|apply (Hr snap eq_refl)].
Defined.
