(* ===== verification/ObservabilityService.v ===== *)
(** * The observability service (internal/observability)

    - [Instrument]: the wrapper around the public API that counts every request under
      bounded labels, over the [statusRecorder] that notes the status a handler sends.
      A handler is given by its run: the calls it makes on the response writer and the
      panic it may end in; the writer is the one of net/http;
    - the private endpoints: metrics, health and readiness probes;
    - [OperationalCollector]: what a scrape reads from Redis and from the relay, as the
      list of metrics it sends.  Floating-point numbers are a parameter.
    The Prometheus registry and the text format are not modelled. *)

From S2P Require Import Prelude GoStrings GoUrl Redis GoTime World Observability Rfc9421 ActivityModel Inbox StatusPage.

(** ** Labels *)

Definition normalizedStatusCode (status : Z) : string :=
  if (status <? 100) || (599 <? status) then "other" else itoa status.
Definition knownMethods : list string := ["GET"; "HEAD"; "POST"; "PUT"; "PATCH"; "DELETE"; "OPTIONS"].
Definition normalizedMethod (method : string) : string := if oneOf method knownMethods then method else "OTHER".
Definition knownRoutes : list string :=
  ["/.well-known/nodeinfo"; "/.well-known/webfinger"; "/nodeinfo/2.1"; "/status.json"; "/actor"; "/actor/outbox";
   "/actor/followers"; "/actor/following"; "/inbox"].
Definition normalizedRoute (path : string) : string := if oneOf path knownRoutes then path else "unknown".

(** ** Response writers *)

(** The writer of net/http: the header map of the handler, the status with the header that was
    sent, the body. *)
Record httpWriter := mkHttpWriter { hwHeader : Header; hwSent : option (Z * Header); hwBody : string }.
Definition newWriter : httpWriter := mkHttpWriter ∅ None "".
Inductive writerCall :=
  | HeaderSetCall (name value : string)
  | WriteHeaderCall (status : Z)
  | WriteCall (body : string).

Definition informational (status : Z) : bool := (100 <=? status) && (status <=? 199) && negb (status =? 101).
Definition bodyAllowedForStatus (status : Z) : bool :=
  negb (((100 <=? status) && (status <=? 199)) || (status =? 204) || (status =? 304)).
(** [None]: the call panics, as for a status of less or more than three digits. *)
Definition netWriteHeader (status : Z) (w : httpWriter) : option httpWriter :=
  match hwSent w with
  | Some _ => Some w
  | None =>
      if (status <? 100) || (999 <? status) then None
      else if informational status then Some w
      else Some (mkHttpWriter (hwHeader w) (Some (status, hwHeader w)) (hwBody w))
  end.
Definition netWrite (body : string) (w : httpWriter) : option httpWriter :=
  w ← match hwSent w with Some _ => Some w | None => netWriteHeader 200 w end;
  match hwSent w with
  | Some (status, _) =>
      Some (if bodyAllowedForStatus status then mkHttpWriter (hwHeader w) (hwSent w) (hwBody w +:+ body) else w)
  | None => Some w
  end.
Definition netCall (c : writerCall) (w : httpWriter) : option httpWriter :=
  match c with
  | HeaderSetCall name value => Some (mkHttpWriter (headerSet (hwHeader w) name value) (hwSent w) (hwBody w))
  | WriteHeaderCall status => netWriteHeader status w
  | WriteCall body => netWrite body w
  end.

(** [statusRecorder]: the status it noted (zero for none) and the writer it wraps. *)
Record statusRecorder := mkRecorder { recStatus : Z; recInner : httpWriter }.
Definition recorderWriteHeader (status : Z) (r : statusRecorder) : statusRecorder * bool :=
  if negb (recStatus r =? 0) then (r, false)
  else match netWriteHeader status (recInner r) with
  | Some inner => (mkRecorder status inner, false)
  | None => (mkRecorder status (recInner r), true)
  end.
(** The recorder after a call, and whether the call panicked. *)
Definition recorderCall (c : writerCall) (r : statusRecorder) : statusRecorder * bool :=
  match c with
  | HeaderSetCall name value => (mkRecorder (recStatus r) (mkHttpWriter (headerSet (hwHeader (recInner r)) name value)
                                   (hwSent (recInner r)) (hwBody (recInner r))), false)
  | WriteHeaderCall status => recorderWriteHeader status r
  | WriteCall body =>
      let '(r, panicked) := if recStatus r =? 0 then recorderWriteHeader 200 r else (r, false) in
      if panicked then (r, true)
      else match netWrite body (recInner r) with
      | Some inner => (mkRecorder (recStatus r) inner, false)
      | None => (r, true)
      end
  end.

Definition invalidCode : string := "invalid WriteHeader code".
(** *** The recorder of the inbox (api/operational_metrics.go, [inboxStatusRecorder]) *)

(** Its [WriteHeader] is that of [statusRecorder]; its [Write] notes the status and leaves sending it to
    the writer. *)
Definition inboxRecorderCall (c : writerCall) (r : statusRecorder) : statusRecorder * bool :=
  match c with
  | WriteCall body =>
      let r := if recStatus r =? 0 then mkRecorder 200 (recInner r) else r in
      match netWrite body (recInner r) with
      | Some inner => (mkRecorder (recStatus r) inner, false)
      | None => (r, true)
      end
  | _ => recorderCall c r
  end.
Definition inboxRecorderStatus (r : statusRecorder) : Z := if recStatus r =? 0 then 200 else recStatus r.
Fixpoint runInbox (calls : list writerCall) (ended : option string) (r : statusRecorder) : statusRecorder * option string :=
  match calls with
  | [] => (r, ended)
  | c :: calls => let '(r, panicked) := inboxRecorderCall c r in
                  if (panicked : bool) then (r, Some invalidCode) else runInbox calls ended r
  end.

(** The run of a handler: its calls and the panic it ends in. *)
Definition handlerRun : Type := list writerCall * option string.
(** A run on the writer of net/http, and through a recorder. *)
Fixpoint runDirect (calls : list writerCall) (ended : option string) (w : httpWriter) : httpWriter * option string :=
  match calls with
  | [] => (w, ended)
  | c :: calls => match netCall c w with None => (w, Some invalidCode) | Some w => runDirect calls ended w end
  end.
Fixpoint runRecorded (calls : list writerCall) (ended : option string) (r : statusRecorder) : statusRecorder * option string :=
  match calls with
  | [] => (r, ended)
  | c :: calls => let '(r, panicked) := recorderCall c r in
                  if (panicked : bool) then (r, Some invalidCode) else runRecorded calls ended r
  end.
(** What the client gets when the handler has returned. *)
Definition finished (w : httpWriter) : reply :=
  match hwSent w with
  | Some (status, header) => mkReply status header (hwBody w)
  | None => mkReply 200 (hwHeader w) (hwBody w)
  end.

(** ** The metrics of the public API *)

Abbreviation requestLabels := (string * string * string)%type.
Record httpMetrics := mkHttpMetrics {
  httpRequests : gmap requestLabels Z; httpDuration : gmap requestLabels (list Duration) }.
Definition countRequest (l : requestLabels) (d : Duration) (m : httpMetrics) : httpMetrics :=
  mkHttpMetrics (<[l := default 0 (httpRequests m !! l) + 1]> (httpRequests m))
    (<[l := default [] (httpDuration m !! l) ++ [d]]> (httpDuration m)).

Section service.
Context {S : Type} `{Redis S}.
Record ObsWorld := mkObsWorld { ow_world : World S; ow_metrics : httpMetrics }.
Definition inObs {A} (m : M (World S) A) : M ObsWorld A := λ w,
  let '(w', a) := m (ow_world w) in (mkObsWorld w' (ow_metrics w), a).

Definition observeRequest (method route : string) (status : Z) (started : Time) : M ObsWorld unit :=
  now ← inObs timeNow;
  modify (λ w, mkObsWorld (ow_world w)
    (countRequest (method, route, normalizedStatusCode status) (now - started) (ow_metrics w))).

(** [next] runs the wrapped handler in the world. *)
Definition Instrument (next : inRequest → M (World S) handlerRun) (request : inRequest) : M ObsWorld reply :=
  started ← inObs timeNow;
  let method := normalizedMethod (inMethod request) in
  let route := normalizedRoute (default "" (Path <$> inURL request)) in
  '(calls, ended) ← inObs (next request);
  let '(recorder, ended) := runRecorded calls ended (mkRecorder 0 newWriter) in
  match ended with
  | Some recovered =>
      _ ← observeRequest method route (if recStatus recorder =? 0 then 500 else recStatus recorder) started;
      panic recovered
  | None =>
      _ ← observeRequest method route (if recStatus recorder =? 0 then 200 else recStatus recorder) started;
      mret (finished (recInner recorder))
  end.

(** ** The private endpoints *)

Definition writeProbe (request : inRequest) (header : Header) (status : Z) (body : string) : reply :=
  mkReply status (headerSet (headerSet (headerSet header "Cache-Control" "no-store") "Content-Type" "text/plain; charset=utf-8")
                    "X-Content-Type-Options" "nosniff") (if inMethod request =s "HEAD" then "" else body).
Definition line (s : string) : string := s +:+ newlineByte.
Definition readOnlyHandler (next : inRequest → M (World S) reply) (request : inRequest) : M (World S) reply :=
  if negb (inMethod request =s "GET") && negb (inMethod request =s "HEAD")
  then mret (writeProbe request (headerSet ∅ "Allow" "GET, HEAD") 405 (line "method not allowed"))
  else next request.
Definition handleHealthy (request : inRequest) : M (World S) reply := mret (writeProbe request ∅ 200 (line "healthy")).

(** [PING], and the readiness check of [New]: without a client it fails. *)
Definition PING : Rcmd unit := λ now d, (d, Ok tt).
Definition readinessOf (redisClient : bool) : M (World S) (result unit) :=
  if redisClient then redis PING else mret (Err (errorsNew "Redis client is unavailable")).
Definition handleReady (readiness : M (World S) (result unit)) (request : inRequest) : M (World S) reply :=
  r ← readiness;
  mret (match r with
        | Err _ => writeProbe request ∅ 503 (line "not ready")
        | Ok _ => writeProbe request ∅ 200 (line "ready")
        end).
(** The gauge [dependency_ready]. *)
Definition dependencyReady (readiness : M (World S) (result unit)) : M (World S) Z :=
  r ← readiness; mret (match r with Ok _ => 1 | Err _ => 0 end).
(** [Handler]: the routes of the private server; [metrics] writes the registry, after the header
    fields it is given. *)
Definition privateHandler (readiness : M (World S) (result unit)) (metrics : inRequest → Header → M (World S) reply)
    (path : string) : option (inRequest → M (World S) reply) :=
  if path =s "/metrics" then Some (readOnlyHandler (λ request, metrics request (headerSet ∅ "Cache-Control" "no-cache")))
  else if path =s "/-/healthy" then Some (readOnlyHandler handleHealthy)
  else if path =s "/-/ready" then Some (readOnlyHandler (handleReady readiness))
  else None.
End service.
Arguments ObsWorld : clear implicits.

(** ** The collector (operational.go) *)

Inductive valueType := CounterValue | GaugeValue.
(** A metric sent to the channel. *)
Record constMetric (F : Type) := mkConstMetric { cmName : string; cmType : valueType; cmValue : F; cmLabels : list string }.
Arguments mkConstMetric {F} _ _ _ _.
Arguments cmName {F} _.
Arguments cmType {F} _.
Arguments cmValue {F} _.
Arguments cmLabels {F} _.

Definition metricPrefix : string := "activity_relay_".
Definition ledgerMetrics : list string :=
  ["activities_total"; "http_signature_verifications_total"; "queue_admissions_total"; "fanout_targets_total";
   "delivery_attempts_total"; "directory_scheduler_attempts_total"; "redis_operation_failures_total"].
Definition Describe : list string :=
  map (String.app metricPrefix) (ledgerMetrics ++ ["queue_backlog"; "queue_reservations"; "receivers"; "publishers";
    "receiver_health"; "operational_collection_success"]).

(** float64: parsing, addition, the test for a negative number, and conversion from an integer. *)
Record floats (F : Type) := mkFloats {
  parseFloat : string → option F; addF : F → F → F; negativeF : F → bool; ofInt : Z → F }.
Arguments mkFloats {F} _ _ _ _.
Arguments parseFloat {F} _ _.
Arguments addF {F} _ _ _.
Arguments negativeF {F} _ _.
Arguments ofInt {F} _ _.

Section collector.
Context {F : Type} (fl : floats F).
Definition seriesMap : Type := gmap string (string * list string * F).
Definition addSeries (metric : string) (value : F) (labels : list string) (series : seriesMap) : seriesMap :=
  let key := Join (metric :: labels) metricFieldSeparator in
  match series !! key with
  | Some (m, l, v) => <[key := (m, l, addF fl v value)]> series
  | None => <[key := (metric, labels, value)]> series
  end.
Definition collectField (series : seriesMap) (entry : string * string) : seriesMap :=
  match parseFloat fl entry.2 with
  | None => series
  | Some value =>
      if negativeF fl value then series
      else match ledgerEntry entry.1 with
      | Some (metric, labels) => addSeries metric value labels series
      | None => series
      end
  end.
(** The fields of the ledger come in the order of a map iteration: any. *)
Definition collectLedger (ledger : list (string * string)) : list (constMetric F) :=
  let series := foldl collectField ∅ ledger in
  omap (λ key, (λ '(metric, labels, value), mkConstMetric (metricPrefix +:+ metric) CounterValue value labels) <$> series !! key)
    (sortStrings (map_to_list series).*1).

Definition gauge (name : string) (z : Z) (labels : list string) : constMetric F :=
  mkConstMetric (metricPrefix +:+ name) GaugeValue (ofInt fl z) labels.
Definition snapshotMetrics (s : RuntimeSnapshot) : list (constMetric F) :=
  [gauge "receivers" (rsSubscribers s) ["subscription"]; gauge "receivers" (rsFollowers s) ["follower"];
   gauge "receivers" (rsUniqueReceivers s) ["unique"]; gauge "publishers" (rsPublishers s) [];
   gauge "receiver_health" (rsHealthyReceivers s) ["healthy"]; gauge "receiver_health" (rsFailingReceivers s) ["failing"];
   gauge "receiver_health" (rsUnobservedReceivers s) ["unobserved"]].

Context {S : Type} `{Redis S}.
(** The pipeline; a key that does not exist is no error. *)
Definition collectCommand : Rcmd (gmap string string * Z * option string) :=
  rpipe (rpipe (HGETALL OperationalMetricsKey) (LLEN "relay")) (GETopt "relay:queue:reservations").
Definition Collect (snapshot : option (M (World S) (result RuntimeSnapshot))) : M (World S) (list (constMetric F)) :=
  answer ← redis collectCommand;
  let '(sent, ok) := match answer with
    | Err _ => ([], false)
    | Ok (ledger, backlog, raw) =>
        let '(reservations, ok) := match raw with
          | None => (0, true)
          | Some text => match parseInt 64 text with Some z => (z, true) | None => (0, false) end
          end in
        (collectLedger (map_to_list ledger) ++ [gauge "queue_backlog" backlog []; gauge "queue_reservations" reservations []], ok)
    end in
  '(sent', ok') ← (match snapshot with
    | None => mret ([], ok)
    | Some take => r ← take;
        mret (match r with Err _ => ([], false) | Ok s => (snapshotMetrics s, ok) end)
    end);
  mret (sent ++ sent' ++ [gauge "operational_collection_success" (if (ok' : bool) then 1 else 0) []]).
End collector.
