(* ===== verification/ObservabilityServiceSpec.v ===== *)
(** * Theorems about the observability service

    Instrumenting the API does not change its answers and counts every request once,
    panics included, under bounded labels; the labels know exactly the registered
    routes; the probes answer; the collector sends the sums of the ledger. *)

From S2P Require Import Prelude GoStrings GoUrl Redis GoTime World Frame Observability Rfc9421 ActivityModel Inbox StatusPage.
From S2P Require Import ObservabilityService.

(** ** The recorder *)

(** A status of three digits that ends the header. *)
Definition validCall (c : writerCall) : Prop :=
  match c with WriteHeaderCall status => 100 ≤ status ≤ 999 ∧ informational status = false | _ => True end.
(** The recorder has noted what its writer has sent. *)
Definition inStep (r : statusRecorder) : Prop :=
  recStatus r = match hwSent (recInner r) with Some (status, _) => status | None => 0 end
  ∧ match hwSent (recInner r) with Some (status, _) => status ≠ 0 | None => True end.

Lemma netWriteHeader_valid status w : 100 ≤ status ≤ 999 → informational status = false → hwSent w = None →
  netWriteHeader status w = Some (mkHttpWriter (hwHeader w) (Some (status, hwHeader w)) (hwBody w)).
Proof.
  intros Hs Hi Hw. unfold netWriteHeader. rewrite Hw, Hi. destruct (Z.ltb_spec status 100), (Z.ltb_spec 999 status); try lia. done.
Qed.
Lemma recorderWriteHeader_step status r : inStep r → 100 ≤ status ≤ 999 → informational status = false →
  ∃ r', recorderWriteHeader status r = (r', false) ∧ netWriteHeader status (recInner r) = Some (recInner r') ∧ inStep r'.
Proof.
  intros [H1 H2] Hs Hi. unfold recorderWriteHeader. destruct (hwSent (recInner r)) as [[st h]|] eqn:E.
  - rewrite H1. destruct (Z.eqb_spec st 0); [done|]. cbn. exists r. split; [done|]. unfold netWriteHeader, inStep. by rewrite E.
  - rewrite H1. cbn. rewrite netWriteHeader_valid by done. eexists. split; [done|]. split; [done|]. split; cbn; [done|lia].
Qed.
Lemma netWrite_sent body w status h : hwSent w = Some (status, h) →
  ∃ w', netWrite body w = Some w' ∧ hwSent w' = Some (status, h).
Proof. intros E. unfold netWrite. rewrite E. cbn. rewrite E. eexists. split; [done|]. by destruct (bodyAllowedForStatus _). Qed.
Lemma recorderCall_step c r : inStep r → validCall c →
  ∃ r', recorderCall c r = (r', false) ∧ netCall c (recInner r) = Some (recInner r') ∧ inStep r'.
Proof.
  intros Hr Hc. destruct c as [name value|status|body]; cbn [recorderCall netCall].
  - eexists. split; [done|]. split; [done|]. exact Hr.
  - destruct Hc. by apply recorderWriteHeader_step.
  - destruct Hr as [H1 H2]. destruct (hwSent (recInner r)) as [[st h]|] eqn:E.
    + rewrite H1. destruct (Z.eqb_spec st 0); [done|]. destruct (netWrite_sent body _ _ _ E) as (w' & -> & Ew).
      eexists. split; [done|]. split; [done|]. unfold inStep. cbn. by rewrite Ew.
    + rewrite H1. cbn [Z.eqb]. destruct (recorderWriteHeader_step 200 r) as (r1 & -> & En & [H3 H4]); [|lia|done|].
      { unfold inStep. by rewrite E. }
      assert (Es : hwSent (recInner r1) = Some (200, hwHeader (recInner r))).
      { rewrite netWriteHeader_valid in En by (done || lia). by injection En as <-. }
      assert (Hn : netWrite body (recInner r) = netWrite body (recInner r1)).
      { unfold netWrite. rewrite E, En, Es. done. }
      rewrite Hn. destruct (netWrite_sent body _ _ _ Es) as (w' & -> & Ew). eexists. split; [done|]. split; [done|].
      rewrite Es in H3, H4. unfold inStep. cbn. by rewrite Ew, H3.
Qed.
Lemma run_step calls ended r : inStep r → Forall validCall calls →
  ∃ r', runRecorded calls ended r = (r', ended) ∧ runDirect calls ended (recInner r) = (recInner r', ended) ∧ inStep r'.
Proof.
  revert r. induction calls as [|c calls IH]; intros r Hr Hc; [by exists r|]. apply Forall_cons in Hc as [Hc Hcs].
  destruct (recorderCall_step c r Hr Hc) as (r1 & E1 & E2 & H1). cbn [runRecorded runDirect]. rewrite E1, E2. by apply IH.
Qed.

(** The recorder of the inbox is the other one, but for where the implicit status is sent. *)
Lemma inboxRecorderCall_step c r : inStep r → validCall c →
  ∃ r', inboxRecorderCall c r = (r', false) ∧ netCall c (recInner r) = Some (recInner r') ∧ inStep r'.
Proof.
  intros Hr Hc. destruct c as [name value|status|body]; [by apply recorderCall_step|by apply recorderCall_step|].
  destruct Hr as [H1 H2]. cbn [inboxRecorderCall netCall]. destruct (hwSent (recInner r)) as [[st h]|] eqn:E.
  - rewrite H1. destruct (Z.eqb_spec st 0); [done|]. destruct (netWrite_sent body _ _ _ E) as (w' & -> & Ew).
    eexists. split; [done|]. split; [done|]. unfold inStep. cbn. by rewrite Ew.
  - rewrite H1. cbn [Z.eqb recInner recStatus]. set (w1 := mkHttpWriter (hwHeader (recInner r)) (Some (200, hwHeader (recInner r))) (hwBody (recInner r))).
    assert (Hn : netWrite body (recInner r) = netWrite body w1).
    { unfold netWrite. rewrite E, netWriteHeader_valid by (done || lia). done. }
    rewrite Hn. destruct (netWrite_sent body w1 _ _ eq_refl) as (w' & -> & Ew). eexists. split; [done|]. split; [done|].
    unfold inStep. cbn. by rewrite Ew.
Qed.
(** The status the inbox metric is classified by is the one the client gets: whatever calls the inbox makes
    on its recorder, with valid final statuses, the client gets what it would have got without the
    recorder, and [Status] is the status of that answer. *)
Theorem inbox_metric_sees_the_answer (calls : list writerCall) (ended : option string) : Forall validCall calls →
  ∃ r, runInbox calls ended (mkRecorder 0 newWriter) = (r, ended) ∧ runDirect calls ended newWriter = (recInner r, ended)
  ∧ inboxRecorderStatus r = rStatus (finished (recInner r)).
Proof.
  assert (Hrun : ∀ r, inStep r → Forall validCall calls →
    ∃ r', runInbox calls ended r = (r', ended) ∧ runDirect calls ended (recInner r) = (recInner r', ended) ∧ inStep r').
  { induction calls as [|c l IH]; intros r Hr Hc; [by exists r|]. apply Forall_cons in Hc as [Hc Hcs].
    destruct (inboxRecorderCall_step c r Hr Hc) as (r1 & E1 & E2 & H1). cbn [runInbox runDirect]. rewrite E1, E2. by apply IH. }
  intros Hc. destruct (Hrun (mkRecorder 0 newWriter)) as (r & E1 & E2 & [H1 H2]); [by split|done|]. exists r. split; [exact E1|].
  split; [exact E2|]. unfold inboxRecorderStatus, finished. rewrite H1. destruct (hwSent (recInner r)) as [[st h]|]; [|done].
  by destruct (Z.eqb_spec st 0).
Qed.

(** ** Labels *)

Definition boundedLabels (l : requestLabels) : Prop :=
  l.1.1 ∈ "OTHER" :: knownMethods ∧ l.1.2 ∈ "unknown" :: knownRoutes ∧ (l.2 = "other" ∨ ∃ n, 100 ≤ n ≤ 599 ∧ l.2 = itoa n).
Lemma oneOf_fallback x fallback l : (if oneOf x l then x else fallback) ∈ fallback :: l.
Proof. destruct (oneOf x l) eqn:E; [right; by apply oneOf_true|left]. Qed.
Lemma labels_bounded method path status :
  boundedLabels (normalizedMethod method, normalizedRoute path, normalizedStatusCode status).
Proof.
  split; [apply oneOf_fallback|]. split; [apply oneOf_fallback|]. cbn. unfold normalizedStatusCode.
  destruct (Z.ltb_spec status 100), (Z.ltb_spec 599 status); cbn; auto. right. exists status. split; [lia|done].
Qed.
Lemma oneOf_decide x l : oneOf x l = bool_decide (x ∈ l).
Proof. symmetry. destruct (oneOf x l) eqn:E; [by apply bool_decide_eq_true, oneOf_true|]. apply bool_decide_eq_false. intros Hx%oneOf_true. congruence. Qed.
(** The label of a route is its path exactly for the registered routes. *)
Lemma route_labels path : normalizedRoute path = (if oneOf path (fst <$> handlersRegister) then path else "unknown").
Proof. done. Qed.

(** The status of a run as the wrapper reports it. *)
Definition reportedStatus (w : httpWriter) (ended : option string) : Z :=
  match hwSent w with
  | Some (status, _) => status
  | None => match ended with Some _ => 500 | None => 200 end
  end.

Section spec.
Context {S : Type} `{Redis S}.
(** C27: instrumenting is transparent.  Whatever calls a handler makes on its response writer
    (with valid final statuses), the client gets through the recorder exactly what it would get
    without it, or the same panic reaches the server; and the request is counted exactly once,
    with the time from the clock reading before the handler to the one after it as its duration,
    under its method if that is a known one (OTHER if not), its route if that is registered
    (unknown if not), and the status the client saw (500 for a panic before any header), labels of
    a fixed finite set. *)
Theorem instrument_is_transparent (next : inRequest → M (World S) handlerRun) (request : inRequest) (w w1 : World S)
    (m : httpMetrics) (calls : list writerCall) (ended : option string)
    (Hnext : next request (timeNow w).1 = (w1, Done (calls, ended))) (Hcalls : Forall validCall calls) :
  let direct := (runDirect calls ended newWriter).1 in
  let path := default "" (Path <$> inURL request) in
  let labels := (if bool_decide (inMethod request ∈ knownMethods) then inMethod request else "OTHER",
                 if bool_decide (path ∈ fst <$> handlersRegister) then path else "unknown",
                 normalizedStatusCode (reportedStatus direct ended)) in
  Instrument next request (mkObsWorld w m)
    = (mkObsWorld (timeNow w1).1 (countRequest labels (w_clock w1 (w_ticks w1) - w_clock w (w_ticks w)) m),
       match ended with None => Done (finished direct) | Some recovered => Panic recovered end)
  ∧ boundedLabels labels.
Proof.
  cbv zeta. destruct (run_step calls ended (mkRecorder 0 newWriter)) as (r & E1 & E2 & [Hr Hs]); [done|done|].
  cbn [recInner] in E2. rewrite E2. cbn [fst]. rewrite <- !oneOf_decide. fold (normalizedMethod (inMethod request)).
  rewrite <- route_labels. split; [|apply labels_bounded].
  unfold Instrument. erewrite bind_Done by reflexivity. cbv zeta. erewrite bind_Done.
  2: { unfold inObs. cbn [ow_world]. unfold inObs in *. cbn. change (mkWorld _ _ _ _ _ _ _ _ _ _ _ _ _ _) with (timeNow w).1.
       rewrite Hnext. reflexivity. }
  cbv beta iota. rewrite E1. unfold reportedStatus.
  assert (Hst : ∀ dflt, (if recStatus r =? 0 then dflt else recStatus r)
    = match hwSent (recInner r) with Some (status, _) => status | None => dflt end).
  { intros dflt. rewrite Hr. destruct (hwSent (recInner r)) as [[st h]|]; [|done]. by destruct (Z.eqb_spec st 0). }
  destruct ended as [msg|]; rewrite Hst; done.
Qed.
End spec.

(** ** The collector *)

(** What a float64 does with the integers it represents exactly. *)
Class FloatLaws {F} (fl : floats F) : Prop := {
  float_parse : ∀ z, 0 ≤ z < 2 ^ 53 → parseFloat fl (itoa z) = Some (ofInt fl z);
  float_sign : ∀ z, 0 ≤ z < 2 ^ 53 → negativeF fl (ofInt fl z) = false;
  float_add : ∀ a b, 0 ≤ a → 0 ≤ b → a + b < 2 ^ 53 → addF fl (ofInt fl a) (ofInt fl b) = ofInt fl (a + b) }.

(** Every field the collector recognises is of the vocabulary. *)
Lemma ledgerEntry_vocabulary f metric labels : ledgerEntry f = Some (metric, labels) → (metric, labels) ∈ vocabulary.
Proof.
  unfold ledgerEntry. destruct (Split f "|") as [|x [|a [|b [|c [|]]]]]; try done; intros E;
    repeat match type of E with (if ?x =s ?m then _ else _) = _ => destruct (x =s m) eqn:?Em end; try done;
    injection E as <- <-; repeat match goal with Em : (_ =s _) = true |- _ => apply eqs_true in Em; subst x end;
    (eapply vocabulary_elem; [unfold metricLabels; cbv zeta; eauto 20 using list_elem_of_here, list_elem_of_further
                             |repeat (apply Forall2_cons_2; [first [apply boundedValue_elem|apply normalizeActivityType_elem]|]); apply Forall2_nil_2]).
Qed.
Lemma seriesKey_inj p q : p ∈ vocabulary → q ∈ vocabulary → metricField p.1 p.2 = metricField q.1 q.2 → p = q.
Proof.
  destruct p as [m l], q as [m' l']. intros Hp%vocabulary_collected Hq%vocabulary_collected E. cbn [fst snd] in E. rewrite E in Hp. congruence.
Qed.

Section collecting.
Context {F : Type} (fl : floats F) `{!FloatLaws fl}.
(** A ledger of integer counters, as the recorder writes it. *)
Abbreviation counters := (list (string * Z)).
Definition asText (ledger : counters) : list (string * string) := map (λ e, (e.1, itoa e.2)) ledger.
Definition ledgerSum (ledger : counters) : Z := foldr (λ e s, e.2 + s) 0 ledger.
(** The counters the collector adds up for one series. *)
Definition seriesOf (p : string * list string) (ledger : counters) : counters :=
  List.filter (λ e, bool_decide (ledgerEntry e.1 = Some p)) ledger.
Definition exact (ledger : counters) : Prop := Forall (λ e, 0 ≤ e.2) ledger ∧ ledgerSum ledger < 2 ^ 53.

Lemma ledgerSum_app l l' : ledgerSum (l ++ l') = ledgerSum l + ledgerSum l'.
Proof. unfold ledgerSum. induction l as [|e l IH]; cbn; lia. Qed.
Lemma ledgerSum_perm l l' : l ≡ₚ l' → ledgerSum l = ledgerSum l'.
Proof. unfold ledgerSum. induction 1; cbn in *; lia. Qed.
Lemma ledgerSum_nonneg l : Forall (λ e, 0 ≤ e.2) l → 0 ≤ ledgerSum l.
Proof. unfold ledgerSum. induction 1; cbn in *; lia. Qed.
Lemma seriesOf_le p l : Forall (λ e, 0 ≤ e.2) l → 0 ≤ ledgerSum (seriesOf p l) ≤ ledgerSum l.
Proof. unfold ledgerSum, seriesOf. induction 1 as [|e l He _ IH]; [done|]. cbn. destruct (bool_decide _); cbn in *; lia. Qed.
Lemma seriesOf_app p l l' : seriesOf p (l ++ l') = seriesOf p l ++ seriesOf p l'.
Proof. unfold seriesOf. apply List.filter_app. Qed.
Lemma seriesOf_perm p l l' : l ≡ₚ l' → seriesOf p l ≡ₚ seriesOf p l'.
Proof.
  induction 1 as [|e l l' _ IH|e e' l|l l' l'' _ IH1 _ IH2]; cbn; [done|..].
  - destruct (bool_decide _); [by constructor|done].
  - destruct (bool_decide _), (bool_decide _); try done. constructor.
  - by etransitivity.
Qed.
Lemma exact_app l l' : exact (l ++ l') → exact l.
Proof.
  intros [Hn Hs]. apply Forall_app in Hn as [Hl Hl']. split; [done|]. rewrite ledgerSum_app in Hs.
  pose proof (ledgerSum_nonneg _ Hl'). lia.
Qed.

(** The series the loop has built: one per recognised pair, with the sum of its counters. *)
Definition seriesRight (ledger : counters) (series : seriesMap (F := F)) : Prop :=
  ∀ key v, series !! key = Some v ↔ ∃ p, p ∈ vocabulary ∧ key = metricField p.1 p.2 ∧ seriesOf p ledger ≠ []
    ∧ v = (p, ofInt fl (ledgerSum (seriesOf p ledger))).
Lemma seriesRight_step ledger series f z : seriesRight ledger series → exact (ledger ++ [(f, z)]) →
  seriesRight (ledger ++ [(f, z)]) (collectField fl series (f, itoa z)).
Proof.
  intros Hs Hx. assert (Hz : 0 ≤ z < 2 ^ 53).
  { destruct Hx as [Hn Hb]. apply Forall_app in Hn as [Hn Hz]. apply Forall_cons in Hz as [Hz _]. cbn in Hz.
    rewrite ledgerSum_app in Hb. cbn in Hb. pose proof (ledgerSum_nonneg _ Hn). lia. }
  unfold collectField. cbn [fst snd]. rewrite float_parse, float_sign by done.
  destruct (ledgerEntry f) as [[metric labels]|] eqn:Ef.
  2: { intros key v. rewrite (Hs key v). apply exist_proper. intros p. rewrite seriesOf_app. cbn.
       rewrite bool_decide_eq_false_2 by (by rewrite Ef). by rewrite app_nil_r. }
  assert (Hv : (metric, labels) ∈ vocabulary) by by apply ledgerEntry_vocabulary in Ef.
  set (p0 := (metric, labels)) in *. set (k0 := metricField metric labels).
  assert (Hother : ∀ p, p ≠ p0 → seriesOf p (ledger ++ [(f, z)]) = seriesOf p ledger).
  { intros p Hp. rewrite seriesOf_app. cbn. rewrite bool_decide_eq_false_2; [by rewrite app_nil_r|]. rewrite Ef. by intros [= <-]. }
  assert (Hthis : seriesOf p0 (ledger ++ [(f, z)]) = seriesOf p0 ledger ++ [(f, z)]).
  { rewrite seriesOf_app. cbn. by rewrite bool_decide_eq_true_2. }
  assert (Hadd : addSeries fl metric (ofInt fl z) labels series
    = <[k0 := (p0, ofInt fl (ledgerSum (seriesOf p0 (ledger ++ [(f, z)]))))]> series).
  { unfold addSeries. fold (metricField metric labels). fold k0. rewrite Hthis, ledgerSum_app. unfold ledgerSum at 2. cbn [foldr snd].
    destruct (series !! k0) as [[[m l] v]|] eqn:Ek.
    - apply Hs in Ek as (p & Hp & Hkey & _ & [= Em ->]). assert (Epq : (m, l) = p0) by (rewrite Em; symmetry; by apply seriesKey_inj). rewrite <- Em, Epq.
      do 2 f_equal. rewrite Z.add_0_r. apply float_add; [|lia|].
      + apply seriesOf_le. destruct Hx as [Hn _]. by apply Forall_app in Hn as [? _].
      + destruct Hx as [Hn Hb]. apply Forall_app in Hn as [Hn _]. rewrite ledgerSum_app in Hb. cbn in Hb.
        pose proof (seriesOf_le p0 _ Hn). lia.
    - assert (En : seriesOf p0 ledger = []).
      { destruct (seriesOf p0 ledger) eqn:En; [done|]. exfalso.
        assert (series !! k0 = Some (p0, ofInt fl (ledgerSum (seriesOf p0 ledger)))) as Hin.
        { apply Hs. exists p0. split_and!; try done. by rewrite En. }
        congruence. }
      rewrite En. cbn. by rewrite Z.add_0_r. }
  rewrite Hadd. intros key v. unfold seriesMap in *. rewrite lookup_insert_Some, (Hs key v). split.
  - intros [[<- <-]|[Hk (p & Hp & -> & Hne & ->)]].
    + exists p0. split_and!; [done|done| |done]. rewrite Hthis. by destruct (seriesOf p0 ledger).
    + exists p. assert (p ≠ p0) by (by intros ->). by rewrite Hother.
  - intros (p & Hp & -> & Hne & ->). destruct (decide (p = p0)) as [->|Hpp]; [by left|]. right.
    rewrite Hother in * by done. split; [|by exists p]. intros E. by apply Hpp, seriesKey_inj.
Qed.
Lemma series_right ledger : exact ledger → seriesRight ledger (foldl (collectField fl) ∅ (asText ledger)).
Proof.
  induction ledger as [|[f z] ledger IH] using rev_ind; intros Hx.
  - intros key v. cbn. unfold seriesMap. rewrite lookup_empty. split; [done|]. by intros (p & _ & _ & ? & _).
  - unfold asText. rewrite map_app, foldl_app. cbn [map foldl]. apply seriesRight_step; [|done].
    apply IH. by eapply exact_app.
Qed.

(** The metric sent for the pair [p]. *)
Definition counterMetric (ledger : counters) (p : string * list string) : constMetric F :=
  mkConstMetric (metricPrefix +:+ p.1) CounterValue (ofInt fl (ledgerSum (seriesOf p ledger))) p.2.
Lemma elem_of_collected c ledger : c ∈ collectLedger fl ledger ↔
  ∃ key metric labels v, (foldl (collectField fl) ∅ ledger : seriesMap) !! key = Some (metric, labels, v)
    ∧ c = mkConstMetric (metricPrefix +:+ metric) CounterValue v labels.
Proof.
  unfold collectLedger. set (series := foldl (collectField fl) ∅ ledger). rewrite list_elem_of_omap. split.
  - intros (key & _ & E). destruct (series !! key) as [[[m l] v]|] eqn:Ek; [|done]. injection E as <-. by exists key, m, l, v.
  - intros (key & m & l & v & Ek & ->). exists key. unfold seriesMap in *. rewrite Ek. split; [|done]. apply sortStrings_elem.
    apply list_elem_of_fmap. exists (key, (m, l, v)). split; [done|]. by apply elem_of_map_to_list.
Qed.

Lemma NoDup_omap_inj {A B} (f : A → option B) l :
  (∀ x y b, x ∈ l → y ∈ l → f x = Some b → f y = Some b → x = y) → NoDup l → NoDup (omap f l).
Proof.
  intros Hf. induction 1 as [|x l Hx Hl IH]; [constructor|]. cbn.
  assert (NoDup (omap f l)) by (apply IH; intros x1 x2 b H1 H2; apply Hf; by right).
  destruct (f x) as [b|] eqn:E; [|done]. constructor; [|done]. rewrite list_elem_of_omap. intros (y & Hy & Ey).
  apply Hx. by rewrite (Hf x y b (list_elem_of_here _ _) (list_elem_of_further _ _ _ Hy) E Ey).
Qed.

(** What a scrape sends for a ledger of counters, together below 2^53.  Exactly one counter
    for each metric and labels that occur, all of them of the fixed vocabulary whatever fields the
    hash has, with the sum of all fields that stand for it; the same list in whatever order the
    fields are visited. *)
Theorem collected_counters_are_sums (ledger ledger' : counters) (Hexact : exact ledger) (Hperm : ledger ≡ₚ ledger') :
  (∀ c, c ∈ collectLedger fl (asText ledger) ↔
     ∃ p, p ∈ vocabulary ∧ seriesOf p ledger ≠ [] ∧ c = counterMetric ledger p)
  ∧ NoDup (collectLedger fl (asText ledger))
  ∧ collectLedger fl (asText ledger') = collectLedger fl (asText ledger).
Proof.
  pose proof (series_right ledger Hexact) as Hs. split_and!.
  - intros c. rewrite elem_of_collected. split.
    + intros (key & m & l & v & Ek & ->). apply Hs in Ek as (p & Hp & _ & Hne & [= Em ->]). exists p. split; [done|]. split; [done|].
      unfold counterMetric. by rewrite <- Em.
    + intros ([m l] & Hp & Hne & ->). exists (metricField m l), m, l, (ofInt fl (ledgerSum (seriesOf (m, l) ledger))).
      split; [|done]. apply Hs. by exists (m, l).
  - unfold collectLedger, seriesMap. apply NoDup_omap_inj; [|rewrite sortStrings_perm; apply (NoDup_fst_map_to_list (M := gmap string))].
    intros x y c _ _ Ex Ey. unfold seriesMap in *.
    destruct (foldl _ ∅ _ !! x) as [[[m l] v]|] eqn:E1; [|done]. destruct (foldl _ ∅ _ !! y) as [[[m' l'] v']|] eqn:E2; [|done].
    cbn in Ex, Ey. rewrite <- Ey in Ex. injection Ex as Em _ El. change (m = m') in Em. subst m' l'.
    apply Hs in E1 as (p & _ & -> & _ & [= <- _]). apply Hs in E2 as (q & _ & -> & _ & [= <- _]). done.
  - assert (Hx' : exact ledger').
    { destruct Hexact as [Hn Hb]. split; [by rewrite <- Hperm|]. by rewrite <- (ledgerSum_perm _ _ Hperm). }
    pose proof (series_right ledger' Hx') as Hs'.
    assert (Heq : foldl (collectField fl) ∅ (asText ledger') = (foldl (collectField fl) ∅ (asText ledger) : seriesMap)).
    { unfold seriesMap in *. apply map_eq. intros key. apply option_eq. intros v. rewrite (Hs' key v), (Hs key v). apply exist_proper. intros p.
      rewrite (ledgerSum_perm _ _ (seriesOf_perm p _ _ Hperm)).
      assert (seriesOf p ledger ≠ [] ↔ seriesOf p ledger' ≠ []) as ->; [|done].
      pose proof (seriesOf_perm p _ _ Hperm) as Hp. split; intros Hne E; apply Hne; rewrite E in Hp;
        [by apply Permutation_nil_r in Hp|by apply Permutation_nil_l in Hp]. }
    unfold collectLedger. by rewrite Heq.
Qed.
End collecting.

(** ** Examples *)

Definition teapot : inRequest → M (World Calm) handlerRun := λ _, mret ([HeaderSetCall "X-Kind" "tea"; WriteHeaderCall 418; WriteCall "short"], None).
Definition broken : inRequest → M (World Calm) handlerRun := λ _, mret ([HeaderSetCall "X-Kind" "tea"], Some "nil map").
Definition inboxPost : inRequest := mkIn "POST" (match url_Parse "/inbox" with Ok u => Some u | Err _ => None end) "relay.example" ∅ None.
Definition obsWorld : ObsWorld Calm := mkObsWorld (quietWorld (mkCalm 0 emptyDb) (zeroRelayState false)) (mkHttpMetrics ∅ ∅).
Example panic_is_counted : map_to_list (httpRequests (ow_metrics (Instrument broken inboxPost obsWorld).1)) = [(("POST", "/inbox", "500"), 1)]
  ∧ (Instrument broken inboxPost obsWorld).2 = Panic "nil map".
Proof. vm_compute. done. Qed.
Lemma instrument_is_transparent_witness : Instrument teapot inboxPost obsWorld
  = (mkObsWorld (timeNow (timeNow (ow_world obsWorld)).1).1
       (countRequest ("POST", "/inbox", "418") (w_clock (ow_world obsWorld) 1 - w_clock (ow_world obsWorld) 0) (ow_metrics obsWorld)),
     Done (mkReply 418 (headerSet ∅ "X-Kind" "tea") "short")).
Proof.
  destruct (instrument_is_transparent teapot inboxPost (ow_world obsWorld) (timeNow (ow_world obsWorld)).1 (ow_metrics obsWorld)
    [HeaderSetCall "X-Kind" "tea"; WriteHeaderCall 418; WriteCall "short"] None) as (E & _).
  - reflexivity.
  - repeat constructor; discriminate.
  - exact E.
Defined.

Definition exactFloats : floats Z := mkFloats (parseInt 64) Z.add (λ z, z <? 0) id.
#[export] Instance exactFloats_laws : FloatLaws exactFloats.
Proof.
  split; cbn; [|intros z Hz; apply Z.ltb_ge; lia|done].
  intros z Hz. apply parseInt_itoa. unfold inWidth. apply andb_true_iff. lia.
Qed.
Definition demoLedger : list (string * Z) :=
  [("fanout_targets_total|queued", 3); ("fanout_targets_total|QUEUED", 4); ("nonsense", 7); ("delivery_attempts_total|success|none", 2)].
Lemma collected_counters_are_sums_witness :
  collectLedger exactFloats (asText (rev demoLedger)) = collectLedger exactFloats (asText demoLedger)
  ∧ mkConstMetric "activity_relay_fanout_targets_total" CounterValue 7 ["queued"] ∈ collectLedger exactFloats (asText demoLedger).
Proof.
  destruct (collected_counters_are_sums exactFloats demoLedger (rev demoLedger)) as (Hin & _ & Hperm).
  - split; [repeat constructor; discriminate|vm_compute; reflexivity].
  - apply Permutation_rev.
  - split; [exact Hperm|]. apply Hin. exists ("fanout_targets_total", ["queued"]).
    split; [apply (bool_decide_eq_true_1 _); vm_compute; reflexivity|]. split; [vm_compute; discriminate|vm_compute; reflexivity].
Defined.
