(* ===== verification/Control.v ===== *)
(** * The control command line (control/)

    The operator's commands over the relay state: listing and setting domains,
    unfollowing, answering follow requests, the two switches, export and import.  They
    run in the world of a command ([CmdWorld]): the process, the files, the lines
    printed.

    The process is notifiable: a mutator publishes [relay_refresh] and a goroutine
    reloads the state when the message arrives.  When that happens is the runtime's
    choice, [env]: whether a reload has run before the command reads its memory in the
    n-th round of its loop.  The names of the models and api packages that the control
    package declares again ([contains], [enqueueRegisterActivity]) are declared again
    here. *)

From S2P Require Import Prelude GoStrings GoUrl GoTime Json Redis World ActivityModel FileSystem.
From S2P Require Import RelayState Queue DirectoryClient DirectoryCommand RelayConfig.

Definition publicURL : string := "https://www.w3.org/ns/activitystreams#Public".

(** ** Utilities (control/utils.go) *)

(** The [interface{}] that [contains] takes. *)
Inductive entries :=
  | EString (s : string)
  | EStrings (l : list string)
  | ESubscribers (l : list Subscriber)
  | EFollowers (l : list Follower)
  | EOther.
Definition contains (es : entries) (key : string) : bool :=
  match es with
  | EString entry => entry =s key
  | EStrings entry => existsb (λ e, e =s key) entry
  | ESubscribers entry => existsb (λ e, subDomain e =s key) entry
  | EFollowers entry => existsb (λ e, folDomain e =s key) entry
  | EOther => false
  end.

(** ** The exported document *)

Definition omitTrue (name : string) (b : bool) : list (string * json) := if b then [(name, JBool true)] else [].
Definition omitInt (name : string) (z : Z) : list (string * json) := if z =? 0 then [] else [(name, JNumber (itoa z))].
Definition omitList {A} (name : string) (f : A → json) (l : list A) : list (string * json) :=
  match l with [] => [] | _ => [(name, JArray (map f l))] end.
Definition subscriberJson (s : Subscriber) : json :=
  JObject (omitString "domain" (subDomain s) ++ omitString "inbox_url" (subInboxURL s)
    ++ omitString "activity_id" (subActivityID s) ++ omitString "actor_id" (subActorID s)).
Definition followerJson (f : Follower) : json :=
  JObject (omitString "domain" (folDomain f) ++ omitString "inbox_url" (folInboxURL f)
    ++ omitString "activity_id" (folActivityID f) ++ omitString "actor_id" (folActorID f)
    ++ omitTrue "mutually_follow" (folMutuallyFollow f)).
Definition publisherJson (p : Publisher) : json :=
  JObject (omitString "domain" (pubDomain p) ++ omitString "actor_id" (pubActorID p)
    ++ omitString "inbox_url" (pubInboxURL p) ++ omitString "first_seen" (pubFirstSeen p)
    ++ omitString "last_seen" (pubLastSeen p) ++ omitString "last_activity_id" (pubLastActivityID p)
    ++ omitString "last_activity_type" (pubLastActivityType p) ++ omitInt "activity_count" (pubActivityCount p)).
(** [json.Marshal] of a [RelayState]: its exported fields; a struct is never omitted. *)
Definition relayStateJson (st : RelayState) : json :=
  JObject ([("relayConfig", JObject (omitTrue "blockService" (cfgPersonOnly (World.RelayConfig st))
                                     ++ omitTrue "manuallyAccept" (cfgManuallyAccept (World.RelayConfig st))))]
    ++ omitStrings "limitedDomains" (LimitedDomains st) ++ omitStrings "blockedDomains" (BlockedDomains st)
    ++ omitList "subscriptions" subscriberJson (Subscribers st) ++ omitList "followers" followerJson (Followers st)
    ++ omitList "publishers" publisherJson (Publishers st)).

(** What [json.Unmarshal] into a [RelayState] sets. *)
Record stateData := mkStateData {
  sdConfig : relayConfig; sdLimited : list string; sdBlocked : list string;
  sdSubscribers : list Subscriber; sdFollowers : list Follower; sdPublishers : list Publisher }.
Definition zeroStateData : stateData := mkStateData (World.mkRelayConfig false false) [] [] [] [] [].

Definition configField (k : string) (v : json) (c : relayConfig) : result relayConfig :=
  if EqualFold k "blockService" then b ← decodeBool (cfgPersonOnly c) v; Ok (World.mkRelayConfig b (cfgManuallyAccept c))
  else if EqualFold k "manuallyAccept" then
    b ← decodeBool (cfgManuallyAccept c) v; Ok (World.mkRelayConfig (cfgPersonOnly c) b)
  else Ok c.
Definition subscriberField (k : string) (v : json) (s : Subscriber) : result Subscriber :=
  let '(mkSubscriber domain inbox activity actor) := s in
  if EqualFold k "domain" then x ← decodeString domain v; Ok (mkSubscriber x inbox activity actor)
  else if EqualFold k "inbox_url" then x ← decodeString inbox v; Ok (mkSubscriber domain x activity actor)
  else if EqualFold k "activity_id" then x ← decodeString activity v; Ok (mkSubscriber domain inbox x actor)
  else if EqualFold k "actor_id" then x ← decodeString actor v; Ok (mkSubscriber domain inbox activity x)
  else Ok s.
Definition followerField (k : string) (v : json) (f : Follower) : result Follower :=
  let '(mkFollower domain inbox activity actor mutual) := f in
  if EqualFold k "domain" then x ← decodeString domain v; Ok (mkFollower x inbox activity actor mutual)
  else if EqualFold k "inbox_url" then x ← decodeString inbox v; Ok (mkFollower domain x activity actor mutual)
  else if EqualFold k "activity_id" then x ← decodeString activity v; Ok (mkFollower domain inbox x actor mutual)
  else if EqualFold k "actor_id" then x ← decodeString actor v; Ok (mkFollower domain inbox activity x mutual)
  else if EqualFold k "mutually_follow" then b ← decodeBool mutual v; Ok (mkFollower domain inbox activity actor b)
  else Ok f.
Definition publisherField (k : string) (v : json) (p : Publisher) : result Publisher :=
  let '(mkPublisher domain actor inbox first last id ty count) := p in
  if EqualFold k "domain" then x ← decodeString domain v; Ok (mkPublisher x actor inbox first last id ty count)
  else if EqualFold k "actor_id" then x ← decodeString actor v; Ok (mkPublisher domain x inbox first last id ty count)
  else if EqualFold k "inbox_url" then x ← decodeString inbox v; Ok (mkPublisher domain actor x first last id ty count)
  else if EqualFold k "first_seen" then x ← decodeString first v; Ok (mkPublisher domain actor inbox x last id ty count)
  else if EqualFold k "last_seen" then x ← decodeString last v; Ok (mkPublisher domain actor inbox first x id ty count)
  else if EqualFold k "last_activity_id" then
    x ← decodeString id v; Ok (mkPublisher domain actor inbox first last x ty count)
  else if EqualFold k "last_activity_type" then
    x ← decodeString ty v; Ok (mkPublisher domain actor inbox first last id x count)
  else if EqualFold k "activity_count" then z ← decodeInt count v; Ok (mkPublisher domain actor inbox first last id ty z)
  else Ok p.
(** A slice of structs that holds [old]. *)
Fixpoint decodeStructs {A} (field : string → json → A → result A) (zero : A) (old : list A) (l : list json)
    : result (list A) :=
  match l with
  | [] => Ok []
  | v :: l =>
      a ← decodeStruct field (default zero (head old)) v;
      rest ← decodeStructs field zero (tail old) l;
      Ok (a :: rest)
  end.
Definition decodeSlice {A} (field : string → json → A → result A) (zero : A) (old : list A) (v : json) : result (list A) :=
  match v with JNull => Ok [] | JArray l => decodeStructs field zero old l | _ => Err errJsonType end.
Definition zeroSubscriber : Subscriber := mkSubscriber "" "" "" "".
Definition zeroFollower : Follower := mkFollower "" "" "" "" false.
Definition zeroPublisher : Publisher := mkPublisher "" "" "" "" "" "" "" 0.
Definition stateField (k : string) (v : json) (d : stateData) : result stateData :=
  let '(mkStateData config limited blocked subs fols pubs) := d in
  if EqualFold k "relayConfig" then x ← decodeStruct configField config v; Ok (mkStateData x limited blocked subs fols pubs)
  else if EqualFold k "limitedDomains" then
    x ← decodeStrings limited v; Ok (mkStateData config x blocked subs fols pubs)
  else if EqualFold k "blockedDomains" then
    x ← decodeStrings blocked v; Ok (mkStateData config limited x subs fols pubs)
  else if EqualFold k "subscriptions" then
    x ← decodeSlice subscriberField zeroSubscriber subs v; Ok (mkStateData config limited blocked x fols pubs)
  else if EqualFold k "followers" then
    x ← decodeSlice followerField zeroFollower fols v; Ok (mkStateData config limited blocked subs x pubs)
  else if EqualFold k "publishers" then
    x ← decodeSlice publisherField zeroPublisher pubs v; Ok (mkStateData config limited blocked subs fols x)
  else Ok d.
Definition unmarshalRelayState (data : string) : result stateData :=
  v ← jsonParse data; decodeStruct stateField zeroStateData v.

Section control.
Context {S : Type} `{Redis S} {PrivateKey : Type}.
Abbreviation Mc := (M (CmdWorld S)).

(** The package's variables. *)
Record Control := mkControl { GlobalConfig : RelayConfig S PrivateKey; RelayActor : Actor }.
Variable ctl : Control.
Definition ServerHostname : string := URL_String (rcDomain (GlobalConfig ctl)).

(** The goroutine of [ListenNotify], at the n-th read of the memory. *)
Definition mayReload (now : bool) : Mc unit :=
  if now then (_ ← inWorld (onRefreshMessage false); mret tt) else mret tt.
Definition Println (line : string) : Mc unit := printf line.
Fixpoint forEach {A} (f : nat → A → Mc unit) (i : nat) (l : list A) : Mc unit :=
  match l with [] => mret tt | a :: l => _ ← f i a; forEach f (Datatypes.S i) l end.
(** The same, stopped by an error. *)
Fixpoint forEachErr {A} (f : nat → A → Mc (result unit)) (i : nat) (l : list A) : Mc (result unit) :=
  match l with [] => mret (Ok tt) | a :: l => _ ←! f i a; forEachErr f (Datatypes.S i) l end.

(** ** Follow requests (control/follow.go) *)

Definition controlRegisterTask (inboxURL body : string) : taskSignature :=
  mkTask "register" 25 0 [("inboxURL", inboxURL); ("body", body)].
Definition enqueueRegisterActivity (inboxURL body : string) : M (World S) unit :=
  queued ← redis (LLEN queueKey);
  match queued with
  | Err _ => mret tt
  | Ok n => if rcMaxQueueJobs (GlobalConfig ctl) <=? n then mret tt
            else (_ ← brokerSend [controlRegisterTask inboxURL body]; mret tt)
  end.

Definition securityContext : option json :=
  Some (JArray [JString "https://www.w3.org/ns/activitystreams"; JString "https://w3id.org/security/v1"]).
Definition field (data : gmap string string) (name : string) : string := default "" (data !! name).

Definition createFollowRequestResponse (reload : bool) (domain response : string) : Mc (result unit) :=
  data ←! inWorld (redis (HGETALL (pendingPrefix +:+ domain)));
  let object := field data "object" in
  let activity := mkActivity securityContext (field data "activity_id") (field data "actor") (field data "type")
                    (Some (JString object)) [] [] in
  let toRelay := contains (EString object) (acID (RelayActor ctl)) in
  let follower := mkFollower domain (field data "inbox_url") (field data "activity_id") (field data "actor") false in
  let accepted := (response =s "Accept") && toRelay in
  stored ← (if accepted then inWorld (AddFollowerChecked follower) else mret (Ok tt));
  match stored with
  | Err e => mret (Err (errorWrap ("store follower " +:+ domain +:+ ": ") e))
  | Ok _ =>
      resp ← inWorld (GenerateReply activity (RelayActor ctl) (activityJson activity) response);
      _ ← inWorld (enqueueRegisterActivity (field data "inbox_url") (marshalActivity resp));
      _ ← inWorld (redis (DEL (pendingPrefix +:+ domain)));
      if contains (EString object) publicURL then
        if response =s "Accept" then
          _ ← inWorld (AddSubscriber (mkSubscriber domain (field data "inbox_url") (field data "activity_id")
                                        (field data "actor")));
          mret (Ok tt)
        else mret (Ok tt)
      else if toRelay then
        if accepted then
          _ ← mayReload reload;
          match url_Parse (folActorID follower) with
          | Err _ => panic "invalid memory address or nil pointer dereference"
          | Ok actorID =>
              limited ← inWorld (IsLimited (Host actorID));
              if (limited : bool) then mret (Ok tt)
              else
                followRequest ← inWorld (NewActivityPubActivity (RelayActor ctl) [folActorID follower]
                                           (JString (folActorID follower)) "Follow");
                _ ← inWorld (enqueueRegisterActivity (folInboxURL follower) (marshalActivity followRequest));
                mret (Ok tt)
          end
        else mret (Ok tt)
      else mret (Ok tt)
  end.

Definition createUpdateActorActivity (subscription : Subscriber) : M (World S) (result unit) :=
  id ← uuidNew;
  let activity := mkActivity activityStreamsContext (ServerHostname +:+ "/activities/" +:+ id)
                    (ServerHostname +:+ "/actor") "Update" (Some (actorJson (RelayActor ctl))) [publicURL] [] in
  _ ← enqueueRegisterActivity (subInboxURL subscription) (marshalActivity activity);
  mret (Ok tt).

Definition pendingFollowDomains : M (World S) (result (list string)) :=
  follows ←! ScanKeys pendingPrefix;
  mret (Ok (map (λ follow, TrimPrefix follow pendingPrefix) follows)).

Definition listFollows : Mc (result unit) :=
  _ ← Println " - Follow requests:";
  domains ←! inWorld pendingFollowDomains;
  _ ← forEach (λ _ domain, Println domain) 0 domains;
  _ ← Println ("Total: " +:+ itoa (Z.of_nat (length domains)));
  mret (Ok tt).

(** [acceptFollow] and [rejectFollow]. *)
Definition answerFollow (env : nat → bool) (response : string) (args : list string) : Mc (result unit) :=
  domains ←! inWorld pendingFollowDomains;
  forEachErr (λ i domain,
    if contains (EStrings domains) domain then
      _ ← Println (response +:+ " [" +:+ domain +:+ "] follow request");
      createFollowRequestResponse (env i) domain response
    else (_ ← Println ("Invalid domain provided: " +:+ domain); mret (Ok tt))) 0 args.
Definition acceptFollow (env : nat → bool) (args : list string) : Mc (result unit) := answerFollow env "Accept" args.
Definition rejectFollow (env : nat → bool) (args : list string) : Mc (result unit) := answerFollow env "Reject" args.

Definition updateActor : Mc (result unit) :=
  snapshot ← inWorld getRelay;
  _ ← forEach (λ _ subscription,
    r ← inWorld (createUpdateActorActivity subscription);
    match r with
    | Err _ => Println ("Failed to update RelayActor for [" +:+ subDomain subscription +:+ "]")
    | Ok _ => mret tt
    end) 0 (SubscribersAndFollowers snapshot);
  mret (Ok tt).

(** ** Domains (control/domain.go) *)

Definition unfollowRequest (id actor object inboxURL : string) : M (World S) unit :=
  let activity := mkActivity securityContext id actor "Follow" (Some (JString object)) [] [] in
  resp ← GenerateReply activity (RelayActor ctl) (activityJson activity) "Reject";
  enqueueRegisterActivity inboxURL (marshalActivity resp).
Definition createUnfollowToSubscriberRequest (subscriber : Subscriber) : M (World S) unit :=
  unfollowRequest (subActivityID subscriber) (subActorID subscriber) publicURL (subInboxURL subscriber).
Definition createUnfollowToFollowerRequest (follower : Follower) : M (World S) unit :=
  unfollowRequest (folActivityID follower) (folActorID follower) (acID (RelayActor ctl)) (folInboxURL follower).

Definition printAll (title : string) (lines : list string) : Mc unit :=
  _ ← Println title; forEach (λ _ line, Println line) 0 lines.
Definition listDomains (reload : bool) (type : string) : Mc (result unit) :=
  snapshot ← inWorld getRelay;
  count ← (if type =s "limited" then
             _ ← printAll " - Limited domains:" (LimitedDomains snapshot);
             mret (length (LimitedDomains snapshot))
           else if type =s "blocked" then
             _ ← printAll " - Blocked domains:" (BlockedDomains snapshot);
             mret (length (BlockedDomains snapshot))
           else
             _ ← printAll " - Subscriber list:" (map (λ s, "[*] " +:+ subDomain s) (Subscribers snapshot));
             _ ← mayReload reload;
             later ← inWorld getRelay;
             _ ← printAll " - Follower list:"
                   (map (λ f, (if folMutuallyFollow f then "[*] " else "[-] ") +:+ folDomain f) (Followers later));
             mret (length (Subscribers snapshot) + length (Followers later))%nat);
  _ ← Println ("Total: " +:+ itoa (Z.of_nat count));
  mret (Ok tt).

(** [setDomainType] and [unsetDomainType]. *)
Definition changeDomainType (value : bool) (type : string) (args : list string) : Mc (result unit) :=
  let word := if value then "Set [" else "Unset [" in
  _ ← (if type =s "limited" then
         forEach (λ _ domain, _ ← inWorld (SetLimitedDomain domain value);
                              Println (word +:+ domain +:+ "] as limited domain")) 0 args
       else if type =s "blocked" then
         forEach (λ _ domain, _ ← inWorld (SetBlockedDomain domain value);
                              Println (word +:+ domain +:+ "] as blocked domain")) 0 args
       else Println ("Invalid type provided: " +:+ type));
  mret (Ok tt).
Definition setDomainType (type : string) (args : list string) : Mc (result unit) := changeDomainType true type args.
Definition unsetDomainType (type : string) (args : list string) : Mc (result unit) := changeDomainType false type args.

(** One domain of [unfollowDomains], against the snapshot taken first. *)
Definition unfollowOne (reload : bool) (subscriptions : list Subscriber) (followers : list Follower) (domain : string)
    : Mc unit :=
  if contains (ESubscribers subscriptions) domain then
    _ ← mayReload reload;
    selected ← inWorld (SelectSubscriber domain);
    match selected with
    | None => panic "invalid memory address or nil pointer dereference"
    | Some subscription =>
        _ ← inWorld (createUnfollowToSubscriberRequest subscription);
        _ ← inWorld (DelSubscriber (subDomain subscription));
        Println ("Unfollow [" +:+ subDomain subscription +:+ "]")
    end
  else if contains (EFollowers followers) domain then
    _ ← mayReload reload;
    selected ← inWorld (SelectFollower domain);
    match selected with
    | None => panic "invalid memory address or nil pointer dereference"
    | Some follower =>
        _ ← inWorld (createUnfollowToFollowerRequest follower);
        _ ← inWorld (DelFollower (folDomain follower));
        Println ("Unfollow [" +:+ folDomain follower +:+ "]")
    end
  else Println ("Invalid domain provided: " +:+ domain).
Definition unfollowDomains (env : nat → bool) (args : list string) : Mc (result unit) :=
  snapshot ← inWorld getRelay;
  _ ← forEach (λ i, unfollowOne (env i) (Subscribers snapshot) (Followers snapshot)) 0 args;
  mret (Ok tt).

(** ** Configuration (control/config.go) *)

Definition editConfig (key : string) (value : bool) : M (World S) string :=
  let statement := if value then "enabled" else "disabled" in
  if key =s "person-only" then
    _ ← SetConfig PersonOnly value; mret ("Person-Type Actor limitation is " +:+ statement +:+ ".")
  else if key =s "manually-accept" then
    _ ← SetConfig ManuallyAccept value; mret ("Manual follow request acceptance is " +:+ statement +:+ ".")
  else mret ("Invalid configuration provided: " +:+ key).
Definition editConfigs (value : bool) (args : list string) : Mc (result unit) :=
  _ ← forEach (λ _ config, message ← inWorld (editConfig config value); Println message) 0 args; mret (Ok tt).
Definition configEnable (args : list string) : Mc (result unit) := editConfigs true args.
Definition configDisable (args : list string) : Mc (result unit) := editConfigs false args.

Definition boolText (b : bool) : string := if b then "true" else "false".
Definition listConfig : Mc unit :=
  snapshot ← inWorld getRelay;
  _ ← Println ("Person-Type Actor limitation: " +:+ boolText (cfgPersonOnly (World.RelayConfig snapshot)));
  Println ("Manual follow request acceptance: " +:+ boolText (cfgManuallyAccept (World.RelayConfig snapshot))).

Definition exportConfig : Mc unit :=
  st ← inWorld getRelay; Println (jsonMarshal (relayStateJson st)).

Definition importConfig (jsonData : string) : Mc unit :=
  match unmarshalRelayState jsonData with
  | Err _ => mret tt
  | Ok data =>
      _ ← (if cfgPersonOnly (sdConfig data) then
             _ ← inWorld (SetConfig PersonOnly true); Println "Person-Type Actor limitation is enabled."
           else mret tt);
      _ ← (if cfgManuallyAccept (sdConfig data) then
             _ ← inWorld (SetConfig ManuallyAccept true); Println "Manual follow request acceptance is enabled."
           else mret tt);
      _ ← forEach (λ _ d, _ ← inWorld (SetLimitedDomain d true); Println ("Set [" +:+ d +:+ "] as limited domain"))
            0 (sdLimited data);
      _ ← forEach (λ _ d, _ ← inWorld (SetBlockedDomain d true); Println ("Set [" +:+ d +:+ "] as blocked domain"))
            0 (sdBlocked data);
      forEach (λ _ s,
        _ ← inWorld (AddSubscriber (mkSubscriber (subDomain s) (subInboxURL s) (subActivityID s) (subActorID s)));
        Println ("Register [" +:+ subDomain s +:+ "] as subscriber")) 0 (sdSubscribers data)
  end.
End control.
Arguments Control S PrivateKey : clear implicits.
