(* ===== verification/ControlSpec.v ===== *)
(** * The control commands: what they store, send and refuse

    - an exported state, imported into another relay, brings over the switches, the
      limited and blocked domains and the subscribers, and touches nothing else (the
      followers and publishers of the document are not imported);
    - an accepted follow request is stored before it is answered, a refused one changes
      nothing;
    - unfollowing distinct domains removes them all, whenever the state is reloaded. *)

From S2P Require Import Prelude GoStrings GoUrl GoTime Json JsonSpec JsonRoundTrip Redis World Frame ActivityModel.
From S2P Require Import FileSystem RelayState RelayStateSpec Queue Relay DirectoryClient DirectoryCommand.
From S2P Require Import DirectoryCommandSpec RelayConfig Control.

(** ** The exported document reads back *)

Section decoding.
Context {A : Type} (field : string → json → A → result A).
Definition decodeMembers (r : result A) (ms : list (string * json)) : result A :=
  foldl (λ r m, a ← r; field m.1 m.2 a) r ms.

(** A member that is left out when it is zero: [a'] is [a] with that field set. *)
Lemma decode_omitString name s a a' rest :
  field name (JString s) a = Ok a' → (s = "" → a' = a) →
  decodeMembers (Ok a) (omitString name s ++ rest) = decodeMembers (Ok a') rest.
Proof.
  intros Hf Hz. unfold omitString, decodeMembers. destruct (s =s "") eqn:E.
  - apply eqs_true in E. by rewrite (Hz E).
  - cbn. by rewrite Hf.
Qed.
Lemma decode_omitTrue name (b : bool) a a' rest :
  field name (JBool true) a = Ok (if b then a' else a) ∨ b = false → (b = false → a' = a) →
  decodeMembers (Ok a) (omitTrue name b ++ rest) = decodeMembers (Ok a') rest.
Proof.
  intros Hf Hz. unfold omitTrue, decodeMembers. destruct b; [|by rewrite (Hz eq_refl)].
  destruct Hf as [Hf|Hf]; [|done]. cbn. by rewrite Hf.
Qed.
Lemma decode_omitInt name z a a' rest :
  field name (JNumber (itoa z)) a = Ok a' → (z = 0 → a' = a) →
  decodeMembers (Ok a) (omitInt name z ++ rest) = decodeMembers (Ok a') rest.
Proof.
  intros Hf Hz. unfold omitInt, decodeMembers. destruct (Z.eqb_spec z 0) as [E|E].
  - by rewrite (Hz E).
  - cbn. by rewrite Hf.
Qed.
Lemma decode_omitList {B} name (f : B → json) l a a' rest :
  field name (JArray (map f l)) a = Ok a' → (l = [] → a' = a) →
  decodeMembers (Ok a) (omitList name f l ++ rest) = decodeMembers (Ok a') rest.
Proof.
  intros Hf Hz. unfold omitList, decodeMembers. destruct l as [|b l]; [by rewrite (Hz eq_refl)|].
  cbn [app foldl]. cbn [fst snd mbind result_bind]. by rewrite Hf.
Qed.
Lemma decode_end a : decodeMembers (Ok a) [] = Ok a.
Proof. done. Qed.
End decoding.

(** Decide which field a literal name stands for. *)
Ltac name_field :=
  cbv beta iota zeta delta [stateField publisherField];
  repeat (match goal with |- context [EqualFold ?a ?b] =>
    let r := eval vm_compute in (EqualFold a b) in change (EqualFold a b) with r end; cbv beta iota).

(** Each string member in turn: its field is set, or it was empty. *)
Ltac decode_strings :=
  repeat (erewrite decode_omitString; [|reflexivity|by intros ->]).

Lemma decode_subscriber s : decodeStruct subscriberField zeroSubscriber (subscriberJson s) = Ok s.
Proof.
  destruct s as [a b c d]. change (decodeMembers subscriberField (Ok zeroSubscriber)
    (omitString "domain" a ++ omitString "inbox_url" b ++ omitString "activity_id" c ++ omitString "actor_id" d)
    = Ok (mkSubscriber a b c d)).
  rewrite <- (app_nil_r (omitString "actor_id" d)). decode_strings. done.
Qed.
Lemma decode_follower f : decodeStruct followerField zeroFollower (followerJson f) = Ok f.
Proof.
  destruct f as [a b c d m]. change (decodeMembers followerField (Ok zeroFollower)
    (omitString "domain" a ++ omitString "inbox_url" b ++ omitString "activity_id" c ++ omitString "actor_id" d
     ++ omitTrue "mutually_follow" m) = Ok (mkFollower a b c d m)).
  rewrite <- (app_nil_r (omitTrue _ _)). decode_strings.
  rewrite (decode_omitTrue _ _ _ _ (mkFollower a b c d m)); [done| |by intros ->]. destruct m; [by left|by right].
Qed.
Lemma decode_publisher p : inWidth 64 (pubActivityCount p) = true →
  decodeStruct publisherField zeroPublisher (publisherJson p) = Ok p.
Proof.
  destruct p as [a b c d e f g z]. cbn [pubActivityCount]. intros Hz. change (decodeMembers publisherField (Ok zeroPublisher)
    (omitString "domain" a ++ omitString "actor_id" b ++ omitString "inbox_url" c ++ omitString "first_seen" d
     ++ omitString "last_seen" e ++ omitString "last_activity_id" f ++ omitString "last_activity_type" g
     ++ omitInt "activity_count" z) = Ok (mkPublisher a b c d e f g z)).
  rewrite <- (app_nil_r (omitInt _ _)). decode_strings.
  rewrite (decode_omitInt _ _ _ _ (mkPublisher a b c d e f g z)); [done| |by intros ->].
  name_field. cbn [decodeInt]. by rewrite parseInt_itoa.
Qed.
Lemma decode_structs {A} field (zero : A) (f : A → json) l :
  Forall (λ a, decodeStruct field zero (f a) = Ok a) l → decodeStructs field zero [] (map f l) = Ok l.
Proof. induction 1 as [|a l Ha _ IH]; [done|]. cbn. rewrite Ha. cbn. by rewrite IH. Qed.
Lemma decode_elements l : decodeElements [] (map JString l) = Ok l.
Proof. induction l as [|s l IH]; [done|]. cbn. by rewrite IH. Qed.

Definition dataOf (st : RelayState) : stateData :=
  mkStateData (World.RelayConfig st) (LimitedDomains st) (BlockedDomains st) (Subscribers st) (Followers st) (Publishers st).
Lemma omitStrings_list name l : omitStrings name l = omitList name JString l.
Proof. done. Qed.
Lemma decode_state st : Forall (λ p, inWidth 64 (pubActivityCount p) = true) (Publishers st) →
  decodeStruct stateField zeroStateData (relayStateJson st) = Ok (dataOf st).
Proof.
  intros Hp. destruct st as [n [po ma] lim bl subs fols pubs both s1 s2 m1 m2 m3]. cbn [Publishers] in Hp.
  unfold relayStateJson, dataOf. cbn [World.RelayConfig LimitedDomains BlockedDomains Subscribers Followers Publishers].
  rewrite !omitStrings_list. rewrite <- (app_nil_r (omitList "publishers" _ _)).
  change (decodeMembers stateField (stateField "relayConfig" (JObject (omitTrue "blockService" po ++ omitTrue "manuallyAccept" ma)) zeroStateData)
    (omitList "limitedDomains" JString lim ++ omitList "blockedDomains" JString bl
     ++ omitList "subscriptions" subscriberJson subs ++ omitList "followers" followerJson fols
     ++ omitList "publishers" publisherJson pubs ++ []) = Ok (mkStateData (World.mkRelayConfig po ma) lim bl subs fols pubs)).
  assert (stateField "relayConfig" (JObject (omitTrue "blockService" po ++ omitTrue "manuallyAccept" ma)) zeroStateData
    = Ok (mkStateData (World.mkRelayConfig po ma) [] [] [] [] [])) as -> by (by destruct po, ma).
  set (cfg := World.mkRelayConfig po ma).
  rewrite (decode_omitList _ _ _ _ _ (mkStateData cfg lim [] [] [] []));
    [|name_field; cbn [decodeStrings]; by rewrite decode_elements|by intros ->].
  rewrite (decode_omitList _ _ _ _ _ (mkStateData cfg lim bl [] [] []));
    [|name_field; cbn [decodeStrings]; by rewrite decode_elements|by intros ->].
  rewrite (decode_omitList _ _ _ _ _ (mkStateData cfg lim bl subs [] []));
    [|name_field; cbn [decodeSlice]; by rewrite decode_structs by (apply Forall_true, decode_subscriber)|by intros ->].
  rewrite (decode_omitList _ _ _ _ _ (mkStateData cfg lim bl subs fols []));
    [|name_field; cbn [decodeSlice]; by rewrite decode_structs by (apply Forall_true, decode_follower)|by intros ->].
  rewrite (decode_omitList _ _ _ _ _ (mkStateData cfg lim bl subs fols pubs)); [done| |by intros ->].
  name_field. cbn [decodeSlice]. rewrite decode_structs; [done|].
  eapply Forall_impl; [exact Hp|]. intros p. apply decode_publisher.
Qed.

(** *** The document is a JSON the parser takes *)

(** A member the writer and the parser agree on, up to a nesting. *)
Definition memberOk (depth : Z) (m : string * json) : Prop :=
  numbersOk m.2 ∧ (validUTF8 m.1 = true ∧ stringsValid m.2) ∧ jsonDepth m.2 ≤ depth.
Definition jsonOk (depth : Z) (v : json) : Prop := numbersOk v ∧ stringsValid v ∧ jsonDepth v ≤ depth.
Lemma object_ok depth ms : 0 ≤ depth → Forall (memberOk depth) ms → jsonOk (depth + 1) (JObject ms).
Proof.
  intros H0 Hm. split_and!; cbn.
  - apply foldr_and. eapply Forall_impl; [exact Hm|]. by intros m (? & _).
  - apply (foldr_and (λ m, validUTF8 m.1 = true ∧ stringsValid m.2)). eapply Forall_impl; [exact Hm|]. by intros m (_ & ? & _).
  - induction Hm as [|m ms (_ & _ & Hd) _ IH]; cbn; lia.
Qed.
Lemma array_ok {A} depth (f : A → json) l : 0 ≤ depth → Forall (λ a, jsonOk depth (f a)) l →
  jsonOk (depth + 1) (JArray (map f l)).
Proof.
  intros H0 Hm. split_and!; cbn.
  - apply foldr_and, Forall_fmap. eapply Forall_impl; [exact Hm|]. by intros m (? & _).
  - apply foldr_and, Forall_fmap. eapply Forall_impl; [exact Hm|]. by intros m (_ & ? & _).
  - induction Hm as [|m ms (_ & _ & Hd) _ IH]; cbn; lia.
Qed.
Lemma omitString_ok depth name s : 0 ≤ depth → validUTF8 name = true → validUTF8 s = true →
  Forall (memberOk depth) (omitString name s).
Proof. intros H0 Hn Hs. unfold omitString. case_match; repeat constructor; cbn; done. Qed.
Lemma omitTrue_ok depth name b : 0 ≤ depth → validUTF8 name = true → Forall (memberOk depth) (omitTrue name b).
Proof. intros H0 Hn. unfold omitTrue. case_match; repeat constructor; cbn; done. Qed.
Lemma omitInt_ok depth name z : 0 ≤ depth → validUTF8 name = true → Forall (memberOk depth) (omitInt name z).
Proof. intros H0 Hn. unfold omitInt. case_match; repeat constructor; cbn; try done. apply itoa_literal. Qed.
Lemma omitList_ok {A} depth name (f : A → json) l : 0 ≤ depth → validUTF8 name = true →
  Forall (λ a, jsonOk depth (f a)) l → Forall (memberOk (depth + 1)) (omitList name f l).
Proof.
  intros H0 Hn Hl. destruct (array_ok depth f l H0 Hl) as (? & ? & ?). unfold omitList. destruct l; constructor; [|done].
  by split.
Qed.
Lemma jsonOk_weaken d d' v : d ≤ d' → jsonOk d v → jsonOk d' v.
Proof. intros Hd (? & ? & ?). split_and!; [done|done|lia]. Qed.

Definition subscriberValid (s : Subscriber) : Prop :=
  validUTF8 (subDomain s) = true ∧ validUTF8 (subInboxURL s) = true ∧ validUTF8 (subActivityID s) = true
  ∧ validUTF8 (subActorID s) = true.
Definition followerValid (f : Follower) : Prop := subscriberValid (followerAsSubscriber f).
Definition publisherValid (p : Publisher) : Prop :=
  validUTF8 (pubDomain p) = true ∧ validUTF8 (pubActorID p) = true ∧ validUTF8 (pubInboxURL p) = true
  ∧ validUTF8 (pubFirstSeen p) = true ∧ validUTF8 (pubLastSeen p) = true ∧ validUTF8 (pubLastActivityID p) = true
  ∧ validUTF8 (pubLastActivityType p) = true ∧ inWidth 64 (pubActivityCount p) = true.
(** The strings of the state are valid UTF-8, its counts are 64-bit integers. *)
Definition stateValid (st : RelayState) : Prop :=
  Forall (λ d, validUTF8 d = true) (LimitedDomains st) ∧ Forall (λ d, validUTF8 d = true) (BlockedDomains st)
  ∧ Forall subscriberValid (Subscribers st) ∧ Forall followerValid (Followers st)
  ∧ Forall publisherValid (Publishers st).

Ltac members_ok := rewrite ?Forall_app; split_and?; first [apply omitString_ok | apply omitTrue_ok | apply omitInt_ok]; done.
Lemma subscriberJson_ok s : subscriberValid s → jsonOk 1 (subscriberJson s).
Proof. intros (? & ? & ? & ?). apply (object_ok 0); [done|]. members_ok. Qed.
Lemma followerJson_ok f : followerValid f → jsonOk 1 (followerJson f).
Proof. intros (? & ? & ? & ?). apply (object_ok 0); [done|]. members_ok. Qed.
Lemma publisherJson_ok p : publisherValid p → jsonOk 1 (publisherJson p).
Proof. intros (? & ? & ? & ? & ? & ? & ? & ?). apply (object_ok 0); [done|]. members_ok. Qed.
Lemma strings_ok l : Forall (λ d, validUTF8 d = true) l → Forall (λ d, jsonOk 1 (JString d)) l.
Proof. intros Hl. eapply Forall_impl; [exact Hl|]. intros d Hd. by split_and!. Qed.
Lemma relayStateJson_ok st : stateValid st → jsonOk 3 (relayStateJson st).
Proof.
  intros (Hl & Hb & Hs & Hf & Hp). apply (object_ok 2); [done|]. rewrite !omitStrings_list, ?Forall_app.
  assert (Hcfg : jsonOk 1 (JObject (omitTrue "blockService" (cfgPersonOnly (World.RelayConfig st))
    ++ omitTrue "manuallyAccept" (cfgManuallyAccept (World.RelayConfig st))))).
  { apply (object_ok 0); [done|]. members_ok. }
  split_and!.
  - constructor; [|done]. destruct Hcfg as (? & ? & ?). split_and!; cbn [fst snd] in *; [done|done|done|lia].
  - by apply (omitList_ok 1), strings_ok.
  - by apply (omitList_ok 1), strings_ok.
  - apply (omitList_ok 1); [done|done|]. eapply Forall_impl; [exact Hs|]. apply subscriberJson_ok.
  - apply (omitList_ok 1); [done|done|]. eapply Forall_impl; [exact Hf|]. apply followerJson_ok.
  - apply (omitList_ok 1); [done|done|]. eapply Forall_impl; [exact Hp|]. apply publisherJson_ok.
Qed.

(** [json.Unmarshal] of the exported document. *)
Lemma unmarshal_exported st : stateValid st → unmarshalRelayState (jsonMarshal (relayStateJson st)) = Ok (dataOf st).
Proof.
  intros Hv. destruct (relayStateJson_ok st Hv) as (Hn & Hs & Hd). unfold unmarshalRelayState.
  rewrite marshal_parse_valid; [|done|done|unfold maxNestingDepth; lia]. cbn [mbind result_bind].
  apply decode_state. destruct Hv as (_ & _ & _ & _ & Hp). eapply Forall_impl; [exact Hp|]. by intros p (_ & _ & _ & _ & _ & _ & _ & ?).
Qed.

(** ** Commands as writes to Redis *)

Definition write : Type := string * list (string * string).
Definition applyWrite (d : db) (wr : write) : db :=
  put wr.1 (RHash (foldl (λ h '(f, v), <[f := v]> h) (hashAt d wr.1) wr.2)) None d.
Definition applyWrites (d : db) (ws : list write) : db := foldl applyWrite d ws.

Lemma applyWrites_ok d ws : stateKeysOk d → stateKeysOk (applyWrites d ws).
Proof. revert d. induction ws as [|wr ws IH]; intros d Hd; [done|]. apply IH. unfold applyWrite. auto with relay. Qed.
Lemma applyWrites_other d ws k : (∀ wr, wr ∈ ws → wr.1 ≠ k) → db_keys (applyWrites d ws) !! k = db_keys d !! k.
Proof.
  revert d. induction ws as [|wr ws IH]; intros d Hne; [done|]. cbn. rewrite IH by set_solver.
  unfold applyWrite, put, setKeys. cbn. rewrite lookup_insert_ne; [done|]. apply Hne. set_solver.
Qed.
Lemma hashAt_other d ws k : (∀ wr, wr ∈ ws → wr.1 ≠ k) → hashAt (applyWrites d ws) k = hashAt d k.
Proof. intros Hne. unfold hashAt. by rewrite applyWrites_other. Qed.
Lemma applyWrites_app d ws ws' : applyWrites d (ws ++ ws') = applyWrites (applyWrites d ws) ws'.
Proof. apply foldl_app. Qed.
Lemma applyWrite_hash d k fs : hashAt (applyWrite d (k, fs)) k = foldl (λ h '(f, v), <[f := v]> h) (hashAt d k) fs.
Proof. unfold applyWrite. apply hashAt_put_same. Qed.

Section storing.
Context {S : Type} `{RedisReliable S}.
Abbreviation CW := (CmdWorld S).
Abbreviation Mc := (M CW).
Definition cdb (w : CW) : db := rs_db (w_redis (cw_world w)).

(** From a notifiable process whose Redis holds the keys of [d], the command ends and the keys
    are those of [d] after the writes. *)
Definition stores {A} (m : Mc A) (ws : list write) : Prop := ∀ w d,
  notifiable (w_relay (cw_world w)) = true → db_keys (cdb w) = db_keys d → stateKeysOk d →
  ∃ w' a, m w = (w', Done a) ∧ db_keys (cdb w') = db_keys (applyWrites d ws) ∧ w_relay (cw_world w') = w_relay (cw_world w).

Lemma stores_ret {A} (a : A) : stores (mret a) [].
Proof. intros w d Hn Hk Hd. by exists w, a. Qed.
Lemma stores_bind {A B} (m : Mc A) (f : A → Mc B) ws ws' :
  stores m ws → (∀ a, stores (f a) ws') → stores (m ≫= f) (ws ++ ws').
Proof.
  intros Hm Hf w d Hn Hk Hd. destruct (Hm w d Hn Hk Hd) as (w1 & a & E1 & K1 & R1).
  destruct (Hf a w1 (applyWrites d ws)) as (w2 & b & E2 & K2 & R2); [by rewrite R1|done|by apply applyWrites_ok|].
  exists w2, b. rewrite (bind_Done _ _ _ _ _ E1), applyWrites_app. split; [done|]. split; [done|congruence].
Qed.
Lemma stores_Println l : stores (Println (S := S) l) [].
Proof. intros w d Hn Hk Hd. by eexists _, _. Qed.
Lemma hashAt_keys d d' k : db_keys d = db_keys d' → hashAt d k = hashAt d' k.
Proof. unfold hashAt. by intros ->. Qed.
Lemma stateKeysOk_keys d d' : db_keys d = db_keys d' → stateKeysOk d' → stateKeysOk d.
Proof. intros E Hd k e. rewrite E. apply Hd. Qed.

(** One hash written and the message published. *)
Lemma stores_write k fs : stateKey k →
  stores (inWorld (_ ← redis (HSET k fs); refresh)) [(k, fs)].
Proof.
  intros Hsk w d Hn Hk Hd. unfold cdb in *. set (w0 := cw_world w) in *.
  destruct (redis_reliable (HSET k fs) w0) as (w1 & now & E1 & D1 & R1 & _).
  assert (Hd0 : stateKeysOk (rs_db (w_redis w0))) by by apply (stateKeysOk_keys _ d).
  rewrite (HSET_state _ _ _ _ Hsk Hd0) in E1, D1. cbn [fst snd] in *.
  destruct (redis_reliable (PUBLISH "relay_refresh") w1) as (w2 & now2 & E2 & D2 & R2 & _).
  exists (mkCmdWorld w2 (cw_fs w) (cw_out w)), tt. cbn [cw_world].
  assert (E : (_ ← redis (HSET k fs); refresh) w0 = (w2, Done tt)).
  { rewrite (bind_Done _ _ _ _ _ E1). unfold refresh, mbind, M_bind, getRelay. by rewrite R1, Hn, E2. }
  unfold inWorld. fold w0. rewrite E. split; [done|]. split; [|congruence].
  rewrite D2. unfold PUBLISH. cbn [fst db_keys]. rewrite D1. unfold applyWrites, applyWrite, put, setKeys.
  cbn [foldl fst snd db_keys]. by rewrite Hk, (hashAt_keys _ d).
Qed.
Lemma stores_forEach {A} (f : A → Mc unit) (ws : A → list write) l i :
  (∀ a, stores (f a) (ws a)) → stores (forEach (λ _, f) i l) (concat (map ws l)).
Proof.
  intros Hf. revert i. induction l as [|a l IH]; intros i; [apply stores_ret|].
  cbn [forEach map concat]. apply stores_bind; auto.
Qed.
Lemma stores_SetConfig key value : stores (inWorld (SetConfig key value))
  [(configKey, [(match key with PersonOnly => "block_service" | ManuallyAccept => "manually_accept" end,
                 if value then "1" else "0")])].
Proof. unfold SetConfig. cbv zeta. by apply stores_write, stateKey_config. Qed.
Lemma stores_setDomain key x : stateKey key → stores (inWorld (RelayState.setDomain key x true)) [(key, [(x, "1")])].
Proof. intros Hk. unfold RelayState.setDomain. by apply stores_write. Qed.
Definition subscriberWrite (s : Subscriber) : write :=
  (subscriptionPrefix +:+ subDomain s,
   [("inbox_url", subInboxURL s); ("activity_id", subActivityID s); ("actor_id", subActorID s)]).
Lemma stores_AddSubscriber s : stores (inWorld (AddSubscriber s)) [subscriberWrite s].
Proof. unfold AddSubscriber. apply stores_write. auto with relay. Qed.
Lemma stores_if {A} (b : bool) (m1 m2 : Mc A) ws1 ws2 :
  stores m1 ws1 → stores m2 ws2 → stores (if b then m1 else m2) (if b then ws1 else ws2).
Proof. by destruct b. Qed.

(** What an import writes. *)
Definition importWrites (data : stateData) : list write :=
  (if cfgPersonOnly (sdConfig data) then [(configKey, [("block_service", "1")])] ++ [] else [])
  ++ (if cfgManuallyAccept (sdConfig data) then [(configKey, [("manually_accept", "1")])] ++ [] else [])
  ++ concat (map (λ d, [(limitedKey, [(d, "1")])] ++ []) (sdLimited data))
  ++ concat (map (λ d, [(blockedKey, [(d, "1")])] ++ []) (sdBlocked data))
  ++ concat (map (λ s, [subscriberWrite s] ++ []) (sdSubscribers data)).
Lemma importConfig_stores text data : unmarshalRelayState text = Ok data →
  stores (importConfig (S := S) text) (importWrites data).
Proof.
  intros E. unfold importConfig. rewrite E. unfold importWrites.
  apply stores_bind.
  { apply stores_if; [|apply stores_ret]. apply stores_bind; [apply (stores_SetConfig PersonOnly true)|intros; apply stores_Println]. }
  intros _. apply stores_bind.
  { apply stores_if; [|apply stores_ret]. apply stores_bind; [apply (stores_SetConfig ManuallyAccept true)|intros; apply stores_Println]. }
  intros _. apply stores_bind.
  { apply (stores_forEach _ (λ d, [(limitedKey, [(d, "1")])] ++ [])). intros d.
    apply stores_bind; [apply stores_setDomain; auto with relay|intros; apply stores_Println]. }
  intros _. apply stores_bind.
  { apply (stores_forEach _ (λ d, [(blockedKey, [(d, "1")])] ++ [])). intros d.
    apply stores_bind; [apply stores_setDomain; auto with relay|intros; apply stores_Println]. }
  intros _. apply (stores_forEach _ (λ s, [subscriberWrite s] ++ [])). intros [a b c d].
  apply stores_bind; [apply stores_AddSubscriber|intros; apply stores_Println].
Qed.
End storing.

(** ** What the written hashes hold *)

Lemma concat_singles {A B} (f : A → B) l : concat (map (λ a, [f a] ++ []) l) = map f l.
Proof. induction l as [|a l IH]; [done|]. cbn. by rewrite <- IH. Qed.
Lemma domains_written key l d x :
  is_Some (hashAt (applyWrites d (map (λ y, (key, [(y, "1")])) l)) key !! x) ↔ is_Some (hashAt d key !! x) ∨ x ∈ l.
Proof.
  revert d. induction l as [|y l IH]; intros d; [set_solver|]. cbn [map applyWrites foldl].
  fold (applyWrites (applyWrite d (key, [(y, "1")])) (map (λ y, (key, [(y, "1")])) l)).
  rewrite IH, applyWrite_hash. cbn [foldl]. rewrite lookup_insert_is_Some, elem_of_cons.
  destruct (decide (y = x)); naive_solver.
Qed.
Lemma subscriber_written l d s : s ∈ l → (∀ s1 s2, s1 ∈ l → s2 ∈ l → subDomain s1 = subDomain s2 → s1 = s2) →
  let d' := applyWrites d (map subscriberWrite l) in
  is_Some (db_keys d' !! (subscriptionPrefix +:+ subDomain s)) ∧ storedSubscriber d' (subDomain s) = s.
Proof.
  cbv zeta. revert d. induction l as [|s0 l IH]; intros d Hs Hagree; [set_solver|]. cbn [map applyWrites foldl].
  fold (applyWrites (applyWrite d (subscriberWrite s0)) (map subscriberWrite l)).
  destruct (decide (subDomain s ∈ subDomain <$> l)) as [(s' & Hd & Hs')%list_elem_of_fmap|Hno].
  - assert (s' = s) as -> by (apply Hagree; set_solver). apply IH; [done|]. intros ????. apply Hagree; set_solver.
  - assert (s = s0) as ->. { apply elem_of_cons in Hs as [->|Hs]; [done|]. exfalso. apply Hno. by apply list_elem_of_fmap_2. }
    set (k := subscriptionPrefix +:+ subDomain s0).
    assert (Hother : ∀ wr, wr ∈ map subscriberWrite l → wr.1 ≠ k).
    { intros wr Hwr Hk. apply list_elem_of_fmap in Hwr as (s1 & -> & Hs1). apply append_inj in Hk. apply Hno. rewrite <- Hk. by apply list_elem_of_fmap_2. }
    split.
    + rewrite applyWrites_other by done. unfold applyWrite, put, setKeys, subscriberWrite. cbn. rewrite lookup_insert_eq. eauto.
    + unfold storedSubscriber, fieldsOf, subscriberOf. fold k. rewrite (hashAt_other _ _ _ Hother).
      unfold subscriberWrite. fold k. rewrite applyWrite_hash. unfold loadFields. cbn [nth map foldl stringValue].
      unfold k at 1. rewrite TrimPrefix_app. destruct s0 as [a b c e]. cbn. map_look. done.
Qed.
Lemma subscriberOf_domain x vs : subDomain (subscriberOf (subscriptionPrefix +:+ x) vs) = x.
Proof. unfold subscriberOf. cbn [subDomain]. apply TrimPrefix_app. Qed.
(** The subscribers a load found, with their records. *)
Lemma loaded_subscribers d n st : loaded d n st → stateKeysOk d → ∀ s,
  s ∈ Subscribers st ↔ is_Some (db_keys d !! (subscriptionPrefix +:+ subDomain s)) ∧ s = storedSubscriber d (subDomain s).
Proof.
  intros [cfg lim bl subs fols pubs _ _ _ (_ & _ & Hsubs) _ _] Hd s. cbn [Subscribers assemble].
  specialize (Hsubs Hd stateKey_sub). rewrite list_elem_of_fmap. split.
  - intros ([k vs] & -> & Hin). apply Hsubs in Hin as (Hp & Hk & ->). apply HasPrefix_true in Hp as [r ->].
    cbn [uncurry]. rewrite subscriberOf_domain. done.
  - intros [Hk Hs]. eexists (_, _). split; [exact Hs|]. apply Hsubs. split; [apply HasPrefix_app|]. done.
Qed.
Lemma loaded_domains d n st : loaded d n st → stateKeysOk d → ∀ x,
  (x ∈ LimitedDomains st ↔ is_Some (hashAt d limitedKey !! x)) ∧ (x ∈ BlockedDomains st ↔ is_Some (hashAt d blockedKey !! x)).
Proof.
  intros [cfg lim bl subs fols pubs _ Hl Hb _ _ _] Hd x. cbn [LimitedDomains BlockedDomains assemble].
  rewrite !sortStrings_elem. split; [by apply Hl; auto with relay|by apply Hb; auto with relay].
Qed.
Lemma loaded_config d n st : loaded d n st → stateKeysOk d → World.RelayConfig st = configView d.
Proof. intros [cfg lim bl subs fols pubs Hc _ _ _ _ _] Hd. by apply Hc. Qed.

(** The segments of an import, each on its own keys. *)
Definition switchWrites (c : relayConfig) : list write :=
  (if cfgPersonOnly c then [(configKey, [("block_service", "1")])] else [])
  ++ (if cfgManuallyAccept c then [(configKey, [("manually_accept", "1")])] else []).
Lemma importWrites_segments data : importWrites data =
  switchWrites (sdConfig data) ++ map (λ y, (limitedKey, [(y, "1")])) (sdLimited data)
  ++ map (λ y, (blockedKey, [(y, "1")])) (sdBlocked data) ++ map subscriberWrite (sdSubscribers data).
Proof.
  unfold importWrites, switchWrites. rewrite !concat_singles, <- !(assoc_L (++)). by destruct (sdConfig data) as [[] []].
Qed.
Lemma switches_written d c : configView (applyWrites d (switchWrites c)) =
  World.mkRelayConfig (cfgPersonOnly (configView d) || cfgPersonOnly c) (cfgManuallyAccept (configView d) || cfgManuallyAccept c).
Proof.
  unfold configView. destruct c as [[] []]; cbn [switchWrites cfgPersonOnly cfgManuallyAccept applyWrites foldl app];
    rewrite ?applyWrite_hash; cbn [foldl]; map_look; cbn [default];
    rewrite ?orb_true_r, ?orb_false_r; try done.
Qed.
Lemma switchWrites_keys c wr : wr ∈ switchWrites c → wr.1 = configKey.
Proof. unfold switchWrites. destruct c as [[] []]; cbn; set_solver. Qed.
Lemma subscriberWrite_key l wr : wr ∈ map subscriberWrite l → ∃ s, s ∈ l ∧ wr.1 = subscriptionPrefix +:+ subDomain s.
Proof. intros (s & -> & Hs)%list_elem_of_fmap. by exists s. Qed.
Lemma domainWrite_key key l (wr : write) : wr ∈ map (λ y, (key, [(y, "1")])) l → wr.1 = key.
Proof. by intros (s & -> & Hs)%list_elem_of_fmap. Qed.

(** A key that is none of those a segment writes. *)
Ltac other_keys :=
  let wr := fresh in let Hwr := fresh in let E := fresh in
  intros wr Hwr E;
  first [apply switchWrites_keys in Hwr | apply domainWrite_key in Hwr | apply subscriberWrite_key in Hwr as (? & ? & Hwr)];
  rewrite Hwr in E; done.

Lemma import_result d data : (∀ s1 s2, s1 ∈ sdSubscribers data → s2 ∈ sdSubscribers data → subDomain s1 = subDomain s2 → s1 = s2) →
  let d' := applyWrites d (importWrites data) in
  configView d' = World.mkRelayConfig (cfgPersonOnly (configView d) || cfgPersonOnly (sdConfig data))
                    (cfgManuallyAccept (configView d) || cfgManuallyAccept (sdConfig data))
  ∧ (∀ x, is_Some (hashAt d' limitedKey !! x) ↔ is_Some (hashAt d limitedKey !! x) ∨ x ∈ sdLimited data)
  ∧ (∀ x, is_Some (hashAt d' blockedKey !! x) ↔ is_Some (hashAt d blockedKey !! x) ∨ x ∈ sdBlocked data)
  ∧ (∀ s, s ∈ sdSubscribers data →
       is_Some (db_keys d' !! (subscriptionPrefix +:+ subDomain s)) ∧ storedSubscriber d' (subDomain s) = s)
  ∧ (∀ k, k ∉ [configKey; limitedKey; blockedKey] → (∀ s, s ∈ sdSubscribers data → k ≠ subscriptionPrefix +:+ subDomain s) →
       db_keys d' !! k = db_keys d !! k).
Proof.
  intros Hagree. cbv zeta. rewrite importWrites_segments, !applyWrites_app. split_and!.
  - unfold configView. rewrite !hashAt_other by other_keys. apply switches_written.
  - intros x. rewrite (hashAt_other _ (map subscriberWrite _)), (hashAt_other _ (map _ (sdBlocked data))) by other_keys.
    rewrite domains_written. by rewrite (hashAt_other d) by other_keys.
  - intros x. rewrite (hashAt_other _ (map subscriberWrite _)) by other_keys.
    rewrite domains_written. by rewrite (hashAt_other _ (map _ (sdLimited data))), (hashAt_other d) by other_keys.
  - intros s Hs. by apply subscriber_written.
  - intros k Hk Hs. rewrite !applyWrites_other; [done|..].
    + intros wr Hwr E. apply switchWrites_keys in Hwr. set_solver.
    + intros wr Hwr E. apply domainWrite_key in Hwr. set_solver.
    + intros wr Hwr E. apply domainWrite_key in Hwr. set_solver.
    + intros wr Hwr E. apply subscriberWrite_key in Hwr as (s & Hin & Hwr). apply (Hs s Hin). congruence.
Qed.

(** C28: what import takes over of an export, when both are run over a Redis that answers and the
    exported strings are valid UTF-8: the two switches are on where either relay had them on, the
    limited and blocked domains are those of both, every subscriber of the first is stored at the
    second with its inbox, follow activity and actor, and every other key of the second is
    untouched.  So not all that is exported is imported: followers and publishers are not,
    although the command's help says "Import all relay information". *)
Theorem export_then_import {S} `{RedisReliable S} (source target : CmdWorld S) (d0 : db) n
    (Hloaded : loaded d0 n (w_relay (cw_world source))) (Hd0 : stateKeysOk d0)
    (Hvalid : stateValid (w_relay (cw_world source)))
    (Hn : notifiable (w_relay (cw_world target)) = true) (Hd : stateKeysOk (cdb target)) :
  ∃ text target', exportConfig source = (mkCmdWorld (cw_world source) (cw_fs source) (cw_out source ++ [text]), Done tt)
  ∧ importConfig text target = (target', Done tt)
  ∧ configView (cdb target') = World.mkRelayConfig (cfgPersonOnly (configView (cdb target)) || cfgPersonOnly (configView d0))
      (cfgManuallyAccept (configView (cdb target)) || cfgManuallyAccept (configView d0))
  ∧ (∀ x, is_Some (hashAt (cdb target') limitedKey !! x) ↔
          is_Some (hashAt (cdb target) limitedKey !! x) ∨ is_Some (hashAt d0 limitedKey !! x))
  ∧ (∀ x, is_Some (hashAt (cdb target') blockedKey !! x) ↔
          is_Some (hashAt (cdb target) blockedKey !! x) ∨ is_Some (hashAt d0 blockedKey !! x))
  ∧ (∀ x, is_Some (db_keys d0 !! (subscriptionPrefix +:+ x)) →
       is_Some (db_keys (cdb target') !! (subscriptionPrefix +:+ x))
       ∧ storedSubscriber (cdb target') x = storedSubscriber d0 x)
  ∧ (∀ k, k ∉ [configKey; limitedKey; blockedKey] →
       (∀ x, is_Some (db_keys d0 !! (subscriptionPrefix +:+ x)) → k ≠ subscriptionPrefix +:+ x) →
       db_keys (cdb target') !! k = db_keys (cdb target) !! k).
Proof.
  set (st := w_relay (cw_world source)) in *. exists (jsonMarshal (relayStateJson st)).
  pose proof (loaded_subscribers _ _ _ Hloaded Hd0) as Hsub.
  destruct (importConfig_stores _ _ (unmarshal_exported st Hvalid) target (cdb target) Hn eq_refl Hd)
    as (target' & [] & E & K & _).
  destruct (import_result (cdb target) (dataOf st)) as (Rc & Rl & Rb & Rs & Ro).
  { intros s1 s2 Hi1 Hi2 E12. apply Hsub in Hi1 as [_ Hi1]. apply Hsub in Hi2 as [_ Hi2]. by rewrite Hi1, Hi2, E12. }
  cbv zeta in *. exists target'. split; [done|]. split; [exact E|].
  assert (Kh : ∀ k, hashAt (cdb target') k = hashAt (applyWrites (cdb target) (importWrites (dataOf st))) k)
    by (intros k; by apply hashAt_keys).
  split_and!.
  - rewrite <- (loaded_config _ _ _ Hloaded Hd0). etransitivity; [|exact Rc]. unfold configView. by rewrite Kh.
  - intros x. rewrite Kh, Rl. by rewrite (proj1 (loaded_domains _ _ _ Hloaded Hd0 x)).
  - intros x. rewrite Kh, Rb. by rewrite (proj2 (loaded_domains _ _ _ Hloaded Hd0 x)).
  - intros x Hx. rewrite K.
    assert (Hs : subDomain (storedSubscriber d0 x) = x) by apply subscriberOf_domain.
    destruct (Rs (storedSubscriber d0 x)) as [R1 R2]; [apply Hsub; by rewrite Hs|]. rewrite Hs in R1, R2.
    split; [done|]. etransitivity; [|exact R2]. unfold storedSubscriber, fieldsOf. by rewrite Kh.
  - intros k Hk Ho. rewrite K. apply Ro; [done|]. intros s Hs. apply Hsub in Hs as [Hs _]. by apply Ho.
Qed.

(** ** A follow request that could not be answered stays *)

Section answering.
Context {S : Type} `{RedisLaws S} {PrivateKey : Type} (ctl : Control S PrivateKey).
Abbreviation W := (World S).
(** Nothing was queued and the key [k] is as it was. *)
Definition holding (k : string) (w w' : W) : Prop :=
  w_queued w' = w_queued w ∧ db_keys (rs_db (w_redis w')) !! k = db_keys (rs_db (w_redis w)) !! k.
#[export] Instance holding_preorder k : PreOrder (holding k).
Proof. split; [by intros w|]. intros w1 w2 w3 [A1 B1] [A2 B2]. split; congruence. Qed.
Lemma holding_redis {A} k (c : Rcmd A) : (∀ now d, db_keys (c now d).1 !! k = db_keys d !! k) → runs (holding k) (redis (S := S) c).
Proof.
  intros Hc w. eexists _, _. split; [reflexivity|]. split; [done|]. cbn.
  destruct (redis_do_db c (w_redis w)) as [->| ->]; [done|apply Hc].
Qed.
Lemma holding_refresh k : runs (holding k) (refresh (S := S)).
Proof.
  intros w. unfold refresh, mbind, M_bind, getRelay. destruct (notifiable (w_relay w)).
  - destruct (holding_redis k (PUBLISH "relay_refresh") ltac:(done) w) as (w' & a & E & Hh). rewrite E. by eexists _, _.
  - destruct (Load_run w) as (w' & r & E & D & _ & O & _). rewrite E. eexists _, _. split; [done|].
    unfold sameOutside in O. destruct_and?. split; [done|]. by rewrite D.
Qed.
Lemma holding_AddFollower f x : runs (holding (pendingPrefix +:+ x)) (AddFollowerChecked (S := S) f).
Proof.
  unfold AddFollowerChecked. case_match; [|apply runs_ret; apply _]. apply runs_bindErr; [apply _| |].
  - apply holding_redis. intros now d. apply (touches_HSET (λ k, k = followerPrefix +:+ normalizeStateDomain (folDomain f))); done.
  - intros _. apply runs_bind; [apply _|apply holding_refresh|]. intros _. apply runs_ret, _.
Qed.
Lemma inWorld_runs {A} (R : relation W) (m : M W A) (w : CmdWorld S) : runs R m →
  ∃ w' a, inWorld m w = (mkCmdWorld w' (cw_fs w) (cw_out w), Done a) ∧ R (cw_world w) w'.
Proof. intros Hm. destruct (Hm (cw_world w)) as (w' & a & E & HR). exists w', a. unfold inWorld. by rewrite E. Qed.

(** A follow request that could not be answered is still there.  Whatever Redis answers,
    when answering the request of a domain returns an error (its record could not be read, the
    follower it describes is not acceptable or could not be stored), no message has been queued
    and the pending request is unchanged. *)
Theorem failed_answer_keeps_request (reload : bool) (domain response : string) (w w' : CmdWorld S) e
    (Hrun : createFollowRequestResponse ctl reload domain response w = (w', Done (Err e))) :
  w_queued (cw_world w') = w_queued (cw_world w)
  ∧ db_keys (rs_db (w_redis (cw_world w'))) !! (pendingPrefix +:+ domain)
    = db_keys (rs_db (w_redis (cw_world w))) !! (pendingPrefix +:+ domain).
Proof.
  revert Hrun. unfold createFollowRequestResponse. intros Hrun.
  change (holding (pendingPrefix +:+ domain) (cw_world w) (cw_world w')).
  destruct (inWorld_runs (holding (pendingPrefix +:+ domain)) (redis (HGETALL (pendingPrefix +:+ domain))) w)
    as (w1 & r1 & E1 & H1); [by apply holding_redis|].
  unfold bindErr in Hrun. rewrite (bind_Done _ _ _ _ _ E1) in Hrun. destruct r1 as [data|e1]; [|by injection Hrun as <- _].
  cbv zeta in Hrun. apply bind_inv in Hrun as (w2 & stored & E2 & Hrun).
  assert (H2 : holding (pendingPrefix +:+ domain) w1 (cw_world w2)).
  { destruct (_ && _) in E2; [|by injection E2 as <- _].
    destruct (inWorld_runs _ _ (mkCmdWorld w1 (cw_fs w) (cw_out w))
      (holding_AddFollower (mkFollower domain (Control.field data "inbox_url") (Control.field data "activity_id") (Control.field data "actor") false) domain))
      as (w2' & r2 & E2' & H2). rewrite E2' in E2. by injection E2 as <- _. }
  destruct stored as [u|e2]; [|injection Hrun as <- _; by etransitivity].
  exfalso. apply bind_inv in Hrun as (w3 & resp & _ & Hrun). apply bind_inv in Hrun as (w4 & ? & _ & Hrun).
  apply bind_inv in Hrun as (w5 & ? & _ & Hrun).
  repeat (case_match; try done; repeat (apply bind_inv in Hrun as (? & ? & _ & Hrun)); try done).
Qed.
End answering.

(** ** A follow request, from the inbox to the operator's answer *)

Section approval.
Context {S : Type} `{RedisReliable S} {PrivateKey : Type} (ctl : Control S PrivateKey).
Abbreviation W := (World S).
Abbreviation CW := (CmdWorld S).
Definition pendingHash (w : CW) (domain : string) (h : gmap string string) : Prop :=
  db_keys (cdb w) !! (pendingPrefix +:+ domain) = Some (mkEntry (RHash h) None).

(** Only the queue, the clock and the UUIDs move. *)
Definition sends (w w' : W) : Prop :=
  rs_db (w_redis w') = rs_db (w_redis w) ∧ w_relay w' = w_relay w.
#[export] Instance sends_preorder : PreOrder sends.
Proof. split; [by intros w|]. intros w1 w2 w3 [A1 B1] [A2 B2]. split; congruence. Qed.
Lemma sends_redis {A} (c : Rcmd A) : readOnly c → runs sends (redis (S := S) c).
Proof. intros Hc w. eexists _, _. split; [reflexivity|]. split; [|done]. by apply redis_read_db. Qed.
Lemma sends_broker ts : runs sends (brokerSend (S := S) ts).
Proof. intros w. unfold brokerSend. destruct (w_broker w (w_sends w) ts). by eexists _, _. Qed.
Lemma sends_uuid : runs sends (uuidNew (S := S)).
Proof. intros w. by eexists _, _. Qed.
Lemma sends_enqueue inbox body : runs sends (enqueueRegisterActivity ctl inbox body).
Proof.
  unfold enqueueRegisterActivity. apply runs_bind; [apply _|by apply sends_redis|]. intros r.
  pose proof sends_broker. runs_auto.
Qed.
Lemma sends_reply a actor o t : runs sends (GenerateReply (S := S) a actor o t).
Proof. unfold GenerateReply. pose proof sends_uuid. runs_auto. Qed.
#[local] Hint Resolve sends_redis sends_broker sends_uuid sends_enqueue sends_reply : runs.

Lemma deletes (k : string) (w : CW) : ∃ w', inWorld (redis (DEL k)) w = (w', Done (Ok tt))
  ∧ cdb w' = drop_ k (cdb w) ∧ w_relay (cw_world w') = w_relay (cw_world w).
Proof.
  destruct (redis_reliable (DEL k) (cw_world w)) as (w1 & now & E & D & R & _).
  exists (mkCmdWorld w1 (cw_fs w) (cw_out w)). unfold inWorld. rewrite E. done.
Qed.
Lemma bindErr_inWorld {A B} (m : M W (result A)) (f : A → M CW (result B)) (w : CW) w' a :
  m (cw_world w) = (w', Done (Ok a)) → bindErr (inWorld m) f w = f a (mkCmdWorld w' (cw_fs w) (cw_out w)).
Proof. intros E. unfold bindErr, mbind, M_bind, inWorld. by rewrite E. Qed.
Lemma reads_pending domain h (w : CW) : pendingHash w domain h →
  ∃ w', redis (HGETALL (pendingPrefix +:+ domain)) (cw_world w) = (w', Done (Ok h)) ∧ sends (cw_world w) w'.
Proof.
  intros Hh. destruct (redis_reliable (HGETALL (pendingPrefix +:+ domain)) (cw_world w)) as (w1 & now & E & D & R & _).
  exists w1. rewrite E. unfold HGETALL in *. cbn [fst snd] in *. unfold asHash, find. unfold pendingHash, cdb in Hh.
  rewrite Hh. cbn. by split.
Qed.

(** Accepting a request to follow the public collection. *)
Lemma accept_subscription reload domain h (w : CW) : acID (RelayActor ctl) ≠ publicURL →
  pendingHash w domain h → Control.field h "object" = publicURL →
  notifiable (w_relay (cw_world w)) = true → stateKeysOk (cdb w) →
  ∃ w', createFollowRequestResponse ctl reload domain "Accept" w = (w', Done (Ok tt))
  ∧ db_keys (cdb w') = db_keys (applyWrites (drop_ (pendingPrefix +:+ domain) (cdb w))
      [subscriberWrite (mkSubscriber domain (Control.field h "inbox_url") (Control.field h "activity_id") (Control.field h "actor"))]).
Proof.
  intros Hid Hh Ho Hn Hd. unfold createFollowRequestResponse.
  destruct (reads_pending _ _ _ Hh) as (w1 & E1 & D1 & R1). rewrite (bindErr_inWorld _ _ _ _ _ E1). cbv zeta.
  unfold contains. rewrite Ho, eqs_refl. rewrite (proj2 (eqs_false publicURL (acID (RelayActor ctl)))) by done.
  rewrite andb_false_r. cbv iota.
  rewrite (bind_Done (mret (Ok tt)) _ _ _ _ eq_refl).
  match goal with |- context [inWorld (GenerateReply ?a ?b ?c ?d)] =>
    destruct (inWorld_runs sends (GenerateReply a b c d) (mkCmdWorld w1 (cw_fs w) (cw_out w)) (sends_reply a b c d)) as (w2 & r & E2 & D2 & R2) end.
  rewrite (bind_Done _ _ _ _ _ E2).
  match goal with |- context [inWorld (enqueueRegisterActivity ctl ?a ?b)] =>
    destruct (inWorld_runs sends (enqueueRegisterActivity ctl a b) (mkCmdWorld w2 (cw_fs w) (cw_out w)) (sends_enqueue a b)) as (w3 & u & E3 & D3 & R3) end.
  cbn [cw_fs cw_out cw_world] in *. rewrite (bind_Done _ _ _ _ _ E3).
  destruct (deletes (pendingPrefix +:+ domain) (mkCmdWorld w3 (cw_fs w) (cw_out w))) as (w4 & E4 & D4 & R4).
  rewrite (bind_Done _ _ _ _ _ E4). rewrite eqs_refl. cbn [cw_world] in *.
  assert (Hdb : cdb w4 = drop_ (pendingPrefix +:+ domain) (cdb w)) by (rewrite D4; unfold cdb; cbn [cw_world]; congruence).
  destruct (stores_AddSubscriber (mkSubscriber domain (Control.field h "inbox_url") (Control.field h "activity_id") (Control.field h "actor"))
    w4 (drop_ (pendingPrefix +:+ domain) (cdb w))) as (w5 & v & E5 & K5 & _);
    [rewrite R4, R3, R2, R1; done|by rewrite Hdb|auto with relay|].
  exists w5. rewrite (bind_Done _ _ _ _ _ E5). done.
Qed.

(** The pending domains include a request that does not expire. *)
Lemma pending_listed domain h (w : CW) : pendingHash w domain h →
  ∃ w' domains, pendingFollowDomains (cw_world w) = (w', Done (Ok domains)) ∧ domain ∈ domains ∧ sends (cw_world w) w'.
Proof.
  intros Hh. unfold pendingFollowDomains, ScanKeys.
  pose proof (redis_scan_ok pendingPrefix (w_redis (cw_world w))) as Hok.
  destruct (redis_scan pendingPrefix (w_redis (cw_world w))) as [s [keys|e]] eqn:E; [|done].
  eexists _, _. unfold bindErr, redisScan, mbind, M_bind. rewrite E. cbn. split; [reflexivity|].
  split; [|split; [|done]].
  - apply list_elem_of_fmap. exists (pendingPrefix +:+ domain). rewrite TrimPrefix_app. split; [done|].
    apply sortStrings_elem. eapply redis_scan_complete; [by rewrite E|]. split; [apply HasPrefix_app|].
    unfold pendingHash, cdb in Hh. unfold find. rewrite Hh. cbn. eauto.
  - pose proof (redis_scan_db pendingPrefix (w_redis (cw_world w))) as Hdb. by rewrite E in Hdb.
Qed.
Lemma accept_listed env domain h (w : CW) : acID (RelayActor ctl) ≠ publicURL →
  pendingHash w domain h → Control.field h "object" = publicURL →
  notifiable (w_relay (cw_world w)) = true → stateKeysOk (cdb w) →
  ∃ w', acceptFollow ctl env [domain] w = (w', Done (Ok tt))
  ∧ db_keys (cdb w') = db_keys (applyWrites (drop_ (pendingPrefix +:+ domain) (cdb w))
      [subscriberWrite (mkSubscriber domain (Control.field h "inbox_url") (Control.field h "activity_id") (Control.field h "actor"))]).
Proof.
  intros Hid Hh Ho Hn Hd. destruct (pending_listed _ _ _ Hh) as (w1 & domains & E1 & Hin & D1 & R1).
  unfold acceptFollow, answerFollow. rewrite (bindErr_inWorld _ _ _ _ _ E1). cbn [forEachErr].
  assert (Hc : contains (EStrings domains) domain = true).
  { cbn. apply existsb_exists. exists domain. split; [by apply list_elem_of_In|apply eqs_refl]. }
  rewrite Hc. unfold bindErr at 1.
  set (w2 := mkCmdWorld w1 (cw_fs w) (cw_out w ++ ["Accept" +:+ " [" +:+ domain +:+ "] follow request"])).
  assert (Hdb : cdb w2 = cdb w) by done.
  destruct (accept_subscription (env 0%nat) domain h w2) as (w3 & E3 & K3); [done| |done| | |].
  - unfold pendingHash. by rewrite Hdb.
  - unfold w2. cbn [cw_world]. by rewrite R1.
  - by rewrite Hdb.
  - exists w3. rewrite Hdb in K3. split; [|done]. unfold Println, printf, modify. unfold mbind, M_bind. cbn [cw_world cw_fs cw_out].
    fold w2. by rewrite E3.
Qed.
End approval.

(** C19: from the inbox to the operator, over a Redis that answers.  On a relay that approves by hand, a
    Follow of the Public address, by an actor with a shared inbox, of a server that is not blocked
    and has no request pending yet, waits in Redis; when the operator then accepts its domain, in
    a control process over the same Redis and whenever that process reloads, the command
    succeeds, the server is stored as a subscriber with its shared inbox, follow activity and
    actor, the pending request is gone, and no other key has changed.  (A Follow of the relay's own
    actor, which the relay's actor being another address than Public excludes here, is stored as
    a follower instead.) *)
Theorem approved_follow_is_stored {S} `{RedisReliable S} {PrivateKey : Type}
    (g : Globals (S := S) (PrivateKey := PrivateKey)) (ctl : Control S PrivateKey)
    (activity : Activity) (actor : Actor) (u : URL) (inbox : string) (w : World S) (env : nat → bool)
    (Hactor : url_Parse (acID actor) = Ok u) (Hinbox : acEndpoints actor = Some inbox)
    (Hobject : aObject activity = Some (JString publicAddress))
    (Hblocked : normalizedActorDomain (Some u) ∉ blockedDomains (w_relay w))
    (Hmanual : cfgManuallyAccept (World.RelayConfig (w_relay w)) = true)
    (Hfresh : db_keys (rs_db (w_redis w)) !! (pendingPrefix +:+ Host u) = None)
    (Hdb : stateKeysOk (rs_db (w_redis w))) (Hid : acID (Control.RelayActor ctl) ≠ publicURL) :
  ∃ w1, executeFollowing g activity actor w = (w1, Done (Ok tt))
  ∧ ∀ c : CmdWorld S, w_redis (cw_world c) = w_redis w1 → notifiable (w_relay (cw_world c)) = true →
    ∃ c', acceptFollow ctl env [Host u] c = (c', Done (Ok tt))
    ∧ is_Some (db_keys (cdb c') !! (subscriptionPrefix +:+ Host u))
    ∧ storedSubscriber (cdb c') (Host u) = mkSubscriber (Host u) inbox (aID activity) (acID actor)
    ∧ db_keys (cdb c') !! (pendingPrefix +:+ Host u) = None
    ∧ ∀ k, k ≠ subscriptionPrefix +:+ Host u → k ≠ pendingPrefix +:+ Host u →
        db_keys (cdb c') !! k = db_keys (rs_db (w_redis w)) !! k.
Proof.
  set (d := rs_db (w_redis w)) in *. set (pk := pendingPrefix +:+ Host u) in *.
  set (fs := [("inbox_url", inbox); ("activity_id", aID activity); ("type", "Follow"); ("actor", acID actor); ("object", publicAddress)]).
  destruct (redis_reliable (HSET pk fs) w) as (w1 & now & E1 & D1 & R1 & _). fold d in E1, D1.
  assert (Hh : asHash now d pk = Ok ∅) by (unfold asHash, find; by rewrite Hfresh).
  assert (Ht : ttlOf now d pk = None) by (unfold ttlOf, find; by rewrite Hfresh).
  unfold HSET in E1, D1. rewrite Hh, Ht in E1, D1. cbn [fst snd] in E1, D1. fold (HSET pk fs) in E1.
  set (h := foldl (λ h '(f, v), <[f := v]> h) ∅ fs) in *.
  exists w1. split.
  { unfold executeFollowing, parseOrNil. rewrite Hactor. unfold isActorBlocked, IsBlocked, ManualApprovalRequired, storePending.
    unfold containsObject. rewrite Hobject, eqs_refl, Hinbox. unfold mbind, M_bind, getRelay, mret, M_ret.
    rewrite (bool_decide_eq_false_2 _ Hblocked), Hmanual. unfold pk, fs, HSET in E1. unfold HSET. by rewrite E1. }
  intros c Hc Hn. assert (Hcd : cdb c = put pk (RHash h) None d) by (unfold cdb; by rewrite Hc, D1).
  assert (Hsk : stateKeysOk (cdb c)) by (rewrite Hcd; auto with relay).
  destruct (accept_listed ctl env (Host u) h c Hid) as (c' & Ec & Kc); [| |done|done|].
  { unfold pendingHash. rewrite Hcd. unfold put, setKeys. cbn [db_keys]. by rewrite lookup_insert_eq. }
  { reflexivity. }
  change (Control.field h "inbox_url") with inbox in Kc. change (Control.field h "activity_id") with (aID activity) in Kc.
  change (Control.field h "actor") with (acID actor) in Kc.
  set (s := mkSubscriber (Host u) inbox (aID activity) (acID actor)) in *.
  destruct (subscriber_written [s] (drop_ pk (cdb c)) s) as [P1 P2]; [set_solver|set_solver|].
  cbn [map] in P1, P2. exists c'. split; [exact Ec|]. split; [by rewrite Kc|]. split.
  { etransitivity; [|exact P2]. unfold storedSubscriber, fieldsOf. f_equal. by rewrite (hashAt_keys _ _ _ Kc). }
  assert (Hothers : ∀ k, k ≠ subscriptionPrefix +:+ Host u → db_keys (cdb c') !! k = db_keys (drop_ pk (cdb c)) !! k).
  { intros k Hk. rewrite Kc. apply applyWrites_other. intros wr [->|[]%elem_of_nil]%elem_of_cons. by intros <-. }
  split.
  - rewrite Hothers by done. unfold drop_, setKeys. cbn [db_keys]. apply lookup_delete_eq.
  - intros k Hk1 Hk2. rewrite Hothers by done. rewrite Hcd. unfold drop_, put, setKeys. cbn [db_keys].
    rewrite lookup_delete_ne, lookup_insert_ne by done. done.
Qed.
