(* ===== verification/ControlUnfollowSpec.v ===== *)
(** * Unfollowing several domains

    [unfollowDomains] looks at a snapshot taken once, and at the memory of the process
    for each domain; the memory may be reloaded at any round.  For distinct domains of a
    memory in step with Redis every round finds its record, whenever the reloads happen;
    a domain given twice is found gone at the second round if a reload came between, and
    the command panics. *)

From S2P Require Import Prelude GoStrings GoUrl GoTime Json Redis World Frame ActivityModel.
From S2P Require Import FileSystem RelayState RelayStateSpec Queue DirectoryCommand DirectoryCommandSpec.
From S2P Require Import RelayConfig Control ControlSpec.

Section unfollow.
Context {S : Type} `{RedisReliable S} {PrivateKey : Type} (ctl : Control S PrivateKey).
Abbreviation W := (World S).
Abbreviation CW := (CmdWorld S).

(** The keys of a domain that unfollowing it deletes. *)
Definition domainKeys (x : string) : list string :=
  [subscriptionPrefix +:+ x; followerPrefix +:+ x; pendingPrefix +:+ x].

(** The follow of a domain that is a subscriber, or else a follower, as it is rejected: the inbox the
    rejection goes to, and the Follow activity it rejects. *)
Definition recordedFollow (id actor object : string) : Activity :=
  mkActivity securityContext id actor "Follow" (Some (JString object)) [] [].
Definition followOf (st : RelayState) (x : string) : option (string * Activity) :=
  match subscribersByDomain st !! x with
  | Some s => Some (subInboxURL s, recordedFollow (subActivityID s) (subActorID s) publicURL)
  | None => (λ f, (folInboxURL f, recordedFollow (folActivityID f) (folActorID f) (acID (RelayActor ctl))))
              <$> followersByDomain st !! x
  end.
(** The task that posts the relay's Reject of a Follow, addressed to the follower. *)
Definition rejectionTo (follow : string * Activity) (t : taskSignature) : Prop :=
  ∃ uuid, t = controlRegisterTask follow.1 (marshalActivity
    (mkActivity activityStreamsContext (acID (RelayActor ctl) +:+ "/activities/" +:+ uuid) (acID (RelayActor ctl)) "Reject"
       (Some (activityJson follow.2)) [aActor follow.2] [])).
(** Tasks handed to a broker that takes them all. *)
Definition outbox (queued : list taskSignature) (follows : list (string * Activity)) (w : W) : Prop :=
  (∀ n ts, w_broker w n ts = (ts, None)) ∧ ∃ sent, w_queued w = queued ++ sent ∧ Forall2 rejectionTo follows sent.
Lemma outbox_kept queued inboxes (w w' : W) : w_broker w' = w_broker w → w_queued w' = w_queued w →
  outbox queued inboxes w → outbox queued inboxes w'.
Proof. unfold outbox. by intros -> ->. Qed.

(** After some rounds, from the memory [st0], the database [d0] and the tasks [q0]. *)
Record unfollowInv (st0 : RelayState) (d0 : db) (q0 : list taskSignature) (handled : list string) (w : CW) : Prop := {
  ui_ok : stateKeysOk (cdb w);
  ui_notifiable : notifiable (w_relay (cw_world w)) = true;
  ui_keys : ∀ k, (∀ x, x ∈ handled → k ∉ domainKeys x) → db_keys (cdb w) !! k = db_keys d0 !! k;
  ui_memory : ∀ x, x ∉ handled → subscribersByDomain (w_relay (cw_world w)) !! x = subscribersByDomain st0 !! x
    ∧ followersByDomain (w_relay (cw_world w)) !! x = followersByDomain st0 !! x;
  ui_subs : ∀ x, x ∈ handled → is_Some (subscribersByDomain st0 !! x) → db_keys (cdb w) !! (subscriptionPrefix +:+ x) = None;
  ui_fols : ∀ x, x ∈ handled → subscribersByDomain st0 !! x = None → is_Some (followersByDomain st0 !! x) →
    db_keys (cdb w) !! (followerPrefix +:+ x) = None;
  ui_pending : ∀ x, x ∈ handled → is_Some (followOf st0 x) → db_keys (cdb w) !! (pendingPrefix +:+ x) = None;
  ui_outbox : outbox q0 (omap (followOf st0) handled) (cw_world w) }.

Lemma domainKeys_sub x y : x ≠ y → subscriptionPrefix +:+ x ∉ domainKeys y.
Proof. intros Hne Hin. unfold domainKeys in Hin. rewrite !elem_of_cons in Hin. destruct Hin as [E|[E|[E|E]]];
  [by apply append_inj in E|done|done|by apply elem_of_nil in E]. Qed.
Lemma domainKeys_fol x y : x ≠ y → followerPrefix +:+ x ∉ domainKeys y.
Proof. intros Hne Hin. unfold domainKeys in Hin. rewrite !elem_of_cons in Hin. destruct Hin as [E|[E|[E|E]]];
  [done|by apply append_inj in E|done|by apply elem_of_nil in E]. Qed.

(** Two databases that agree on a domain's records show the same. *)
Lemma reflects_agree d d' st st' x : Reflects d st → Reflects d' st' →
  db_keys d !! (subscriptionPrefix +:+ x) = db_keys d' !! (subscriptionPrefix +:+ x) →
  db_keys d !! (followerPrefix +:+ x) = db_keys d' !! (followerPrefix +:+ x) →
  subscribersByDomain st !! x = subscribersByDomain st' !! x ∧ followersByDomain st !! x = followersByDomain st' !! x.
Proof.
  intros R R' Es Ef.
  assert (Hs : storedSubscriber d x = storedSubscriber d' x)
    by (unfold storedSubscriber, fieldsOf, hashAt; by rewrite Es).
  assert (Hf : storedFollower d x = storedFollower d' x) by (unfold storedFollower, fieldsOf, hashAt; by rewrite Ef).
  assert (Hu : storedFollowerUsable d x = storedFollowerUsable d' x)
    by (unfold storedFollowerUsable, fieldsOf, hashAt; by rewrite Ef).
  split; apply option_eq; intros r.
  - rewrite (ref_subscribers _ _ R), (ref_subscribers _ _ R'). by rewrite Es, Hs.
  - rewrite (ref_followers _ _ R), (ref_followers _ _ R'). by rewrite Ef, Hf, Hu.
Qed.

Lemma reload_inv st0 d0 q0 handled (w : CW) reload : Reflects d0 st0 → unfollowInv st0 d0 q0 handled w →
  ∃ w', mayReload reload w = (w', Done tt) ∧ unfollowInv st0 d0 q0 handled w'.
Proof.
  intros Hr I. destruct reload; [|by exists w]. unfold mayReload, onRefreshMessage.
  destruct (Load_run (cw_world w)) as (w1 & r & E & D & _ & O & L).
  destruct (answers_Load (cw_world w)) as (w2 & a & E2); [apply (ui_ok _ _ _ _ _ I)|].
  rewrite E in E2. injection E2 as <- ->. set (w' := mkCmdWorld w1 (cw_fs w) (cw_out w)).
  exists w'. split.
  { unfold mbind, M_bind, inWorld. by rewrite E. }
  assert (Hdb : cdb w' = cdb w) by done. pose proof (loaded_reflects _ _ _ (ui_ok _ _ _ _ _ I) L) as R1.
  destruct I as [Hok Hn Hk Hm Hs Hf Hpend Ho]. split; rewrite ?Hdb; try done.
  - unfold w'. cbn [cw_world]. clear R1. by destruct L.
  - intros x Hx. apply (reflects_agree (cdb w) d0); [exact R1|exact Hr|..]; apply Hk; intros y Hy;
      [apply domainKeys_sub|apply domainKeys_fol]; by intros ->.
  - unfold sameOutside in O. destruct_and?. by apply (outbox_kept _ _ (cw_world w)).
Qed.

(** Deleting the record of a domain and its pending request. *)
Lemma delete_record prefix x (w : CW) : notifiable (w_relay (cw_world w)) = true →
  ∃ w', inWorld (_ ← redis (DEL (prefix +:+ x)); _ ← redis (DEL (pendingPrefix +:+ x)); refresh) w = (w', Done tt)
  ∧ db_keys (cdb w') = delete (pendingPrefix +:+ x) (delete (prefix +:+ x) (db_keys (cdb w)))
  ∧ w_relay (cw_world w') = w_relay (cw_world w)
  ∧ w_broker (cw_world w') = w_broker (cw_world w) ∧ w_queued (cw_world w') = w_queued (cw_world w).
Proof.
  intros Hn. destruct (redis_reliable (DEL (prefix +:+ x)) (cw_world w)) as (w1 & ? & E1 & D1 & R1 & O1).
  destruct (redis_reliable (DEL (pendingPrefix +:+ x)) w1) as (w2 & ? & E2 & D2 & R2 & O2).
  destruct (redis_reliable (PUBLISH "relay_refresh") w2) as (w3 & ? & E3 & D3 & R3 & O3).
  exists (mkCmdWorld w3 (cw_fs w) (cw_out w)). unfold inWorld. rewrite (bind_Done _ _ _ _ _ E1), (bind_Done _ _ _ _ _ E2).
  unfold refresh, mbind, M_bind, getRelay. rewrite R2, R1, Hn, E3. split; [done|]. unfold cdb. cbn [cw_world].
  rewrite D3. unfold PUBLISH. cbn [fst db_keys]. rewrite D2, D1. unfold sameOutside in *. destruct_and?. split_and!; [done|congruence..].
Qed.
Lemma contains_subscriber st x : RelayInv st →
  contains (ESubscribers (Subscribers st)) x = bool_decide (is_Some (subscribersByDomain st !! x)).
Proof.
  intros I. cbn. destruct (existsb _ _) eqn:E; symmetry.
  - apply bool_decide_eq_true. apply existsb_exists in E as (s & Hs & <-%eqs_true). apply (inv_subs_list _ I). by apply list_elem_of_In.
  - apply bool_decide_eq_false. intros [s Hs]. apply (inv_subs_map _ I) in Hs as [Hs Hd].
    rewrite existsb_false, Forall_forall in E. specialize (E s Hs). apply eqs_false in E. done.
Qed.
Lemma contains_follower st x : RelayInv st →
  contains (EFollowers (Followers st)) x = bool_decide (is_Some (followersByDomain st !! x)).
Proof.
  intros I. cbn. destruct (existsb _ _) eqn:E; symmetry.
  - apply bool_decide_eq_true. apply existsb_exists in E as (s & Hs & <-%eqs_true). apply (inv_fols_list _ I). by apply list_elem_of_In.
  - apply bool_decide_eq_false. intros [s Hs]. apply (inv_fols_map _ I) in Hs as [Hs Hd].
    rewrite existsb_false, Forall_forall in E. specialize (E s Hs). apply eqs_false in E. done.
Qed.

(** One rejection is queued. *)
Definition queueOpen (d : db) : Prop := ∀ now, ∃ q, (LLEN queueKey now d).2 = Ok q ∧ q < rcMaxQueueJobs (GlobalConfig ctl).
Lemma queueOpen_keys d d' : db_keys d !! queueKey = db_keys d' !! queueKey → queueOpen d' → queueOpen d.
Proof. intros E Hq now. specialize (Hq now). unfold LLEN, find in *. by rewrite E. Qed.
Lemma unfollowRequest_queues id actor object inbox (w : W) : queueOpen (rs_db (w_redis w)) →
  (∀ n ts, w_broker w n ts = (ts, None)) →
  ∃ w' t, unfollowRequest ctl id actor object inbox w = (w', Done tt) ∧ rejectionTo (inbox, recordedFollow id actor object) t
  ∧ w_queued w' = w_queued w ++ [t] ∧ w_broker w' = w_broker w ∧ rs_db (w_redis w') = rs_db (w_redis w)
  ∧ w_relay w' = w_relay w.
Proof.
  intros Hq Hb. unfold unfollowRequest, GenerateReply. cbv zeta.
  unfold uuidNew at 1. unfold mbind, M_bind at 1 2. cbn [mret M_ret].
  match goal with |- context [enqueueRegisterActivity ctl _ ?b ?w1] => set (body := b); set (w1' := w1) end.
  assert (Hb1 : w_broker w1' = w_broker w) by done. assert (Hr1 : w_redis w1' = w_redis w) by done.
  assert (Hq1 : w_queued w1' = w_queued w) by done. assert (Hs1 : w_relay w1' = w_relay w) by done. clearbody w1'.
  unfold enqueueRegisterActivity. destruct (redis_reliable (LLEN queueKey) w1') as (w2 & now & E2 & D2 & R2 & O2).
  destruct (Hq now) as (q & Eq & Hlt). rewrite Hr1 in E2, D2. rewrite Eq in E2. rewrite (bind_Done _ _ _ _ _ E2).
  assert ((rcMaxQueueJobs (GlobalConfig ctl) <=? q) = false) as -> by (apply Z.leb_gt; lia).
  unfold sameOutside in O2. destruct_and?. unfold mbind, M_bind, brokerSend.
  assert (Hb2 : ∀ n ts, w_broker w2 n ts = (ts, None)) by (intros n ts; specialize (Hb n ts); congruence).
  rewrite Hb2. eexists _, (controlRegisterTask inbox body). split; [reflexivity|].
  split; [by eexists|]. cbn [w_queued w_broker w_redis w_relay].
  split_and!; [congruence|congruence|by rewrite D2|by rewrite R2].
Qed.

Lemma inv_deleted st0 d0 q0 handled x prefix follow t (w w' : CW) : unfollowInv st0 d0 q0 handled w → x ∉ handled →
  prefix = subscriptionPrefix ∧ is_Some (subscribersByDomain st0 !! x)
    ∨ prefix = followerPrefix ∧ subscribersByDomain st0 !! x = None →
  db_keys (cdb w') = delete (pendingPrefix +:+ x) (delete (prefix +:+ x) (db_keys (cdb w))) →
  w_relay (cw_world w') = w_relay (cw_world w) → w_broker (cw_world w') = w_broker (cw_world w) →
  followOf st0 x = Some follow → rejectionTo follow t → w_queued (cw_world w') = w_queued (cw_world w) ++ [t] →
  unfollowInv st0 d0 q0 (handled ++ [x]) w'.
Proof.
  intros [Hok Hn Hk Hm Hs Hf Hpend [Hb (sent & Hq & Hsent)]] Hx Hp K R B Hi Ht Q.
  assert (Hin : prefix +:+ x ∈ domainKeys x) by (unfold domainKeys; destruct Hp as [[-> _]|[-> _]]; set_solver).
  assert (Hgone : ∀ k, db_keys (cdb w) !! k = None → db_keys (cdb w') !! k = None).
  { intros k E. rewrite K, !lookup_delete_None. auto. }
  split.
  - intros k e Hsk. rewrite K, !lookup_delete_Some. intros (_ & _ & E). by apply (Hok k).
  - by rewrite R.
  - intros k Hk'. rewrite K, !lookup_delete_ne.
    + apply Hk. intros y Hy. apply Hk'. set_solver.
    + intros <-. by apply (Hk' x); [set_solver|].
    + intros <-. apply (Hk' x); [set_solver|]. unfold domainKeys. set_solver.
  - intros y Hy. rewrite R. apply Hm. set_solver.
  - intros y Hy Hsome. apply elem_of_app in Hy as [Hy| ->%list_elem_of_singleton]; [by apply Hgone, Hs|].
    destruct Hp as [[-> _]|[-> Hnone]]; [|destruct Hsome; congruence].
    rewrite K, lookup_delete_None. right. apply lookup_delete_eq.
  - intros y Hy Hnone Hsome. apply elem_of_app in Hy as [Hy| ->%list_elem_of_singleton]; [by apply Hgone, Hf|].
    destruct Hp as [[-> [? ?]]|[-> _]]; [congruence|].
    rewrite K, lookup_delete_None. right. apply lookup_delete_eq.
  - intros y Hy Hsome. apply elem_of_app in Hy as [Hy| ->%list_elem_of_singleton]; [by apply Hgone, Hpend|].
    rewrite K. apply lookup_delete_eq.
  - split; [by rewrite B|]. exists (sent ++ [t]). rewrite Q, Hq, (assoc_L (++)). split; [done|].
    rewrite omap_app. cbn. rewrite Hi. by apply Forall2_app; [|constructor].
Qed.

Section rounds.
Context (st0 : RelayState) (d0 : db) (q0 : list taskSignature)
  (Hreflects : Reflects d0 st0) (Hinv : RelayInv st0) (Hopen : queueOpen d0).

Lemma open_inv handled (w : CW) : unfollowInv st0 d0 q0 handled w → queueOpen (cdb w).
Proof.
  intros I. apply (queueOpen_keys _ d0); [|done]. apply (ui_keys _ _ _ _ _ I). intros x _ Hin.
  unfold domainKeys in Hin. rewrite !elem_of_cons in Hin. by destruct Hin as [?|[?|[?|?%elem_of_nil]]].
Qed.

(** A domain whose record is found: rejected, deleted, reported. *)
Lemma unfollow_found handled x (w : CW) prefix id actor object inbox (del : M W unit) line :
  unfollowInv st0 d0 q0 handled w → x ∉ handled →
  prefix = subscriptionPrefix ∧ is_Some (subscribersByDomain st0 !! x)
    ∨ prefix = followerPrefix ∧ subscribersByDomain st0 !! x = None →
  followOf st0 x = Some (inbox, recordedFollow id actor object) →
  del = (_ ← redis (DEL (prefix +:+ x)); _ ← redis (DEL (pendingPrefix +:+ x)); refresh) →
  ∃ w', (_ ← inWorld (unfollowRequest ctl id actor object inbox); _ ← inWorld del; Println line) w = (w', Done tt)
  ∧ unfollowInv st0 d0 q0 (handled ++ [x]) w'.
Proof.
  intros I Hx Hp Hi ->. destruct (ui_outbox _ _ _ _ _ I) as [Hb _].
  destruct (unfollowRequest_queues id actor object inbox (cw_world w)) as (w1 & t & E1 & Ht & Q1 & B1 & D1 & R1);
    [by apply (open_inv handled)|done|].
  set (c1 := mkCmdWorld w1 (cw_fs w) (cw_out w)).
  assert (Ec1 : inWorld (unfollowRequest ctl id actor object inbox) w = (c1, Done tt)) by (unfold inWorld; by rewrite E1).
  destruct (delete_record prefix x c1) as (c2 & E2 & K2 & R2 & B2 & Q2).
  { unfold c1. cbn [cw_world]. rewrite R1. apply (ui_notifiable _ _ _ _ _ I). }
  rewrite (bind_Done _ _ _ _ _ Ec1), (bind_Done _ _ _ _ _ E2). eexists. split; [reflexivity|].
  unfold c1 in *. cbn [cw_world] in *.
  apply (inv_deleted st0 d0 q0 handled x prefix (inbox, recordedFollow id actor object) t w); try done; cbn [cw_world] in *; try congruence.
  unfold cdb in *. cbn [cw_world] in *. by rewrite K2, D1.
Qed.

Lemma unfollow_round handled x (w : CW) reload : unfollowInv st0 d0 q0 handled w → x ∉ handled →
  ∃ w', unfollowOne ctl reload (Subscribers st0) (Followers st0) x w = (w', Done tt)
  ∧ unfollowInv st0 d0 q0 (handled ++ [x]) w'.
Proof.
  intros I Hx. unfold unfollowOne. rewrite (contains_subscriber _ _ Hinv), (contains_follower _ _ Hinv).
  destruct (reload_inv _ _ _ _ w reload Hreflects I) as (w1 & E1 & I1).
  destruct (ui_memory _ _ _ _ _ I1 x Hx) as [Ms Mf].
  destruct (subscribersByDomain st0 !! x) as [s|] eqn:Es.
  - rewrite bool_decide_eq_true_2 by eauto. rewrite (bind_Done _ _ _ _ _ E1).
    assert (Esel : inWorld (SelectSubscriber x) w1 = (w1, Done (Some s))).
    { unfold inWorld, SelectSubscriber, mbind, M_bind, getRelay, mret, M_ret. rewrite Ms. by destruct w1. }
    rewrite (bind_Done _ _ _ _ _ Esel). destruct (inv_subs_map _ Hinv _ _ Es) as [_ Hd].
    apply (unfollow_found handled x w1 subscriptionPrefix); [done|done|left; eauto|unfold followOf; by rewrite Es|].
    unfold DelSubscriber. by rewrite Hd.
  - rewrite bool_decide_eq_false_2 by (by intros []).
    destruct (followersByDomain st0 !! x) as [f|] eqn:Ef.
    + rewrite bool_decide_eq_true_2 by eauto. rewrite (bind_Done _ _ _ _ _ E1).
      assert (Esel : inWorld (SelectFollower x) w1 = (w1, Done (Some f))).
      { unfold inWorld, SelectFollower, mbind, M_bind, getRelay, mret, M_ret. rewrite Mf. by destruct w1. }
      rewrite (bind_Done _ _ _ _ _ Esel). destruct (inv_fols_map _ Hinv _ _ Ef) as [_ Hd].
      apply (unfollow_found handled x w1 followerPrefix); [done|done|right; eauto|unfold followOf; by rewrite Es, Ef|].
      unfold DelFollower. by rewrite Hd.
    + rewrite bool_decide_eq_false_2 by (by intros []). eexists. split; [reflexivity|].
      destruct I as [Hok Hn Hk Hm Hs Hf Hpend Ho]. split; try done.
      * intros k Hk'. apply Hk. intros y Hy. apply Hk'. set_solver.
      * intros y Hy. apply Hm. set_solver.
      * intros y Hy Hsome. apply elem_of_app in Hy as [Hy| ->%list_elem_of_singleton]; [by apply Hs|].
        destruct Hsome; congruence.
      * intros y Hy Hnone Hsome. apply elem_of_app in Hy as [Hy| ->%list_elem_of_singleton]; [by apply Hf|].
        destruct Hsome; congruence.
      * intros y Hy Hsome. apply elem_of_app in Hy as [Hy| ->%list_elem_of_singleton]; [by apply Hpend|].
        unfold followOf in Hsome. rewrite Es, Ef in Hsome. by destruct Hsome.
      * rewrite omap_app. cbn. unfold followOf at 2. rewrite Es, Ef. cbn. by rewrite app_nil_r.
Qed.
Lemma unfollow_rounds env args i handled (w : CW) : unfollowInv st0 d0 q0 handled w → NoDup (handled ++ args) →
  ∃ w', forEach (λ i, unfollowOne ctl (env i) (Subscribers st0) (Followers st0)) i args w = (w', Done tt)
  ∧ unfollowInv st0 d0 q0 (handled ++ args) w'.
Proof.
  revert i handled w. induction args as [|x args IH]; intros i handled w I Hnd.
  { exists w. rewrite app_nil_r. done. }
  destruct (unfollow_round handled x w (env i) I) as (w1 & E1 & I1).
  { apply NoDup_app in Hnd as (_ & Hd & _). intros Hx. apply (Hd x Hx). set_solver. }
  destruct (IH (Datatypes.S i) (handled ++ [x]) w1 I1) as (w2 & E2 & I2); [by rewrite <- (assoc_L (++))|].
  exists w2. cbn [forEach]. rewrite (bind_Done _ _ _ _ _ E1). rewrite <- (assoc_L (++)) in I2. done.
Qed.
End rounds.
End unfollow.

(** C18: unfollowing distinct domains.  In a process whose memory is in step with Redis, over a Redis
    that answers, a queue with room and a broker that takes every task, and whenever the memory is
    reloaded: the command ends without a panic; for every given domain that was a subscriber its
    subscription is deleted, for every other that was a follower its follower record, and for both
    the pending request; for each of them, in order, one task is queued, which posts to the
    recorded inbox the relay's Reject of the recorded Follow (of the Public address for a
    subscriber, of the relay's actor for a follower), addressed to its actor; and no key but the
    subscription, follower and pending keys of the given domains has changed. *)
Theorem unfollow_removes_and_rejects {S} `{RedisReliable S} {PrivateKey : Type} (ctl : Control S PrivateKey)
    (env : nat → bool) (args : list string) (w : CmdWorld S)
    (Hreflects : Reflects (cdb w) (w_relay (cw_world w))) (Hinv : RelayInv (w_relay (cw_world w)))
    (Hok : stateKeysOk (cdb w)) (Hn : notifiable (w_relay (cw_world w)) = true)
    (Hopen : queueOpen ctl (cdb w)) (Hbroker : ∀ n ts, w_broker (cw_world w) n ts = (ts, None))
    (Hargs : NoDup args) :
  let st := w_relay (cw_world w) in
  ∃ w' sent, unfollowDomains ctl env args w = (w', Done (Ok tt))
  ∧ (∀ x, x ∈ args → is_Some (subscribersByDomain st !! x) → db_keys (cdb w') !! (subscriptionPrefix +:+ x) = None)
  ∧ (∀ x, x ∈ args → subscribersByDomain st !! x = None → is_Some (followersByDomain st !! x) →
       db_keys (cdb w') !! (followerPrefix +:+ x) = None)
  ∧ (∀ x, x ∈ args → is_Some (followOf ctl st x) → db_keys (cdb w') !! (pendingPrefix +:+ x) = None)
  ∧ (∀ k, (∀ x, x ∈ args → k ∉ domainKeys x) → db_keys (cdb w') !! k = db_keys (cdb w) !! k)
  ∧ w_queued (cw_world w') = w_queued (cw_world w) ++ sent
  ∧ Forall2 (rejectionTo ctl) (omap (followOf ctl st) args) sent.
Proof.
  cbv zeta. set (st := w_relay (cw_world w)) in *.
  destruct (unfollow_rounds ctl st (cdb w) (w_queued (cw_world w)) Hreflects Hinv Hopen env args 0 [] w) as (w' & E & I).
  - split; try done; try set_solver. split; [done|]. exists []. by rewrite app_nil_r.
  - done.
  - destruct I as [_ _ Hk _ Hs Hf Hpend [_ (sent & Hq & Hsent)]]. exists w', sent. split.
    { unfold unfollowDomains. assert (Eg : inWorld getRelay w = (w, Done st)) by (unfold inWorld, getRelay; by destruct w).
      rewrite (bind_Done _ _ _ _ _ Eg), (bind_Done _ _ _ _ _ E). done. }
    done.
Qed.
