(* ===== verification/ControlExamples.v ===== *)
(** * Control commands at work

    The theorems about the control commands at a concrete relay: a subscriber, a follower, a
    publisher and a blocked domain in Redis, the memory loaded from it. *)

From S2P Require Import Prelude GoStrings GoUrl Json JsonRoundTrip Redis World ActivityModel FileSystem RelayState RelayStateSpec.
From S2P Require Import Queue QueueSpec Relay DirectoryCommand RelayConfig RelayConfigSpec Control ControlSpec ControlUnfollowSpec.

Definition relayActor : Actor :=
  mkActor activityStreamsContext "https://relay.example/actor" "Service" "relay" "relay" "" "https://relay.example/inbox" ""
    "" "" (Some "https://relay.example/inbox") (mkPublicKey "" "" "") None None.
Definition relayDomain : URL := match url_Parse "https://relay.example" with Ok u => u | Err _ => emptyURL end.
Definition demoConfig : RelayConfig Calm unit :=
  mkRelayConfig tt relayDomain true (mkRedisOptions "tcp" "localhost:6379" "" "" 0 false) "redis://localhost:6379" ""
    "0.0.0.0:8080" "" "relay" "" None None 50 1048576 1000 100000 "public_only" "legacy" None [] false "".
Definition demoControl : Control Calm unit := mkControl demoConfig relayActor.

(** The memory after the first load of a notifiable process. *)
Definition loadedWorld (d : db) : World Calm :=
  (Load (quietWorld (mkCalm 1700000000000 d) (zeroRelayState true))).1.
Definition commandWorld (w : World Calm) : CmdWorld Calm := mkCmdWorld w demoKeyWorld [].
Lemma loadedWorld_ok d : (match Load (quietWorld (mkCalm 1700000000000 d) (zeroRelayState true)) with
    (_, Done (Ok _)) => true | _ => false end) = true →
  rs_db (w_redis (loadedWorld d)) = d ∧ loaded d true (w_relay (loadedWorld d)).
Proof.
  unfold loadedWorld. destruct (Load_run (quietWorld (mkCalm 1700000000000 d) (zeroRelayState true)))
    as (w' & r & E & D & _ & _ & R). rewrite E. by destruct r.
Qed.

Definition demoCommand : CmdWorld Calm := commandWorld (loadedWorld demoDb).
Lemma demoCommand_ok : cdb demoCommand = demoDb ∧ loaded demoDb true (w_relay (cw_world demoCommand)).
Proof. apply loadedWorld_ok. vm_compute. reflexivity. Qed.
Lemma demoDb_ok : stateKeysOk demoDb.
Proof. apply allHashes_ok. vm_compute. reflexivity. Qed.

(** A test for [stateValid]. *)
Definition subscriberValidb (s : Subscriber) : bool :=
  validUTF8 (subDomain s) && validUTF8 (subInboxURL s) && validUTF8 (subActivityID s) && validUTF8 (subActorID s).
Definition publisherValidb (p : Publisher) : bool :=
  validUTF8 (pubDomain p) && validUTF8 (pubActorID p) && validUTF8 (pubInboxURL p) && validUTF8 (pubFirstSeen p)
  && validUTF8 (pubLastSeen p) && validUTF8 (pubLastActivityID p) && validUTF8 (pubLastActivityType p)
  && inWidth 64 (pubActivityCount p).
Definition stateValidb (st : RelayState) : bool :=
  forallb validUTF8 (LimitedDomains st) && forallb validUTF8 (BlockedDomains st) && forallb subscriberValidb (Subscribers st)
  && forallb (λ f, subscriberValidb (followerAsSubscriber f)) (Followers st) && forallb publisherValidb (Publishers st).
Lemma forallb_implies {A} (f : A → bool) (P : A → Prop) l : (∀ a, f a = true → P a) → forallb f l = true → Forall P l.
Proof. intros Hf. rewrite forallb_forall. intros Hl. apply Forall_forall. intros a Ha. apply Hf, Hl. by apply list_elem_of_In. Qed.
Lemma stateValidb_ok st : stateValidb st = true → stateValid st.
Proof.
  assert (Hsub : ∀ s, subscriberValidb s = true → subscriberValid s)
    by (intros s; unfold subscriberValidb; rewrite !andb_true_iff; intros [[[] ] ]; by split_and!).
  unfold stateValidb. rewrite !andb_true_iff. intros [[[[L B] S] F] P].
  split_and!; eapply forallb_implies; eauto.
  - intros f Hf. by apply Hsub.
  - intros p. unfold publisherValidb. rewrite !andb_true_iff. intros [[[[[[[] ] ] ] ] ] ]. by split_and!.
Qed.

Definition emptyTarget : CmdWorld Calm := commandWorld (loadedWorld emptyDb).
Lemma export_then_import_witness : ∃ text target',
  exportConfig demoCommand = (mkCmdWorld (cw_world demoCommand) (cw_fs demoCommand) (cw_out demoCommand ++ [text]), Done tt)
  ∧ importConfig text emptyTarget = (target', Done tt)
  ∧ is_Some (hashAt (cdb target') blockedKey !! "bad.example")
  ∧ storedSubscriber (cdb target') "sub.example" = storedSubscriber demoDb "sub.example".
Proof.
  destruct (export_then_import demoCommand emptyTarget demoDb true) as (text & target' & E & E' & _ & _ & Hb & Hs & _).
  - apply demoCommand_ok.
  - apply demoDb_ok.
  - apply stateValidb_ok. vm_compute. reflexivity.
  - vm_compute. reflexivity.
  - apply allHashes_ok. vm_compute. reflexivity.
  - exists text, target'. split; [exact E|]. split; [exact E'|]. split.
    + apply Hb. right. vm_compute. by eexists.
    + apply Hs. vm_compute. by eexists.
Defined.

Definition lostAnswer : CmdWorld Sim :=
  mkCmdWorld (quietWorld (mkSim 1700000000000 demoDb [LostBefore]) (zeroRelayState true)) demoKeyWorld [].
Definition simControl : Control Sim unit :=
  mkControl (mkRelayConfig tt relayDomain true (mkRedisOptions "tcp" "localhost:6379" "" "" 0 false)
    "redis://localhost:6379" "" "0.0.0.0:8080" "" "relay" "" None None 50 1048576 1000 100000 "public_only" "legacy" None
    [] false "") relayActor.
Lemma failed_answer_keeps_request_witness : ∃ w' e,
  createFollowRequestResponse simControl false "new.example" "Accept" lostAnswer = (w', Done (Err e))
  ∧ w_queued (cw_world w') = [].
Proof.
  destruct (createFollowRequestResponse simControl false "new.example" "Accept" lostAnswer) as [w' o] eqn:E.
  assert (Ho : match o with Done (Err _) => true | _ => false end = true).
  { change o with (w', o).2. rewrite <- E. vm_compute. reflexivity. }
  destruct o as [[[]|e]|]; try discriminate. exists w', e. split; [reflexivity|].
  apply (failed_answer_keeps_request simControl _ _ _ _ _ _ E).
Defined.

(** A server asks to follow the public address of a relay that approves by hand. *)
Definition manualWorld : World Calm :=
  loadedWorld (mkDb {[ configKey := mkEntry (RHash {[ "manually_accept" := "1" ]}) None ]} []).
Definition newActor : Actor :=
  mkActor activityStreamsContext "https://new.example/actor" "Service" "new" "new" "" "https://new.example/inbox" "" "" ""
    (Some "https://new.example/inbox") (mkPublicKey "" "" "") None None.
Definition newFollow : Activity :=
  mkActivity activityStreamsContext "https://new.example/f/1" "https://new.example/actor" "Follow"
    (Some (JString publicAddress)) [] [].
Definition newURL : URL := match url_Parse "https://new.example/actor" with Ok u => u | Err _ => emptyURL end.
Lemma approved_follow_is_stored_witness : ∃ w1, executeFollowing exampleGlobals newFollow newActor manualWorld = (w1, Done (Ok tt))
  ∧ ∃ c', acceptFollow demoControl (λ _, true) ["new.example"] (commandWorld w1) = (c', Done (Ok tt))
    ∧ storedSubscriber (cdb c') "new.example"
      = mkSubscriber "new.example" "https://new.example/inbox" "https://new.example/f/1" "https://new.example/actor".
Proof.
  destruct (approved_follow_is_stored exampleGlobals demoControl newFollow newActor newURL "https://new.example/inbox"
              manualWorld (λ _, true)) as (w1 & E1 & Hc);
    [vm_compute; reflexivity|reflexivity|reflexivity| |vm_compute; reflexivity|vm_compute; reflexivity
    |apply allHashes_ok; vm_compute; reflexivity|discriminate|].
  { apply (bool_decide_eq_false_1 _). vm_compute. reflexivity. }
  exists w1. split; [exact E1|]. destruct (Hc (commandWorld w1)) as (c' & E & _ & Hs & _); [reflexivity| |].
  - assert (N : notifiable (w_relay (executeFollowing exampleGlobals newFollow newActor manualWorld).1) = true)
      by (vm_compute; reflexivity).
    rewrite E1 in N. exact N.
  - exists c'. split; [exact E|exact Hs].
Defined.

Lemma unfollow_removes_and_rejects_witness : ∃ w' sent,
  unfollowDomains demoControl (λ _, true) ["fol.example"; "sub.example"] demoCommand = (w', Done (Ok tt))
  ∧ db_keys (cdb w') !! "relay:subscription:sub.example" = None
  ∧ db_keys (cdb w') !! "relay:follower:fol.example" = None
  ∧ db_keys (cdb w') !! "relay:pending:fol.example" = None
  ∧ w_queued (cw_world w') = sent
  ∧ Forall2 (rejectionTo demoControl) (omap (followOf demoControl (w_relay (cw_world demoCommand))) ["fol.example"; "sub.example"]) sent
  ∧ length sent = 2%nat.
Proof.
  destruct demoCommand_ok as [D L].
  destruct (unfollow_removes_and_rejects demoControl (λ _, true) ["fol.example"; "sub.example"] demoCommand)
    as (w' & sent & E & Hs & Hf & Hp & _ & Hq & Hsent).
  - rewrite D. apply (loaded_reflects _ true), L. apply demoDb_ok.
  - by apply (loaded_inv demoDb true).
  - rewrite D. apply demoDb_ok.
  - reflexivity.
  - intros now. exists 0. rewrite D. split; reflexivity.
  - reflexivity.
  - apply (bool_decide_eq_true_1 (NoDup ["fol.example"; "sub.example"])). vm_compute. reflexivity.
  - exists w', sent. split; [exact E|]. split; [|split; [|split; [|split; [|split]]]].
    + apply (Hs "sub.example"); [right; left|]. vm_compute. by eexists.
    + apply (Hf "fol.example"); [left|vm_compute; reflexivity|]. vm_compute. by eexists.
    + apply (Hp "fol.example"); [left|]. vm_compute. by eexists.
    + exact Hq.
    + exact Hsent.
    + apply Forall2_length in Hsent. rewrite <- Hsent. vm_compute. reflexivity.
Defined.

(** A domain given twice: when the memory is reloaded after its removal, the second round
    dereferences the nil subscriber. *)
Example unfollow_twice_panics :
  (unfollowDomains demoControl (λ _, true) ["sub.example"; "sub.example"] demoCommand).2
  = Panic "invalid memory address or nil pointer dereference".
Proof. vm_compute. reflexivity. Qed.
