(* ===== verification/Startup.v ===== *)
(** * Start-up (main.go, api/api.go, deliver/deliver.go, control/control.go)

    From the command line to the package variables of each process: reading the
    configuration, the configuration test, and the three [initialize] functions.  The
    configuration library is a parameter ([ViperLib]): the settings after a document was
    read, with the error of reading it, and after a name was bound to its environment
    variable.  [logrus.Fatal] ends the process: the rest of the run is an error here. *)

From S2P Require Import Prelude GoStrings GoUrl GoTime Redis World FileSystem ActivityModel Signer Negotiation Rfc9421.
From S2P Require Import RelayState Queue Decode Deliver DoGet DirectoryConfig RelayConfig StatusPage DirectoryClient DirectoryCommand Control.

(** ** Files opened for reading *)

Fixpoint followName (fuel : nat) (fs : Fs) (path : string) : result nat :=
  match fuel with
  | O => Err errLoop
  | Datatypes.S fuel =>
      '(n, i) ← lookupName fs (resolve path);
      if decide (i_kind i = SymbolicLink) then
        followName fuel fs (if HasPrefix (i_body i) "/" then i_body i else filepath_Dir path +:+ "/" +:+ i_body i)
      else Ok n
  end.
(** [os.Open]: a descriptor of the file the path leads to; reading it fails unless it is a
    regular file. *)
Definition os_Open (path : string) : Mf (result nat) := syscall (λ fs, (fs, followName 41 fs path)).
Definition file_ReadAll (n : nat) : Mf (result string) :=
  syscall (λ fs, (fs, match fs_inodes fs !! n with
                      | Some i => if decide (i_kind i = RegularFile) then Ok (i_body i) else Err errIO
                      | None => Err errIO
                      end)).

(** ** The configuration library *)

Record ViperLib := mkViperLib {
  viperReset : Viper;
  viperReadConfig : result string → Viper * option error;
  viperBindEnv : string → string → Viper → Viper }.   (** the name, its value in the environment *)

(** What a process shows: printed, on its standard error, or logged. *)
Inductive outputLine := Stdout (line : string) | Stderr (line : string) | LogWarn (line : string).
#[export] Instance outputLine_eq_dec : EqDecision outputLine.
Proof. solve_decision. Defined.

Definition errWrapped {A} (text : string) (e : error) : result A := Err (errorWrap text e).

Section configuration.
Context {S : Type} `{Redis S} {PrivateKey : Type} (lib : ViperLib) (yaml : YamlLib) (keys : KeyLib PrivateKey)
  (parseRedisURL : string → result redisOptions) (ParseAddress : string → result string).
(** What Redis answers to the ping of a start. *)
Variable ping : result unit.
Abbreviation RelayConfig := (RelayConfig S PrivateKey).

(** [viper.BindEnv] of each name in turn. *)
Fixpoint bindEnvironment (names : list string) (v : Viper) : Mf Viper :=
  match names with
  | [] => mret v
  | name :: names => value ← os_Getenv name; bindEnvironment names (viperBindEnv lib name value v)
  end.
Definition relayEnvironment : list string :=
  ["ACTOR_PEM"; "REDIS_URL"; "RELAY_BIND"; "OBSERVABILITY_BIND"; "RELAY_DOMAIN"; "RELAY_SERVICENAME"; "JOB_CONCURRENCY";
   "RELAY_SUMMARY"; "RELAY_ICON"; "RELAY_IMAGE"; "MAX_ACTIVITY_BYTES"; "MAX_FANOUT_TARGETS"; "MAX_QUEUE_JOBS";
   "OUTBOUND_SIGNATURE_PROFILE"; "PUBLIC_ADDRESS_DISTRIBUTION_POLICY"].
Definition controlEnvironment : list string :=
  ["ACTOR_PEM"; "REDIS_URL"; "RELAY_BIND"; "RELAY_DOMAIN"; "RELAY_SERVICENAME"; "JOB_CONCURRENCY";
   "RELAY_SUMMARY"; "RELAY_ICON"; "RELAY_IMAGE"].

(** *** The configuration test (main.go, [runConfigTest]); [None] is a nil command *)

Definition configWarning (configPath : string) (w : Warning) : outputLine :=
  Stderr ("activity-relay: warning: " +:+ configPath +:+ ": " +:+ Warning_String w).
Definition testOutcome (configPath : string) (strictConfigTest : bool) (warnings : list Warning)
    : list outputLine * result unit :=
  let lines := Stdout ("activity-relay: configuration file " +:+ configPath +:+ " syntax is ok")
               :: map (configWarning configPath) warnings in
  match warnings with
  | [] => (lines ++ [Stdout "activity-relay: configuration test is successful"], Ok tt)
  | _ => if strictConfigTest
         then (lines, Err (errorsNew "activity-relay: configuration test completed with warnings (--strict)"))
         else (lines ++ [Stderr "activity-relay: configuration test completed with warnings"], Ok tt)
  end.
Definition testOpened (configPath : string) (strictConfigTest : bool) (file : nat) : Mf (list outputLine * result unit) :=
  let subject := "activity-relay: configuration file " +:+ configPath in
  body ← file_ReadAll file;
  let '(viper, readErr) := viperReadConfig lib body in
  match readErr with
  | Some e => mret ([], errWrapped (subject +:+ " syntax is invalid: ") e)
  | None =>
      invalid ← ValidateRelayConfig (S := S) viper keys parseRedisURL ping;
      match invalid with
      | Some e => mret ([], errWrapped (subject +:+ " is invalid: ") e)
      | None =>
          directoryConfig ← LoadConfig yaml keys ParseAddress configPath;
          mret (match directoryConfig with
                | Err e => ([], errWrapped ("activity-relay: Directory configuration in " +:+ configPath +:+ " is invalid: ") e)
                | Ok d => testOutcome configPath strictConfigTest (cfgWarnings d)
                end)
      end
  end.
Definition runConfigTest (cmd : option string) (strictConfigTest : bool) : Mf (list outputLine * result unit) :=
  match cmd with
  | None => mret ([], Err (errorsNew "configuration test command is unavailable"))
  | Some configPath =>
      file ← os_Open configPath;
      match file with
      | Err e => mret ([], errWrapped ("activity-relay: configuration file " +:+ configPath +:+ " cannot be opened: ") e)
      | Ok file =>
          report ← testOpened configPath strictConfigTest file;
          _ ← file_Close;
          mret report
      end
  end.

(** *** The start of a server or worker (main.go, [initConfig]) *)

Definition directoryValidationFailed : string :=
  "Directory-specific configuration validation failed; optional Directory metadata will be ignored and the scheduler will remain fail-closed".
Definition configured (configPath : string) (viper : Viper) : Mf (list outputLine * result RelayConfig) :=
  config ← NewRelayConfig viper keys parseRedisURL ping;
  match config with
  | Err e => mret ([], Err e)
  | Ok c =>
      directoryConfig ← LoadConfig yaml keys ParseAddress configPath;
      mret (match directoryConfig with
            | Ok d => map (λ w, LogWarn (Warning_String w)) (cfgWarnings d)
            | Err _ => [LogWarn directoryValidationFailed]
            end, Ok (SetConfigurationPath configPath c))
  end.
Definition startOpened (configPath : string) (file : nat) : Mf (list outputLine * result RelayConfig) :=
  body ← file_ReadAll file;
  let '(viper, readErr) := viperReadConfig lib body in
  match readErr with
  | Some e => mret ([], errWrapped "Configuration file is invalid: " e)
  | None => configured configPath viper
  end.
Definition initConfig (configPath : string) : Mf (list outputLine * result RelayConfig) :=
  file ← os_Open configPath;
  match file with
  | Ok file =>
      report ← startOpened configPath file;
      _ ← (match report.2 with Ok _ => file_Close | Err _ => mret (Ok tt) end);   (* Fatal skips the deferred call *)
      mret report
  | Err _ =>
      viper ← bindEnvironment relayEnvironment (viperReset lib);
      '(lines, r) ← configured configPath viper;
      mret (LogWarn "Config file not exist. Use environment variables." :: lines, r)
  end.

(** *** The configuration of a control command (control/control.go, [initConfig]) *)

Definition controlConfig (configPath : string) : Mf (result RelayConfig) :=
  file ← os_Open configPath;
  match file with
  | Ok file =>
      body ← file_ReadAll file;
      c ← NewRelayConfig (viperReadConfig lib body).1 keys parseRedisURL ping;
      _ ← (match c with Ok _ => file_Close | Err _ => mret (Ok tt) end);
      mret c
  | Err _ =>
      viper ← bindEnvironment controlEnvironment (viperReset lib);
      NewRelayConfig viper keys parseRedisURL ping
  end.
End configuration.

(** ** The package variables of each process *)

Section initialize.
Context {S : Type} `{Redis S} {PrivateKey PublicKey Message : Type}.
Abbreviation Mw := (M (World S)).
Variable lib : Libraries (PrivateKey := PrivateKey) (Message := Message).
Variable publicKeyPEM : PrivateKey → string.
Variable readPublicKey : string → result (option PublicKey).
Variable sensitive : URL → URL → bool.
(** [machinery.NewServer]'s own answers: registering a task, and launching the worker. *)
Variable registerTask : string → option error.
Variable launch : option error.
(** [tasks.NewGroup]. *)
Variable newGroup : list taskSignature → option error.
Variable version : string.

Definition relaySigner (c : RelayConfig S PrivateKey) : result (ConfiguredSigner (S := S) (PrivateKey := PrivateKey)) :=
  NewNegotiatingSigner (pkID (acPublicKey (NewActivityPubActorFromRelayConfig publicKeyPEM c))) (Some (rcActorKey c))
    (ConfigSignatureProfile (Some c)) (rcNegotiator c).
Definition metricsEnabled (c : RelayConfig S PrivateKey) : bool := negb (rcObservabilityBind c =s "").

(** *** The worker (deliver/deliver.go) *)

Definition workerInitialize (c : RelayConfig S PrivateKey)
    : result (Worker (S := S) (PrivateKey := PrivateKey) * (machineryConf * machineryEndpoint)) :=
  server ← NewMachineryServer (Some c);
  signer ← relaySigner c;
  Ok (mkWorker (Some (mkWorkerConfig (rcSignatureProfile c) (rcServiceName c) (Host (rcDomain c)) (Some (rcActorKey c))))
        version (NewActivityPubActorFromRelayConfig publicKeyPEM c) (metricsEnabled c) (Some signer), server).
(** The tasks registered before the worker is launched, with its concurrency. *)
Record launched := mkLaunched {
  laWorker : Worker (S := S) (PrivateKey := PrivateKey); laServer : machineryConf * machineryEndpoint;
  laTasks : list string; laConcurrency : Z; laError : option error }.
Fixpoint registerTasks (names : list string) : result unit :=
  match names with
  | [] => Ok tt
  | name :: names => match registerTask name with Some e => Err e | None => registerTasks names end
  end.
Definition workerTasks : list string := ["register"; "relay-v2"].
Definition workerEntrypoint (c : RelayConfig S PrivateKey) : result launched :=
  '(worker, server) ← workerInitialize c;
  _ ← registerTasks workerTasks;
  Ok (mkLaunched worker server workerTasks (rcJobConcurrency c) launch).

(** *** The API process (api/api.go) *)

Record apiProcess := mkApiProcess {
  apiGlobals : Globals (S := S) (PrivateKey := PrivateKey); apiServer : machineryConf * machineryEndpoint;
  apiVerifier : RFC9421Verifier S PublicKey; apiNodeinfo : NodeinfoResources; apiWebfinger : list WebfingerResource }.
Definition apiInitialize (webfingerResources : list WebfingerResource) (c : RelayConfig S PrivateKey) : Mw (result apiProcess) :=
  _ ← NewState true;
  let actor := NewActivityPubActorFromRelayConfig publicKeyPEM c in
  mret (
    server ← NewMachineryServer (Some c);
    signer ← relaySigner c;
    let executor := remoteExecutor (Time2Str lib) (libLegacySign lib) (libRfcSign lib) (libRfcInclude lib)
                      (libUnmarshal lib) (libMarshalDigest lib) (Some signer) sensitive in
    verifier ← newInboundRFC9421Verifier readPublicKey mapCache (Some executor) (rcServiceName c) version
                 (Scheme (rcDomain c)) (Host (rcDomain c));
    Ok (mkApiProcess
          (mkGlobals (rcMaxQueueJobs c) (rcMaxFanoutTargets c) (rcMaxActivityBytes c) (ConfigPublicAddressPolicy (Some c))
             actor (Some signer) (metricsEnabled c) newGroup)
          server verifier (GenerateNodeinfoResources (rcDomain c) version)
          (webfingerResources ++ [GenerateWebfingerResource actor (rcDomain c)]))).

(** *** A control command (control/control.go): [initialize]'s error is dropped *)

Definition controlInitialize (c : RelayConfig S PrivateKey)
    : Mw (result (Control S PrivateKey * (machineryConf * machineryEndpoint))) :=
  _ ← NewState true;
  mret (server ← NewMachineryServer (Some c);
        Ok (mkControl c (NewActivityPubActorFromRelayConfig publicKeyPEM c), server)).
(** What the command runs with: without a server the actor is the zero value. *)
Record controlVariables := mkControlVariables { cvControl : Control S PrivateKey; cvServer : option (machineryConf * machineryEndpoint) }.
Definition zeroActor : Actor := mkActor None "" "" "" "" "" "" "" "" "" None (mkPublicKey "" "" "") None None.
Definition initializeProxy {A} (config : Mf (result (RelayConfig S PrivateKey)))
    (function : controlVariables → M (CmdWorld S) A) : M (CmdWorld S) (result A) :=
  c ←! inFs config;
  started ← inWorld (controlInitialize c);
  a ← function (match started with
                | Ok (ctl, server) => mkControlVariables ctl (Some server)
                | Err _ => mkControlVariables (mkControl c zeroActor) None
                end);
  mret (Ok a).
End initialize.
