(* ===== verification/StartupSpec.v ===== *)
(** * A tested configuration starts *)

From S2P Require Import Prelude GoStrings GoUrl GoTime Redis World Frame FileSystem ActivityModel Signer Negotiation Rfc9421.
From S2P Require Import RelayState RelayStateSpec Queue Decode Deliver DeliverSpec DoGet DirectoryProfileSpec DirectoryConfig.
From S2P Require Import RelayConfig RelayConfigSpec StatusPage DirectoryCommand DirectoryCommandSpec Control Startup.

Section test.
Context {S : Type} `{Redis S} {PrivateKey : Type} (lib : ViperLib) (yaml : YamlLib) (keys : KeyLib PrivateKey)
  (parseRedisURL : string → result redisOptions) (ParseAddress : string → result string).

Abbreviation test := (testOpened (S := S) lib yaml keys parseRedisURL ParseAddress).
Abbreviation start := (startOpened (S := S) lib yaml keys parseRedisURL ParseAddress (Ok tt)).

(** The two runs over an opened file, compared: what each shows and how it ends. *)
Definition logged (ws : list Warning) : list outputLine := map (λ w, LogWarn (Warning_String w)) ws.
Inductive agreeing (path : string) (strict : bool)
    : list outputLine * result unit → list outputLine * result (RelayConfig S PrivateKey) → Prop :=
  | AgreeLoaded ws c : rcConfigurationPath c = path → agreeing path strict (testOutcome path strict ws) (logged ws, Ok c)
  | AgreeDirectory e c : agreeing path strict ([], Err e) ([LogWarn directoryValidationFailed], Ok c)
  | AgreeRefused e e' : agreeing path strict ([], Err e) ([], Err e').

Lemma opened_agrees ping path strict file f f1 r :
  test ping path strict file f = (f1, Done r) →
  ∃ f2 r', start path file f = (f2, Done r') ∧ agreeing path strict r r' ∧ (is_ok r'.2 → f2 = f1).
Proof.
  unfold testOpened, startOpened, configured, ValidateRelayConfig, NewRelayConfig.
  intros (f2 & body & E1 & E)%bind_inv. rewrite (bind_Done _ _ _ _ _ E1).
  destruct (viperReadConfig lib body) as [viper [e|]].
  - injection E as <- <-. eexists _, _. split; [done|]. split; [constructor|done].
  - apply bind_inv in E as (f3 & invalid & (f4 & rdry & Ed & E2)%bind_inv & E). injection E2 as <- <-.
    pose proof (dry_run_agrees_with_start viper keys parseRedisURL ping f2) as [Hs Hr]. rewrite Ed in Hs, Hr.
    destruct (newRelayConfig viper keys parseRedisURL (Ok tt) false f2) as [f5 [rs|m]] eqn:Es; cbn in Hs, Hr; [|by destruct rdry]. subst f5.
    rewrite (bind_Done _ _ _ _ _ Es). destruct rdry as [a|e], rs as [b|e']; try done.
    + apply bind_inv in E as (f5 & d & El & E). rewrite (bind_Done _ _ _ _ _ El). injection E as <- <-.
      eexists _, _. split; [done|]. split; [|done]. destruct d as [d|e]; constructor. done.
    + injection E as <- <-. eexists _, _. split; [done|]. split; [constructor|done].
Qed.

Lemma testOutcome_Ok path strict ws : (testOutcome path strict ws).2 = Ok tt → strict = true → ws = [].
Proof. destruct ws; [done|]. cbn. by intros E ->. Qed.
Lemma testOutcome_Err path strict ws e : (testOutcome path strict ws).2 = Err e → strict = true ∧ ws ≠ [].
Proof. destruct ws, strict; done. Qed.

(** C24: A configuration that passes the test starts.  From the same files, whatever other
    processes and the operating system do meanwhile, and whatever Redis said to the test: if
    relay -t accepts the configuration, then a start whose Redis answers reads a
    configuration, keeps the path it was read from, makes the same system calls, and logs the
    very warnings the test printed, none of them under --strict.  And the test is not
    stricter than it says: if it refuses, then the start fails, or the file cannot be opened
    (a start then reads the environment), or only the Directory part is refused (a start
    then logs that it ignores it), or there were warnings and the test was strict. *)
Theorem tested_configuration_starts ping path strict f f1 printed verdict :
  runConfigTest (S := S) lib yaml keys parseRedisURL ParseAddress ping (Some path) strict f = (f1, Done (printed, verdict)) →
  let startRun := initConfig (S := S) lib yaml keys parseRedisURL ParseAddress (Ok tt) path f in
  match verdict with
  | Ok _ => ∃ ws c, startRun = (f1, Done (logged ws, Ok c)) ∧ ConfigurationPath (Some c) = path
                    ∧ printed = (testOutcome path strict ws).1 ∧ (strict = true → ws = [])
  | Err _ =>
      (∃ f2 lines e, startRun = (f2, Done (lines, Err e)))
      ∨ (∃ f2 e, os_Open path f = (f2, Done (Err e)))
      ∨ (∃ f2 c, startRun = (f2, Done ([LogWarn directoryValidationFailed], Ok c)))
      ∨ (∃ f2 c ws, strict = true ∧ ws ≠ [] ∧ startRun = (f2, Done (logged ws, Ok c)))
  end.
Proof.
  unfold runConfigTest, initConfig. intros (f2 & o & Eo & E)%bind_inv. cbv zeta. rewrite (bind_Done _ _ _ _ _ Eo).
  destruct o as [file|e]; [|injection E as <- <- <-; right; left; by exists f2, e].
  apply bind_inv in E as (f3 & r & Et & E). apply bind_inv in E as (f4 & cl & Ec & E). injection E as -> ->.
  destruct (opened_agrees _ _ _ _ _ _ _ Et) as (f5 & r' & Es & Ha & Hf). rewrite (bind_Done _ _ _ _ _ Es).
  inversion Ha as [ws c Hp Hr Hr'|e c Hr Hr'|e e' Hr Hr']; subst.
  - rewrite (Hf I) in *. cbn [snd]. rewrite (bind_Done _ _ _ _ _ Ec).
    destruct (testOutcome _ _ ws) as [l v] eqn:Eq. injection Hr as -> ->. destruct verdict as [[]|e].
    + exists ws, c. split; [done|]. split; [done|]. rewrite Eq. split; [done|]. apply (testOutcome_Ok (rcConfigurationPath c)). by rewrite Eq.
    + destruct (testOutcome_Err (rcConfigurationPath c) strict ws e) as [-> Hn]; [by rewrite Eq|]. right. right. right. eauto 6.
  - rewrite (Hf I) in *. cbn [snd]. rewrite (bind_Done _ _ _ _ _ Ec). right. right. left. eauto.
  - cbn [snd]. left. eexists _, _, _. reflexivity.
Qed.
End test.

(** ** The processes *)

Lemma https_scheme host u : url_ParseRequestURI ("https://" +:+ host) = Ok u → Scheme u = "https".
Proof.
  unfold url_ParseRequestURI, parseURL. destruct (existsb isCTL _); [done|].
  assert (En : eqs ("https://" +:+ host) "" = false) by done. rewrite En. cbn [andb].
  destruct (eqs ("https://" +:+ host) "*") eqn:Es; [by apply eqs_true in Es|]. rewrite getScheme_https. cbn [mbind result_bind].
  destruct (Cut ("//" +:+ host) "?") as [[before after] found]. cbv zeta. change (ToLower "https") with "https".
  destruct (found && eqs after ""); repeat case_match; try done; intros E;
    repeat match goal with
    | E : mapErr _ ?r = Ok _ |- _ => destruct r eqn:?; [|done]; cbn in E
    | E : Ok _ = Ok _ |- _ => injection E as <-
    | E : (_ ≫= _) = Ok _ |- _ => apply result_bind_Ok in E as (? & ? & E)
    | E : (let '(_, _) := ?p in _) = Ok _ |- _ => destruct p
    | E : setPath _ _ = Ok _ |- _ => unfold setPath in E
    end; try done.
Qed.
Lemma URL_String_starts_https u : Scheme u = "https" → ∃ rest, URL_String u = "https:" +:+ rest.
Proof.
  intros E. unfold URL_String. rewrite E. change (eqs "https" "") with false. cbv zeta iota.
  repeat match goal with |- context [if ?b then _ else _] => lazymatch b with context [containsByte] => fail | _ => destruct b end end;
    repeat match goal with |- context [eqs ?x "" && containsByte _ _] =>
      let Q := fresh in destruct (eqs x "") eqn:Q; [apply eqs_true in Q; discriminate Q|cbn [andb]] end;
    rewrite ?append_assoc; eexists; (rewrite ?append_assoc; reflexivity).
Qed.
Lemma TrimSpace_keyID t : TrimSpace (("https:" +:+ t) +:+ "/actor#main-key") = ("https:" +:+ t) +:+ "/actor#main-key".
Proof.
  apply TrimSpace_fix; rewrite !bytes_app; [done|].
  rewrite !rev_app_distr. reflexivity.
Qed.
Lemma profile_reparsed p : p = ProfileLegacy ∨ p = ProfileRFC9421 ∨ p = ProfileDual → ParseOutboundProfile p = Ok p.
Proof. by intros [->|[->| ->]]. Qed.

Section processes.
Context {S : Type} `{RedisLaws S} {PrivateKey PublicKey Message : Type}.
Variable parseRedisURL : string → result redisOptions.
(** [redis.ParseURL]: the schemes redis and rediss give the network tcp, unix gives unix. *)
Hypothesis redis_networks : ∀ u o, parseRedisURL u = Ok o → roNetwork o = "tcp" ∨ roNetwork o = "unix".
Variable lib : Libraries (PrivateKey := PrivateKey) (Message := Message).
Variable publicKeyPEM : PrivateKey → string.
Variable readPublicKey : string → result (option PublicKey).
Variable sensitive : URL → URL → bool.
Variable registerTask : string → option error.
Variable launch : option error.
Variable newGroup : list taskSignature → option error.
Variable version : string.
Context (viper : Viper) (keys : KeyLib PrivateKey).

Definition ready (c : RelayConfig S PrivateKey) : Prop :=
  Scheme (rcDomain c) = "https" ∧ (roNetwork (rcRedisOptions c) = "tcp" ∨ roNetwork (rcRedisOptions c) = "unix")
  ∧ (ConfigSignatureProfile (Some c) = ProfileLegacy ∨ ConfigSignatureProfile (Some c) = ProfileRFC9421
     ∨ ConfigSignatureProfile (Some c) = ProfileDual) ∧ is_Some (rcNegotiator c) ∧ 1 ≤ rcJobConcurrency c.
Lemma accepted_ready ping f f' c :
  NewRelayConfig viper keys parseRedisURL ping f = (f', Done (Ok c)) → ready c.
Proof.
  unfold NewRelayConfig, newRelayConfig. destruct (readSettings viper) as [s|] eqn:Es; [|done].
  apply (readSettings_sound _ parseRedisURL) in Es as (_ & _ & _ & _ & Hpro & Hdom & Hjobs & _). intros (f1 & key & _ & E)%bind_inv. injection E as _ E.
  apply result_bind_Ok in E as (k & _ & E). apply result_bind_Ok in E as (o & Ho%settingErr_Ok & E).
  apply result_bind_Ok in E as (ng & Hng & E). apply result_bind_Ok in E as (ob & _ & E). injection E as <-. cbn.
  split; [by eapply https_scheme|]. split; [by eapply redis_networks|]. split; [destruct Hpro as [->|[->| ->]]; auto|].
  split; [|exact Hjobs]. apply result_bind_Ok in Hng as (u & _ & Hng). cbn in Hng. injection Hng as <-. done.
Qed.

(** The three processes over one configuration. *)
Abbreviation worker := (workerEntrypoint publicKeyPEM registerTask launch version).
Abbreviation api := (apiInitialize lib publicKeyPEM readPublicKey sensitive newGroup version).

Lemma ready_machinery c : ready c → ∃ server, NewMachineryServer (Some c) = Ok server ∧ mcDefaultQueue server.1 = machineryQueueName.
Proof. intros (_ & Hn & _). unfold NewMachineryServer. destruct Hn as [->| ->]; eexists; split; reflexivity. Qed.
Lemma ready_signer c : ready c → ∃ signer, relaySigner publicKeyPEM c = Ok signer
  ∧ csProfile signer = ConfigSignatureProfile (Some c) ∧ csNegotiator signer = rcNegotiator c
  ∧ privateKey (csSigner signer) = rcActorKey c.
Proof.
  intros (Hs & _ & Hp & [ng Hng] & _). unfold relaySigner, NewNegotiatingSigner. rewrite (profile_reparsed _ Hp), Hng.
  cbn [mapErr mbind result_bind]. rewrite andb_false_r. unfold newConfiguredSigner, NewSigner.
  destruct (URL_String_starts_https _ Hs) as [rest Hr].
  assert (Hk : pkID (acPublicKey (NewActivityPubActorFromRelayConfig publicKeyPEM c)) = ("https:" +:+ rest) +:+ "/actor#main-key").
  { cbn -[URL_String append]. rewrite Hr. by rewrite append_assoc. }
  rewrite Hk, TrimSpace_keyID. eexists. split; [reflexivity|]. done.
Qed.
Lemma NewState_run w : ∃ w', NewState true w = (w', Done tt).
Proof.
  unfold NewState, mbind, M_bind. destruct (putRelay _ w) as [w1 [[]|]] eqn:E; [|done].
  destruct (Load_run w1) as (w2 & r & -> & _). eauto.
Qed.
Lemma verifier_starts cache executor name scheme host : scheme = "https" →
  match newInboundRFC9421Verifier (S := S) readPublicKey cache executor name version scheme host with
  | Ok v => TrimSpace host ≠ "" ∧ vfAuthority v = TrimSpace host
  | Err _ => TrimSpace host = ""
  end.
Proof.
  intros ->. unfold newInboundRFC9421Verifier, NewRFC9421Verifier. cbn -[TrimSpace].
  change (TrimSpace "https") with "https". cbn -[TrimSpace]. destruct (eqs (TrimSpace host) "") eqn:E.
  - by apply eqs_true.
  - apply eqs_false in E. done.
Qed.

(** C25: An accepted configuration starts every process, and they fit together.  For the
    configuration of a start whose tasks Machinery accepts: the worker initializes and
    launches with the configured concurrency, which is positive, and the handlers of both tasks; the API process and
    a control command, whatever the state store answers, end their initialization without a
    panic; the API process is ready unless the domain has a blank host; and the three use the
    same queue of the same broker, the API and the worker sign with the same key, profile
    and negotiator, and the API verifies signatures for the configured host. *)
Theorem accepted_configuration_starts_processes ping f f' (c : RelayConfig S PrivateKey) :
  NewRelayConfig viper keys parseRedisURL ping f = (f', Done (Ok c)) → (∀ task, registerTask task = None) →
  ∃ started signer, worker c = Ok started
    ∧ laTasks started = ["register"; "relay-v2"] ∧ laConcurrency started = rcJobConcurrency c ∧ 1 ≤ laConcurrency started
    ∧ mcDefaultQueue (laServer started).1 = "relay"
    ∧ OutboundRequestSigner (laWorker started) = Some signer
    ∧ csProfile signer = ConfigSignatureProfile (Some c) ∧ privateKey (csSigner signer) = rcActorKey c
    ∧ (∀ resources w, ∃ w' r, api resources c w = (w', Done r)
        ∧ match r with
          | Ok process => TrimSpace (Host (rcDomain c)) ≠ "" ∧ vfAuthority (apiVerifier process) = TrimSpace (Host (rcDomain c))
              ∧ apiServer process = laServer started ∧ RemoteRequestSigner (apiGlobals process) = Some signer
              ∧ Queue.RelayActor (apiGlobals process) = workerActor (laWorker started)
              ∧ OperationalMetrics (apiGlobals process) = workerMetrics (laWorker started)
          | Err _ => TrimSpace (Host (rcDomain c)) = ""
          end)
    ∧ (∀ w, ∃ w', controlInitialize publicKeyPEM c w
        = (w', Done (Ok (mkControl c (workerActor (laWorker started)), laServer started)))).
Proof.
  intros Hc%accepted_ready Ht. destruct (ready_machinery c Hc) as (server & Em & Hq).
  destruct (ready_signer c Hc) as (signer & Es & Hp & _ & Hk). pose proof Hc as (Hs & _ & _ & _ & Hjobs).
  unfold workerEntrypoint, workerInitialize. rewrite Em, Es. cbn [mbind result_bind registerTasks workerTasks]. rewrite !Ht.
  eexists _, signer. split; [reflexivity|]. cbn [laTasks laConcurrency laServer laWorker OutboundRequestSigner].
  repeat (split; [done|]). split.
  - intros resources w. destruct (NewState_run w) as [w' E]. unfold apiInitialize. rewrite (bind_Done _ _ _ _ _ E), Em, Es.
    cbn [mbind result_bind]. eexists w', _. split; [reflexivity|]. 
    match goal with |- context [newInboundRFC9421Verifier ?a ?b ?c ?d ?e ?g ?h] =>
      pose proof (verifier_starts b c d g h Hs); destruct (newInboundRFC9421Verifier a b c d e g h) end; cbn; [|done].
    destruct_and?. done.
  - intros w. destruct (NewState_run w) as [w' E]. exists w'. unfold controlInitialize. by rewrite (bind_Done _ _ _ _ _ E), Em.
Qed.
End processes.

(** ** Examples *)

Definition yamlText (line : Z) (s : string) : Node := mkNode ScalarNode "!!str" s "" line [].
Definition yamlMap (line : Z) (l : list (string * Node)) : Node :=
  mkNode MappingNode "!!map" "" "" line (flat_map (λ kv, [yamlText (Line kv.2) kv.1; kv.2]) l).
Definition configDocument : Node :=
  mkNode DocumentNode "" "" "" 1
    [yamlMap 1 [("ACTOR_PEM", yamlText 1 "/etc/relay/actor.pem"); ("RELAY_DOMAIN", yamlText 2 "relay.example");
                ("REDIS_URL", yamlText 3 "redis://redis:6379");
                ("DIRECTORY_PROFILE", yamlMap 5 [("colour", yamlText 5 "green")])]].
Definition startYaml : YamlLib :=
  mkYamlLib (λ s, if s =s "config" then [Ok configDocument] else [Err errIO]) (λ _, Err errIO) (λ _, Err errIO) (λ _, Err errIO).
Definition startViper : ViperLib :=
  mkViperLib (mkViper (λ _, None) (λ _, "") (λ _, 0) (Ok []))
    (λ body, match body with
             | Ok "config" => (demoViper, None)
             | _ => (mkViper (λ _, None) (λ _, "") (λ _, 0) (Ok []), Some (errorsNew "yaml: invalid"))
             end)
    (λ _ _ v, v).
Definition startDisk : FsWorld :=
  let names : gmap name nat := {[ resolve "/etc/relay/actor.pem" := 1%nat; resolve "/etc/relay/config.yml" := 2%nat ]} in
  mkFsWorld (mkFs {[ 1%nat := mkInode RegularFile 384 0 0 "pem" (Some "pem");
                     2%nat := mkInode RegularFile 416 0 0 "config" (Some "config") ]} names names [] ∅)
    0 (λ _ fs, fs) (λ _, None) Z.of_nat (λ _, "") [].
Definition demoTest (strict : bool) :=
  runConfigTest (S := Calm) startViper startYaml demoKeys demoParseRedis (λ s, Ok s) (Err errIO) (Some "/etc/relay/config.yml") strict startDisk.
Definition demoStart := initConfig (S := Calm) startViper startYaml demoKeys demoParseRedis (λ s, Ok s) (Ok tt) "/etc/relay/config.yml" startDisk.
Lemma tested_configuration_starts_witness :
  ∃ ws, match demoTest false, demoStart with
        | (f1, Done (_, Ok _)), (f2, Done (lines, Ok c)) =>
            f2 = f1 ∧ lines = logged ws ∧ length ws = 1%nat ∧ rcConfigurationPath c = "/etc/relay/config.yml"
        | _, _ => False
        end.
Proof.
  destruct (demoTest false) as [f1 [[printed verdict]|m]] eqn:E.
  2:{ assert (Hd : match (demoTest false).2 with Done _ => True | _ => False end) by (vm_compute; exact I).
      rewrite E in Hd. destruct Hd. }
  assert (Hv : match (demoTest false).2 with Done (l, Ok _) => length l = 3%nat | _ => False end) by (vm_compute; reflexivity).
  rewrite E in Hv. cbn in Hv. destruct verdict as [u|e]; [|destruct Hv]. unfold demoTest in E.
  destruct (tested_configuration_starts startViper startYaml demoKeys demoParseRedis (λ s, Ok s) (Err errIO)
              "/etc/relay/config.yml" false startDisk f1 printed (Ok u) E) as (ws & c & Es & Hp & -> & _).
  exists ws. unfold demoStart. rewrite Es. split; [reflexivity|]. split; [reflexivity|]. split; [|exact Hp].
  destruct ws as [|x [|y ws]]; [discriminate Hv|reflexivity|exfalso].
  cbn [testOutcome fst] in Hv. rewrite length_app in Hv. cbn in Hv. lia.
Defined.
Example strict_test_refuses_warnings :
  match (demoTest true).2 with Done (l, Err _) => length l = 2%nat | _ => False end.
Proof. vm_compute. reflexivity. Qed.

Lemma demoParseRedis_networks u o : demoParseRedis u = Ok o → roNetwork o = "tcp" ∨ roNetwork o = "unix".
Proof. intros E. injection E as <-. left. reflexivity. Qed.
Lemma accepted_configuration_starts_processes_witness :
  match NewRelayConfig (S := Calm) demoViper demoKeys demoParseRedis (Ok tt) demoKeyWorld with
  | (_, Done (Ok c)) =>
      ∃ started, workerEntrypoint (λ _, "pem") (λ _, None) None "2.1" c = Ok started ∧ laConcurrency started = 50
        ∧ 1 ≤ laConcurrency started
  | _ => False
  end.
Proof.
  destruct (NewRelayConfig (S := Calm) demoViper demoKeys demoParseRedis (Ok tt) demoKeyWorld) as [f' o] eqn:E.
  assert (Ho : match (NewRelayConfig (S := Calm) demoViper demoKeys demoParseRedis (Ok tt) demoKeyWorld).2 with
               | Done (Ok c) => rcJobConcurrency c = 50
               | _ => False end) by (vm_compute; reflexivity).
  rewrite E in Ho. destruct o as [[c|e]|m]; [|destruct Ho..].
  destruct (accepted_configuration_starts_processes (PublicKey := unit) demoParseRedis demoParseRedis_networks demoLibraries (λ _, "pem")
              (λ _, Ok None) (λ _ _, false) (λ _, None) None (λ _, None) "2.1" demoViper demoKeys (Ok tt) demoKeyWorld f' c E
              (λ _, eq_refl)) as (started & signer & Hs & _ & Hc & Hp & _).
  exists started. split; [exact Hs|]. split; [rewrite Hc; exact Ho|exact Hp].
Defined.
