(* ===== verification/ServerLifecycle.v ===== *)
(** * The HTTP servers of the API process (api/api.go)

    [serveHTTPServers] as a transition system: one goroutine per server, the buffered
    channel of their results, the cancellation of the context, and the function itself
    between its select, the calls of [Shutdown], the draining of the channel and its
    return.  An action is one step of one of them; which come, and in which order, is
    the choice of the scheduler and of the network.  [EntrypointContext] opens the
    listeners the servers serve. *)

From S2P Require Import Prelude GoStrings.

(** ** Servers and the function that owns them *)

(** A server is in [Serve], after [Shutdown] was called or before, or its goroutine has ended. *)
Inductive serverState := Serving (closing : bool) | Ended.
#[export] Instance serverState_eq_dec : EqDecision serverState.
Proof. solve_decision. Defined.
Inductive servePC := AtSelect | AtShutdown (i : nat) | AtDrain (remaining : nat) | Returned.
#[export] Instance servePC_eq_dec : EqDecision servePC.
Proof. solve_decision. Defined.

Record lifecycle := mkLifecycle {
  lcNames : list string;
  lcServers : list serverState;
  lcChannel : list (option error);   (** errorsChannel, of capacity [len(bindings)] *)
  lcCancelled : bool;                (** [ctx.Done()] *)
  lcPC : servePC;
  lcReceived : bool;                 (** receivedResult *)
  lcResult : option error }.

Inductive action :=
  | ServeFails (i : nat) (e : error)        (** Serve returns an error of its own *)
  | ServeCloses (i : nat)                   (** Serve returns ErrServerClosed *)
  | Cancel                                  (** the context is cancelled *)
  | SelectResult                            (** select receives a result *)
  | SelectDone                              (** select sees the context done *)
  | ShutDown (e : option error)             (** Shutdown of the next server returns *)
  | ShutDownDone                            (** the loop over the servers ends *)
  | Drain                                   (** one more result is received *)
  | Return.

Definition wrapServe (name : string) (e : error) : error := errorWrap (name +:+ ": ") e.
Definition firstError (result_ e : option error) : option error :=
  match result_, e with None, Some _ => e | _, _ => result_ end.

Definition step (a : action) (s : lifecycle) : option lifecycle :=
  let '(mkLifecycle names servers channel cancelled pc received result_) := s in
  match a, pc with
  | ServeFails i e, _ =>
      match servers !! i, names !! i with
      | Some (Serving _), Some name =>
          Some (mkLifecycle names (<[i := Ended]> servers) (channel ++ [Some (wrapServe name e)]) cancelled pc received result_)
      | _, _ => None
      end
  | ServeCloses i, _ =>
      match servers !! i with
      | Some (Serving true) => Some (mkLifecycle names (<[i := Ended]> servers) (channel ++ [None]) cancelled pc received result_)
      | _ => None
      end
  | Cancel, _ => if cancelled then None else Some (mkLifecycle names servers channel true pc received result_)
  | SelectResult, AtSelect =>
      match channel with
      | r :: channel => Some (mkLifecycle names servers channel cancelled (AtShutdown 0) true r)
      | [] => None
      end
  | SelectDone, AtSelect =>
      if cancelled then Some (mkLifecycle names servers channel cancelled (AtShutdown 0) received result_) else None
  | ShutDown e, AtShutdown i =>
      match names !! i with
      | Some name =>
          let servers := alter (λ st, match st with Serving _ => Serving true | Ended => Ended end) i servers in
          Some (mkLifecycle names servers channel cancelled (AtShutdown (i + 1)) received
                  (firstError result_ (errorWrap ("shut down " +:+ name +:+ ": ") <$> e)))
      | None => None
      end
  | ShutDownDone, AtShutdown i =>
      if (i =? length names)%nat
      then Some (mkLifecycle names servers channel cancelled
                   (AtDrain (if received then length names - 1 else length names)) received result_)
      else None
  | Drain, AtDrain (Datatypes.S remaining) =>
      match channel with
      | r :: channel => Some (mkLifecycle names servers channel cancelled (AtDrain remaining) received (firstError result_ r))
      | [] => None
      end
  | Return, AtDrain 0 => Some (mkLifecycle names servers channel cancelled Returned received result_)
  | _, _ => None
  end.

(** The call: an error without bindings, else the goroutines are started. *)
Definition serveHTTPServers (names : list string) : result lifecycle :=
  match names with
  | [] => Err (errorsNew "HTTP server lifecycle is unavailable")
  | _ => Ok (mkLifecycle names (replicate (length names) (Serving false)) [] false AtSelect false None)
  end.
Fixpoint runActions (l : list action) (s : lifecycle) : option lifecycle :=
  match l with [] => Some s | a :: l => step a s ≫= runActions l end.

(** ** Opening the listeners (EntrypointContext) *)

(** The addresses this process listens on, and the error of listening on one. *)
Record listenWorld := mkListenWorld { lwOpen : list string; lwFails : string → option error }.
Definition netListen (address : string) (w : listenWorld) : listenWorld * result unit :=
  match lwFails w address with
  | Some e => (w, Err e)
  | None => (mkListenWorld (lwOpen w ++ [address]) (lwFails w), Ok tt)
  end.
Definition netClose (address : string) (w : listenWorld) : listenWorld :=
  mkListenWorld (base.filter (λ a, a ≠ address) (lwOpen w)) (lwFails w).
(** From the initialized process to the start of the servers: the names of the bindings. *)
Definition openBindings (initialized : result unit) (serverBind observabilityBind : string) (w : listenWorld)
    : listenWorld * result (list string) :=
  match initialized with
  | Err e => (w, Err e)
  | Ok _ =>
      let '(w, api) := netListen serverBind w in
      match api with
      | Err e => (w, Err (errorWrap ("listen for API server on " +:+ serverBind +:+ ": ") e))
      | Ok _ =>
          if observabilityBind =s "" then (w, Ok ["API Server"])
          else
            let '(w, obs) := netListen observabilityBind w in
            match obs with
            | Err e => (netClose serverBind w, Err (errorWrap ("listen for observability server on " +:+ observabilityBind +:+ ": ") e))
            | Ok _ => (w, Ok ["API Server"; "Observability Server"])
            end
      end
  end.
(** The start of the process up to its servers; [schedulerDone] is awaited after they return. *)
Definition EntrypointContext (context : bool) (initialized : result unit) (serverBind observabilityBind : string)
    (w : listenWorld) : listenWorld * result lifecycle :=
  if negb context then (w, Err (errorsNew "API lifecycle context is unavailable"))
  else
    let '(w, bindings) := openBindings initialized serverBind observabilityBind w in
    (w, bindings ≫= serveHTTPServers).
