(* ===== verification/ServerLifecycleSpec.v ===== *)
(** * Theorems about the HTTP servers of the API process

    Over every interleaving of the goroutines: nothing is left running or unread when
    the function returns, and it returns. *)

From S2P Require Import Prelude GoStrings ServerLifecycle.

(** ** Counting *)

Definition endedCount (l : list serverState) : nat := length (base.filter (λ st, st = Ended) l).
Arguments endedCount : simpl never.
Lemma endedCount_cons st l : endedCount (st :: l) = ((if decide (st = Ended) then 1 else 0) + endedCount l)%nat.
Proof. unfold endedCount. rewrite filter_cons. by case_decide. Qed.
Lemma endedCount_insert l i c : l !! i = Some (Serving c) → endedCount (<[i := Ended]> l) = Datatypes.S (endedCount l).
Proof.
  revert i. induction l as [|st l IH]; intros [|i] Hi; [done|done|..].
  - injection Hi as ->. cbn. rewrite !endedCount_cons. by rewrite decide_True, decide_False.
  - change (<[Datatypes.S i := Ended]> (st :: l)) with (st :: <[i := Ended]> l). rewrite !endedCount_cons, (IH i Hi). lia.
Qed.
Definition close (st : serverState) : serverState := match st with Serving _ => Serving true | Ended => Ended end.
Lemma endedCount_alter l i : endedCount (alter close i l) = endedCount l.
Proof.
  revert i. induction l as [|st l IH]; intros [|i]; [done|done|..].
  - change (alter close 0%nat (st :: l)) with (close st :: l). rewrite !endedCount_cons. by destruct st.
  - change (alter close (Datatypes.S i) (st :: l)) with (st :: alter close i l). by rewrite !endedCount_cons, IH.
Qed.
Lemma endedCount_le l : (endedCount l ≤ length l)%nat.
Proof. apply length_filter. Qed.
Lemma endedCount_all l : endedCount l = length l → Forall (λ st, st = Ended) l.
Proof.
  induction l as [|st l IH]; [by constructor|]. rewrite endedCount_cons. cbn. pose proof (endedCount_le l).
  case_decide; [|lia]. intros E. constructor; [done|]. apply IH. lia.
Qed.
Lemma endedCount_some l : (endedCount l < length l)%nat → ∃ i c, l !! i = Some (Serving c).
Proof.
  induction l as [|st l IH]; [cbn; lia|]. rewrite endedCount_cons. cbn. destruct st as [c|]; [by exists 0%nat, c|].
  rewrite decide_True by done. intros Hl. destruct IH as (i & c & Hi); [lia|]. by exists (Datatypes.S i), c.
Qed.
Lemma endedCount_elem l : Ended ∈ l → (0 < endedCount l)%nat.
Proof.
  induction l as [|st l IH]; [by intros ?%elem_of_nil|]. rewrite endedCount_cons. intros [<-|Hl]%elem_of_cons.
  - rewrite decide_True by done. lia.
  - specialize (IH Hl). lia.
Qed.
Lemma endedCount_fresh n : endedCount (replicate n (Serving false)) = 0%nat.
Proof. induction n as [|n IH]; [done|]. cbn [replicate]. rewrite endedCount_cons, decide_False by done. exact IH. Qed.

(** ** The invariant *)

(** Results the function has received. *)
Definition taken (s : lifecycle) : nat :=
  match lcPC s with
  | AtSelect => 0
  | AtShutdown _ => if lcReceived s then 1 else 0
  | AtDrain k => length (lcNames s) - k
  | Returned => length (lcNames s)
  end.
(** The servers for which Shutdown has been called. *)
Definition closedUpTo (s : lifecycle) : nat :=
  match lcPC s with AtSelect => 0 | AtShutdown i => i | _ => length (lcNames s) end.
Record lifecycleInv (s : lifecycle) : Prop := {
  li_servers : length (lcServers s) = length (lcNames s);
  li_some : (0 < length (lcNames s))%nat;
  li_results : endedCount (lcServers s) = (taken s + length (lcChannel s))%nat;
  li_pc : match lcPC s with
          | AtSelect => lcReceived s = false ∧ lcResult s = None
          | AtShutdown i => (i ≤ length (lcNames s))%nat
          | AtDrain k => (k ≤ length (lcNames s))%nat
          | Returned => True end;
  li_closed : ∀ j, (j < closedUpTo s)%nat → lcServers s !! j ≠ Some (Serving false) }.

Lemma closed_insert (l : list serverState) i j : (l !! j ≠ Some (Serving false)) → <[i := Ended]> l !! j ≠ Some (Serving false).
Proof. intros Hj E. apply list_lookup_insert_Some in E as [(_ & ? & _)|[_ ?]]; done. Qed.
Lemma closed_alter (l : list serverState) i j : (j ≠ i → l !! j ≠ Some (Serving false)) → alter close i l !! j ≠ Some (Serving false).
Proof.
  intros Hj. destruct (decide (j = i)) as [->|Hn].
  - rewrite list_lookup_alter_eq. by destruct (l !! i) as [[]|].
  - rewrite list_lookup_alter_ne by done. by apply Hj.
Qed.

Lemma step_inv a s s' : step a s = Some s' → lifecycleInv s → lifecycleInv s'.
Proof.
  destruct s as [names servers channel cancelled pc received res]. intros E [I1 I2 I3 I4 I5].
  unfold taken, closedUpTo in *. cbn [lcNames lcServers lcChannel lcPC lcReceived lcResult] in *.
  destruct a as [i e|i| | | |e| | |]; cbn [step] in E.
  - destruct (servers !! i) as [[c|]|] eqn:Ei; [|done..]. destruct (names !! i); [|done]. injection E as <-.
    split; unfold taken, closedUpTo; cbn; [by rewrite length_insert|done| |done|intros j Hj; by apply closed_insert, I5].
    rewrite (endedCount_insert _ _ _ Ei), length_app. cbn. lia.
  - destruct (servers !! i) as [[[]|]|] eqn:Ei; [|done..]. injection E as <-.
    split; unfold taken, closedUpTo; cbn; [by rewrite length_insert|done| |done|intros j Hj; by apply closed_insert, I5].
    rewrite (endedCount_insert _ _ _ Ei), length_app. cbn. lia.
  - destruct cancelled; [done|]. injection E as <-. by split.
  - destruct pc; try done. destruct channel as [|r channel]; [done|]. injection E as <-.
    split; unfold taken, closedUpTo; cbn in *; [done|done|lia|lia|lia].
  - destruct pc; try done. destruct cancelled; [|done]. injection E as <-. destruct I4 as [-> ->].
    split; unfold taken, closedUpTo; cbn in *; [done|done|lia|lia|lia].
  - destruct pc as [|i| |]; try done. destruct (names !! i) as [name|] eqn:En; [|done]. injection E as <-.
    apply lookup_lt_Some in En. change (λ st, match st with Serving _ => Serving true | Ended => Ended end) with close in *.
    split; unfold taken, closedUpTo; cbn; [by rewrite length_alter|done|by rewrite endedCount_alter|lia|].
    intros j Hj. apply closed_alter. intros Hn. apply I5. lia.
  - destruct pc as [|i| |]; try done. destruct (Nat.eqb_spec i (length names)) as [->|]; [|done]. injection E as <-.
    split; unfold taken, closedUpTo; cbn; [done|done| |destruct received; lia|done]. destruct received; lia.
  - destruct pc as [| |[|k]|]; try done. destruct channel as [|r channel]; [done|]. injection E as <-.
    split; unfold taken, closedUpTo; cbn in *; [done|done|lia|lia|done].
  - destruct pc as [| |[|k]|]; try done. injection E as <-.
    split; unfold taken, closedUpTo; cbn in *; [done|done|lia|done|done].
Qed.
Lemma initial_inv names s : serveHTTPServers names = Ok s → lifecycleInv s.
Proof.
  unfold serveHTTPServers. destruct names as [|name names0]; [done|]. set (names := name :: names0). intros E.
  assert (Hn : (0 < length names)%nat) by (cbn; lia). clearbody names. injection E as <-.
  split; unfold taken, closedUpTo; cbn [lcNames lcServers lcChannel lcPC lcReceived lcResult].
  - apply length_replicate.
  - done.
  - apply endedCount_fresh.
  - done.
  - intros j. lia.
Qed.
Lemma run_inv l s s' : runActions l s = Some s' → lifecycleInv s → lifecycleInv s'.
Proof.
  revert s. induction l as [|a l IH]; intros s; cbn; [by intros [= <-]|].
  destruct (step a s) as [s1|] eqn:E; [|done]. intros Hr Hi. by eapply IH, step_inv.
Qed.

(** ** Every action brings the end nearer *)

Definition pcWeight (n : nat) (pc : servePC) : nat :=
  match pc with
  | AtSelect => 2 * n + 4
  | AtShutdown i => (n - i) + n + 3
  | AtDrain k => k + 1
  | Returned => 0
  end.
Definition measure (s : lifecycle) : nat :=
  (length (lcServers s) - endedCount (lcServers s)) + (if lcCancelled s then 0 else 1) + pcWeight (length (lcNames s)) (lcPC s).
Lemma step_measure a s s' : step a s = Some s' → lifecycleInv s → (measure s' < measure s)%nat.
Proof.
  destruct s as [names servers channel cancelled pc received res]. intros E [I1 I2 _ I4 _]. unfold measure.
  cbn [lcNames lcServers lcChannel lcPC lcReceived lcCancelled] in *. pose proof (endedCount_le servers).
  destruct a as [i e|i| | | |e| | |]; cbn [step] in E.
  - destruct (servers !! i) as [[c|]|] eqn:Ei; [|done..]. destruct (names !! i); [|done]. injection E as <-. cbn.
    rewrite (endedCount_insert _ _ _ Ei), length_insert. pose proof (endedCount_le (<[i := Ended]> servers)) as Hle.
    rewrite (endedCount_insert _ _ _ Ei), length_insert in Hle. lia.
  - destruct (servers !! i) as [[[]|]|] eqn:Ei; [|done..]. injection E as <-. cbn.
    rewrite (endedCount_insert _ _ _ Ei), length_insert. pose proof (endedCount_le (<[i := Ended]> servers)) as Hle.
    rewrite (endedCount_insert _ _ _ Ei), length_insert in Hle. lia.
  - destruct cancelled; [done|]. injection E as <-. cbn. lia.
  - destruct pc; try done. destruct channel; [done|]. injection E as <-. cbn. lia.
  - destruct pc; try done. destruct cancelled; [|done]. injection E as <-. cbn. lia.
  - destruct pc as [|i| |]; try done. destruct (names !! i) eqn:En; [|done]. apply lookup_lt_Some in En. injection E as <-. cbn.
    change (λ st, match st with Serving _ => Serving true | Ended => Ended end) with close.
    rewrite length_alter, endedCount_alter. lia.
  - destruct pc as [|i| |]; try done. destruct (Nat.eqb_spec i (length names)) as [->|]; [|done]. injection E as <-. cbn.
    destruct received; lia.
  - destruct pc as [| |[|k]|]; try done. destruct channel; [done|]. injection E as <-. cbn. lia.
  - destruct pc as [| |[|k]|]; try done. injection E as <-. cbn. lia.
Qed.
Lemma run_measure l s s' : runActions l s = Some s' → lifecycleInv s → (length l + measure s' ≤ measure s)%nat.
Proof.
  revert s. induction l as [|a l IH]; intros s; cbn; [by intros [= <-]|].
  destruct (step a s) as [s1|] eqn:E; [|done]. intros Hr Hi. pose proof (step_measure a s s1 E Hi).
  specialize (IH s1 Hr (step_inv a s s1 E Hi)). lia.
Qed.

(** ** There is always a next action *)

(** An action of the function itself, or of a server that was told to close. *)
Definition courteous (a : action) : Prop := match a with ServeFails _ _ | Cancel => False | _ => True end.
Definition triggered (s : lifecycle) : Prop := lcPC s ≠ AtSelect ∨ lcCancelled s = true ∨ Ended ∈ lcServers s.
Lemma progress s : lifecycleInv s → lcPC s ≠ Returned → triggered s → ∃ a s', courteous a ∧ step a s = Some s'.
Proof.
  destruct s as [names servers channel cancelled pc received res]. intros [I1 I2 I3 I4 I5] Hr Ht.
  unfold taken, closedUpTo, triggered in *. cbn [lcNames lcServers lcChannel lcPC lcReceived lcResult lcCancelled] in *.
  destruct pc as [|i|[|k]|]; [| | | |done].
  - destruct channel as [|r channel]; [|eexists SelectResult, _; by split].
    destruct Ht as [?|[->|He%endedCount_elem]]; [done|eexists SelectDone, _; by split|cbn in I3; lia].
  - destruct (Nat.eqb_spec i (length names)) as [->|Hi].
    + eexists ShutDownDone, _. split; [done|]. cbn [step]. by rewrite Nat.eqb_refl.
    + destruct (lookup_lt_is_Some_2 names i) as [name En]; [lia|]. eexists (ShutDown None), _. split; [done|]. cbn [step]. by rewrite En.
  - eexists Return, _. by split.
  - destruct channel as [|r channel]; [|eexists Drain, _; by split].
    destruct (endedCount_some servers) as (j & c & Hj); [cbn in I3; lia|].
    eexists (ServeCloses j), _. split; [done|]. cbn [step]. rewrite Hj. destruct c; [done|]. exfalso.
    eapply I5; [|exact Hj]. apply lookup_lt_Some in Hj. lia.
Qed.

(** ** Errors *)

Definition failing (a : action) : bool := match a with ServeFails _ _ | ShutDown (Some _) => true | _ => false end.
Definition errorKnown (s : lifecycle) : bool :=
  bool_decide (lcResult s ≠ None) || existsb (λ r, match r with Some _ => true | None => false end) (lcChannel s).
Lemma firstError_known r e : bool_decide (firstError r e ≠ None)
  = bool_decide (r ≠ None) || match e with Some _ => true | None => false end.
Proof. by destruct r, e. Qed.
Lemma step_errors a s s' : step a s = Some s' → lifecycleInv s → errorKnown s' = failing a || errorKnown s.
Proof.
  destruct s as [names servers channel cancelled pc received res]. intros E [_ _ _ I4 _]. unfold errorKnown.
  cbn [lcChannel lcPC lcReceived lcResult] in *. destruct a as [i e|i| | | |e| | |]; cbn [step failing] in *.
  - destruct (servers !! i) as [[c|]|]; [|done..]. destruct (names !! i); [|done]. injection E as <-. cbn.
    rewrite existsb_app. cbn. by rewrite !orb_true_r.
  - destruct (servers !! i) as [[[]|]|]; [|done..]. injection E as <-. cbn. rewrite existsb_app. cbn. by rewrite orb_false_r.
  - destruct cancelled; [done|]. by injection E as <-.
  - destruct pc; try done. destruct channel as [|r channel]; [done|]. injection E as <-. cbn. destruct I4 as [_ ->].
    by destruct r.
  - destruct pc; try done. destruct cancelled; [|done]. by injection E as <-.
  - destruct pc as [|i| |]; try done. destruct (names !! i); [|done]. injection E as <-. cbn. rewrite firstError_known.
    destruct e; cbn; [by rewrite orb_true_r|by rewrite orb_false_r].
  - destruct pc as [|i| |]; try done. destruct (i =? _)%nat; [|done]. by injection E as <-.
  - destruct pc as [| |[|k]|]; try done. destruct channel as [|r channel]; [done|]. injection E as <-. cbn.
    by rewrite firstError_known, orb_assoc.
  - destruct pc as [| |[|k]|]; try done. by injection E as <-.
Qed.
Lemma run_errors l s s' : runActions l s = Some s' → lifecycleInv s → errorKnown s' = existsb failing l || errorKnown s.
Proof.
  revert s. induction l as [|a l IH]; intros s; cbn; [by intros [= <-]|].
  destruct (step a s) as [s1|] eqn:E; [|done]. intros Hr Hi. rewrite (IH s1 Hr (step_inv _ _ _ E Hi)), (step_errors _ _ _ E Hi).
  by destruct (failing a), (existsb failing l).
Qed.

(** ** The theorems *)

(** C23: Whatever the interleaving, the channel never holds more results than it has room for, so
    that no server goroutine blocks; and when [serveHTTPServers] returns, every server goroutine
    has ended, every result was read, and the result is an error exactly if a server failed or
    could not be shut down. *)
Theorem servers_end_with_the_function (names : list string) (s0 s : lifecycle) (l : list action)
    (Hstart : serveHTTPServers names = Ok s0) (Hrun : runActions l s0 = Some s) :
  (length (lcChannel s) ≤ length (lcNames s))%nat
  ∧ (lcPC s = Returned → Forall (λ st, st = Ended) (lcServers s) ∧ lcChannel s = []
       ∧ (lcResult s = None ↔ existsb failing l = false)).
Proof.
  pose proof (initial_inv _ _ Hstart) as Hi0. pose proof (run_inv _ _ _ Hrun Hi0) as Hi. pose proof Hi as [I1 I2 I3 _ _].
  pose proof (endedCount_le (lcServers s)). split; [lia|]. intros Hpc. unfold taken in I3. rewrite Hpc in I3.
  assert (Hc : lcChannel s = []) by (destruct (lcChannel s); [done|cbn in I3; lia]). rewrite Hc in I3. cbn in I3.
  split; [apply endedCount_all; lia|]. split; [done|].
  pose proof (run_errors _ _ _ Hrun Hi0) as He. unfold errorKnown in He. rewrite Hc in He. cbn in He. rewrite orb_false_r in He.
  assert (H0 : bool_decide (lcResult s0 ≠ None) || existsb (λ r, match r with Some _ => true | None => false end) (lcChannel s0) = false).
  { unfold serveHTTPServers in Hstart. destruct names; [done|]. by injection Hstart as <-. }
  rewrite H0, orb_false_r in He. rewrite <- He, bool_decide_eq_false. destruct (lcResult s); naive_solver.
Qed.

(** C22: The servers always come to their end.  No run of the n servers has more than 3n + 5
    actions; and once the context is cancelled or a server has ended, as long as the function has
    not returned some action is possible that does not depend on a failure: of the function, or
    of a server that was told to close. *)
Theorem shutdown_always_completes (names : list string) (s0 s : lifecycle) (l : list action)
    (Hstart : serveHTTPServers names = Ok s0) (Hrun : runActions l s0 = Some s) :
  (length l ≤ 3 * length names + 5)%nat
  ∧ (lcPC s ≠ Returned → triggered s → ∃ a s', courteous a ∧ step a s = Some s').
Proof.
  pose proof (initial_inv _ _ Hstart) as Hi0. pose proof (run_measure _ _ _ Hrun Hi0) as Hm. split.
  - unfold serveHTTPServers in Hstart. destruct names as [|name names0]; [done|].
    set (names := name :: names0) in *. clearbody names. injection Hstart as <-. unfold measure in Hm.
    cbn [lcNames lcServers lcCancelled lcPC pcWeight] in Hm. rewrite endedCount_fresh, length_replicate in Hm. lia.
  - intros Hr Ht. by apply progress; [eapply run_inv|..].
Qed.

(** ** Examples *)

Definition bothServers : list string := ["API Server"; "Observability Server"].
Definition bothStarted : lifecycle := mkLifecycle bothServers [Serving false; Serving false] [] false AtSelect false None.
(** The second server fails while the context is cancelled; the first is shut down. *)
Definition failureRun : list action :=
  [ServeFails 1 (errorsNew "accept: too many open files"); Cancel; SelectDone; ShutDown None; ShutDown None; ShutDownDone;
   Drain; ServeCloses 0; Drain; Return].
Definition failureEnd : lifecycle :=
  mkLifecycle bothServers [Ended; Ended] [] true Returned false
    (Some (errorsNew "Observability Server: accept: too many open files")).
Lemma servers_end_with_the_function_witness :
  runActions failureRun bothStarted = Some failureEnd ∧ Forall (λ st, st = Ended) (lcServers failureEnd)
  ∧ (lcResult failureEnd = None ↔ existsb failing failureRun = false).
Proof.
  destruct (servers_end_with_the_function bothServers bothStarted failureEnd failureRun) as [_ Hend]; [reflexivity|reflexivity|].
  destruct (Hend eq_refl) as (Ha & _ & Hr). split; [reflexivity|]. split; [exact Ha|exact Hr].
Defined.
Lemma shutdown_always_completes_witness :
  ∃ s, runActions [Cancel] bothStarted = Some s ∧ ∃ a s', courteous a ∧ step a s = Some s'.
Proof.
  eexists. split; [reflexivity|].
  apply (shutdown_always_completes bothServers bothStarted _ [Cancel]); [reflexivity|reflexivity|discriminate|right; left; reflexivity].
Defined.
(** A start that fails leaves no listener open. *)
Example failed_start_closes : (EntrypointContext true (Ok tt) ":8080" ":9090"
    (mkListenWorld [] (λ a, if a =s ":9090" then Some (errorsNew "in use") else None))).1.(lwOpen) = [].
Proof. vm_compute. reflexivity. Qed.
