(* ===== verification/ActorKey.v ===== *)
(** * The relay's identity key (models/key.go, models/utils.go, main.go)

    Generating the key file, call by call over the file system; reading a remote public
    key.  RSA key generation, PEM and the DER encodings are parameters. *)

From S2P Require Import Prelude GoStrings Redis World FileSystem.

(** ** System calls *)

(** [os.MkdirAll]: directories are not kept apart from the names in them. *)
Definition os_MkdirAll (dir : string) (mode : Z) : Mf (result unit) := syscall (λ fs, (fs, Ok tt)).
(** [os.OpenFile] with O_WRONLY, O_CREATE and O_EXCL: a new file, or an error if the name exists,
    be it a symbolic link. *)
Definition freshInode (fs : Fs) : nat :=
  fresh (dom (fs_inodes fs) ∪ map_img (fs_dir fs) ∪ map_img (fs_durable fs) ∪ list_to_set (omap snd (fs_pending fs))).
Definition os_CreateExclusive (path : string) (mode : Z) : Mf (result nat) :=
  syscall (λ fs, match fs_dir fs !! resolve path with
                 | Some _ => (fs, Err errExist)
                 | None => let n := freshInode fs in
                           (link (resolve path) (Some n)
                              (setInodes (<[n := mkInode RegularFile mode 0 0 "" None]> (fs_inodes fs)) fs), Ok n)
                 end).

(** ** Generation *)

Section key.
Context {PrivateKey : Type}.
(** [rsa.GenerateKey] with the randomness of this call, and the PEM text of a PKCS #1 key. *)
Variable rsaGenerateKey : Z → result PrivateKey.
Variable encodeKey : PrivateKey → string.

(** Write, sync and close: the first error, and whether the descriptor is closed. *)
Definition writeKey (file : nat) (encoded : string) : Mf (result unit * bool) :=
  written ← writeAll file encoded;
  match written with
  | Err e => mret (Err (errorWrap "write actor key: " e), false)
  | Ok _ =>
      synced ← file_Sync file;
      match synced with
      | Err e => mret (Err (errorWrap "sync actor key: " e), false)
      | Ok _ =>
          closed ← file_Close;
          match closed with
          | Err e => mret (Err (errorWrap "close actor key: " e), true)
          | Ok _ => mret (Ok tt, true)
          end
      end
  end.
Definition GenerateActorKey (path : string) (bits : Z) : Mf (result unit) :=
  if bits <? 2048 then mret (Err (errorsNew "RSA key size must be at least 2048 bits"))
  else if path =s "" then mret (Err (errorsNew "actor key output path is empty"))
  else match rsaGenerateKey bits with
  | Err e => mret (Err (errorWrap "generate RSA key: " e))
  | Ok key =>
      let encoded := encodeKey key in
      made ← os_MkdirAll (filepath_Dir path) 488;
      match made with
      | Err e => mret (Err (errorWrap "create actor key directory: " e))
      | Ok _ =>
          file ← os_CreateExclusive path 384;
          match file with
          | Err e => mret (Err (if errorIs e "os.ErrExist" then errorsNew ("actor key already exists: " +:+ path)
                                else errorWrap "create actor key: " e))
          | Ok file =>
              '(result_, closed) ← writeKey file encoded;
              (* the deferred function *)
              _ ← (if (closed : bool) then mret (Ok tt) else file_Close);
              _ ← (match result_ with Ok _ => mret (Ok tt) | Err _ => os_Remove (resolve path) end);
              mret result_
          end
      end
  end.
(** The command [generate-key]: what it prints. *)
Definition generateKeyCommand (keyOutput : string) (keyBits : Z) : Mf (result string) :=
  _ ←! GenerateActorKey keyOutput keyBits; mret (Ok ("Generated relay actor key at " +:+ keyOutput)).
End key.

(** ** Public keys *)

(** What [x509.ParsePKIXPublicKey] returns: an RSA key, or a key of the Go type named. *)
Inductive pkixKey (PublicKey : Type) := PkixRSA (key : PublicKey) | PkixOther (goType : string).
Arguments PkixRSA {PublicKey} key.
Arguments PkixOther {PublicKey} goType.
Definition ReadPublicKeyRSAFromString {PublicKey} (pemDecode : string → option string)
    (parsePKIX : string → result (pkixKey PublicKey)) (parsePKCS1 : string → result PublicKey) (pemString : string)
    : result PublicKey :=
  match pemDecode pemString with
  | None => Err (errorsNew "public key PEM is invalid")
  | Some der =>
      match parsePKIX der with
      | Ok (PkixRSA publicKey) => Ok publicKey
      | Ok (PkixOther goType) => Err (errorsNew ("public key is " +:+ goType +:+ ", not RSA"))
      | Err pkixErr =>
          match parsePKCS1 der with
          | Ok publicKey => Ok publicKey
          | Err pkcs1Err =>
              Err (errorsNew ("parse RSA public key: PKIX: " +:+ err_text pkixErr +:+ "; PKCS#1: " +:+ err_text pkcs1Err))
          end
      end
  end.
(** [marshalPKIX] fails with [None]; no key gives no text. *)
Definition generatePublicKeyPEMString {PublicKey} (marshalPKIX : PublicKey → option string) (pemEncode : string → string → string)
    (publicKey : option PublicKey) : string :=
  match publicKey with
  | None => ""
  | Some key => match marshalPKIX key with None => "" | Some der => pemEncode "PUBLIC KEY" der end
  end.

(** ** A field with a default (redisHGetOrCreateWithDefault) *)

Definition HEXISTS (k f : string) : Rcmd bool := λ now d,
  (d, (λ h : gmap string string, bool_decide (is_Some (h !! f))) <$> asHash now d k).
Definition HGETnil (k f : string) : Rcmd string := λ now d,
  (d, h ← asHash now d k; match h !! f with Some v => Ok v | None => Err redisNil end).
Definition redisHGetOrCreateWithDefault {S} `{Redis S} (key field_ defaultValue : string) : M (World S) (result string) :=
  keyExist ←! redis (HEXISTS key field_);
  if (keyExist : bool) then redis (HGETnil key field_)
  else (_ ←! redis (HSET key [(field_, defaultValue)]); mret (Ok defaultValue)).
