(* ===== verification/ActorKeySpec.v ===== *)
(** * Theorems about the identity key

    [GenerateActorKey] over a file system in which any one system call may fail. *)

From S2P Require Import Prelude GoStrings World FileSystem DirectoryConfig ActorKey.

Section spec.
Context {PrivateKey : Type} (rsaGenerateKey : Z → result PrivateKey) (encodeKey : PrivateKey → string).

(** At most one system call of the run fails. *)
Definition oneFailure (f : FsWorld) : Prop := ∀ i j, fw_fails f i ≠ None → fw_fails f j ≠ None → i = j.
(** No other process interferes. *)
Definition undisturbed (f : FsWorld) : Prop := ∀ n fs, fw_others f n fs = fs.

Lemma freshInode_fresh fs : fs_inodes fs !! freshInode fs = None ∧ ∀ k, fs_dir fs !! k ≠ Some (freshInode fs).
Proof.
  unfold freshInode. set (X := _ ∪ _ ∪ _ ∪ _). pose proof (is_fresh X) as Hf. split.
  - apply not_elem_of_dom. set_solver.
  - intros k Hk. apply Hf. unfold X. apply (elem_of_map_img_2 (SA := gset nat)) in Hk. set_solver.
Qed.

(** The world after a call that left [fs]. *)
Definition after (f : FsWorld) (fs : Fs) : FsWorld :=
  mkFsWorld fs (Datatypes.S (fw_calls f)) (fw_others f) (fw_fails f) (fw_random f) (fw_getenv f) (fw_log f ++ [fs]).
Lemma syscallP_after {A} partial (op : Fs → Fs * result A) f : undisturbed f → syscallP partial op f =
  match fw_fails f (fw_calls f) with
  | Some k => (after f (partial k (fw_fs f)), Done (Err errIO))
  | None => (after f (op (fw_fs f)).1, Done (op (fw_fs f)).2)
  end.
Proof. intros Hu. unfold syscallP. rewrite Hu. destruct (fw_fails f _); [done|]. by destruct (op (fw_fs f)). Qed.

(** The end of a run that created the inode [n] under the name [k]. *)
Definition settled (fs0 : Fs) (k : name) (n : nat) (encoded : string) (r : result unit) (fs : Fs) : Prop :=
  (∀ m, m ≠ n → fs_inodes fs !! m = fs_inodes fs0 !! m)
  ∧ match r with
    | Err _ => fs_dir fs = delete k (fs_dir fs0)
    | Ok _ => fs_dir fs = <[k := n]> (fs_dir fs0)
              ∧ fs_inodes fs !! n = Some (mkInode RegularFile 384 0 0 encoded (Some encoded))
    end.

(** From the creation of the file to the return: the failing call, if there is one, is not the
    removal. *)
Definition finishKey (path : string) (file : nat) (encoded : string) : Mf (result unit) :=
  '(result_, closed) ← writeKey file encoded;
  _ ← (if (closed : bool) then mret (Ok tt) else file_Close);
  _ ← (match result_ with Ok _ => mret (Ok tt) | Err _ => os_Remove (resolve path) end);
  mret result_.
(** The next call; and one that succeeds because another, by [E], failed. *)
Ltac call := cbn; rewrite syscallP_after by done; cbn.
Ltac call_ok E := call; match type of E with fw_fails ?f ?i = Some _ =>
  match goal with Ho : ∀ i j, i ≠ j → _ |- context [fw_fails f ?j] => rewrite (Ho i j) by (lia || by rewrite E) end end; cbn.
Lemma finishKey_run path n encoded fs0 f : undisturbed f → oneFailure f →
  fw_fs f = link (resolve path) (Some n) (setInodes (<[n := mkInode RegularFile 384 0 0 "" None]> (fs_inodes fs0)) fs0) →
  ∃ f' r, finishKey path n encoded f = (f', Done r) ∧ settled fs0 (resolve path) n encoded r (fw_fs f').
Proof.
  intros Hu Hone Hfs. set (k := resolve path) in *.
  unfold finishKey, writeKey, writeAll, file_Sync, file_Close, os_Remove, syscall. fold k.
  assert (Hdir : fs_dir (fw_fs f) !! k = Some n) by (rewrite Hfs; cbn; apply lookup_insert_eq).
  assert (Hino : ∀ m, m ≠ n → fs_inodes (fw_fs f) !! m = fs_inodes fs0 !! m) by (intros m Hm; rewrite Hfs; cbn; by rewrite lookup_insert_ne).
  assert (Hdel : delete k (fs_dir (fw_fs f)) = delete k (fs_dir fs0)) by (rewrite Hfs; cbn; by rewrite delete_insert_eq).
  assert (Hother : ∀ i j, i ≠ j → fw_fails f i ≠ None → fw_fails f j = None).
  { intros i j Hij Hi. destruct (fw_fails f j) eqn:Ej; [|done]. destruct Hij. apply Hone; [done|by rewrite Ej]. }
  unfold mbind, M_bind. rewrite syscallP_after by done. destruct (fw_fails f (fw_calls f)) as [b|] eqn:E0.
  { do 2 call_ok E0. rewrite Hdir. cbn. eexists _, _. split; [done|]. split; cbn; [|done].
    intros m Hm. by rewrite lookup_alter_ne, Hino. }
  call. destruct (fw_fails f (Datatypes.S (fw_calls f))) as [b|] eqn:E1.
  { do 2 call_ok E1. rewrite Hdir. cbn. eexists _, _. split; [done|]. split; cbn; [|done].
    intros m Hm. by rewrite lookup_alter_ne, Hino. }
  call. destruct (fw_fails f (Datatypes.S (Datatypes.S (fw_calls f)))) as [b|] eqn:E2.
  { call_ok E2. rewrite Hdir. cbn. eexists _, _. split; [done|]. split; cbn; [|done].
    intros m Hm. by rewrite !lookup_alter_ne, Hino. }
  cbn. eexists _, _. split; [done|]. split; cbn; [intros m Hm; by rewrite !lookup_alter_ne, Hino|].
  rewrite Hfs. cbn. split; [done|]. by rewrite !lookup_alter_eq, lookup_insert_eq.
Qed.

(** What the relay reads of its key when it starts, where nothing fails. *)
Definition startReads (keys : KeyLib PrivateKey) (path : string) (fs : Fs) : result PrivateKey :=
  match readPrivateKeyRSA keys path (mkFsWorld fs 0 (λ _ fs, fs) (λ _, None) Z.of_nat (λ _, "") []) with
  | (_, Done r) => r | _ => Err errIO end.
Lemma startReads_file keys path fs n encoded durable : fs_dir fs !! resolve path = Some n →
  fs_inodes fs !! n = Some (mkInode RegularFile 384 0 0 encoded durable) →
  startReads keys path fs = match pemDecode keys encoded with
    | None => Err (errorsNew "ACTOR_PEM IS INVALID. FAILED TO READ") | Some der => parsePKCS1PrivateKey keys der end.
Proof.
  intros Hd Hi. unfold startReads, readPrivateKeyRSA, os_ReadFile. unfold bindErr, mbind, M_bind, syscall, syscallP. cbn [fw_others fw_fails fw_fs fw_calls].
  cbn [followLinks]. unfold lookupName. rewrite Hd, Hi. cbn [mbind result_bind i_kind]. rewrite decide_False by done.
  cbn [mbind result_bind i_kind]. rewrite decide_True by done. cbn. by destruct (pemDecode keys encoded).
Qed.

(** What generating leaves, by the outcome of the call. *)
Definition generated (keys : KeyLib PrivateKey) (path : string) (bits : Z) (f : FsWorld) (end_ : FsWorld * outcome (result unit)) : Prop :=
  ∃ f' r log, end_ = (f', Done r) ∧ fw_log f' = fw_log f ++ log
  ∧ (is_Some (fs_dir (fw_fs f) !! resolve path) → is_ok r = false ∧ fw_fs f' = fw_fs f ∧ Forall (λ fs, fs = fw_fs f) log)
  ∧ (fs_dir (fw_fs f) !! resolve path = None → match r with
     | Err _ => fs_dir (fw_fs f') = fs_dir (fw_fs f)
     | Ok _ => ∃ key n, 2048 ≤ bits ∧ rsaGenerateKey bits = Ok key
         ∧ fs_dir (fw_fs f') = <[resolve path := n]> (fs_dir (fw_fs f))
         ∧ fs_inodes (fw_fs f') !! n = Some (mkInode RegularFile 384 0 0 (encodeKey key) (Some (encodeKey key)))
         ∧ startReads keys path (fw_fs f') = Ok key
     end)
  ∧ ∀ m, is_Some (fs_inodes (fw_fs f) !! m) → fs_inodes (fw_fs f') !! m = fs_inodes (fw_fs f) !! m.
Lemma generated_same keys path bits f f' e log : fw_fs f' = fw_fs f → fw_log f' = fw_log f ++ log →
  Forall (λ fs, fs = fw_fs f) log → generated keys path bits f (f', Done (Err e)).
Proof.
  intros Hf Hl Hall. exists f', (Err e), log. split; [done|]. split; [done|]. rewrite Hf. by split_and!.
Qed.
Lemma generated_none keys path bits f e : generated keys path bits f (f, Done (Err e)).
Proof. apply generated_same with []; [done|by rewrite app_nil_r|done]. Qed.

(** The log only grows. *)
Definition logs {A} (m : Mf A) : Prop := ∀ f, ∃ log, fw_log (m f).1 = fw_log f ++ log.
Lemma log_grows {A} (m : Mf A) f f' o : logs m → m f = (f', o) → ∃ log, fw_log f' = fw_log f ++ log.
Proof. intros Hm E. destruct (Hm f) as [log Hl]. rewrite E in Hl. by exists log. Qed.
Lemma logs_ret {A} (a : A) : logs (mret a).
Proof. intros f. exists []. by rewrite app_nil_r. Qed.
Lemma logs_bind {A B} (m : Mf A) (g : A → Mf B) : logs m → (∀ a, logs (g a)) → logs (m ≫= g).
Proof.
  intros Hm Hg f. unfold mbind, M_bind. destruct (Hm f) as [l1 E1]. destruct (m f) as [f1 [a|msg]]; [|by exists l1].
  destruct (Hg a f1) as [l2 E2]. exists (l1 ++ l2). cbn in E1. by rewrite E2, E1, app_assoc.
Qed.
Lemma logs_syscallP {A} partial (op : Fs → Fs * result A) : logs (syscallP partial op).
Proof. intros f. unfold syscallP. destruct (fw_fails f _); [|destruct (op _)]; by eexists [_]. Qed.
Lemma finishKey_logs path n encoded : logs (finishKey path n encoded).
Proof.
  unfold finishKey, writeKey, writeAll, file_Sync, file_Close, os_Remove, syscall.
  repeat first [apply logs_bind; [|intros ?] | apply logs_syscallP | apply logs_ret | case_match].
Qed.

(** C26: Generating the actor key, with at most one system call failing and no other process at
    work.  An existing file of that name is never touched, at no instant.  Otherwise success
    means a key of at least 2048 bits in a new file with mode 0600, its whole text synced, which
    is the key the relay reads at its next start; failure leaves the names as they were.  No
    other name and no other file changes. *)
Theorem generated_key_is_complete_or_absent (keys : KeyLib PrivateKey) (path : string) (bits : Z) (f : FsWorld)
    (Hu : undisturbed f) (Hone : oneFailure f)
    (Hcodec : ∀ key, ∃ der, pemDecode keys (encodeKey key) = Some der ∧ parsePKCS1PrivateKey keys der = Ok key) :
  let k := resolve path in
  ∃ f' r log, GenerateActorKey rsaGenerateKey encodeKey path bits f = (f', Done r)
  ∧ fw_log f' = fw_log f ++ log
  ∧ (is_Some (fs_dir (fw_fs f) !! k) → is_ok r = false ∧ fw_fs f' = fw_fs f ∧ Forall (λ fs, fs = fw_fs f) log)
  ∧ (fs_dir (fw_fs f) !! k = None → match r with
     | Err _ => fs_dir (fw_fs f') = fs_dir (fw_fs f)
     | Ok _ => ∃ key n, 2048 ≤ bits ∧ rsaGenerateKey bits = Ok key ∧ fs_dir (fw_fs f') = <[k := n]> (fs_dir (fw_fs f))
         ∧ fs_inodes (fw_fs f') !! n = Some (mkInode RegularFile 384 0 0 (encodeKey key) (Some (encodeKey key)))
         ∧ startReads keys path (fw_fs f') = Ok key
     end)
  ∧ ∀ m, is_Some (fs_inodes (fw_fs f) !! m) → fs_inodes (fw_fs f') !! m = fs_inodes (fw_fs f) !! m.
Proof.
  change (let k := resolve path in generated keys path bits f (GenerateActorKey rsaGenerateKey encodeKey path bits f)).
  cbv zeta. unfold GenerateActorKey.
  destruct (Z.ltb_spec bits 2048); [apply generated_none|]. destruct (path =s ""); [apply generated_none|].
  destruct (rsaGenerateKey bits) as [key|e] eqn:Ek; [|apply generated_none].
  set (fs := fw_fs f). unfold os_MkdirAll, os_CreateExclusive, syscall. unfold mbind at 1, M_bind at 1. rewrite syscallP_after by done.
  destruct (fw_fails f (fw_calls f)) as [b|] eqn:E0; [apply generated_same with [fs]; by repeat constructor|].
  cbn [fst snd]. unfold mbind at 1, M_bind at 1. rewrite syscallP_after by done. cbn [after fw_fails fw_calls fw_fs fw_log]. fold fs.
  destruct (fw_fails f (Datatypes.S (fw_calls f))) as [b|] eqn:E1.
  { apply generated_same with [fs; fs]; [done|cbn; by rewrite <- app_assoc|by repeat constructor]. }
  destruct (fs_dir fs !! resolve path) as [n0|] eqn:Ed; cbn [fst snd].
  { apply generated_same with [fs; fs]; [done|cbn; by rewrite <- app_assoc|by repeat constructor]. }
  match goal with |- generated _ _ _ _ (_ ?w) => set (f2 := w) end.
  destruct (finishKey_run path (freshInode fs) (encodeKey key) fs f2) as (f' & r & E & [Hino Hr]); [done|done|done|].
  unfold finishKey in E. rewrite E.
  destruct (log_grows (finishKey path (freshInode fs) (encodeKey key)) f2 f' (Done r)) as [log Hlog]; [apply finishKey_logs|done|].
  destruct (freshInode_fresh fs) as [Hfr _].
  eexists f', r, ([fs; fw_fs f2] ++ log). split; [done|]. split; [rewrite Hlog; cbn; by rewrite <- !app_assoc|].
  split; [intros [x Hx]; unfold fs in Ed; congruence|]. split.
  - intros _. destruct r as [[]|e]; [|by rewrite Hr, delete_id]. destruct Hr as [Hd Hi].
    exists key, (freshInode fs). split; [lia|]. split; [done|]. split; [done|]. split; [done|].
    destruct (Hcodec key) as (der & Hp & Hk). erewrite startReads_file; [by rewrite Hp|by rewrite Hd, lookup_insert_eq|done].
  - intros m [i Hm]. apply Hino. intros ->. fold fs in Hm. congruence.
Qed.
End spec.

(** ** Example: the sync fails *)

Definition emptyDisk : Fs := mkFs ∅ ∅ ∅ [] ∅.
Definition failingDisk (at_ : nat) : FsWorld :=
  mkFsWorld emptyDisk 0 (λ _ fs, fs) (λ n, if (n =? at_)%nat then Some 0%nat else None) Z.of_nat (λ _, "") [].
Definition plainKeys : KeyLib string := mkKeyLib string (λ s, Some s) (λ s, Ok s).
Definition demoGenerate (at_ : nat) := GenerateActorKey (λ _, Ok "rsa") id "/var/lib/relay/actor.pem" 3072 (failingDisk at_).
Example failing_calls_leave_nothing :
  map (λ i, match demoGenerate i with (f, Done r) => (is_ok r, size (fs_dir (fw_fs f))) | _ => (false, 99%nat) end) (seq 0 6)
  = [(false, 0); (false, 0); (false, 0); (false, 0); (false, 0); (true, 1)]%nat.
Proof. vm_compute. reflexivity. Qed.
Lemma generated_key_is_complete_or_absent_witness : ∃ f' r log, demoGenerate 3 = (f', Done r) ∧ fw_log f' = log
  ∧ match r with Err _ => fs_dir (fw_fs f') = ∅ | Ok _ => True end.
Proof.
  destruct (generated_key_is_complete_or_absent (λ _, Ok "rsa") id plainKeys "/var/lib/relay/actor.pem" 3072 (failingDisk 3))
    as (f' & r & log & E & Hl & _ & Hn & _).
  - intros n fs. reflexivity.
  - intros i j. cbn. destruct (Nat.eqb_spec i 3), (Nat.eqb_spec j 3); congruence.
  - intros key. exists key. split; reflexivity.
  - exists f', r, log. split; [exact E|]. split; [exact Hl|]. specialize (Hn eq_refl). destruct r; [exact I|exact Hn].
Defined.
