(* ===== verification/ProbeNegotiation.v ===== *)
(** * The signature-negotiation probe (contrib/ops/signature-negotiation-probe)

    A program that drives the relay's own signer against three local servers: one that
    serves only requests with a legacy signature, one that refuses everything without
    naming a reason, and an inbox that refuses RFC 9421.  The servers are functions of a
    request; what they counted is read off the requests that were sent.  A failed check
    is a panic of the program.  The program around this is [NegotiationRun]. *)

From S2P Require Import Prelude GoStrings GoUrl GoTime Redis World Negotiation Signer HttpClient ActivityModel DoGet.

Record report := mkReport {
  Classification : string; FetchProfiles : list string; GenericFailureRequests : Z; UnknownDeliveryProfile : string;
  ObservedDeliveryProfile : string; RejectedDeliveryRequests : Z; FutureDeliveryProfile : string;
  DeliveryFallbackObserved : bool }.

Definition profileFromRequest (request : httpRequest) : string :=
  if negb (headerGet (reqHeader request) "Signature-Input" =s "") then ProfileRFC9421 else ProfileLegacy.

(** ** The servers *)

(** [http.Error]. *)
Definition plainError (header : Header) (status : Z) (statusText message : string) : httpResponse :=
  mkHttpResponse status statusText
    (headerSet (headerSet header "Content-Type" "text/plain; charset=utf-8") "X-Content-Type-Options" "nosniff")
    (message +:+ String (chr 10) "") None.
Definition signatureChallenge : Header :=
  headerSet ∅ "Www-Authenticate" ("Signature realm=" +:+ ofBytes (dquote :: bytes "activitypub" ++ [dquote])).
Definition fetchHandler (request : httpRequest) : httpResponse :=
  if profileFromRequest request =s ProfileRFC9421 then plainError signatureChallenge 401 "401 Unauthorized" "legacy required"
  else mkHttpResponse 200 "200 OK" (headerSet ∅ "Content-Type" "application/activity+json")
         (ofBytes (bytes "{" ++ [dquote] ++ bytes "id" ++ [dquote] ++ bytes ":" ++ [dquote]
                   ++ bytes "https://remote.example/actor" ++ [dquote] ++ bytes "}")) None.
Definition genericHandler (request : httpRequest) : httpResponse :=
  plainError ∅ 401 "401 Unauthorized" "generic unauthorized".
Definition deliveryHandler (request : httpRequest) : httpResponse :=
  plainError signatureChallenge 401 "401 Unauthorized" "legacy required".

(** ** The program *)

Section probe.
Context {S : Type} `{Redis S} {PrivateKey Message : Type}.
Abbreviation Mw := (M (World S)).
Variable httpdate : Time → string.
Variable legacySign : PrivateKey → string → list string → string → outRequest → result outRequest.
Variable rfcSign : PrivateKey → string → list string → outRequest → result Message.
Variable rfcInclude : Message → outRequest → result outRequest.
Variable unmarshal : list string → result sfvDictionary.
Variable marshalDigest : list ascii → result string.
Variable sensitive : URL → URL → bool.
(** The URLs of the servers. *)
Variables fetchURL genericURL deliveryURL : string.

(** [if err != nil { panic(err) }]. *)
Definition must {A} (m : Mw (result A)) : Mw A :=
  r ← m; match r with Ok a => mret a | Err e => panic (err_text e) end.

Definition probeKeyID : string := "https://relay.example/actor#main-key".
Definition newProbeSigner (prefix : string) (privateKey : PrivateKey)
    : Mw (ConfiguredSigner (S := S) (PrivateKey := PrivateKey)) :=
  let store := RedisDestinationCapabilityStore (NewRedisDestinationCapabilityStore prefix) in
  negotiator ← must (mret (NewDestinationNegotiator (mkNegOptions (Some store) 0 0 None)));
  must (mret (NewNegotiatingSigner probeKeyID (Some privateKey) ProfileDual (Some negotiator))).

(** The requests a server has received since [before]. *)
Definition received (base : string) (before : nat) : Mw (list httpRequest) :=
  w ← get; mret (List.filter (λ q, HasPrefix (reqURL q) base) (drop before (w_sentRequests w))).

Section signed.
Variable signer : ConfiguredSigner (S := S) (PrivateKey := PrivateKey).
Abbreviation doGET := (DoGET httpdate legacySign rfcSign rfcInclude unmarshal marshalDigest (Some signer)).
Definition probeGET (address : string) : Mw httpResponse :=
  u ← must (mret (requestURL address));
  '(response, _) ← must (doGET (Some (mkHttpClient None sensitive)) (Some (mkCtxRequest (newGET u ∅) None)));
  mret response.
Definition probeFetch : Mw unit :=
  response ← probeGET (fetchURL +:+ "/actor");
  if negb (StatusCode response =? 200) then panic ("fallback fetch status " +:+ itoa (StatusCode response)) else mret tt.
Definition probeGeneric : Mw unit := _ ← probeGET (genericURL +:+ "/actor"); mret tt.

Definition probePlan : Mw NegotiationPlan := must (signerPlan (Some signer) DestinationScopeDelivery (deliveryURL +:+ "/inbox")).
Definition quoted (s : string) : string := ofBytes (dquote :: bytes s ++ [dquote]).
Definition acceptSignature : string :=
  "activitypub=(" +:+ Join (map quoted rfc9421POSTComponents) " " +:+ ");created;keyid=" +:+ quoted probeKeyID
  +:+ ";alg=" +:+ quoted "rsa-v1_5-sha256" +:+ ";tag=" +:+ quoted "activitypub".
Definition probeAnnouncement : Mw unit :=
  must (ObserveResponse unmarshal (Some signer) DestinationScopeDelivery (deliveryURL +:+ "/inbox") ProfileLegacy 202
          (headerSet ∅ "Accept-Signature" acceptSignature)).
Definition probeBody : string :=
  ofBytes (bytes "{" ++ [dquote] ++ bytes "type" ++ [dquote] ++ bytes ":" ++ [dquote] ++ bytes "Announce" ++ [dquote] ++ bytes "}").
(** One delivery under a plan, and what its answer teaches. *)
Definition probeDelivery (plan : NegotiationPlan) : Mw unit :=
  u ← must (mret (requestURL (deliveryURL +:+ "/inbox")));
  let r := mkOut "POST" (Some u) (Host u) (headerSet ∅ "Content-Type" "application/activity+json") (Some probeBody) (len probeBody) in
  signed ← must (SignPOSTWithProfile httpdate legacySign rfcSign rfcInclude marshalDigest (Some signer) r probeBody (Primary plan));
  '(response, _) ← must (clientDo (mkHttpClient None sensitive) (mkCtxRequest signed tt));
  must (ObserveResponse unmarshal (Some signer) DestinationScopeDelivery (deliveryURL +:+ "/inbox") (Primary plan)
          (StatusCode response) (RespHeader response)).
End signed.

(** [fmt.Sprint] of a slice of strings. *)
Definition sprintStrings (l : list string) : string := "[" +:+ Join l " " +:+ "]".
Definition probeVerdict (r : report) : Mw report :=
  if negb (sprintStrings (FetchProfiles r) =s sprintStrings ["rfc9421"; "legacy"])
  then panic ("fetch profiles = " +:+ sprintStrings (FetchProfiles r))
  else if negb (GenericFailureRequests r =? 1) then panic ("generic failure requests = " +:+ itoa (GenericFailureRequests r))
  else if negb (UnknownDeliveryProfile r =s "legacy") then panic "unknown delivery did not select legacy"
  else if negb (ObservedDeliveryProfile r =s "rfc9421") then panic "Accept-Signature did not select RFC 9421"
  else if negb (RejectedDeliveryRequests r =? 1) then panic ("delivery request count = " +:+ itoa (RejectedDeliveryRequests r))
  else if negb (FutureDeliveryProfile r =s "legacy") then panic "explicit rejection did not select future legacy"
  else if DeliveryFallbackObserved r then panic "delivery fallback was observed"
  else mret (mkReport "signature_negotiation_runtime_pass" (FetchProfiles r) (GenericFailureRequests r)
               (UnknownDeliveryProfile r) (ObservedDeliveryProfile r) (RejectedDeliveryRequests r) (FutureDeliveryProfile r)
               (DeliveryFallbackObserved r)).

(** The part with the three servers up: plans, one delivery, and the verdict on what the servers received. *)
Definition probeDeliveries (signer : ConfiguredSigner (S := S) (PrivateKey := PrivateKey)) (before : nat) : Mw report :=
  unknownPlan ← probePlan signer;
  _ ← probeAnnouncement signer;
  modernPlan ← probePlan signer;
  _ ← probeDelivery signer modernPlan;
  futurePlan ← probePlan signer;
  fetches ← received fetchURL before;
  generics ← received genericURL before;
  deliveries ← received deliveryURL before;
  probeVerdict (mkReport "signature_negotiation_runtime_fail" (map profileFromRequest fetches) (Z.of_nat (length generics))
    (Primary unknownPlan) (Primary modernPlan) (Z.of_nat (length deliveries)) (Primary futurePlan)
    (HasFallback unknownPlan || HasFallback futurePlan)).
(** From the Redis connection to the verdict; [prefix] is the key prefix with the time of the start. *)
Definition negotiationProbe (prefix : string) (privateKey : PrivateKey) : Mw report :=
  w0 ← get;
  let before := length (w_sentRequests w0) in
  signer ← newProbeSigner prefix privateKey;
  _ ← probeFetch signer;
  _ ← probeGeneric signer;
  probeDeliveries signer before.
End probe.
