(* ===== verification/ProbeInbound.v ===== *)
(** * The inbound RFC 9421 probe (contrib/ops/rfc9421inbound)

    A program that starts a relay process and posts four requests to its inbox: a signed
    activity, its replay, a second activity with a changed body under the signature of
    the original, and that original.  The relay behind the TLS proxy is the parameter
    [post]; the origin server, which the relay asks for the actor, is a function of a
    request, and what it counted is read off the requests that were sent.  The
    program around this, with its container and its process, is [InboundRun]. *)

From S2P Require Import Prelude GoStrings GoUrl GoTime Json Redis World Negotiation Signer HttpClient ActivityModel Observability Rfc9421 StatusPage.

Record report := mkReport {
  Classification : string; ValidStatus : Z; ReplayStatus : Z; TamperedStatus : Z; ValidAfterTamperStatus : Z;
  SignedActorGETs : Z; InvalidActorGETs : Z; NonceMarkerCount : Z; Metrics : gmap string string }.

(** The configuration file of the relay. *)
Definition line (s : string) : string := s +:+ String (chr 10) "".
Definition relayConfigFile (keyPath : string) (redisPort : Z) (apiAddress publicAuthority observabilityAddress : string) : string :=
  line ("ACTOR_PEM: " +:+ keyPath) +:+ line ("REDIS_URL: redis://127.0.0.1:" +:+ itoa redisPort)
  +:+ line ("RELAY_BIND: " +:+ apiAddress) +:+ line ("OBSERVABILITY_BIND: " +:+ observabilityAddress)
  +:+ line ("RELAY_DOMAIN: " +:+ publicAuthority) +:+ line "RELAY_SERVICENAME: RFC 9421 inbound probe"
  +:+ line "JOB_CONCURRENCY: 1" +:+ line "MAX_ACTIVITY_BYTES: 1048576" +:+ line "MAX_FANOUT_TARGETS: 100"
  +:+ line "MAX_QUEUE_JOBS: 1000".

(** ** The origin server *)

Section origin.
Context {PublicKey : Type}.
(** go-fed/httpsig: the key ID of a legacy signature, and its verification. *)
Variable legacyVerifier : httpRequest → result (string * (PublicKey → result unit)).
Variable host : httpRequest → string.

Definition verifyLegacyGET (request : httpRequest) (keyID : string) (publicKey : PublicKey) : bool :=
  let request := mkHttpRequest (reqMethod request) (reqURL request) (headerSet (reqHeader request) "Host" (host request))
                   (reqBody request) in
  match legacyVerifier request with
  | Err _ => false
  | Ok (presented, verify) => (presented =s keyID) && is_ok (verify publicKey)
  end.

Definition originDocument (originActor originAuthority originPublicKey : string) : json :=
  let inbox := JString ("https://" +:+ originAuthority +:+ "/inbox") in
  JObject [("@context", jsonStrings ["https://www.w3.org/ns/activitystreams"; "https://w3id.org/security/v1"]);
           ("endpoints", JObject [("sharedInbox", inbox)]); ("id", JString originActor); ("inbox", inbox);
           ("publicKey", JObject [("id", JString (originActor +:+ "#main-key")); ("owner", JString originActor);
                                  ("publicKeyPem", JString originPublicKey)]);
           ("type", JString "Application")].
Definition requestPath (request : httpRequest) : string :=
  match url_Parse (reqURL request) with Ok u => Path u | Err _ => "" end.
Definition originHandler (originActor originAuthority originPublicKey : string) (request : httpRequest) : httpResponse :=
  if negb (requestPath request =s "/actor")
  then mkHttpResponse 404 "404 Not Found" (headerSet ∅ "Content-Type" "text/plain; charset=utf-8") (line "404 page not found") None
  else mkHttpResponse 200 "200 OK" (headerSet ∅ "Content-Type" "application/activity+json")
         (line (jsonMarshal (originDocument originActor originAuthority originPublicKey))) None.
(** Of the requests for the actor: those with the relay's legacy signature, and the others. *)
Definition actorGETs (relayKeyID : string) (relayKey : PublicKey) (requests : list httpRequest) : Z * Z :=
  let asked := List.filter (λ q, requestPath q =s "/actor") requests in
  let signed := List.filter (λ q, verifyLegacyGET q relayKeyID relayKey) asked in
  (Z.of_nat (length signed), Z.of_nat (length asked) - Z.of_nat (length signed)).
End origin.

(** ** Requests *)

Section probe.
Context {S : Type} `{Redis S} {PrivateKey Message : Type}.
Abbreviation Mw := (M (World S)).
Variable httpdate : Time → string.
Variable legacySign : PrivateKey → string → list string → string → outRequest → result outRequest.
Variable rfcSign : PrivateKey → string → list string → outRequest → result Message.
Variable rfcInclude : Message → outRequest → result outRequest.
Variable marshalDigest : list ascii → result string.

Definition likeActivity (actorURL id : string) : json :=
  JObject [("@context", JString "https://www.w3.org/ns/activitystreams"); ("actor", JString actorURL);
           ("id", JString (actorURL +:+ "/activities/" +:+ id)); ("object", JString "https://example.invalid/object");
           ("to", jsonStrings ["https://www.w3.org/ns/activitystreams#Public"]); ("type", JString "Like")].
Definition newPOST (address body : string) (header : Header) : result outRequest :=
  u ← requestURL address; Ok (mkOut "POST" (Some u) (Host u) header (Some body) (len body)).
Definition signedActivityRequest (inboxURL actorURL : string) (key : PrivateKey) (id : string)
    : Mw (result (outRequest * string)) :=
  let body := jsonMarshal (likeActivity actorURL id) in
  request ←! mret (newPOST inboxURL body (headerSet ∅ "Content-Type" "application/activity+json"));
  signer ←! mret (NewSigner (actorURL +:+ "#main-key") (Some key));
  signed ←! signerSignPOSTWithProfile httpdate legacySign rfcSign rfcInclude marshalDigest signer request body ProfileRFC9421;
  mret (Ok (signed, body)).
Definition cloneSignedRequest (request : outRequest) (body : string) : result outRequest :=
  cloned ← newPOST (default "" (URL_String <$> outURL request)) body ∅;
  Ok (mkOut (outMethod request) (outURL cloned) (outHost request) (outHeader request) (Some body) (len body)).
Definition member (name value : string) : string :=
  ofBytes (dquote :: bytes name ++ [dquote] ++ bytes ":" ++ [dquote] ++ bytes value ++ [dquote]).
Definition tamper (body : string) : string :=
  replaceFirst body (member "type" "Like") (member "type" "Create").

(** ** The run *)

(** The relay behind the proxy: the status it answers. *)
Variable post : outRequest → Mw (result Z).
Definition KEYS (prefix : string) : Rcmd (list string) := λ now d,
  (d, Ok (omap (λ e, if HasPrefix e.1 prefix && live now e.2 then Some e.1 else None) (map_to_list (db_keys d)))).

Definition passing (r : report) : bool :=
  let metric k := default "" (Metrics r !! k) in
  (ValidStatus r =? 202) && (ReplayStatus r =? 400) && (TamperedStatus r =? 400) && (ValidAfterTamperStatus r =? 202)
  && negb (SignedActorGETs r <? 2) && (InvalidActorGETs r =? 0) && (NonceMarkerCount r =? 2)
  && (metric "http_signature_verifications_total|rfc9421|success|accepted" =s "2")
  && (metric "http_signature_verifications_total|rfc9421|failure|replay" =s "1")
  && (metric "http_signature_verifications_total|rfc9421|failure|digest" =s "1").
Definition classify (r : report) : report :=
  mkReport (if passing r then "rfc9421_inbound_runtime_pass" else "invariant_failure") (ValidStatus r) (ReplayStatus r)
    (TamperedStatus r) (ValidAfterTamperStatus r) (SignedActorGETs r) (InvalidActorGETs r) (NonceMarkerCount r) (Metrics r).

(** The four posts. *)
Definition fourPosts (inboxURL originActor : string) (originKey : PrivateKey) : Mw (result (Z * Z * Z * Z)) :=
  '(first, firstBody) ←! signedActivityRequest inboxURL originActor originKey "valid-one";
  validStatus ←! post first;
  replay ←! mret (cloneSignedRequest first firstBody);
  replayStatus ←! post replay;
  '(second, secondBody) ←! signedActivityRequest inboxURL originActor originKey "valid-two";
  tampered ←! mret (cloneSignedRequest second (tamper secondBody));
  tamperedStatus ←! post tampered;
  validAfterTamper ←! mret (cloneSignedRequest second secondBody);
  validAfterTamperStatus ←! post validAfterTamper;
  mret (Ok (validStatus, replayStatus, tamperedStatus, validAfterTamperStatus)).
(** From the ready relay to the report; [gets] counts the requests the origin received. *)
Definition inboundProbe (inboxURL originActor : string) (originKey : PrivateKey) (gets : list httpRequest → Z * Z)
    : Mw (result report) :=
  w0 ← get;
  '(validStatus, replayStatus, tamperedStatus, afterTamperStatus) ←! fourPosts inboxURL originActor originKey;
  w1 ← get;
  let '(signed, invalid) := gets (drop (length (w_sentRequests w0)) (w_sentRequests w1)) in
  nonceKeys ←! redis (KEYS "relay:http-signature:nonce:");
  metrics ←! redis (HGETALL "relay:metrics:operational");
  mret (Ok (classify (mkReport "infrastructure_failure" validStatus replayStatus tamperedStatus afterTamperStatus
                        signed invalid (Z.of_nat (length nonceKeys)) metrics))).
End probe.
