(* ===== verification/ProbeExamples.v ===== *)
(** * The probes, run on the model

    The two signature probes against the modelled relay, over concrete libraries.  A
    signature here is the text it signs, marked with the key. *)

From S2P Require Import Prelude GoStrings GoUrl GoTime Json Redis World RelayState Negotiation NegotiationSpec Signer HttpClient.
From S2P Require Import ActivityModel DoGet DoGetSpec Rfc9421 Queue Decode Inbox Deliver RelayConfig Startup StatusPage ProbeNegotiation ProbeInbound.

(** ** Signature negotiation *)

Definition threeServers (n : nat) (q : httpRequest) : result httpResponse :=
  if HasPrefix (reqURL q) "http://127.0.0.1:41001" then Ok (fetchHandler q)
  else if HasPrefix (reqURL q) "http://127.0.0.1:41002" then Ok (genericHandler q)
  else if HasPrefix (reqURL q) "http://127.0.0.1:41003" then Ok (deliveryHandler q)
  else Err (errorsNew "connection refused").
(** Readings of the clock are 3 ms apart. *)
Definition serversWorld (net : nat → httpRequest → result httpResponse) : World Calm :=
  let w := demoNegWorld emptyDb in
  mkWorld (w_redis w) (w_relay w) (λ n, demoTime + Z.of_nat n * 3 * Millisecond) 0 (w_uuid w) 0 (w_broker w) 0 []
    net 0 [] [] ∅.
Definition readAccept (l : list string) : result sfvDictionary :=
  if decide (l = [acceptSignature]) then
    Ok [("activitypub", SfvInnerList (map (λ c, mkSfvItem (SfvString c) None) rfc9421POSTComponents)
           (Some [("created", SfvBool true); ("keyid", SfvString probeKeyID); ("alg", SfvString "rsa-v1_5-sha256");
                  ("tag", SfvString "activitypub")]))]
  else Err (errorsNew "unexpected structured field").
(** The relay's signer passes the probe. *)
Example negotiation_probe_passes :
  (negotiationProbe (λ _, "date") markLegacy (λ _ _ _ _, Ok tt) markInclude readAccept (λ _, Ok "") (λ _ _, false)
     "http://127.0.0.1:41001" "http://127.0.0.1:41002" "http://127.0.0.1:41003" "probe:" tt (serversWorld threeServers)).2
  = Done (ProbeNegotiation.mkReport "signature_negotiation_runtime_pass" ["rfc9421"; "legacy"] 1 "legacy" "rfc9421" 1 "legacy" false).
Proof. vm_compute. reflexivity. Qed.

(** ** Inbound RFC 9421 *)

Definition relayAuthority : string := "127.0.0.2:42001".
Definition originAuthority : string := "127.0.0.3:42002".
Definition relayActorURL : string := "https://" +:+ relayAuthority +:+ "/actor".
Definition originActorURL : string := "https://" +:+ originAuthority +:+ "/actor".

(** Keys are names; a date is its nanoseconds. *)
Definition textDate (t : Time) : string := itoa t.
Definition signedText (method authority : string) (h : Header) : string :=
  Join [method; authority; headerGet h "Content-Digest"; headerGet h "Content-Type"; headerGet h "Date"] "|".
Definition textLegacySign (key id : string) (headers : list string) (body : string) (r : outRequest) : result outRequest :=
  Ok (withHeader (headerSet (outHeader r) "Signature" ("legacy|" +:+ id +:+ "|" +:+ key)) r).
Definition textRfcSign (key id : string) (components : list string) (r : outRequest) : result (string * string) :=
  let h := outHeader r in
  Ok (Join [id; Sha256.sha256Hex (headerGet h "Content-Digest"); headerGet h "Date"] "|",
      key +:+ ":" +:+ signedText (outMethod r) (outHost r) h).
Definition textInclude (m : string * string) (r : outRequest) : result outRequest :=
  Ok (withHeader (headerSet (headerSet (outHeader r) "Signature-Input" m.1) "Signature" m.2) r).
Definition textUnmarshal (r : inRequest) : result (list (string * signatureMessage)) :=
  match Split (headerGet (inHeader r) "Signature-Input") "|" with
  | [id; nonce; date] =>
      match parseInt 64 date with
      | Some t => Ok [("activitypub", mkMessage (mkInput rfc9421POSTComponents id "rsa-v1_5-sha256" nonce t zeroTime)
                                        (headerGet (inHeader r) "Signature"))]
      | None => Err (errorsNew "malformed created parameter")
      end
  | _ => Err (errorsNew "malformed Signature-Input")
  end.
Definition textSigLib : SigLib string string :=
  mkSigLib textUnmarshal
    (λ l _, match l with (_, m) :: _ => Ok m | [] => Err (errorsNew "not found") end)
    (λ _ r, Ok (signedText (inMethod r) (inHost r) (inHeader r))) (λ base _, Ok base)
    (λ key text signature, if signature =s key +:+ ":" +:+ text then Ok tt else Err (errorsNew "verification error"))
    (λ values, match values with
               | [v] => Ok [("sha-256", SfvItemMember (mkSfvItem (SfvBytes (bytes v)) None))]
               | _ => Err (errorsNew "not one digest") end).
Definition textLibraries : Libraries (PrivateKey := string) (Message := string * string) :=
  mkLibraries textDate textLegacySign textRfcSign textInclude (λ _, Err (errorsNew "no dictionary")) (λ l, Ok (ofBytes l)) (λ _ _, false) id.
(** What go-fed/httpsig makes of a request at the origin. *)
Definition readLegacy (q : httpRequest) : result (string * (string → result unit)) :=
  match Split (headerGet (reqHeader q) "Signature") "|" with
  | ["legacy"; id; key] => Ok (id, λ public, if public =s key then Ok tt else Err (errorsNew "verification error"))
  | _ => Err (errorsNew "no legacy signature")
  end.

(** The relay started with the probe's configuration file: what the file sets, and the profile
    that a missing OUTBOUND_SIGNATURE_PROFILE, or a given one, stands for. *)
Definition probeViper (profile : string) : Viper :=
  mkViper (λ _, None)
    (λ k, if k =s "RELAY_DOMAIN" then relayAuthority else if k =s "OBSERVABILITY_BIND" then "127.0.0.1:42003"
          else if k =s "REDIS_URL" then "redis://127.0.0.1:42004" else if k =s "ACTOR_PEM" then "/tmp/probe/relay.pem"
          else if k =s "OUTBOUND_SIGNATURE_PROFILE" then profile else "")
    (λ k, if k =s "JOB_CONCURRENCY" then 1 else if k =s "MAX_ACTIVITY_BYTES" then 1048576
          else if k =s "MAX_FANOUT_TARGETS" then 100 else if k =s "MAX_QUEUE_JOBS" then 1000 else 0)
    (Ok []).
Definition probeDisk : FileSystem.FsWorld :=
  let k := FileSystem.resolve "/tmp/probe/relay.pem" in
  FileSystem.mkFsWorld (FileSystem.mkFs {[ 1%nat := FileSystem.mkInode FileSystem.RegularFile 384 0 0 "relay-key" None ]}
    {[ k := 1%nat ]} {[ k := 1%nat ]} [] ∅) 0 (λ _ fs, fs) (λ _, None) Z.of_nat (λ _, "") [].
Definition probeConfig (profile : string) : result (RelayConfig Calm string) :=
  match (NewRelayConfig (probeViper profile) (DirectoryConfig.mkKeyLib string (λ s, Some s) (λ s, Ok s))
           (λ _, Ok (mkRedisOptions "tcp" "127.0.0.1:42004" "" "" 0 false)) (Ok tt) probeDisk).2 with
  | Done r => r
  | Panic m => Err (errorsNew m)
  end.
Definition originServer (n : nat) (q : httpRequest) : result httpResponse :=
  Ok (originHandler originActorURL originAuthority "origin-key" q).
(** The inbox of the started process, for a request that came through the proxy. *)
Definition relayInbox (process : apiProcess (S := Calm) (PrivateKey := string) (PublicKey := string)) (r : outRequest)
    : M (World Calm) (result Z) :=
  let g := apiGlobals process in
  let executor := Some (remoteExecutor textDate textLegacySign textRfcSign textInclude (λ _, Err (errorsNew "no dictionary"))
                          (λ l, Ok (ofBytes l)) (RemoteRequestSigner g) (λ _ _, false)) in
  let path := default "" (Path <$> outURL r) in
  let request := mkIn (outMethod r) (Some (mkURL "" "" None "" path "" false false "" "" "")) (outHost r) (outHeader r)
                   ((λ b, (b, None)) <$> outBody r) in
  answer ← handleInbox g mapCache executor "RFC 9421 inbound probe" "3.0" relayAuthority request
             (decodeActivity g (λ _, Err (errorsNew "not used")) (λ s, Ok (Some s)) textSigLib mapCache executor
                "RFC 9421 inbound probe" "3.0" relayAuthority (Some (apiVerifier process)));
  mret (Ok (rStatus answer)).
Definition runInbound (profile : string) : option report :=
  match probeConfig profile with
  | Err _ => None
  | Ok c =>
      match apiInitialize textLibraries (λ k, k) (λ s, Ok (Some s)) (λ _ _, false) (λ _, None) "3.0" [] c
              (serversWorld originServer) with
      | (w, Done (Ok process)) =>
          match (inboundProbe textDate textLegacySign textRfcSign textInclude (λ l, Ok (ofBytes l)) (relayInbox process)
                   ("https://" +:+ relayAuthority +:+ "/inbox") originActorURL "origin-key"
                   (actorGETs readLegacy (λ _, originAuthority) (relayActorURL +:+ "#main-key") "relay-key") w).2 with
          | Done (Ok r) => Some r
          | _ => None
          end
      | _ => None
      end
  end.
(** With the legacy profile the relay passes. *)
Example inbound_probe_passes_with_legacy :
  Classification <$> runInbound "legacy" = Some "rfc9421_inbound_runtime_pass".
Proof. vm_compute. reflexivity. Qed.
(** As the probe configures it the profile is dual, the relay asks for the actor with RFC 9421,
    and the origin counts both requests as invalid: every check of the inbox passes and the
    probe fails. *)
Example inbound_probe_fails_by_default :
  (λ r, (Classification r, (ValidStatus r, ReplayStatus r, TamperedStatus r, ValidAfterTamperStatus r), InvalidActorGETs r))
    <$> runInbound "" = Some ("invariant_failure", (202, 400, 400, 202), 2).
Proof. vm_compute. reflexivity. Qed.
