(* ===== verification/Harness.v ===== *)
(** * The machine of the operations probes

    What the probes of contrib/ops (fepmesh, rfc9421inbound and
    signature-negotiation-probe) do with the machine they run on: directories, files,
    listeners, servers, containers, Redis clients, processes, keys and certificates.
    Every call of the operating system or of a library is logged with its answer; the
    answers are arbitrary ([machine]), and a call takes any time.  [deferring] is Go's
    [defer].  What a run holds is read off its log ([held]), without reference to
    the code; [balance] counts a release as soon as it is asked for, and the two differ
    by the releases that failed ([held_balance]).

    Rules for computations that ask for the release of what they take, whatever their
    calls answer and wherever they panic; the loops that wait end. *)

From S2P Require Import Prelude GoStrings GoUrl GoTime Redis World HttpClient ActivityModel Startup Frame.

(** ** Paths *)

(** [path.Clean]: the elements kept so far, last first. *)
Definition cleanStep (rooted : bool) (kept : list string) (elem : string) : list string :=
  if (elem =s "") || (elem =s ".") then kept
  else if elem =s ".." then
    match kept with
    | last :: before => if last =s ".." then elem :: kept else before
    | [] => if rooted then [] else [elem]
    end
  else elem :: kept.
Definition path_Clean (path : string) : string :=
  let rooted := HasPrefix path "/" in
  let kept := Join (rev (foldl (cleanStep rooted) [] (Split path "/"))) "/" in
  if rooted then "/" +:+ kept else if kept =s "" then "." else kept.
(** [filepath.Join] of two elements. *)
Definition filepath_Join (dir name : string) : string :=
  if dir =s "" then (if name =s "" then "" else path_Clean name) else path_Clean (dir +:+ "/" +:+ name).
Example joined_paths : [filepath_Join "/var/evidence/" "relay.yml"; filepath_Join "a/../b" "./c"; filepath_Join ".." "x"; path_Clean "/../"]
  = ["/var/evidence/relay.yml"; "b/c"; "../x"; "/"].
Proof. vm_compute. reflexivity. Qed.

(** ** Flags *)

(** [flag.Parse] with two string flags: [-name value], [--name value], [-name=value] or
    [--name=value], up to the first argument that is no flag. *)
Inductive flagOutcome := FlagsParsed (values : gmap string string) | FlagsRefused (code : Z).
Fixpoint parseFlags (known : list string) (values : gmap string string) (args : list string) : flagOutcome :=
  match args with
  | [] => FlagsParsed values
  | arg :: args =>
      if (len arg <? 2) || negb (HasPrefix arg "-") || (arg =s "--") then FlagsParsed values
      else
        let name := TrimPrefix (TrimPrefix arg "-") "-" in
        if (name =s "") || HasPrefix name "-" || HasPrefix name "=" then FlagsRefused 2
        else
          let '(name, value, hasValue) := Cut name "=" in
          if negb (oneOf name known) then FlagsRefused (if oneOf name ["help"; "h"] then 0 else 2)
          else if hasValue : bool then parseFlags known (<[name := value]> values) args
          else match args with
          | [] => FlagsRefused 2
          | value :: args => parseFlags known (<[name := value]> values) args
          end
  end.

(** ** Calls *)

Inductive sysCall :=
  | MkdirAll (path : string) | MkdirTemp (pattern : string) | RemoveAll (path : string)
  | WriteFile (path : string) | OpenFile (path : string) | ReadFile (path : string) | CloseFile (path : string)
  | Listen (address : string) | CloseListener (address : string) | Serve (address : string) | CloseServer (address : string)
  | DockerRun (name : string) (port : Z) | DockerRm (name : string)
  | NewRedisClient (name address : string) | Ping (name : string) | CloseRedisClient (name : string)
  | RedisCommands (name : string) | HSet (name key : string) (fields : list (string * string))
  | WithCancel | Cancel
  | StartProcess (binary : string) (args env : list string) (logPath : string) | Kill (pid : Z) | Wait (pid : Z)
  | GenerateKey | CreateCertificate | HttpGet (url : string) | HttpSeed | Sleep (d : Duration) | Now | ReadProxies.
Record callRecord := mkCall { crCall : sysCall; crOk : bool; crNumber : Z; crText : string }.

(** What a run can hold. *)
Inductive resource :=
  | Directory (path : string) | OpenedFile (path : string) | Listener (address : string) | Server (address : string)
  | Container (name : string) | RedisClient (name : string) | Context | Process (pid : Z).
#[export] Instance resource_eq_dec : EqDecision resource.
Proof. solve_decision. Defined.
Definition acquires (c : callRecord) : option resource :=
  match crCall c with
  | MkdirAll path => Some (Directory path)
  | MkdirTemp _ => Some (Directory (crText c))
  | OpenFile path => Some (OpenedFile path)
  | Listen address => Some (Listener address)
  | Serve address => Some (Server address)
  | DockerRun name _ => Some (Container name)
  | NewRedisClient name _ => Some (RedisClient name)
  | WithCancel => Some Context
  | StartProcess _ _ _ _ => Some (Process (crNumber c))
  | _ => None
  end.
Definition releases (c : callRecord) : option resource :=
  match crCall c with
  | RemoveAll path => Some (Directory path)
  | CloseFile path => Some (OpenedFile path)
  | CloseListener address => Some (Listener address)
  | CloseServer address => Some (Server address)
  | DockerRm name => Some (Container name)
  | CloseRedisClient name => Some (RedisClient name)
  | Cancel => Some Context
  | Wait pid => Some (Process pid)
  | _ => None
  end.
(** How often a resource was taken, less how often its release was asked for. *)
Definition change (r : resource) (c : callRecord) : Z :=
  (if crOk c && bool_decide (acquires c = Some r) then 1 else 0) - (if bool_decide (releases c = Some r) then 1 else 0).
Fixpoint balance (r : resource) (log : list callRecord) : Z :=
  match log with
  | [] => 0
  | c :: log => change r c + balance r log
  end.
(** What is held of a resource after the calls of a log: successful takings less successful releases.  A
    [Wait] that returns an error (the process was killed) has reaped the process all the same. *)
Definition released (c : callRecord) : bool := match crCall c with Wait _ => true | _ => crOk c end.
Fixpoint held (r : resource) (log : list callRecord) : Z :=
  match log with
  | [] => 0
  | c :: log =>
      (if crOk c && bool_decide (acquires c = Some r) then 1 else 0)
      - (if released c && bool_decide (releases c = Some r) then 1 else 0) + held r log
  end.
(** The calls that were to release a resource and failed. *)
Definition failedReleases (r : resource) (log : list callRecord) : list callRecord :=
  List.filter (λ c, negb (released c) && bool_decide (releases c = Some r)) log.

(** The answers of the calls, by their place in the log. *)
Record machine := mkMachine {
  mFails : nat → option error; mNumber : nat → Z; mText : nat → string; mElapsed : nat → nat }.

(** What a file holds: text, or a value written as JSON. *)
Inductive fileContent (R : Type) := FileText (text : string) | FileReport (r : R) | FileMap (m : gmap string string).
Arguments FileText {R} text.
Arguments FileReport {R} r.
Arguments FileMap {R} m.
(** What was printed: a line, or the report as JSON. *)
Inductive shown (R : Type) := ShownLine (l : outputLine) | ShownReport (r : R).
Arguments ShownLine {R} l.
Arguments ShownReport {R} r.
(** The state of a run: log, clock, files written, output, report, and the processes of a set with
    their log files. *)
Record harness (R : Type) := mkHarness {
  hLog : list callRecord; hNow : Time; hFiles : gmap string (fileContent R); hOut : list (shown R); hReport : R;
  hProcs : list (Z * string) }.
Arguments mkHarness {R} _ _ _ _ _ _.
Arguments hLog {R} h.
Arguments hNow {R} h.
Arguments hFiles {R} h.
Arguments hOut {R} h.
Arguments hReport {R} h.
Arguments hProcs {R} h.

Section harness.
Context {R : Type}.
Abbreviation Mh := (M (harness R)).
Variable m : machine.

(** One call: its answer, and its place in the log. *)
Definition record (c : sysCall) (ok : bool) (h : harness R) : harness R :=
  let n := length (hLog h) in
  let slept := match c with Sleep d => Z.max 0 d | _ => 0 end in
  mkHarness (hLog h ++ [mkCall c ok (mNumber m n) (mText m n)]) (hNow h + Z.of_nat (mElapsed m n) + slept)
    (hFiles h) (hOut h) (hReport h) (hProcs h).
Definition callAt (c : sysCall) : Mh (nat * result unit) := λ h,
  let n := length (hLog h) in
  let failure := mFails m n in
  (record c (match failure with None => true | Some _ => false end) h,
   Done (n, match failure with None => Ok tt | Some e => Err e end)).
Definition call (c : sysCall) : Mh (result unit) := '(_, r) ← callAt c; mret r.
(** A call without an error, or with one that is dropped. *)
Definition attempt (c : sysCall) : Mh unit := _ ← callAt c; mret tt.
(** A call that cannot fail. *)
Definition sure (c : sysCall) : Mh nat := λ h, (record c true h, Done (length (hLog h))).
Definition clock : Mh Time := _ ← sure Now; h ← get; mret (hNow h).

Definition setReport (f : R → R) : Mh unit :=
  modify (λ h, mkHarness (hLog h) (hNow h) (hFiles h) (hOut h) (f (hReport h)) (hProcs h)).
Definition print (l : outputLine) : Mh unit :=
  modify (λ h, mkHarness (hLog h) (hNow h) (hFiles h) (hOut h ++ [ShownLine l]) (hReport h) (hProcs h)).
Definition printReport : Mh unit :=
  modify (λ h, mkHarness (hLog h) (hNow h) (hFiles h) (hOut h ++ [ShownReport (hReport h)]) (hReport h) (hProcs h)).
Definition putFile (path : string) (content : fileContent R) : Mh unit :=
  modify (λ h, mkHarness (hLog h) (hNow h) (<[path := content]> (hFiles h)) (hOut h) (hReport h) (hProcs h)).
(** [os.WriteFile]. *)
Definition writeFile (path : string) (content : fileContent R) : Mh (result unit) :=
  _ ←! call (WriteFile path); _ ← putFile path content; mret (Ok tt).

(** [os.RemoveAll]; its error is dropped. *)
Definition removeAll (path : string) : Mh unit :=
  removed ← call (RemoveAll path);
  match removed with
  | Err _ => mret tt
  | Ok _ => modify (λ h, mkHarness (hLog h) (hNow h) (filter (λ f, HasPrefix f.1 (path +:+ "/") = false) (hFiles h)) (hOut h) (hReport h)
                           (hProcs h))
  end.
(** [writeJSON] of the report. *)
Definition writeReport (path : string) : Mh (result unit) := h ← get; writeFile path (FileReport (hReport h)).

(** [defer cleanup()] before the rest of a function; a panic of the cleanup replaces the outcome. *)
Definition deferring {A} (cleanup : Mh unit) (rest : Mh A) : Mh A := λ h,
  let '(h1, o) := rest h in
  match cleanup h1 with
  | (h2, Done _) => (h2, o)
  | (h2, Panic msg) => (h2, Panic msg)
  end.

(** A computation in the world outside, as it is at this place of the log. *)
Definition inWorld {W A} (outside : nat → W) (c : sysCall) (f : M W A) : Mh A := λ h,
  (record c true h, (f (outside (length (hLog h)))).2).

(** A loop that runs until [ready] or the deadline, with a pause of 200 ms. *)
Fixpoint awaiting (rounds : nat) (ready : Mh (result bool)) (deadline : Time) : Mh (result bool) :=
  match rounds with
  | O => panic "a deadline that is never reached"
  | Datatypes.S rounds =>
      now ← clock;
      if negb (Before now deadline) then mret (Ok false)
      else
        ok ←! ready;
        if ok : bool then mret (Ok true) else _ ← sure (Sleep (200 * Millisecond)); awaiting rounds ready deadline
  end.
(** Rounds that are enough for a deadline. *)
Definition roundsFor (timeout : Duration) : nat := Datatypes.S (Z.to_nat (timeout / (200 * Millisecond))).
Definition awaitFor (timeout : Duration) (ready : Mh (result bool)) : Mh (result bool) :=
  now ← clock; awaiting (Datatypes.S (roundsFor timeout)) ready (now + timeout).

(** ** Ports and containers *)

(** [net.JoinHostPort] of an IPv4 address. *)
Definition JoinHostPort (ip port : string) : string := ip +:+ ":" +:+ port.
Definition freePort (ip : string) : Mh (result Z) :=
  let address := JoinHostPort ip "0" in
  '(n, opened) ← callAt (Listen address);
  match opened with
  | Err e => mret (Err e)
  | Ok _ => deferring (attempt (CloseListener address)) (mret (Ok (mNumber m n)))
  end.

Definition dockerRunArgs (name : string) (port : Z) : list string :=
  ["run"; "--detach"; "--rm"; "--name"; name; "--publish"; "127.0.0.1:" +:+ itoa port +:+ ":6379"; "redis:7-alpine"].
Definition runOutput (c : sysCall) (name : string) (args : list string) : Mh (result string) :=
  '(n, ran) ← callAt c;
  let output := TrimSpace (mText m n) in
  mret (match ran with
        | Ok _ => Ok output
        | Err e => Err (mkError (name +:+ " " +:+ Join args " " +:+ ": " +:+ err_text e +:+ ": " +:+ output) (err_is e))
        end).
(** [redisInstance.close]; [None] is the nil pointer. *)
Definition redisClose (instance : option string) : Mh unit :=
  match instance with
  | None => mret tt
  | Some name =>
      _ ← attempt (CloseRedisClient name);
      if negb (name =s "") then _ ← runOutput (DockerRm name) "docker" ["rm"; "-f"; name]; mret tt else mret tt
  end.
(** After the container is up: a client, and pings for thirty seconds. *)
Definition redisReady (name : string) (port : Z) (abandon : Mh unit) : Mh (result string) :=
  _ ← sure (NewRedisClient name ("127.0.0.1:" +:+ itoa port));
  ready ← awaitFor (30 * Second) (pinged ← call (Ping name); mret (Ok (is_ok pinged)));
  match ready with
  | Ok true => mret (Ok name)
  | _ => _ ← abandon; mret (Err (errorsNew "Redis did not become ready"))
  end.

(** ** Processes *)

Definition relayEnvironmentOf (caPath noProxy : string) : list string :=
  ["SSL_CERT_FILE=" +:+ caPath; "NO_PROXY=" +:+ noProxy; "no_proxy=" +:+ noProxy; "HTTP_PROXY="; "HTTPS_PROXY="; "ALL_PROXY=";
   "http_proxy="; "https_proxy="; "all_proxy="].
(** A relay with its output in a log file: its process ID.  The environment is that of the probe
    with these variables added. *)
Definition startRelayProcess (noProxy binary configPath mode caPath logPath : string) : Mh (result Z) :=
  _ ←! call (OpenFile logPath);
  '(n, started) ← callAt (StartProcess binary ["--config"; configPath; mode] (relayEnvironmentOf caPath noProxy) logPath);
  match started with
  | Err e => _ ← attempt (CloseFile logPath); mret (Err e)
  | Ok _ => mret (Ok (mNumber m n))
  end.

(** ** Keys, certificates and TLS servers *)

Context {PrivateKey PublicKey Certificate TlsCertificate : Type}.
Record certTemplate := mkTemplate {
  ctSerial : Z; ctCommonName : string; ctNotBefore : Time; ctNotAfter : Time; ctIsCA : bool; ctBasicConstraintsValid : bool;
  ctIPAddresses : list string; ctKeyUsage : list string; ctExtKeyUsage : list string }.
(** crypto/rsa, crypto/x509, crypto/tls and encoding/pem; a random result is taken by the place of
    the call. *)
Record CryptoLib := mkCrypto {
  rsaKey : nat → PrivateKey; publicOf : PrivateKey → PublicKey;
  certificateOf : certTemplate → Certificate;
  certificateDER : nat → Certificate → Certificate → PublicKey → PrivateKey → string;
  ParseCertificate : string → result Certificate;
  MarshalPKCS1PrivateKey : PrivateKey → string; MarshalPKIXPublicKey : PublicKey → result string;
  pemEncode : string → string → string; X509KeyPair : string → string → result TlsCertificate;
  certsFromPEM : string → bool }.
Variable lib : CryptoLib.

Definition generateRSAKey : Mh (result PrivateKey) :=
  '(n, made) ← callAt GenerateKey; mret (_ ← made; Ok (rsaKey lib n)).
Definition privateKeyPEM (key : PrivateKey) : string := pemEncode lib "RSA PRIVATE KEY" (MarshalPKCS1PrivateKey lib key).
Definition writePrivateKey (path : string) (key : PrivateKey) : Mh (result unit) :=
  writeFile path (FileText (privateKeyPEM key)).
Definition publicKeyPEM (key : PublicKey) : result string :=
  data ← MarshalPKIXPublicKey lib key; Ok (pemEncode lib "PUBLIC KEY" data).
Definition createCertificate (template parent : Certificate) (key : PublicKey) (signer : PrivateKey) : Mh (result string) :=
  '(n, made) ← callAt CreateCertificate; mret (_ ← made; Ok (certificateDER lib n template parent key signer)).
Definition generateCA (commonName : string) : Mh (result (Certificate * PrivateKey * string)) :=
  key ←! generateRSAKey;
  t ← clock;
  let now := t - Minute in
  let template := certificateOf lib (mkTemplate 1 commonName now (now + 24 * Hour) true true []
                                       ["CertSign"; "DigitalSignature"] []) in
  der ←! createCertificate template template (publicOf lib key) key;
  certificate ←! mret (ParseCertificate lib der);
  mret (Ok (certificate, key, pemEncode lib "CERTIFICATE" der)).
Definition generateLeaf (ca : Certificate) (caKey : PrivateKey) (ip : string) (serial : Z) : Mh (result TlsCertificate) :=
  key ←! generateRSAKey;
  t ← clock;
  let now := t - Minute in
  let template := certificateOf lib (mkTemplate serial ip now (now + 24 * Hour) false false [ip]
                                       ["DigitalSignature"; "KeyEncipherment"] ["ServerAuth"]) in
  der ←! createCertificate template ca (publicOf lib key) caKey;
  mret (X509KeyPair lib (pemEncode lib "CERTIFICATE" der) (privateKeyPEM key)).
(** A listener and the server that serves it; the handler runs concurrently and is not part of this
    computation. *)
Definition startTLSServer (address : string) (certificate : TlsCertificate) : Mh (result unit) :=
  _ ←! call (Listen address);
  _ ← sure (Serve address);
  mret (Ok tt).
Definition closeServer (address : string) : Mh unit :=
  _ ← attempt (CloseServer address); attempt (CloseListener address).
(** A reverse proxy in front of a backend. *)
Definition startProxy (publicAddress : string) (certificate : TlsCertificate) (backendAddress : string) : Mh (result unit) :=
  _ ←! mret (url_Parse ("http://" +:+ backendAddress));
  startTLSServer publicAddress certificate.
End harness.
Arguments CryptoLib : clear implicits.

(** ** Paths *)

Lemma string_app_assoc a b c : (a +:+ b) +:+ c = a +:+ b +:+ c.
Proof. induction a as [|x a IH]; [done|]. exact (f_equal (String x) IH). Qed.
(** A name that is one element of a path. *)
Definition plainName (n : string) : bool :=
  negb (oneOf n [""; "."; ".."]) && negb (existsb (λ a, bool_decide (a = "/"%char)) (bytes n)).
Lemma splitBytes_last c cur n : existsb (λ a, bool_decide (a = c)) n = false → splitBytes c cur n = [ofBytes (rev cur ++ n)].
Proof.
  revert cur. induction n as [|a n IH]; intros cur Hn; cbn in *; [by rewrite app_nil_r|].
  apply orb_false_iff in Hn as [Ha Hn]. apply bool_decide_eq_false in Ha. rewrite decide_False by done. rewrite IH by done.
  cbn. by rewrite <- app_assoc.
Qed.
Lemma splitBytes_name c cur l n : existsb (λ a, bool_decide (a = c)) n = false →
  splitBytes c cur (l ++ c :: n) = splitBytes c cur l ++ [ofBytes n].
Proof.
  intros Hn. revert cur. induction l as [|a l IH]; intros cur; cbn.
  - rewrite decide_True by done. by rewrite splitBytes_last.
  - case_decide; [by rewrite IH|apply IH].
Qed.
Lemma Join_snoc l sep : ∃ pre, ∀ n, Join (l ++ [n]) sep = pre +:+ n.
Proof.
  induction l as [|a l [pre IH]]; [by exists ""|]. exists (a +:+ sep +:+ pre). intros n. cbn [app].
  transitivity (a +:+ sep +:+ Join (l ++ [n]) sep); [by destruct l|]. rewrite IH. by rewrite !string_app_assoc.
Qed.
(** The names joined to one directory have a common prefix. *)
Lemma filepath_Join_name dir : dir ≠ "" → ∃ pre, ∀ n, plainName n = true → filepath_Join dir n = pre +:+ n.
Proof.
  intros Hd. set (rooted := HasPrefix dir "/"). destruct (Join_snoc (rev (foldl (cleanStep rooted) [] (Split dir "/"))) "/") as [pre Hpre].
  exists ((if rooted then "/" else "") +:+ pre). intros n Hn. apply andb_prop in Hn as [Hp Hs]. apply negb_true_iff in Hp, Hs.
  unfold filepath_Join. apply eqs_false in Hd as Hd'. rewrite Hd'. unfold path_Clean.
  assert (Hr : HasPrefix (dir +:+ "/" +:+ n) "/" = rooted).
  { destruct dir as [|a dir]; [done|]. unfold rooted, HasPrefix, cutPrefix.
    change (bytes (String a dir +:+ "/" +:+ n)) with (a :: bytes (dir +:+ "/" +:+ n)). change (bytes (String a dir)) with (a :: bytes dir).
    change (bytes "/") with ["/"%char]. cbn [prefixBytes]. by case_decide. }
  assert (Hsp : Split (dir +:+ "/" +:+ n) "/" = Split dir "/" ++ [n]).
  { unfold Split. rewrite bytes_app. change (bytes ("/" +:+ n)) with ("/"%char :: bytes n). rewrite splitBytes_name by done.
    by rewrite ofBytes_bytes. }
  rewrite Hr, Hsp, foldl_app. cbn [foldl]. unfold oneOf in Hp. cbn in Hp. rewrite orb_false_r in Hp. rewrite !orb_false_iff in Hp.
  destruct Hp as (P1 & P2 & P3).
  assert (Hc : ∀ kept, cleanStep rooted kept n = n :: kept) by (intros kept; unfold cleanStep; by rewrite P1, P2, P3).
  rewrite Hc. cbn [rev]. rewrite Hpre.
  destruct rooted; [by rewrite string_app_assoc|]. change (("" +:+ pre) +:+ n) with (pre +:+ n).
  assert (E : (pre +:+ n =s "") = false); [|by rewrite E]. apply eqs_false. destruct pre; [|done]. by apply eqs_false in P1.
Qed.

Lemma prefix_cancel pre a b : HasPrefix (pre +:+ a) (pre +:+ b) = HasPrefix a b.
Proof.
  apply eq_bool_prop_intro. rewrite !Is_true_true, !HasPrefix_true. split; intros [r E]; exists r.
  - rewrite string_app_assoc in E. induction pre as [|c pre IH]; [exact E|]. by injection E.
  - by rewrite E, string_app_assoc.
Qed.
(** Two names of one directory: one is not below the other. *)
Lemma not_below dir n1 n2 : dir ≠ "" → plainName n1 = true → plainName n2 = true → HasPrefix n1 (n2 +:+ "/") = false →
  HasPrefix (filepath_Join dir n1) (filepath_Join dir n2 +:+ "/") = false.
Proof.
  intros Hd H1 H2 Hn. destruct (filepath_Join_name dir Hd) as [pre Hp]. by rewrite !Hp, string_app_assoc, prefix_cancel.
Qed.

(** ** Balances *)

Lemma balance_app r l l' : balance r (l ++ l') = balance r l + balance r l'.
Proof. induction l as [|c l IH]; cbn; [done|]. rewrite IH. lia. Qed.
Lemma held_balance r log : held r log = balance r log + Z.of_nat (length (failedReleases r log)).
Proof.
  induction log as [|c log IH]; [done|]. cbn [held balance failedReleases List.filter]. unfold change. rewrite IH.
  fold (failedReleases r log). destruct (released c), (bool_decide (releases c = Some r)); cbn [negb andb length]; lia.
Qed.
Lemma failedReleases_app r l l' : failedReleases r (l ++ l') = failedReleases r l ++ failedReleases r l'.
Proof. apply List.filter_app. Qed.
(** How often a resource is in a list. *)
Fixpoint weight (r : resource) (rs : list resource) : Z :=
  match rs with [] => 0 | s :: rs => (if bool_decide (s = r) then 1 else 0) + weight r rs end.
Lemma weight_app r l l' : weight r (l ++ l') = weight r l + weight r l'.
Proof. induction l as [|c l IH]; cbn; [done|]. rewrite IH. lia. Qed.

Section rules.
Context {R : Type}.
Abbreviation Mh := (M (harness R)).
Variable m : machine.
(** The resources under consideration. *)
Variable P : resource → Prop.

(** The balance of every resource moves by the given lists, and the set of processes stays. *)
Definition moves (plus minus : list resource) (h h' : harness R) : Prop :=
  hProcs h' = hProcs h
  ∧ ∀ r, P r → balance r (hLog h') = balance r (hLog h) + weight r plus - weight r minus.
Lemma moves_refl h : moves [] [] h h.
Proof. split; [done|]. intros r _. cbn. lia. Qed.
Lemma moves_same h h' : hLog h' = hLog h → hProcs h' = hProcs h → moves [] [] h h'.
Proof. intros E1 E2. split; [done|]. intros r _. rewrite E1. cbn. lia. Qed.
Lemma moves_trans a b c d h1 h2 h3 : moves a b h1 h2 → moves c d h2 h3 → moves (a ++ c) (b ++ d) h1 h3.
Proof.
  intros [E1 B1] [E2 B2]. split; [congruence|]. intros r Hr. rewrite !weight_app, B2, B1 by done. lia.
Qed.
Lemma moves_eq a b c d h h' : (∀ r, P r → weight r a - weight r b = weight r c - weight r d) → moves a b h h' → moves c d h h'.
Proof. intros E [E1 B1]. split; [done|]. intros r Hr. rewrite B1 by done. specialize (E r Hr). lia. Qed.

(** The log only grows. *)
Definition grows {A} (c : Mh A) : Prop := ∀ h, hLog h `prefix_of` hLog (c h).1.
Lemma grows_same {A} (c : Mh A) : (∀ h, hLog (c h).1 = hLog h) → grows c.
Proof. intros Hc h. by rewrite Hc. Qed.
Lemma grows_ret {A} (a : A) : grows (mret a).
Proof. by intros h. Qed.
Lemma grows_panic {A} msg : grows (panic (A := A) msg).
Proof. by intros h. Qed.
Lemma grows_modify f : (∀ h, hLog (f h) = hLog h) → grows (modify f).
Proof. intros Hf h. cbn. by rewrite Hf. Qed.
Lemma grows_record c ok (h : harness R) : hLog h `prefix_of` hLog (record m c ok h).
Proof. by eexists. Qed.
Lemma grows_bind {A B} (c : Mh A) (f : A → Mh B) : grows c → (∀ a, grows (f a)) → grows (c ≫= f).
Proof.
  intros Hc Hf h. specialize (Hc h). unfold mbind, M_bind. destruct (c h) as [h1 [a|msg]]; [|exact Hc].
  etransitivity; [exact Hc|apply Hf].
Qed.
Lemma grows_bindErr {A B} (c : Mh (result A)) (f : A → Mh (result B)) : grows c → (∀ a, grows (f a)) → grows (bindErr c f).
Proof. intros Hc Hf. apply grows_bind; [done|]. intros [a|e]; [apply Hf|apply grows_ret]. Qed.
Lemma grows_get {B} (f : harness R → Mh B) : (∀ h, grows (f h)) → grows (get ≫= f).
Proof. intros Hf h. exact (Hf h h). Qed.
Lemma grows_callAt c : grows (callAt m c).
Proof. intros h. apply grows_record. Qed.
Lemma grows_sure c : grows (sure m c).
Proof. intros h. apply grows_record. Qed.
Lemma grows_inWorld {W A} (outside : nat → W) c (f : M W A) : grows (inWorld m outside c f).
Proof. intros h. apply grows_record. Qed.
Lemma grows_deferring {A} (cleanup : Mh unit) (rest : Mh A) : grows cleanup → grows rest → grows (deferring cleanup rest).
Proof.
  intros Hc Hr h. unfold deferring. specialize (Hr h). destruct (rest h) as [h1 o]. specialize (Hc h1).
  destruct (cleanup h1) as [h2 [u|msg]]; (etransitivity; [exact Hr|exact Hc]).
Qed.
Lemma grows_awaiting rounds (ready : Mh (result bool)) deadline : grows ready → grows (awaiting m rounds ready deadline).
Proof.
  intros Hr. induction rounds as [|rounds IH]; cbn [awaiting]; [apply grows_panic|].
  apply grows_bind; [apply grows_bind; [apply grows_sure|]; intros ?; apply grows_get; intros ?; apply grows_ret|]. intros now.
  destruct (negb _); [apply grows_ret|]. apply grows_bindErr; [done|]. intros []; [apply grows_ret|].
  apply grows_bind; [apply grows_sure|]. intros _. exact IH.
Qed.

(** For all that is taken a release is asked for, and for nothing else. *)
Definition neutral {A} (c : Mh A) : Prop := ∀ h, moves [] [] h (c h).1.
(** What is taken when the computation succeeds, and nothing when it does not. *)
Definition taking {A} (rs : A → list resource) (c : Mh (result A)) : Prop := ∀ h,
  match c h with
  | (h', Done (Ok a)) => moves (rs a) [] h h'
  | (h', _) => moves [] [] h h'
  end.
(** What is given back, always. *)
Definition giving (rs : list resource) (c : Mh unit) : Prop := ∀ h, ∃ h', c h = (h', Done tt) ∧ moves [] rs h h'.

Lemma neutral_ret {A} (a : A) : neutral (mret a).
Proof. intros h. apply moves_refl. Qed.
Lemma neutral_panic {A} msg : neutral (panic (A := A) msg).
Proof. intros h. apply moves_refl. Qed.
Lemma neutral_bind {A B} (c : Mh A) (f : A → Mh B) : neutral c → (∀ a, neutral (f a)) → neutral (c ≫= f).
Proof.
  intros Hc Hf h. specialize (Hc h). unfold mbind, M_bind. destruct (c h) as [h1 [a|msg]]; [|exact Hc].
  exact (moves_trans [] [] [] [] _ _ _ Hc (Hf a h1)).
Qed.
Lemma neutral_bindErr {A B} (c : Mh (result A)) (f : A → Mh (result B)) : neutral c → (∀ a, neutral (f a)) → neutral (bindErr c f).
Proof. intros Hc Hf. apply neutral_bind; [done|]. intros [a|e]; [apply Hf|apply neutral_ret]. Qed.
Lemma neutral_get {B} (f : harness R → Mh B) : (∀ h, neutral (f h)) → neutral (get ≫= f).
Proof. intros Hf h. exact (Hf h h). Qed.
Lemma neutral_setReport f : neutral (setReport f).
Proof. intros h. by apply moves_same. Qed.
Lemma neutral_print l : neutral (print l).
Proof. intros h. by apply moves_same. Qed.
Lemma neutral_printReport : neutral printReport.
Proof. intros h. by apply moves_same. Qed.
Lemma neutral_putFile path content : neutral (putFile path content).
Proof. intros h. by apply moves_same. Qed.
(** Given back in the end: a computation that took, its deferred cleanup, and a neutral rest. *)
Lemma neutral_deferring {A} rs (cleanup : Mh unit) (rest : Mh A) h0 h : giving rs cleanup → neutral rest → moves rs [] h0 h →
  moves [] [] h0 (deferring cleanup rest h).1.
Proof.
  intros Hg Hr Ht. unfold deferring. specialize (Hr h). destruct (rest h) as [h1 o]. cbn in Hr.
  destruct (Hg h1) as (h2 & -> & Hm). pose proof (moves_trans _ _ _ _ _ _ _ Ht (moves_trans _ _ _ _ _ _ _ Hr Hm)) as Hall.
  apply (moves_eq _ _ [] [] _ _) in Hall; [exact Hall|]. intros r _. rewrite !weight_app. cbn. lia.
Qed.
Lemma neutral_scopeErr {A B} rs (c : Mh (result A)) cleanup (rest : A → Mh (result B)) : taking rs c → (∀ a, giving (rs a) (cleanup a)) →
  (∀ a, neutral (rest a)) → neutral (bindErr c (λ a, deferring (cleanup a) (rest a))).
Proof.
  intros Hc Hg Hr h. specialize (Hc h). unfold bindErr, mbind, M_bind.
  destruct (c h) as [h1 [[a|e]|msg]]; [|exact Hc|exact Hc]. by eapply neutral_deferring.
Qed.

Lemma giving_two a b c1 c2 : giving a c1 → giving b c2 → giving (a ++ b) (_ ← c1; c2).
Proof.
  intros H1 H2 h. destruct (H1 h) as (h1 & E1 & M1), (H2 h1) as (h2 & E2 & M2). exists h2.
  unfold mbind, M_bind. rewrite E1. split; [exact E2|]. exact (moves_trans _ _ _ _ _ _ _ M1 M2).
Qed.
Lemma giving_none c : (∀ h, ∃ h', c h = (h', Done tt) ∧ moves [] [] h h') → giving [] c.
Proof. done. Qed.

(** ** One call *)

Definition gains (c : callRecord) : list resource := match acquires c with Some r => [r] | None => [] end.
Definition losses (c : callRecord) : list resource := match releases c with Some r => [r] | None => [] end.
Lemma weight_option r (o : option resource) : weight r (match o with Some s => [s] | None => [] end) = if bool_decide (o = Some r) then 1 else 0.
Proof.
  destruct o as [s|]; [|done]. cbn. rewrite Z.add_0_r. destruct (bool_decide_reflect (s = r)) as [->|Hne].
  - by rewrite bool_decide_eq_true_2.
  - rewrite bool_decide_eq_false_2; [done|]. by intros [= ->].
Qed.
Lemma moves_record c ok h : let e := mkCall c ok (mNumber m (length (hLog h))) (mText m (length (hLog h))) in
  moves (if ok then gains e else []) (losses e) h (record m c ok h).
Proof.
  intros e. split; [done|]. intros r _. cbn [hLog record]. rewrite balance_app. cbn [balance]. unfold change. fold e.
  unfold gains, losses. rewrite (weight_option r (releases e)).
  replace (crOk e) with ok by done. destruct ok; cbn [andb weight]; [rewrite weight_option|]; lia.
Qed.

(** A call that has no part in any resource. *)
Definition idle (c : sysCall) : Prop := ∀ ok n t, acquires (mkCall c ok n t) = None ∧ releases (mkCall c ok n t) = None.
Lemma moves_idle c ok h : idle c → moves [] [] h (record m c ok h).
Proof.
  intros Hi. pose proof (moves_record c ok h) as Hm. cbv zeta in Hm. unfold gains, losses in Hm.
  destruct (Hi ok (mNumber m (length (hLog h))) (mText m (length (hLog h)))) as [E1 E2]. rewrite E1, E2 in Hm. by destruct ok.
Qed.
Lemma neutral_callAt c : idle c → neutral (callAt m c).
Proof. intros Hi h. by apply moves_idle. Qed.
Lemma neutral_call c : idle c → neutral (call m c).
Proof. intros Hi. apply neutral_bind; [by apply neutral_callAt|]. intros [n r]. apply neutral_ret. Qed.
Lemma neutral_attempt c : idle c → neutral (attempt m c).
Proof. intros Hi. apply neutral_bind; [by apply neutral_callAt|]. intros ?. apply neutral_ret. Qed.
Lemma neutral_sure c : idle c → neutral (sure m c).
Proof. intros Hi h. by apply moves_idle. Qed.
Lemma neutral_clock : neutral (clock m).
Proof. apply neutral_bind; [by apply neutral_sure|]. intros ?. apply neutral_get. intros h. apply neutral_ret. Qed.
Lemma neutral_inWorld {W A} (outside : nat → W) c (f : M W A) : idle c → neutral (inWorld m outside c f).
Proof. intros Hi h. by apply moves_idle. Qed.
Lemma neutral_writeFile path content : neutral (writeFile m path content).
Proof.
  apply neutral_bindErr; [by apply neutral_call|]. intros _. apply neutral_bind; [apply neutral_putFile|]. intros _. apply neutral_ret.
Qed.
Lemma neutral_writeReport path : neutral (writeReport m path).
Proof. apply neutral_get. intros h. apply neutral_writeFile. Qed.

(** A call that takes or gives back. *)
Lemma taking_call c r : (∀ ok n t, acquires (mkCall c ok n t) = Some r ∧ releases (mkCall c ok n t) = None) →
  taking (λ _, [r]) (call m c).
Proof.
  intros Hc h. unfold call, callAt, mbind, M_bind. cbn.
  pose proof (λ ok, moves_record c ok h) as Hm. cbv zeta in Hm. unfold gains, losses in Hm.
  destruct (mFails m (length (hLog h))).
  - specialize (Hm false). by rewrite (proj2 (Hc _ _ _)) in Hm.
  - specialize (Hm true). by rewrite (proj1 (Hc _ _ _)), (proj2 (Hc _ _ _)) in Hm.
Qed.
Lemma giving_callAt c r : (∀ ok n t, acquires (mkCall c ok n t) = None ∧ releases (mkCall c ok n t) = Some r) →
  ∀ h, moves [] [r] h (callAt m c h).1.
Proof.
  intros Hc h. cbn [callAt fst]. destruct (Hc (match mFails m (length (hLog h)) with None => true | Some _ => false end)
    (mNumber m (length (hLog h))) (mText m (length (hLog h)))) as [E1 E2].
  match goal with |- context [record m c ?b h] => pose proof (moves_record c b h) as Hm end.
  cbv zeta in Hm. unfold gains, losses in Hm. rewrite E1, E2 in Hm. by destruct (mFails m _).
Qed.
Lemma giving_attempt c r : (∀ ok n t, acquires (mkCall c ok n t) = None ∧ releases (mkCall c ok n t) = Some r) →
  giving [r] (attempt m c).
Proof. intros Hc h. eexists. split; [reflexivity|]. exact (giving_callAt c r Hc h). Qed.
End rules.

Ltac neutral_step :=
  match goal with
  | |- neutral _ (get ≫= _) => apply neutral_get; intros ?
  | |- neutral _ (_ ≫= _) => apply neutral_bind; [|intros ?]
  | |- neutral _ (bindErr _ _) => apply neutral_bindErr; [|intros ?]
  | |- neutral _ (mret _) => apply neutral_ret
  | |- neutral _ (panic _) => apply neutral_panic
  | |- neutral _ (if _ then _ else _) => case_match
  | |- neutral _ (match _ with _ => _ end) => case_match
  end.
#[export] Hint Resolve neutral_setReport neutral_print neutral_printReport neutral_putFile neutral_clock neutral_writeFile
  neutral_writeReport : runs.
#[export] Hint Extern 2 (neutral _ (callAt _ _)) => (apply neutral_callAt; done) : runs.
#[export] Hint Extern 2 (neutral _ (call _ _)) => (apply neutral_call; done) : runs.
#[export] Hint Extern 2 (neutral _ (attempt _ _)) => (apply neutral_attempt; done) : runs.
#[export] Hint Extern 2 (neutral _ (sure _ _)) => (apply neutral_sure; done) : runs.
#[export] Hint Extern 2 (neutral _ (inWorld _ _ _ _)) => (apply neutral_inWorld; done) : runs.
Ltac grows_step := lazymatch goal with
  | |- grows (mret _) => apply grows_ret
  | |- grows (panic _) => apply grows_panic
  | |- grows (callAt _ _) => apply grows_callAt
  | |- grows (sure _ _) => apply grows_sure
  | |- grows (inWorld _ _ _ _) => apply grows_inWorld
  | |- grows (deferring _ _) => apply grows_deferring
  | |- grows (awaiting _ _ _ _) => apply grows_awaiting
  | |- grows (modify _) => apply grows_modify; done
  | |- grows (get ≫= _) => apply grows_get; intros ?
  | |- grows (bindErr _ _) => apply grows_bindErr; [|intros ?]
  | |- grows (_ ≫= _) => apply grows_bind; [|intros ?]
  | |- grows (match ?x with _ => _ end) => destruct x
  | |- grows (let _ := _ in _) => cbv zeta
  end.
Ltac grows_auto := repeat grows_step.
Ltac neutral_auto := repeat first [neutral_step | progress eauto with runs].

(** ** The shared operations *)

Section operations.
Context {R : Type}.
Abbreviation Mh := (M (harness R)).
Variable m : machine.
Variable P : resource → Prop.
Abbreviation moves := (moves (R := R) P).

Lemma taking_bindErr {A B} rs qs (c : Mh (result A)) (f : A → Mh (result B)) :
  taking P rs c →
  (∀ a h, match f a h with
          | (h', Done (Ok b)) => ∃ more, moves more [] h h' ∧ ∀ r, weight r (qs b) = weight r (rs a) + weight r more
          | (h', _) => moves [] (rs a) h h'
          end) →
  taking P qs (bindErr c f).
Proof.
  intros Hc Hf h. specialize (Hc h). unfold bindErr, mbind, M_bind. destruct (c h) as [h1 [[a|e]|msg]]; [|exact Hc|exact Hc].
  specialize (Hf a h1). destruct (f a h1) as [h2 [[b|e]|msg]].
  - destruct Hf as (more & Hm & Hw). pose proof (moves_trans P _ _ _ _ _ _ _ Hc Hm) as Ht.
    apply (moves_eq P _ _ (qs b) []) in Ht; [exact Ht|]. intros r _. rewrite weight_app, Hw. cbn. lia.
  - pose proof (moves_trans P _ _ _ _ _ _ _ Hc Hf) as Ht. apply (moves_eq P _ _ [] []) in Ht; [exact Ht|].
    intros r _. rewrite weight_app. cbn. lia.
  - pose proof (moves_trans P _ _ _ _ _ _ _ Hc Hf) as Ht. apply (moves_eq P _ _ [] []) in Ht; [exact Ht|].
    intros r _. rewrite weight_app. cbn. lia.
Qed.
Lemma taking_neutral {A B} qs (c : Mh (result A)) (f : A → Mh (result B)) :
  neutral P c → (∀ a, taking P qs (f a)) → taking P qs (bindErr c f).
Proof.
  intros Hc Hf h. specialize (Hc h). unfold bindErr, mbind, M_bind. destruct (c h) as [h1 [[a|e]|msg]]; [|exact Hc|exact Hc].
  specialize (Hf a h1). destruct (f a h1) as [h2 [[b|e]|msg]]; by apply (moves_trans P [] [] _ _ _ _ _ Hc) in Hf.
Qed.

Lemma neutral_freePort ip : neutral P (freePort (R := R) m ip).
Proof.
  intros h. unfold freePort. set (address := JoinHostPort ip "0").
  pose proof (taking_call (R := R) m P (Listen address) (Listener address) ltac:(done) h) as Ht.
  unfold call, callAt in Ht. unfold callAt. unfold mbind, M_bind in *. cbn in *.
  destruct (mFails m (length (hLog h))); [exact Ht|].
  eapply neutral_deferring; [by apply giving_attempt|apply neutral_ret|exact Ht].
Qed.
Lemma neutral_awaiting rounds ready deadline : neutral P ready → neutral P (awaiting (R := R) m rounds ready deadline).
Proof. intros Hr. induction rounds as [|rounds IH]; cbn [awaiting]; neutral_auto. Qed.
Lemma neutral_awaitFor timeout ready : neutral P ready → neutral P (awaitFor (R := R) m timeout ready).
Proof. intros Hr. unfold awaitFor. pose proof neutral_awaiting. neutral_auto. Qed.

Lemma giving_redisClose name : name ≠ "" → giving P [RedisClient name; Container name] (redisClose (R := R) m (Some name)).
Proof.
  intros Hn. unfold redisClose. apply eqs_false in Hn. rewrite Hn. cbn [negb].
  apply (giving_two P [RedisClient name] [Container name]); [by apply giving_attempt|].
  intros h. eexists. split; [reflexivity|]. by apply (giving_callAt m P (DockerRm name) (Container name)).
Qed.
Lemma taking_redisReady name port abandon : giving P [RedisClient name; Container name] abandon → ∀ h,
  match redisReady (R := R) m name port abandon h with
  | (h', Done (Ok got)) => got = name ∧ moves [RedisClient name] [] h h'
  | (h', Done (Err _)) => moves [] [Container name] h h'
  | (h', Panic _) => moves [RedisClient name] [] h h'
  end.
Proof.
  intros Ha h. unfold redisReady.
  pose proof (moves_record m P (NewRedisClient name ("127.0.0.1:" +:+ itoa port)) true h) as M1. cbv zeta in M1. cbn in M1.
  erewrite bind_Done by reflexivity. set (h1 := record m _ true h) in *.
  set (ready := (pinged ← call m (Ping name); mret (Ok (is_ok pinged)))).
  assert (Hr : neutral P ready) by (unfold ready; neutral_auto).
  pose proof (neutral_awaitFor (30 * Second) ready Hr h1) as M2. unfold mbind, M_bind at 1.
  destruct (awaitFor m (30 * Second) ready h1) as [h2 [r|msg]]; cbn [fst] in M2;
    pose proof (moves_trans P _ _ _ _ _ _ _ M1 M2) as M3; cbn [app] in M3; [|exact M3].
  destruct r as [[]|e]; [by split| |].
  all: destruct (Ha h2) as (h3 & E & M4); unfold mbind, M_bind; rewrite E; cbn;
    pose proof (moves_trans P _ _ _ _ _ _ _ M3 M4) as M5; apply (moves_eq P _ _ [] [Container name]) in M5; [exact M5|];
    intros r _; cbn; lia.
Qed.

Lemma taking_startRelayProcess noProxy binary config mode ca log :
  taking P (λ process, [OpenedFile log; Process process]) (startRelayProcess (R := R) m noProxy binary config mode ca log).
Proof.
  apply (taking_bindErr (λ _, [OpenedFile log])); [by apply taking_call|]. intros _ h.
  unfold callAt. unfold mbind, M_bind. cbn. set (c := StartProcess _ _ _ _). set (n := length (hLog h)).
  destruct (mFails m n) as [e|] eqn:Ef.
  - pose proof (moves_record m P c false h) as M1. cbv zeta in M1. cbn in M1. cbn.
    pose proof (giving_callAt m P (CloseFile log) (OpenedFile log) ltac:(done) (record m c false h)) as M2. cbn in M2.
    exact (moves_trans P _ _ _ _ _ _ _ M1 M2).
  - exists [Process (mNumber m n)]. split; [exact (moves_record m P c true h)|]. intros r. cbn. lia.
Qed.

Context {PrivateKey PublicKey Certificate TlsCertificate : Type}.
Variable lib : CryptoLib PrivateKey PublicKey Certificate TlsCertificate.
Lemma neutral_generateRSAKey : neutral P (generateRSAKey (R := R) m lib).
Proof. unfold generateRSAKey. neutral_auto. Qed.
Lemma neutral_writePrivateKey path key : neutral P (writePrivateKey (R := R) m lib path key).
Proof. unfold writePrivateKey. neutral_auto. Qed.
Lemma neutral_createCertificate t p k s : neutral P (createCertificate (R := R) m lib t p k s).
Proof. unfold createCertificate. neutral_auto. Qed.
Lemma neutral_generateCA name : neutral P (generateCA (R := R) m lib name).
Proof. unfold generateCA. pose proof neutral_generateRSAKey. pose proof neutral_createCertificate. neutral_auto. Qed.
Lemma neutral_generateLeaf ca key ip serial : neutral P (generateLeaf (R := R) m lib ca key ip serial).
Proof. unfold generateLeaf. pose proof neutral_generateRSAKey. pose proof neutral_createCertificate. neutral_auto. Qed.
Lemma taking_startTLSServer address (certificate : TlsCertificate) :
  taking P (λ _, [Listener address; Server address]) (startTLSServer (R := R) m address certificate).
Proof.
  apply (taking_bindErr (λ _, [Listener address])); [by apply taking_call|]. intros _ h. cbn.
  exists [Server address]. split; [exact (moves_record m P (Serve address) true h)|]. intros r. cbn. lia.
Qed.
Lemma taking_startProxy address (certificate : TlsCertificate) backend :
  taking P (λ _, [Listener address; Server address]) (startProxy (R := R) m address certificate backend).
Proof. apply taking_neutral; [apply neutral_ret|]. intros _. apply taking_startTLSServer. Qed.
Lemma giving_closeServer address : giving P [Listener address; Server address] (closeServer (R := R) m address).
Proof.
  intros h. destruct (giving_two P [Server address] [Listener address] (attempt m (CloseServer address)) (attempt m (CloseListener address))
    ltac:(by apply giving_attempt) ltac:(by apply giving_attempt) h) as (h' & E & M1).
  exists h'. split; [exact E|]. apply (moves_eq P _ _ [] [Listener address; Server address]) in M1; [exact M1|]. intros r _. cbn. lia.
Qed.
End operations.
#[export] Hint Resolve neutral_freePort neutral_awaitFor neutral_generateRSAKey neutral_writePrivateKey neutral_generateCA
  neutral_generateLeaf : runs.

(** ** Waiting ends *)

Section waiting.
Context {R : Type}.
Abbreviation Mh := (M (harness R)).
Variable m : machine.

(** How often calls of a kind were made. *)
Definition asked (q : sysCall → bool) (log : list callRecord) : nat := length (List.filter (λ c, q (crCall c)) log).
Lemma asked_record q c ok (h : harness R) : asked q (hLog (record m c ok h)) = (asked q (hLog h) + (if q c then 1 else 0))%nat.
Proof. unfold asked. cbn [hLog record]. rewrite List.filter_app, length_app. cbn. by destruct (q c). Qed.
Lemma record_later c ok (h : harness R) : hNow h + match c with Sleep d => d | _ => 0 end ≤ hNow (record m c ok h).
Proof. cbn. destruct c; lia. Qed.

(** A computation that ends, later, after at most [k] calls of a kind. *)
Definition ends (q : sysCall → bool) (k : nat) {A} (c : Mh A) : Prop := ∀ h, ∃ h' a,
  c h = (h', Done a) ∧ hNow h ≤ hNow h' ∧ (asked q (hLog h') ≤ asked q (hLog h) + k)%nat.
Lemma ends_ret q {A} (a : A) : ends q 0 (mret a).
Proof. intros h. exists h, a. split; [done|lia]. Qed.
Lemma ends_bind q k l {A B} (c : Mh A) (f : A → Mh B) : ends q k c → (∀ a, ends q l (f a)) → ends q (k + l) (c ≫= f).
Proof.
  intros Hc Hf h. destruct (Hc h) as (h1 & a & E1 & T1 & K1), (Hf a h1) as (h2 & b & E2 & T2 & K2).
  exists h2, b. unfold mbind, M_bind. rewrite E1. split; [done|lia].
Qed.
Lemma ends_bindErr q k l {A B} (c : Mh (result A)) (f : A → Mh (result B)) : ends q k c → (∀ a, ends q l (f a)) →
  ends q (k + l) (bindErr c f).
Proof.
  intros Hc Hf. apply ends_bind; [done|]. intros [a|e]; [apply Hf|]. intros h. eexists _, _. split; [reflexivity|lia].
Qed.
Lemma ends_callAt q c : ends q (if q c then 1 else 0) (callAt m c).
Proof.
  intros h. eexists _, _. split; [reflexivity|]. rewrite asked_record. split; [|lia].
  unfold record. cbn [hNow]. destruct c; lia.
Qed.
Lemma ends_call q c : ends q (if q c then 1 else 0) (call m c).
Proof.
  intros h. destruct (ends_callAt q c h) as (h' & [n r] & E & T). exists h', r. unfold call, mbind, M_bind. by rewrite E.
Qed.
Lemma ends_sure q c (h : harness R) : ∃ h', sure m c h = (h', Done (length (hLog h)))
  ∧ hNow h + match c with Sleep d => d | _ => 0 end ≤ hNow h' ∧ asked q (hLog h') = (asked q (hLog h) + (if q c then 1 else 0))%nat.
Proof. eexists. split; [reflexivity|]. split; [apply record_later|apply asked_record]. Qed.
Lemma ends_clock q (h : harness R) : q Now = false → ∃ h', clock m h = (h', Done (hNow h')) ∧ hNow h ≤ hNow h'
  ∧ asked q (hLog h') = asked q (hLog h).
Proof.
  intros Hq. destruct (ends_sure q Now h) as (h' & E & T & K). exists h'. unfold clock. erewrite bind_Done by exact E.
  erewrite bind_Done by reflexivity. split; [done|]. rewrite Hq in K. split; lia.
Qed.

(** At most [k] rounds are begun before a deadline that is [k] pauses away. *)
Lemma awaiting_ends q (ready : Mh (result bool)) deadline k rounds :
  q Now = false → q (Sleep (200 * Millisecond)) = false → ends q 1 ready → (k < rounds)%nat →
  ∀ h, deadline ≤ hNow h + Z.of_nat k * (200 * Millisecond) →
  ∃ h' r, awaiting m rounds ready deadline h = (h', Done r) ∧ hNow h ≤ hNow h' ∧ (asked q (hLog h') ≤ asked q (hLog h) + k)%nat.
Proof.
  intros Hn Hs Hr. revert rounds. induction k as [|k IH]; intros rounds Hk h Hd; (destruct rounds as [|rounds]; [lia|]); cbn [awaiting].
  all: destruct (ends_clock q h Hn) as (h1 & E1 & T1 & K1); erewrite bind_Done by exact E1.
  - unfold Before. rewrite (proj2 (Z.ltb_ge _ _)) by lia. eexists _, _. split; [reflexivity|]. split; [done|lia].
  - unfold Before. destruct (Z.ltb_spec (hNow h1) deadline); [|eexists _, _; split; [reflexivity|]; split; [done|lia]]. cbn [negb].
    destruct (Hr h1) as (h2 & r & E2 & T2 & K2). unfold bindErr at 1. erewrite bind_Done by exact E2.
    destruct r as [[]|e]; [eexists _, _; split; [reflexivity|]; lia| |eexists _, _; split; [reflexivity|]; lia].
    destruct (ends_sure q (Sleep (200 * Millisecond)) h2) as (h3 & E3 & T3 & K3). erewrite bind_Done by exact E3. rewrite Hs in K3.
    destruct (IH rounds ltac:(lia) h3) as (h4 & r & E4 & T4 & K4); [lia|]. exists h4, r. split; [exact E4|].
    unfold Millisecond in T3. lia.
Qed.
Lemma awaitFor_ends q (ready : Mh (result bool)) timeout k :
  q Now = false → q (Sleep (200 * Millisecond)) = false → ends q 1 ready → timeout = Z.of_nat k * (200 * Millisecond) →
  ends q k (awaitFor m timeout ready).
Proof.
  intros Hn Hs Hr Ht h. unfold awaitFor. destruct (ends_clock q h Hn) as (h1 & E1 & T1 & K1). erewrite bind_Done by exact E1.
  destruct (awaiting_ends q ready (hNow h1 + timeout) k (Datatypes.S (roundsFor timeout)) Hn Hs Hr) with h1 as (h2 & r & E2 & T2 & K2).
  - unfold roundsFor. rewrite Ht, Z.div_mul by done. lia.
  - lia.
  - exists h2, r. split; [exact E2|]. lia.
Qed.
End waiting.

(** ** A Redis container gets ready, or is abandoned *)

Definition isPing (c : sysCall) : bool := match c with Ping _ => true | _ => false end.
Section ready.
Context {R : Type}.
Variable m : machine.
Variable P : resource → Prop.
Lemma ends_attempt c : isPing c = false → ends (R := R) isPing 0 (attempt m c).
Proof. intros Hc. apply (ends_bind _ 0 0); [|intros ?; apply ends_ret]. pose proof (ends_callAt (R := R) m isPing c) as He. by rewrite Hc in He. Qed.
Lemma ends_redisClose name : name ≠ "" → ends (R := R) isPing 0 (redisClose m (Some name)).
Proof.
  intros Hne. unfold redisClose. apply eqs_false in Hne. rewrite Hne. cbn [negb]. apply (ends_bind _ 0 0); [by apply ends_attempt|].
  intros _. apply (ends_bind _ 0 0); [|intros ?; apply ends_ret]. unfold runOutput.
  apply (ends_bind _ 0 0); [exact (ends_callAt m isPing (DockerRm name))|]. intros [? ?]. apply ends_ret.
Qed.
Lemma redisReady_run name port abandon : giving P [RedisClient name; Container name] abandon → ends isPing 0 abandon →
  ∀ h : harness R, ∃ h' r, redisReady m name port abandon h = (h', Done r)
  ∧ (asked isPing (hLog h') ≤ asked isPing (hLog h) + 150)%nat
  ∧ match r with Ok got => got = name ∧ moves P [RedisClient name] [] h h' | Err _ => moves P [] [Container name] h h' end.
Proof.
  intros Hg Ha h. pose proof (taking_redisReady m P name port abandon Hg h) as Ht.
  assert (Hend : ends (R := R) isPing 150 (redisReady m name port abandon)).
  { unfold redisReady. apply (ends_bind _ 0 150).
    { intros h0. destruct (ends_sure m isPing (NewRedisClient name ("127.0.0.1:" +:+ itoa port)) h0) as (h' & E & T & K).
      eexists _, _. split; [exact E|]. rewrite K. cbn. lia. }
    intros _. apply (ends_bind _ 150 0); [apply awaitFor_ends; [done|done| |done]|].
    - apply (ends_bind _ 1 0); [exact (ends_call m isPing (Ping name))|]. intros ?. apply ends_ret.
    - assert (Hc : ends (R := R) isPing 0 (_ ← abandon; mret (Err (A := string) (errorsNew "Redis did not become ready"))))
        by (apply (ends_bind _ 0 0); [done|intros ?; apply ends_ret]).
      intros [[]|e]; [apply ends_ret|exact Hc|exact Hc]. }
  destruct (Hend h) as (h2 & r & E & _ & K). rewrite E in Ht. exists h2, r. by destruct r.
Qed.
End ready.

(** ** What is left on disk *)

Section files.
Context {R : Type}.
Abbreviation Mh := (M (harness R)).
Variable m : machine.

(** Files and report stay as they are. *)
Definition quiet {A} (c : Mh A) : Prop := ∀ h, hFiles (c h).1 = hFiles h ∧ hReport (c h).1 = hReport h.
Lemma quiet_mret {A} (a : A) : quiet (mret a).
Proof. done. Qed.
Lemma quiet_mbind {A B} (c : Mh A) (f : A → Mh B) : quiet c → (∀ a, quiet (f a)) → quiet (c ≫= f).
Proof.
  intros Hc Hf h. specialize (Hc h). unfold mbind, M_bind. destruct (c h) as [h1 [a|msg]]; [|exact Hc].
  destruct Hc, (Hf a h1). cbn in *. split; congruence.
Qed.
Lemma quiet_get {B} (f : harness R → Mh B) : (∀ h, quiet (f h)) → quiet (get ≫= f).
Proof. intros Hf h. exact (Hf h h). Qed.
Lemma quiet_attempt c : quiet (attempt m c).
Proof. done. Qed.
Lemma quiet_closeServer address : quiet (closeServer m address).
Proof. done. Qed.
Lemma quiet_redisClose instance : quiet (redisClose m instance).
Proof.
  destruct instance as [name|]; [|done]. unfold redisClose. apply quiet_mbind; [done|]. intros _. case_match; [|done].
  apply quiet_mbind; [|done]. unfold runOutput. apply quiet_mbind; [done|]. by intros [? ?].
Qed.

(** What holds when a computation ends with a value, whatever went before. *)
Definition ensures {A} (Q : A → harness R → Prop) (c : Mh A) : Prop := ∀ h,
  match c h with (h', Done a) => Q a h' | (_, Panic _) => True end.
Lemma ensures_bind {A B} (Q : B → harness R → Prop) (c : Mh A) (f : A → Mh B) : (∀ a, ensures Q (f a)) → ensures Q (c ≫= f).
Proof. intros Hf h. unfold mbind, M_bind. destruct (c h) as [h1 [a|msg]]; [apply Hf|done]. Qed.
Lemma ensures_bind_with {A B} (Q1 : A → Prop) (Q : B → harness R → Prop) (c : Mh A) (f : A → Mh B) :
  ensures (λ a _, Q1 a) c → (∀ a, Q1 a → ensures Q (f a)) → ensures Q (c ≫= f).
Proof. intros Hc Hf h. specialize (Hc h). unfold mbind, M_bind. destruct (c h) as [h1 [a|msg]]; [by apply Hf|done]. Qed.
Lemma ensures_deferring {A} (Q : A → harness R → Prop) cleanup (rest : Mh A) :
  (∀ a h h', hFiles h' = hFiles h → hReport h' = hReport h → Q a h → Q a h') →
  quiet cleanup → ensures Q rest → ensures Q (deferring cleanup rest).
Proof.
  intros HQ Hc Hr h. unfold deferring. specialize (Hr h). destruct (rest h) as [h1 [a|msg]].
  - destruct (Hc h1) as [E1 E2]. destruct (cleanup h1) as [h2 [u|msg]]; [|done]. cbn in *. by eapply HQ.
  - by destruct (cleanup h1) as [h2 [u|msg']].
Qed.

(** Removing a directory gives it back; if it succeeds, nothing is left below it. *)
Lemma giving_removeAll P path : giving P [Directory path] (removeAll (R := R) m path).
Proof.
  intros h. pose proof (giving_callAt (R := R) m P (RemoveAll path) (Directory path) ltac:(done) h) as Hm. cbn in Hm.
  unfold removeAll, call, callAt, mbind, M_bind. cbn. destruct (mFails m (length (hLog h))); eexists; (split; [reflexivity|]); exact Hm.
Qed.
Lemma removeAll_run path (h : harness R) : ∃ h', removeAll m path h = (h', Done tt) ∧ hReport h' = hReport h
  ∧ (∀ p, HasPrefix p (path +:+ "/") = false → hFiles h' !! p = hFiles h !! p)
  ∧ ∃ ok n t, hLog h' = hLog h ++ [mkCall (RemoveAll path) ok n t]
  ∧ (ok = true → ∀ p, HasPrefix p (path +:+ "/") = true → hFiles h' !! p = None).
Proof.
  unfold removeAll, call, callAt, mbind, M_bind. cbn. destruct (mFails m (length (hLog h))); eexists; (split; [reflexivity|]); (split; [done|]).
  - split; [done|]. by eexists _, _, _.
  - cbn [hFiles hLog record]. split.
    + intros p Hp. rewrite map_lookup_filter. destruct (hFiles h !! p); [|done]. cbn. by rewrite option_guard_True.
    + eexists _, _, _. split; [reflexivity|]. intros _ p Hp. rewrite map_lookup_filter. destruct (hFiles h !! p); [|done]. cbn.
      rewrite option_guard_False; [done|]. cbn. congruence.
Qed.
(** A file that is written holds the report of that moment. *)
Lemma writeReport_Ok path (h h' : harness R) : writeReport m path h = (h', Done (Ok tt)) →
  hFiles h' !! path = Some (FileReport (hReport h')) ∧ hReport h' = hReport h.
Proof.
  unfold writeReport, writeFile, call, callAt, bindErr, mbind, M_bind. cbn. destruct (mFails m _); [done|]. intros [= <-]. cbn.
  split; [|done]. by rewrite lookup_insert_eq.
Qed.
End files.

(** ** Machines and libraries of the witnesses *)

(** A machine on which every call succeeds and answers 200, and one whose calls fail from a place on. *)
Definition smoothMachine : machine := mkMachine (λ _, None) (λ _, 200) (λ _, "") (λ _, 0%nat).
Definition failingMachine (from : nat) : machine :=
  mkMachine (λ n, if (from <=? n)%nat then Some (errorsNew "no such device") else None) (λ _, 200) (λ _, "") (λ _, 0%nat).
Definition plainLib : CryptoLib unit unit unit unit :=
  mkCrypto (λ _, tt) (λ _, tt) (λ _, tt) (λ _ _ _ _ _, "") (λ _, Ok tt) (λ _, "") (λ _, Ok "") (λ _ _, "") (λ _ _, Ok tt) (λ _, true).
Definition acceptingWorld : World Calm :=
  let w := quietWorld (mkCalm 1700000010000 emptyDb) (zeroRelayState false) in
  mkWorld (w_redis w) (w_relay w) (w_clock w) (w_ticks w) (w_uuid w) (w_uuids w) (w_broker w) (w_sends w) (w_queued w)
    (λ _ _, Ok (mkHttpResponse 202 "202 Accepted" ∅ "" None)) (w_posts w) (w_sentRequests w) (w_spawned w) (w_cache w).
Definition harnessStart {R} (r : R) : harness R := mkHarness [] 0 ∅ [] r [].
