(* ===== verification/ProbeMesh.v ===== *)
(** * The two-relay reflection probe (contrib/ops/fepmesh)

    A program that puts two relays behind recording TLS proxies, sends one seed to the
    first and watches whether the activity comes back.  The proxies share the count of
    generated posts, the threshold and the collector; their requests run concurrently.
    Here one action is the arrival of a request at a proxy, up to the call of the
    backend, or the end of that call; [meshStep] is one action, and a run is any
    sequence of them.  The relays themselves are what answers.  The program around this,
    with its containers and processes, is [MeshRun]. *)

From S2P Require Import Prelude GoStrings GoUrl GoTime Sha256 Json Redis World Negotiation Signer HttpClient ActivityModel.

Definition seedHeader : string := "X-Activity-Relay-Fep-Seed".
Definition controlHeader : string := "X-Activity-Relay-Fep-Control".
Definition publicCollection : string := "https://www.w3.org/ns/activitystreams#Public".

Record postEvent := mkPostEvent {
  peAt : Time; peDestination : string; peActivityID : string; peActivityType : string; peActor : string; peObjectID : string;
  peBodySHA256 : string; peSignatureKeyID : string; peSignatureValid : bool; peSeed : bool; peForwarded : bool;
  peResponseStatus : Z }.
Record getEvent := mkGetEvent {
  geAt : Time; geDestination : string; gePath : string; geSignatureKeyID : string; geSignatureValid : bool; geControl : bool;
  geResponseStatus : Z }.

(** The two writing methods of [statusWriter]: the status it keeps. *)
Inductive writerCall := WriteHeader (status : Z) | Write.
Definition statusWriter (status : Z) (c : writerCall) : Z :=
  match c with
  | WriteHeader s => if status =? 0 then s else status
  | Write => if status =? 0 then 200 else status
  end.

(** ** What a proxy sees in a request *)

Record meshRequest := mkMeshRequest {
  mrMethod : string; mrPath : string; mrHost : string; mrHeader : Header; mrBody : string * option error }.

(** A member of the map [json.Unmarshal] makes: the last one of that name. *)
Definition mapMember (members : list (string * json)) (name : string) : option json :=
  snd <$> List.find (λ p, p.1 =s name) (rev members).
Definition stringOf (v : option json) : string := match v with Some (JString s) => s | _ => "" end.
(** ID, type, actor and object of an activity. *)
Definition activitySummary (body : string) : string * string * string * string :=
  match jsonParse body with
  | Ok (JObject activity) =>
      let objectID := match mapMember activity "object" with
                      | Some (JString object) => object
                      | Some (JObject object) => stringOf (mapMember object "id")
                      | _ => ""
                      end in
      (stringOf (mapMember activity "id"), stringOf (mapMember activity "type"), stringOf (mapMember activity "actor"), objectID)
  | _ => ("", "", "", "")
  end.

Section mesh.
Context {PublicKey : Type}.
(** go-fed/httpsig: the key ID of a request, and its verification. *)
Variable newVerifier : meshRequest → result (string * (PublicKey → result unit)).
Variable keys : gmap string PublicKey.
Variable threshold : Z.

Definition requestSignature (request : meshRequest) : string * bool :=
  if headerGet (mrHeader request) "Signature" =s "" then ("", false)
  else
    let request := mkMeshRequest (mrMethod request) (mrPath request) (mrHost request)
                     (headerSet (mrHeader request) "Host" (mrHost request)) (mrBody request) in
    match newVerifier request with
    | Err _ => ("", false)
    | Ok (keyID, verify) =>
        match keys !! keyID with
        | None => (keyID, false)
        | Some publicKey => (keyID, is_ok (verify publicKey))
        end
    end.

(** ** The proxies *)

Inductive pendingCall :=
  | PendingPlain
  | PendingGET (name path keyID : string) (valid : bool)
  | PendingPOST (event : postEvent).
Record meshState := mkMesh {
  msGenerated : Z; msReached : bool; msPosts : list postEvent; msGets : list getEvent; msPending : list pendingCall }.
Definition meshStart : meshState := mkMesh 0 false [] [] [].

Definition maximumBody : Z := 4 * 2 ^ 20.
Definition postEventOf (name : string) (now : Time) (request : meshRequest) (body : string) : postEvent :=
  let '(keyID, valid) := requestSignature request in
  let '(activityID, activityType, actor, objectID) := activitySummary body in
  mkPostEvent now name activityID activityType actor objectID (sha256Hex body) keyID valid
    (headerGet (mrHeader request) seedHeader =s "1") false 0.
Definition answered (forwarded : bool) (status : Z) (e : postEvent) : postEvent :=
  mkPostEvent (peAt e) (peDestination e) (peActivityID e) (peActivityType e) (peActor e) (peObjectID e) (peBodySHA256 e)
    (peSignatureKeyID e) (peSignatureValid e) (peSeed e) forwarded status.
Definition addPending (p : pendingCall) (s : meshState) : meshState :=
  mkMesh (msGenerated s) (msReached s) (msPosts s) (msGets s) (msPending s ++ [p]).
Definition addPost (e : postEvent) (s : meshState) : meshState :=
  mkMesh (msGenerated s) (msReached s) (msPosts s ++ [e]) (msGets s) (msPending s).
Definition addGET (e : getEvent) (s : meshState) : meshState :=
  mkMesh (msGenerated s) (msReached s) (msPosts s) (msGets s ++ [e]) (msPending s).

(** The handler of a proxy up to the backend: the state, and the status when it answers itself. *)
Definition proxyArrive (name : string) (now : Time) (request : meshRequest) (s : meshState) : meshState * option Z :=
  if headerGet (mrHeader request) controlHeader =s "1" then (addPending PendingPlain s, None)
  else if mrMethod request =s "GET" then
    let '(keyID, valid) := requestSignature request in (addPending (PendingGET name (mrPath request) keyID valid) s, None)
  else if negb (mrMethod request =s "POST") || negb (mrPath request =s "/inbox") then (addPending PendingPlain s, None)
  else
    let '(read, readErr) := mrBody request in
    let truncated := maximumBody <=? len read in
    match readErr, truncated with
    | Some _, false => (s, Some 400)
    | _, _ =>
        let body := ofBytes (take (Z.to_nat maximumBody) (bytes read)) in
        let event := postEventOf name now request body in
        if peSeed event then (addPending (PendingPOST event) s, None)
        else
          let count := msGenerated s + 1 in
          let s := mkMesh count (msReached s) (msPosts s) (msGets s) (msPending s) in
          if threshold <=? count then
            (addPost (answered false 202 event) (mkMesh count true (msPosts s) (msGets s) (msPending s)), Some 202)
          else (addPending (PendingPOST event) s, None)
    end.
(** The end of a call of the backend, with what it wrote. *)
Definition proxyComplete (now : Time) (p : pendingCall) (calls : list writerCall) (s : meshState) : meshState :=
  let status := foldl statusWriter 0 calls in
  match p with
  | PendingPlain => s
  | PendingGET name path keyID valid => addGET (mkGetEvent now name path keyID valid false status) s
  | PendingPOST event => addPost (answered true status event) s
  end.

Inductive meshAction :=
  | Arrives (name : string) (now : Time) (request : meshRequest)
  | Completes (i : nat) (now : Time) (calls : list writerCall)
  | OriginAsked (now : Time) (request : meshRequest).

(** The origin: the status it answers with, after it recorded the request. *)
Definition originStatus (valid : bool) (path : string) : Z :=
  if negb valid then 401 else if oneOf path ["/actor"; "/activities/create-1"] then 200 else 404.
Definition originHandler (now : Time) (request : meshRequest) (s : meshState) : meshState :=
  let '(keyID, valid) := requestSignature request in
  addGET (mkGetEvent now "origin" (mrPath request) keyID valid false (originStatus valid (mrPath request))) s.

Definition meshStep (s : meshState) (a : meshAction) : meshState :=
  match a with
  | Arrives name now request => (proxyArrive name now request s).1
  | Completes i now calls =>
      match msPending s !! i with
      | None => s
      | Some p => proxyComplete now p calls
                    (mkMesh (msGenerated s) (msReached s) (msPosts s) (msGets s) (delete i (msPending s)))
      end
  | OriginAsked now request => originHandler now request s
  end.
End mesh.

(** ** Watching *)

(** The loop of [runProbe]: in round [i] it reads the clock for its condition ([at_ i]), the flag
    and the count, and perhaps the clock again ([again i]); then it sleeps for 100 ms.  [None]: the
    rounds given were not enough. *)
Section watching.
Variables (at_ again : nat → Time) (reached : nat → bool) (count : nat → Z).
Variables (deadline : Time) (quietWindow : Duration).
Fixpoint watch (rounds : nat) (i : nat) (lastCount : Z) (stableSince : Time) : option string :=
  match rounds with
  | O => None
  | Datatypes.S rounds =>
      if negb (Before (at_ i) deadline) then Some "reflection_active_at_timeout"
      else if reached i then Some "reflection_threshold_reached"
      else
        let current := count i in
        if negb (current =? lastCount) then watch rounds (Datatypes.S i) current (again i)
        else if quietWindow <=? again i - stableSince then
          Some (if current =? 0 then "no_reflection_observed" else "reflection_settled")
        else watch rounds (Datatypes.S i) lastCount stableSince
  end.
End watching.

(** ** The summary *)

Definition deliveryKey (e : postEvent) : string := peDestination e +:+ nul +:+ peActivityID e +:+ nul +:+ peBodySHA256 e.
Record postSummary := mkPostSummary {
  psIDs : gset string; psDeliveries : gmap string Z; psAnnounces : gset string; psInvalid : Z }.
Definition summarizePost (s : postSummary) (event : postEvent) : postSummary :=
  if peSeed event then s
  else mkPostSummary
    (if negb (peActivityID event =s "") then {[ peActivityID event ]} ∪ psIDs s else psIDs s)
    (<[ deliveryKey event := default 0 (psDeliveries s !! deliveryKey event) + 1 ]> (psDeliveries s))
    (if (peActivityType event =s "Announce") && negb (peActivityID event =s "") then {[ peActivityID event ]} ∪ psAnnounces s
     else psAnnounces s)
    (if peSignatureValid event then psInvalid s else psInvalid s + 1).
Definition repeatedDeliveries (counts : gmap string Z) : Z :=
  map_fold (λ _ count repeated, if 1 <? count then repeated + (count - 1) else repeated) 0 counts.
(** Distinct activities, repeated deliveries, distinct Announces, invalid signatures. *)
Definition summarizePosts (posts : list postEvent) : Z * Z * Z * Z :=
  let s := foldl summarizePost (mkPostSummary ∅ ∅ ∅ 0) posts in
  (Z.of_nat (size (psIDs s)), repeatedDeliveries (psDeliveries s), Z.of_nat (size (psAnnounces s)), psInvalid s).
Definition summarizeGETs (gets : list getEvent) : Z * Z :=
  let counted := List.filter (λ e, negb (geControl e)) gets in
  (Z.of_nat (length (List.filter geSignatureValid counted)),
   Z.of_nat (length (List.filter (λ e, negb (geSignatureValid e)) counted))).
(** The end of the run: the classification, or the failure of the evidence. *)
Definition meshVerdict (classification : string) (posts : list postEvent) (gets : list getEvent) : result string :=
  let '(_, _, _, invalidPosts) := summarizePosts posts in
  let '(_, invalidGETs) := summarizeGETs gets in
  if (0 <? invalidPosts) || (0 <? invalidGETs) then
    Err (errorsNew ("signature evidence contains " +:+ itoa invalidPosts +:+ " invalid POSTs and " +:+ itoa invalidGETs
                    +:+ " invalid GETs"))
  else Ok classification.

(** ** Redis *)

Definition classifyKey (key : string) : string :=
  let lower := ToLower key in
  if key =s "relay" then "ready"
  else if Contains lower "delayed" then "delayed"
  else if Contains lower "claim" || Contains lower "reserved" then "claimed_or_reserved"
  else if Contains lower "retry" then "retry"
  else if HasPrefix key "relay:activity:" then "retained_activity"
  else if HasPrefix key "relay:canonical:" then "canonical_marker"
  else "other".
Record redisKeyState := mkRedisKeyState { rkKey : string; rkType : string; rkSize : Z; rkCategory : string }.
Record redisState := mkRedisState { rtAt : Time; rtRelay : string; rtCategories : gmap string Z; rtKeys : list redisKeyState }.

(** TYPE, and the size command of the type. *)
Definition TYPE (key : string) : Rcmd string := λ now d,
  (d, Ok (match find now d key with
          | None => "none"
          | Some (mkEntry (RString _) _) => "string"
          | Some (mkEntry (RHash _) _) => "hash"
          | Some (mkEntry (RList _) _) => "list"
          end)).
Definition STRLEN (key : string) : Rcmd Z := λ now d,
  (d, match find now d key with
      | None => Ok 0
      | Some (mkEntry (RString s) _) => Ok (len s)
      | Some _ => Err errWrongType
      end).
Definition HLEN (key : string) : Rcmd Z := λ now d, (d, (λ h : gmap string string, Z.of_nat (size h)) <$> asHash now d key).

Section snapshot.
Context {S : Type} `{Redis S}.
Abbreviation Mw := (M (World S)).
(** A size that cannot be read is zero. *)
Definition sizeOf (kind key : string) : Mw Z :=
  let read c := (r ← redis c; mret (match r with Ok n => n | Err _ => 0 end)) in
  if kind =s "string" then read (STRLEN key)
  else if kind =s "list" then read (LLEN key)
  else if kind =s "hash" then read (HLEN key)
  else mret 0.
Fixpoint snapshotKeys (keys : list string) (state : redisState) : Mw (result redisState) :=
  match keys with
  | [] => mret (Ok state)
  | key :: keys =>
      kind ←! redis (TYPE key);
      size ← sizeOf kind key;
      let category := classifyKey key in
      snapshotKeys keys
        (mkRedisState (rtAt state) (rtRelay state)
           (<[ category := default 0 (rtCategories state !! category) + size ]> (rtCategories state))
           (rtKeys state ++ [mkRedisKeyState key kind size category]))
  end.
Definition redisSnapshot (name : string) : Mw (result redisState) :=
  now ← timeNow;
  keys ←! redisScan "";
  snapshotKeys (sortStrings keys) (mkRedisState now name ∅ []).
End snapshot.

(** ** The seed *)

Section seed.
Context {S : Type} `{Redis S} {PrivateKey : Type}.
Abbreviation Mw := (M (World S)).
Variable httpdate : Time → string.
Variable legacySign : PrivateKey → string → list string → string → outRequest → result outRequest.
Variable sensitive : URL → URL → bool.

Definition seedActivity (relayAActor relayBActor originActivity : string) : json :=
  JObject [("@context", JString "https://www.w3.org/ns/activitystreams"); ("actor", JString relayBActor);
           ("id", JString (relayBActor +:+ "/activities/fep-ae0c-seed")); ("object", JString originActivity);
           ("to", JArray [JString relayAActor]); ("type", JString "Announce")].
(** The status, also of an answer that is refused. *)
Definition seedAnnounce (inboxURL relayAActor relayBActor : string) (relayBKey : PrivateKey) (originActivity : string)
    : Mw (Z * result unit) :=
  let body := jsonMarshal (seedActivity relayAActor relayBActor originActivity) in
  let header := headerSet (headerSet ∅ "Content-Type" "application/activity+json") seedHeader "1" in
  sent ← (u ←! mret (requestURL inboxURL);
          signer ←! mret (NewSigner (relayBActor +:+ "#main-key") (Some relayBKey));
          signed ←! SignPOST httpdate legacySign signer (mkOut "POST" (Some u) (Host u) header (Some body) (len body)) body;
          clientDo (mkHttpClient None sensitive) (mkCtxRequest signed tt));
  mret (match sent with
        | Err e => (0, Err e)
        | Ok (response, _) =>
            if negb (StatusCode response =? 202) then
              (StatusCode response,
               Err (errorsNew ("seed POST returned " +:+ Status response +:+ ": "
                               +:+ TrimSpace (ofBytes (take 4096 (bytes (RespBody response)))))))
            else (StatusCode response, Ok tt)
        end).
End seed.

(** ** The proxies, in any interleaving *)

Section proxies.
Context {PublicKey : Type} (newVerifier : meshRequest → result (string * (PublicKey → result unit))) (keys : gmap string PublicKey).
Variable threshold : Z.
Abbreviation mesh_step := (meshStep newVerifier keys threshold).

Definition countIf {A} (f : A → bool) (l : list A) : Z := Z.of_nat (length (List.filter f l)).
Lemma countIf_app {A} (f : A → bool) l1 l2 : countIf f (l1 ++ l2) = countIf f l1 + countIf f l2.
Proof. unfold countIf. rewrite List.filter_app, length_app. lia. Qed.
Lemma countIf_one {A} (f : A → bool) a : countIf f [a] = if f a then 1 else 0.
Proof. unfold countIf. cbn. by destruct (f a). Qed.
Lemma countIf_delete {A} (f : A → bool) l i a : l !! i = Some a → countIf f (delete i l) = countIf f l - (if f a then 1 else 0).
Proof.
  intros Hi. assert (E : countIf f l = countIf f (take i l ++ [a] ++ drop (Datatypes.S i) l)).
  { f_equal. symmetry. exact (take_drop_middle l i a Hi). }
  rewrite E, delete_take_drop, !countIf_app, countIf_one. lia.
Qed.

Definition generatedPost (e : postEvent) : bool := negb (peSeed e).
Definition forwardedPost (e : postEvent) : bool := negb (peSeed e) && peForwarded e.
Definition generatedPending (p : pendingCall) : bool := match p with PendingPOST e => negb (peSeed e) | _ => false end.

Record meshInv (s : meshState) : Prop := {
  inv_count : msGenerated s = countIf generatedPost (msPosts s) + countIf generatedPending (msPending s);
  inv_forwarded : countIf forwardedPost (msPosts s) + countIf generatedPending (msPending s) = Z.min (msGenerated s) (threshold - 1);
  inv_reached : msReached s = true ↔ threshold ≤ msGenerated s }.

Lemma generated_answered b z e : generatedPost (answered b z e) = negb (peSeed e).
Proof. done. Qed.
Lemma forwarded_answered b z e : forwardedPost (answered b z e) = negb (peSeed e) && b.
Proof. done. Qed.
Lemma generated_pending e : generatedPending (PendingPOST e) = negb (peSeed e).
Proof. done. Qed.
Ltac mesh_count :=
  cbn [fst snd addPost addPending addGET msGenerated msReached msPosts msGets msPending];
  rewrite ?countIf_app, ?countIf_one, ?generated_answered, ?forwarded_answered, ?generated_pending.
Lemma arrive_inv name now request s : 1 ≤ threshold → meshInv s →
  meshInv (proxyArrive newVerifier keys threshold name now request s).1.
Proof.
  intros Ht [I1 I2 I3]. unfold proxyArrive.
  assert (Hplain : ∀ p, generatedPending p = false → meshInv (addPending p s)).
  { intros p Hp. split; mesh_count; rewrite ?Hp; [lia|lia|done]. }
  destruct (_ =s "1"); [by apply Hplain|]. destruct (_ =s "GET"); [destruct (requestSignature _ _ _); by apply Hplain|].
  destruct (_ || _); [by apply Hplain|]. destruct (mrBody request) as [read readErr].
  assert (Hpost : ∀ e, meshInv (if peSeed e then (addPending (PendingPOST e) s, None)
    else let count := msGenerated s + 1 in
         if threshold <=? count then (addPost (answered false 202 e) (mkMesh count true (msPosts s) (msGets s) (msPending s)), Some 202)
         else (addPending (PendingPOST e) (mkMesh count (msReached s) (msPosts s) (msGets s) (msPending s)), None)).1).
  { intros e. destruct (peSeed e) eqn:Es; [apply Hplain; cbn; by rewrite Es|]. cbv zeta.
    destruct (Z.leb_spec threshold (msGenerated s + 1)); split; mesh_count; rewrite ?Es; cbn [negb andb]; try lia.
    rewrite I3. lia. }
  destruct readErr, (maximumBody <=? len read); cbn -[proxyComplete postEventOf]; try apply Hpost. by split.
Qed.
Lemma complete_inv i now calls s : meshInv s → meshInv (mesh_step s (Completes i now calls)).
Proof.
  intros [I1 I2 I3]. cbn. destruct (msPending s !! i) as [p|] eqn:Ei; [|by split].
  assert (Hd := countIf_delete generatedPending _ _ _ Ei).
  destruct p as [|name path keyID valid|e]; cbn [proxyComplete generatedPending] in *;
    split; mesh_count; rewrite ?Hd; try done; try lia; destruct (peSeed e); cbn [negb andb]; lia.
Qed.
Lemma mesh_step_inv s a : 1 ≤ threshold → meshInv s → meshInv (mesh_step s a).
Proof.
  intros Ht Hi. destruct a as [name now request|i now calls|now request]; [by apply arrive_inv|by apply complete_inv|].
  cbn. unfold originHandler. destruct (requestSignature _ _ _). destruct Hi. by split.
Qed.

(** Whatever arrives at the two proxies and in whatever order their calls end, fewer than
    [threshold] generated posts are passed on, those under way included; every generated post is
    counted once, and has its event when nothing is under way; and the flag is set exactly
    when the count has reached the threshold. *)
Theorem proxies_forward_below_threshold (actions : list meshAction) (Ht : 1 ≤ threshold) :
  let s := foldl mesh_step meshStart actions in
  countIf forwardedPost (msPosts s) + countIf generatedPending (msPending s) < threshold
  ∧ (msPending s = [] → countIf generatedPost (msPosts s) = msGenerated s)
  ∧ (msReached s = true ↔ threshold ≤ msGenerated s).
Proof.
  assert (Hi : meshInv (foldl mesh_step meshStart actions)).
  { assert (H0 : meshInv meshStart) by (split; [done|change (0 + 0 = Z.min 0 (threshold - 1)); lia|cbn; split; [done|lia]]). revert H0. generalize meshStart.
    induction actions as [|a actions IH]; [done|]. intros s Hs. apply IH. by apply mesh_step_inv. }
  cbv zeta. destruct Hi as [I1 I2 I3]. split; [lia|]. split; [|done]. intros Hp. rewrite Hp in I1. change (countIf generatedPending []) with 0 in I1. lia.
Qed.
End proxies.

(** ** The summary *)

Lemma elem_of_List_filter {A} (f : A → bool) (l : list A) x : x ∈ List.filter f l ↔ x ∈ l ∧ f x = true.
Proof. by rewrite !list_elem_of_In, List.filter_In. Qed.

Definition excess (count : Z) : Z := if 1 <? count then count - 1 else 0.
Lemma repeated_insert m k x : repeatedDeliveries (<[k := x]> m) = excess x + repeatedDeliveries (delete k m).
Proof.
  unfold repeatedDeliveries. rewrite <- insert_delete_eq. rewrite map_fold_insert_L.
  - unfold excess. destruct (1 <? x); lia.
  - intros j1 j2 z1 z2 y _ _ _. destruct (1 <? z1), (1 <? z2); lia.
  - apply lookup_delete_eq.
Qed.
Lemma repeated_count m k : (∀ j c, m !! j = Some c → 1 ≤ c) →
  repeatedDeliveries (<[k := default 0 (m !! k) + 1]> m)
  = repeatedDeliveries m + (if decide (is_Some (m !! k)) then 1 else 0).
Proof.
  intros Hm. rewrite repeated_insert. destruct (m !! k) as [c|] eqn:E; cbn [from_option id].
  - rewrite decide_True by done. specialize (Hm k c E).
    assert (Hr : repeatedDeliveries m = excess c + repeatedDeliveries (delete k m)) by (rewrite <- (insert_id m k c E) at 1; apply repeated_insert).
    rewrite Hr. unfold excess. destruct (Z.ltb_spec 1 (c + 1)), (Z.ltb_spec 1 c); lia.
  - rewrite decide_False by (by intros [x Hx]). rewrite delete_id by done. change (excess (0 + 1)) with 0. lia.
Qed.

Definition generatedPosts (posts : list postEvent) : list postEvent := List.filter generatedPost posts.
(** The state of the summary, against the posts it has seen. *)
Record summaryOf (posts : list postEvent) (s : postSummary) : Prop := {
  sum_ids : ∀ x, x ∈ psIDs s ↔ x ≠ "" ∧ ∃ e, e ∈ generatedPosts posts ∧ peActivityID e = x;
  sum_announces : ∀ x, x ∈ psAnnounces s ↔
    x ≠ "" ∧ ∃ e, e ∈ generatedPosts posts ∧ peActivityID e = x ∧ peActivityType e = "Announce";
  sum_keys : dom (psDeliveries s) = list_to_set (map deliveryKey (generatedPosts posts));
  sum_positive : ∀ k c, psDeliveries s !! k = Some c → 1 ≤ c;
  sum_repeated : repeatedDeliveries (psDeliveries s) + Z.of_nat (size (psDeliveries s)) = Z.of_nat (length (generatedPosts posts));
  sum_invalid : psInvalid s = countIf (λ e, generatedPost e && negb (peSignatureValid e)) posts }.

Lemma generatedPosts_snoc posts e : generatedPosts (posts ++ [e]) = generatedPosts posts ++ (if peSeed e then [] else [e]).
Proof. unfold generatedPosts. rewrite List.filter_app. cbn. unfold generatedPost. by destruct (peSeed e). Qed.
Lemma size_insert_count (m : gmap string Z) k x :
  size (<[k := x]> m) = (if decide (is_Some (m !! k)) then size m else Datatypes.S (size m))%nat.
Proof.
  case_decide as Hk; [by rewrite map_size_insert_Some|]. rewrite map_size_insert_None; [done|].
  by apply eq_None_not_Some.
Qed.
Lemma summarizePost_sound posts s e : summaryOf posts s → summaryOf (posts ++ [e]) (summarizePost s e).
Proof.
  intros [H1 H2 H3 H4 H5 H6]. unfold summarizePost. pose proof (generatedPosts_snoc posts e) as Hg.
  destruct (peSeed e) eqn:Es.
  - rewrite app_nil_r in Hg. split; rewrite ?Hg; try done. rewrite countIf_app, countIf_one. unfold generatedPost at 2. rewrite Es. cbn. lia.
  - split; rewrite ?Hg; cbn [psIDs psDeliveries psAnnounces psInvalid].
    + intros x. setoid_rewrite elem_of_app. setoid_rewrite list_elem_of_singleton.
      destruct (peActivityID e =s "") eqn:Ei; [apply eqs_true in Ei|apply eqs_false in Ei]; cbn [negb];
        rewrite ?elem_of_union, ?elem_of_singleton, H1; naive_solver.
    + intros x. setoid_rewrite elem_of_app. setoid_rewrite list_elem_of_singleton.
      destruct (peActivityType e =s "Announce") eqn:Et, (peActivityID e =s "") eqn:Ei;
        rewrite ?eqs_true, ?eqs_false in *; cbn [negb andb]; rewrite ?elem_of_union, ?elem_of_singleton, H2; naive_solver.
    + rewrite dom_insert_L, H3, map_app, list_to_set_app_L. cbn. set_solver.
    + intros k c. destruct (decide (k = deliveryKey e)) as [->|Hk].
      * rewrite lookup_insert_eq. intros [= <-]. destruct (psDeliveries s !! deliveryKey e) as [c|] eqn:E; cbn; [specialize (H4 _ _ E)|]; lia.
      * rewrite lookup_insert_ne by done. apply H4.
    + rewrite repeated_count by done. rewrite size_insert_count, length_app. cbn. case_decide; lia.
    + rewrite countIf_app, countIf_one, <- H6. unfold generatedPost. rewrite Es. cbn. destruct (peSignatureValid e); cbn; lia.
Qed.
Lemma summarize_sound posts : summaryOf posts (foldl summarizePost (mkPostSummary ∅ ∅ ∅ 0) posts).
Proof.
  induction posts as [|e posts IH] using rev_ind.
  - split; cbn; try done; try set_solver.
  - rewrite foldl_app. cbn [foldl]. by apply summarizePost_sound.
Qed.

Lemma countIf_generated (f : postEvent → bool) posts : countIf (λ e, generatedPost e && f e) posts = countIf f (generatedPosts posts).
Proof.
  unfold countIf, generatedPosts. induction posts as [|e posts IH]; [done|]. cbn [List.filter].
  destruct (generatedPost e); cbn [andb List.filter]; [|done]. destruct (f e); [|done]. cbn [length]. lia.
Qed.

(** The figures of the report.  Of the posts that are not seeds: [ids] counts the distinct
    non-empty activity IDs, [announces] those of Announces, [repeated] is the number of posts
    beyond the first for the same destination, activity and body, and [invalid] counts those
    without a valid signature. *)
Theorem post_summary_counts (posts : list postEvent) :
  let generated := generatedPosts posts in
  summarizePosts posts =
    (Z.of_nat (size (list_to_set (List.filter (λ x, negb (x =s "")) (map peActivityID generated)) : gset string)),
     Z.of_nat (length generated) - Z.of_nat (size (list_to_set (map deliveryKey generated) : gset string)),
     Z.of_nat (size (list_to_set (List.filter (λ x, negb (x =s ""))
       (map peActivityID (List.filter (λ e, peActivityType e =s "Announce") generated))) : gset string)),
     countIf (λ e, negb (peSignatureValid e)) generated).
Proof.
  cbv zeta. destruct (summarize_sound posts) as [H1 H2 H3 _ H5 H6]. unfold summarizePosts.
  set (s := foldl _ _ posts) in *. f_equal; [f_equal; [f_equal|]|].
  - do 2 f_equal. apply set_eq. intros x. rewrite H1, elem_of_list_to_set, elem_of_List_filter, list_elem_of_fmap, negb_true_iff, eqs_false.
    split; [intros [Hx (e & He & <-)]|intros [(e & -> & He) Hx]]; (split; [|done]) || (split; [done|]); by exists e.
  - rewrite <- H5, <- H3, size_dom. lia.
  - do 2 f_equal. apply set_eq. intros x. rewrite H2, elem_of_list_to_set, elem_of_List_filter, list_elem_of_fmap, negb_true_iff, eqs_false.
    split; [intros [Hx (e & He & <- & Ht)]; split; [|done]|intros [(e & -> & [He Ht]%elem_of_List_filter) Hx]; split; [done|]]; exists e.
    + split; [done|]. apply elem_of_List_filter. by rewrite eqs_true.
    + by apply eqs_true in Ht.
  - rewrite H6. apply countIf_generated.
Qed.

(** ** Watching *)

Section watching.
Variables (at_ again : nat → Time) (reached : nat → bool) (count : nat → Z).
Variables (deadline : Time) (quietWindow : Duration).
(** Every round but the last sleeps for 100 ms. *)
Hypothesis rounds_sleep : ∀ i, at_ i + 100 * Millisecond ≤ at_ (Datatypes.S i).
Abbreviation watched := (watch at_ again reached count deadline quietWindow).

(** Since round [from] the count has been [c], until round [i]. *)
Definition steady (from i : nat) (c : Z) : Prop := ∀ k, (from ≤ k < i)%nat → count k = c.

Lemma watch_ends rounds i lastCount since :
  deadline ≤ at_ i + Z.of_nat rounds * (100 * Millisecond) → is_Some (watched (Datatypes.S rounds) i lastCount since).
Proof.
  revert i lastCount since. induction rounds as [|rounds IH]; intros i lastCount since Hd.
  - cbn. unfold Before. destruct (Z.ltb_spec (at_ i) deadline); [lia|done].
  - cbn [watch]. specialize (rounds_sleep i).
    assert (Hn : deadline ≤ at_ (Datatypes.S i) + Z.of_nat rounds * (100 * Millisecond)) by lia.
    destruct (negb (Before _ _)); [done|]. destruct (reached i); [done|].
    destruct (negb (count i =? lastCount)); [by apply IH|]. destruct (quietWindow <=? _); [done|]. by apply IH.
Qed.

(** How the loop may end, and what it has seen. *)
Definition sound (rounds i : nat) (result_ : string) (from : nat) (since : Time) : Prop :=
  (i ≤ rounds)%nat ∧
  ((result_ = "reflection_active_at_timeout" ∧ deadline ≤ at_ i)
   ∨ (result_ = "reflection_threshold_reached" ∧ reached i = true)
   ∨ (result_ = "no_reflection_observed" ∧ steady from (Datatypes.S i) 0 ∧ quietWindow ≤ again i - since)
   ∨ (result_ = "reflection_settled" ∧ count i ≠ 0 ∧ steady from (Datatypes.S i) (count i) ∧ quietWindow ≤ again i - since)).
Lemma watch_sound rounds i from lastCount since r :
  steady from i lastCount → (from ≤ i)%nat →
  watched rounds i lastCount since = Some r →
  ∃ j from' since', sound (i + rounds) j r from' since' ∧ (i ≤ j)%nat
    ∧ ((from' = from ∧ since' = since) ∨ (i ≤ from' ∧ since' = again from')%nat).
Proof.
  revert i from lastCount since. induction rounds as [|rounds IH]; intros i from lastCount since Hs Hf; [done|].
  cbn [watch]. unfold Before. destruct (Z.ltb_spec (at_ i) deadline); cbn [negb].
  2: { intros [= <-]. exists i, from, since. split; [split; [lia|by left]|]. split; [lia|by left]. }
  destruct (reached i) eqn:Er; [intros [= <-]; exists i, from, since; split; [split; [lia|by right; left]|]; split; [lia|by left]|].
  destruct (Z.eqb_spec (count i) lastCount) as [Ec|Ec]; cbn [negb].
  - assert (Hs' : steady from (Datatypes.S i) lastCount).
    { intros k Hk. destruct (decide (k = i)) as [->|]; [done|]. apply Hs. lia. }
    destruct (Z.leb_spec quietWindow (again i - since)).
    + intros [= <-]. exists i, from, since. split; [split; [lia|]|split; [lia|by left]].
      destruct (Z.eqb_spec (count i) 0) as [E0|E0]; [right; right; left|right; right; right]; repeat split; try done;
        [rewrite <- E0, Ec|rewrite Ec]; done.
    + intros E. destruct (IH (Datatypes.S i) from lastCount since Hs' ltac:(lia) E) as (j & f' & s' & [Hj Hr] & Hij & Hfs).
      exists j, f', s'. split; [split; [lia|done]|]. split; [lia|]. destruct Hfs as [?|[? ?]]; [by left|right; split; [lia|done]].
  - intros E. destruct (IH (Datatypes.S i) i (count i) (again i)) as (j & f' & s' & [Hj Hr] & Hij & Hfs); [|lia|done|].
    { intros k Hk. f_equal. lia. }
    exists j, f', s'. split; [split; [lia|done]|]. split; [lia|]. right. destruct Hfs as [[-> ->]|[? ?]]; [split; [lia|done]|split; [lia|done]].
Qed.

(** Watching ends and says what it saw.  With rounds of at least 100 ms the loop ends within
    the rounds that fit before the deadline, and its word is true: the deadline had passed; the
    threshold was reached; or the count stood still for the quiet window, at zero exactly
    when no reflection is reported. *)
Theorem watching_ends_truthfully (rounds : nat) (lastCount : Z) (since : Time)
    (Hd : deadline ≤ at_ 0 + Z.of_nat rounds * (100 * Millisecond)) :
  ∃ r j from since', watched (Datatypes.S rounds) 0 lastCount since = Some r
    ∧ sound (Datatypes.S rounds) j r from since'
    ∧ ((from = 0%nat ∧ since' = since) ∨ since' = again from).
Proof.
  destruct (watch_ends rounds 0 lastCount since Hd) as [r Hr].
  destruct (watch_sound (Datatypes.S rounds) 0 0 lastCount since r) as (j & from & since' & Hs & _ & Hf); [|lia|done|].
  - intros k Hk. lia.
  - exists r, j, from, since'. split; [done|]. split; [done|]. destruct Hf as [?|[_ ?]]; [by left|by right].
Qed.
End watching.

(** Three rounds of silence. *)
Example silent_watch :
  watch (λ i, Z.of_nat i * 100 * Millisecond) (λ i, Z.of_nat i * 100 * Millisecond) (λ _, false) (λ _, 0)
    Second (200 * Millisecond) 11 0 0 0 = Some "no_reflection_observed".
Proof. vm_compute. reflexivity. Qed.
