(* ===== verification/MeshRun.v ===== *)
(** * The run of the two-relay reflection probe (contrib/ops/fepmesh, [runProbe])

    The program around [ProbeMesh]: it starts two Redis containers, two recording TLS
    proxies, an origin server and four relay processes, sends the seed, watches the
    proxies, and writes a report.  The proxies and the relays run concurrently: their
    state when it is read ([proxies]) and the outside world when it is asked
    ([outside]) are arbitrary.  [fail] panics; the deferred function recovers and writes
    the report of the failure.  Flags are parsed before; texts of times and durations
    are made when the report is written, which keeps the values here; its constant fields
    (schema version and notes) are left out.

    Whatever its calls answer and wherever it fails, a run ends, asks for the release of all it
    took (its evidence directory apart), and leaves a report that says how it ended. *)

From S2P Require Import Prelude GoStrings GoUrl GoTime Sha256 Json Redis World Signer HttpClient ActivityModel Startup.
From S2P Require Import ProbeInbound Harness ProbeMesh Frame.

Record processRecord := mkProcessRecord { prName : string; prPID : Z; prConfigPath : string; prLogPath : string }.
Record meshActors := mkMeshActors { maRelayA : string; maRelayB : string; maOrigin : string; maActivity : string }.
Record meshEvidence := mkMeshEvidence {
  evPosts : list postEvent; evGETs : list getEvent; evGenerated : Z; evUnique : Z; evRepeated : Z; evAnnounces : Z;
  evInvalidPOSTs : Z; evSignedGETs : Z; evInvalidGETs : Z }.
Record meshEnd := mkMeshEnd { meClassification : string; meInfrastructureError : string; meFinishedAt : option Time }.
Record meshReport := mkMeshReport {
  mpStartedAt : option Time; mpTiming : Duration * Duration * Z; mpBinarySHA256 : string; mpActors : meshActors;
  mpProcesses : list processRecord; mpRedis : list redisState; mpSeedStatus : Z; mpEvidence : meshEvidence; mpEnd : meshEnd }.
Definition zeroMeshReport : meshReport :=
  mkMeshReport None (0, 0, 0) "" (mkMeshActors "" "" "" "") [] [] 0 (mkMeshEvidence [] [] 0 0 0 0 0 0 0) (mkMeshEnd "" "" None).
Definition startReport (started : Time) (timeout quietWindow : Duration) (threshold : Z) (r : meshReport) : meshReport :=
  mkMeshReport (Some started) (timeout, quietWindow, threshold) "" (mpActors zeroMeshReport) [] [] 0
    (mpEvidence zeroMeshReport) (mpEnd zeroMeshReport).
Definition setBinary (hash : string) (r : meshReport) : meshReport :=
  mkMeshReport (mpStartedAt r) (mpTiming r) hash (mpActors r) (mpProcesses r) (mpRedis r) (mpSeedStatus r) (mpEvidence r) (mpEnd r).
Definition setActors (a : meshActors) (r : meshReport) : meshReport :=
  mkMeshReport (mpStartedAt r) (mpTiming r) (mpBinarySHA256 r) a (mpProcesses r) (mpRedis r) (mpSeedStatus r) (mpEvidence r) (mpEnd r).
Definition addProcess (p : processRecord) (r : meshReport) : meshReport :=
  mkMeshReport (mpStartedAt r) (mpTiming r) (mpBinarySHA256 r) (mpActors r) (mpProcesses r ++ [p]) (mpRedis r) (mpSeedStatus r)
    (mpEvidence r) (mpEnd r).
Definition addRedis (states : list redisState) (r : meshReport) : meshReport :=
  mkMeshReport (mpStartedAt r) (mpTiming r) (mpBinarySHA256 r) (mpActors r) (mpProcesses r) (mpRedis r ++ states) (mpSeedStatus r)
    (mpEvidence r) (mpEnd r).
Definition setSeedStatus (status : Z) (r : meshReport) : meshReport :=
  mkMeshReport (mpStartedAt r) (mpTiming r) (mpBinarySHA256 r) (mpActors r) (mpProcesses r) (mpRedis r) status (mpEvidence r) (mpEnd r).
Definition setEvidence (e : meshEvidence) (r : meshReport) : meshReport :=
  mkMeshReport (mpStartedAt r) (mpTiming r) (mpBinarySHA256 r) (mpActors r) (mpProcesses r) (mpRedis r) (mpSeedStatus r) e (mpEnd r).
Definition setEnd (e : meshEnd) (r : meshReport) : meshReport :=
  mkMeshReport (mpStartedAt r) (mpTiming r) (mpBinarySHA256 r) (mpActors r) (mpProcesses r) (mpRedis r) (mpSeedStatus r)
    (mpEvidence r) e.

(** ** Texts *)

Definition meshConfigFile (keyPath : string) (redisPort : Z) (apiAddress publicAuthority serviceName : string) : string :=
  line ("ACTOR_PEM: " +:+ keyPath) +:+ line ("REDIS_URL: redis://127.0.0.1:" +:+ itoa redisPort)
  +:+ line ("RELAY_BIND: " +:+ apiAddress) +:+ line ("RELAY_DOMAIN: " +:+ publicAuthority)
  +:+ line ("RELAY_SERVICENAME: " +:+ serviceName) +:+ line "JOB_CONCURRENCY: 1" +:+ line "MAX_ACTIVITY_BYTES: 1048576"
  +:+ line "MAX_FANOUT_TARGETS: 100" +:+ line "MAX_QUEUE_JOBS: 1000".
Definition meshNoProxy : string := "127.0.0.1,127.0.0.2,127.0.0.3,127.0.0.4,localhost".
Definition meshOriginActor (originAddress originActor originPublicKey : string) : json :=
  let inbox := JString ("https://" +:+ originAddress +:+ "/inbox") in
  JObject [("@context", JString "https://www.w3.org/ns/activitystreams"); ("endpoints", JObject [("sharedInbox", inbox)]);
           ("id", JString originActor); ("inbox", inbox); ("preferredUsername", JString "origin");
           ("publicKey", JObject [("id", JString (originActor +:+ "#main-key")); ("owner", JString originActor);
                                  ("publicKeyPem", JString originPublicKey)]);
           ("type", JString "Person")].
Definition meshOriginActivity (originAddress originActor originActivity : string) : json :=
  JObject [("@context", JString "https://www.w3.org/ns/activitystreams"); ("actor", JString originActor);
           ("id", JString originActivity);
           ("object", JObject [("attributedTo", JString originActor); ("content", JString "FEP-ae0c two-relay reflection probe");
                               ("id", JString ("https://" +:+ originAddress +:+ "/objects/1")); ("type", JString "Note")]);
           ("to", JArray [JString publicCollection]); ("type", JString "Create")].
(** The hash one relay has of the other as a follower. *)
Definition followerFields (publicAddress actor activityID : string) : list (string * string) :=
  [("inbox_url", "https://" +:+ publicAddress +:+ "/inbox"); ("activity_id", actor +:+ "/activities/" +:+ activityID);
   ("actor_id", actor); ("mutually_follow", "1")].

Section run.
Context {S : Type} `{Redis S} {PrivateKey PublicKey Certificate TlsCertificate : Type}.
Abbreviation Mp := (M (harness meshReport)).
Variable m : machine.
Variable lib : CryptoLib PrivateKey PublicKey Certificate TlsCertificate.
Variable httpdate : Time → string.
Variable legacySign : PrivateKey → string → list string → string → outRequest → result outRequest.
Variable sensitive : URL → URL → bool.
(** The outside world, and the proxies, at a place of the log. *)
Variable outside : nat → World S.
Variable proxies : nat → meshState.
Variable pid : Z.

(** ** Failures *)

Definition fail {A} (e : error) : Mp A := panic (err_text e).
Definition orFail {A} (c : Mp (result A)) : Mp A := r ← c; match r with Ok a => mret a | Err e => fail e end.
(** The deferred function that recovers. *)
Definition recovering (evidenceDir : string) (body : Mp Z) : Mp Z := λ h,
  match body h with
  | (h, Done code) => (h, Done code)
  | (h, Panic msg) =>
      (now ← clock m;
       _ ← setReport (setEnd (mkMeshEnd "infrastructure_failure" msg (Some now)));
       _ ← writeReport m (filepath_Join evidenceDir "report.json");
       _ ← print (Stderr msg);
       mret 1) h
  end.

Definition fileSHA256 (path : string) : Mp (result string) :=
  _ ←! call m (OpenFile path);
  deferring (attempt m (CloseFile path))
    ('(n, read) ← callAt m (ReadFile path); mret (_ ← read; Ok (sha256Hex (mText m n)))).
Definition startRedis (name : string) (port : Z) : Mp (result string) :=
  _ ←! runOutput m (DockerRun name port) "docker" (dockerRunArgs name port);
  redisReady m name port (redisClose m (Some name)).
Definition keyFingerprint (key : PublicKey) : result string := data ← MarshalPKIXPublicKey lib key; Ok (sha256Hex data).
Definition waitForActor (actorURL : string) : Mp (result unit) :=
  ready ←! awaitFor m (20 * Second)
    (_ ←! mret (requestURL actorURL);
     '(n, answered) ← callAt m (HttpGet actorURL);
     mret (Ok (is_ok answered && (mNumber m n =? 200))));
  mret (if ready : bool then Ok tt else Err (errorsNew ("actor endpoint did not become ready: " +:+ actorURL))).
(** [processSet.close]. *)
Definition processesClose : Mp unit :=
  _ ← attempt m Cancel;
  h ← get;
  let each (f : Z * string → sysCall) :=
    (fix go l : Mp unit := match l with [] => mret tt | p :: l => _ ← attempt m (f p); go l end) (hProcs h) in
  _ ← each (λ p, Kill p.1);
  _ ← each (λ p, Wait p.1);
  each (λ p, CloseFile p.2).
Definition keepProcess (process : Z) (logPath : string) : Mp unit :=
  modify (λ h, mkHarness (hLog h) (hNow h) (hFiles h) (hOut h) (hReport h) (hProcs h ++ [(process, logPath)])).
Fixpoint startProcesses (binary caPath evidenceDir : string) (specifications : list (string * string * string * string)) : Mp unit :=
  match specifications with
  | [] => mret tt
  | (name, config, mode, log) :: specifications =>
      let logPath := filepath_Join evidenceDir log in
      process ← orFail (startRelayProcess m meshNoProxy binary (filepath_Join evidenceDir config) mode caPath logPath);
      _ ← keepProcess process logPath;
      _ ← setReport (addProcess (mkProcessRecord name process config log));
      startProcesses binary caPath evidenceDir specifications
  end.
Definition meshProcesses : list (string * string * string * string) :=
  [("relay-a-server", "relay-a.yml", "server", "relay-a-server.log"); ("relay-a-worker", "relay-a.yml", "worker", "relay-a-worker.log");
   ("relay-b-server", "relay-b.yml", "server", "relay-b-server.log"); ("relay-b-worker", "relay-b.yml", "worker", "relay-b-worker.log")].

(** ** Watching *)

(** One place of the log at which the proxies are read. *)
Definition readProxies {A} (f : meshState → A) : Mp A := n ← sure m ReadProxies; mret (f (proxies n)).
Fixpoint watchLoop (rounds : nat) (deadline : Time) (quietWindow : Duration) (lastCount : Z) (stableSince : Time) : Mp string :=
  match rounds with
  | O => panic "a deadline that is never reached"
  | Datatypes.S rounds =>
      now ← clock m;
      if negb (Before now deadline) then mret "reflection_active_at_timeout"
      else
        reached ← readProxies msReached;
        if reached : bool then mret "reflection_threshold_reached"
        else
          current ← readProxies msGenerated;
          now ← clock m;
          if negb (current =? lastCount) then
            _ ← sure m (Sleep (100 * Millisecond)); watchLoop rounds deadline quietWindow current now
          else if quietWindow <=? now - stableSince then
            mret (if current =? 0 then "no_reflection_observed" else "reflection_settled")
          else _ ← sure m (Sleep (100 * Millisecond)); watchLoop rounds deadline quietWindow lastCount stableSince
  end.
Definition watchMesh (timeout quietWindow : Duration) : Mp string :=
  lastCount ← readProxies msGenerated;
  stableSince ← clock m;
  now ← clock m;
  watchLoop (Datatypes.S (Datatypes.S (Z.to_nat (timeout / (100 * Millisecond))))) (now + timeout) quietWindow lastCount stableSince.

(** ** The run *)

(** From the ready relays to the report on disk. *)
Definition seedAndWatch (redisA redisB publicAAddress : string) (relayBKey : PrivateKey) (actors : meshActors)
    (timeout quietWindow : Duration) (evidenceDir : string) : Mp Z :=
  initialA ← orFail (inWorld m outside (RedisCommands redisA) (redisSnapshot "relay-a-initial"));
  initialB ← orFail (inWorld m outside (RedisCommands redisB) (redisSnapshot "relay-b-initial"));
  _ ← setReport (addRedis [initialA; initialB]);
  '(seedStatus, seeded) ← inWorld m outside HttpSeed
    (seedAnnounce httpdate legacySign sensitive ("https://" +:+ publicAAddress +:+ "/inbox") (maRelayA actors) (maRelayB actors)
       relayBKey (maActivity actors));
  _ ← setReport (setSeedStatus seedStatus);
  _ ← orFail (mret seeded);
  classification ← watchMesh timeout quietWindow;
  _ ← sure m (Sleep (750 * Millisecond));
  finalA ← orFail (inWorld m outside (RedisCommands redisA) (redisSnapshot "relay-a-final"));
  finalB ← orFail (inWorld m outside (RedisCommands redisB) (redisSnapshot "relay-b-final"));
  _ ← setReport (addRedis [finalA; finalB]);
  '(posts, gets) ← readProxies (λ s, (msPosts s, msGets s));
  generated ← readProxies msGenerated;
  let '(unique, repeated, announces, invalidPosts) := summarizePosts posts in
  let '(signedGETs, invalidGETs) := summarizeGETs gets in
  _ ← setReport (setEvidence (mkMeshEvidence posts gets generated unique repeated announces invalidPosts signedGETs invalidGETs));
  verdict ← orFail (mret (meshVerdict classification posts gets));
  now ← clock m;
  _ ← setReport (setEnd (mkMeshEnd verdict "" (Some now)));
  _ ← orFail (writeReport m (filepath_Join evidenceDir "report.json"));
  _ ← printReport;
  mret 0.

(** The relays, with both Redis instances up and the proxies and the origin served. *)
Definition runRelays (relayBinary evidenceDir caPath : string) (redisA redisB : string) (redisAPort redisBPort : Z)
    (apiAAddress apiBAddress publicAAddress publicBAddress relayAKeyPath relayBKeyPath : string) (relayBKey : PrivateKey)
    (actors : meshActors) (timeout quietWindow : Duration) : Mp Z :=
  _ ← orFail (call m (HSet redisA "relay:follower:127.0.0.3" (followerFields publicBAddress (maRelayB actors) "follow-a")));
  _ ← orFail (call m (HSet redisB "relay:follower:127.0.0.2" (followerFields publicAAddress (maRelayA actors) "follow-b")));
  _ ← orFail (writeFile m (filepath_Join evidenceDir "relay-a.yml")
                (FileText (meshConfigFile relayAKeyPath redisAPort apiAAddress publicAAddress "FEP Mesh Relay A")));
  _ ← orFail (writeFile m (filepath_Join evidenceDir "relay-b.yml")
                (FileText (meshConfigFile relayBKeyPath redisBPort apiBAddress publicBAddress "FEP Mesh Relay B")));
  _ ← sure m WithCancel;
  deferring processesClose
    (_ ← startProcesses relayBinary caPath evidenceDir meshProcesses;
     _ ← orFail (waitForActor (maRelayA actors));
     _ ← orFail (waitForActor (maRelayB actors));
     seedAndWatch redisA redisB publicAAddress relayBKey actors timeout quietWindow evidenceDir).

(** Keys, certificates, proxies and the origin, with both Redis instances up. *)
Definition runServers (relayBinary evidenceDir runtimeDir : string) (redisA redisB : string) (redisAPort redisBPort : Z)
    (timeout quietWindow : Duration) : Mp Z :=
  apiAPort ← orFail (freePort m "127.0.0.1");
  apiBPort ← orFail (freePort m "127.0.0.1");
  tlsAPort ← orFail (freePort m "127.0.0.2");
  tlsBPort ← orFail (freePort m "127.0.0.3");
  originPort ← orFail (freePort m "127.0.0.4");
  let apiAAddress := "127.0.0.1:" +:+ itoa apiAPort in
  let apiBAddress := "127.0.0.1:" +:+ itoa apiBPort in
  let publicAAddress := "127.0.0.2:" +:+ itoa tlsAPort in
  let publicBAddress := "127.0.0.3:" +:+ itoa tlsBPort in
  let originAddress := "127.0.0.4:" +:+ itoa originPort in
  let actors := mkMeshActors ("https://" +:+ publicAAddress +:+ "/actor") ("https://" +:+ publicBAddress +:+ "/actor")
                  ("https://" +:+ originAddress +:+ "/actor") ("https://" +:+ originAddress +:+ "/activities/create-1") in
  _ ← setReport (setActors actors);
  relayAKey ← orFail (generateRSAKey m lib);
  relayBKey ← orFail (generateRSAKey m lib);
  originKey ← orFail (generateRSAKey m lib);
  let relayAKeyPath := filepath_Join runtimeDir "relay-a.pem" in
  let relayBKeyPath := filepath_Join runtimeDir "relay-b.pem" in
  _ ← orFail (writePrivateKey m lib relayAKeyPath relayAKey);
  _ ← orFail (writePrivateKey m lib relayBKeyPath relayBKey);
  '(ca, caKey, caPEM) ← orFail (generateCA m lib "Activity-Relay FEP mesh CA");
  let caPath := filepath_Join evidenceDir "ca.pem" in
  _ ← orFail (writeFile m caPath (FileText caPEM));
  certA ← orFail (generateLeaf m lib ca caKey "127.0.0.2" 2);
  certB ← orFail (generateLeaf m lib ca caKey "127.0.0.3" 3);
  certOrigin ← orFail (generateLeaf m lib ca caKey "127.0.0.4" 4);
  printA ← orFail (mret (keyFingerprint (publicOf lib relayAKey)));
  printB ← orFail (mret (keyFingerprint (publicOf lib relayBKey)));
  printOrigin ← orFail (mret (keyFingerprint (publicOf lib originKey)));
  _ ← orFail (writeFile m (filepath_Join evidenceDir "public-key-fingerprints.json")
                (FileMap (<[maOrigin actors +:+ "#main-key" := printOrigin]> (<[maRelayB actors +:+ "#main-key" := printB]>
                            {[ maRelayA actors +:+ "#main-key" := printA ]}))));
  _ ← orFail (mret (if certsFromPEM lib caPEM then Ok tt else Err (errorsNew "unable to load generated CA")));
  _ ← orFail (startProxy m publicAAddress certA apiAAddress);
  deferring (closeServer m publicAAddress)
    (_ ← orFail (startProxy m publicBAddress certB apiBAddress);
     deferring (closeServer m publicBAddress)
       (originPublicKey ← orFail (mret (publicKeyPEM lib (publicOf lib originKey)));
        _ ← orFail (startTLSServer m originAddress certOrigin);
        deferring (closeServer m originAddress)
          (runRelays relayBinary evidenceDir caPath redisA redisB redisAPort redisBPort apiAAddress apiBAddress publicAAddress
             publicBAddress relayAKeyPath relayBKeyPath relayBKey actors timeout quietWindow))).

Definition probeBody (relayBinary evidenceDir runtimeDir : string) (timeout quietWindow : Duration) : Mp Z :=
  binaryHash ← orFail (fileSHA256 relayBinary);
  _ ← setReport (setBinary binaryHash);
  now ← clock m;
  let suffix := itoa pid +:+ "-" +:+ itoa now in
  redisAPort ← orFail (freePort m "127.0.0.1");
  redisBPort ← orFail (freePort m "127.0.0.1");
  redisA ← orFail (startRedis ("activity-relay-fepmesh-a-" +:+ suffix) redisAPort);
  deferring (redisClose m (Some redisA))
    (redisB ← orFail (startRedis ("activity-relay-fepmesh-b-" +:+ suffix) redisBPort);
     deferring (redisClose m (Some redisB))
       (runServers relayBinary evidenceDir runtimeDir redisA redisB redisAPort redisBPort timeout quietWindow)).

(** [runProbe] after its flags are parsed: the exit code. *)
Definition runProbe (relayBinary evidenceDir : string) (timeout quietWindow : Duration) (threshold : Z) : Mp Z :=
  if (relayBinary =s "") || (evidenceDir =s "") then
    _ ← print (Stderr "--relay-binary and --evidence-dir are required"); mret 2
  else if (threshold <? 3) || (timeout <=? quietWindow) then
    _ ← print (Stderr "invalid threshold or observation timing"); mret 2
  else
    made ← call m (MkdirAll evidenceDir);
    match made with
    | Err e => _ ← print (Stderr (err_text e)); mret 1
    | Ok _ =>
        let runtimeDir := filepath_Join evidenceDir "runtime" in
        made ← call m (MkdirAll runtimeDir);
        match made with
        | Err e => _ ← print (Stderr (err_text e)); mret 1
        | Ok _ =>
            deferring (removeAll m runtimeDir)
              (started ← clock m;
               _ ← setReport (startReport started timeout quietWindow threshold);
               recovering evidenceDir (probeBody relayBinary evidenceDir runtimeDir timeout quietWindow))
        end
    end.
End run.

Definition procResources (l : list (Z * string)) : list resource := concat (map (λ p, [Process p.1; OpenedFile p.2]) l).
Lemma procResources_app l l' : procResources (l ++ l') = procResources l ++ procResources l'.
Proof. unfold procResources. by rewrite map_app, concat_app. Qed.

Section spec.
Context {S : Type} `{Redis S} {PrivateKey PublicKey Certificate TlsCertificate : Type}.
Abbreviation Mp := (M (harness meshReport)).
Variable m : machine.
Variable lib : CryptoLib PrivateKey PublicKey Certificate TlsCertificate.
Variable httpdate : Time → string.
Variable legacySign : PrivateKey → string → list string → string → outRequest → result outRequest.
Variable sensitive : URL → URL → bool.
Variable outside : nat → World S.
Variable proxies : nat → meshState.
Variable pid : Z.
Variable P : resource → Prop.
Abbreviation moves := (moves (R := meshReport) P).

(** ** One container *)

Lemma startRedis_run name port (h : harness meshReport) : name ≠ "" → ∃ h' r, startRedis m name port h = (h', Done r)
  ∧ (asked isPing (hLog h') ≤ asked isPing (hLog h) + 150)%nat
  ∧ match r with Ok got => got = name ∧ moves [RedisClient name; Container name] [] h h' | Err _ => moves [] [] h h' end.
Proof.
  intros Hne. unfold startRedis, runOutput, callAt. unfold bindErr, mbind, M_bind. cbn.
  set (c := DockerRun name port). set (n := length (hLog h)).
  destruct (mFails m n) as [e|] eqn:Ef.
  { eexists _, _. split; [reflexivity|]. split; [rewrite asked_record; cbn; lia|]. exact (moves_record m P c false h). }
  set (h1 := record m c true h). pose proof (moves_record m P c true h) as M1. cbv zeta in M1. cbn in M1. fold h1 in M1.
  destruct (redisReady_run m P name port _ (giving_redisClose m P name Hne) (ends_redisClose m name Hne) h1) as (h2 & r & E & K & Ht).
  exists h2, r. split; [exact E|].
  assert (K1 : asked isPing (hLog h1) = asked isPing (hLog h)) by (unfold h1; rewrite asked_record; cbn; lia).
  split; [lia|]. destruct r as [got|e].
  - destruct Ht as [-> M2]. split; [done|]. pose proof (moves_trans P _ _ _ _ _ _ _ M1 M2) as M3.
    apply (moves_eq P _ _ [RedisClient name; Container name] []) in M3; [exact M3|]. intros r _. cbn. lia.
  - pose proof (moves_trans P _ _ _ _ _ _ _ M1 Ht) as M3. apply (moves_eq P _ _ [] []) in M3; [exact M3|]. intros r _. cbn. lia.
Qed.

(** ** Scopes *)

Lemma neutral_orFail {A} (c : Mp (result A)) : neutral P c → neutral P (orFail c).
Proof. intros Hc. unfold orFail, fail. neutral_auto. Qed.
Lemma orFail_bind {A B} (c : Mp (result A)) (f : A → Mp B) h : (orFail c ≫= f) h =
  match c h with
  | (h1, Done (Ok a)) => f a h1
  | (h1, Done (Err e)) => (h1, Panic (err_text e))
  | (h1, Panic msg) => (h1, Panic msg)
  end.
Proof. unfold orFail, mbind, M_bind. by destruct (c h) as [h1 [[a|e]|msg]]. Qed.
(** Balanced, when the set of processes is still empty. *)
Definition clean {A} (c : Mp A) : Prop := ∀ h, hProcs h = [] → ∀ r, P r → balance r (hLog (c h).1) = balance r (hLog h).
Lemma clean_neutral {A} (c : Mp A) : neutral P c → clean c.
Proof. intros Hc h _ r Hr. destruct (Hc h) as [_ Hm]. rewrite Hm by done. cbn. lia. Qed.
Lemma clean_bind {A B} (c : Mp A) (f : A → Mp B) : neutral P c → (∀ a, clean (f a)) → clean (c ≫= f).
Proof.
  intros Hc Hf h He r Hr. specialize (Hc h). unfold mbind, M_bind. destruct (c h) as [h1 [a|msg]]; destruct Hc as [E1 B1]; cbn in *.
  - rewrite Hf by (done || congruence). rewrite B1 by done. lia.
  - rewrite B1 by done. lia.
Qed.
Lemma clean_deferring {A} rs (cleanup : Mp unit) (rest : Mp A) h0 h : giving P rs cleanup → clean rest → moves rs [] h0 h →
  hProcs h0 = [] → ∀ r, P r → balance r (hLog (deferring cleanup rest h).1) = balance r (hLog h0).
Proof.
  intros Hg Hr [E B] He r Pr. unfold deferring. specialize (Hr h ltac:(congruence) r Pr). destruct (rest h) as [h1 o]. cbn in Hr.
  destruct (Hg h1) as (h2 & -> & [_ Hm]). cbn. rewrite Hm, Hr, B by done. cbn. lia.
Qed.
Lemma clean_scope {A B} rs (c : Mp (result A)) cleanup (rest : A → Mp B) : taking P rs c → (∀ a, giving P (rs a) (cleanup a)) →
  (∀ a, clean (rest a)) → clean (a ← orFail c; deferring (cleanup a) (rest a)).
Proof.
  intros Hc Hg Hr h He r Pr. specialize (Hc h). rewrite orFail_bind.
  destruct (c h) as [h1 [[a|e]|msg]]; [by eapply clean_deferring| |].
  all: destruct Hc as [_ Hm]; cbn; rewrite Hm by done; cbn; lia.
Qed.
(** The processes of the set are accounted for by it. *)
Definition owned {A} (c : Mp A) : Prop := ∀ h r, P r →
  balance r (hLog (c h).1) - weight r (procResources (hProcs (c h).1)) = balance r (hLog h) - weight r (procResources (hProcs h)).
Lemma owned_neutral {A} (c : Mp A) : neutral P c → owned c.
Proof. intros Hc h r Hr. destruct (Hc h) as [E Hm]. rewrite E, Hm by done. cbn. lia. Qed.
Lemma owned_bind {A B} (c : Mp A) (f : A → Mp B) : owned c → (∀ a, owned (f a)) → owned (c ≫= f).
Proof.
  intros Hc Hf h r Hr. specialize (Hc h r Hr). unfold mbind, M_bind. destruct (c h) as [h1 [a|msg]]; cbn in *; [|exact Hc].
  by rewrite Hf.
Qed.
Lemma owned_startProcesses binary caPath dir l : owned (startProcesses m binary caPath dir l).
Proof.
  induction l as [|[[[name config] mode] log] l IH]; cbn [startProcesses]; [apply owned_neutral, neutral_ret|].
  intros h r Hr. set (logPath := filepath_Join dir log). set (start := startRelayProcess _ _ _ _ _ _ _).
  pose proof (taking_startRelayProcess m P meshNoProxy binary (filepath_Join dir config) mode caPath logPath h) as Ht.
  fold start in Ht. rewrite (orFail_bind start). destruct (start h) as [h1 [[process|e]|msg]]; destruct Ht as [E B].
  - do 2 (erewrite bind_Done by reflexivity). rewrite IH by done. cbn [hLog hProcs].
    rewrite procResources_app, weight_app, B, E by done. cbn. lia.
  - cbn. rewrite E, B by done. cbn. lia.
  - cbn. rewrite E, B by done. cbn. lia.
Qed.

Lemma giving_each (f : Z * string → sysCall) (q : Z * string → list resource) l :
  (∀ p ok n t, acquires (mkCall (f p) ok n t) = None) →
  (∀ p ok n t, losses (mkCall (f p) ok n t) = q p) →
  giving P (concat (map q l)) ((fix go l : Mp unit := match l with [] => mret tt | p :: l => _ ← attempt m (f p); go l end) l).
Proof.
  intros Ha Hl. induction l as [|p l IH]; [intros h; eexists; split; [reflexivity|apply moves_refl]|]. cbn [map concat].
  apply giving_two; [|exact IH]. intros h. eexists. split; [reflexivity|]. cbn.
  match goal with |- context [record m (f p) ?b h] => pose proof (moves_record m P (f p) b h) as Hm end.
  cbv zeta in Hm. rewrite Hl in Hm. unfold gains in Hm. rewrite Ha in Hm. by destruct (mFails m (length (hLog h))).
Qed.
(** Closing the set gives back its context, and all its processes and log files. *)
Lemma processesClose_run h : ∃ h', processesClose m h = (h', Done tt) ∧ moves [] (Context :: procResources (hProcs h)) h h'.
Proof.
  unfold processesClose. destruct (giving_attempt (R := meshReport) m P Cancel Context ltac:(done) h) as (h1 & E1 & M1).
  erewrite bind_Done by exact E1. erewrite bind_Done by reflexivity. cbv zeta.
  assert (El : hProcs h1 = hProcs h) by apply M1. rewrite El. set (l := hProcs h).
  destruct (giving_each (λ p, Kill p.1) (λ _, []) l ltac:(done) ltac:(done) h1) as (h2 & E2 & M2). erewrite bind_Done by exact E2.
  destruct (giving_each (λ p, Wait p.1) (λ p, [Process p.1]) l ltac:(done) ltac:(done) h2) as (h3 & E3 & M3). erewrite bind_Done by exact E3.
  destruct (giving_each (λ p, CloseFile p.2) (λ p, [OpenedFile p.2]) l ltac:(done) ltac:(done) h3) as (h4 & E4 & M4).
  exists h4. split; [exact E4|].
  pose proof (moves_trans P _ _ _ _ _ _ _ M1 (moves_trans P _ _ _ _ _ _ _ M2 (moves_trans P _ _ _ _ _ _ _ M3 M4))) as Hm.
  apply (moves_eq P _ _ [] (Context :: procResources l)) in Hm; [exact Hm|]. intros r _. clear.
  cbn [app weight]. rewrite !weight_app. cbn [weight].
  assert (Hw : weight r (procResources l) = weight r (concat (map (λ p, [Process p.1]) l)) + weight r (concat (map (λ p, [OpenedFile p.2]) l))
    ∧ weight r (concat (map (λ _ : Z * string, []) l)) = 0).
  { unfold procResources. induction l as [|p l [IH1 IH2]]; [done|]. cbn [map concat app weight]. rewrite IH1. split; [lia|exact IH2]. }
  destruct Hw as [-> ->]. lia.
Qed.

(** ** The stages *)

Lemma neutral_readProxies {A} (f : meshState → A) : neutral P (readProxies m proxies f).
Proof. unfold readProxies. neutral_auto. Qed.
Lemma neutral_watchMesh timeout quietWindow : neutral P (watchMesh m proxies timeout quietWindow).
Proof.
  unfold watchMesh. pose proof @neutral_readProxies. neutral_auto. match goal with |- neutral _ (watchLoop _ _ ?n ?d _ ?c ?t) =>
    generalize n, c, t; intros rounds; induction rounds; intros; cbn [watchLoop] end; neutral_auto.
Qed.
Lemma neutral_waitForActor url : neutral P (waitForActor m url).
Proof. unfold waitForActor. neutral_auto. apply neutral_awaitFor. neutral_auto. Qed.
Lemma neutral_fileSHA256 path : neutral P (fileSHA256 m path).
Proof.
  unfold fileSHA256. apply (neutral_scopeErr P (λ _, [OpenedFile path]) _ (λ _, attempt m (CloseFile path))).
  - by apply taking_call.
  - intros _. by apply giving_attempt.
  - intros _. neutral_auto.
Qed.
#[local] Hint Resolve neutral_orFail neutral_readProxies neutral_watchMesh neutral_waitForActor neutral_fileSHA256 : runs.
Lemma neutral_seedAndWatch a b c k actors timeout quiet dir :
  neutral P (seedAndWatch m httpdate legacySign sensitive outside proxies a b c k actors timeout quiet dir).
Proof. unfold seedAndWatch. neutral_auto. Qed.

Lemma clean_served {A} address (c : Mp (result unit)) (rest : Mp A) : taking P (λ _, [Listener address; Server address]) c →
  clean rest → clean (_ ← orFail c; deferring (closeServer m address) rest).
Proof.
  intros Hc Hr. apply (clean_scope (λ _, [Listener address; Server address]) c (λ _, closeServer m address) (λ _, rest)); [done| |done].
  intros _. apply giving_closeServer.
Qed.
Ltac clean_auto := repeat first
  [ apply clean_bind; [solve [neutral_auto]|intros ?]
  | match goal with |- clean (match ?x with _ => _ end) => destruct x end ].
Lemma clean_runRelays binary dir ca ra rb pa pb aa ab pua pub ka kb key actors timeout quiet :
  clean (runRelays m httpdate legacySign sensitive outside proxies binary dir ca ra rb pa pb aa ab pua pub ka kb key actors timeout quiet).
Proof.
  unfold runRelays. clean_auto. intros h He r Pr. set (body := _ ← startProcesses _ _ _ _ _; _).
  assert (Ho : owned body).
  { unfold body. apply owned_bind; [apply owned_startProcesses|]. intros _. apply owned_neutral. pose proof neutral_seedAndWatch. neutral_auto. }
  clearbody body. pose proof (moves_record m P WithCancel true h) as [E1 B1]. cbn in E1, B1. specialize (B1 r Pr).
  erewrite bind_Done by reflexivity. set (h1 := record m WithCancel true h) in *. unfold deferring.
  specialize (Ho h1 r Pr). destruct (body h1) as [h2 o]. cbn [fst] in Ho.
  destruct (processesClose_run h2) as (h3 & -> & [_ B3]). cbn [fst]. rewrite B3 by done. change (hProcs h1) with (hProcs h) in Ho. rewrite He in Ho. cbn in *. lia.
Qed.
Lemma clean_runServers binary dir rt ra rb pa pb timeout quiet :
  clean (runServers m lib httpdate legacySign sensitive outside proxies binary dir rt ra rb pa pb timeout quiet).
Proof.
  unfold runServers. clean_auto. cbv zeta. clean_auto.
  apply clean_served; [apply taking_startProxy|]. apply clean_served; [apply taking_startProxy|]. clean_auto.
  apply clean_served; [apply taking_startTLSServer|].
  apply clean_runRelays.
Qed.
Lemma clean_redis {A} name port (rest : string → Mp A) : name ≠ "" → (∀ got, clean (rest got)) →
  clean (got ← orFail (startRedis m name port); deferring (redisClose m (Some got)) (rest got)).
Proof.
  intros Hne Hr h He r Pr. rewrite orFail_bind. destruct (startRedis_run name port h Hne) as (h1 & [got|e] & -> & _ & Ht).
  - destruct Ht as [-> M1]. eapply clean_deferring; [by apply giving_redisClose|apply Hr|exact M1|done|done].
  - destruct Ht as [_ B]. cbn. rewrite B by done. cbn. lia.
Qed.
Lemma clean_probeBody binary dir rt timeout quiet :
  clean (probeBody m lib httpdate legacySign sensitive outside proxies pid binary dir rt timeout quiet).
Proof.
  unfold probeBody. clean_auto. cbv zeta. clean_auto. apply clean_redis; [done|]. intros ra. apply clean_redis; [done|]. intros rb.
  apply clean_runServers.
Qed.
Lemma clean_recovering dir body : clean body → clean (recovering m dir body).
Proof.
  intros Hb h He r Pr. unfold recovering. specialize (Hb h He r Pr). destruct (body h) as [h1 [code|msg]]; [exact Hb|].
  cbn in Hb. rewrite <- Hb. match goal with |- balance r (hLog (?c h1).1) = _ => assert (Hn : neutral P c) by neutral_auto end.
  destruct (Hn h1) as [_ B]. rewrite B by done. cbn. lia.
Qed.

(** ** The report *)

Definition verdicts : list string :=
  ["reflection_active_at_timeout"; "reflection_threshold_reached"; "no_reflection_observed"; "reflection_settled"].
(** The report on disk is that of the run: a verdict, on evidence with valid signatures only. *)
Definition reported (path : string) (code : Z) (h : harness meshReport) : Prop :=
  code = 0 ∧ hFiles h !! path = Some (FileReport (hReport h))
  ∧ meClassification (mpEnd (hReport h)) ∈ verdicts ∧ meInfrastructureError (mpEnd (hReport h)) = ""
  ∧ evInvalidPOSTs (mpEvidence (hReport h)) ≤ 0 ∧ evInvalidGETs (mpEvidence (hReport h)) ≤ 0.
Lemma reported_kept path code h h' : hFiles h' = hFiles h → hReport h' = hReport h → reported path code h → reported path code h'.
Proof. unfold reported. intros -> ->. done. Qed.

Lemma watch_verdict timeout quietWindow : ensures (λ c _, c ∈ verdicts) (watchMesh m proxies timeout quietWindow).
Proof.
  unfold watchMesh. do 3 (apply ensures_bind; intros ?). match goal with |- ensures _ (watchLoop _ _ ?n _ _ ?c ?t) => generalize n, c, t end.
  intros rounds. induction rounds as [|rounds IH]; intros last since; cbn [watchLoop]; [done|]. apply ensures_bind. intros now.
  case_match; [intros h; cbn; set_solver|]. apply ensures_bind. intros [|]; [intros h; cbn; set_solver|].
  do 2 (apply ensures_bind; intros ?). case_match; [apply ensures_bind; intros ?; apply IH|].
  case_match; [intros h; cbn; case_match; set_solver|apply ensures_bind; intros ?; apply IH].
Qed.
Lemma orFail_Done {A} (c : Mp (result A)) h h' a : orFail c h = (h', Done a) → c h = (h', Done (Ok a)).
Proof. unfold orFail, mbind, M_bind. destruct (c h) as [h1 [[b|e]|msg]]; [|done|done]. by intros [= <- <-]. Qed.
Lemma seedAndWatch_reported ra rb pa k actors timeout quiet dir :
  ensures (reported (filepath_Join dir "report.json"))
    (seedAndWatch m httpdate legacySign sensitive outside proxies ra rb pa k actors timeout quiet dir).
Proof.
  unfold seedAndWatch. do 3 (apply ensures_bind; intros ?). apply ensures_bind. intros [status seeded]. do 2 (apply ensures_bind; intros ?).
  eapply ensures_bind_with; [apply watch_verdict|]. intros classification Hc. do 4 (apply ensures_bind; intros ?).
  apply ensures_bind. intros [posts gets]. apply ensures_bind. intros generated.
  destruct (summarizePosts posts) as [[[unique repeated] announces] invalidPosts] eqn:Es.
  destruct (summarizeGETs gets) as [signed invalid] eqn:Eg. intros h. erewrite bind_Done by reflexivity.
  rewrite orFail_bind. unfold meshVerdict. rewrite Es, Eg. cbv iota beta.
  destruct ((0 <? invalidPosts) || (0 <? invalid)) eqn:Ei; [done|]. apply orb_false_iff in Ei as [Ei1 Ei2].
  apply Z.ltb_ge in Ei1, Ei2. cbn [mret M_ret]. set (h1 := mkHarness _ _ _ _ _ _).
  unfold clock. erewrite (bind_Done (_ ≫= _)) by (erewrite bind_Done by reflexivity; erewrite bind_Done by reflexivity; reflexivity).
  erewrite bind_Done by reflexivity. rewrite orFail_bind.
  match goal with |- context [writeReport m ?p ?h] => destruct (writeReport m p h) as [h2 [[[]|e]|msg]] eqn:Ew; [|done|done] end.
  apply writeReport_Ok in Ew as [Ef Er]. erewrite bind_Done by reflexivity. change (reported (filepath_Join dir "report.json") 0 h2).
  split; [done|]. split; [exact Ef|]. rewrite Er. by repeat split.
Qed.
Lemma quiet_processesClose : quiet (processesClose m).
Proof.
  unfold processesClose. apply quiet_mbind; [done|]. intros _. apply quiet_get. intros h. cbv zeta.
  assert (Heach : ∀ (f : Z * string → sysCall) l,
    quiet ((fix go l : Mp unit := match l with [] => mret tt | p :: l => _ ← attempt m (f p); go l end) l)).
  { intros f l. induction l as [|p l IH]; [done|]. apply quiet_mbind; [done|]. intros _. exact IH. }
  repeat (apply quiet_mbind; [apply Heach|intros _]). apply Heach.
Qed.
Ltac ensures_auto := repeat first
  [ apply seedAndWatch_reported
  | apply ensures_bind; intros ?
  | match goal with |- ensures _ (match ?x with _ => _ end) => destruct x end
  | apply ensures_deferring; [apply reported_kept|first [apply quiet_processesClose|apply quiet_closeServer|apply quiet_redisClose]|] ].
Lemma probeBody_reported binary dir rt timeout quiet :
  ensures (reported (filepath_Join dir "report.json"))
    (probeBody m lib httpdate legacySign sensitive outside proxies pid binary dir rt timeout quiet).
Proof.
  unfold probeBody. ensures_auto.
Qed.
End spec.

Section theorems.
Context {S : Type} `{Redis S} {PrivateKey PublicKey Certificate TlsCertificate : Type}.
Variable m : machine.
Variable lib : CryptoLib PrivateKey PublicKey Certificate TlsCertificate.
Variable httpdate : Time → string.
Variable legacySign : PrivateKey → string → list string → string → outRequest → result outRequest.
Variable sensitive : URL → URL → bool.
Variable outside : nat → World S.
Variable proxies : nat → meshState.
Variable pid : Z.
Abbreviation probe := (runProbe m lib httpdate legacySign sensitive outside proxies pid).

(** The log of a run only grows. *)
Lemma grows_orFail {A} (c : M (harness meshReport) (result A)) : grows c → grows (orFail c).
Proof. intros Hc. unfold orFail, fail. apply grows_bind; [done|]. intros [a|e]; [apply grows_ret|apply grows_panic]. Qed.
Lemma grows_each (f : Z * string → sysCall) l :
  grows ((fix go l : M (harness meshReport) unit := match l with [] => mret tt | p :: l => _ ← attempt m (f p); go l end) l).
Proof. induction l as [|p l IH]; [apply grows_ret|]. unfold attempt. grows_auto. exact IH. Qed.
Lemma grows_startProcesses binary ca dir l : grows (startProcesses m binary ca dir l).
Proof.
  induction l as [|[[[name config] mode] log] l IH]; cbn [startProcesses]; [apply grows_ret|].
  unfold startRelayProcess, attempt, call, keepProcess, setReport. cbv zeta.
  apply grows_bind; [apply grows_orFail; grows_auto|]. intros ?. grows_auto. exact IH.
Qed.
Lemma grows_watchLoop rounds deadline quietWindow lastCount since : grows (watchLoop m proxies rounds deadline quietWindow lastCount since).
Proof.
  revert lastCount since. induction rounds as [|rounds IH]; intros lastCount since; cbn [watchLoop]; [apply grows_panic|].
  unfold clock, readProxies. grows_auto; apply IH.
Qed.
Ltac head_of t := lazymatch t with ?f _ => head_of f | _ => t end.
Ltac mesh_grows := repeat lazymatch goal with
  | |- grows (orFail _) => apply grows_orFail
  | |- grows (startProcesses _ _ _ _ _) => apply grows_startProcesses
  | |- grows (watchLoop _ _ _ _ _ _ _) => apply grows_watchLoop
  | |- grows ?c => first [grows_step | apply grows_each | let f := head_of c in unfold f]
  end.
Lemma grows_probeBody binary dir rt timeout quietWindow :
  grows (probeBody m lib httpdate legacySign sensitive outside proxies pid binary dir rt timeout quietWindow).
Proof. mesh_grows. Qed.

(** A deferred function that recovers leaves no panic behind. *)
Lemma recovering_run dir body (h : harness meshReport) : ∃ h' code, recovering m dir body h = (h', Done code)
  ∧ match body h with
    | (h1, Done c) => h' = h1 ∧ code = c
    | (h1, Panic msg) => code = 1 ∧ meClassification (mpEnd (hReport h')) = "infrastructure_failure"
        ∧ meInfrastructureError (mpEnd (hReport h')) = msg
        ∧ ∃ l c, hLog h' = hLog h1 ++ l ∧ c ∈ l ∧ crCall c = WriteFile (filepath_Join dir "report.json")
    end.
Proof.
  unfold recovering. destruct (body h) as [h1 [code|msg]]; [by eexists _, _|].
  unfold clock. erewrite (bind_Done (_ ≫= _)) by (erewrite bind_Done by reflexivity; erewrite bind_Done by reflexivity; reflexivity).
  erewrite bind_Done by reflexivity. set (h2 := mkHarness _ _ _ _ _ _). set (path := filepath_Join dir "report.json").
  assert (Hw : ∃ h3 r, writeReport m path h2 = (h3, Done r) ∧ hReport h3 = hReport h2
    ∧ ∃ c, hLog h3 = hLog h2 ++ [c] ∧ crCall c = WriteFile path).
  { unfold writeReport, writeFile, call, callAt, bindErr, mbind, M_bind. cbn -[path h2].
    destruct (mFails m (length (hLog h2))); eexists _, _; (split; [reflexivity|]); (split; [done|]);
      by eexists. }
  destruct Hw as (h3 & r & Ew & Er & c & Hl & Hc). erewrite bind_Done by exact Ew. erewrite bind_Done by reflexivity.
  eexists _, _. split; [reflexivity|]. cbn [hReport hLog]. rewrite Er. repeat (split; [done|]).
  exists [mkCall Now true (mNumber m (length (hLog h1))) (mText m (length (hLog h1))); c], c. split; [|by split; [right; left|]].
  rewrite Hl. unfold h2. cbn. by rewrite <- app_assoc.
Qed.
Lemma call_run c (h : harness meshReport) : ∃ r, call m c h = (record m c (is_ok r) h, Done r).
Proof.
  unfold call, callAt, mbind, M_bind. cbn. destruct (mFails m (length (hLog h))) as [e|]; [by exists (Err e)|by exists (Ok tt)].
Qed.
Lemma grows_recovering dir body : grows body → grows (recovering m dir body).
Proof.
  intros Hb h. specialize (Hb h). unfold recovering. destruct (body h) as [h1 [code|msg]]; [exact Hb|].
  etransitivity; [exact Hb|]. revert h1 Hb. match goal with |- ∀ h1, _ → _ `prefix_of` hLog (?c h1).1 => assert (Hg : grows c) by mesh_grows end.
  intros h1 _. apply Hg.
Qed.
Lemma grows_removeAll path : grows (R := meshReport) (removeAll m path).
Proof. unfold removeAll, call. grows_auto. Qed.

(** The first calls of a run: both directories were made, or making one failed and was the last call. *)
Definition madeDirs (dir : string) (run : list callRecord) : Prop := ∃ c1 c2 rest, run = c1 :: c2 :: rest
  ∧ crCall c1 = MkdirAll dir ∧ crOk c1 = true ∧ crCall c2 = MkdirAll (filepath_Join dir "runtime") ∧ crOk c2 = true.
Definition dirNotMade (dir : string) (run : list callRecord) : Prop :=
  (∃ c, run = [c] ∧ crCall c = MkdirAll dir ∧ crOk c = false)
  ∨ ∃ c1 c2, run = [c1; c2] ∧ crCall c1 = MkdirAll dir ∧ crOk c1 = true
      ∧ crCall c2 = MkdirAll (filepath_Join dir "runtime") ∧ crOk c2 = false.
Lemma made_moves dir path ok (h : harness meshReport) : Directory path = Directory dir ∨ ok = false →
  moves (λ r, r ≠ Directory dir) [] [] h (record m (MkdirAll path) ok h).
Proof.
  intros Hp. pose proof (moves_record (R := meshReport) m (λ r, r ≠ Directory dir) (MkdirAll path) ok h) as Hm. cbv zeta in Hm.
  unfold gains, losses in Hm. cbn in Hm. apply (moves_eq _ _ _ [] []) in Hm; [exact Hm|]. intros r Hr.
  destruct ok; [|done]. destruct Hp as [[= ->]|]; [|done]. cbn. by rewrite bool_decide_eq_false_2 by congruence.
Qed.
(** The run from its directories on. *)
Lemma probe_stages binary dir timeout quietWindow threshold (h : harness meshReport) :
  (∃ h' code run, probe binary dir timeout quietWindow threshold h = (h', Done code) ∧ hLog h' = hLog h ++ run
     ∧ ((code = 2 ∧ run = []) ∨ (code = 1 ∧ dirNotMade dir run)) ∧ moves (λ r, r ≠ Directory dir) [] [] h h')
  ∨ dir ≠ "" ∧ ∃ h1 h2 code h' run, let rt := filepath_Join dir "runtime" in
      recovering m dir (probeBody m lib httpdate legacySign sensitive outside proxies pid binary dir rt timeout quietWindow) h1 = (h2, Done code)
      ∧ probe binary dir timeout quietWindow threshold h = (h', Done code) ∧ removeAll m rt h2 = (h', Done tt)
      ∧ hLog h1 = hLog h ++ run ∧ madeDirs dir run
      ∧ moves (λ r, r ≠ Directory dir) [Directory rt] [] h h1.
Proof.
  assert (Hsame : ∀ l, moves (λ r, r ≠ Directory dir) [] [] h (print l h).1) by (intros l; by apply moves_same).
  unfold runProbe. destruct ((binary =s "") || (dir =s "")) eqn:E1.
  { left. eexists _, _, []. split; [reflexivity|]. cbn [hLog]. rewrite app_nil_r. split; [done|]. split; [by left|apply Hsame]. }
  apply orb_false_iff in E1 as [_ Ed]. apply eqs_false in Ed.
  destruct ((threshold <? 3) || _).
  { left. eexists _, _, []. split; [reflexivity|]. cbn [hLog]. rewrite app_nil_r. split; [done|]. split; [by left|apply Hsame]. }
  destruct (call_run (MkdirAll dir) h) as [r E]. erewrite bind_Done by exact E. set (h1 := record m _ _ h) in *.
  assert (M1 : moves (λ r, r ≠ Directory dir) [] [] h h1) by (apply made_moves; by left).
  set (c1 := mkCall (MkdirAll dir) (is_ok r) (mNumber m (length (hLog h))) (mText m (length (hLog h)))).
  assert (L1 : hLog h1 = hLog h ++ [c1]) by done.
  destruct r as [u|e].
  2: { left. eexists _, _, [c1]. split; [reflexivity|]. split; [done|]. split; [|exact M1]. right. split; [done|]. left. by exists c1. }
  set (rt := filepath_Join dir "runtime"). destruct (call_run (MkdirAll rt) h1) as [r E2]. cbv zeta. erewrite bind_Done by exact E2.
  pose proof (moves_record (R := meshReport) m (λ r, r ≠ Directory dir) (MkdirAll rt) (is_ok r) h1) as M2. cbv zeta in M2.
  set (h2 := record m _ _ h1) in *. set (c2 := mkCall (MkdirAll rt) (is_ok r) (mNumber m (length (hLog h1))) (mText m (length (hLog h1)))).
  assert (L2 : hLog h2 = hLog h ++ [c1; c2]) by (change (hLog h2) with (hLog h1 ++ [c2]); by rewrite L1, <- app_assoc).
  destruct r as [u'|e].
  2: { left. eexists _, _, [c1; c2]. split; [reflexivity|]. split; [exact L2|]. split; [|exact (moves_trans _ _ _ _ _ _ _ _ M1 M2)].
       right. split; [done|]. right. by exists c1, c2. }
  right. split; [done|]. unfold deferring. pose proof (moves_trans _ _ _ _ _ _ _ _ M1 M2) as M12.
  pose proof (neutral_clock (R := meshReport) m (λ r, r ≠ Directory dir) h2) as M3. erewrite bind_Done by reflexivity.
  erewrite bind_Done by reflexivity. set (h4 := mkHarness _ _ _ _ _ _).
  match goal with |- context [recovering m dir ?b h4] => destruct (recovering_run dir b h4) as (h5 & code & E5 & _) end.
  rewrite E5. destruct (removeAll_run m rt h5) as (h6 & E6 & _). rewrite E6.
  eexists h4, h5, code, h6, _. split; [exact E5|]. split; [done|]. split; [done|].
  split; [unfold h4; cbn [hLog record]; rewrite L2, <- app_assoc; reflexivity|]. split; [by eexists c1, c2, _|].
  exact (moves_trans _ _ _ _ _ _ _ _ M12 M3).
Qed.

Lemma grows_probe binary dir timeout quietWindow threshold : grows (probe binary dir timeout quietWindow threshold).
Proof.
  unfold runProbe, print, call, clock, setReport.
  repeat first [apply grows_removeAll | apply grows_recovering, grows_probeBody | grows_step].
Qed.

(** C37: what the reflection probe leaves behind.  Whatever its calls answer, and wherever the run fails,
    for every container, Redis client, listener, server, process, log file and context it took, and
    for its runtime directory with the private keys (everything but the evidence directory), a
    release was asked for by its end, once for each time it was taken: what is held of it after
    the run is what was held before it and, one for one, what those calls of this run failed to
    release.  So a run whose release calls succeed leaves nothing. *)
Theorem mesh_run_leaves_only_failed_releases (binary dir : string) (timeout quietWindow : Duration) (threshold : Z)
    (h : harness meshReport) (r : resource) (Hset : hProcs h = []) (Hother : r ≠ Directory dir) :
  ∃ h' code run, probe binary dir timeout quietWindow threshold h = (h', Done code) ∧ hLog h' = hLog h ++ run
  ∧ held r (hLog h') = held r (hLog h) + Z.of_nat (length (failedReleases r run)).
Proof.
  assert (Hb : ∃ h' code, probe binary dir timeout quietWindow threshold h = (h', Done code) ∧ balance r (hLog h') = balance r (hLog h)).
  { destruct (probe_stages binary dir timeout quietWindow threshold h) as
      [(h' & code & run & E & _ & _ & [_ B])|(_ & h1 & h2 & code & h' & run & E1 & E & E2 & _ & _ & [Ep B1])].
    - exists h', code. split; [done|]. rewrite B by done. cbn. lia.
    - exists h', code. split; [done|]. cbv zeta in *. destruct (giving_removeAll m (λ r, r ≠ Directory dir) (filepath_Join dir "runtime") h2) as (h3 & E3 & [_ B3]).
      rewrite E2 in E3. injection E3 as <-. rewrite B3 by done. pose proof (clean_recovering m (λ r, r ≠ Directory dir) dir _
        (clean_probeBody m lib httpdate legacySign sensitive outside proxies pid (λ r, r ≠ Directory dir) binary dir (filepath_Join dir "runtime") timeout quietWindow)
        h1 ltac:(congruence) r Hother) as Hc. rewrite E1 in Hc. cbn in Hc. rewrite Hc, B1 by done. cbn. lia. }
  destruct Hb as (h' & code & E & B). destruct (grows_probe binary dir timeout quietWindow threshold h) as [run Hrun].
  rewrite E in Hrun. cbn [fst] in Hrun. exists h', code, run. split; [done|]. split; [done|].
  rewrite !held_balance, B, Hrun, failedReleases_app, length_app. lia.
Qed.

(** C38: the exit code of the reflection probe tells how it ended.  It always ends with 0, 1 or
    2.  With 2 no call was made.  Otherwise its first calls are to make the evidence directory and,
    when that succeeded, the runtime directory: if one of them failed it was the last call, and the
    code is 1.  If both succeeded, the code is 0 and the file report.json holds the report of the
    run, one of the four verdicts, on evidence without an invalid signature; or it is 1, the report
    says infrastructure_failure, and among the calls of this run is one to write it to
    report.json. *)
Theorem mesh_exit_code_tells_the_end (binary dir : string) (timeout quietWindow : Duration) (threshold : Z) (h : harness meshReport) :
  let path := filepath_Join dir "report.json" in
  ∃ h' code run, probe binary dir timeout quietWindow threshold h = (h', Done code) ∧ hLog h' = hLog h ++ run
  ∧ ((code = 2 ∧ run = [])
     ∨ (code = 1 ∧ dirNotMade dir run)
     ∨ (madeDirs dir run
        ∧ ((code = 0 ∧ reported path 0 h')
           ∨ (code = 1 ∧ meClassification (mpEnd (hReport h')) = "infrastructure_failure"
              ∧ ∃ c, c ∈ run ∧ crCall c = WriteFile path)))).
Proof.
  intros path. destruct (probe_stages binary dir timeout quietWindow threshold h) as
    [(h' & code & run & E & El & Hc & _)|(Hd & h1 & h2 & code & h' & run & E1 & E & E2 & L1 & Hmade & _)].
  { exists h', code, run. split; [done|]. split; [done|]. destruct Hc; [by left|right; by left]. }
  cbv zeta in *. set (rt := filepath_Join dir "runtime") in *.
  destruct (removeAll_run m rt h2) as (h3 & E3 & Er & Ek & ok & n & t & Elog & _). rewrite E2 in E3. injection E3 as <-.
  set (body := probeBody _ _ _ _ _ _ _ _ _ _ _ _ _) in E1.
  destruct (recovering_run dir body h1) as (h4 & code' & E4 & Hb). rewrite E1 in E4. injection E4 as <- <-.
  pose proof (probeBody_reported m lib httpdate legacySign sensitive outside proxies pid binary dir rt timeout quietWindow h1) as Hq.
  destruct (grows_probeBody binary dir rt timeout quietWindow h1) as [more Hmore]. fold body in Hq, Hmore.
  destruct Hmade as (c1 & c2 & rest & -> & Hmade).
  destruct (body h1) as [h5 [c|msg]]; cbn [fst] in Hmore.
  - destruct Hb as [-> ->]. eexists h', _, _. split; [exact E|]. split; [rewrite Elog, Hmore, L1, <- !app_assoc; reflexivity|].
    right; right. split; [by eexists c1, c2, _|]. left. destruct Hq as (-> & F & Rest). split; [done|]. split; [done|].
    rewrite Er. split; [|exact Rest]. unfold path. rewrite Ek; [exact F|]. by apply not_below.
  - destruct Hb as (-> & Ec & _ & l & c & Hl & Hc & Ew). eexists h', _, _. split; [exact E|].
    split; [rewrite Elog, Hl, Hmore, L1, <- !app_assoc; reflexivity|]. right; right. split; [by eexists c1, c2, _|]. right.
    rewrite Er. split; [done|]. split; [exact Ec|]. exists c. split; [|exact Ew]. set_solver.
Qed.

(** Waiting for a relay asks at most a hundred times. *)
Definition isGet (c : sysCall) : bool := match c with HttpGet _ => true | _ => false end.
Lemma waitForActor_ends url : ends isGet 100 (waitForActor m url).
Proof.
  unfold waitForActor. apply (ends_bindErr _ 100 0); [|intros []; apply ends_ret]. apply awaitFor_ends; [done|done| |done].
  apply (ends_bindErr _ 0 1); [apply ends_ret|]. intros _. apply (ends_bind _ 1 0); [exact (ends_callAt m isGet (HttpGet url))|].
  intros [n r]. apply ends_ret.
Qed.

(** ** Watching *)

(** The state at the beginning of a round, and what the round reads. *)
Definition nextRound (h : harness meshReport) : harness meshReport :=
  record m (Sleep (100 * Millisecond)) true (record m Now true (record m ReadProxies true (record m ReadProxies true (record m Now true h)))).
Definition roundAt (h : harness meshReport) (i : nat) : harness meshReport := Nat.iter i nextRound h.
Definition clockOf (h : harness meshReport) (i : nat) : Time := hNow (record m Now true (roundAt h i)).
Definition againOf (h : harness meshReport) (i : nat) : Time :=
  hNow (record m Now true (record m ReadProxies true (record m ReadProxies true (record m Now true (roundAt h i))))).
Definition reachedOf (h : harness meshReport) (i : nat) : bool := msReached (proxies (Datatypes.S (length (hLog (roundAt h i))))).
Definition countOf (h : harness meshReport) (i : nat) : Z := msGenerated (proxies (Datatypes.S (Datatypes.S (length (hLog (roundAt h i)))))).
Lemma record_length c ok (h : harness meshReport) : length (hLog (record m c ok h)) = Datatypes.S (length (hLog h)).
Proof. cbn. rewrite length_app. cbn. lia. Qed.
Lemma clock_run (h : harness meshReport) : clock m h = (record m Now true h, Done (hNow (record m Now true h))).
Proof. reflexivity. Qed.
Lemma readProxies_run {A} (f : meshState → A) (h : harness meshReport) :
  readProxies m proxies f h = (record m ReadProxies true h, Done (f (proxies (length (hLog h))))).
Proof. reflexivity. Qed.

(** The loop is [watch] on what its rounds read. *)
Lemma watchLoop_watch h rounds deadline quietWindow : ∀ i lastCount since,
  (watchLoop m proxies rounds deadline quietWindow lastCount since (roundAt h i)).2
  = match watch (clockOf h) (againOf h) (reachedOf h) (countOf h) deadline quietWindow rounds i lastCount since with
    | Some c => Done c
    | None => Panic "a deadline that is never reached"
    end.
Proof.
  induction rounds as [|rounds IH]; intros i lastCount since; [done|]. cbn [watchLoop watch].
  erewrite bind_Done by apply clock_run. fold (clockOf h i). destruct (negb (Before (clockOf h i) deadline)); [done|].
  erewrite bind_Done by apply readProxies_run. rewrite record_length. fold (reachedOf h i). destruct (reachedOf h i); [done|].
  erewrite bind_Done by apply readProxies_run. rewrite !record_length. fold (countOf h i).
  erewrite bind_Done by apply clock_run. fold (againOf h i). destruct (negb (countOf h i =? lastCount)).
  - erewrite bind_Done by reflexivity. change (record m (Sleep _) true _) with (roundAt h (Datatypes.S i)). apply IH.
  - destruct (quietWindow <=? againOf h i - since); [by destruct (countOf h i =? 0)|].
    erewrite bind_Done by reflexivity. change (record m (Sleep _) true _) with (roundAt h (Datatypes.S i)). apply IH.
Qed.
Lemma rounds_sleep h i : clockOf h i + 100 * Millisecond ≤ clockOf h (Datatypes.S i).
Proof.
  unfold clockOf. change (roundAt h (Datatypes.S i)) with (nextRound (roundAt h i)). generalize (roundAt h i). intros g.
  unfold nextRound, record. cbn [hNow]. unfold Millisecond. lia.
Qed.

(** the reflection probe stops watching, and its word is true.  The loop ends within the
    rounds that fit before the deadline, with a verdict that the readings of its rounds bear out:
    the deadline had passed; the proxies had reached the threshold; or the count of generated
    posts stood still for the quiet window, at zero exactly when no reflection is reported. *)
Theorem mesh_watch_ends_truthfully (timeout quietWindow : Duration) (h : harness meshReport) (Htimeout : 0 ≤ timeout) :
  let start := record m Now true (record m Now true (record m ReadProxies true h)) in
  ∃ h' verdict j from since, watchMesh m proxies timeout quietWindow h = (h', Done verdict)
  ∧ sound (clockOf start) (againOf start) (reachedOf start) (countOf start) (hNow start + timeout) quietWindow
      (Datatypes.S (Datatypes.S (Z.to_nat (timeout / (100 * Millisecond))))) j verdict from since
  ∧ ((from = 0%nat ∧ since = hNow (record m Now true (record m ReadProxies true h))) ∨ since = againOf start from).
Proof.
  intros start. unfold watchMesh. erewrite bind_Done by apply readProxies_run. do 2 (erewrite bind_Done by apply clock_run). fold start.
  set (k := Z.to_nat (timeout / (100 * Millisecond))). set (last := msGenerated _). set (since := hNow (record m Now true (record m ReadProxies true h))).
  destruct (watching_ends_truthfully (clockOf start) (againOf start) (reachedOf start) (countOf start) (hNow start + timeout) quietWindow
    (rounds_sleep start) (Datatypes.S k) last since) as (r & j & from & since' & Hw & Hs & Hf).
  { pose proof (record_later m Now true start) as Hl. change (hNow (record m Now true start)) with (clockOf start 0) in Hl.
    unfold k, Millisecond in *. rewrite Nat2Z.inj_succ, Z2Nat.id by (apply Z.div_pos; lia).
    pose proof (Z.mul_succ_div_gt timeout (100 * 1000000) ltac:(lia)). lia. }
  pose proof (watchLoop_watch start (Datatypes.S (Datatypes.S k)) (hNow start + timeout) quietWindow 0 last since) as E.
  change (roundAt start 0) with start in E. rewrite Hw in E.
  destruct (watchLoop m proxies (Datatypes.S (Datatypes.S k)) (hNow start + timeout) quietWindow last since start) as [h' o] eqn:El. cbn in E. subst o.
  by exists h', r, j, from, since'.
Qed.
End theorems.

(** ** Witnesses *)

Definition exampleProbe (m : machine) : harness meshReport * outcome Z :=
  runProbe m plainLib (λ _, "") (λ _ _ _ _ r, Ok r) (λ _ _, true) (λ _, acceptingWorld) (λ _, meshStart) 7
    "/usr/bin/relay" "/evidence" (12 * Second) (2 * Second) 12 (harnessStart zeroMeshReport).
(** A run without a failure, and one whose calls fail once the first container is up. *)
Example smooth_run : (exampleProbe smoothMachine).2 = Done 0
  ∧ meClassification (mpEnd (hReport (exampleProbe smoothMachine).1)) = "no_reflection_observed".
Proof. vm_compute. done. Qed.
Example failing_run : (exampleProbe (failingMachine 14)).2 = Done 1
  ∧ asked (λ c, match c with DockerRun _ _ => true | _ => false end) (hLog (exampleProbe (failingMachine 14)).1) = 1%nat.
Proof. vm_compute. done. Qed.

(** The calls of this run fail once the first container is up, those that are to remove it too: the
    container stays.  In a run without a failure it does not. *)
Lemma mesh_run_leaves_only_failed_releases_witness :
  (∃ h' code run, exampleProbe (failingMachine 14) = (h', Done code) ∧ hLog h' = [] ++ run
   ∧ held (Container "activity-relay-fepmesh-a-7-0") (hLog h') = 0 + Z.of_nat (length (failedReleases (Container "activity-relay-fepmesh-a-7-0") run)))
  ∧ held (Container "activity-relay-fepmesh-a-7-0") (hLog (exampleProbe (failingMachine 14)).1) = 1
  ∧ held (Container "activity-relay-fepmesh-a-7-0") (hLog (exampleProbe smoothMachine).1) = 0.
Proof.
  split; [|split; vm_compute; reflexivity].
  unfold exampleProbe. refine (mesh_run_leaves_only_failed_releases (failingMachine 14) plainLib (λ _, "") (λ _ _ _ _ r, Ok r) (λ _ _, true)
    (λ _, acceptingWorld) (λ _, meshStart) 7 "/usr/bin/relay" "/evidence" (12 * Second) (2 * Second) 12 (harnessStart zeroMeshReport)
    (Container "activity-relay-fepmesh-a-7-0") _ _).
  - reflexivity.
  - discriminate.
Defined.
Lemma mesh_watch_ends_truthfully_witness : ∃ h' verdict,
  watchMesh smoothMachine (λ _, meshStart) (12 * Second) (2 * Second) (harnessStart zeroMeshReport) = (h', Done verdict).
Proof.
  destruct (mesh_watch_ends_truthfully smoothMachine (λ _, meshStart) (12 * Second) (2 * Second) (harnessStart zeroMeshReport))
    as (h' & verdict & j & from & since & E & _); [vm_compute; discriminate|]. exists h', verdict. exact E.
Defined.
