(* ===== verification/InboundRun.v ===== *)
(** * The run of the inbound RFC 9421 probe (contrib/ops/rfc9421inbound, [run] and [main])

    The program around [ProbeInbound]: one Redis container, an origin server, a TLS
    proxy and a relay process, four posts, and the report that [main] writes.  The
    relay and the origin run concurrently: the outside world and what the origin has
    counted are arbitrary at every place of the log.  The schema version of the report is
    left out.

    A run asks for the release of what it took; its exit code is zero only for a passing report; and
    where the report goes depends on how the flag was written. *)

From S2P Require Import Prelude GoStrings GoUrl GoTime Json Redis World Signer HttpClient ActivityModel Startup ProbeInbound.
From S2P Require Import Harness Frame.

(** ** Flags *)

(** What [main] takes for the evidence directory: the argument after the last [--evidence-dir]. *)
Fixpoint evidenceArgument (args : list string) (found : string) : string :=
  match args with
  | [] => found
  | arg :: rest =>
      evidenceArgument rest (match rest with
                             | next :: _ => if arg =s "--evidence-dir" then next else found
                             | [] => found
                             end)
  end.

(** ** The report *)

Record inboundReport := mkInboundReport {
  irResult : report; irError : string; irStarted : option Time; irFinished : option Time; irRelayActor : string;
  irOriginActor : string; irPID : Z; irConfigPath : string; irLogPath : string }.
Definition zeroResult (classification : string) : report := mkReport classification 0 0 0 0 0 0 0 ∅.
Definition zeroInboundReport : inboundReport := mkInboundReport (zeroResult "") "" None None "" "" 0 "" "".
Definition onResult (f : report → report) (r : inboundReport) : inboundReport :=
  mkInboundReport (f (irResult r)) (irError r) (irStarted r) (irFinished r) (irRelayActor r) (irOriginActor r) (irPID r)
    (irConfigPath r) (irLogPath r).
Definition inboundStart (started : Time) (r : inboundReport) : inboundReport :=
  mkInboundReport (zeroResult "infrastructure_failure") "" (Some started) None "" "" 0 "" "".
Definition inboundActors (relayActor originActor : string) (r : inboundReport) : inboundReport :=
  mkInboundReport (irResult r) (irError r) (irStarted r) (irFinished r) relayActor originActor (irPID r) (irConfigPath r) (irLogPath r).
Definition inboundPaths (config log : string) (r : inboundReport) : inboundReport :=
  mkInboundReport (irResult r) (irError r) (irStarted r) (irFinished r) (irRelayActor r) (irOriginActor r) (irPID r) config log.
Definition inboundPID (process : Z) (r : inboundReport) : inboundReport :=
  mkInboundReport (irResult r) (irError r) (irStarted r) (irFinished r) (irRelayActor r) (irOriginActor r) process (irConfigPath r)
    (irLogPath r).
Definition inboundFinished (now : Time) (e : option error) (r : inboundReport) : inboundReport :=
  mkInboundReport (irResult r) (match e with Some e => err_text e | None => irError r end) (irStarted r) (Some now) (irRelayActor r)
    (irOriginActor r) (irPID r) (irConfigPath r) (irLogPath r).
(** The results, in the order in which they are assigned. *)
Definition setValid (z : Z) (r : report) : report :=
  mkReport (Classification r) z (ReplayStatus r) (TamperedStatus r) (ValidAfterTamperStatus r) (SignedActorGETs r) (InvalidActorGETs r)
    (NonceMarkerCount r) (Metrics r).
Definition setReplay (z : Z) (r : report) : report :=
  mkReport (Classification r) (ValidStatus r) z (TamperedStatus r) (ValidAfterTamperStatus r) (SignedActorGETs r) (InvalidActorGETs r)
    (NonceMarkerCount r) (Metrics r).
Definition setTampered (z : Z) (r : report) : report :=
  mkReport (Classification r) (ValidStatus r) (ReplayStatus r) z (ValidAfterTamperStatus r) (SignedActorGETs r) (InvalidActorGETs r)
    (NonceMarkerCount r) (Metrics r).
Definition setAfterTamper (z : Z) (r : report) : report :=
  mkReport (Classification r) (ValidStatus r) (ReplayStatus r) (TamperedStatus r) z (SignedActorGETs r) (InvalidActorGETs r)
    (NonceMarkerCount r) (Metrics r).
Definition setGETs (signed invalid : Z) (r : report) : report :=
  mkReport (Classification r) (ValidStatus r) (ReplayStatus r) (TamperedStatus r) (ValidAfterTamperStatus r) signed invalid
    (NonceMarkerCount r) (Metrics r).
Definition setMarkers (n : Z) (r : report) : report :=
  mkReport (Classification r) (ValidStatus r) (ReplayStatus r) (TamperedStatus r) (ValidAfterTamperStatus r) (SignedActorGETs r)
    (InvalidActorGETs r) n (Metrics r).
Definition setMetrics (metrics : gmap string string) (r : report) : report :=
  mkReport (Classification r) (ValidStatus r) (ReplayStatus r) (TamperedStatus r) (ValidAfterTamperStatus r) (SignedActorGETs r)
    (InvalidActorGETs r) (NonceMarkerCount r) metrics.

Section run.
Context {S : Type} `{Redis S} {PrivateKey PublicKey Certificate TlsCertificate Message : Type}.
Abbreviation Mi := (M (harness inboundReport)).
Variable m : machine.
Variable lib : CryptoLib PrivateKey PublicKey Certificate TlsCertificate.
Variable httpdate : Time → string.
Variable legacySign : PrivateKey → string → list string → string → outRequest → result outRequest.
Variable rfcSign : PrivateKey → string → list string → outRequest → result Message.
Variable rfcInclude : Message → outRequest → result outRequest.
Variable marshalDigest : list ascii → result string.
Variable sensitive : URL → URL → bool.
(** The outside world, and what the origin has counted, at a place of the log. *)
Variable outside : nat → World S.
Variable counted : nat → Z * Z.

(** ** Helpers this program shares with the other probe, word for word *)

Definition freePort (ip : string) : Mi (result Z) := Harness.freePort m ip.
Definition generateKey : Mi (result PrivateKey) := generateRSAKey m lib.
Definition writePrivateKey (path : string) (key : PrivateKey) : Mi (result unit) := Harness.writePrivateKey m lib path key.
Definition publicKeyPEM (key : PublicKey) : result string := Harness.publicKeyPEM lib key.
Definition generateCA : Mi (result (Certificate * PrivateKey * string)) := Harness.generateCA m lib "RFC 9421 inbound probe CA".
Definition generateLeaf (ca : Certificate) (caKey : PrivateKey) (ip : string) (serial : Z) : Mi (result TlsCertificate) :=
  Harness.generateLeaf m lib ca caKey ip serial.
Definition startTLSServer (address : string) (certificate : TlsCertificate) : Mi (result unit) :=
  Harness.startTLSServer m address certificate.
Definition startProxy (publicAddress : string) (certificate : TlsCertificate) (backendAddress : string) : Mi (result unit) :=
  Harness.startProxy m publicAddress certificate backendAddress.

Definition startRedis (name : string) (port : Z) : Mi (result string) :=
  '(n, ran) ← callAt m (DockerRun name port);
  match ran with
  | Err e => mret (Err (mkError ("start Redis: " +:+ err_text e +:+ ": " +:+ TrimSpace (mText m n)) (err_is e)))
  | Ok _ => redisReady m name port (_ ← attempt m (CloseRedisClient name); attempt m (DockerRm name))
  end.
Definition inboundNoProxy : string := "127.0.0.1,127.0.0.2,127.0.0.3,localhost".
(** The process, with a context of its own. *)
Definition startRelay (binary configPath caPath logPath : string) : Mi (result Z) :=
  _ ← sure m WithCancel;
  started ← startRelayProcess m inboundNoProxy binary configPath "server" caPath logPath;
  match started with
  | Err e => _ ← attempt m Cancel; mret (Err e)
  | Ok process => mret (Ok process)
  end.
Definition processClose (process : Z) (logPath : string) : Mi unit :=
  _ ← attempt m Cancel; _ ← attempt m (Kill process); _ ← attempt m (Wait process); attempt m (CloseFile logPath).
Definition waitForOK (address : string) : Mi (result unit) :=
  ready ←! awaitFor m (20 * Second)
    ('(n, answered) ← callAt m (HttpGet address); mret (Ok (is_ok answered && (mNumber m n =? 200))));
  mret (if ready : bool then Ok tt else Err (errorsNew ("endpoint did not become ready: " +:+ address))).
Definition send (request : outRequest) : M (World S) (result (Z * string)) :=
  '(response, _) ←! clientDo (mkHttpClient None sensitive) (mkCtxRequest request tt);
  mret (Ok (StatusCode response, TrimSpace (ofBytes (take 4096 (bytes (RespBody response)))))).

(** ** The posts *)

Definition signedRequest (inboxURL originActor : string) (originKey : PrivateKey) (id : string) : Mi (result (outRequest * string)) :=
  inWorld m outside HttpSeed
    (signedActivityRequest httpdate legacySign rfcSign rfcInclude marshalDigest inboxURL originActor originKey id).
(** One request is sent and its status kept, also the zero of a failed one. *)
Definition sendKeeping (keep : Z → report → report) (request : outRequest) : Mi (result unit) :=
  sent ← inWorld m outside HttpSeed (send request);
  match sent with
  | Err e => _ ← setReport (onResult (keep 0)); mret (Err e)
  | Ok (status, _) => _ ← setReport (onResult (keep status)); mret (Ok tt)
  end.
Definition probePosts (inboxURL originActor : string) (originKey : PrivateKey) : Mi (result unit) :=
  '(first, firstBody) ←! signedRequest inboxURL originActor originKey "valid-one";
  _ ←! sendKeeping setValid first;
  replay ←! mret (cloneSignedRequest first firstBody);
  _ ←! sendKeeping setReplay replay;
  '(second, secondBody) ←! signedRequest inboxURL originActor originKey "valid-two";
  tampered ←! mret (cloneSignedRequest second (tamper secondBody));
  _ ←! sendKeeping setTampered tampered;
  validAfterTamper ←! mret (cloneSignedRequest second secondBody);
  sendKeeping setAfterTamper validAfterTamper.
(** What the origin and Redis have seen, and the classification. *)
Definition collectResults (redisName : string) : Mi (result unit) :=
  n ← sure m ReadProxies;
  _ ← setReport (onResult (setGETs (counted n).1 (counted n).2));
  _ ← sure m WithCancel;
  deferring (attempt m Cancel)
    (nonceKeys ←! inWorld m outside (RedisCommands redisName) (redis (KEYS "relay:http-signature:nonce:"));
     _ ← setReport (onResult (setMarkers (Z.of_nat (length nonceKeys))));
     metrics ← inWorld m outside (RedisCommands redisName) (redis (HGETALL "relay:metrics:operational"));
     _ ← setReport (onResult (setMetrics (match metrics with Ok values => values | Err _ => ∅ end)));
     _ ←! mret metrics;
     _ ← setReport (onResult classify);
     mret (Ok tt)).

(** ** The run *)

Definition runRelay (relayBinary evidenceDir caPath caPEM relayKeyPath redisName : string) (redisPort : Z)
    (backendAddress relayAuthority : string) (metricsPort : Z) (relayActor originActor : string) (originKey : PrivateKey)
    : Mi (result unit) :=
  let configPath := filepath_Join evidenceDir "relay.yml" in
  let logPath := filepath_Join evidenceDir "relay-server.log" in
  _ ← setReport (inboundPaths "relay.yml" "relay-server.log");
  _ ←! writeFile m configPath (FileText (relayConfigFile relayKeyPath redisPort backendAddress relayAuthority
                                           ("127.0.0.1:" +:+ itoa metricsPort)));
  _ ← sure m WithCancel;
  deferring (attempt m Cancel)
    (process ←! startRelay relayBinary configPath caPath logPath;
     deferring (processClose process logPath)
       (_ ← setReport (inboundPID process);
        _ ←! mret (if certsFromPEM lib caPEM then Ok tt else Err (errorsNew "unable to trust generated CA"));
        _ ←! waitForOK relayActor;
        _ ←! probePosts ("https://" +:+ relayAuthority +:+ "/inbox") originActor originKey;
        collectResults redisName)).

(** With the working directory made. *)
Definition runServers (relayBinary evidenceDir workdir : string) : Mi (result unit) :=
  relayPublicPort ←! freePort "127.0.0.2";
  originPort ←! freePort "127.0.0.3";
  backendPort ←! freePort "127.0.0.1";
  metricsPort ←! freePort "127.0.0.1";
  redisPort ←! freePort "127.0.0.1";
  '(ca, caKey, caPEM) ←! generateCA;
  relayCertificate ←! generateLeaf ca caKey "127.0.0.2" 2;
  originCertificate ←! generateLeaf ca caKey "127.0.0.3" 3;
  let caPath := filepath_Join workdir "ca.pem" in
  _ ←! writeFile m caPath (FileText caPEM);
  relayKey ←! generateKey;
  originKey ←! generateKey;
  let relayKeyPath := filepath_Join workdir "relay.pem" in
  _ ←! writePrivateKey relayKeyPath relayKey;
  let relayAuthority := "127.0.0.2:" +:+ itoa relayPublicPort in
  let originAuthority := "127.0.0.3:" +:+ itoa originPort in
  let relayActor := "https://" +:+ relayAuthority +:+ "/actor" in
  let originActor := "https://" +:+ originAuthority +:+ "/actor" in
  _ ← setReport (inboundActors relayActor originActor);
  originPublicKey ←! mret (publicKeyPEM (publicOf lib originKey));
  let originAddress := JoinHostPort "127.0.0.3" (itoa originPort) in
  let relayAddress := JoinHostPort "127.0.0.2" (itoa relayPublicPort) in
  _ ←! startTLSServer originAddress originCertificate;
  deferring (attempt m (CloseServer originAddress))
    (deferring (attempt m (CloseListener originAddress))
      (let backendAddress := "127.0.0.1:" +:+ itoa backendPort in
       _ ←! startProxy relayAddress relayCertificate backendAddress;
       deferring (attempt m (CloseServer relayAddress))
         (deferring (attempt m (CloseListener relayAddress))
           (now ← clock m;
            let redisName := "activity-relay-rfc9421-inbound-" +:+ itoa now in
            redisClient ←! startRedis redisName redisPort;
            deferring (_ ← attempt m (CloseRedisClient redisName); attempt m (DockerRm redisName))
              (runRelay relayBinary evidenceDir caPath caPEM relayKeyPath redisName redisPort backendAddress relayAuthority
                 metricsPort relayActor originActor originKey))))).

(** The first deferred function, which runs last: the time, and the error of the run. *)
Definition finishing (body : Mi (result unit)) : Mi (result unit) := λ h,
  let '(h, o) := body h in
  match o with
  | Done r => (now ← clock m; _ ← setReport (inboundFinished now (match r with Ok _ => None | Err e => Some e end)); mret r) h
  | Panic msg => let '(h, _) := (now ← clock m; setReport (inboundFinished now None)) h in (h, Panic msg)
  end.
(** [run] after its flags are parsed; the report is [hReport]. *)
Definition run (relayBinary evidenceDir : string) : Mi (result unit) :=
  started ← clock m;
  _ ← setReport (inboundStart started);
  finishing
    (if (relayBinary =s "") || (evidenceDir =s "")
     then mret (Err (errorsNew "--relay-binary and --evidence-dir are required"))
     else if negb (HasPrefix evidenceDir "/") then mret (Err (errorsNew "evidence directory must be absolute"))
     else
       _ ←! call m (MkdirAll evidenceDir);
       '(n, made) ← callAt m (MkdirTemp "activity-relay-rfc9421-inbound.");
       _ ←! mret made;
       let workdir := mText m n in
       deferring (removeAll m workdir) (runServers relayBinary evidenceDir workdir)).

(** [main] with the arguments after the program's name: the exit code. *)
Definition inboundMain (args : list string) : Mi Z :=
  match parseFlags ["relay-binary"; "evidence-dir"] ∅ args with
  | FlagsRefused code => mret code
  | FlagsParsed values =>
      runErr ← run (default "" (values !! "relay-binary")) (default "" (values !! "evidence-dir"));
      let evidenceDir := evidenceArgument args "" in
      _ ← (if negb (evidenceDir =s "") then
             _ ← attempt m (MkdirAll evidenceDir);
             _ ← writeReport m (filepath_Join evidenceDir "report.json"); mret tt
           else mret tt);
      _ ← printReport;
      h ← get;
      mret (match runErr with
            | Err _ => 1
            | Ok _ => if Classification (irResult (hReport h)) =s "rfc9421_inbound_runtime_pass" then 0 else 1
            end)
  end.
End run.

Section spec.
Context {S : Type} `{Redis S} {PrivateKey PublicKey Certificate TlsCertificate Message : Type}.
Abbreviation Mi := (M (harness inboundReport)).
Variable m : machine.
Variable lib : CryptoLib PrivateKey PublicKey Certificate TlsCertificate.
Variable httpdate : Time → string.
Variable legacySign : PrivateKey → string → list string → string → outRequest → result outRequest.
Variable rfcSign : PrivateKey → string → list string → outRequest → result Message.
Variable rfcInclude : Message → outRequest → result outRequest.
Variable marshalDigest : list ascii → result string.
Variable sensitive : URL → URL → bool.
Variable outside : nat → World S.
Variable counted : nat → Z * Z.
Variable P : resource → Prop.
Abbreviation moves := (moves (R := inboundReport) P).

(** ** What is taken and given back *)

Lemma giving_abandon name : giving (R := inboundReport) P [RedisClient name; Container name]
  (_ ← attempt m (CloseRedisClient name); attempt m (DockerRm name)).
Proof. apply (giving_two P [RedisClient name] [Container name]); by apply giving_attempt. Qed.
Lemma ends_abandon name : ends (R := inboundReport) isPing 0 (_ ← attempt m (CloseRedisClient name); attempt m (DockerRm name)).
Proof. apply (ends_bind _ 0 0); [by apply ends_attempt|intros ?; by apply ends_attempt]. Qed.
Lemma startRedis_inbound name port (h : harness inboundReport) : ∃ h' r, startRedis m name port h = (h', Done r)
  ∧ (asked isPing (hLog h') ≤ asked isPing (hLog h) + 150)%nat
  ∧ match r with Ok _ => moves [RedisClient name; Container name] [] h h' | Err _ => moves [] [] h h' end.
Proof.
  unfold startRedis, callAt. unfold mbind, M_bind. cbn. set (c := DockerRun name port). set (n := length (hLog h)).
  destruct (mFails m n) as [e|] eqn:Ef.
  { eexists _, _. split; [reflexivity|]. split; [rewrite asked_record; cbn; lia|]. exact (moves_record m P c false h). }
  set (h1 := record m c true h). pose proof (moves_record m P c true h) as M1. cbv zeta in M1. cbn in M1. fold h1 in M1.
  destruct (redisReady_run m P name port _ (giving_abandon name) (ends_abandon name) h1) as (h2 & r & E & K & Ht).
  exists h2, r. split; [exact E|].
  assert (K1 : asked isPing (hLog h1) = asked isPing (hLog h)) by (unfold h1; rewrite asked_record; cbn; lia).
  split; [lia|]. destruct r as [got|e].
  - destruct Ht as [_ M2]. pose proof (moves_trans P _ _ _ _ _ _ _ M1 M2) as M3.
    apply (moves_eq P _ _ [RedisClient name; Container name] []) in M3; [exact M3|]. intros r _. cbn. lia.
  - pose proof (moves_trans P _ _ _ _ _ _ _ M1 Ht) as M3. apply (moves_eq P _ _ [] []) in M3; [exact M3|]. intros r _. cbn. lia.
Qed.
Lemma taking_startRelay binary config ca log :
  taking P (λ process, [Context; OpenedFile log; Process process]) (startRelay m binary config ca log).
Proof.
  intros h. unfold startRelay. erewrite bind_Done by reflexivity. set (h1 := record m WithCancel true h).
  pose proof (moves_record m P WithCancel true h) as M1. cbv zeta in M1. cbn in M1. fold h1 in M1.
  pose proof (taking_startRelayProcess m P inboundNoProxy binary config "server" ca log h1) as Ht. unfold mbind, M_bind.
  destruct (startRelayProcess m inboundNoProxy binary config "server" ca log h1) as [h2 [[process|e]|msg]] eqn:E.
  - cbn. exact (moves_trans P _ _ _ _ _ _ _ M1 Ht).
  - cbn. pose proof (giving_callAt m P Cancel Context ltac:(done) h2) as M2. cbn in M2.
    pose proof (moves_trans P _ _ _ _ _ _ _ M1 (moves_trans P _ _ _ _ _ _ _ Ht M2)) as M3.
    apply (moves_eq P _ _ [] []) in M3; [exact M3|]. intros r _. cbn. lia.
  - exfalso. assert (He : ends (R := inboundReport) (λ _, false) 0 (startRelayProcess m inboundNoProxy binary config "server" ca log)).
    { apply (ends_bindErr _ 0 0); [exact (ends_call m (λ _, false) (OpenFile log))|]. intros _.
      apply (ends_bind _ 0 0); [exact (ends_callAt m (λ _, false) (StartProcess _ _ _ _))|]. intros [n [u|e]]; [apply ends_ret|].
      apply (ends_bind _ 0 0); [|intros ?; apply ends_ret]. apply (ends_bind _ 0 0); [exact (ends_callAt m (λ _, false) (CloseFile log))|].
      intros ?. apply ends_ret. }
    destruct (He h1) as (h3 & r & E' & _). congruence.
Qed.
Lemma giving_processClose process log : giving P [Context; OpenedFile log; Process process] (processClose m process log).
Proof.
  intros h. assert (Hk : giving (R := inboundReport) P [] (attempt m (Kill process))) by
    (intros h0; eexists; split; [reflexivity|]; apply (moves_idle m P (Kill process)); done).
  destruct (giving_two (R := inboundReport) P [Context] ([] ++ [Process process] ++ [OpenedFile log]) (attempt m Cancel)
    (_ ← attempt m (Kill process); _ ← attempt m (Wait process); attempt m (CloseFile log))) with h as (h' & E & M1).
  - by apply giving_attempt.
  - apply giving_two; [exact Hk|]. apply giving_two; by apply giving_attempt.
  - exists h'. split; [exact E|]. apply (moves_eq P _ _ [] [Context; OpenedFile log; Process process]) in M1; [exact M1|]. intros r _. cbn. lia.
Qed.
Lemma neutral_waitForOK url : neutral P (waitForOK m url).
Proof. unfold waitForOK. neutral_auto. apply neutral_awaitFor. neutral_auto. Qed.
Lemma neutral_sendKeeping keep request : neutral P (sendKeeping m sensitive outside keep request).
Proof. unfold sendKeeping. neutral_auto. Qed.
Lemma neutral_probePosts url actor key :
  neutral P (probePosts m httpdate legacySign rfcSign rfcInclude marshalDigest sensitive outside url actor key).
Proof. unfold probePosts, signedRequest. pose proof neutral_sendKeeping. neutral_auto. Qed.
(** A context that is cancelled in the end. *)
Lemma neutral_context {A} (rest : Mi (result A)) : neutral P rest → neutral P (_ ← sure m WithCancel; deferring (attempt m Cancel) rest).
Proof.
  intros Hr h. erewrite bind_Done by reflexivity. pose proof (moves_record m P WithCancel true h) as M1. cbv zeta in M1. cbn in M1.
  eapply neutral_deferring; [by apply giving_attempt|exact Hr|exact M1].
Qed.
Lemma neutral_collectResults name : neutral P (collectResults m outside counted name).
Proof. unfold collectResults. do 2 (apply neutral_bind; [neutral_auto|intros ?]). apply neutral_context. neutral_auto. Qed.
Lemma neutral_runRelay binary dir ca pem key redis port backend authority metrics relayActor originActor originKey :
  neutral P (runRelay m lib httpdate legacySign rfcSign rfcInclude marshalDigest sensitive outside counted binary dir ca pem key redis port
               backend authority metrics relayActor originActor originKey).
Proof.
  unfold runRelay. cbv zeta. apply neutral_bind; [neutral_auto|intros _]. apply neutral_bindErr; [neutral_auto|intros _].
  apply neutral_context. eapply neutral_scopeErr; [apply taking_startRelay|intros process; apply giving_processClose|intros process].
  pose proof neutral_waitForOK. pose proof neutral_probePosts. pose proof neutral_collectResults. neutral_auto.
Qed.
(** A served address, closed listener first. *)
Lemma neutral_served {A} address (c : Mi (result unit)) (rest : Mi (result A)) : taking P (λ _, [Listener address; Server address]) c →
  neutral P rest →
  neutral P (_ ←! c; deferring (attempt m (CloseServer address)) (deferring (attempt m (CloseListener address)) rest)).
Proof.
  intros Hc Hr. assert (Hs : neutral P (_ ←! c; deferring (_ ← attempt m (CloseListener address); attempt m (CloseServer address)) rest)).
  { apply (neutral_scopeErr P (λ _, [Listener address; Server address])); [done| |done].
    intros _. apply (giving_two P [Listener address] [Server address]); by apply giving_attempt. }
  - intros h. specialize (Hs h). revert Hs. unfold bindErr, mbind, M_bind, deferring. destruct (c h) as [h1 [[u|e]|msg]]; [|done|done].
    by destruct (rest h1) as [h2 o].
Qed.
Lemma neutral_redis {A} name port (rest : Mi (result A)) : neutral P rest →
  neutral P (_ ←! startRedis m name port; deferring (_ ← attempt m (CloseRedisClient name); attempt m (DockerRm name)) rest).
Proof.
  intros Hr. apply (neutral_scopeErr P (λ _, [RedisClient name; Container name])); [| |done].
  - intros h. destruct (startRedis_inbound name port h) as (h1 & [got|e] & -> & _ & Ht); exact Ht.
  - intros _. apply giving_abandon.
Qed.
Lemma neutral_runServers binary dir workdir :
  neutral P (runServers m lib httpdate legacySign rfcSign rfcInclude marshalDigest sensitive outside counted binary dir workdir).
Proof.
  unfold runServers, freePort, generateKey, generateCA, generateLeaf, writePrivateKey, publicKeyPEM. do 5 (apply neutral_bindErr; [neutral_auto|intros ?]).
  apply neutral_bindErr; [neutral_auto|intros [[ca caKey] caPEM]]. do 2 (apply neutral_bindErr; [neutral_auto|intros ?]). cbv zeta.
  do 4 (apply neutral_bindErr; [neutral_auto|intros ?]). apply neutral_bind; [neutral_auto|intros ?].
  apply neutral_bindErr; [neutral_auto|intros ?]. apply neutral_served; [apply taking_startTLSServer|].
  apply neutral_served; [apply taking_startProxy|]. apply neutral_bind; [neutral_auto|intros now]. cbv zeta.
  apply neutral_redis. apply neutral_runRelay.
Qed.
Lemma neutral_finishing body : neutral P body → neutral P (finishing m body).
Proof.
  intros Hb h. unfold finishing. specialize (Hb h). destruct (body h) as [h1 [r|msg]]; cbn in Hb.
  - match goal with |- moves _ _ _ (?c h1).1 => assert (Hn : neutral P c) by neutral_auto end.
    exact (moves_trans P _ _ _ _ _ _ _ Hb (Hn h1)).
  - cbn. pose proof (neutral_clock m P h1) as Hn. exact (moves_trans P _ _ _ _ _ _ _ Hb Hn).
Qed.
Lemma neutral_run binary dir : ¬ P (Directory dir) →
  neutral P (run m lib httpdate legacySign rfcSign rfcInclude marshalDigest sensitive outside counted binary dir).
Proof.
  intros Hdir. unfold run. apply neutral_bind; [neutral_auto|intros started]. apply neutral_bind; [neutral_auto|intros _].
  apply neutral_finishing. case_match; [neutral_auto|]. case_match; [neutral_auto|].
  apply neutral_bindErr.
  - intros h. pose proof (taking_call (R := inboundReport) m P (MkdirAll dir) (Directory dir) ltac:(done) h) as Ht.
    destruct (ends_call m (λ _, false) (MkdirAll dir) h) as (h1 & r & E & _). rewrite E in *. cbn. destruct r; [|exact Ht].
    apply (moves_eq P _ _ [] []) in Ht; [exact Ht|]. intros r Hr. cbn. rewrite bool_decide_eq_false_2 by (intros <-; done). done.
  - intros _ h. unfold callAt at 1. unfold mbind, M_bind at 1. cbn -[removeAll runServers]. set (n := length (hLog h)).
    set (c := MkdirTemp _). destruct (mFails m n) as [e|].
    + exact (moves_record m P c false h).
    + cbn -[removeAll runServers]. pose proof (moves_record m P c true h) as M1. cbv zeta in M1. cbn in M1.
      eapply neutral_deferring; [apply giving_removeAll|apply neutral_runServers|exact M1].
Qed.
End spec.

Section theorems.
Context {S : Type} `{Redis S} {PrivateKey PublicKey Certificate TlsCertificate Message : Type}.
Abbreviation Mi := (M (harness inboundReport)).
Variable m : machine.
Variable lib : CryptoLib PrivateKey PublicKey Certificate TlsCertificate.
Variable httpdate : Time → string.
Variable legacySign : PrivateKey → string → list string → string → outRequest → result outRequest.
Variable rfcSign : PrivateKey → string → list string → outRequest → result Message.
Variable rfcInclude : Message → outRequest → result outRequest.
Variable marshalDigest : list ascii → result string.
Variable sensitive : URL → URL → bool.
Variable outside : nat → World S.
Variable counted : nat → Z * Z.
Abbreviation main := (inboundMain m lib httpdate legacySign rfcSign rfcInclude marshalDigest sensitive outside counted).
Abbreviation known := ["relay-binary"; "evidence-dir"].

(** The inbound probe asks for the release of all it took, also when it crashes: for every container, client,
    listener, server, process, log file and context it took, and for its working directory with the
    private keys, a release was asked for by its end (whether that call succeeded or not); only the
    evidence directory stays. *)
Theorem inbound_run_asks_every_release (args : list string) (values : gmap string string) (h : harness inboundReport) (r : resource)
    (Hflags : parseFlags known ∅ args = FlagsParsed values)
    (Hdir : r ≠ Directory (default "" (values !! "evidence-dir"))) (Harg : r ≠ Directory (evidenceArgument args "")) :
  balance r (hLog (main args h).1) = balance r (hLog h).
Proof.
  set (P := λ r, r ≠ Directory (default "" (values !! "evidence-dir")) ∧ r ≠ Directory (evidenceArgument args "")).
  assert (Hn : neutral P (main args)); [|destruct (Hn h) as [_ B]; rewrite B by done; cbn; lia].
  unfold inboundMain. rewrite Hflags. apply neutral_bind; [apply neutral_run; by intros [? _]|]. intros runErr. cbv zeta.
  apply neutral_bind; [|intros _; neutral_auto]. case_match; [|neutral_auto]. apply neutral_bind; [|intros _; neutral_auto].
  intros h0. unfold attempt, callAt, mbind, M_bind. cbn. set (c := MkdirAll _). set (n := length (hLog h0)).
  match goal with |- moves _ _ _ _ (record m c ?b h0) => pose proof (moves_record m P c b h0) as Hm; set (ok := b) in * end.
  cbv zeta in Hm. cbn in Hm. apply (moves_eq P _ _ [] []) in Hm; [exact Hm|]. intros r0 [_ Hr]. destruct ok; cbn; [|done].
  rewrite bool_decide_eq_false_2 by congruence. done.
Qed.

(** ** The exit code *)

Lemma ensures_bindErr {A B} (Q : result B → harness inboundReport → Prop) (c : Mi (result A)) (f : A → Mi (result B)) :
  (∀ e h, Q (Err e) h) → (∀ a, ensures Q (f a)) → ensures Q (bindErr c f).
Proof. intros He Hf. apply ensures_bind. intros [a|e]; [apply Hf|]. intros h. apply He. Qed.
(** A run that ends without an error has classified its results. *)
Definition classified (r : result unit) (h : harness inboundReport) : Prop :=
  match r with Ok _ => ∃ r0, irResult (hReport h) = classify r0 | Err _ => True end.
Lemma classified_kept r h h' : hFiles h' = hFiles h → hReport h' = hReport h → classified r h → classified r h'.
Proof. unfold classified. intros _ ->. done. Qed.
Lemma classified_deferring cleanup (rest : Mi (result unit)) : quiet cleanup → ensures classified rest → ensures classified (deferring cleanup rest).
Proof. apply ensures_deferring, classified_kept. Qed.
Lemma quiet_processClose process log : quiet (R := inboundReport) (processClose m process log).
Proof. done. Qed.
Lemma ensures_removeAll path (rest : Mi (result unit)) : ensures classified rest → ensures classified (deferring (removeAll m path) rest).
Proof.
  intros Hr h. unfold deferring. specialize (Hr h). destruct (rest h) as [h1 [r|msg]]; destruct (removeAll_run m path h1) as (h2 & -> & E & _); [|done].
  unfold classified in *. by rewrite E.
Qed.
Lemma ensures_classify : ensures classified (_ ← setReport (onResult classify); mret (Ok tt)).
Proof. intros h. by eexists. Qed.
Ltac classified_auto := repeat first
  [ apply ensures_classify
  | apply ensures_bindErr; [done|intros ?]
  | apply ensures_bind; intros ?
  | match goal with |- ensures _ (match ?x with _ => _ end) => destruct x end
  | apply classified_deferring; [done|] ].
Lemma run_classified binary dir :
  ensures classified (run m lib httpdate legacySign rfcSign rfcInclude marshalDigest sensitive outside counted binary dir).
Proof.
  unfold run. do 2 (apply ensures_bind; intros ?). match goal with |- ensures _ (finishing m ?b) => assert (Hb : ensures classified b) end.
  - case_match; [done|]. case_match; [done|]. apply ensures_bindErr; [done|intros ?]. apply ensures_bind. intros [n made].
    apply ensures_bindErr; [done|intros ?]. cbv zeta. apply ensures_removeAll. unfold runServers, runRelay, collectResults. classified_auto.
  - intros h. unfold finishing. specialize (Hb h). destruct (_ h) as [h1 [r|msg]]; [|done]. exact Hb.
Qed.
Lemma passing_classify r : passing (classify r) = passing r.
Proof. reflexivity. Qed.

(** The inbound probe reports success only for a run that passed: with flags that parse, exit code 0
    means that the four posts were answered as they should be, with the expected signed GETs,
    nonces and metrics, and the report printed says so. *)
Theorem inbound_exit_zero_is_a_pass (args : list string) (values : gmap string string) (h h' : harness inboundReport)
    (Hflags : parseFlags known ∅ args = FlagsParsed values) (Hrun : main args h = (h', Done 0)) :
  passing (irResult (hReport h')) = true ∧ Classification (irResult (hReport h')) = "rfc9421_inbound_runtime_pass"
  ∧ ∃ shown, hOut h' = shown ++ [ShownReport (hReport h')].
Proof.
  revert Hrun. unfold inboundMain. rewrite Hflags. intros (h1 & runErr & E1 & Hrun)%bind_inv. cbv zeta in Hrun.
  pose proof (run_classified (default "" (values !! "relay-binary")) (default "" (values !! "evidence-dir")) h) as Hc. rewrite E1 in Hc.
  apply bind_inv in Hrun as (h2 & [] & E2 & Hrun).
  assert (Er : hReport h2 = hReport h1).
  { revert E2. destruct (evidenceArgument args "" =s ""); cbn [negb]; [unfold mret, M_ret; by intros [= <-]|]. intros (h3 & [] & E3 & E4)%bind_inv. apply bind_inv in E4 as (h4 & r & E4 & E5).
    unfold mret, M_ret in E5. injection E5 as <-.
    unfold attempt, callAt, mbind, M_bind in E3. cbn in E3. injection E3 as <-.
    revert E4. unfold writeReport, writeFile, call, callAt, bindErr, mbind, M_bind. cbn. destruct (mFails m _); by intros [= <- _]. }
  erewrite bind_Done in Hrun by reflexivity. erewrite bind_Done in Hrun by reflexivity. cbn [hReport] in Hrun. rewrite Er in Hrun.
  destruct runErr as [u|e]; [|done]. destruct Hc as [r0 Hr0].
  destruct (Classification (irResult (hReport h1)) =s "rfc9421_inbound_runtime_pass") eqn:Ec; [|done]. apply eqs_true in Ec.
  injection Hrun as <-. cbn [hReport hOut]. rewrite ?Er. split; [|split; [exact Ec|by eexists]].
  rewrite Hr0 in *. rewrite passing_classify. revert Ec. unfold classify. cbn. by destruct (passing r0).
Qed.
End theorems.

(** ** Witnesses *)

Definition exampleMain (m : machine) (args : list string) : harness inboundReport * outcome Z :=
  inboundMain m plainLib (λ _, "") (λ _ _ _ _ r, Ok r) (λ _ _ _ _, Ok tt) (λ _ r, Ok r) (λ _, Ok "") (λ _ _, true)
    (λ _, acceptingWorld) (λ _, (2, 0)) args (harnessStart zeroInboundReport).
Definition inboundMachine : machine := mkMachine (λ _, None) (λ _, 200) (λ _, "/tmp/activity-relay-rfc9421-inbound.1") (λ _, 0%nat).
Definition flagsApart : list string := ["--relay-binary"; "/usr/bin/relay"; "--evidence-dir"; "/evidence"].
Definition flagsJoined : list string := ["--relay-binary=/usr/bin/relay"; "--evidence-dir=/evidence"].
(** Both spellings are the same to [flag.Parse], but [main] looks for the report's directory in the
    arguments itself and does not find it in the second: the report is printed and not written. *)
Example report_needs_the_flag_apart :
  parseFlags ["relay-binary"; "evidence-dir"] ∅ flagsApart = parseFlags ["relay-binary"; "evidence-dir"] ∅ flagsJoined
  ∧ is_Some (hFiles (exampleMain inboundMachine flagsApart).1 !! "/evidence/report.json")
  ∧ hFiles (exampleMain inboundMachine flagsJoined).1 !! "/evidence/report.json" = None
  ∧ is_Some (hFiles (exampleMain inboundMachine flagsJoined).1 !! "/evidence/relay.yml").
Proof. vm_compute. split; [reflexivity|]. split; [by eexists|]. split; [reflexivity|by eexists]. Qed.

Lemma inbound_run_asks_every_release_witness :
  balance (Process 200) (hLog (exampleMain inboundMachine flagsApart).1) = balance (Process 200) [].
Proof.
  unfold exampleMain. destruct (parseFlags ["relay-binary"; "evidence-dir"] ∅ flagsApart) as [values|code] eqn:E;
    [|vm_compute in E; discriminate E].
  refine (inbound_run_asks_every_release inboundMachine plainLib (λ _, "") (λ _ _ _ _ r, Ok r) (λ _ _ _ _, Ok tt) (λ _ r, Ok r) (λ _, Ok "")
    (λ _ _, true) (λ _, acceptingWorld) (λ _, (2, 0)) flagsApart values (harnessStart zeroInboundReport) (Process 200) E _ _).
  - discriminate.
  - discriminate.
Defined.
(** The world of a relay that behaves, by the place of the call: the replay and the changed body are refused. *)
Definition passingWorld (n : nat) : World Calm :=
  let counters : gmap string string := list_to_map
    [("http_signature_verifications_total|rfc9421|success|accepted", "2"); ("http_signature_verifications_total|rfc9421|failure|replay", "1");
     ("http_signature_verifications_total|rfc9421|failure|digest", "1")] in
  let d := put "relay:metrics:operational" (RHash counters) None
             (put "relay:http-signature:nonce:1" (RString "1") None (put "relay:http-signature:nonce:2" (RString "1") None emptyDb)) in
  let w := quietWorld (mkCalm 1700000010000 d) (zeroRelayState false) in
  mkWorld (w_redis w) (w_relay w) (w_clock w) (w_ticks w) (w_uuid w) (w_uuids w) (w_broker w) (w_sends w) (w_queued w)
    (λ _ _, Ok (if ((n =? 45) || (n =? 49))%nat then mkHttpResponse 202 "202 Accepted" ∅ "" None else mkHttpResponse 400 "400 Bad Request" ∅ "" None))
    (w_posts w) (w_sentRequests w) (w_spawned w) (w_cache w).
Definition passingMain : harness inboundReport * outcome Z :=
  inboundMain inboundMachine plainLib (λ _, "") (λ _ _ _ _ r, Ok r) (λ _ _ _ _, Ok tt) (λ _ r, Ok r) (λ _, Ok "") (λ _ _, true)
    passingWorld (λ _, (2, 0)) flagsApart (harnessStart zeroInboundReport).
Lemma passingMain_zero : passingMain = (passingMain.1, Done 0).
Proof.
  assert (E : passingMain.2 = Done 0) by (vm_compute; reflexivity). rewrite <- E. apply surjective_pairing.
Qed.
Lemma inbound_exit_zero_is_a_pass_witness : passing (irResult (hReport passingMain.1)) = true.
Proof.
  destruct (parseFlags ["relay-binary"; "evidence-dir"] ∅ flagsApart) as [values|code] eqn:E; [|vm_compute in E; discriminate E].
  exact (proj1 (inbound_exit_zero_is_a_pass inboundMachine plainLib (λ _, "") (λ _ _ _ _ r, Ok r) (λ _ _ _ _, Ok tt) (λ _ r, Ok r)
    (λ _, Ok "") (λ _ _, true) passingWorld (λ _, (2, 0)) flagsApart values (harnessStart zeroInboundReport) passingMain.1 E passingMain_zero)).
Defined.
