(* ===== verification/NegotiationRun.v ===== *)
(** * The run of the signature-negotiation probe (contrib/ops/signature-negotiation-probe, [main])

    The program around [ProbeNegotiation]: it connects to Redis, starts three test
    servers, drives the relay's signer against them, and writes its report.  The state
    that a run carries along is the world its requests go to.  Every failed check is a
    panic, which ends the program after its deferred calls.

    A run asks for the release of what it took, and it succeeds only if the probe of
    [ProbeNegotiation] passed in its world. *)

From S2P Require Import Prelude GoStrings GoUrl GoTime Redis World Negotiation Signer HttpClient ActivityModel DoGet RelayConfig.
From S2P Require Import Startup ProbeNegotiation Harness Frame DoGetSpec ProbeExamples.

Section run.
Context {S : Type} `{Redis S} {PrivateKey PublicKey Certificate TlsCertificate Message : Type}.
Abbreviation Mn := (M (harness (World S))).
Variable m : machine.
Variable lib : CryptoLib PrivateKey PublicKey Certificate TlsCertificate.
Variable httpdate : Time → string.
Variable legacySign : PrivateKey → string → list string → string → outRequest → result outRequest.
Variable rfcSign : PrivateKey → string → list string → outRequest → result Message.
Variable rfcInclude : Message → outRequest → result outRequest.
Variable unmarshal : list string → result sfvDictionary.
Variable marshalDigest : list ascii → result string.
Variable sensitive : URL → URL → bool.
(** [redis.ParseURL], and [json.MarshalIndent] of the report. *)
Variable parseRedisURL : string → result redisOptions.
Variable marshalReport : report → result string.

(** [if err != nil { panic(err) }]. *)
Definition orPanic {A} (c : Mn (result A)) : Mn A := r ← c; match r with Ok a => mret a | Err e => panic (err_text e) end.
(** A part of the program that talks to the world. *)
Definition onWorld {A} (f : M (World S) A) : Mn A := λ h,
  let '(w, o) := f (hReport h) in
  (mkHarness (hLog h) (hNow h) (hFiles h) (hOut h) w (hProcs h), o).

(** [httptest.NewServer]: its listener and its URL. *)
Definition newServer : Mn (result (string * string)) :=
  let served (address host : string) (n : nat) :=
    _ ← sure m (Serve address); mret (Ok (address, "http://" +:+ host +:+ ":" +:+ itoa (mNumber m n))) in
  '(n, opened) ← callAt m (Listen "127.0.0.1:0");
  match opened with
  | Ok _ => served "127.0.0.1:0" "127.0.0.1" n
  | Err _ =>
      '(n, opened) ← callAt m (Listen "[::1]:0");
      match opened with
      | Ok _ => served "[::1]:0" "[::1]" n
      | Err e => mret (Err (errorsNew ("httptest: failed to listen on a port: " +:+ err_text e)))
      end
  end.
(** Server.Close of net/http/httptest. *)
Definition closeTestServer (address : string) : Mn unit :=
  _ ← attempt m (CloseListener address); attempt m (CloseServer address).

(** The report on disk, and its verdict on the terminal. *)
Definition reportFile (evidenceDir : string) (result : report) : Mn unit :=
  encoded ← orPanic (mret (marshalReport result));
  _ ← orPanic (writeFile m (filepath_Join evidenceDir "report.json") (FileText (encoded +:+ String (chr 10) "")));
  print (Stdout (Classification result)).

Definition redisConnection : string := "redis".
(** With a Redis client. *)
Definition runNegotiation (evidenceDir : string) : Mn Z :=
  _ ← orPanic (call m (Ping redisConnection));
  w ← onWorld get;
  let before := length (w_sentRequests w) in
  now ← clock m;
  privateKey ← orPanic (generateRSAKey m lib);
  signer ← onWorld (newProbeSigner ("probe:http-signature:" +:+ itoa now +:+ ":") privateKey);
  '(fetchAddress, fetchURL) ← orPanic newServer;
  deferring (closeTestServer fetchAddress)
    (_ ← onWorld (probeFetch httpdate legacySign rfcSign rfcInclude unmarshal marshalDigest sensitive fetchURL signer);
     '(genericAddress, genericURL) ← orPanic newServer;
     deferring (closeTestServer genericAddress)
       (_ ← onWorld (probeGeneric httpdate legacySign rfcSign rfcInclude unmarshal marshalDigest sensitive genericURL signer);
        '(deliveryAddress, deliveryURL) ← orPanic newServer;
        deferring (closeTestServer deliveryAddress)
          (result ← onWorld (probeDeliveries httpdate legacySign rfcSign rfcInclude unmarshal marshalDigest sensitive fetchURL genericURL
                               deliveryURL signer before);
           _ ← reportFile evidenceDir result;
           mret 0))).

(** [main] with the arguments after the program's name: the exit code. *)
Definition negotiationMain (args : list string) : Mn Z :=
  match parseFlags ["redis-url"; "evidence-dir"] ∅ args with
  | FlagsRefused code => mret code
  | FlagsParsed values =>
      let redisURL := default "" (values !! "redis-url") in
      let evidenceDir := default "" (values !! "evidence-dir") in
      if (redisURL =s "") || (evidenceDir =s "") then
        _ ← print (Stderr "--redis-url and --evidence-dir are required"); mret 2
      else
        _ ← orPanic (call m (MkdirAll evidenceDir));
        options ← orPanic (mret (parseRedisURL redisURL));
        _ ← sure m (NewRedisClient redisConnection (roAddr options));
        deferring (attempt m (CloseRedisClient redisConnection)) (runNegotiation evidenceDir)
  end.
End run.

Section spec.
Context {S : Type} `{Redis S} {PrivateKey PublicKey Certificate TlsCertificate Message : Type}.
Abbreviation Mn := (M (harness (World S))).
Variable m : machine.
Variable lib : CryptoLib PrivateKey PublicKey Certificate TlsCertificate.
Variable httpdate : Time → string.
Variable legacySign : PrivateKey → string → list string → string → outRequest → result outRequest.
Variable rfcSign : PrivateKey → string → list string → outRequest → result Message.
Variable rfcInclude : Message → outRequest → result outRequest.
Variable unmarshal : list string → result sfvDictionary.
Variable marshalDigest : list ascii → result string.
Variable sensitive : URL → URL → bool.
Variable parseRedisURL : string → result redisOptions.
Variable marshalReport : report → result string.
Abbreviation body := (runNegotiation m lib httpdate legacySign rfcSign rfcInclude unmarshal marshalDigest sensitive marshalReport).
Abbreviation main := (negotiationMain m lib httpdate legacySign rfcSign rfcInclude unmarshal marshalDigest sensitive parseRedisURL
                        marshalReport).
Abbreviation known := ["redis-url"; "evidence-dir"].
Abbreviation probe := (negotiationProbe httpdate legacySign rfcSign rfcInclude unmarshal marshalDigest sensitive).

(** ** What is taken and given back *)

Section balance.
Variable P : resource → Prop.

Lemma neutral_orPanic {A} (c : Mn (result A)) : neutral P c → neutral P (orPanic c).
Proof. intros Hc. unfold orPanic. neutral_auto. Qed.
Lemma neutral_onWorld {A} (f : M (World S) A) : neutral P (onWorld f).
Proof. intros h. unfold onWorld. destruct (f (hReport h)) as [w o]. by apply moves_same. Qed.
Lemma neutral_taken {A B} rs (c : Mn (result A)) (f : A → Mn B) : taking P rs c →
  (∀ a h0 h, moves P (rs a) [] h0 h → moves P [] [] h0 (f a h).1) → neutral P (orPanic c ≫= f).
Proof.
  intros Hc Hf h. specialize (Hc h). unfold orPanic, mbind, M_bind. destruct (c h) as [h1 [[a|e]|msg]]; [by apply Hf|exact Hc|exact Hc].
Qed.
Lemma taking_newServer : taking P (λ s, [Listener s.1; Server s.1]) (newServer (S := S) m).
Proof.
  intros h. unfold newServer, callAt. unfold mbind, M_bind. cbn -[record]. set (n := length (hLog h)).
  pose proof (moves_record m P (Listen "127.0.0.1:0") (match mFails m n with None => true | Some _ => false end) h) as M1. cbv zeta in M1.
  destruct (mFails m n) as [e|]; cbn -[record] in *.
  - set (h1 := record m (Listen "127.0.0.1:0") false h) in *. set (n1 := length (hLog h1)).
    pose proof (moves_record m P (Listen "[::1]:0") (match mFails m n1 with None => true | Some _ => false end) h1) as M2. cbv zeta in M2.
    destruct (mFails m n1) as [e'|]; cbn -[record] in *; [exact (moves_trans P _ _ _ _ _ _ _ M1 M2)|].
    pose proof (moves_record m P (Serve "[::1]:0") true (record m (Listen "[::1]:0") true h1)) as M3. cbn -[record] in M3.
    exact (moves_trans P _ _ _ _ _ _ _ M1 (moves_trans P _ _ _ _ _ _ _ M2 M3)).
  - pose proof (moves_record m P (Serve "127.0.0.1:0") true (record m (Listen "127.0.0.1:0") true h)) as M3. cbn -[record] in M3.
    exact (moves_trans P _ _ _ _ _ _ _ M1 M3).
Qed.
Lemma giving_closeTestServer address : giving P [Listener address; Server address] (closeTestServer (S := S) m address).
Proof. apply (giving_two P [Listener address] [Server address]); by apply giving_attempt. Qed.
Lemma neutral_testServer {B} (rest : string → string → Mn B) : (∀ a u, neutral P (rest a u)) →
  neutral P ('(address, url) ← orPanic (newServer m); deferring (closeTestServer m address) (rest address url)).
Proof.
  intros Hr. eapply neutral_taken; [apply taking_newServer|]. intros [address url] h0 h Hm.
  eapply neutral_deferring; [apply giving_closeTestServer|apply Hr|exact Hm].
Qed.
Lemma neutral_runNegotiation dir : neutral P (body dir).
Proof.
  unfold runNegotiation. pose proof @neutral_orPanic. pose proof @neutral_onWorld.
  do 5 (apply neutral_bind; [neutral_auto|intros ?]). cbv zeta.
  apply neutral_testServer. intros ? fetchURL. apply neutral_bind; [neutral_auto|intros ?].
  apply neutral_testServer. intros ? genericURL. apply neutral_bind; [neutral_auto|intros ?].
  apply neutral_testServer. intros ? deliveryURL. unfold reportFile. neutral_auto.
Qed.
End balance.

(** The signature-negotiation probe asks for the release of all it took, also when a check fails and it
    panics: its Redis client and the listeners and servers of its three test servers were asked to
    close by its end; only the evidence directory stays. *)
Theorem negotiation_run_asks_every_release (args : list string) (values : gmap string string) (h : harness (World S)) (r : resource)
    (Hflags : parseFlags known ∅ args = FlagsParsed values) (Hdir : r ≠ Directory (default "" (values !! "evidence-dir"))) :
  balance r (hLog (main args h).1) = balance r (hLog h).
Proof.
  set (dir := default "" (values !! "evidence-dir")) in *. set (P := λ r, r ≠ Directory dir).
  assert (Hn : neutral P (main args)); [|destruct (Hn h) as [_ B]; rewrite B by done; cbn; lia].
  unfold negotiationMain. rewrite Hflags. cbv zeta. fold dir. case_match; [neutral_auto|].
  eapply (neutral_taken P (λ _, [Directory dir])); [by apply taking_call|]. intros _ h0 h1 Hm.
  assert (Hm' : moves P [] [] h0 h1).
  { apply (moves_eq P _ _ [] []) in Hm; [exact Hm|]. intros r' Hr. cbn. rewrite bool_decide_eq_false_2 by (intros <-; by apply Hr). done. }
  match goal with |- moves _ _ _ _ (?c h1).1 => assert (Hc : neutral P c) end; [|exact (moves_trans P _ _ _ _ _ _ _ Hm' (Hc h1))].
  apply neutral_bind; [apply neutral_orPanic; neutral_auto|]. intros options h2. erewrite bind_Done by reflexivity.
  pose proof (moves_record m P (NewRedisClient redisConnection (roAddr options)) true h2) as M1. cbv zeta in M1. cbn in M1.
  eapply neutral_deferring; [by apply giving_attempt|apply neutral_runNegotiation|exact M1].
Qed.

(** ** What success means *)

(** World, files and output stay as they are. *)
Definition alike (h h' : harness (World S)) : Prop := hReport h' = hReport h ∧ hFiles h' = hFiles h ∧ hOut h' = hOut h.
Lemma alike_trans h1 h2 h3 : alike h1 h2 → alike h2 h3 → alike h1 h3.
Proof. intros (?&?&?) (?&?&?). repeat split; congruence. Qed.
Lemma orPanic_Done {A} (c : Mn (result A)) h h' a : orPanic c h = (h', Done a) → c h = (h', Done (Ok a)).
Proof. unfold orPanic, mbind, M_bind. destruct (c h) as [h1 [[b|e]|msg]]; [|done|done]. by intros [= <- <-]. Qed.
Lemma onWorld_Done {A} (f : M (World S) A) h h' a : onWorld f h = (h', Done a) →
  f (hReport h) = (hReport h', Done a) ∧ hFiles h' = hFiles h ∧ hOut h' = hOut h.
Proof. unfold onWorld. destruct (f (hReport h)) as [w o]. by intros [= <- ->]. Qed.
Lemma testServer_Done h h' a : newServer m h = (h', Done (Ok a)) → alike h h'.
Proof.
  unfold newServer, callAt, mbind, M_bind. cbn. destruct (mFails m _); [cbn; destruct (mFails m _); [done|]|]; by intros [= <- _].
Qed.
Lemma deferring_Done {A} cleanup (rest : Mn A) h h' a : (∀ h0, alike h0 (cleanup h0).1) → deferring cleanup rest h = (h', Done a) →
  ∃ h1, rest h = (h1, Done a) ∧ alike h1 h'.
Proof.
  intros Hq. unfold deferring. destruct (rest h) as [h1 o]. specialize (Hq h1). destruct (cleanup h1) as [h2 [u|msg]]; [|done].
  intros [= <- ->]. by exists h1.
Qed.
Lemma testServer_scope {A} (rest : string → string → Mn A) h h' a :
  ('(address, url) ← orPanic (newServer m); deferring (closeTestServer m address) (rest address url)) h = (h', Done a) →
  ∃ address url h1 h2, alike h h1 ∧ rest address url h1 = (h2, Done a) ∧ alike h2 h'.
Proof.
  intros (h1 & [address url] & E1 & E2)%bind_inv. apply orPanic_Done, testServer_Done in E1.
  apply deferring_Done in E2 as (h2 & E2 & E3); [|done]. by exists address, url, h1, h2.
Qed.
(** A write that succeeds. *)
Lemma writeFile_Done path content (h h' : harness (World S)) : writeFile m path content h = (h', Done (Ok tt)) →
  hFiles h' !! path = Some content ∧ hReport h' = hReport h ∧ hOut h' = hOut h.
Proof.
  unfold writeFile, call, callAt, bindErr, mbind, M_bind. cbn. destruct (mFails m _); [done|]. intros [= <-]. cbn. by rewrite lookup_insert_eq.
Qed.
Lemma verdict_passes r w w' r' : probeVerdict (S := S) r w = (w', Done r') → Classification r' = "signature_negotiation_runtime_pass".
Proof. unfold probeVerdict. repeat (case_match; [done|]). by intros [= _ <-]. Qed.
Lemma deliveries_verdict f g d signer before w w' r :
  probeDeliveries (S := S) httpdate legacySign rfcSign rfcInclude unmarshal marshalDigest sensitive f g d signer before w = (w', Done r) →
  Classification r = "signature_negotiation_runtime_pass".
Proof.
  unfold probeDeliveries. intros E. repeat (apply bind_inv in E as (? & ? & _ & E)). by apply verdict_passes in E.
Qed.

(** What a run that succeeds has shown. *)
Definition passed (dir : string) (h h' : harness (World S)) : Prop := ∃ fetchURL genericURL deliveryURL prefix key result encoded,
  probe fetchURL genericURL deliveryURL prefix key (hReport h) = (hReport h', Done result)
  ∧ Classification result = "signature_negotiation_runtime_pass"
  ∧ hOut h' = hOut h ++ [ShownLine (Stdout "signature_negotiation_runtime_pass")]
  ∧ marshalReport result = Ok encoded
  ∧ hFiles h' !! filepath_Join dir "report.json" = Some (FileText (encoded +:+ String (chr 10) "")).
Lemma passed_alike dir h h1 h2 h' : alike h h1 → passed dir h1 h2 → alike h2 h' → passed dir h h'.
Proof.
  intros (E1&_&O1) (f&g&d&p&k&r&e&Hp&Hc&Ho&Hm&Hf) (E2&F2&O2). exists f, g, d, p, k, r, e. rewrite E2, F2, O2, <- E1, <- O1. done.
Qed.
Lemma runNegotiation_Done dir h h' : body dir h = (h', Done 0) → passed dir h h'.
Proof.
  unfold runNegotiation. intros (h1 & [] & E1 & E)%bind_inv. apply orPanic_Done in E1.
  assert (A1 : alike h h1) by (revert E1; unfold call, callAt, mbind, M_bind; cbn; by intros [= <- _]).
  apply bind_inv in E as (h2 & w & E2 & E). apply onWorld_Done in E2 as (E2&F2&O2). unfold get in E2. injection E2 as W2 <-. cbv zeta in E.
  apply bind_inv in E as (h3 & now & E3 & E). assert (A3 : alike h2 h3) by (unfold clock, mbind, M_bind in E3; cbn in E3; by injection E3 as <- _).
  apply bind_inv in E as (h4 & key & E4 & E). apply orPanic_Done in E4.
  assert (A4 : alike h3 h4).
  { revert E4. unfold generateRSAKey, callAt, mbind, M_bind. cbn. destruct (mFails m _); [done|]. by intros [= <- _]. }
  apply bind_inv in E as (h5 & signer & E5 & E). apply onWorld_Done in E5 as (E5&F5&O5).
  apply testServer_scope in E as (fa & fu & h6 & h7 & A6 & E & A7). apply bind_inv in E as (h8 & [] & E8 & E). apply onWorld_Done in E8 as (E8&F8&O8).
  apply testServer_scope in E as (ga & gu & h9 & h10 & A9 & E & A10). apply bind_inv in E as (h11 & [] & E11 & E). apply onWorld_Done in E11 as (E11&F11&O11).
  apply testServer_scope in E as (da & du & h12 & h13 & A12 & E & A13). apply bind_inv in E as (h14 & r & E14 & E). apply onWorld_Done in E14 as (E14&F14&O14).
  apply bind_inv in E as (h17 & [] & E17 & E). unfold mret, M_ret in E. injection E as <-.
  apply bind_inv in E17 as (h15 & encoded & E15 & E17). apply orPanic_Done in E15. unfold mret, M_ret in E15. injection E15 as <- Hm.
  apply bind_inv in E17 as (h16 & [] & E16 & E17). apply orPanic_Done, writeFile_Done in E16 as (F16&R16&O16).
  unfold print, modify in E17. injection E17 as <-.
  pose proof (deliveries_verdict _ _ _ _ _ _ _ _ E14) as Hc.
  unfold alike in *. exists fu, gu, du, ("probe:http-signature:" +:+ itoa now +:+ ":"), key, r, encoded.
  destruct_and!. cbn [hReport hFiles hOut] in *. split; [|split; [exact Hc|split; [|split; [exact Hm|congruence]]]].
  - unfold negotiationProbe. erewrite bind_Done by reflexivity. cbv zeta.
    repeat match goal with K : hReport _ = hReport _ |- _ => revert K end.
    intros. replace (hReport h) with (hReport h4) by congruence. erewrite bind_Done by exact E5.
    replace (hReport h5) with (hReport h6) by congruence. erewrite bind_Done by exact E8.
    replace (hReport h8) with (hReport h9) by congruence. erewrite bind_Done by exact E11.
    replace (hReport h11) with (hReport h12) by congruence. replace (hReport h4) with (hReport h1) by congruence.
    rewrite E14. congruence.
  - rewrite <- Hc. congruence.
Qed.

(** C39: The signature-negotiation probe succeeds only if the relay's signer passed.  Exit code 0, with flags
    that parse, means that the whole probe ran in the world of the run, from the signer to the
    verdict, for some key and some addresses of its three servers; that its verdict was a pass;
    and that this verdict is what was printed and what the report file in the evidence directory
    says. *)
Theorem negotiation_exit_zero_is_a_pass (args : list string) (values : gmap string string) (h h' : harness (World S))
    (Hflags : parseFlags known ∅ args = FlagsParsed values) (Hrun : main args h = (h', Done 0)) :
  ∃ fetchURL genericURL deliveryURL prefix key result encoded,
    probe fetchURL genericURL deliveryURL prefix key (hReport h) = (hReport h', Done result)
    ∧ Classification result = "signature_negotiation_runtime_pass"
    ∧ hOut h' = hOut h ++ [ShownLine (Stdout "signature_negotiation_runtime_pass")]
    ∧ marshalReport result = Ok encoded
    ∧ hFiles h' !! filepath_Join (default "" (values !! "evidence-dir")) "report.json" = Some (FileText (encoded +:+ String (chr 10) "")).
Proof.
  revert Hrun. unfold negotiationMain. rewrite Hflags. cbv zeta. case_match; [done|]. set (dir := default "" (values !! "evidence-dir")).
  intros (h1 & [] & E1 & E)%bind_inv. apply bind_inv in E as (h2 & options & E2 & E). apply orPanic_Done in E1, E2.
  unfold mret, M_ret in E2. injection E2 as <- _. erewrite bind_Done in E by reflexivity.
  apply deferring_Done in E as (h3 & E & A3); [|done]. apply runNegotiation_Done in E.
  eapply passed_alike; [|exact E|exact A3].
  revert E1. unfold call, callAt, mbind, M_bind. cbn. by intros [= <- _].
Qed.
End spec.

(** ** Witnesses *)

(** The calls answer with the ports of [threeServers]. *)
Definition probeMachine : machine :=
  mkMachine (λ _, None) (λ n, if (n =? 5)%nat then 41001 else if (n =? 7)%nat then 41002 else if (n =? 9)%nat then 41003 else 0) (λ _, "")
    (λ _, 0%nat).
Definition probeFlags : list string := ["--redis-url=redis://127.0.0.1:6379"; "--evidence-dir"; "/evidence"].
Definition exampleNegotiation (m : machine) : harness (World Calm) * outcome Z :=
  negotiationMain m plainLib (λ _, "date") markLegacy (λ _ _ _ _, Ok tt) markInclude readAccept (λ _, Ok "") (λ _ _, false)
    (λ _, Ok (mkRedisOptions "tcp" "127.0.0.1:6379" "" "" 0 false)) (λ r, Ok (Classification r)) probeFlags
    (harnessStart (serversWorld threeServers)).
Lemma exampleNegotiation_zero : exampleNegotiation probeMachine = ((exampleNegotiation probeMachine).1, Done 0).
Proof.
  assert (E : (exampleNegotiation probeMachine).2 = Done 0) by (vm_compute; reflexivity). rewrite <- E. apply surjective_pairing.
Qed.
Lemma negotiation_exit_zero_is_a_pass_witness :
  hOut (exampleNegotiation probeMachine).1 = [ShownLine (Stdout "signature_negotiation_runtime_pass")].
Proof.
  destruct (parseFlags ["redis-url"; "evidence-dir"] ∅ probeFlags) as [values|code] eqn:E; [|vm_compute in E; discriminate E].
  destruct (negotiation_exit_zero_is_a_pass probeMachine plainLib (λ _, "date") markLegacy (λ _ _ _ _, Ok tt) markInclude readAccept (λ _, Ok "")
    (λ _ _, false) (λ _, Ok (mkRedisOptions "tcp" "127.0.0.1:6379" "" "" 0 false)) (λ r, Ok (Classification r)) probeFlags values
    (harnessStart (serversWorld threeServers)) (exampleNegotiation probeMachine).1 E exampleNegotiation_zero)
    as (f & g & d & p & k & r & e & _ & _ & Ho & _). exact Ho.
Defined.
(** The second server finds no port: the client and the first server are closed all the same. *)
Definition portlessMachine : machine :=
  mkMachine (λ n, if (6 <? n)%nat then Some (errorsNew "too many open files") else None) (λ _, 41001) (λ _, "") (λ _, 0%nat).
Lemma negotiation_run_asks_every_release_witness :
  balance (Listener "127.0.0.1:0") (hLog (exampleNegotiation portlessMachine).1) = balance (Listener "127.0.0.1:0") [].
Proof.
  unfold exampleNegotiation. destruct (parseFlags ["redis-url"; "evidence-dir"] ∅ probeFlags) as [values|code] eqn:E;
    [|vm_compute in E; discriminate E].
  refine (negotiation_run_asks_every_release portlessMachine plainLib (λ _, "date") markLegacy (λ _ _ _ _, Ok tt) markInclude readAccept
    (λ _, Ok "") (λ _ _, false) (λ _, Ok (mkRedisOptions "tcp" "127.0.0.1:6379" "" "" 0 false)) (λ r, Ok (Classification r)) probeFlags values
    (harnessStart (serversWorld threeServers)) (Listener "127.0.0.1:0") E _).
  discriminate.
Defined.
Example portless_run : (exampleNegotiation portlessMachine).2 = Panic "httptest: failed to listen on a port: too many open files"
  ∧ asked (λ c, match c with CloseListener _ => true | _ => false end) (hLog (exampleNegotiation portlessMachine).1) = 1%nat.
Proof. vm_compute. done. Qed.
