(* ===== verification/CommandTree.v ===== *)
(** * The command line of the relay (main.go, control/, internal/directorycommand)

    The tree of commands the program hands to cobra: names, flags, the rule for the
    arguments, and what a command runs; help texts are left out.  cobra and pflag are not
    part of the source: how the flags of a command are put together with the persistent
    flags of the commands above it is a parameter, of which only the documented refusal
    of a name's letter that is already taken is used.

    Which commands can be run at all, given that a flag's letter can be taken only once,
    and that a command's words name it. *)

From S2P Require Import Prelude GoStrings GoUrl GoTime Json Redis World ActivityModel FileSystem RelayState Queue Decode Signer.
From S2P Require Import DirectoryClient DirectoryConfig DirectoryCommand RelayConfig Control Deliver Startup ServerLifecycle.
From S2P Require Import ActorKey.

(** ** Flags and commands *)

Inductive flagValue := StringFlag (default : string) | BoolFlag (default : bool) | IntFlag (default : Z).
#[export] Instance flagValue_eq_dec : EqDecision flagValue.
Proof. solve_decision. Defined.
(** A flag with the letter that abbreviates it, or an empty one. *)
Record flag := mkFlag { flName : string; flShorthand : string; flValue : flagValue; flRequired : bool }.
#[export] Instance flag_eq_dec : EqDecision flag.
Proof. solve_decision. Defined.
Inductive argsRule := AnyArgs | MinimumNArgs (n : nat) | MaximumNArgs (n : nat) | ExactArgs (n : nat).

Section commands.
Context {A : Type}.
Inductive command := mkCommand (use : string) (args : argsRule) (flags persistent : list flag) (run : option A) (children : list command).
Definition cmUse (c : command) : string := let 'mkCommand use _ _ _ _ _ := c in use.
Definition cmArgs (c : command) : argsRule := let 'mkCommand _ args _ _ _ _ := c in args.
Definition cmFlags (c : command) : list flag := let 'mkCommand _ _ flags _ _ _ := c in flags.
Definition cmPersistent (c : command) : list flag := let 'mkCommand _ _ _ persistent _ _ := c in persistent.
Definition cmRun (c : command) : option A := let 'mkCommand _ _ _ _ run _ := c in run.
Definition cmChildren (c : command) : list command := let 'mkCommand _ _ _ _ _ children := c in children.
(** [Command.Name]: the first word of the usage line. *)
Definition cmName (c : command) : string := (Cut (cmUse c) " ").1.1.
(** [AddCommand]. *)
Definition AddCommand (parent child : command) : command :=
  mkCommand (cmUse parent) (cmArgs parent) (cmFlags parent) (cmPersistent parent) (cmRun parent) (cmChildren parent ++ [child]).
(** A command by its words, with the persistent flags of the commands above it. *)
Fixpoint resolve (c : command) (inherited : list flag) (words : list string) : option (command * list flag) :=
  match words with
  | [] => Some (c, inherited)
  | word :: words =>
      match List.find (λ d, cmName d =s word) (cmChildren c) with
      | Some d => resolve d (inherited ++ cmPersistent c) words
      | None => None
      end
  end.
End commands.
Arguments command A : clear implicits.

(** ** The commands *)

Section tree.
Context {S : Type} `{Redis S} {PrivateKey : Type}.
Abbreviation Mc := (M (CmdWorld S)).
(** A control command, given the package variables, the reloads that happen, its flags and its
    arguments. *)
Definition controlFunction : Type := Control S PrivateKey → (nat → bool) → (string → string) → list string → Mc (result unit).
(** What a command runs: a control command behind [InitProxy] or [InitProxyE]; [rootRun], [serverRun],
    [workerRun] below; [generateKeyCommand]; or a command of [DirectoryCommand]. *)
Inductive action :=
  | RunRoot | RunServer | RunWorker | RunGenerateKey | RunControl (f : controlFunction)
  | RunStatus | RunLifecycle (name : string) | RunUnregister.

Definition group (use : string) : command action := mkCommand use AnyArgs [] [] None [].
Definition leaf (use : string) (args : argsRule) (flags : list flag) (run : action) : command action :=
  mkCommand use args flags [] (Some run) [].
Definition quietly (f : Mc unit) : Mc (result unit) := _ ← f; mret (Ok tt).

Definition configCmdInit : command action :=
  let config := group "config" in
  let config := AddCommand config (leaf "list" AnyArgs [] (RunControl (λ _ _ _ _, quietly listConfig))) in
  let config := AddCommand config (leaf "export" AnyArgs [] (RunControl (λ _ _ _ _, quietly exportConfig))) in
  let config := AddCommand config (leaf "import [flags]" AnyArgs [mkFlag "data" "" (StringFlag "") true]
                                     (RunControl (λ ctl _ flags _, quietly (importConfig (flags "data"))))) in
  let config := AddCommand config (leaf "enable" (MinimumNArgs 1) [] (RunControl (λ _ _ _ args, configEnable args))) in
  AddCommand config (leaf "disable" (MinimumNArgs 1) [] (RunControl (λ _ _ _ args, configDisable args))).
Definition domainCmdInit : command action :=
  let domain := group "domain" in
  let domain := AddCommand domain (leaf "list [flags]" AnyArgs [mkFlag "type" "t" (StringFlag "subscriber") false]
                                     (RunControl (λ ctl env flags _, listDomains (env 0%nat) (flags "type")))) in
  let domain := AddCommand domain (leaf "set [flags]" (MinimumNArgs 1) [mkFlag "type" "t" (StringFlag "") true]
                                     (RunControl (λ ctl _ flags args, setDomainType (flags "type") args))) in
  let domain := AddCommand domain (leaf "unset [flags]" (MinimumNArgs 1) [mkFlag "type" "t" (StringFlag "") true]
                                     (RunControl (λ ctl _ flags args, unsetDomainType (flags "type") args))) in
  AddCommand domain (leaf "unfollow [flags]" AnyArgs [] (RunControl (λ ctl env _ args, unfollowDomains ctl env args))).
Definition followCmdInit : command action :=
  let follow := group "follow" in
  let follow := AddCommand follow (leaf "list" AnyArgs [] (RunControl (λ _ _ _ _, listFollows))) in
  let follow := AddCommand follow (leaf "accept" (MinimumNArgs 1) [] (RunControl (λ ctl env _ args, acceptFollow ctl env args))) in
  let follow := AddCommand follow (leaf "reject" (MinimumNArgs 1) [] (RunControl (λ ctl env _ args, rejectFollow ctl env args))) in
  AddCommand follow (leaf "update" AnyArgs [] (RunControl (λ ctl _ _ _, updateActor ctl))).
(** [BuildCommand] of control. *)
Definition controlBuildCommand (command : command action) : CommandTree.command action :=
  AddCommand (AddCommand (AddCommand command configCmdInit) domainCmdInit) followCmdInit.

(** [buildCommand] of internal/directorycommand. *)
Definition directoryBuildCommand : command action :=
  let directory := group "directory" in
  let directory := AddCommand directory (leaf "status [origin]" (MaximumNArgs 1) [] RunStatus) in
  let directory := AddCommand directory (leaf "register [origin]" (ExactArgs 1) [] (RunLifecycle "register")) in
  let directory := AddCommand directory (leaf "heartbeat [origin]" (ExactArgs 1) [] (RunLifecycle "heartbeat")) in
  let directory := AddCommand directory (leaf "sync [origin]" (ExactArgs 1) [] (RunLifecycle "sync")) in
  AddCommand directory (leaf "unregister [origin]" (ExactArgs 1)
    [mkFlag "remove" "" (BoolFlag false) false; mkFlag environmentAcknowledgementFlag "" (BoolFlag false) false] RunUnregister).

(** [buildCommand] of main.go. *)
Definition buildCommand : command action :=
  let generateKey := leaf "generate-key" AnyArgs
    [mkFlag "output" "o" (StringFlag "actor.pem") false; mkFlag "bits" "" (IntFlag 3072) false] RunGenerateKey in
  let server := leaf "server" AnyArgs [] RunServer in
  let worker := leaf "worker" AnyArgs [] RunWorker in
  let command := controlBuildCommand (group "control") in
  let app := leaf "relay" AnyArgs [] RunRoot in
  AddCommand (AddCommand (AddCommand (AddCommand (AddCommand app server) worker) command) generateKey) directoryBuildCommand.
(** The persistent flags [main] adds. *)
Definition mainFlags : list flag :=
  [mkFlag "config" "c" (StringFlag "config.yml") false; mkFlag "verbose" "v" (BoolFlag false) false;
   mkFlag "test-config" "t" (BoolFlag false) false; mkFlag "strict" "" (BoolFlag false) false].
Definition app : command action :=
  let c := buildCommand in
  mkCommand (cmUse c) (cmArgs c) (cmFlags c) (cmPersistent c ++ mainFlags) (cmRun c) (cmChildren c).
End tree.

(** ** What the commands of main.go run *)

Section runs.
Context {S : Type} `{Redis S} {PrivateKey : Type} (viper : ViperLib) (yaml : YamlLib) (keys : KeyLib PrivateKey)
  (parseRedisURL : string → result redisOptions) (ParseAddress : string → result string) (ping : result unit).
Variable version : string.
Abbreviation RelayConfig := (RelayConfig S PrivateKey).

(** The configuration and the welcome; an error is [logrus.Fatal]. *)
Definition welcomed (moduleName configPath : string) : Mf (list outputLine * result RelayConfig) :=
  '(lines, config) ← initConfig viper yaml keys parseRedisURL ParseAddress ping configPath;
  mret (match config with
        | Ok c => (lines ++ [Stdout (DumpWelcomeMessage c moduleName version)], Ok c)
        | Err e => (lines, Err e)
        end).
(** [server]: [initialized] is the outcome of the API package's [initialize] for a configuration. *)
Definition serverRun (initialized : RelayConfig → result unit) (configPath : string) (w : listenWorld)
    : Mf (list outputLine * (listenWorld * result lifecycle)) :=
  '(lines, config) ← welcomed "API Server" configPath;
  mret (lines, match config with
               | Ok c => EntrypointContext true (initialized c) (rcServerBind c) (rcObservabilityBind c) w
               | Err e => (w, Err e)
               end).
(** [worker]: [entrypoint] is [workerEntrypoint] with its libraries. *)
Definition workerRun {L} (entrypoint : RelayConfig → result L) (error : L → option error) (configPath : string)
    : Mf (list outputLine * result unit) :=
  '(lines, config) ← welcomed "Job Worker" configPath;
  mret (lines, c ← config; l ← entrypoint c; match error l with Some e => Err e | None => Ok tt end).
(** The root command; [help] is cobra's help. *)
Definition rootRun (help : result unit) (testConfig strictConfigTest : bool) (configPath : string) : Mf (list outputLine * result unit) :=
  if negb testConfig then mret ([], help)
  else runConfigTest (S := S) viper yaml keys parseRedisURL ParseAddress ping (Some configPath) strictConfigTest.
(** The exit code of [main] for what the command returned. *)
Definition exitCode (executed : result unit) : Z := match executed with Ok _ => 0 | Err _ => 1 end.
End runs.

Section general.
Context {A : Type}.
(** All the commands of a tree, by their words. *)
Fixpoint words (c : command A) : list (list string) :=
  [] :: concat (map (λ d, map (cons (cmName d)) (words d)) (cmChildren c)).
Lemma words_children (c : command A) d ws : d ∈ cmChildren c → ws ∈ words d → (cmName d :: ws) ∈ words c.
Proof.
  intros Hd Hw. destruct c as [use args flags persistent run children]. cbn [words cmChildren] in *. right.
  apply list_elem_of_In, in_concat. exists (map (cons (cmName d)) (words d)). split.
  - apply in_map_iff. exists d. split; [done|]. by apply list_elem_of_In.
  - apply in_map_iff. exists ws. split; [done|]. by apply list_elem_of_In.
Qed.
Lemma resolve_words (c d : command A) inherited inherited' ws : resolve c inherited ws = Some (d, inherited') → ws ∈ words c.
Proof.
  revert c inherited. induction ws as [|word ws IH]; intros c inherited E; [destruct c; left|]. cbn in E.
  destruct (List.find _ (cmChildren c)) as [e|] eqn:Ef; [|done]. apply List.find_some in Ef as [Hin Hn]. apply eqs_true in Hn.
  subst word. apply words_children; [by apply list_elem_of_In|]. by eapply IH.
Qed.
(** Siblings have different names, so that words name one command. *)
Fixpoint named (c : command A) : bool := bool_decide (NoDup (map cmName (cmChildren c))) && forallb named (cmChildren c).
End general.

(** pflag's [AddFlagSet]: flags are added one by one; one whose name is there is passed over, and one
    whose letter is there is refused. *)
Fixpoint mergeable (have inherited : list flag) : bool :=
  match inherited with
  | [] => true
  | f :: inherited =>
      if oneOf (flName f) (map flName have) then mergeable have inherited
      else if negb (flShorthand f =s "") && oneOf (flShorthand f) (map flShorthand have) then false
      else mergeable (have ++ [f]) inherited
  end.
(** The commands that list and change the lists of domains. *)
Definition domainCommands : list (list string) := [["control"; "domain"; "list"]; ["control"; "domain"; "set"]; ["control"; "domain"; "unset"]].
Definition is_panic {B} (o : outcome B) : bool := match o with Panic _ => true | Done _ => false end.

Section theorems.
Context {S : Type} `{Redis S} {PrivateKey : Type}.
Abbreviation app := (app (S := S) (PrivateKey := PrivateKey)).
(** cobra's merge of the flags of a command with the persistent flags of those above it. *)
Variable merge : list flag → list flag → outcome (list flag).

Lemma app_checked : forallb (λ ws,
  match resolve app [] ws with
  | Some (c, inherited) => Bool.eqb (negb (mergeable (cmFlags c) (cmPersistent c ++ inherited))) (bool_decide (ws ∈ domainCommands))
  | None => false
  end) (words app) = true.
Proof. vm_compute. reflexivity. Qed.

(** C40: Exactly three of the commands cannot be run: with a flag library that panics when a flag's
    letter is taken already, and only then, putting together the flags of a command that the program has panics
    for control domain list, set and unset, whose -t is also the letter of the
    persistent --test-config, and for no other command. *)
Theorem domain_commands_panic (ws : list string) (c : command action) (inherited : list flag)
    (Hmerge : ∀ flags above, is_panic (merge flags above) = negb (mergeable flags above))
    (Hc : resolve app [] ws = Some (c, inherited)) :
  is_panic (merge (cmFlags c) (cmPersistent c ++ inherited)) = true ↔ ws ∈ domainCommands.
Proof.
  rewrite Hmerge. pose proof app_checked as Ha. rewrite forallb_forall in Ha. specialize (Ha ws).
  rewrite Hc in Ha. apply eqb_prop in Ha; [|by eapply list_elem_of_In, resolve_words]. rewrite Ha. apply bool_decide_eq_true.
Qed.
(** No two commands with the same parent share a name. *)
Lemma app_named : named app = true ∧ length (words app) = 27%nat.
Proof. vm_compute. done. Qed.
End theorems.

(** ** Witness *)

Definition exampleMerge (flags above : list flag) : outcome (list flag) :=
  if mergeable flags above then Done (flags ++ above) else Panic "unable to redefine 't' shorthand".
Lemma exampleMerge_panics flags above : is_panic (exampleMerge flags above) = negb (mergeable flags above).
Proof. unfold exampleMerge. by destruct (mergeable flags above). Qed.
Lemma domain_commands_panic_witness :
  match resolve (app (S := Calm) (PrivateKey := unit)) [] ["control"; "domain"; "list"] with
  | Some (c, inherited) => is_panic (exampleMerge (cmFlags c) (cmPersistent c ++ inherited)) = true
  | None => False
  end.
Proof.
  destruct (resolve (app (S := Calm) (PrivateKey := unit)) [] ["control"; "domain"; "list"]) as [[c inherited]|] eqn:E; [|discriminate E].
  apply (domain_commands_panic exampleMerge ["control"; "domain"; "list"] c inherited exampleMerge_panics E). left.
Defined.
